(* ===== verification/_CoqProject ===== *)
-Q . S2P
Prelude.v
Bytes.v
Hoare.v
Loop.v
Arith.v
Signal.v
LinkedList.v
Buddy.v
BuddyGeometry.v
BuddyProofs.v
PageAlloc.v
Slab.v
SlabProofs.v
SlabCaches.v
KernelMem.v
Unix.v
UserSpace.v
Devices.v
Uart.v
Mmu.v
MmuTables.v
MmuProofs.v
MmuSpecs.v
Kernel.v
Pipe.v
PipeProofs.v
PipeSpecs.v
Files.v
FilesProofs.v
FileSpecs.v
FileTables.v
Process.v
ProcessFrame.v
ProcessSched.v
ProcessSignals.v
ProcessTree.v
Tty.v
CString.v
CStringProofs.v
Format.v
FormatProofs.v
Logger.v
LibTests.v
Block.v
BlockProofs.v
Mmc.v
Minix.v
Inode.v
InodeProofs.v
InodeSpecs.v
Dentry.v
Fs.v
DentryProofs.v
Lookup.v
FileStore.v
FsLaws.v
TtySpecs.v
Board.v
Io.v
Elf.v
ElfProofs.v
Exec.v
Syscall.v
System.v
ExecFrame.v
ExecProofs.v
ExecSpecs.v
ExecClaims.v
Stack.v
KernelFrame.v
KernelSteps.v
Boot.v
SyscallSpecs.v
Start.v
IoSpecs.v
ProcessTests.v
FsTests.v
