(* ===== verification/Prelude.v ===== *)
(** * Cyanurus: a verification of the kernel's core

    Cyanurus is a small Unix-like kernel for ARMv7, written in C.  This library
    models its core as executable functions and proves what makes them
    correct.  Paths below are relative to src/kernel.

    ** The program

    - Memory: page.c and buddy.c hand out blocks of pages, slab.c objects of
      fixed sizes out of them.  Everything else takes its memory from these two.
    - Libraries: lists through pointers (lib/list.c), sets of bits and of
      signals (lib/bitset.h, lib/signal.c), overflow checks (lib/arithmetic.c),
      strings (lib/string.c, lib/libgen.c), formatted output (lib/stdarg.c).
    - Files: mmc.c reads and writes sectors of the card, block.c caches blocks,
      superblock.c and inode.c implement a Minix file system, dentry.c the tree
      of its names, fs.c the calls on paths.
    - Processes: process.c keeps the process table, descriptors, signals,
      scheduling and the memory of processes; pipe.c the pipes; mmu.c the page
      tables; elf.c loads programs.
    - syscall.c decodes system calls, tty.c is the terminal, system.c handles
      exceptions.

    The kernel is not preempted: a system call runs until it returns, or until
    it sleeps and another process is dispatched.

    ** The files

    - [Prelude]: outcomes and the kernel monad, machine integers, the tactics
      and hints, lemmas on chains, sums over maps and lists.  [Bytes]: integers
      in buffers.  [Hoare]: the triple [runs] and its rules.  [Loop]: loops
      without a structural bound.
    - [Arith] (lib/arithmetic.c, lib/bitset.h), [Signal] (lib/signal.c),
      [LinkedList] (lib/list.c on a heap of nodes), [CString] and
      [CStringProofs] (lib/string.c, lib/libgen.c on a byte memory), [Format]
      and [FormatProofs] (lib/stdarg.c), [Logger] (logger.c).
    - [Buddy], [BuddyGeometry], [BuddyProofs], [PageAlloc]: page.c and buddy.c,
      with the class [PageAllocator] that they implement.  [Slab],
      [SlabProofs], [SlabCaches]: slab.c over any [PageAllocator].
      [KernelMem]: what both together promise to the rest.
    - [UserSpace]: what mmu.c promises to process.c.  [Mmu], [MmuTables],
      [MmuProofs], [MmuSpecs]: mmu.c, which implements it.
    - [Devices]: uart.c, gic.c, timer.c and the registers of mmc.c, on the class
      [Mmio] of memory-mapped words.  [Uart]: the laws of the serial port and
      what uart.c does with it.
    - [Unix], [Kernel]: constants, the state of process.c, pipe.c, tty.c and
      file.h, wait queues, the process table, process_kill.  [Pipe],
      [PipeProofs], [PipeSpecs]: pipe.c.  [Files], [FilesProofs], [FileSpecs],
      [FileTables]: the descriptors of process.c.
    - [Process]: the processes of process.c (creation, end, scheduling, signals,
      segments).  [ProcessFrame]: what the operations leave alone.
      [ProcessSched], [ProcessSignals], [ProcessTree]: their proofs.
      [KernelFrame]: the same for the terminal, files, programs and every system
      call.  [KernelSteps]: everything that happens in the system as a step
      relation, and what holds in all runs.  [Boot]: the first process.
    - [Block], [BlockProofs]: mmc.c and block.c, with the class [BlockStore].
      [Mmc]: the registers of the card and the driver on them, which is a [Card].
      [Minix]: minix.h and superblock.c.  [Inode], [InodeProofs], [InodeSpecs]:
      inode.c over any [BlockStore].  [Dentry], [Fs], [DentryProofs]: dentry.c
      and fs.c.  [Lookup]: paths, by the directories on the disk.  [FileStore]: what they promise to processes ([FileOps],
      [FileLaws]).  [FsLaws]: that they keep it.
    - [Tty], [TtySpecs]: tty.c.  [Board]: memory and devices side by side.
    - [Io], [IoSpecs]: the calls of process.c on open files.
    - [Elf], [ElfProofs]: elf.c.  [Exec], [ExecFrame], [ExecProofs],
      [ExecSpecs], [ExecClaims]: process_create and process_exec.  [Stack]:
      programs from the sectors of the card.  [Start]: __cstart of crt/runtime.c.
    - [Syscall], [SyscallSpecs]: syscall.c.  [System]: the exception handlers of
      system.c, and kernel.c.
    - [LibTests], [ProcessTests], [FsTests]: the tests of test-kernel, run on the
      models.

    ** How the code is modelled

    A C function is a computation of the monad [M]: from the state of its
    component to a result and a new state, or to a stop: [Halt] for
    system_halt, SYSTEM_BUG_ON and switching off, [Fault] for an access outside
    the objects there are, [Fuel] for a loop that outran its bound.  Objects in
    memory are records in finite maps by address; a null pointer is 0 or
    [None].  Integers are [Z] with the wrap-around of their C type written out.
    Linked lists of objects are sequences of their addresses, which [LinkedList]
    justifies; lists through the [next] fields of buddy.c and slab.c are kept
    as pointers.  A call that sleeps returns its locals; it is resumed by calling
    it again with them.

    Bounds: loops over fixed arrays run exactly as often as in the source; the
    others have a bound that is shown to be enough (the orders of the page
    allocator, the length of a queue, three turns for a pipe, the pages of an
    extent, the bytes of a buffer, 2^32 addresses for a string).
    [process_switch] recurs once for every process that a signal ends.  Busy
    waiting for a device is bounded by a number of polls, an argument that the
    theorems ask to exceed the delay of the device.

    Components are proved against interfaces and the implementations discharge
    them: [PageAllocator] by buddy.c, [KernelMem] by slab.c over it,
    [UserSpace] by mmu.c over [KernelMem], [BlockStore] by the block cache over
    [KernelMem] and [Card], [Card] by mmc.c over the registers of the controller
    ([MmcLaws]), [FileOps] and [FileLaws] by the file system over [BlockStore],
    whichever of its directories are loaded.  [MmcLaws] and [UartLaws] say what the
    devices do; each has a simulated device as an instance.

    ** What the theorems show

    - Allocators: a block or object handed out is free, large enough and
      overlaps nothing in use; freeing merges buddies back; the kernel halts
      only when memory is exhausted (C1 to C6, C35).
    - Pipes: first-in first-out under every interleaving, every branch of
      reading and writing (C7 to C9).
    - Processes: exact reference counts at every reachable state; every ready
      process is dispatched within a bound; entering a signal handler and
      returning from it restores everything; the process tree stays consistent
      and wait reaps the right child; SIGKILL cannot be blocked but by sigreturn
      (C10 to C14).  C11, C13 and C14 are about all runs: stores of the programs,
      system calls of every number, resumed calls, interrupts, data aborts and
      switches.  They assume at a fork that the allocators are consistent and the
      processes live objects in them ([procs_live]), and that identifiers do not
      outrun an int.
    - Address spaces and programs: the page tables implement one address space
      per process; process_exec and elf_load equal their reference meaning; a
      program finds its arguments; all of it from the sectors of the card; the
      first process, with which the invariants of C11, C13 and C14 start (C15 to
      C20).  For process_exec and process_create the program is [mappable]: it
      has both segments, each within a megabyte, and they do not overlap.
    - The boundary to user space: checks of pointers, reading and seeking, the
      terminal (C21 to C24).
    - File system: what is written is read back, through all levels of
      indirection; creation of inodes and its failures; blocks on the disk, also
      over the registers; loading of directories, and path lookup from the start
      on, in a tree that is loaded as paths are looked up (C25 to C31).
    - Descriptors: every branch of close, dup, dup2 and dup3, and the loops of
      fork, exec and exit (C32 to C34).
    - Libraries: lists and signal sets are sequences and sets; vsnprintf equals a
      reference formatter; messages fit their buffer (C36 to C40).

    The tests of the repository hold on the models: those of the library, of the
    processes and of the file system.

    ** What is not modelled

    - Assembly (asm/, lib/setjmp.s: exception entry, context switch, barriers)
      and the boot sequence system_init as one computation.
    - The test of elf.c and the harness of test-kernel, the tests in test-user
      and the user program in init, which are written against the C library.
    - What process_exec does with a program that is not [mappable], which it does
      not refuse: it may fault, or leave a segment unmapped. *)

From Stdlib Require Import ZArith Lia.
From stdpp Require Import base numbers list gmap.

#[local] Open Scope Z_scope.

(** ** Outcomes

    A kernel function either returns, or it stops: [Halt] is a call of
    [system_halt] (system.c), which never returns; [Fault] is an access
    outside the objects the model gives the code (a null or wild pointer, an
    index out of an array); [Fuel] is a loop that ran out of the iteration
    bound given to it.  The theorems show which of these can occur. *)
Inductive stop : Set := Halt | Fault | Fuel.

Inductive res (A : Type) : Type :=
| Ok (a : A)
| Err (r : stop).
Arguments Ok {A} a.
Arguments Err {A} r.

#[export] Instance stop_eq_dec : EqDecision stop.
Proof. solve_decision. Defined.

(** The kernel monad: a computation over the state [S] of a component. *)
Definition M (S A : Type) : Type := S -> res (A * S).

Definition ret {S A} (a : A) : M S A := fun s => Ok (a, s).
Definition fail {S A} (r : stop) : M S A := fun _ => Err r.
Definition bind {S A B} (m : M S A) (k : A -> M S B) : M S B :=
  fun s => match m s with
           | Ok (a, s') => k a s'
           | Err r => Err r
           end.
Definition gets {S A} (f : S -> A) : M S A := fun s => Ok (f s, s).
Definition modify {S} (f : S -> S) : M S unit := fun s => Ok (tt, f s).
(** [opt r o] is [o]'s value, or stops for the reason [r]. *)
Definition opt {S A} (r : stop) (o : option A) : M S A :=
  match o with Some a => ret a | None => fail r end.

Declare Scope kernel_scope.
Delimit Scope kernel_scope with kernel.
Notation "'let*' x := m 'in' k" := (bind m (fun x => k))
  (at level 200, x pattern, m at level 100, k at level 200, right associativity)
  : kernel_scope.
Notation "'do*' m 'in' k" := (bind m (fun _ : unit => k))
  (at level 200, m at level 100, k at level 200, right associativity)
  : kernel_scope.

Lemma bind_ok {S A B} (m : M S A) (k : A -> M S B) s a s' :
  m s = Ok (a, s') -> bind m k s = k a s'.
Proof. unfold bind. intros ->. reflexivity. Qed.

Lemma bind_inv {S A B} (m : M S A) (k : A -> M S B) s b s'' :
  bind m k s = Ok (b, s'') ->
  exists a s', m s = Ok (a, s') /\ k a s' = Ok (b, s'').
Proof. unfold bind. destruct (m s) as [[a s']|r]; [eauto | discriminate]. Qed.

Lemma bind_err {S A B} (m : M S A) (k : A -> M S B) s r :
  m s = Err r -> bind m k s = Err r.
Proof. unfold bind. intros ->. reflexivity. Qed.

(** Run the head of a monadic computation with a lemma about it. *)
Ltac mrun H := rewrite (bind_ok _ _ _ _ _ H); cbn beta iota.
Ltac mred :=
  unfold bind, ret, gets, modify, opt, fail in *; cbn beta iota in *.

(** ** Machine integers

    A C integer of width [w] is a [Z] in its range; an operation that can
    leave the range is followed by the wrap-around of its type.  The target is
    ARMv7 (ILP32): [int] and [long] have 32 bits, [long long] has 64. *)
Definition u8 (z : Z) : Z := z mod 2 ^ 8.
Definition u16 (z : Z) : Z := z mod 2 ^ 16.
Definition u32 (z : Z) : Z := z mod 2 ^ 32.
Definition u64 (z : Z) : Z := z mod 2 ^ 64.
Definition s32 (z : Z) : Z := (z + 2 ^ 31) mod 2 ^ 32 - 2 ^ 31.
Definition s64 (z : Z) : Z := (z + 2 ^ 63) mod 2 ^ 64 - 2 ^ 63.

Definition is_u8 (z : Z) : Prop := 0 <= z < 2 ^ 8.
Definition is_u32 (z : Z) : Prop := 0 <= z < 2 ^ 32.
Definition is_s32 (z : Z) : Prop := - 2 ^ 31 <= z < 2 ^ 31.
Definition is_s64 (z : Z) : Prop := - 2 ^ 63 <= z < 2 ^ 63.

Lemma u32_small z : is_u32 z -> u32 z = z.
Proof. unfold is_u32, u32. apply Z.mod_small. Qed.

Lemma u32_range z : is_u32 (u32 z).
Proof. unfold is_u32, u32. apply Z.mod_pos_bound. lia. Qed.

Lemma s32_small z : is_s32 z -> s32 z = z.
Proof. unfold is_s32, s32. intros H. rewrite Z.mod_small; lia. Qed.

(** [c && (x & m)]-style tests: a C expression is true when it is not 0. *)
Definition truthy (z : Z) : bool := negb (z =? 0).

(** The word [~z] of 32 bits. *)
Definition not32 (z : Z) : Z := u32 (Z.lnot z).

Lemma truthy_true z : truthy z = true <-> z <> 0.
Proof. unfold truthy. rewrite negb_true_iff, Z.eqb_neq. done. Qed.

Lemma truthy_false z : truthy z = false <-> z = 0.
Proof. unfold truthy. rewrite negb_false_iff, Z.eqb_eq. done. Qed.

Lemma pow2_pos n : 0 <= n -> 0 < 2 ^ n.
Proof. intros. apply Z.pow_pos_nonneg; lia. Qed.

(** [x & (1 << n)] tests the bit [n]. *)
Lemma land_pow2_eq a n :
  0 <= n -> Z.land a (2 ^ n) = if Z.testbit a n then 2 ^ n else 0.
Proof.
  intros Hn. apply Z.bits_inj'. intros i Hi.
  rewrite Z.land_spec, Z.pow2_bits_eqb by lia.
  destruct (Z.eqb_spec n i) as [<-|Hne].
  - destruct (Z.testbit a n); simpl.
    + by rewrite Z.pow2_bits_true.
    + by rewrite Z.bits_0.
  - rewrite andb_false_r. destruct (Z.testbit a n).
    + by rewrite Z.pow2_bits_false by lia.
    + by rewrite Z.bits_0.
Qed.

Lemma truthy_land_pow2 a n :
  0 <= n -> truthy (Z.land a (2 ^ n)) = Z.testbit a n.
Proof.
  intros Hn. rewrite land_pow2_eq by done. unfold truthy.
  pose proof (pow2_pos n Hn).
  destruct (Z.testbit a n).
  - replace (2 ^ n =? 0) with false by (symmetry; apply Z.eqb_neq; lia). done.
  - done.
Qed.

Lemma testbit_lor_pow2 a n i :
  0 <= n -> Z.testbit (Z.lor a (2 ^ n)) i = (n =? i) || Z.testbit a i.
Proof.
  intros Hn. rewrite Z.lor_spec, Z.pow2_bits_eqb by lia. apply orb_comm.
Qed.

Lemma testbit_clear_pow2 a n i :
  0 <= n -> 0 <= i ->
  Z.testbit (Z.land a (Z.lnot (2 ^ n))) i = negb (n =? i) && Z.testbit a i.
Proof.
  intros Hn Hi. rewrite Z.land_spec, Z.lnot_spec, Z.pow2_bits_eqb by lia.
  apply andb_comm.
Qed.

Lemma testbit_u32 a i : 0 <= i -> Z.testbit (u32 a) i = (i <? 32) && Z.testbit a i.
Proof.
  intros Hi. unfold u32. rewrite <- Z.land_ones by lia.
  rewrite Z.land_spec, Z.testbit_ones_nonneg by lia. apply andb_comm.
Qed.

Lemma testbit_not32 a i :
  0 <= i -> Z.testbit (not32 a) i = (i <? 32) && negb (Z.testbit a i).
Proof. intros Hi. unfold not32. by rewrite testbit_u32, Z.lnot_spec. Qed.

Lemma u32_testbit_high a i : is_u32 a -> 32 <= i -> Z.testbit a i = false.
Proof.
  intros Ha Hi. rewrite <- (u32_small a Ha), testbit_u32 by lia.
  replace (i <? 32) with false by (symmetry; apply Z.ltb_ge; lia). done.
Qed.

Lemma is_u32_bits a :
  0 <= a -> (forall i, 32 <= i -> Z.testbit a i = false) -> is_u32 a.
Proof.
  intros Ha H. split; [done|]. destruct (Z.eq_dec a 0) as [->|]; [done|].
  apply Z.log2_lt_pow2; [lia|].
  destruct (Z.lt_ge_cases (Z.log2 a) 32) as [|Hge]; [done|].
  specialize (H _ Hge). rewrite Z.bit_log2 in H by lia. discriminate.
Qed.

Lemma is_u32_lor a b : is_u32 a -> is_u32 b -> is_u32 (Z.lor a b).
Proof.
  intros Ha Hb. apply is_u32_bits.
  - apply Z.lor_nonneg. split; [apply Ha | apply Hb].
  - intros i Hi. by rewrite Z.lor_spec, !u32_testbit_high.
Qed.

Lemma is_u32_land a b : is_u32 a -> is_u32 (Z.land a b).
Proof.
  intros Ha. apply is_u32_bits.
  - apply Z.land_nonneg. left. apply Ha.
  - intros i Hi. by rewrite Z.land_spec, u32_testbit_high.
Qed.

Lemma is_u32_pow2 n : 0 <= n < 32 -> is_u32 (2 ^ n).
Proof.
  intros Hn. split; [apply Z.pow_nonneg; lia | apply Z.pow_lt_mono_r; lia].
Qed.

(** Equality of 32-bit words, bit by bit. *)
Lemma u32_bits_inj a b :
  is_u32 a -> is_u32 b ->
  (forall i, 0 <= i < 32 -> Z.testbit a i = Z.testbit b i) -> a = b.
Proof.
  intros Ha Hb H. apply Z.bits_inj'. intros i Hi.
  destruct (Z.lt_ge_cases i 32); [by apply H|].
  by rewrite !u32_testbit_high.
Qed.

(** ** Automation *)
Create HintDb kernel discriminated.
#[export] Hint Resolve u32_range is_u32_lor is_u32_land is_u32_pow2 pow2_pos : kernel.

(** Boolean comparisons of [Z] to propositions, everywhere. *)
Ltac zbool :=
  repeat match goal with
  | H : (_ <? _) = true |- _ => apply Z.ltb_lt in H
  | H : (_ <? _) = false |- _ => apply Z.ltb_ge in H
  | H : (_ <=? _) = true |- _ => apply Z.leb_le in H
  | H : (_ <=? _) = false |- _ => apply Z.leb_gt in H
  | H : (_ =? _) = true |- _ => apply Z.eqb_eq in H
  | H : (_ =? _) = false |- _ => apply Z.eqb_neq in H
  | H : truthy _ = true |- _ => apply truthy_true in H
  | H : truthy _ = false |- _ => apply truthy_false in H
  | H : negb _ = true |- _ => apply negb_true_iff in H
  | H : negb _ = false |- _ => apply negb_false_iff in H
  | H : _ && _ = true |- _ => apply andb_true_iff in H as [? ?]
  | H : _ || _ = false |- _ => apply orb_false_iff in H as [? ?]
  end.

(** Case analysis on the first boolean comparison of the goal. *)
Ltac zcase :=
  match goal with
  | |- context [?a <? ?b] => destruct (Z.ltb_spec a b)
  | |- context [?a <=? ?b] => destruct (Z.leb_spec a b)
  | |- context [?a =? ?b] => destruct (Z.eqb_spec a b)
  end.

(** ** Singly linked lists of records

    [lchain nx m h l]: from the pointer [h], following the field [nx] of the
    records of [m] visits the addresses [l] and ends with [NULL]. *)
Section Chain.
Context {A : Type} (nx : A -> option Z).
Implicit Types (m : gmap Z A) (l : list Z) (h : option Z).

Fixpoint lchain (m : gmap Z A) (h : option Z) (l : list Z) : Prop :=
  match l with
  | [] => h = None
  | i :: l => h = Some i /\ exists p, m !! i = Some p /\ lchain m (nx p) l
  end.

(** Agreement on the records of a list is enough. *)
Lemma chain_agree m m' h l :
  (forall i, i ∈ l -> m' !! i = m !! i) -> lchain m h l -> lchain m' h l.
Proof.
  revert h. induction l as [|j l IH]; simpl; intros h Ha Hc; [done|].
  destruct Hc as [-> (q & Hq & Hc)]. split; [done|]. exists q.
  rewrite Ha by set_solver. split; [done|]. apply IH; [|done]. set_solver.
Qed.

Lemma chain_insert_notin m h l i p :
  i ∉ l -> lchain m h l -> lchain (<[i := p]> m) h l.
Proof.
  intros Hi. apply chain_agree. intros j Hj. rewrite lookup_insert_ne; [done|].
  by intros ->.
Qed.

(** A write that keeps [nx] keeps every list. *)
Lemma chain_insert_same m h l i p p' :
  m !! i = Some p -> nx p' = nx p -> lchain m h l -> lchain (<[i := p']> m) h l.
Proof.
  intros Hp Hn. revert h. induction l as [|j l IH]; simpl; intros h Hc; [done|].
  destruct Hc as [-> (q & Hq & Hc)]. split; [done|].
  destruct (decide (i = j)) as [<-|].
  - exists p'. rewrite lookup_insert_eq. split; [done|].
    rewrite Hn. replace p with q by congruence. auto.
  - exists q. rewrite lookup_insert_ne by done. auto.
Qed.

Lemma chain_app m h l1 j l2 :
  lchain m h (l1 ++ j :: l2) -> exists p, m !! j = Some p /\ lchain m (nx p) l2.
Proof.
  revert h. induction l1 as [|i l1 IH]; simpl; intros h [-> (q & Hq & Hc)]; eauto.
Qed.

(** Bypassing [j]: the chain after the write of its predecessor's pointer. *)
Lemma chain_bypass m h l1 x p' j q l2 :
  lchain m h (l1 ++ x :: j :: l2) -> NoDup (l1 ++ x :: j :: l2) ->
  m !! j = Some q -> nx p' = nx q ->
  lchain (<[x := p']> m) h (l1 ++ x :: l2).
Proof.
  revert h. induction l1 as [|i l1 IH]; simpl; intros h Hc Hnd Hj Hn.
  - destruct Hc as [-> (p0 & Hp0 & [_ (q0 & Hq0 & Hc)])]. split; [done|].
    exists p'. rewrite lookup_insert_eq. split; [done|]. rewrite Hn.
    replace q with q0 by congruence. apply chain_insert_notin; [|done].
    apply NoDup_cons in Hnd as [Hnd _]. set_solver.
  - destruct Hc as [-> (p0 & Hp0 & Hc)]. apply NoDup_cons in Hnd as [Hni Hnd].
    split; [done|]. exists p0. rewrite lookup_insert_ne by set_solver. eauto.
Qed.

Lemma chain_in m h l i : lchain m h l -> i ∈ l -> is_Some (m !! i).
Proof.
  intros Hc Hi. apply list_elem_of_split in Hi as (l1 & l2 & ->).
  apply chain_app in Hc as (p & Hp & _). eauto.
Qed.
End Chain.

(** ** Sums over finite maps *)
Section MapSum.
Context {A : Type}.
Implicit Types (g : Z -> A -> Z) (m : gmap Z A).

Definition msum (g : Z -> A -> Z) (m : gmap Z A) : Z := map_fold (fun i x acc => g i x + acc) 0 m.

Lemma msum_empty g : msum g ∅ = 0.
Proof. apply map_fold_empty. Qed.

Lemma msum_insert g m i x : m !! i = None -> msum g (<[i := x]> m) = g i x + msum g m.
Proof.
  intros Hi. unfold msum. rewrite map_fold_insert_L; [done| |done].
  intros. lia.
Qed.

Lemma msum_delete g m i x : m !! i = Some x -> msum g m = g i x + msum g (delete i m).
Proof.
  intros Hi. rewrite <- (insert_delete_id m i x Hi) at 1. apply msum_insert. apply lookup_delete_eq.
Qed.

(** Replacing one value changes the sum by the difference. *)
Lemma msum_update g m i x y :
  m !! i = Some x -> msum g (<[i := y]> m) = msum g m - g i x + g i y.
Proof.
  intros Hi. rewrite <- insert_delete_eq, msum_insert by apply lookup_delete_eq.
  rewrite (msum_delete g m i x Hi). lia.
Qed.

Lemma msum_ext g g' m :
  (forall i x, m !! i = Some x -> g i x = g' i x) -> msum g m = msum g' m.
Proof.
  induction m as [|i x m Hi IH] using map_ind; intros H; [by rewrite !msum_empty|].
  rewrite !msum_insert, IH by (done || (intros; apply H; rewrite lookup_insert_ne; congruence)).
  by rewrite (H i x) by apply lookup_insert_eq.
Qed.

Lemma msum_le g g' m :
  (forall i x, m !! i = Some x -> g i x <= g' i x) -> msum g m <= msum g' m.
Proof.
  induction m as [|i x m Hi IH] using map_ind; intros H; [by rewrite !msum_empty|].
  rewrite !msum_insert by done. specialize (H i x (lookup_insert_eq _ _ _)) as Hx.
  assert (msum g m <= msum g' m); [|lia].
  apply IH. intros j y Hj. apply H. rewrite lookup_insert_ne; congruence.
Qed.

Lemma msum_nonneg g m : (forall i x, m !! i = Some x -> 0 <= g i x) -> 0 <= msum g m.
Proof.
  induction m as [|i x m Hi IH] using map_ind; intros H; [by rewrite msum_empty|].
  rewrite msum_insert by done. apply Z.add_nonneg_nonneg; [apply H, lookup_insert_eq|]. apply IH.
  intros j y Hj. apply H. rewrite lookup_insert_ne; congruence.
Qed.

Lemma msum_add g g' m : msum (fun i x => g i x + g' i x) m = msum g m + msum g' m.
Proof.
  induction m as [|i x m Hi IH] using map_ind; [by rewrite !msum_empty|].
  rewrite !msum_insert, IH by done. lia.
Qed.

Lemma msum_zero m : msum (fun _ _ => 0) m = 0.
Proof.
  induction m as [|i x m Hi IH] using map_ind; [apply msum_empty|]. rewrite msum_insert by done. lia.
Qed.

(** One key is counted at most once. *)
Lemma msum_key m c : msum (fun i _ => if decide (i = c) then 1 else 0) m <= 1.
Proof.
  destruct (m !! c) as [x|] eqn:Hc.
  - rewrite (msum_delete _ _ _ _ Hc), decide_True by done.
    rewrite (msum_ext _ (fun _ _ => 0)).
    + rewrite msum_zero. lia.
    + intros i y [Hi _]%lookup_delete_Some. by rewrite decide_False.
  - rewrite (msum_ext _ (fun _ _ => 0)).
    + rewrite msum_zero. lia.
    + intros i y Hi. rewrite decide_False; [done|]. congruence.
Qed.
End MapSum.

(** The sums over two maps commute. *)
Lemma msum_swap {A B} (g : Z -> A -> Z -> B -> Z) (m : gmap Z A) (n : gmap Z B) :
  msum (fun i x => msum (fun j y => g i x j y) n) m = msum (fun j y => msum (fun i x => g i x j y) m) n.
Proof.
  induction m as [|i x m Hi IH] using map_ind.
  - rewrite msum_empty. symmetry.
    induction n as [|j y n Hj IHn] using map_ind; [apply msum_empty|].
    rewrite msum_insert, msum_empty by done. rewrite IHn. done.
  - rewrite msum_insert, IH, <- msum_add by done. apply msum_ext. intros j y _.
    by rewrite msum_insert.
Qed.

(** ** Occurrences in a list *)
Definition occ (f : Z) (l : list Z) : Z := Z.of_nat (length (filter (fun x => x = f) l)).

Lemma occ_nil f : occ f [] = 0.
Proof. reflexivity. Qed.

Lemma occ_cons f x l : occ f (x :: l) = (if decide (f = x) then 1 else 0) + occ f l.
Proof.
  unfold occ. rewrite filter_cons. destruct (decide (x = f)) as [->|].
  - rewrite decide_True by done. simpl. lia.
  - by rewrite decide_False by congruence.
Qed.

Lemma occ_app f l l' : occ f (l ++ l') = occ f l + occ f l'.
Proof. unfold occ. rewrite filter_app, length_app. lia. Qed.

Lemma occ_insert f l i x y :
  l !! i = Some x -> occ f (<[i := y]> l) =
    occ f l - (if decide (f = x) then 1 else 0) + (if decide (f = y) then 1 else 0).
Proof.
  intros Hi. rewrite (insert_take_drop l i y) by (by eapply lookup_lt_Some).
  rewrite <- (take_drop_middle l i x Hi) at 3. rewrite !occ_app, !occ_cons. lia.
Qed.

Lemma occ_nonneg f l : 0 <= occ f l.
Proof. unfold occ. lia. Qed.

Lemma occ_in f l : f ∈ l <-> 0 < occ f l.
Proof.
  induction l as [|x l IH].
  - rewrite occ_nil. split; [intros H; by apply not_elem_of_nil in H|lia].
  - rewrite occ_cons, elem_of_cons, IH. pose proof (occ_nonneg f l).
    destruct (decide (f = x)); intuition lia.
Qed.

(** The occurrences of the keys of a map do not exceed the length. *)
Lemma occ_keys {A} (m : gmap Z A) l : msum (fun f _ => occ f l) m <= Z.of_nat (length l).
Proof.
  induction l as [|x l IH].
  - rewrite (msum_ext _ (fun _ _ => occ 0 [])) by done.
    induction m as [|i y m Hi IH] using map_ind; [by rewrite msum_empty|].
    rewrite msum_insert by done. rewrite occ_nil in *. simpl in *. lia.
  - rewrite (msum_ext _ (fun f _ => (if decide (f = x) then 1 else 0) + occ f l)) by (intros; apply occ_cons).
    rewrite msum_add. pose proof (msum_key m x). simpl length. lia.
Qed.
