(* ===== verification/Bytes.v ===== *)
(** * Buffers of bytes

    Lists of bytes as the memory of C structures: little-endian integers and
    parts of a buffer.  [slice] and [patch] are the two directions of [memcpy]
    on a buffer; out of range they have no value and the model faults. *)

From stdpp Require Import base numbers list list_numbers gmap.
From S2P Require Import Prelude.

#[local] Open Scope Z_scope.

(** ** Integers in buffers *)
Definition get_le (n : Z) (l : list Z) (off : Z) : Z :=
  little_endian_to_Z 8 (take (Z.to_nat n) (drop (Z.to_nat off) l)).
Definition put_le (n : Z) (l : list Z) (off v : Z) : list Z :=
  list_inserts (Z.to_nat off) (Z_to_little_endian n 8 v) l.
Definition le16 (v : Z) : list Z := Z_to_little_endian 2 8 v.
Definition le32 (v : Z) : list Z := Z_to_little_endian 4 8 v.

(** The 32-bit word with the number [i] of a buffer. *)
Definition get_word (l : list Z) (i : Z) : Z := get_le 4 l (4 * i).
Definition put_word (l : list Z) (i v : Z) : list Z := put_le 4 l (4 * i) v.

(** [size] bytes of [l] at [off], when they are there. *)
Definition slice (l : list Z) (off size : Z) : option (list Z) :=
  if (0 <=? off) && (0 <=? size) && (off + size <=? Z.of_nat (length l))
  then Some (take (Z.to_nat size) (drop (Z.to_nat off) l)) else None.
(** [memcpy] into a buffer, when the bytes fit. *)
Definition patch (l : list Z) (off : Z) (bytes : list Z) : option (list Z) :=
  if (0 <=? off) && (off + Z.of_nat (length bytes) <=? Z.of_nat (length l))
  then Some (list_inserts (Z.to_nat off) bytes l) else None.

(** ** Lemmas *)
Lemma le_length n v : 0 <= n -> length (Z_to_little_endian n 8 v) = Z.to_nat n.
Proof. intros Hn. pose proof (length_Z_to_little_endian n 8 v Hn). lia. Qed.

(** A part of a buffer that a write covers, or leaves alone. *)
Lemma inserts_same (l k : list Z) off : (off + length k <= length l)%nat ->
  take (length k) (drop off (list_inserts off k l)) = k.
Proof.
  intros H. apply list_eq. intros i. destruct (decide (i < length k)%nat) as [Hi|Hi].
  - rewrite lookup_take_lt by done. rewrite lookup_drop, list_lookup_inserts by lia.
    f_equal. lia.
  - rewrite lookup_take_ge by lia. symmetry. apply lookup_ge_None. lia.
Qed.

Lemma inserts_other (l k : list Z) off off' n :
  (off' + n <= off \/ off + length k <= off')%nat ->
  take n (drop off' (list_inserts off k l)) = take n (drop off' l).
Proof.
  intros H. apply list_eq. intros i. destruct (decide (i < n)%nat) as [Hi|Hi].
  - rewrite !lookup_take_lt, !lookup_drop by done. destruct H.
    + by rewrite list_lookup_inserts_lt by lia.
    + by rewrite list_lookup_inserts_ge by lia.
  - by rewrite !lookup_take_ge by lia.
Qed.

Lemma get_put_le n l off v : 0 <= n -> 0 <= off -> off + n <= Z.of_nat (length l) ->
  get_le n (put_le n l off v) off = v mod 2 ^ (n * 8).
Proof.
  intros Hn Ho Hl. unfold get_le, put_le. rewrite <- (le_length n v Hn) at 1.
  rewrite inserts_same by (rewrite le_length; lia). apply little_endian_to_Z_to_little_endian; lia.
Qed.

Lemma get_put_le_other n l off off' v : 0 <= n -> 0 <= off -> 0 <= off' -> off' + n <= off \/ off + n <= off' ->
  get_le n (put_le n l off v) off' = get_le n l off'.
Proof.
  intros Hn Ho Ho' H. unfold get_le, put_le. rewrite inserts_other; [done|]. rewrite le_length by done. lia.
Qed.

Lemma get_put_word l i v : 0 <= i -> 4 * i + 4 <= Z.of_nat (length l) -> is_u32 v ->
  get_word (put_word l i v) i = v.
Proof.
  intros Hi Hl Hv. unfold get_word, put_word. rewrite get_put_le by lia. apply Z.mod_small. exact Hv.
Qed.

Lemma get_put_word_other l i j v : 0 <= i -> 0 <= j -> i <> j -> get_word (put_word l i v) j = get_word l j.
Proof. intros Hi Hj Hn. unfold get_word, put_word. apply get_put_le_other; lia. Qed.

Lemma put_word_length l i v : length (put_word l i v) = length l.
Proof. apply length_inserts. Qed.

(** Reading a field out of consecutive fields. *)
Lemma get_le_app n (a b : list Z) off : 0 <= off -> off = Z.of_nat (length a) ->
  get_le n (a ++ b) off = get_le n b 0.
Proof. intros Ho ->. unfold get_le. rewrite Nat2Z.id, drop_app_length. done. Qed.

Lemma get_le_head n v b : 0 <= n -> 0 <= v < 2 ^ (n * 8) -> get_le n (Z_to_little_endian n 8 v ++ b) 0 = v.
Proof.
  intros Hn Hv. unfold get_le. change (Z.to_nat 0) with 0%nat. rewrite drop_0. rewrite <- (le_length n v Hn) at 1. rewrite take_app_length.
  rewrite little_endian_to_Z_to_little_endian by lia. by apply Z.mod_small.
Qed.

Lemma get_le_skip n k v b off : 0 <= k <= off -> get_le n (Z_to_little_endian k 8 v ++ b) off = get_le n b (off - k).
Proof.
  intros H. unfold get_le. f_equal. f_equal. pose proof (le_length k v ltac:(lia)).
  rewrite drop_app_ge by lia. f_equal. lia.
Qed.

Lemma drop_app_exact (a b : list Z) n : length a = n -> drop n (a ++ b) = b.
Proof. intros <-. apply drop_app_length. Qed.

Lemma words_decode (ws : list Z) rest : Forall is_u32 ws ->
  forall k, map (fun i => get_word (concat (map le32 ws) ++ rest) (Z.of_nat i - Z.of_nat k)) (seq k (length ws)) = ws.
Proof.
  induction 1 as [|w ws Hw _ IH]; intros k; [done|]. cbn [length seq map concat]. rewrite <- app_assoc. f_equal.
  - unfold get_word. rewrite Z.sub_diag, Z.mul_0_r. by apply get_le_head.
  - rewrite <- (IH (Datatypes.S k)) at 2. apply map_ext_in. intros i Hi%in_seq. unfold get_word, le32.
    rewrite get_le_skip by lia. f_equal. lia.
Qed.
