(* ===== verification/Hoare.v ===== *)
(** * Reasoning about kernel computations

    [runs m s Q]: started in [s], the computation [m] never faults nor runs out
    of fuel, and unless the kernel halts (no memory left, or a [SYSTEM_BUG_ON])
    it returns a value and a state that satisfy [Q].  The rules of this file take
    a computation apart along its binds. *)

From stdpp Require Import base numbers list gmap.
From S2P Require Import Prelude.

#[local] Open Scope Z_scope.
#[local] Open Scope kernel_scope.

Definition runs {S A} (m : M S A) (s : S) (Q : A -> S -> Prop) : Prop :=
  match m s with
  | Ok (a, s') => Q a s'
  | Err Halt => True
  | Err _ => False
  end.

Section Rules.
Context {S : Type}.
Implicit Types (s : S).

Lemma runs_ret {A} (a : A) s (Q : A -> S -> Prop) : Q a s -> runs (ret a) s Q.
Proof. done. Qed.

Lemma runs_bind {A B} (m : M S A) (k : A -> M S B) s Q :
  runs m s (fun a s' => runs (k a) s' Q) -> runs (bind m k) s Q.
Proof. unfold runs, bind. destruct (m s) as [[a s']|r]; done. Qed.

Lemma runs_mono {A} (m : M S A) s (Q Q' : A -> S -> Prop) :
  runs m s Q -> (forall a s', Q a s' -> Q' a s') -> runs m s Q'.
Proof. unfold runs. intros H HQ. destruct (m s) as [[a s']|[]]; auto. Qed.

(** The rule that uses a specification of the head of a computation. *)
Lemma runs_step {A B} (m : M S A) (k : A -> M S B) s (P : A -> S -> Prop) Q :
  runs m s P -> (forall a s', P a s' -> runs (k a) s' Q) -> runs (bind m k) s Q.
Proof. intros Hm Hk. apply runs_bind. eapply runs_mono; [exact Hm|exact Hk]. Qed.

Lemma runs_gets {A} (f : S -> A) s (Q : A -> S -> Prop) : Q (f s) s -> runs (gets f) s Q.
Proof. done. Qed.

Lemma runs_modify (f : S -> S) s (Q : unit -> S -> Prop) : Q tt (f s) -> runs (modify f) s Q.
Proof. done. Qed.

Lemma runs_opt {A} r (o : option A) a s (Q : A -> S -> Prop) :
  o = Some a -> Q a s -> runs (opt r o) s Q.
Proof. by intros ->. Qed.

Lemma runs_ok {A} (m : M S A) s a s' (Q : A -> S -> Prop) : m s = Ok (a, s') -> Q a s' -> runs m s Q.
Proof. unfold runs. by intros ->. Qed.

Lemma runs_halt {A} s (Q : A -> S -> Prop) : runs (fail Halt) s Q.
Proof. done. Qed.

Lemma runs_eq {A} (m m' : M S A) s (Q : A -> S -> Prop) : m s = m' s -> runs m' s Q -> runs m s Q.
Proof. unfold runs. by intros ->. Qed.

Lemma runs_bind_ok {A B} (m : M S A) (f : A -> M S B) s a s' Q :
  m s = Ok (a, s') -> runs (f a) s' Q -> runs (bind m f) s Q.
Proof. intros E H. apply runs_bind. by eapply runs_ok. Qed.

(** A [runs] fact as the two outcomes. *)
Lemma runs_inv {A} (m : M S A) s (Q : A -> S -> Prop) :
  runs m s Q <-> m s = Err Halt \/ exists a s', m s = Ok (a, s') /\ Q a s'.
Proof.
  unfold runs. split.
  - destruct (m s) as [[a s']|[]]; [eauto|by left|done|done].
  - intros [->|(a & s' & -> & H)]; done.
Qed.

(** What a computation that returned has established. *)
Lemma runs_elim {A} (m : M S A) s (Q : A -> S -> Prop) a s' : runs m s Q -> m s = Ok (a, s') -> Q a s'.
Proof. unfold runs. intros H E. by rewrite E in H. Qed.
End Rules.

Create HintDb runs discriminated.
#[export] Hint Resolve runs_ret runs_gets runs_modify runs_halt : runs.

(** Use the specification [H] of the head of the computation. *)
Tactic Notation "rstep" uconstr(H) "as" simple_intropattern(a) simple_intropattern(s) simple_intropattern(P) :=
  eapply runs_step; [eapply H|intros a s P; cbn beta iota].
(** Heads that only look at the state or change it. *)
Ltac rgets := apply runs_bind, runs_gets; cbn beta iota.
Ltac rmodify := apply runs_bind, runs_modify; cbn beta iota.
Ltac rret := apply runs_ret.

(** ** Lifting

    A component's state holds the state of the one it calls. *)
Section Lift.
Context {S T : Type} (get : T -> S) (set : S -> T -> T).

Definition within {A} (m : M S A) : M T A :=
  fun t => match m (get t) with
           | Ok (a, x) => Ok (a, set x t)
           | Err r => Err r
           end.

Lemma runs_within {A} (m : M S A) t (Q : A -> T -> Prop) :
  runs m (get t) (fun a x => Q a (set x t)) -> runs (within m) t Q.
Proof. unfold runs, within. destruct (m (get t)) as [[a x]|[]]; done. Qed.
End Lift.
