(* ===== verification/Loop.v ===== *)
(** * Loops with a large bound

    [loop d step a] takes at most [2 ^ d] steps of a loop whose body either goes
    on ([inl]) or leaves with a value ([inr]).  It recurses over [d] only, so it
    runs also for loops over the whole address space; [steps] is the same loop
    with the number of steps as its bound. *)

From stdpp Require Import base numbers list.
From S2P Require Import Prelude Hoare.

#[local] Open Scope kernel_scope.

Section Loop.
Context {S A B : Type} (step : A -> M S (A + B)).
Implicit Types (s : S).

Fixpoint loop (d : nat) (a : A) : M S (A + B) :=
  match d with
  | O => step a
  | Datatypes.S d =>
      let* r := loop d a in
      match r with inl a => loop d a | inr b => ret (inr b) end
  end.

Fixpoint steps (n : nat) (a : A) : M S (A + B) :=
  match n with
  | O => ret (inl a)
  | Datatypes.S n =>
      let* r := step a in
      match r with inl a => steps n a | inr b => ret (inr b) end
  end.

Lemma steps_add m n a s : steps (m + n) a s =
  (let* r := steps m a in match r with inl a => steps n a | inr b => ret (inr b) end) s.
Proof.
  revert a s. induction m as [|m IH]; intros a s; [done|]. cbn [Nat.add steps]. unfold bind at 1 2 3.
  destruct (step a s) as [[[a'|b] s']|r]; [|done|done]. apply IH.
Qed.

Lemma loop_steps d a s : loop d a s = steps (2 ^ d) a s.
Proof.
  revert a s. induction d as [|d IH]; intros a s.
  { cbn [loop]. change (2 ^ 0) with 1. cbn [steps]. unfold bind, ret. by destruct (step a s) as [[[a'|b] s']|r]. }
  cbn [loop]. replace (2 ^ Datatypes.S d) with (2 ^ d + 2 ^ d) by (cbn; lia). rewrite steps_add.
  unfold bind. rewrite IH. destruct (steps (2 ^ d) a s) as [[[a'|b] s']|r]; [apply IH|done|done].
Qed.

(** A loop that ends in [n] steps ends the same way with any larger bound. *)
Lemma steps_more m n a s b s' : steps n a s = Ok (inr b, s') -> (n <= m)%nat -> steps m a s = Ok (inr b, s').
Proof.
  intros H Hm. replace m with (n + (m - n)) by lia. rewrite steps_add. unfold bind. by rewrite H.
Qed.
Lemma loop_ends d n a s b s' : steps n a s = Ok (inr b, s') -> (n <= 2 ^ d)%nat -> loop d a s = Ok (inr b, s').
Proof. intros H Hn. rewrite loop_steps. by eapply steps_more. Qed.
End Loop.
