(* ===== verification/Arith.v ===== *)
(** * Overflow tests and bit sets

    [lib/arithmetic.c] (the overflow tests the syscall layer and the ELF loader
    rely on) and the macros of [lib/bitset.h] (the close-on-exec sets of a
    process).  The overflow tests are shown to decide exactly whether the
    machine sum is the mathematical one; a bit set is shown to behave as a set
    of descriptor numbers. *)

From stdpp Require Import base numbers list.
From S2P Require Import Prelude.

#[local] Open Scope Z_scope.

(** ** lib/limits.h, lib/arithmetic.c *)
Definition LONG_MAX : Z := 0x7fffffff.
Definition ULONG_MAX : Z := u32 (2 * LONG_MAX + 1).
Definition LLONG_MAX : Z := 0x7fffffffffffffff.
Definition LLONG_MIN : Z := s64 (- LLONG_MAX - 1).

Definition add_overflow_unsigned_long (a b : Z) : bool :=
  u32 (ULONG_MAX - b) <? a.

Definition add_overflow_long_long (a b : Z) : bool :=
  ((0 <? b) && (s64 (LLONG_MAX - b) <? a)) ||
  ((b <? 0) && (a <? s64 (LLONG_MIN - b))).

(** For two [unsigned long] operands, [add_overflow_unsigned_long] is true
    exactly when the machine addition wraps around, that is when the wrapped
    sum differs from the mathematical sum. *)
Lemma add_overflow_unsigned_long_ok (a b : Z) :
  is_u32 a -> is_u32 b ->
  add_overflow_unsigned_long a b = true <-> u32 (a + b) <> a + b.
Proof.
  unfold is_u32, add_overflow_unsigned_long, ULONG_MAX, LONG_MAX.
  change (u32 (2 * 0x7fffffff + 1)) with (2 ^ 32 - 1). intros Ha Hb.
  rewrite u32_small by (unfold is_u32; lia).
  rewrite Z.ltb_lt. unfold u32. split.
  - intros H E. pose proof (Z.mod_pos_bound (a + b) (2 ^ 32)). lia.
  - intros H. destruct (Z.lt_ge_cases (2 ^ 32 - 1 - b) a); [lia|].
    destruct H. apply Z.mod_small. lia.
Qed.

(** For two [long long] operands, [add_overflow_long_long] is true exactly
    when the sum is not a [long long]; in particular the test itself never
    overflows. *)
Lemma add_overflow_long_long_ok (a b : Z) :
  is_s64 a -> is_s64 b ->
  add_overflow_long_long a b = true <-> ~ is_s64 (a + b).
Proof.
  unfold is_s64, add_overflow_long_long, LLONG_MAX, LLONG_MIN. intros Ha Hb.
  change (s64 (- 0x7fffffffffffffff - 1)) with (- 2 ^ 63).
  unfold s64. rewrite orb_true_iff, !andb_true_iff, !Z.ltb_lt.
  destruct (Z.lt_trichotomy b 0) as [H|[->|H]].
  - rewrite (Z.mod_small (- 2 ^ 63 - b + 2 ^ 63)) by lia. lia.
  - lia.
  - rewrite (Z.mod_small (0x7fffffffffffffff - b + 2 ^ 63)) by lia. lia.
Qed.

(** The overflow checks are exact: [add_overflow_unsigned_long] is true when
    the 32-bit addition wraps around, [add_overflow_long_long] when the sum is not
    a [long long], and in no other case; the checks themselves do not overflow. *)
Theorem overflow_checks_correct (a b c e : Z) :
  is_u32 a -> is_u32 b -> is_s64 c -> is_s64 e ->
  (add_overflow_unsigned_long a b = true <-> u32 (a + b) <> a + b) /\
  (add_overflow_long_long c e = true <-> ~ is_s64 (c + e)).
Proof. intros Ha Hb Hc He. split; [by apply add_overflow_unsigned_long_ok|by apply add_overflow_long_long_ok]. Qed.

Theorem overflow_checks_correct_witness :
  (add_overflow_unsigned_long 0xffffffff 1 = true <-> u32 (0xffffffff + 1) <> 0xffffffff + 1) /\
  (add_overflow_long_long (2 ^ 63 - 1) 1 = true <-> ~ is_s64 (2 ^ 63 - 1 + 1)).
Proof. apply (overflow_checks_correct 0xffffffff 1 (2 ^ 63 - 1) 1); unfold is_u32, is_s64; lia. Defined.

(** ** lib/bitset.h

    [bitset *p] is a list of 32-bit words.  The index of the macros is an
    [int] converted to [size_t] by the division by [sizeof(bitset) * 8].  An
    access past the words stops with [None]. *)
Definition bitset_mask (n : Z) : Z := u32 (Z.shiftl 1 (u32 n mod 32)).
Definition bitset_slot (n : Z) : nat := Z.to_nat (u32 n / 32).
Definition bitset_nslots (n : Z) : Z := u32 (u32 (u32 n + 32) - 1) / 32.

Definition bitset_add (p : list Z) (n : Z) : option (list Z) :=
  w ← p !! bitset_slot n; Some (<[bitset_slot n := Z.lor w (bitset_mask n)]> p).
Definition bitset_remove (p : list Z) (n : Z) : option (list Z) :=
  w ← p !! bitset_slot n;
  Some (<[bitset_slot n := Z.land w (not32 (bitset_mask n))]> p).
Definition bitset_test (p : list Z) (n : Z) : option Z :=
  w ← p !! bitset_slot n; Some (Z.land w (bitset_mask n)).

(** A bit set for the numbers below [N]: [bitset_nslots N] words. *)
Definition bitset_wf (N : Z) (p : list Z) : Prop :=
  length p = Z.to_nat (bitset_nslots N) /\ Forall is_u32 p.
(** The members, as C code sees them through [bitset_test]. *)
Definition bitset_mem (p : list Z) (n : Z) : bool :=
  match bitset_test p n with Some w => truthy w | None => false end.

Lemma bitset_mask_pow n : is_u32 n -> bitset_mask n = 2 ^ (n mod 32).
Proof.
  intros Hn. unfold bitset_mask. rewrite (u32_small n Hn).
  rewrite Z.shiftl_1_l. apply u32_small, is_u32_pow2.
  apply Z.mod_pos_bound. lia.
Qed.

Lemma bitset_slot_lt N p n :
  0 <= N < 2 ^ 32 - 32 -> bitset_wf N p -> 0 <= n < N ->
  (bitset_slot n < length p)%nat.
Proof.
  intros HN [Hlen _] Hn. rewrite Hlen. unfold bitset_slot, bitset_nslots.
  rewrite (u32_small n), (u32_small N), (u32_small (N + 32)), (u32_small (N + 32 - 1))
    by (unfold is_u32; lia).
  apply Z2Nat.inj_lt; try (apply Z.div_pos; lia).
  apply (Z.le_lt_trans _ ((N - 1) / 32)).
  - apply Z.div_le_mono; lia.
  - replace (N + 32 - 1) with (N - 1 + 1 * 32) by lia.
    rewrite Z.div_add by lia. lia.
Qed.

Lemma bitset_mem_lookup p n w :
  is_u32 n -> p !! bitset_slot n = Some w ->
  bitset_mem p n = Z.testbit w (n mod 32).
Proof.
  intros Hn Hw. unfold bitset_mem, bitset_test. rewrite Hw. simpl.
  rewrite bitset_mask_pow by done. apply truthy_land_pow2.
  apply Z.mod_pos_bound. lia.
Qed.

(** Two numbers of one word with the same bit are equal. *)
Lemma bitset_slot_inj m n :
  is_u32 m -> is_u32 n -> bitset_slot m = bitset_slot n ->
  (m mod 32 =? n mod 32) = (m =? n).
Proof.
  unfold bitset_slot. intros Hm Hn. rewrite (u32_small m), (u32_small n) by done.
  intros E. destruct (Z.eqb_spec m n) as [->|Hne]; [apply Z.eqb_refl|].
  apply Z.eqb_neq. intros Em. apply Hne.
  assert (m / 32 = n / 32).
  { apply Z2Nat.inj; try (apply Z.div_pos; unfold is_u32 in *; lia). done. }
  rewrite (Z.div_mod m 32), (Z.div_mod n 32) by lia. lia.
Qed.

(** Writing the word of [n]: what the set contains afterwards. *)
Lemma bitset_mem_update p n i w w' :
  is_u32 n -> is_u32 i -> p !! bitset_slot n = Some w ->
  bitset_mem (<[bitset_slot n := w']> p) i =
  if decide (bitset_slot n = bitset_slot i)
  then Z.testbit w' (i mod 32) else bitset_mem p i.
Proof.
  intros Hn Hi Hw. case_decide as E.
  - apply bitset_mem_lookup; [done|]. rewrite <- E. apply list_lookup_insert_eq.
    by eapply lookup_lt_Some.
  - unfold bitset_mem, bitset_test. by rewrite list_lookup_insert_ne.
Qed.

Lemma Forall_insert_u32 p k w : Forall is_u32 p -> is_u32 w -> Forall is_u32 (<[k := w]> p).
Proof. intros. by apply Forall_insert. Qed.
#[export] Hint Resolve Forall_insert_u32 : kernel.

Lemma mod32_range n : 0 <= n mod 32 < 32.
Proof. apply Z.mod_pos_bound. lia. Qed.
#[export] Hint Resolve mod32_range : kernel.

Lemma bitset_spec (N : Z) (p : list Z) (n : Z) :
  0 <= N < 2 ^ 32 - 32 -> bitset_wf N p -> 0 <= n < N ->
  (exists p', bitset_add p n = Some p' /\ bitset_wf N p' /\
    forall i, 0 <= i < N -> bitset_mem p' i = (i =? n) || bitset_mem p i) /\
  (exists p', bitset_remove p n = Some p' /\ bitset_wf N p' /\
    forall i, 0 <= i < N -> bitset_mem p' i = negb (i =? n) && bitset_mem p i).
Proof.
  intros HN Hwf Hn. pose proof (bitset_slot_lt _ _ _ HN Hwf Hn) as Hlt.
  destruct Hwf as [Hlen Hall].
  destruct (lookup_lt_is_Some_2 p _ Hlt) as [w Hw].
  assert (Hwu : is_u32 w) by (by eapply Forall_lookup_1 in Hw).
  assert (Hnu : is_u32 n) by (unfold is_u32; lia).
  assert (Hm := mod32_range n).
  unfold bitset_add, bitset_remove. rewrite Hw, bitset_mask_pow by done. simpl.
  split; eexists; (split; [reflexivity|]); (split; [split; [by rewrite length_insert|]; auto with kernel|]);
    intros i Hi; rewrite (bitset_mem_update _ _ _ w) by (done || unfold is_u32; lia);
    assert (Hiu : is_u32 i) by (unfold is_u32; lia);
    (case_decide as E; [|replace (i =? n) with false by (symmetry; apply Z.eqb_neq; congruence); done]);
    rewrite (bitset_mem_lookup p i w) by (done || by rewrite <- E).
  - rewrite testbit_lor_pow2 by lia. rewrite (bitset_slot_inj n i) by done.
    by rewrite Z.eqb_sym.
  - rewrite Z.land_spec, testbit_not32 by apply mod32_range.
    rewrite Z.pow2_bits_eqb by lia. rewrite (bitset_slot_inj n i) by done.
    replace (i mod 32 <? 32) with true by (symmetry; apply Z.ltb_lt, mod32_range).
    rewrite (Z.eqb_sym n i). simpl. apply andb_comm.
Qed.

(** The bit set of the numbers below [N] is a set: for [n < N] adding and
    removing succeed, keep the set well formed, and change membership of [n]
    and of no other number below [N]. *)
Theorem bitset_refines_set (N : Z) (p : list Z) (n : Z) :
  0 <= N < 2 ^ 32 - 32 -> bitset_wf N p -> 0 <= n < N ->
  (exists p', bitset_add p n = Some p' /\ bitset_wf N p' /\
    forall i, 0 <= i < N -> bitset_mem p' i = (i =? n) || bitset_mem p i) /\
  (exists p', bitset_remove p n = Some p' /\ bitset_wf N p' /\
    forall i, 0 <= i < N -> bitset_mem p' i = negb (i =? n) && bitset_mem p i).
Proof. apply bitset_spec. Qed.

Theorem bitset_refines_set_witness :
  (exists p', bitset_add [5] 3 = Some p' /\ bitset_wf 32 p' /\
    forall i, 0 <= i < 32 -> bitset_mem p' i = (i =? 3) || bitset_mem [5] i) /\
  (exists p', bitset_remove [5] 3 = Some p' /\ bitset_wf 32 p' /\
    forall i, 0 <= i < 32 -> bitset_mem p' i = negb (i =? 3) && bitset_mem [5] i).
Proof.
  apply (bitset_refines_set 32 [5] 3); [lia| |lia].
  split; [reflexivity|]. repeat constructor; unfold is_u32; lia.
Defined.
