(* ===== verification/Signal.v ===== *)
(** * Signal sets

    [lib/signal.c] and the parts of [lib/signal.h] it uses.  A [sigset_t] is
    two 32-bit words; the operations are shown to be those of a finite set of
    signal numbers 1..64, and [sigpeekset], by which the dispatcher picks the
    next signal, to return the least member. *)

From stdpp Require Import base numbers list.
From S2P Require Import Prelude.

#[local] Open Scope Z_scope.

(** ** lib/signal.h *)
Definition NSIG : Z := 65.
Definition SIGKILL : Z := 9.
Definition SIGSEGV : Z := 11.
Definition SIGPIPE : Z := 13.
Definition SIGCHLD : Z := 17.
Definition SIGSTOP : Z := 19.
Definition SIGURG : Z := 23.
Definition SIGWINCH : Z := 28.

(** [typedef struct { uint32_t __fields[2]; } sigset_t] *)
Record sigset : Set := Sigset { fields0 : Z; fields1 : Z }.

#[export] Instance sigset_eq_dec : EqDecision sigset.
Proof. solve_decision. Defined.

(** ** lib/signal.c

    A function with a result parameter returns the [int] and the new set. *)
Definition sigemptyset : Z * sigset := (0, Sigset 0 0).
Definition sigfillset : Z * sigset := (0, Sigset 0xffffffff 0xffffffff).

(** The guard of the three operations on one signal number. *)
Definition sig_out_of_range (signum : Z) : bool := (signum <? 1) || (NSIG <=? signum).

Definition sigaddset (set : sigset) (signum : Z) : Z * sigset :=
  if sig_out_of_range signum then (-1, set)
  else if 32 <? signum
  then (0, Sigset (fields0 set) (Z.lor (fields1 set) (u32 (Z.shiftl 1 (signum - 33)))))
  else (0, Sigset (Z.lor (fields0 set) (u32 (Z.shiftl 1 (signum - 1)))) (fields1 set)).

Definition sigdelset (set : sigset) (signum : Z) : Z * sigset :=
  if sig_out_of_range signum then (-1, set)
  else if 32 <? signum
  then (0, Sigset (fields0 set) (Z.land (fields1 set) (not32 (Z.shiftl 1 (signum - 33)))))
  else (0, Sigset (Z.land (fields0 set) (not32 (Z.shiftl 1 (signum - 1)))) (fields1 set)).

Definition sigismember (set : sigset) (signum : Z) : Z :=
  if sig_out_of_range signum then -1
  else if 32 <? signum
  then if truthy (Z.land (fields1 set) (u32 (Z.shiftl 1 (signum - 33)))) then 1 else 0
  else if truthy (Z.land (fields0 set) (u32 (Z.shiftl 1 (signum - 1)))) then 1 else 0.

Definition sigisemptyset (set : sigset) : Z :=
  if negb (truthy (fields0 set)) && negb (truthy (fields1 set)) then 1 else 0.

Definition signotset (src : sigset) : Z * sigset :=
  (0, Sigset (not32 (fields0 src)) (not32 (fields1 src))).

Definition sigorset (left right : sigset) : Z * sigset :=
  (0, Sigset (Z.lor (fields0 left) (fields0 right)) (Z.lor (fields1 left) (fields1 right))).

Definition sigandset (left right : sigset) : Z * sigset :=
  (0, Sigset (Z.land (fields0 left) (fields0 right)) (Z.land (fields1 left) (fields1 right))).

(** [__builtin_ffs] of GCC: one plus the index of the least significant 1 bit,
    or 0 when there is none; [n] counts the bits still to look at. *)
Fixpoint ffs_from (n : nat) (x i : Z) : Z :=
  match n with
  | O => 0
  | S n => if Z.testbit x i then i + 1 else ffs_from n x (i + 1)
  end.
Definition builtin_ffs (x : Z) : Z := ffs_from 32 x 0.

Definition sigpeekset (set : sigset) : Z :=
  let sig := builtin_ffs (fields0 set) in
  if 0 <? sig then sig
  else let sig := builtin_ffs (fields1 set) in
       if 0 <? sig then sig + 32 else 0.

(** ** Well-formed sets and their members *)
Definition sigset_wf (s : sigset) : Prop := is_u32 (fields0 s) /\ is_u32 (fields1 s).
Definition valid_sig (i : Z) : Prop := 1 <= i < NSIG.
(** Membership, as the C code sees it. *)
Definition sig_in (i : Z) (s : sigset) : bool := sigismember s i =? 1.

(** The bit that holds the signal [i]. *)
Definition sig_bit (i : Z) (s : sigset) : bool :=
  if 32 <? i then Z.testbit (fields1 s) (i - 33) else Z.testbit (fields0 s) (i - 1).

Lemma sig_guard i : valid_sig i -> sig_out_of_range i = false.
Proof.
  unfold valid_sig, sig_out_of_range. intros.
  apply orb_false_iff. rewrite Z.ltb_ge, Z.leb_gt. lia.
Qed.

Lemma shift1_u32 n : 0 <= n < 32 -> u32 (Z.shiftl 1 n) = 2 ^ n.
Proof. intros. rewrite Z.shiftl_1_l. apply u32_small, is_u32_pow2. lia. Qed.

Lemma sig_in_bit i s : valid_sig i -> sig_in i s = sig_bit i s.
Proof.
  intros Hi. unfold sig_in, sigismember, sig_bit. rewrite sig_guard by done.
  unfold valid_sig, NSIG in Hi. zcase.
  - rewrite shift1_u32, truthy_land_pow2 by lia. by destruct (Z.testbit _ _).
  - rewrite shift1_u32, truthy_land_pow2 by lia. by destruct (Z.testbit _ _).
Qed.

Lemma testbit_clear_shift w n i :
  0 <= n < 32 -> 0 <= i < 32 ->
  Z.testbit (Z.land w (not32 (Z.shiftl 1 n))) i = negb (n =? i) && Z.testbit w i.
Proof.
  intros Hn Hi. rewrite Z.land_spec, testbit_not32, Z.shiftl_1_l by lia.
  rewrite Z.pow2_bits_eqb by lia.
  replace (i <? 32) with true by (symmetry; apply Z.ltb_lt; lia). apply andb_comm.
Qed.

(** Both words of a set, bit by bit. *)
Lemma sig_bit_add n s i :
  valid_sig n -> valid_sig i ->
  sig_bit i (snd (sigaddset s n)) = (i =? n) || sig_bit i s.
Proof.
  intros Hn Hi. unfold sigaddset. rewrite sig_guard by done.
  unfold valid_sig, NSIG in *. rewrite (Z.eqb_sym i n).
  destruct (Z.ltb_spec 32 n); unfold sig_bit; simpl; destruct (Z.ltb_spec 32 i);
    rewrite ?shift1_u32, ?testbit_lor_pow2 by lia; try f_equal;
    repeat zcase; try lia; done.
Qed.

Lemma sig_bit_del n s i :
  valid_sig n -> valid_sig i ->
  sig_bit i (snd (sigdelset s n)) = negb (i =? n) && sig_bit i s.
Proof.
  intros Hn Hi. unfold sigdelset. rewrite sig_guard by done.
  unfold valid_sig, NSIG in *. rewrite (Z.eqb_sym i n).
  destruct (Z.ltb_spec 32 n); unfold sig_bit; simpl; destruct (Z.ltb_spec 32 i);
    rewrite ?testbit_clear_shift by lia; try f_equal;
    repeat zcase; try lia; done.
Qed.

Lemma sig_bit_not s i : valid_sig i -> sig_bit i (snd (signotset s)) = negb (sig_bit i s).
Proof.
  unfold valid_sig, NSIG. intros Hi. unfold sig_bit; simpl.
  zcase; rewrite testbit_not32 by lia; zcase; done || lia.
Qed.

Lemma sig_bit_or a b i : sig_bit i (snd (sigorset a b)) = sig_bit i a || sig_bit i b.
Proof. unfold sig_bit; simpl. zcase; apply Z.lor_spec. Qed.

Lemma sig_bit_and a b i : sig_bit i (snd (sigandset a b)) = sig_bit i a && sig_bit i b.
Proof. unfold sig_bit; simpl. zcase; apply Z.land_spec. Qed.

Lemma sig_wf_add s n : sigset_wf s -> sigset_wf (snd (sigaddset s n)).
Proof.
  unfold sigset_wf, sigaddset. intros [H0 H1].
  destruct (sig_out_of_range n), (32 <? n); simpl; auto with kernel.
Qed.

Lemma sig_wf_del s n : sigset_wf s -> sigset_wf (snd (sigdelset s n)).
Proof.
  unfold sigset_wf, sigdelset. intros [H0 H1].
  destruct (sig_out_of_range n), (32 <? n); simpl; auto with kernel.
Qed.

Lemma sig_wf_not s : sigset_wf (snd (signotset s)).
Proof. split; apply u32_range. Qed.

Lemma sig_wf_or a b : sigset_wf a -> sigset_wf b -> sigset_wf (snd (sigorset a b)).
Proof. unfold sigset_wf. intros [] []. simpl. auto with kernel. Qed.

Lemma sig_wf_and a b : sigset_wf a -> sigset_wf (snd (sigandset a b)).
Proof. unfold sigset_wf. intros []. simpl. auto with kernel. Qed.

#[export] Hint Resolve sig_wf_add sig_wf_del sig_wf_not sig_wf_or sig_wf_and : kernel.

(** Two well-formed sets with the same members are the same two words. *)
Lemma sigset_ext a b :
  sigset_wf a -> sigset_wf b ->
  (forall i, valid_sig i -> sig_in i a = sig_in i b) -> a = b.
Proof.
  unfold valid_sig, NSIG. intros [Ha0 Ha1] [Hb0 Hb1] H.
  destruct a as [a0 a1], b as [b0 b1]; simpl in *. f_equal.
  - apply u32_bits_inj; [done..|]. intros i Hi. specialize (H (i + 1) ltac:(lia)).
    rewrite !sig_in_bit in H by (unfold valid_sig, NSIG; lia).
    unfold sig_bit in H; simpl in H. destruct (Z.ltb_spec 32 (i + 1)); [lia|].
    by rewrite Z.add_simpl_r in H.
  - apply u32_bits_inj; [done..|]. intros i Hi. specialize (H (i + 33) ltac:(lia)).
    rewrite !sig_in_bit in H by (unfold valid_sig, NSIG; lia).
    unfold sig_bit in H; simpl in H. destruct (Z.ltb_spec 32 (i + 33)); [|lia].
    by replace (i + 33 - 33) with i in H by lia.
Qed.

(** ** The next signal *)
Lemma ffs_from_spec n x i :
  0 <= i ->
  (ffs_from n x i = 0 /\ (forall j, i <= j < i + Z.of_nat n -> Z.testbit x j = false)) \/
  (i < ffs_from n x i <= i + Z.of_nat n /\
   Z.testbit x (ffs_from n x i - 1) = true /\
   forall j, i <= j < ffs_from n x i - 1 -> Z.testbit x j = false).
Proof.
  revert i. induction n as [|n IH]; intros i Hi; simpl.
  - left. split; [done|]. lia.
  - destruct (Z.testbit x i) eqn:E.
    + right. replace (i + 1 - 1) with i by lia. split; [lia|]. split; [done|]. lia.
    + destruct (IH (i + 1) ltac:(lia)) as [[-> H]|(H1 & H2 & H3)].
      * left. split; [done|]. intros j Hj.
        destruct (Z.eq_dec j i) as [->|]; [done|]. apply H. lia.
      * right. split; [lia|]. split; [done|]. intros j Hj.
        destruct (Z.eq_dec j i) as [->|]; [done|]. apply H3. lia.
Qed.

Lemma builtin_ffs_spec x :
  (builtin_ffs x = 0 /\ (forall j, 0 <= j < 32 -> Z.testbit x j = false)) \/
  (1 <= builtin_ffs x <= 32 /\ Z.testbit x (builtin_ffs x - 1) = true /\
   forall j, 0 <= j < builtin_ffs x - 1 -> Z.testbit x j = false).
Proof.
  destruct (ffs_from_spec 32 x 0 ltac:(lia)) as [[H1 H2]|(H1 & H2 & H3)].
  - left. split; [apply H1 | apply H2].
  - right. fold (builtin_ffs x) in *. split; [lia|]. auto.
Qed.

(** [sigpeekset] returns the least pending signal of a set, or 0 exactly
    when the set has no member; so the dispatcher delivers the signals of a
    set in increasing order. *)
Lemma sigpeekset_spec (s : sigset) :
  (sigpeekset s = 0 /\ forall i, valid_sig i -> sig_in i s = false) \/
  (valid_sig (sigpeekset s) /\ sig_in (sigpeekset s) s = true /\
   forall i, valid_sig i -> sig_in i s = true -> sigpeekset s <= i).
Proof.
  unfold sigpeekset.
  destruct (builtin_ffs_spec (fields0 s)) as [[E0 H0]|(R0 & B0 & L0)].
  - rewrite E0. simpl.
    destruct (builtin_ffs_spec (fields1 s)) as [[E1 H1]|(R1 & B1 & L1)].
    + rewrite E1. left. split; [done|]. intros i Hi. rewrite sig_in_bit by done.
      unfold valid_sig, NSIG, sig_bit in *. zcase; [apply H1 | apply H0]; lia.
    + right. destruct (Z.ltb_spec 0 (builtin_ffs (fields1 s))); [|lia].
      split; [unfold valid_sig, NSIG; lia|]. split.
      * rewrite sig_in_bit by (unfold valid_sig, NSIG; lia). unfold sig_bit.
        zcase; [|lia]. rewrite <- B1. f_equal. lia.
      * intros i Hi Hin. rewrite sig_in_bit in Hin by done.
        unfold valid_sig, NSIG, sig_bit in *. destruct (Z.ltb_spec 32 i).
        { destruct (Z.le_gt_cases (builtin_ffs (fields1 s) + 32) i); [done|].
          rewrite L1 in Hin by lia. done. }
        rewrite H0 in Hin by lia. done.
  - right. destruct (Z.ltb_spec 0 (builtin_ffs (fields0 s))); [|lia].
    split; [unfold valid_sig, NSIG; lia|]. split.
    + rewrite sig_in_bit by (unfold valid_sig, NSIG; lia). unfold sig_bit.
      zcase; [lia|]. done.
    + intros i Hi Hin. rewrite sig_in_bit in Hin by done.
      unfold valid_sig, NSIG, sig_bit in *. destruct (Z.ltb_spec 32 i); [lia|].
      destruct (Z.le_gt_cases (builtin_ffs (fields0 s)) i); [done|].
      rewrite L0 in Hin by lia. done.
Qed.

(** [sigisemptyset] tests both words. *)
Lemma sigisemptyset_spec (s : sigset) : sigset_wf s ->
  sigisemptyset s = 1 /\ (forall i, valid_sig i -> sig_in i s = false) \/
  sigisemptyset s = 0 /\ exists i, valid_sig i /\ sig_in i s = true.
Proof.
  intros Hs. unfold sigisemptyset, truthy. rewrite !negb_involutive.
  destruct (decide (s = Sigset 0 0)) as [->|Hne].
  - left. split; [done|]. intros i Hi. rewrite sig_in_bit by done. unfold sig_bit; simpl. zcase; apply Z.bits_0.
  - right. split.
    + destruct s as [a b]; simpl. destruct (Z.eqb_spec a 0) as [->|], (Z.eqb_spec b 0) as [->|]; done.
    + destruct (sigpeekset_spec s) as [[_ He]|(Hv & Hin & _)]; [|by exists (sigpeekset s)].
      destruct Hne. apply sigset_ext; [done|by split; unfold is_u32; simpl; lia|]. intros i Hi. rewrite He by done.
      rewrite sig_in_bit by done. unfold sig_bit; simpl. zcase; by rewrite Z.bits_0.
Qed.

Lemma sigismember_spec s i : valid_sig i -> sigismember s i = if sig_in i s then 1 else 0.
Proof.
  intros Hi. unfold sig_in, sigismember. rewrite sig_guard by done.
  destruct (32 <? i); destruct (truthy _); done.
Qed.

(** C38: the signal-set operations are the operations of a set of the signals
    1..64, for all well-formed arguments.  The empty and the full set, add,
    delete, complement, union and intersection return 0 and have the expected
    members; the two words stay in range.  [sigismember] is 1 or 0;
    [sigisemptyset] is 1 exactly when no signal is a member, and 0 otherwise;
    [sigpeekset] is the least member, or 0 when there is none.  A signal
    number outside 1..64 is refused with -1 and no change. *)
Theorem sigset_refines_set (a b : sigset) (n : Z) :
  sigset_wf a -> sigset_wf b ->
  (forall i, valid_sig i ->
     sig_in i (snd sigemptyset) = false /\
     sig_in i (snd sigfillset) = true /\
     (valid_sig n -> sig_in i (snd (sigaddset a n)) = (i =? n) || sig_in i a) /\
     (valid_sig n -> sig_in i (snd (sigdelset a n)) = negb (i =? n) && sig_in i a) /\
     sig_in i (snd (signotset a)) = negb (sig_in i a) /\
     sig_in i (snd (sigorset a b)) = sig_in i a || sig_in i b /\
     sig_in i (snd (sigandset a b)) = sig_in i a && sig_in i b /\
     sigismember a i = if sig_in i a then 1 else 0) /\
  sigset_wf (snd (sigaddset a n)) /\ sigset_wf (snd (sigdelset a n)) /\
  sigset_wf (snd (signotset a)) /\ sigset_wf (snd (sigorset a b)) /\
  sigset_wf (snd (sigandset a b)) /\
  (valid_sig n -> fst (sigaddset a n) = 0 /\ fst (sigdelset a n) = 0) /\
  (fst sigemptyset = 0 /\ fst sigfillset = 0 /\ fst (signotset a) = 0 /\
   fst (sigorset a b) = 0 /\ fst (sigandset a b) = 0) /\
  (sigisemptyset a = 1 /\ (forall i, valid_sig i -> sig_in i a = false) \/
   sigisemptyset a = 0 /\ exists i, valid_sig i /\ sig_in i a = true) /\
  (sigpeekset a = 0 /\ (forall i, valid_sig i -> sig_in i a = false) \/
   valid_sig (sigpeekset a) /\ sig_in (sigpeekset a) a = true /\
     forall i, valid_sig i -> sig_in i a = true -> sigpeekset a <= i) /\
  (~ valid_sig n ->
     sigaddset a n = (-1, a) /\ sigdelset a n = (-1, a) /\ sigismember a n = -1).
Proof.
  intros Ha Hb. split; [|split_and!; auto using sigisemptyset_spec, sigpeekset_spec with kernel].
  - intros i Hi. rewrite sigismember_spec, !sig_in_bit by done.
    rewrite sig_bit_not, sig_bit_or, sig_bit_and by done.
    split_and!; auto using sig_bit_add, sig_bit_del.
    + unfold sig_bit; simpl. zcase; apply Z.bits_0.
    + unfold valid_sig, NSIG, sig_bit in *; simpl.
      zcase; change 0xffffffff with (Z.ones 32); apply Z.ones_spec_low; lia.
  - intros Hn. unfold sigaddset, sigdelset. rewrite sig_guard by done. by destruct (32 <? n).
  - unfold valid_sig. intros Hn. unfold sigaddset, sigdelset, sigismember.
    replace (sig_out_of_range n) with true; [done|].
    symmetry. apply orb_true_iff. rewrite Z.ltb_lt, Z.leb_le. lia.
Qed.

Theorem sigset_refines_set_witness :
  sigset_wf (Sigset 5 0) /\ sig_in 3 (snd (sigaddset (Sigset 5 0) 40)) = true /\ sigisemptyset (Sigset 0 2) = 0.
Proof.
  assert (W : sigset_wf (Sigset 5 0)) by (split; unfold is_u32; simpl; lia).
  split; [exact W|]. split; [|reflexivity].
  destruct (sigset_refines_set (Sigset 5 0) (Sigset 5 0) 40 W W) as [H _].
  destruct (H 3) as (_ & _ & Hadd & _); [unfold valid_sig, NSIG; lia|].
  rewrite Hadd; [reflexivity | unfold valid_sig, NSIG; lia].
Defined.
