(* ===== verification/LinkedList.v ===== *)
(** * The kernel's linked lists

    [lib/list.c] and [lib/list.h]: the circular doubly linked lists every other
    component keeps its objects in.  A [struct list *] is an address; the two
    fields of all nodes are two maps from addresses to pointers, so a write to
    [next] visibly leaves every [prev] alone.  [NULL] is 0.  An access through
    a pointer to no node stops with [Fault].  The lists are shown to implement
    sequences: [dlist h l xs] says the list with head [l] holds the nodes [xs]
    in the order [list_foreach] visits them. *)

From stdpp Require Import base numbers list gmap.
From S2P Require Import Prelude.

#[local] Open Scope Z_scope.
#[local] Open Scope kernel_scope.

Definition NULL : Z := 0.

(** [struct list], field by field. *)
Record heap : Set := Heap {
  prevs : gmap Z Z;
  nexts : gmap Z Z;
}.

(** [p->prev], [p->next] and the assignments to them. *)
Definition get_prev (p : Z) : M heap Z := let* m := gets prevs in opt Fault (m !! p).
Definition get_next (p : Z) : M heap Z := let* m := gets nexts in opt Fault (m !! p).
Definition set_prev (p v : Z) : M heap unit :=
  let* _ := get_prev p in modify (fun h => Heap (<[p := v]> (prevs h)) (nexts h)).
Definition set_next (p v : Z) : M heap unit :=
  let* _ := get_next p in modify (fun h => Heap (prevs h) (<[p := v]> (nexts h))).

(** ** lib/list.c *)
Definition list_init (list : Z) : M heap unit :=
  do* set_next list list in
  set_prev list list.

Definition list_add (list item : Z) : M heap unit :=
  do* set_prev item list in
  let* n := get_next list in
  do* set_next item n in
  do* set_next list item in
  let* n := get_next item in
  set_prev n item.

Definition list_empty (list : Z) : M heap bool :=
  let* n := get_next list in ret (n =? list).

Definition list_concat (list other : Z) : M heap unit :=
  let* e := list_empty other in
  if e : bool then ret tt else
  let* on := get_next other in
  do* set_prev on list in
  let* op := get_prev other in
  let* ln := get_next list in
  do* set_next op ln in
  let* ln := get_next list in
  let* op := get_prev other in
  do* set_prev ln op in
  let* on := get_next other in
  do* set_next list on in
  list_init other.

Definition list_remove (item : Z) : M heap unit :=
  let* p := get_prev item in
  let* n := get_next item in
  do* set_next p n in
  let* n := get_next item in
  let* p := get_prev item in
  do* set_prev n p in
  do* set_next item NULL in
  set_prev item NULL.

(** The loop of [list_length]; the heap has at least as many nodes as the list. *)
Fixpoint list_length_loop (fuel : nat) (list item count : Z) : M heap Z :=
  if item =? list then ret count else
  match fuel with
  | O => fail Fuel
  | S fuel =>
      let* n := get_next item in
      list_length_loop fuel list n (count + 1)
  end.

Definition list_length (list : Z) : M heap Z :=
  let* item := get_next list in
  let* m := gets nexts in
  list_length_loop (size m) list item 0.

(** [list_foreach (item, head, member)]: the nodes visited, in order. *)
Fixpoint list_foreach_loop (fuel : nat) (head item : Z) : M heap (list Z) :=
  if item =? head then ret [] else
  match fuel with
  | O => fail Fuel
  | S fuel =>
      let* n := get_next item in
      let* rest := list_foreach_loop fuel head n in
      ret (item :: rest)
  end.

Definition list_foreach (head : Z) : M heap (list Z) :=
  let* item := get_next head in
  let* m := gets nexts in
  list_foreach_loop (size m) head item.

(** [list_foreach_safe (item, temp, head, member)] with its body: the next node is
    known before the body runs, so the body may free or unlink its own. *)
Fixpoint list_foreach_safe_loop (fuel : nat) (head item temp : Z) (body : Z -> M heap unit) : M heap (list Z) :=
  if item =? head then ret [] else
  match fuel with
  | O => fail Fuel
  | S fuel =>
      do* body item in
      let* n := get_next temp in
      let* rest := list_foreach_safe_loop fuel head temp n body in
      ret (item :: rest)
  end.

Definition list_foreach_safe (head : Z) (body : Z -> M heap unit) : M heap (list Z) :=
  let* item := get_next head in
  let* temp := get_next item in
  let* m := gets nexts in
  list_foreach_safe_loop (size m) head item temp body.

(** ** Pointer chains *)
Fixpoint seg (m : gmap Z Z) (a : Z) (xs : list Z) (z : Z) : Prop :=
  match xs with
  | [] => m !! a = Some z
  | x :: xs => m !! a = Some x /\ seg m x xs z
  end.

(** The node before the end of a chain, and the first pointer of one. *)
Fixpoint seg_end (a : Z) (xs : list Z) : Z :=
  match xs with [] => a | x :: xs => seg_end x xs end.
Definition seg_first (xs : list Z) (z : Z) : Z := match xs with [] => z | x :: _ => x end.

Lemma seg_head m a xs z : seg m a xs z -> m !! a = Some (seg_first xs z).
Proof. destruct xs; [done|]. by intros [? _]. Qed.

Lemma seg_app m a xs y ys z :
  seg m a (xs ++ y :: ys) z <-> seg m a xs y /\ seg m y ys z.
Proof.
  revert a. induction xs as [|x xs IH]; intros a; simpl; [tauto|]. rewrite IH. tauto.
Qed.

Lemma seg_end_app a xs y : seg_end a (xs ++ [y]) = y.
Proof. revert a. by induction xs as [|x xs IH]; intros a; simpl. Qed.

Lemma seg_end_in a xs : seg_end a xs ∈ a :: xs.
Proof. revert a. induction xs as [|x xs IH]; intros a; simpl; [|specialize (IH x)]; set_solver. Qed.

Lemma seg_first_rev a xs : seg_first (rev xs) a = seg_end a xs.
Proof.
  destruct xs as [|x xs _] using rev_ind; [done|].
  by rewrite rev_app_distr, seg_end_app.
Qed.

Lemma seg_end_rev a xs : seg_end a (rev xs) = seg_first xs a.
Proof. by rewrite <- seg_first_rev, rev_involutive. Qed.

Lemma seg_dom m a xs z p : seg m a xs z -> p ∈ a :: xs -> is_Some (m !! p).
Proof.
  revert a. induction xs as [|x xs IH]; intros a Hs Hp; simpl in *.
  - assert (p = a) as -> by set_solver. eauto.
  - destruct Hs as [Ha Hs]. apply elem_of_cons in Hp as [->|Hp]; eauto.
Qed.

Lemma seg_insert_notin m a xs z p v :
  p ∉ a :: xs -> seg m a xs z -> seg (<[p := v]> m) a xs z.
Proof.
  revert a. induction xs as [|x xs IH]; intros a Hp Hs; simpl in *.
  - rewrite lookup_insert_ne by set_solver. done.
  - destruct Hs as [Ha Hs]. rewrite lookup_insert_ne by set_solver.
    split; [done|]. apply IH; [set_solver|done].
Qed.

(** Writing the last pointer of a chain changes where it ends. *)
Lemma seg_redirect m a xs z w :
  NoDup (a :: xs) -> seg m a xs z -> seg (<[seg_end a xs := w]> m) a xs w.
Proof.
  revert a. induction xs as [|x xs IH]; intros a Hnd Hs; simpl in *.
  - apply lookup_insert_eq.
  - apply NoDup_cons in Hnd as [Ha Hnd]. destruct Hs as [Hx Hs].
    rewrite lookup_insert_ne; [auto|]. intros E. apply Ha. rewrite <- E. apply seg_end_in.
Qed.

(** A chain that ends where another starts. *)
Lemma seg_join m a xs ys z :
  seg m a xs (seg_first ys z) ->
  match ys with [] => True | y :: ys => seg m y ys z end -> seg m a (xs ++ ys) z.
Proof.
  destruct ys as [|y ys]; simpl; intros H1 H2; [by rewrite app_nil_r|].
  by apply seg_app.
Qed.

(** Taking a node out of a chain. *)
Lemma seg_delete m a xs it ys z n :
  NoDup (a :: xs ++ it :: ys) -> seg m a (xs ++ it :: ys) z -> m !! it = Some n ->
  seg (<[seg_end a xs := n]> m) a (xs ++ ys) z /\ n = seg_first ys z.
Proof.
  intros Hnd Hs Hn. apply seg_app in Hs as [H1 H2].
  pose proof (seg_head _ _ _ _ H2) as Hf. assert (n = seg_first ys z) as -> by congruence.
  split; [|done]. rewrite app_comm_cons in Hnd. apply NoDup_app in Hnd as (N1 & N2 & N3).
  apply seg_join.
  - by eapply seg_redirect.
  - destruct ys as [|y ys]; [done|]. simpl in H2. destruct H2 as [_ H2].
    apply seg_insert_notin; [|done]. intros Hin.
    apply (N2 (seg_end a xs)); [apply seg_end_in|set_solver].
Qed.

Lemma elem_of_rev (p : Z) xs : p ∈ rev xs <-> p ∈ xs.
Proof. by rewrite !list_elem_of_In, <- in_rev. Qed.

Lemma NoDup_cons_rev (l : Z) xs : NoDup (l :: xs) -> NoDup (l :: rev xs).
Proof. by rewrite <- (Permutation_rev xs). Qed.

(** ** Lists *)
Definition dlist (h : heap) (l : Z) (xs : list Z) : Prop :=
  NoDup (l :: xs) /\ seg (nexts h) l xs l /\ seg (prevs h) l (rev xs) l.

(** A node: both its fields exist. *)
Definition node (h : heap) (p : Z) : Prop := is_Some (prevs h !! p) /\ is_Some (nexts h !! p).

Lemma dlist_node h l xs p : dlist h l xs -> p ∈ l :: xs -> node h p.
Proof.
  intros (_ & Hn & Hp) Hin. split.
  - eapply seg_dom; [done|]. rewrite elem_of_cons, elem_of_rev. set_solver.
  - by eapply seg_dom.
Qed.

(** A list only depends on its own nodes. *)
Lemma seg_agree m m' a xs z :
  (forall p, p ∈ a :: xs -> m' !! p = m !! p) -> seg m a xs z -> seg m' a xs z.
Proof.
  revert a. induction xs as [|x xs IH]; intros a Hag Hs; simpl in *.
  - by rewrite Hag by set_solver.
  - destruct Hs as [Ha Hs]. rewrite Hag by set_solver. split; [done|].
    apply IH; [|done]. intros p Hp. apply Hag. set_solver.
Qed.

(** Every node outside [ps] is as before. *)
Definition same_but (ps : list Z) (h h' : heap) : Prop :=
  forall p, p ∉ ps -> prevs h' !! p = prevs h !! p /\ nexts h' !! p = nexts h !! p.

Lemma dlist_frame ps h h' l xs :
  same_but ps h h' -> (forall p, p ∈ l :: xs -> p ∉ ps) -> dlist h l xs -> dlist h' l xs.
Proof.
  intros Hs Hd (Hnd & Hn & Hp). split; [done|]. split.
  - eapply seg_agree; [|done]. intros p Hin. by apply Hs, Hd.
  - eapply seg_agree; [|done]. intros p Hin. apply Hs, Hd.
    rewrite elem_of_cons, elem_of_rev in Hin. set_solver.
Qed.

Lemma get_next_ok h p v : nexts h !! p = Some v -> get_next p h = Ok (v, h).
Proof. unfold get_next. mred. by intros ->. Qed.
Lemma get_prev_ok h p v : prevs h !! p = Some v -> get_prev p h = Ok (v, h).
Proof. unfold get_prev. mred. by intros ->. Qed.
Lemma set_next_ok h p v : is_Some (nexts h !! p) ->
  set_next p v h = Ok (tt, Heap (prevs h) (<[p := v]> (nexts h))).
Proof. intros [w Hw]. unfold set_next. by mrun (get_next_ok _ _ _ Hw). Qed.
Lemma set_prev_ok h p v : is_Some (prevs h !! p) ->
  set_prev p v h = Ok (tt, Heap (<[p := v]> (prevs h)) (nexts h)).
Proof. intros [w Hw]. unfold set_prev. by mrun (get_prev_ok _ _ _ Hw). Qed.

Lemma is_Some_insert (m : gmap Z Z) p v q : is_Some (m !! q) -> is_Some (<[p := v]> m !! q).
Proof. intros. destruct (decide (p = q)) as [<-|]; [rewrite lookup_insert_eq|rewrite lookup_insert_ne by done]; eauto. Qed.
#[export] Hint Resolve is_Some_insert : kernel.

(** Advance over the next access of a list operation. *)
Ltac hstep :=
  first
    [ erewrite bind_ok by (apply set_next_ok; simpl; eauto with kernel)
    | erewrite bind_ok by (apply set_prev_ok; simpl; eauto with kernel)
    | erewrite bind_ok by (apply get_next_ok; simpl; eassumption)
    | erewrite bind_ok by (apply get_prev_ok; simpl; eassumption) ];
  cbn beta iota.

(** ** The operations *)
Lemma list_init_spec h l :
  node h l ->
  exists h', list_init l h = Ok (tt, h') /\ dlist h' l [] /\ same_but [l] h h'.
Proof.
  intros [Hp Hn]. unfold list_init. hstep. rewrite set_prev_ok by done.
  eexists. split; [done|]. split; [split_and!|]; simpl.
  - apply NoDup_singleton.
  - apply lookup_insert_eq.
  - apply lookup_insert_eq.
  - intros p Hin. simpl. rewrite !lookup_insert_ne by set_solver. done.
Qed.

Lemma list_add_spec h l xs item :
  dlist h l xs -> node h item -> item ∉ l :: xs ->
  exists h', list_add l item h = Ok (tt, h') /\ dlist h' l (item :: xs) /\
    same_but (item :: l :: xs) h h'.
Proof.
  intros HL [Hip Hin] Hni. pose proof (dlist_node _ _ _ l HL ltac:(set_solver)) as [Hlp Hln].
  pose proof HL as (Hnd & Hsn & Hsp). pose proof (seg_head _ _ _ _ Hsn) as Hf.
  set (f := seg_first xs l) in *.
  assert (Hfin : f ∈ l :: xs) by (unfold f; destruct xs; set_solver).
  pose proof (dlist_node _ _ _ f HL Hfin) as [Hfp _].
  unfold list_add. hstep. hstep. hstep. hstep.
  erewrite bind_ok.
  2: { apply get_next_ok. simpl. rewrite lookup_insert_ne by set_solver. apply lookup_insert_eq. }
  rewrite set_prev_ok by (simpl; auto with kernel). eexists. split; [done|].
  split; [split_and!|]; simpl.
  - apply NoDup_cons in Hnd as [? ?]. rewrite !NoDup_cons. set_solver.
  - split; [apply lookup_insert_eq|]. apply (seg_insert_notin _ item xs); [|].
    { apply NoDup_cons in Hnd as [? ?]. set_solver. }
    destruct xs as [|x xs]; simpl in *.
    + apply lookup_insert_eq.
    + destruct Hsn as [_ Hsn]. split; [apply lookup_insert_eq|].
      apply seg_insert_notin; [set_solver|done].
  - apply seg_app. split.
    + assert (f = seg_end l (rev xs)) as -> by (by rewrite seg_end_rev).
      eapply seg_redirect; [|apply seg_insert_notin; [|exact Hsp]].
      * by apply NoDup_cons_rev.
      * rewrite elem_of_cons, elem_of_rev. set_solver.
    + simpl. rewrite lookup_insert_ne by set_solver. apply lookup_insert_eq.
  - intros p Hp. simpl. rewrite !lookup_insert_ne by set_solver. done.
Qed.

(** Both pointers of a node in the middle of a list. *)
Lemma dlist_middle h l xs it ys :
  dlist h l (xs ++ it :: ys) ->
  prevs h !! it = Some (seg_end l xs) /\ nexts h !! it = Some (seg_first ys l).
Proof.
  intros (_ & Hn & Hp). split.
  - rewrite rev_app_distr in Hp. simpl in Hp. rewrite <- app_assoc in Hp.
    apply seg_app in Hp as [_ Hp]. apply seg_head in Hp. by rewrite seg_first_rev in Hp.
  - apply seg_app in Hn as [_ Hn]. by apply seg_head in Hn.
Qed.

Lemma seg_first_in xs l : seg_first xs l ∈ l :: xs.
Proof. destruct xs; set_solver. Qed.

Lemma list_remove_spec h l xs it ys :
  dlist h l (xs ++ it :: ys) ->
  exists h', list_remove it h = Ok (tt, h') /\ dlist h' l (xs ++ ys) /\
    prevs h' !! it = Some NULL /\ nexts h' !! it = Some NULL /\
    same_but (l :: xs ++ it :: ys) h h'.
Proof.
  intros HL. pose proof (dlist_middle _ _ _ _ _ HL) as [Hpv Hnx].
  set (p := seg_end l xs) in *. set (n := seg_first ys l) in *.
  pose proof HL as (Hnd & Hsn & Hsp).
  assert (Hp : p ∈ l :: xs) by apply seg_end_in.
  assert (Hn : n ∈ l :: ys) by apply seg_first_in.
  assert (Hit : it ∉ l :: xs /\ it ∉ l :: ys).
  { clear - Hnd. apply NoDup_cons in Hnd as [H1 H2]. apply NoDup_app in H2 as (? & H2 & H3).
    apply NoDup_cons in H3 as [H3 _]. set_solver. }
  destruct Hit as [Hit1 Hit2].
  pose proof (dlist_node _ _ _ p HL ltac:(set_solver)) as [_ Hpn].
  pose proof (dlist_node _ _ _ n HL ltac:(set_solver)) as [Hnp _].
  unfold list_remove. hstep. hstep. hstep.
  erewrite bind_ok by (apply get_next_ok; simpl; rewrite lookup_insert_ne by set_solver; done).
  hstep. hstep. hstep. rewrite set_prev_ok by (simpl; eauto with kernel).
  eexists. split; [done|]. simpl.
  assert (Hnot : it ∉ l :: xs ++ ys) by set_solver.
  split; [split_and!|split_and!]; simpl.
  - clear - Hnd. apply NoDup_cons in Hnd as [H1 H2]. apply NoDup_app in H2 as (N1 & N2 & N3).
    apply NoDup_cons in N3 as [N3 N4]. apply NoDup_cons. split; [set_solver|].
    apply NoDup_app. split_and!; [done|set_solver|done].
  - apply seg_insert_notin; [done|]. by eapply seg_delete.
  - apply seg_insert_notin; [rewrite elem_of_cons, elem_of_rev; set_solver|].
    rewrite rev_app_distr in *. simpl in Hsp. rewrite <- app_assoc in Hsp.
    assert (n = seg_end l (rev ys)) as -> by (by rewrite seg_end_rev).
    eapply seg_delete; [|exact Hsp|done].
    clear - Hnd. apply NoDup_cons_rev in Hnd. rewrite rev_app_distr in Hnd. simpl in Hnd.
    by rewrite <- app_assoc in Hnd.
  - apply lookup_insert_eq.
  - apply lookup_insert_eq.
  - intros q Hq. simpl. rewrite !lookup_insert_ne by set_solver. done.
Qed.

Lemma list_empty_spec h l xs :
  dlist h l xs -> list_empty l h = Ok (bool_decide (xs = []), h).
Proof.
  intros (Hnd & Hn & _). unfold list_empty. pose proof (seg_head _ _ _ _ Hn) as Hf. hstep.
  destruct xs as [|x xs]; simpl in *.
  - by rewrite Z.eqb_refl.
  - apply NoDup_cons in Hnd as [Hnd _]. destruct (Z.eqb_spec x l) as [->|]; [set_solver|done].
Qed.

(** The backward chain of two lists put together. *)
Lemma prev_join m l xs o y ys :
  NoDup (l :: xs) -> NoDup (o :: y :: ys) -> (forall p, p ∈ l :: xs -> p ∉ o :: y :: ys) ->
  seg m l (rev xs) l -> seg m o (rev (y :: ys)) o ->
  seg (<[seg_first xs l := seg_end o (y :: ys)]> (<[y := l]> m)) l (rev ((y :: ys) ++ xs)) l.
Proof.
  intros Hnx Hny Hd Hl Ho. rewrite rev_app_distr.
  assert (Hend : seg_end o (rev (y :: ys)) = y) by (by rewrite seg_end_rev).
  assert (Hfst : seg_first (rev (y :: ys)) o = seg_end o (y :: ys)) by apply seg_first_rev.
  apply NoDup_cons_rev in Hny. assert (Hin : forall p, p ∈ rev (y :: ys) -> p ∈ y :: ys)
    by (intros p; by rewrite elem_of_rev).
  destruct (rev (y :: ys)) as [|e r] eqn:R.
  { apply (f_equal length) in R. rewrite length_rev in R. done. }
  cbn [seg_first] in Hfst. simpl in Hend, Ho. destruct Ho as [_ Ho]. rewrite <- Hfst.
  apply seg_join; simpl.
  - rewrite <- seg_end_rev. eapply seg_redirect; [by apply NoDup_cons_rev|].
    apply seg_insert_notin; [|done]. rewrite elem_of_cons, elem_of_rev.
    intros Hy. apply (Hd y); set_solver.
  - apply seg_insert_notin.
    + intros Hf. apply (Hd (seg_first xs l)); [apply seg_first_in|]. apply Hin in Hf. set_solver.
    + rewrite <- Hend. eapply seg_redirect; [|exact Ho]. by apply NoDup_cons in Hny as [_ ?].
Qed.

(** [list_concat] prepends the nodes of [other] to those of [list]. *)
Lemma list_concat_spec h l xs o ys :
  dlist h l xs -> dlist h o ys -> (forall p, p ∈ l :: xs -> p ∉ o :: ys) ->
  exists h', list_concat l o h = Ok (tt, h') /\ dlist h' l (ys ++ xs) /\ dlist h' o [] /\
    same_but (l :: xs ++ o :: ys) h h'.
Proof.
  intros HL HO Hd. unfold list_concat.
  rewrite (bind_ok _ _ _ _ _ (list_empty_spec _ _ _ HO)).
  destruct ys as [|y ys]; simpl.
  { exists h. split_and!; try done. }
  pose proof HL as (Hlnd & Hln & Hlp). pose proof HO as (Hond & Hon & Hop).
  pose proof (seg_head _ _ _ _ Hon) as Hony. simpl in Hony.
  pose proof (seg_head _ _ _ _ Hln) as Hlf. set (f := seg_first xs l) in *.
  pose proof (seg_head _ _ _ _ Hop) as Hoe. rewrite seg_first_rev in Hoe.
  set (e := seg_end o (y :: ys)) in *.
  assert (He : e ∈ y :: ys).
  { unfold e. simpl. apply seg_end_in. }
  assert (Hf : f ∈ l :: xs) by apply seg_first_in.
  pose proof (dlist_node _ _ _ y HO ltac:(set_solver)) as [Hyp _].
  pose proof (dlist_node _ _ _ e HO ltac:(set_solver)) as [_ Hen].
  pose proof (dlist_node _ _ _ f HL ltac:(set_solver)) as [Hfp _].
  pose proof (dlist_node _ _ _ l HL ltac:(set_solver)) as [_ Hlnn].
  pose proof (dlist_node _ _ _ o HO ltac:(set_solver)) as [Hopp Honn].
  assert (Hoy : o ∉ y :: ys) by (by apply NoDup_cons in Hond as [? _]).
  assert (Hlx : l ∉ xs) by (by apply NoDup_cons in Hlnd as [? _]).
  assert (Hlo : l <> o) by set_solver.
  hstep. hstep.
  erewrite bind_ok by (apply get_prev_ok; simpl; rewrite lookup_insert_ne by set_solver; done).
  hstep. hstep.
  erewrite bind_ok by (apply get_next_ok; simpl; rewrite lookup_insert_ne by set_solver; done).
  erewrite bind_ok by (apply get_prev_ok; simpl; rewrite lookup_insert_ne by set_solver; done).
  hstep.
  erewrite bind_ok by (apply get_next_ok; simpl; rewrite lookup_insert_ne by set_solver; done).
  hstep.
  destruct (list_init_spec (Heap (<[f := e]> (<[y := l]> (prevs h)))
      (<[l := y]> (<[e := f]> (nexts h)))) o) as (h' & E & HO' & HS).
  { split; simpl; auto with kernel. }
  exists h'. split; [exact E|]. split; [|split; [done|]].
  - eapply (dlist_frame [o]); [done| |].
    { intros p Hp Hpo. assert (p = o) as -> by set_solver.
      apply (Hd o); [|set_solver]. set_solver. }
    split_and!; simpl.
    + clear - Hlnd Hond Hd Hlx. rewrite app_comm_cons.
      apply NoDup_cons in Hlnd as [H1 H2]. apply NoDup_cons in Hond as [H3 H4].
      apply NoDup_cons. split.
      { intros Hin. apply elem_of_cons in Hin as [->|Hin]; [apply (Hd y); set_solver|].
        apply elem_of_app in Hin as [Hin|Hin]; [apply (Hd l); set_solver|done]. }
      apply NoDup_app. split_and!; [done| |done].
      intros p Hp Hpx. apply (Hd p); set_solver.
    + split; [apply lookup_insert_eq|].
      apply seg_insert_notin.
      { intros Hin. apply elem_of_cons in Hin as [->|Hin]; [apply (Hd y); set_solver|].
        apply elem_of_app in Hin as [Hin|Hin]; [apply (Hd l); set_solver|done]. }
      apply seg_join; fold f.
      * simpl in Hon. destruct Hon as [_ Hon]. unfold e. simpl.
        eapply seg_redirect; [|exact Hon]. by apply NoDup_cons in Hond as [_ ?].
      * destruct xs as [|x xs]; [done|]. simpl in Hln. destruct Hln as [_ Hln].
        apply seg_insert_notin; [|done]. intros Hin. apply (Hd e); set_solver.
    + by apply (prev_join (prevs h) l xs o y ys).
  - intros p Hp. destruct (HS p) as [-> ->]; [set_solver|]. simpl.
    rewrite !lookup_insert_ne by set_solver. done.
Qed.

(** ** Walking a list *)
Lemma seg_size m l xs z : NoDup (l :: xs) -> seg m l xs z -> (length xs < size m)%nat.
Proof.
  intros Hnd Hs. assert (H : (length (l :: xs) <= length (elements (dom m)))%nat).
  { apply submseteq_length, NoDup_submseteq; [done|]. intros p Hp.
    apply elem_of_elements, elem_of_dom. by eapply seg_dom. }
  rewrite <- size_dom. unfold size, set_size. simpl in *. lia.
Qed.

Lemma list_foreach_loop_spec h l xs : forall fuel,
  l ∉ xs -> seg (nexts h) l xs l -> (length xs <= fuel)%nat ->
  (forall x, nexts h !! l = Some x -> list_foreach_loop fuel l x h = Ok (xs, h)) /\
  forall c x, nexts h !! l = Some x ->
    list_length_loop fuel l x c h = Ok (c + Z.of_nat (length xs), h).
Proof.
  (* from any node [a] whose chain leads back to [l] *)
  enough (H : forall fuel a xs, l ∉ xs -> seg (nexts h) a xs l -> (length xs <= fuel)%nat ->
    (forall x, nexts h !! a = Some x -> list_foreach_loop fuel l x h = Ok (xs, h)) /\
    forall c x, nexts h !! a = Some x ->
      list_length_loop fuel l x c h = Ok (c + Z.of_nat (length xs), h)) by eauto.
  clear xs. intros fuel a xs. revert fuel a.
  induction xs as [|y xs IH]; intros fuel a Hl Hs Hf; simpl in Hs.
  - split; [intros x Hx|intros c x Hx]; replace x with l by congruence;
      destruct fuel; simpl; rewrite Z.eqb_refl; [done|done|..]; unfold ret; do 2 f_equal; lia.
  - destruct Hs as [Ha Hs]. destruct fuel as [|fuel]; [simpl in Hf; lia|].
    destruct (IH fuel y) as [IH1 IH2]; [set_solver|done|simpl in Hf; lia|].
    pose proof (seg_head _ _ _ _ Hs) as Hy. assert (Hne : y <> l) by set_solver.
    split; [intros x Hx|intros c x Hx]; replace x with y by congruence; simpl;
      destruct (Z.eqb_spec y l); try done; hstep.
    + mrun (IH1 _ Hy). done.
    + rewrite (IH2 _ _ Hy). do 2 f_equal. lia.
Qed.

(** [P rest h]: the nodes [rest] are still to be visited. *)
Section ForeachSafe.
Context (l : Z) (P : list Z -> heap -> Prop) (body : Z -> M heap unit).
Context (Hnext : forall x rest h, P (x :: rest) h -> nexts h !! x = Some (seg_first rest l)).
Context (Hhead : forall rest h, P rest h -> is_Some (nexts h !! l)).
Context (Hbody : forall x rest h, P (x :: rest) h -> exists h', body x h = Ok (tt, h') /\ P rest h').

Lemma foreach_safe_loop_spec rest : forall fuel h t, l ∉ rest -> (length rest <= fuel)%nat -> P rest h ->
  (forall x r, rest = x :: r -> t = seg_first r l) ->
  exists h', list_foreach_safe_loop fuel l (seg_first rest l) t body h = Ok (rest, h') /\ P [] h'.
Proof.
  induction rest as [|x rest IH]; intros fuel h t Hl Hf HP Ht.
  - exists h. split; [|done]. destruct fuel; simpl; by rewrite Z.eqb_refl.
  - destruct fuel as [|fuel]; [simpl in Hf; lia|]. apply not_elem_of_cons in Hl as [Hne Hl]. cbn [list_foreach_safe_loop seg_first].
    rewrite (proj2 (Z.eqb_neq x l)) by congruence. destruct (Hbody _ _ _ HP) as (h1 & E1 & H1). mrun E1.
    rewrite (Ht x rest eq_refl). simpl in Hf.
    assert (exists n, nexts h1 !! seg_first rest l = Some n /\ forall y r, rest = y :: r -> n = seg_first r l) as (n & Hn & Hr).
    { destruct rest as [|y r]; [destruct (Hhead _ _ H1) as [n Hn]; by exists n|].
      exists (seg_first r l). split; [by apply Hnext|]. by intros ? ? [= <- <-]. }
    erewrite bind_ok by (by apply get_next_ok). destruct (IH fuel h1 n Hl ltac:(lia) H1 Hr) as (h' & E & H). mrun E.
    by exists h'.
Qed.

Lemma list_foreach_safe_spec xs h : l ∉ xs -> nexts h !! l = Some (seg_first xs l) -> (length xs <= size (nexts h))%nat -> P xs h ->
  exists h', list_foreach_safe l body h = Ok (xs, h') /\ P [] h'.
Proof.
  intros Hl Hf Hs HP. unfold list_foreach_safe. erewrite bind_ok by (by apply get_next_ok).
  assert (exists t, nexts h !! seg_first xs l = Some t /\ forall x r, xs = x :: r -> t = seg_first r l) as (t & Ht & Hr).
  { destruct xs as [|x r]; [by exists l|]. exists (seg_first r l). split; [by apply Hnext|]. by intros ? ? [= <- <-]. }
  erewrite bind_ok by (by apply get_next_ok). erewrite bind_ok by reflexivity. by apply foreach_safe_loop_spec.
Qed.
End ForeachSafe.

(** Taking out every node on the way. *)
Lemma foreach_remove_spec h l xs : dlist h l xs ->
  exists h', list_foreach_safe l list_remove h = Ok (xs, h') /\ dlist h' l [].
Proof.
  intros HL. pose proof HL as (Hnd & Hn & _). pose proof (seg_size _ _ _ _ Hnd Hn). apply NoDup_cons in Hnd as [Hl _].
  apply (list_foreach_safe_spec l (fun r h => dlist h l r)); [| | |done|by apply seg_head|lia|done].
  - intros x r h1 (_ & [_ H1] & _). by apply seg_head.
  - intros r h1 H1. by apply (dlist_node _ _ _ l H1); left.
  - intros x r h1 H1. destruct (list_remove_spec h1 l [] x r H1) as (h2 & E & H2 & _). by exists h2.
Qed.

(** ** Properties *)

(** C36: [list_init], [list_add] and [list_remove] implement sequences: from a
    node, [list_init] makes an empty list; [list_add] puts a node that is in
    no list at the front; [list_remove] takes out a node, wherever it is in the
    list, and clears its two pointers.  Only nodes of the list are written, so
    every other list of the heap is kept. *)
Theorem list_ops_refine (h : heap) (l : Z) (xs ys : list Z) (item : Z) :
  node h item ->
  (exists h', list_init item h = Ok (tt, h') /\ dlist h' item [] /\ same_but [item] h h') /\
  (dlist h l xs -> item ∉ l :: xs ->
   exists h', list_add l item h = Ok (tt, h') /\ dlist h' l (item :: xs) /\
     same_but (item :: l :: xs) h h') /\
  (dlist h l (xs ++ item :: ys) ->
   exists h', list_remove item h = Ok (tt, h') /\ dlist h' l (xs ++ ys) /\
     prevs h' !! item = Some NULL /\ nexts h' !! item = Some NULL /\
     same_but (l :: xs ++ item :: ys) h h').
Proof.
  intros Hi. split_and!.
  - by apply list_init_spec.
  - intros. by apply list_add_spec.
  - intros. by apply list_remove_spec.
Qed.

(** A heap with the list 8 -> 24 -> 16 and the free node 32. *)
Definition sample_heap : heap :=
  Heap (list_to_map [(8, 16); (24, 8); (16, 24); (32, 0)])
       (list_to_map [(8, 24); (24, 16); (16, 8); (32, 0)]).

Lemma sample_dlist : dlist sample_heap 8 [24; 16].
Proof. split_and!; [apply (bool_decide_unpack (NoDup [8; 24; 16])); reflexivity|done|done]. Qed.

Theorem list_ops_refine_witness :
  (exists h', list_add 8 32 sample_heap = Ok (tt, h') /\ dlist h' 8 [32; 24; 16]) /\
  (exists h', list_remove 24 sample_heap = Ok (tt, h') /\ dlist h' 8 [16]).
Proof.
  split.
  - destruct (list_ops_refine sample_heap 8 [24; 16] [] 32) as (_ & H & _).
    { split; eexists; reflexivity. }
    destruct H as (h' & E & HL & _); [exact sample_dlist|set_solver|]. eauto.
  - destruct (list_ops_refine sample_heap 8 [] [16] 24) as (_ & _ & H).
    { split; eexists; reflexivity. }
    destruct H as (h' & E & HL & _); [exact sample_dlist|]. eauto.
Defined.

(** [list_concat] moves all nodes of [other] to the front of [list], in
    order, in constant time, and leaves [other] empty. *)
Theorem list_concat_refine (h : heap) (l o : Z) (xs ys : list Z) :
  dlist h l xs -> dlist h o ys -> (forall p, p ∈ l :: xs -> p ∉ o :: ys) ->
  exists h', list_concat l o h = Ok (tt, h') /\ dlist h' l (ys ++ xs) /\ dlist h' o [] /\
    same_but (l :: xs ++ o :: ys) h h'.
Proof. apply list_concat_spec. Qed.

Theorem list_concat_refine_witness :
  exists h h', list_init 32 sample_heap = Ok (tt, h) /\
    list_concat 32 8 h = Ok (tt, h') /\ dlist h' 32 [24; 16] /\ dlist h' 8 [].
Proof.
  destruct (list_init_spec sample_heap 32) as (h & E & H32 & HS).
  { split; eexists; reflexivity. }
  assert (H8 : dlist h 8 [24; 16]).
  { eapply dlist_frame; [exact HS| |exact sample_dlist]. set_solver. }
  destruct (list_concat_refine h 32 8 [] [24; 16] H32 H8) as (h' & E' & H1 & H2 & _).
  { set_solver. }
  exists h, h'. split_and!; done.
Defined.

(** C37: walking a list ends and sees it: [list_foreach] visits exactly the
    nodes of the list in order, [list_length] returns their number and
    [list_empty] whether there is none; none of them changes the heap.
    [list_foreach_safe] visits the same nodes in the same order although its body
    takes each of them out of the list, which is empty in the end. *)
Theorem list_walk_correct (h : heap) (l : Z) (xs : list Z) :
  dlist h l xs ->
  list_foreach l h = Ok (xs, h) /\
  list_length l h = Ok (Z.of_nat (length xs), h) /\
  list_empty l h = Ok (bool_decide (xs = []), h) /\
  exists h', list_foreach_safe l list_remove h = Ok (xs, h') /\ dlist h' l [].
Proof.
  intros HL. pose proof HL as (Hnd & Hn & _). pose proof (seg_head _ _ _ _ Hn) as Hf.
  pose proof (seg_size _ _ _ _ Hnd Hn) as Hsz. apply NoDup_cons in Hnd as [Hl _].
  destruct (list_foreach_loop_spec h l xs (size (nexts h)) Hl Hn ltac:(lia)) as [H1 H2].
  split_and!; [| |by apply list_empty_spec|by apply foreach_remove_spec].
  - unfold list_foreach. hstep. unfold gets, bind at 1. by apply H1.
  - unfold list_length. hstep. unfold gets, bind at 1. by apply H2.
Qed.

Theorem list_walk_correct_witness :
  list_foreach 8 sample_heap = Ok ([24; 16], sample_heap) /\
  list_length 8 sample_heap = Ok (2, sample_heap) /\
  list_empty 8 sample_heap = Ok (false, sample_heap).
Proof. destruct (list_walk_correct sample_heap 8 [24; 16] sample_dlist) as (H1 & H2 & H3 & _). by split_and!. Defined.
