(* ===== verification/Buddy.v ===== *)
(** * The page allocator: model

    [page.h], [page.c] and [buddy.c].  The array [pages] is a finite map from
    page indices to [struct page]; a pointer [struct page *] is the index of
    the page it points to ([&pages[i]] is [i]), or [None] for [NULL].  The
    array [free_lists] maps an order to the head of its free list.  An access
    outside either array stops with [Fault].  The proofs are in [BuddyProofs]. *)

From stdpp Require Import base numbers list gmap.
From S2P Require Import Prelude.

#[local] Open Scope Z_scope.
#[local] Open Scope kernel_scope.

(** ** page.h *)
Definition PAGE_START : Z := 0x65000000.
Definition PAGE_SIZE : Z := 0x1000.
Definition PAGE_NUM : Z := 0x4000.
Definition PAGE_MAX_ORDER : Z := 10.
Definition PAGE_MAX_DEPTH : Z := PAGE_MAX_ORDER + 1.
Definition PF_FREE_LIST : Z := Z.shiftl 1 0.
Definition PF_FIRST_PAGE : Z := Z.shiftl 1 1.

(** [struct page] *)
Record page : Set := Page {
  index : Z;
  flags : Z;
  order : Z;
  next : option Z;
}.

Definition set_index (v : Z) (p : page) : page := Page v (flags p) (order p) (next p).
Definition set_flags (v : Z) (p : page) : page := Page (index p) v (order p) (next p).
Definition set_order (v : Z) (p : page) : page := Page (index p) (flags p) v (next p).
Definition set_next (v : option Z) (p : page) : page := Page (index p) (flags p) (order p) v.
(** [page->flags |= f] and [page->flags &= ~f] *)
Definition raise_flag (f : Z) (p : page) : page := set_flags (Z.lor (flags p) f) p.
Definition clear_flag (f : Z) (p : page) : page := set_flags (Z.land (flags p) (not32 f)) p.

(** The globals [pages] and [free_lists]. *)
Record buddy : Set := Buddy {
  pages : gmap Z page;
  free_lists : gmap Z (option Z);
}.

(** Array accesses. *)
Definition get_page (i : Z) : M buddy page :=
  let* ps := gets pages in opt Fault (ps !! i).
Definition upd_page (i : Z) (f : page -> page) : M buddy unit :=
  let* p := get_page i in
  modify (fun s => Buddy (<[i := f p]> (pages s)) (free_lists s)).
Definition get_head (k : Z) : M buddy (option Z) :=
  let* fl := gets free_lists in opt Fault (fl !! k).
Definition set_head (k : Z) (h : option Z) : M buddy unit :=
  do* (let* _ := get_head k in ret tt) in
  modify (fun s => Buddy (pages s) (<[k := h]> (free_lists s))).

(** ** buddy.c *)
Definition buddy_find_buddy_index (p : page) : Z :=
  if truthy (Z.land (Z.shiftr (index p) (order p)) 0x1)
  then u32 (index p - Z.shiftl 1 (order p))
  else u32 (index p + Z.shiftl 1 (order p)).

Definition buddy_list_pop (k : Z) : M buddy (option Z) :=
  let* h := get_head k in
  match h with
  | None => ret None
  | Some i =>
      let* p := get_page i in
      do* set_head k (next p) in
      do* upd_page i (set_next None) in
      do* upd_page i (clear_flag PF_FREE_LIST) in
      ret (Some i)
  end.

Definition buddy_list_push (k : Z) (i : Z) : M buddy unit :=
  let* h := get_head k in
  do* match h with
      | Some _ => upd_page i (set_next h)
      | None => upd_page i (set_next None)
      end in
  do* set_head k (Some i) in
  upd_page i (raise_flag PF_FREE_LIST).

(** [struct page **pp] of [buddy_list_remove]: the cell that points to the
    current page, the head of the list or the [next] of a page. *)
Inductive cell : Set := HeadCell (k : Z) | NextCell (i : Z).
Definition write_cell (c : cell) (v : option Z) : M buddy unit :=
  match c with
  | HeadCell k => set_head k v
  | NextCell i => upd_page i (set_next v)
  end.

Fixpoint buddy_list_remove_loop (fuel : nat) (pp : cell) (cur : option Z) (idx : Z)
    : M buddy (option Z) :=
  match cur with
  | None => ret None
  | Some i =>
      match fuel with
      | O => fail Fuel
      | S fuel =>
          let* p := get_page i in
          if index p =? idx then
            do* write_cell pp (next p) in
            do* upd_page i (set_next None) in
            do* upd_page i (clear_flag PF_FREE_LIST) in
            ret (Some i)
          else buddy_list_remove_loop fuel (NextCell i) (next p) idx
      end
  end.

(** A free list has at most [PAGE_NUM] pages. *)
Definition buddy_list_remove (k : Z) (idx : Z) : M buddy (option Z) :=
  let* h := get_head k in
  buddy_list_remove_loop (Z.to_nat PAGE_NUM) (HeadCell k) h idx.

Definition buddy_is_free_buddy (p b : page) : bool :=
  truthy (Z.land (flags b) PF_FREE_LIST) && (order b =? order p).

(** [buddy_init]: the two [memset]s, the loop that sets the indices and the
    loop that links the blocks of the largest order. *)
Definition max_page_block : Z := Z.shiftl 1 PAGE_MAX_ORDER.
Definition zero_page : page := Page 0 0 0 None.

Definition init_block (len : Z) (ps : gmap Z page) (i : Z) : gmap Z page :=
  let link p := if i <? len - 1 then set_next (Some ((i + 1) * max_page_block)) p else p in
  alter (fun p => raise_flag PF_FREE_LIST (set_order PAGE_MAX_ORDER (link p)))
        (i * max_page_block) ps.

Definition buddy_init : buddy :=
  let zeroed := list_to_map ((fun i => (i, zero_page)) <$> seqZ 0 PAGE_NUM) in
  let indexed := foldl (fun ps i => alter (set_index i) i ps) zeroed (seqZ 0 PAGE_NUM) in
  let len := PAGE_NUM / max_page_block in
  let linked := foldl (init_block len) indexed (seqZ 0 len) in
  let lists : gmap Z (option Z) :=
    list_to_map ((fun k => (k, None)) <$> seqZ 0 PAGE_MAX_DEPTH) in
  Buddy linked (<[PAGE_MAX_ORDER := Some 0]> lists).

(** The first loop of [buddy_pull_block]: the smallest order from [i] on
    with a free block; the block and the order below it. *)
Fixpoint pull_search (n : nat) (i : Z) : M buddy (option (Z * Z)) :=
  match n with
  | O => ret None
  | S n =>
      if i <? PAGE_MAX_DEPTH then
        let* pg := buddy_list_pop i in
        match pg with
        | Some b => ret (Some (b, i - 1))
        | None => pull_search n (i + 1)
        end
      else ret None
  end.

(** The second loop: give the lower halves back, down to the order [from]. *)
Fixpoint pull_split (n : nat) (i from pg : Z) : M buddy Z :=
  if i <? from then ret pg else
  match n with
  | O => fail Fuel
  | S n =>
      do* upd_page pg (set_order i) in
      do* set_head i (Some pg) in
      do* upd_page pg (raise_flag PF_FREE_LIST) in
      pull_split n (i - 1) from (pg + Z.shiftl 1 i)
  end.

Definition buddy_pull_block (from : Z) : M buddy Z :=
  let* found := pull_search (Z.to_nat PAGE_MAX_DEPTH) (from + 1) in
  match found with
  | None => fail Halt
  | Some (pg, to) =>
      let* pg := pull_split (Z.to_nat PAGE_MAX_DEPTH) to from pg in
      do* upd_page pg (set_order from) in
      ret pg
  end.

(** The loop of [buddy_alloc]: the first order whose blocks are large enough. *)
Fixpoint alloc_order (n : nat) (i size : Z) : option Z :=
  match n with
  | O => None
  | S n => if size <=? u32 (Z.shiftl 1 i * PAGE_SIZE) then Some i
           else alloc_order n (i + 1) size
  end.

Definition buddy_alloc (size : Z) : M buddy Z :=
  match alloc_order (Z.to_nat PAGE_MAX_DEPTH) 0 size with
  | None => fail Halt
  | Some i =>
      let* pg := buddy_list_pop i in
      let* pg := match pg with Some b => ret b | None => buddy_pull_block i end in
      do* upd_page pg (raise_flag PF_FIRST_PAGE) in
      ret pg
  end.

(** [buddy_free] calls itself once per merge; a block can be merged at most
    [PAGE_MAX_ORDER] times. *)
Fixpoint buddy_free_rec (fuel : nat) (i : Z) : M buddy unit :=
  match fuel with
  | O => fail Fuel
  | S fuel =>
      let* p := get_page i in
      let k := order p in
      let bi := buddy_find_buddy_index p in
      do* upd_page i (clear_flag PF_FIRST_PAGE) in
      let* keep := (if k =? PAGE_MAX_ORDER then ret true
                    else let* b := get_page bi in ret (negb (buddy_is_free_buddy p b))) in
      if keep : bool then buddy_list_push k i
      else
        do* upd_page i (clear_flag PF_FREE_LIST) in
        do* upd_page i (set_next None) in
        let* q := buddy_list_remove k bi in
        match q with
        | None => fail Halt
        | Some q =>
            let* head := (if truthy (Z.land (Z.shiftr bi k) 0x1)
                          then do* upd_page q (set_order 0) in ret i
                          else do* upd_page i (set_order 0) in ret q) in
            let* h := get_page head in
            do* upd_page head (set_order (u32 (order h + 1))) in
            buddy_free_rec fuel head
        end
  end.

Definition buddy_free (i : Z) : M buddy unit := buddy_free_rec (Z.to_nat PAGE_MAX_DEPTH) i.

(** ** page.c *)
Definition page_address (p : page) : Z := u32 (PAGE_START + u32 (PAGE_SIZE * index p)).

(** The difference of [address] and [PAGE_START] is signed, converted to an
    unsigned index by the cast after the division, which truncates. *)
Definition page_find_by_address (address : Z) : option Z :=
  let idx := u32 (Z.quot (s32 (address - PAGE_START)) PAGE_SIZE) in
  if idx <? PAGE_NUM then Some idx else None.

(** The loop of [page_find_head]; [index] wraps below 0 and the guard
    [index < PAGE_NUM] then ends the loop. *)
Fixpoint find_head_loop (n : nat) (idx : Z) : M buddy (option Z) :=
  if idx <? PAGE_NUM then
    match n with
    | O => fail Fuel
    | S n =>
        let* p := get_page idx in
        if truthy (Z.land (flags p) PF_FIRST_PAGE) then ret (Some idx)
        else find_head_loop n (u32 (idx - 1))
    end
  else ret None.

Definition page_find_head (i : Z) : M buddy (option Z) :=
  let* p := get_page i in find_head_loop (S (Z.to_nat PAGE_NUM)) (index p).

(** [page_cleanup], run when a [_page_cleanup_] variable goes out of scope. *)
Definition page_cleanup (pg : option Z) : M buddy unit :=
  match pg with Some i => buddy_free i | None => ret tt end.
