(* ===== verification/BuddyGeometry.v ===== *)
(** * Buddy blocks: the geometry of the page array

    The page allocator cuts the page array into blocks of [2^k] pages aligned
    on [2^k].  This file is about such partitions alone: what splitting,
    merging and relabelling a block does to them, and that a coalesced
    partition serves every request that fits ([free_run_in_block]). *)

From stdpp Require Import base numbers list gmap.
From S2P Require Import Prelude Buddy.

#[local] Open Scope Z_scope.

(** What a block is used for.  [Held o n] is a block a running operation has
    in its hands: in no list, its [order] field set if [o], its [next] field
    [NULL] if [n]. *)
Inductive kind : Set := Free | Alloc | Held (ord nxt : bool).

#[export] Instance kind_eq_dec : EqDecision kind.
Proof. solve_decision. Defined.

(** A partition: the first page of a block to its order and use. *)
Notation blocks := (gmap Z (Z * kind)).

Definition in_block (i k x : Z) : Prop := i <= x < i + 2 ^ k.

#[export] Instance in_block_dec i k x : Decision (in_block i k x).
Proof. unfold in_block. apply _. Defined.

Record part (B : blocks) : Prop := {
  part_ok : forall i k t, B !! i = Some (k, t) ->
    0 <= k <= PAGE_MAX_ORDER /\ 0 <= i /\ i + 2 ^ k <= PAGE_NUM /\ (2 ^ k | i);
  part_disj : forall i j k l t u,
    B !! i = Some (k, t) -> B !! j = Some (l, u) -> i < j -> i + 2 ^ k <= j;
  part_cover : forall x, 0 <= x < PAGE_NUM ->
    exists i k t, B !! i = Some (k, t) /\ in_block i k x;
}.

(** The start of the block next to [(i,k)] in the block of order [k+1]. *)
Definition buddy_of (i k : Z) : Z :=
  if Z.testbit i k then i - 2 ^ k else i + 2 ^ k.

(** No two free blocks could be merged. *)
Definition coalesced (B : blocks) : Prop :=
  forall i k, B !! i = Some (k, Free) -> k < PAGE_MAX_ORDER ->
    B !! buddy_of i k <> Some (k, Free).

Lemma pow2_succ k : 0 <= k -> 2 ^ (k + 1) = 2 * 2 ^ k.
Proof. intros. rewrite Z.pow_add_r by lia. lia. Qed.

Lemma pow2_le_num k : 0 <= k <= PAGE_MAX_ORDER -> 2 ^ k <= PAGE_NUM.
Proof.
  unfold PAGE_MAX_ORDER, PAGE_NUM. intros.
  transitivity (2 ^ 10); [apply Z.pow_le_mono_r; lia | lia].
Qed.

(** A bit test is a question of alignment. *)
Lemma testbit_aligned i k :
  0 <= k -> (2 ^ k | i) -> Z.testbit i k = negb (Z.even (i / 2 ^ k)).
Proof.
  intros Hk _. rewrite Z.testbit_odd, Z.shiftr_div_pow2 by lia.
  by rewrite Z.negb_even.
Qed.

Lemma aligned_low i k :
  0 <= k -> (2 ^ k | i) -> Z.testbit i k = false -> (2 ^ (k + 1) | i).
Proof.
  intros Hk Hd Hb. rewrite testbit_aligned in Hb by done.
  apply negb_false_iff, Z.even_spec in Hb as [q Hq].
  destruct Hd as [m ->]. pose proof (pow2_pos k Hk).
  rewrite Z.div_mul in Hq by lia. subst m. exists q. rewrite pow2_succ by lia. lia.
Qed.

Lemma aligned_high i k :
  0 <= k -> (2 ^ k | i) -> Z.testbit i k = true -> (2 ^ (k + 1) | i - 2 ^ k).
Proof.
  intros Hk Hd Hb. rewrite testbit_aligned in Hb by done.
  rewrite Z.negb_even in Hb. apply Z.odd_spec in Hb as [q Hq].
  destruct Hd as [m ->]. pose proof (pow2_pos k Hk).
  rewrite Z.div_mul in Hq by lia. subst m. exists q. rewrite pow2_succ by lia. lia.
Qed.

Lemma low_testbit i k : 0 <= k -> (2 ^ (k + 1) | i) -> Z.testbit i k = false.
Proof.
  intros Hk [q ->]. rewrite pow2_succ by done. pose proof (pow2_pos k Hk).
  rewrite testbit_aligned by (try done; exists (2 * q); lia).
  replace (q * (2 * 2 ^ k)) with (2 * q * 2 ^ k) by lia.
  rewrite Z.div_mul by lia. by rewrite Z.even_mul.
Qed.

Lemma high_testbit i k : 0 <= k -> (2 ^ (k + 1) | i) -> Z.testbit (i + 2 ^ k) k = true.
Proof.
  intros Hk [q ->]. rewrite pow2_succ by done. pose proof (pow2_pos k Hk).
  rewrite testbit_aligned by (try done; exists (2 * q + 1); lia).
  replace (q * (2 * 2 ^ k) + 2 ^ k) with ((2 * q + 1) * 2 ^ k) by lia.
  rewrite Z.div_mul by lia. by rewrite Z.even_add, Z.even_mul.
Qed.

Lemma buddy_of_involutive i k : 0 <= k -> (2 ^ k | i) -> buddy_of (buddy_of i k) k = i.
Proof.
  intros Hk Hd. unfold buddy_of at 2. destruct (Z.testbit i k) eqn:E.
  - pose proof (aligned_high _ _ Hk Hd E) as H.
    unfold buddy_of. rewrite low_testbit by done. lia.
  - pose proof (aligned_low _ _ Hk Hd E) as H.
    unfold buddy_of. rewrite high_testbit by done. lia.
Qed.

Lemma divide_pow2_le k l i : 0 <= k <= l -> (2 ^ l | i) -> (2 ^ k | i).
Proof.
  intros H [q ->]. exists (q * 2 ^ (l - k)).
  replace (2 ^ l) with (2 ^ (l - k + k)) by (f_equal; lia).
  rewrite Z.pow_add_r by lia. lia.
Qed.

(** Aligned ranges nest: an aligned range of order [k] that meets an aligned
    range of order [l >= k] lies inside it. *)
Lemma aligned_nest i k j l x :
  0 <= k <= l -> (2 ^ k | i) -> (2 ^ l | j) -> in_block i k x -> in_block j l x ->
  j <= i /\ i + 2 ^ k <= j + 2 ^ l.
Proof.
  unfold in_block. intros Hkl [a ->] Hj H1 H2.
  assert (Hlk : 0 <= l - k) by lia.
  destruct Hj as [b ->]. replace l with (l - k + k) in * by lia.
  rewrite Z.pow_add_r in * by lia.
  set (P := 2 ^ k) in *. set (Q := 2 ^ (l - k)) in *.
  assert (0 < P) by (apply pow2_pos; lia). assert (0 < Q) by (apply pow2_pos; lia).
  assert (b * Q < a + 1) by nia. assert (a < b * Q + Q) by nia. nia.
Qed.

(** A block of order at most [l], aligned in the range [(j, l)], starts in it. *)
Lemma in_block_start i k : 0 <= k -> in_block i k i.
Proof. unfold in_block. pose proof (pow2_pos k). lia. Qed.

Section Partition.
Context (B : blocks) (HB : part B).

Lemma part_unique i j k l t u x :
  B !! i = Some (k, t) -> B !! j = Some (l, u) ->
  in_block i k x -> in_block j l x -> i = j.
Proof.
  unfold in_block. intros Hi Hj H1 H2.
  destruct (Z.lt_trichotomy i j) as [H|[H|H]]; [|done|].
  - pose proof (part_disj _ HB _ _ _ _ _ _ Hi Hj H). lia.
  - pose proof (part_disj _ HB _ _ _ _ _ _ Hj Hi H). lia.
Qed.

Lemma part_inside i k t j :
  B !! i = Some (k, t) -> i < j < i + 2 ^ k -> B !! j = None.
Proof.
  intros Hi Hj. destruct (B !! j) as [[l u]|] eqn:E; [|done].
  pose proof (part_disj _ HB _ _ _ _ _ _ Hi E). lia.
Qed.

Lemma part_relabel i k t u : B !! i = Some (k, t) -> part (<[i := (k, u)]> B).
Proof.
  intros Hi. split.
  - intros j l v. destruct (decide (i = j)) as [<-|].
    + rewrite lookup_insert_eq. intros [= <- <-]. by apply (part_ok _ HB) in Hi.
    + rewrite lookup_insert_ne by done. apply (part_ok _ HB).
  - intros a b ka kb ta tb Ha Hb Hab.
    assert (exists ta', B !! a = Some (ka, ta')) as [ta' Ha'].
    { destruct (decide (i = a)) as [<-|].
      - rewrite lookup_insert_eq in Ha. injection Ha as <- <-. eauto.
      - rewrite lookup_insert_ne in Ha by done. eauto. }
    assert (exists tb', B !! b = Some (kb, tb')) as [tb' Hb'].
    { destruct (decide (i = b)) as [<-|].
      - rewrite lookup_insert_eq in Hb. injection Hb as <- <-. eauto.
      - rewrite lookup_insert_ne in Hb by done. eauto. }
    by eapply (part_disj _ HB).
  - intros x Hx. destruct (part_cover _ HB x Hx) as (j & l & v & Hj & Hin).
    destruct (decide (i = j)) as [<-|].
    + exists i, l. rewrite Hi in Hj. injection Hj as -> ->.
      rewrite lookup_insert_eq. eauto.
    + exists j, l, v. by rewrite lookup_insert_ne.
Qed.

Lemma part_split i k t u v :
  B !! i = Some (k + 1, t) -> 0 <= k ->
  part (<[i := (k, u)]> (<[i + 2 ^ k := (k, v)]> B)).
Proof.
  intros Hi Hk. pose proof (pow2_pos k Hk) as Hp.
  destruct (part_ok _ HB _ _ _ Hi) as (Hk1 & Hi0 & Hend & Hdiv).
  rewrite pow2_succ in Hend by done.
  assert (Hd : (2 ^ k | i)) by (eapply divide_pow2_le; [|exact Hdiv]; lia).
  (* every new block is one of the halves or an old block off the range *)
  assert (Hcase : forall j l w,
    <[i := (k, u)]> (<[i + 2 ^ k := (k, v)]> B) !! j = Some (l, w) ->
    (j = i /\ l = k) \/ (j = i + 2 ^ k /\ l = k) \/
    (B !! j = Some (l, w) /\ 0 < 2 ^ l /\ (j + 2 ^ l <= i \/ i + 2 * 2 ^ k <= j))).
  { intros j l w. destruct (decide (i = j)) as [<-|Hne].
    { rewrite lookup_insert_eq. intros [= <- <-]. auto. }
    rewrite lookup_insert_ne by done.
    destruct (decide (i + 2 ^ k = j)) as [<-|Hne'].
    { rewrite lookup_insert_eq. intros [= <- <-]. auto. }
    rewrite lookup_insert_ne by done. intros Hj. right; right. split; [done|].
    split; [apply pow2_pos; destruct (part_ok _ HB _ _ _ Hj); lia|].
    destruct (Z.lt_ge_cases j i) as [Hlt|Hge].
    - left. by apply (part_disj _ HB _ _ _ _ _ _ Hj Hi).
    - right. pose proof (part_disj _ HB _ _ _ _ _ _ Hi Hj ltac:(lia)) as H.
      rewrite pow2_succ in H by done. lia. }
  split.
  - intros j l w Hj. destruct (Hcase _ _ _ Hj) as [[-> ->]|[[-> ->]|[Hj' _]]].
    + split_and!; [lia..|done].
    + split_and!; [lia..|]. apply Z.divide_add_r; [done|]. exists 1. lia.
    + by apply (part_ok _ HB) in Hj'.
  - intros a b ka kb ta tb Ha Hb Hab.
    destruct (Hcase _ _ _ Ha) as [[-> ->]|[[-> ->]|[Ha' Ca]]],
             (Hcase _ _ _ Hb) as [[-> ->]|[[-> ->]|[Hb' Cb]]]; try lia.
    by eapply (part_disj _ HB).
  - intros x Hx. destruct (part_cover _ HB x Hx) as (j & l & w & Hj & Hin).
    destruct (decide (i = j)) as [<-|Hne].
    + rewrite Hi in Hj. injection Hj as <- <-. unfold in_block in *.
      rewrite pow2_succ in Hin by done.
      destruct (Z.lt_ge_cases x (i + 2 ^ k)).
      * exists i, k, u. rewrite lookup_insert_eq. split; [done|lia].
      * exists (i + 2 ^ k), k, v.
        rewrite lookup_insert_ne, lookup_insert_eq by lia. split; [done|lia].
    + exists j, l, w. split; [|done].
      assert (i + 2 ^ k <> j).
      { intros <-. rewrite (part_inside _ _ _ (i + 2 ^ k) Hi) in Hj; [done|].
        rewrite pow2_succ by done. lia. }
      by rewrite !lookup_insert_ne.
Qed.

Lemma part_merge i k t u v :
  B !! i = Some (k, t) -> B !! (i + 2 ^ k) = Some (k, u) ->
  (2 ^ (k + 1) | i) -> k < PAGE_MAX_ORDER ->
  part (<[i := (k + 1, v)]> (delete (i + 2 ^ k) B)).
Proof.
  intros Hi Hj Hd Hk.
  destruct (part_ok _ HB _ _ _ Hi) as (Hk0 & Hi0 & _ & _).
  destruct (part_ok _ HB _ _ _ Hj) as (_ & _ & Hend & _).
  pose proof (pow2_pos k ltac:(lia)) as Hp.
  assert (Hcase : forall j l w,
    <[i := (k + 1, v)]> (delete (i + 2 ^ k) B) !! j = Some (l, w) ->
    (j = i /\ l = k + 1) \/
    (B !! j = Some (l, w) /\ 0 < 2 ^ l /\ (j + 2 ^ l <= i \/ i + 2 * 2 ^ k <= j))).
  { intros j l w. destruct (decide (i = j)) as [<-|Hne].
    { rewrite lookup_insert_eq. intros [= <- <-]. auto. }
    rewrite lookup_insert_ne by done.
    destruct (decide (i + 2 ^ k = j)) as [<-|Hne']; [by rewrite lookup_delete_eq|].
    rewrite lookup_delete_ne by done. intros Hl. right. split; [done|].
    split; [apply pow2_pos; destruct (part_ok _ HB _ _ _ Hl); lia|].
    destruct (Z.lt_ge_cases j i) as [Hlt|Hge].
    - left. by apply (part_disj _ HB _ _ _ _ _ _ Hl Hi).
    - right. pose proof (part_disj _ HB _ _ _ _ _ _ Hi Hl ltac:(lia)).
      pose proof (part_disj _ HB _ _ _ _ _ _ Hj Hl ltac:(lia)). lia. }
  split.
  - intros j l w Hl. destruct (Hcase _ _ _ Hl) as [[-> ->]|[Hl' _]].
    + rewrite pow2_succ by lia. split_and!; try lia. by rewrite <- pow2_succ by lia.
    + by apply (part_ok _ HB) in Hl'.
  - intros a b ka kb ta tb Ha Hb Hab.
    destruct (Hcase _ _ _ Ha) as [[-> ->]|[Ha' Ca]],
             (Hcase _ _ _ Hb) as [[-> ->]|[Hb' Cb]]; try lia.
    + rewrite pow2_succ by lia. lia.
    + by eapply (part_disj _ HB).
  - intros x Hx. destruct (part_cover _ HB x Hx) as (j & l & w & Hl & Hin).
    unfold in_block in *.
    destruct (decide (i = j)) as [<-|Hne].
    { rewrite Hi in Hl. injection Hl as <- <-. exists i, (k + 1), v.
      rewrite lookup_insert_eq, pow2_succ by lia. split; [done|lia]. }
    destruct (decide (i + 2 ^ k = j)) as [<-|Hne'].
    { rewrite Hj in Hl. injection Hl as <- <-. exists i, (k + 1), v.
      rewrite lookup_insert_eq, pow2_succ by lia. split; [done|lia]. }
    exists j, l, w. by rewrite lookup_insert_ne, lookup_delete_ne.
Qed.

(** In a coalesced partition, an aligned range all of whose pages are free
    lies in one free block. *)
Lemma free_run_in_block (n : nat) i :
  coalesced B -> Z.of_nat n <= PAGE_MAX_ORDER -> (2 ^ Z.of_nat n | i) ->
  (forall x, in_block i (Z.of_nat n) x ->
     exists j l, B !! j = Some (l, Free) /\ in_block j l x) ->
  exists j l, B !! j = Some (l, Free) /\ Z.of_nat n <= l /\
    j <= i /\ i + 2 ^ Z.of_nat n <= j + 2 ^ l.
Proof.
  intros HC. revert i. induction n as [|n IH]; intros i Hn Hd Hfree.
  - destruct (Hfree i) as (j & l & Hj & Hin); [apply in_block_start; lia|].
    destruct (part_ok _ HB _ _ _ Hj) as (Hl & _ & _ & Hdj).
    exists j, l. split; [done|]. split; [lia|].
    apply (aligned_nest i 0 j l i); [lia|by exists i; rewrite Z.mul_1_r|done| |done].
    by apply in_block_start.
  - rewrite Nat2Z.inj_succ in *. unfold Z.succ in *. set (k := Z.of_nat n) in *.
    rewrite pow2_succ in * by lia. pose proof (pow2_pos k ltac:(lia)) as Hp.
    assert (Hd1 : (2 ^ k | i)) by (destruct Hd as [q ->]; exists (2 * q); lia).
    assert (Hd2 : (2 ^ k | i + 2 ^ k)) by (apply Z.divide_add_r; [done|exists 1; lia]).
    destruct (IH i ltac:(lia) Hd1) as (j1 & l1 & H1 & Hl1 & Hlo1 & Hhi1).
    { intros x Hx. apply Hfree. unfold in_block in *.
      rewrite pow2_succ by lia. lia. }
    destruct (IH (i + 2 ^ k) ltac:(lia) Hd2) as (j2 & l2 & H2 & Hl2 & Hlo2 & Hhi2).
    { intros x Hx. apply Hfree. unfold in_block in *.
      rewrite pow2_succ by lia. lia. }
    destruct (part_ok _ HB _ _ _ H1) as (Hk1 & _ & _ & Hdj1).
    destruct (part_ok _ HB _ _ _ H2) as (Hk2 & _ & _ & Hdj2).
    assert (Hbig : forall j l, B !! j = Some (l, Free) -> k + 1 <= l ->
      0 <= l <= PAGE_MAX_ORDER -> (2 ^ l | j) ->
      (exists x, in_block i (k + 1) x /\ in_block j l x) ->
      exists j l, B !! j = Some (l, Free) /\ k + 1 <= l /\
        j <= i /\ i + 2 * 2 ^ k <= j + 2 ^ l).
    { intros j l Hj Hl Hlr Hdj (x & Hx1 & Hx2). exists j, l. split_and!; try done.
      - eapply (aligned_nest i (k + 1) j l x); try done; [lia|by rewrite pow2_succ by lia].
      - rewrite <- pow2_succ by lia.
        eapply (aligned_nest i (k + 1) j l x); try done; [lia|by rewrite pow2_succ by lia]. }
    destruct (Z.eq_dec l1 k) as [->|].
    + destruct (Z.eq_dec l2 k) as [->|].
      * (* two free halves: they are buddies *)
        assert (j1 = i) as -> by lia. assert (j2 = i + 2 ^ k) as -> by lia.
        exfalso. apply (HC _ _ H1); [lia|]. unfold buddy_of.
        rewrite low_testbit by (rewrite ?pow2_succ by lia; done || lia). done.
      * apply (Hbig j2 l2); try done; try lia.
        exists (i + 2 ^ k). unfold in_block. rewrite pow2_succ by lia. lia.
    + apply (Hbig j1 l1); try done; try lia.
      exists i. unfold in_block. rewrite pow2_succ by lia. lia.
Qed.
End Partition.

(** ** Coalescing under the changes of the allocator *)
Lemma coalesced_take B i k t :
  coalesced B -> t <> Free -> coalesced (<[i := (k, t)]> B).
Proof.
  intros HC Ht a l Ha Hl.
  destruct (decide (i = a)) as [<-|]; [rewrite lookup_insert_eq in Ha; congruence|].
  rewrite lookup_insert_ne in Ha by done.
  destruct (decide (i = buddy_of a l)) as [<-|].
  - rewrite lookup_insert_eq. congruence.
  - rewrite lookup_insert_ne by done. by apply HC.
Qed.

Lemma coalesced_delete B i : coalesced B -> coalesced (delete i B).
Proof.
  intros HC a l Ha Hl. destruct (decide (i = a)) as [<-|].
  { by rewrite lookup_delete_eq in Ha. }
  rewrite lookup_delete_ne in Ha by done.
  destruct (decide (i = buddy_of a l)) as [<-|].
  - by rewrite lookup_delete_eq.
  - rewrite lookup_delete_ne by done. by apply HC.
Qed.

Lemma coalesced_put B i k :
  coalesced B -> 0 <= k -> (2 ^ k | i) ->
  (k < PAGE_MAX_ORDER -> B !! buddy_of i k <> Some (k, Free)) ->
  (forall a l, B !! a = Some (l, Free) -> (2 ^ l | a) /\ 0 <= l) ->
  coalesced (<[i := (k, Free)]> B).
Proof.
  intros HC Hk Hd Hb Hal a l Ha Hl. destruct (decide (i = a)) as [<-|Hne].
  - rewrite lookup_insert_eq in Ha. injection Ha as <-.
    assert (buddy_of i k <> i).
    { unfold buddy_of. pose proof (pow2_pos k Hk). destruct (Z.testbit i k); lia. }
    rewrite lookup_insert_ne by done. by apply Hb.
  - rewrite lookup_insert_ne in Ha by done.
    destruct (decide (i = buddy_of a l)) as [Hi|].
    + rewrite Hi, lookup_insert_eq. intros [= ->].
      destruct (Hal _ _ Ha) as [Hda Hl0].
      apply (Hb Hl). rewrite Hi. by rewrite buddy_of_involutive.
    + rewrite lookup_insert_ne by done. by apply HC.
Qed.
