(* ===== verification/BuddyProofs.v ===== *)
(** * The page allocator: correctness

    The state of the allocator represents a partition of the page array
    ([rep]); each list operation changes the partition by one relabelling.
    [buddy_inv s A] is the invariant clients see: [A] maps the first page of
    every allocated block to its order, everything else is free, and the free
    blocks are fully merged. *)

From stdpp Require Import base numbers list gmap.
From S2P Require Import Prelude Buddy BuddyGeometry.

#[local] Open Scope Z_scope.
#[local] Open Scope kernel_scope.

Ltac bconst := unfold PAGE_NUM, PAGE_MAX_DEPTH, PAGE_MAX_ORDER in *.

(** The free lists are the chains of [next] pointers. *)
Notation chain := (lchain next).

(** ** Representation *)
Definition repr_page (o : option (Z * kind)) (i : Z) (p : page) : Prop :=
  index p = i /\
  match o with
  | Some (k, Free) => flags p = PF_FREE_LIST /\ order p = k
  | Some (k, Alloc) => flags p = PF_FIRST_PAGE /\ order p = k
  | Some (k, Held o n) =>
      flags p = 0 /\ (o = true -> order p = k) /\ (n = true -> next p = None)
  | None => flags p = 0 /\ next p = None
  end.

Definition repr_pages (ps : gmap Z page) (B : blocks) : Prop :=
  forall i, 0 <= i < PAGE_NUM -> exists p, ps !! i = Some p /\ repr_page (B !! i) i p.

(** The free list of the order [k] holds the free blocks of that order. *)
Definition repr_list (s : buddy) (B : blocks) (k : Z) : Prop :=
  exists h l, free_lists s !! k = Some h /\ chain (pages s) h l /\ NoDup l /\
    forall i, i ∈ l <-> B !! i = Some (k, Free).

Record rep (s : buddy) (B : blocks) : Prop := {
  rep_part : part B;
  rep_pages : repr_pages (pages s) B;
  rep_lists : forall k, 0 <= k <= PAGE_MAX_ORDER -> repr_list s B k;
}.

Lemma rep_range s B i k t : rep s B -> B !! i = Some (k, t) -> 0 <= i < PAGE_NUM.
Proof.
  intros HR Hi. destruct (part_ok _ (rep_part _ _ HR) _ _ _ Hi) as (Hk & H0 & He & _).
  pose proof (pow2_pos k). lia.
Qed.

Lemma rep_order s B i k t : rep s B -> B !! i = Some (k, t) -> 0 <= k <= PAGE_MAX_ORDER.
Proof. intros HR Hi. by destruct (part_ok _ (rep_part _ _ HR) _ _ _ Hi). Qed.

Lemma rep_page s B i k t :
  rep s B -> B !! i = Some (k, t) ->
  exists p, pages s !! i = Some p /\ repr_page (Some (k, t)) i p.
Proof.
  intros HR Hi. destruct (rep_pages _ _ HR i) as (p & Hp & HP).
  - by eapply rep_range.
  - exists p. by rewrite Hi in HP.
Qed.

(** ** The list operations *)
Lemma get_page_ok s i p : pages s !! i = Some p -> get_page i s = Ok (p, s).
Proof. unfold get_page. mred. by intros ->. Qed.

Lemma upd_page_ok s i p f :
  pages s !! i = Some p ->
  upd_page i f s = Ok (tt, Buddy (<[i := f p]> (pages s)) (free_lists s)).
Proof. intros H. unfold upd_page. mrun (get_page_ok _ _ _ H). done. Qed.

Lemma get_head_ok s k h : free_lists s !! k = Some h -> get_head k s = Ok (h, s).
Proof. unfold get_head. mred. by intros ->. Qed.

Lemma set_head_ok s k h h' :
  free_lists s !! k = Some h ->
  set_head k h' s = Ok (tt, Buddy (pages s) (<[k := h']> (free_lists s))).
Proof. intros H. unfold set_head, get_head. mred. by rewrite H. Qed.

(** Changes that touch no free block keep the lists. *)
Lemma rep_change s B ps' B' :
  rep s B -> part B' ->
  (forall j k, B' !! j = Some (k, Free) <-> B !! j = Some (k, Free)) ->
  (forall j k, B !! j = Some (k, Free) -> ps' !! j = pages s !! j) ->
  repr_pages ps' B' ->
  rep (Buddy ps' (free_lists s)) B'.
Proof.
  intros HR HP Hfree Hsame Hps. split; [done|done|]. intros k Hk.
  destruct (rep_lists _ _ HR k Hk) as (h & l & Hh & Hc & Hnd & Hl).
  exists h, l. simpl. split_and!; [done| |done|].
  - eapply chain_agree; [|done]. intros i Hi. eapply Hsame, Hl, Hi.
  - intros i. by rewrite Hfree.
Qed.

Lemma repr_pages_insert ps B i o p :
  repr_pages ps B -> repr_page (Some o) i p ->
  repr_pages (<[i := p]> ps) (<[i := o]> B).
Proof.
  intros H Hp j Hj. destruct (decide (i = j)) as [<-|].
  - exists p. by rewrite !lookup_insert_eq.
  - rewrite !lookup_insert_ne by done. by apply H.
Qed.

(** Relabelling a block that is not free as another that is not free. *)
Lemma rep_relabel s B i k t p' t' :
  rep s B -> B !! i = Some (k, t) -> t <> Free -> t' <> Free ->
  repr_page (Some (k, t')) i p' ->
  rep (Buddy (<[i := p']> (pages s)) (free_lists s)) (<[i := (k, t')]> B).
Proof.
  intros HR Hi Ht Ht' Hp'. apply (rep_change s B); [done| | | |].
  - eapply part_relabel; [apply (rep_part _ _ HR)|done].
  - intros j l. destruct (decide (i = j)) as [<-|].
    + rewrite lookup_insert_eq, Hi. split; congruence.
    + by rewrite lookup_insert_ne.
  - intros j l Hj. rewrite lookup_insert_ne; [done|]. intros <-. congruence.
  - apply repr_pages_insert; [apply (rep_pages _ _ HR)|done].
Qed.

(** Putting a block that is not free at the head of its list. *)
Lemma rep_put s B i k t h p' :
  rep s B -> B !! i = Some (k, t) -> t <> Free ->
  free_lists s !! k = Some h -> next p' = h ->
  repr_page (Some (k, Free)) i p' ->
  rep (Buddy (<[i := p']> (pages s)) (<[k := Some i]> (free_lists s)))
      (<[i := (k, Free)]> B).
Proof.
  intros HR Hi Ht Hh Hn Hp'. split.
  - eapply part_relabel; [apply (rep_part _ _ HR)|done].
  - apply repr_pages_insert; [apply (rep_pages _ _ HR)|done].
  - intros l Hl. destruct (rep_lists _ _ HR l Hl) as (h' & xs & Hh' & Hc & Hnd & Hxs).
    assert (Hni : i ∉ xs) by (rewrite Hxs, Hi; congruence).
    destruct (decide (k = l)) as [<-|Hkl]; simpl.
    + rewrite Hh in Hh'. injection Hh' as <-.
      exists (Some i), (i :: xs). simpl. rewrite lookup_insert_eq. split_and!; [done|done| | |].
      * exists p'. rewrite lookup_insert_eq. split; [done|].
        rewrite Hn. by apply chain_insert_notin.
      * by constructor.
      * intros j. rewrite elem_of_cons, Hxs. destruct (decide (i = j)) as [<-|].
        { rewrite lookup_insert_eq. split; auto. }
        rewrite lookup_insert_ne by done. split; [|auto]. intros [?|?]; congruence.
    + exists h', xs. simpl. rewrite lookup_insert_ne by done.
      split_and!; [done|by apply chain_insert_notin|done|].
      intros j. rewrite Hxs. destruct (decide (i = j)) as [<-|].
      * rewrite lookup_insert_eq, Hi. split; congruence.
      * by rewrite lookup_insert_ne.
Qed.

(** Taking the block [j] out of the middle of its list. *)
Lemma rep_take s B k h l1 j l2 ps' h' p' :
  rep s B -> 0 <= k <= PAGE_MAX_ORDER ->
  chain (pages s) h (l1 ++ j :: l2) -> NoDup (l1 ++ j :: l2) ->
  (forall i, i ∈ l1 ++ j :: l2 <-> B !! i = Some (k, Free)) ->
  chain ps' h' (l1 ++ l2) ->
  (forall i, i <> j -> i ∉ l1 -> ps' !! i = pages s !! i) ->
  (forall i, i ∈ l1 -> exists p q, pages s !! i = Some p /\ ps' !! i = Some q /\
     index q = index p /\ flags q = flags p /\ order q = order p) ->
  ps' !! j = Some p' -> repr_page (Some (k, Held true true)) j p' ->
  rep (Buddy ps' (<[k := h']> (free_lists s))) (<[j := (k, Held true true)]> B).
Proof.
  intros HR Hk Hc Hnd Hmem Hc' Hout Hin Hj Hp'.
  assert (HBj : B !! j = Some (k, Free)) by (apply Hmem; set_solver).
  split.
  - eapply part_relabel; [apply (rep_part _ _ HR)|done].
  - intros i Hi. destruct (decide (j = i)) as [<-|Hne].
    { exists p'. by rewrite lookup_insert_eq. }
    rewrite lookup_insert_ne by done.
    destruct (rep_pages _ _ HR i Hi) as (p & Hp & HP).
    destruct (decide (i ∈ l1)) as [Hil|Hil].
    + destruct (Hin i Hil) as (p0 & q & Hp0 & Hq & E1 & E2 & E3).
      exists q. split; [done|]. rewrite Hp in Hp0. injection Hp0 as <-.
      assert (HBi : B !! i = Some (k, Free)) by (apply Hmem; set_solver).
      rewrite HBi in *. unfold repr_page in *. by rewrite E1, E2, E3.
    + exists p. split; [|done]. rewrite Hout by done. done.
  - intros l Hl. destruct (decide (k = l)) as [<-|Hkl].
    + exists h', (l1 ++ l2). simpl. rewrite lookup_insert_eq. split_and!; [done..| |].
      * apply NoDup_app in Hnd as (N1 & N2 & N3). apply NoDup_cons in N3 as [N3 N4].
        apply NoDup_app. split_and!; [done| |done]. set_solver.
      * intros i. destruct (decide (j = i)) as [<-|].
        { rewrite lookup_insert_eq. split; [|congruence]. intros Hi.
          apply NoDup_app in Hnd as (_ & N2 & N3). apply NoDup_cons in N3 as [N3 _].
          set_solver. }
        rewrite lookup_insert_ne by done. rewrite <- Hmem. set_solver.
    + destruct (rep_lists _ _ HR l Hl) as (h0 & xs & Hh & Hcx & Hndx & Hxs).
      exists h0, xs. simpl. rewrite lookup_insert_ne by done. split_and!; [done| |done|].
      * eapply chain_agree; [|done]. intros i Hi. apply Hxs in Hi. apply Hout.
        { intros ->. congruence. }
        intros Hil. assert (B !! i = Some (k, Free)) by (apply Hmem; set_solver). congruence.
      * intros i. rewrite Hxs. destruct (decide (j = i)) as [<-|].
        { rewrite lookup_insert_eq, HBj. split; congruence. }
        by rewrite lookup_insert_ne.
Qed.

(** The page taken from a list. *)
Definition taken (p : page) : page := clear_flag PF_FREE_LIST (set_next None p).

Lemma taken_repr i k p :
  repr_page (Some (k, Free)) i p -> repr_page (Some (k, Held true true)) i (taken p).
Proof. intros (H1 & H2 & H3). unfold repr_page, taken. simpl. rewrite H2. auto. Qed.

Lemma upd_page_twice s i p f g :
  pages s !! i = Some p ->
  (do* upd_page i f in upd_page i g) s =
    Ok (tt, Buddy (<[i := g (f p)]> (pages s)) (free_lists s)).
Proof.
  intros Hp. mrun (upd_page_ok _ _ _ f Hp).
  erewrite upd_page_ok by apply lookup_insert_eq. simpl. by rewrite insert_insert_eq.
Qed.

Lemma bind_assoc {S A B C} (m : M S A) (f : A -> M S B) (g : B -> M S C) s :
  bind (bind m f) g s = bind m (fun a => bind (f a) g) s.
Proof. unfold bind. by destruct (m s) as [[a s']|]. Qed.

(** The two writes at the end of [buddy_list_pop] and [buddy_list_remove]. *)
Lemma detach_ok {A} (a : A) s i p :
  pages s !! i = Some p ->
  (do* upd_page i (set_next None) in
   do* upd_page i (clear_flag PF_FREE_LIST) in ret a) s =
    Ok (a, Buddy (<[i := taken p]> (pages s)) (free_lists s)).
Proof.
  intros Hp. rewrite <- bind_assoc.
  by mrun (upd_page_twice _ _ _ (set_next None) (clear_flag PF_FREE_LIST) Hp).
Qed.

Lemma buddy_list_pop_spec s B k :
  rep s B -> 0 <= k <= PAGE_MAX_ORDER ->
  (exists i s', buddy_list_pop k s = Ok (Some i, s') /\ B !! i = Some (k, Free) /\
     rep s' (<[i := (k, Held true true)]> B)) \/
  (buddy_list_pop k s = Ok (None, s) /\ free_lists s !! k = Some None /\
     forall i, B !! i <> Some (k, Free)).
Proof.
  intros HR Hk. destruct (rep_lists _ _ HR k Hk) as (h & l & Hh & Hc & Hnd & Hl).
  unfold buddy_list_pop. mrun (get_head_ok _ _ _ Hh).
  destruct l as [|i l]; simpl in Hc.
  - right. subst h. split_and!; [done..|]. intros i Hi. apply Hl in Hi. set_solver.
  - left. pose proof Hc as Hc0. destruct Hc as [-> (p & Hp & Hc)].
    assert (HBi : B !! i = Some (k, Free)) by (apply Hl; set_solver).
    mrun (get_page_ok _ _ _ Hp). mrun (set_head_ok _ _ _ (next p) Hh).
    rewrite (detach_ok (Some i) _ i p) by done.
    eexists i, _. split; [done|]. split; [done|]. simpl.
    apply NoDup_cons in Hnd as [Hni Hnd].
    eapply (rep_take s B k _ [] i l); simpl.
    + done.
    + done.
    + exact Hc0.
    + by constructor.
    + done.
    + by apply chain_insert_notin.
    + intros j Hne _. by rewrite lookup_insert_ne.
    + set_solver.
    + apply lookup_insert_eq.
    + apply taken_repr. destruct (rep_page _ _ _ _ _ HR HBi) as (p0 & Hp0 & HP).
      by replace p with p0 by congruence.
Qed.

Lemma buddy_list_push_spec s B i k n :
  rep s B -> B !! i = Some (k, Held true n) ->
  exists s', buddy_list_push k i s = Ok (tt, s') /\ rep s' (<[i := (k, Free)]> B).
Proof.
  intros HR HB. pose proof (rep_order _ _ _ _ _ HR HB) as Hk.
  destruct (rep_page _ _ _ _ _ HR HB) as (p & Hp & (Hi & Hf & Ho & _)).
  destruct (rep_lists _ _ HR k Hk) as (h & l & Hh & _).
  unfold buddy_list_push. mrun (get_head_ok _ _ _ Hh).
  assert (E : forall s0, match h with
      | Some _ => upd_page i (set_next h) | None => upd_page i (set_next None) end s0 =
      upd_page i (set_next h) s0) by (intros; by destruct h).
  unfold bind at 1. rewrite E. rewrite (upd_page_ok _ _ _ _ Hp). simpl.
  erewrite bind_ok by (by eapply set_head_ok). simpl.
  erewrite upd_page_ok by apply lookup_insert_eq. simpl. rewrite insert_insert_eq.
  eexists. split; [done|].
  eapply (rep_put s B i k _ h); [done..|discriminate|done|done|].
  unfold repr_page. simpl. rewrite Hf. auto.
Qed.

(** The cell [pp] points to when the loop has passed the pages [l1]. *)
Definition pred_cell (pp : cell) (l1 : list Z) : cell :=
  match last l1 with None => pp | Some x => NextCell x end.

Lemma buddy_list_remove_loop_spec l1 j l2 : forall fuel pp cur s p,
  chain (pages s) cur (l1 ++ j :: l2) -> j ∉ l1 ->
  (forall i q, i ∈ l1 ++ [j] -> pages s !! i = Some q -> index q = i) ->
  (length l1 < fuel)%nat -> pages s !! j = Some p ->
  buddy_list_remove_loop fuel pp cur j s =
  (do* write_cell (pred_cell pp l1) (next p) in
   do* upd_page j (set_next None) in
   do* upd_page j (clear_flag PF_FREE_LIST) in
   ret (Some j)) s.
Proof.
  induction l1 as [|i l1 IH]; intros fuel pp cur s p Hc Hj Hidx Hfuel Hp;
    destruct fuel as [|fuel]; simpl in Hfuel; try lia; simpl in Hc;
    destruct Hc as [-> (q & Hq & Hc)]; simpl.
  - mrun (get_page_ok _ _ _ Hq). replace q with p by congruence.
    rewrite (Hidx j p) by (done || set_solver). by rewrite Z.eqb_refl.
  - mrun (get_page_ok _ _ _ Hq). rewrite (Hidx i q) by (done || set_solver).
    destruct (Z.eqb_spec i j) as [->|Hne]; [set_solver|].
    rewrite (IH fuel (NextCell i) (next q) s p); [|done|set_solver| |lia|done].
    + unfold pred_cell. by destruct l1 as [|x l1 _] using rev_ind;
        [|rewrite last_cons, last_snoc].
    + intros a b Ha. apply Hidx. set_solver.
Qed.

Lemma buddy_list_remove_spec s B k j :
  rep s B -> B !! j = Some (k, Free) ->
  exists s', buddy_list_remove k j s = Ok (Some j, s') /\
    rep s' (<[j := (k, Held true true)]> B).
Proof.
  intros HR HB. pose proof (rep_order _ _ _ _ _ HR HB) as Hk.
  destruct (rep_lists _ _ HR k Hk) as (h & l & Hh & Hc & Hnd & Hl).
  assert (Hj : j ∈ l) by (by apply Hl).
  apply list_elem_of_split in Hj as (l1 & l2 & ->).
  destruct (rep_page _ _ _ _ _ HR HB) as (p & Hp & HP).
  pose proof Hnd as Hnd'. apply NoDup_app in Hnd as (N1 & N2 & N3).
  assert (Hj1 : j ∉ l1) by (intros Hin; apply (N2 j Hin); set_solver).
  unfold buddy_list_remove. mrun (get_head_ok _ _ _ Hh).
  assert (Hrange : forall i, i ∈ l1 ++ j :: l2 -> 0 <= i < PAGE_NUM).
  { intros i Hi. apply Hl in Hi. by eapply rep_range. }
  assert (Hlen : (length l1 < Z.to_nat PAGE_NUM)%nat).
  { assert (length (l1 ++ j :: l2) <= length (seqZ 0 PAGE_NUM))%nat as H.
    { apply submseteq_length, NoDup_submseteq; [done|]. intros i Hi.
      apply elem_of_seqZ. apply Hrange in Hi. lia. }
    rewrite length_app, length_seqZ in H. simpl in H. lia. }
  erewrite buddy_list_remove_loop_spec; [|done|done| |done|done].
  2: { intros i q Hi Hq. assert (Hi' : i ∈ l1 ++ j :: l2) by set_solver.
       apply Hl in Hi'. destruct (rep_page _ _ _ _ _ HR Hi') as (q' & Hq' & [HE _]).
       by replace q with q' by congruence. }
  destruct l1 as [|x l1 _] using rev_ind; unfold pred_cell.
  - simpl. mrun (set_head_ok _ _ _ (next p) Hh).
    rewrite (detach_ok (Some j) _ j p) by done. eexists. split; [done|]. simpl.
    simpl in Hc. pose proof Hc as [Hh0 (p0 & Hp0 & Hc1)].
    replace p0 with p in * by congruence. apply NoDup_cons in N3 as [N3 N4].
    eapply (rep_take s B k h [] j l2); simpl; try done.
    + by apply chain_insert_notin.
    + intros i Hne _. by rewrite lookup_insert_ne.
    + set_solver.
    + apply lookup_insert_eq.
    + by apply taken_repr.
  - rewrite last_snoc. simpl. rewrite <- app_assoc in *. simpl in *.
    destruct (chain_app next _ _ l1 x (j :: l2) Hc) as (px & Hpx & _).
    assert (Hxj : x <> j) by set_solver.
    mrun (upd_page_ok _ _ _ (set_next (next p)) Hpx).
    rewrite (detach_ok (Some j) _ j p) by (simpl; by rewrite lookup_insert_ne).
    eexists. split; [done|]. simpl.
    assert (Hx1 : x ∉ l1).
    { intros Hin. apply NoDup_app in Hnd' as (_ & N & _). apply (N x Hin). set_solver. }
    apply NoDup_cons in N3 as [N3 N4].
    assert (Hid : free_lists s = <[k := h]> (free_lists s)) by (by rewrite insert_id).
    rewrite Hid.
    eapply (rep_take s B k h (l1 ++ [x]) j l2); rewrite <- ?app_assoc; simpl; try done.
    + apply chain_insert_notin.
      { clear - Hj1 N3. set_solver. }
      eapply (chain_bypass next); try done.
    + intros i Hne Hi. rewrite !lookup_insert_ne by set_solver. done.
    + intros i Hi. destruct (decide (i = x)) as [->|Hix].
      * exists px, (set_next (next p) px). rewrite lookup_insert_ne by done.
        by rewrite lookup_insert_eq.
      * assert (Hi' : i ∈ l1 ++ x :: j :: l2) by set_solver.
        apply Hl in Hi'. destruct (rep_page _ _ _ _ _ HR Hi') as (q & Hq & _).
        exists q, q. rewrite !lookup_insert_ne by set_solver. done.
    + apply lookup_insert_eq.
    + by apply taken_repr.
Qed.

(** ** The invariant of the allocator *)
Definition no_held (B : blocks) : Prop := forall i k o n, B !! i <> Some (k, Held o n).
(** Only the block that starts at [i] is in the hands of an operation. *)
Definition held_only (B : blocks) (i : Z) : Prop :=
  forall j k o n, B !! j = Some (k, Held o n) -> j = i.
Definition allocs (B : blocks) (A : gmap Z Z) : Prop :=
  forall i k, A !! i = Some k <-> B !! i = Some (k, Alloc).

Definition buddy_inv (s : buddy) (A : gmap Z Z) : Prop :=
  exists B, rep s B /\ coalesced B /\ no_held B /\ allocs B A.

Lemma held_only_relabel B i k t u :
  B !! i = Some (k, t) -> (forall j l o n, j <> i -> B !! j <> Some (l, Held o n)) ->
  held_only (<[i := (k, u)]> B) i.
Proof.
  intros Hi Hno j l o n Hj. destruct (decide (i = j)) as [|Hne]; [done|].
  rewrite lookup_insert_ne in Hj by done. destruct (Hno j l o n); [congruence|done].
Qed.

Lemma allocs_relabel B A i k t u :
  allocs B A -> B !! i = Some (k, t) -> t <> Alloc -> u <> Alloc ->
  allocs (<[i := (k, u)]> B) A.
Proof.
  intros HA Hi Ht Hu j l. rewrite (HA j l). destruct (decide (i = j)) as [<-|].
  - rewrite lookup_insert_eq, Hi. split; congruence.
  - by rewrite lookup_insert_ne.
Qed.

(** ** Allocation *)
Lemma pull_search_spec n : forall i s B,
  rep s B -> 0 <= i -> PAGE_MAX_DEPTH - i <= Z.of_nat n ->
  (exists b to s', pull_search n i s = Ok (Some (b, to), s') /\
     i <= to + 1 <= PAGE_MAX_ORDER /\ B !! b = Some (to + 1, Free) /\
     rep s' (<[b := (to + 1, Held true true)]> B) /\
     (forall l j, i <= l <= to -> B !! j <> Some (l, Free))) \/
  (pull_search n i s = Ok (None, s) /\
     forall l j, i <= l <= PAGE_MAX_ORDER -> B !! j <> Some (l, Free)).
Proof.
  induction n as [|n IH]; intros i s B HR Hi Hn; simpl.
  - right. split; [done|]. bconst. lia.
  - zcase.
    2: { right. split; [done|]. bconst. lia. }
    destruct (buddy_list_pop_spec s B i HR ltac:(bconst; lia))
      as [(b & s' & E & Hb & HR')|(E & _ & Hno)]; rewrite (bind_ok _ _ _ _ _ E); cbn iota.
    + left. exists b, (i - 1), s'. replace (i - 1 + 1) with i by lia.
      split; [done|]. split; [bconst; lia|]. split; [done|]. split; [done|]. lia.
    + destruct (IH (i + 1) s B HR ltac:(lia) ltac:(lia))
        as [(b & to & s' & E' & Hto & Hb & HR' & Hl)|(E' & Hl)]; rewrite E'.
      * left. exists b, to, s'. split; [done|]. split; [lia|]. do 2 (split; [done|]).
        intros l j Hlj. destruct (Z.eq_dec l i) as [->|]; [apply Hno|apply Hl; lia].
      * right. split; [done|]. intros l j Hlj.
        destruct (Z.eq_dec l i) as [->|]; [apply Hno|apply Hl; lia].
Qed.

(** One split: the lower half becomes free, the upper half stays in hand. *)
Lemma split_step s B i k o p :
  rep s B -> 0 <= k -> B !! i = Some (k + 1, Held o true) ->
  (forall j, B !! j <> Some (k, Free)) -> pages s !! i = Some p ->
  let B' := <[i := (k, Free)]> (<[i + 2 ^ k := (k, Held false true)]> B) in
  rep (Buddy (<[i := raise_flag PF_FREE_LIST (set_order k p)]> (pages s))
             (<[k := Some i]> (free_lists s))) B'.
Proof.
  intros HR Hk HB Hno Hp. simpl.
  destruct (part_ok _ (rep_part _ _ HR) _ _ _ HB) as (Hk1 & _ & Hend & _).
  pose proof (pow2_pos k Hk) as H2. rewrite pow2_succ in Hend by done.
  assert (Hup : B !! (i + 2 ^ k) = None).
  { eapply part_inside; [apply (rep_part _ _ HR)|done|]. rewrite pow2_succ; lia. }
  destruct (rep_page _ _ _ _ _ HR HB) as (p0 & Hp0 & (E1 & E2 & _ & E4)).
  replace p0 with p in * by congruence. specialize (E4 eq_refl).
  pose (B1 := <[i := (k, Held false true)]> (<[i + 2 ^ k := (k, Held false true)]> B)).
  assert (HR1 : rep (Buddy (pages s) (free_lists s)) B1).
  { apply (rep_change s B); [done| | |done|].
    - by apply (part_split _ (rep_part _ _ HR) i k (Held o true)).
    - intros j l. unfold B1. destruct (decide (i = j)) as [<-|].
      { rewrite lookup_insert_eq, HB. split; congruence. }
      rewrite lookup_insert_ne by done. destruct (decide (i + 2 ^ k = j)) as [<-|].
      { rewrite lookup_insert_eq, Hup. split; congruence. }
      by rewrite lookup_insert_ne.
    - intros j Hj. destruct (rep_pages _ _ HR j Hj) as (q & Hq & HQ).
      exists q. split; [done|]. unfold B1.
      destruct (decide (i = j)) as [<-|].
      { rewrite lookup_insert_eq. replace q with p by congruence. by split_and!. }
      rewrite lookup_insert_ne by done. destruct (decide (i + 2 ^ k = j)) as [<-|].
      { rewrite lookup_insert_eq. rewrite Hup in HQ. destruct HQ as (? & ? & ?).
        by split_and!. }
      by rewrite lookup_insert_ne. }
  assert (Hh : free_lists s !! k = Some None).
  { destruct (buddy_list_pop_spec s B k HR ltac:(lia)) as [(b & _ & _ & Hb & _)|(_ & H & _)];
      [by destruct (Hno b)|done]. }
  assert (Hlook : B1 !! i = Some (k, Held false true)) by (unfold B1; apply lookup_insert_eq).
  pose proof (rep_put _ B1 i k (Held false true) None
                (raise_flag PF_FREE_LIST (set_order k p)) HR1 Hlook ltac:(done) Hh E4) as H.
  unfold B1 in H. rewrite insert_insert_eq in H. apply H.
  unfold repr_page. simpl. rewrite E2. done.
Qed.

Lemma split_coalesced s B i k o :
  rep s B -> coalesced B -> 0 <= k -> B !! i = Some (k + 1, Held o true) ->
  (forall j, B !! j <> Some (k, Free)) ->
  coalesced (<[i := (k, Free)]> (<[i + 2 ^ k := (k, Held false true)]> B)).
Proof.
  intros HR HC Hk HB Hno.
  destruct (part_ok _ (rep_part _ _ HR) _ _ _ HB) as (Hk1 & _ & _ & Hd).
  apply coalesced_put; [by apply coalesced_take|done| | |].
  - eapply divide_pow2_le; [|done]. lia.
  - intros _. unfold buddy_of. rewrite low_testbit by done.
    rewrite lookup_insert_eq. congruence.
  - intros a l Ha. destruct (decide (i + 2 ^ k = a)) as [<-|].
    { rewrite lookup_insert_eq in Ha. congruence. }
    rewrite lookup_insert_ne in Ha by done.
    destruct (part_ok _ (rep_part _ _ HR) _ _ _ Ha) as (? & _ & _ & ?). split; [done|lia].
Qed.

Lemma pull_split_spec n : forall i from pg s B o A,
  rep s B -> coalesced B -> held_only B pg -> allocs B A ->
  0 <= from <= i + 1 -> i + 1 - from <= Z.of_nat n ->
  B !! pg = Some (i + 1, Held o true) ->
  (forall l j, from <= l <= i -> B !! j <> Some (l, Free)) ->
  exists pg' s' B', pull_split n i from pg s = Ok (pg', s') /\
    rep s' B' /\ coalesced B' /\ held_only B' pg' /\ allocs B' A /\
    exists o', B' !! pg' = Some (from, Held o' true).
Proof.
  induction n as [|n IH]; intros i from pg s B o A HR HC HH HA Hfrom Hn HB Hno.
  - assert (from = i + 1) as -> by lia. exists pg, s, B. simpl.
    destruct (Z.ltb_spec i (i + 1)); [|lia]. by split_and!; eauto.
  - cbn [pull_split]. zcase.
    { assert (from = i + 1) as -> by lia. exists pg, s, B. by split_and!; eauto. }
    destruct (rep_page _ _ _ _ _ HR HB) as (p & Hp & _).
    mrun (upd_page_ok _ _ _ (set_order i) Hp).
    assert (Hh : exists h, free_lists s !! i = Some h).
    { destruct (rep_lists _ _ HR i) as (h & _ & Hh & _); [|eauto].
      pose proof (rep_order _ _ _ _ _ HR HB). lia. }
    destruct Hh as [h Hh]. erewrite bind_ok by (by eapply set_head_ok). simpl.
    erewrite bind_ok by (eapply upd_page_ok, lookup_insert_eq).
    cbn beta iota. simpl. rewrite insert_insert_eq. rewrite Z.shiftl_1_l.
    pose proof (pow2_pos i ltac:(lia)) as H2.
    assert (Hup : B !! (pg + 2 ^ i) = None).
    { eapply part_inside; [apply (rep_part _ _ HR)|done|]. rewrite pow2_succ; lia. }
    eapply (IH (i - 1) from (pg + 2 ^ i) _ _ false A).
    + eapply split_step; try done; [lia|]. intros j. apply Hno. lia.
    + eapply split_coalesced; try done; [lia|]. intros j. apply Hno. lia.
    + intros j l o1 n1 Hj. destruct (decide (pg = j)) as [<-|].
      { rewrite lookup_insert_eq in Hj. congruence. }
      rewrite lookup_insert_ne in Hj by done.
      destruct (decide (pg + 2 ^ i = j)) as [<-|]; [done|].
      rewrite lookup_insert_ne in Hj by done. apply HH in Hj. congruence.
    + intros j l. rewrite (HA j l). destruct (decide (pg = j)) as [<-|].
      { rewrite lookup_insert_eq, HB. split; congruence. }
      rewrite lookup_insert_ne by done. destruct (decide (pg + 2 ^ i = j)) as [<-|].
      { rewrite lookup_insert_eq, Hup. split; congruence. }
      by rewrite lookup_insert_ne.
    + lia.
    + lia.
    + rewrite lookup_insert_ne, lookup_insert_eq by lia. repeat f_equal. lia.
    + intros l j Hl. destruct (decide (pg = j)) as [<-|].
      { rewrite lookup_insert_eq. intros [= ?]. lia. }
      rewrite lookup_insert_ne by done. destruct (decide (pg + 2 ^ i = j)) as [<-|].
      { rewrite lookup_insert_eq. congruence. }
      rewrite lookup_insert_ne by done. apply Hno. lia.
Qed.

(** The order [buddy_alloc] serves a request of [size] bytes from. *)
Definition order_for (size k : Z) : Prop :=
  0 <= k <= PAGE_MAX_ORDER /\ size <= 2 ^ k * PAGE_SIZE /\
  forall l, 0 <= l < k -> 2 ^ l * PAGE_SIZE < size.

Lemma block_bytes k : 0 <= k <= PAGE_MAX_ORDER ->
  u32 (Z.shiftl 1 k * PAGE_SIZE) = 2 ^ k * PAGE_SIZE.
Proof.
  intros Hk. rewrite Z.shiftl_1_l. apply u32_small. unfold is_u32, PAGE_SIZE.
  pose proof (pow2_pos k ltac:(lia)). assert (2 ^ k <= 2 ^ 10) by (apply Z.pow_le_mono_r; bconst; lia).
  lia.
Qed.

Lemma alloc_order_spec size n : forall i,
  0 <= i -> i + Z.of_nat n = PAGE_MAX_DEPTH ->
  (forall l, 0 <= l < i -> 2 ^ l * PAGE_SIZE < size) ->
  match alloc_order n i size with
  | Some k => order_for size k
  | None => forall l, 0 <= l <= PAGE_MAX_ORDER -> 2 ^ l * PAGE_SIZE < size
  end.
Proof.
  induction n as [|n IH]; intros i Hi Hn Hl; simpl.
  - intros l Hl'. apply Hl. bconst. lia.
  - rewrite block_bytes by (bconst; lia). zcase.
    + split; [bconst; lia|]. done.
    + apply IH; [lia|lia|]. intros l Hl'. destruct (Z.eq_dec l i) as [->|]; [lia|].
      apply Hl. lia.
Qed.

Lemma order_for_unique size k l : order_for size k -> order_for size l -> k = l.
Proof.
  intros (Hk & Hks & Hkm) (Hl & Hls & Hlm).
  destruct (Z.lt_trichotomy k l) as [H|[H|H]]; [|done|].
  - specialize (Hlm k ltac:(lia)). lia.
  - specialize (Hkm l ltac:(lia)). lia.
Qed.

Lemma alloc_order_eq size k :
  order_for size k -> alloc_order (Z.to_nat PAGE_MAX_DEPTH) 0 size = Some k.
Proof.
  intros Hk. pose proof (alloc_order_spec size (Z.to_nat PAGE_MAX_DEPTH) 0
    ltac:(lia) ltac:(bconst; lia) ltac:(lia)) as H.
  destruct (alloc_order _ _ _) as [l|].
  - f_equal. by eapply order_for_unique.
  - destruct Hk as (Hk & Hks & _). specialize (H k Hk). lia.
Qed.

Lemma alloc_order_none size :
  2 ^ PAGE_MAX_ORDER * PAGE_SIZE < size ->
  alloc_order (Z.to_nat PAGE_MAX_DEPTH) 0 size = None.
Proof.
  intros Hs. pose proof (alloc_order_spec size (Z.to_nat PAGE_MAX_DEPTH) 0
    ltac:(lia) ltac:(bconst; lia) ltac:(lia)) as H.
  destruct (alloc_order _ _ _) as [l|]; [|done].
  destruct H as (Hl & Hls & _). unfold PAGE_SIZE in *.
  assert (2 ^ l <= 2 ^ PAGE_MAX_ORDER) by (apply Z.pow_le_mono_r; lia). lia.
Qed.

(** A block in hand becomes an allocated block. *)
Lemma hand_out s B A i k o n p :
  rep s B -> coalesced B -> held_only B i -> allocs B A ->
  B !! i = Some (k, Held o n) -> pages s !! i = Some p -> order p = k ->
  buddy_inv (Buddy (<[i := raise_flag PF_FIRST_PAGE p]> (pages s)) (free_lists s)) (<[i := k]> A).
Proof.
  intros HR HC HH HA HB Hp Ho. exists (<[i := (k, Alloc)]> B). split_and!.
  - eapply rep_relabel; [done|done|done|done|].
    destruct (rep_page _ _ _ _ _ HR HB) as (p0 & Hp0 & (E1 & E2 & _)).
    replace p0 with p in * by congruence. unfold repr_page. simpl. by rewrite E2.
  - by apply coalesced_take.
  - intros j l o' n' Hj. destruct (decide (i = j)) as [<-|].
    { rewrite lookup_insert_eq in Hj. congruence. }
    rewrite lookup_insert_ne in Hj by done. apply HH in Hj. congruence.
  - intros j l. destruct (decide (i = j)) as [<-|].
    + rewrite !lookup_insert_eq. split; congruence.
    + rewrite !lookup_insert_ne by done. apply HA.
Qed.

(** The block taken for a request of the order [k], before it is marked. *)
Lemma buddy_take_spec s B A k :
  rep s B -> coalesced B -> no_held B -> allocs B A -> 0 <= k <= PAGE_MAX_ORDER ->
  let take := (let* pg := buddy_list_pop k in
               match pg with Some b => ret b | None => buddy_pull_block k end) in
  (exists i s' B' o p, take s = Ok (i, s') /\ rep s' B' /\ coalesced B' /\ held_only B' i /\
     allocs B' A /\ B' !! i = Some (k, Held o true) /\ pages s' !! i = Some p /\ order p = k) \/
  (take s = Err Halt /\ forall l j, k <= l <= PAGE_MAX_ORDER -> B !! j <> Some (l, Free)).
Proof.
  intros HR HC HN HA Hk. simpl.
  assert (HO : forall b t u, B !! b = Some (t, Free) -> held_only (<[b := (t, u)]> B) b).
  { intros b t u Hb. eapply held_only_relabel; [done|]. intros j l o n _. apply HN. }
  destruct (buddy_list_pop_spec s B k HR Hk) as [(b & s' & E & Hb & HR')|(E & Hh & Hno)];
    rewrite (bind_ok _ _ _ _ _ E); cbn iota.
  - left. pose proof (lookup_insert_eq B b (k, Held true true)) as HB'.
    destruct (rep_page _ _ _ _ _ HR' HB') as (p & Hp & (_ & _ & Ho & _)).
    exists b, s', (<[b := (k, Held true true)]> B), true, p.
    split_and!; [done|done|by apply coalesced_take|by apply HO| |done|done|by apply Ho].
    by eapply allocs_relabel.
  - unfold buddy_pull_block.
    destruct (pull_search_spec (Z.to_nat PAGE_MAX_DEPTH) (k + 1) s B HR ltac:(lia) ltac:(bconst; lia))
      as [(b & to & s' & E' & Hto & Hb & HR' & Hl)|(E' & Hl)]; rewrite (bind_ok _ _ _ _ _ E').
    + left.
      destruct (pull_split_spec (Z.to_nat PAGE_MAX_DEPTH) to k b s' _ true A HR'
                  (coalesced_take _ _ _ (Held true true) HC ltac:(done)) (HO _ _ _ Hb)
                  (allocs_relabel _ _ _ _ _ (Held true true) HA Hb ltac:(done) ltac:(done)))
        as (pg & s2 & B2 & E2 & HR2 & HC2 & HH2 & HA2 & o & HB2).
      * lia.
      * bconst; lia.
      * apply lookup_insert_eq.
      * intros l j Hlj. destruct (decide (b = j)) as [<-|].
        { rewrite lookup_insert_eq. congruence. }
        rewrite lookup_insert_ne by done.
        destruct (Z.eq_dec l k) as [->|]; [apply Hno|]. apply Hl. lia.
      * mrun E2. destruct (rep_page _ _ _ _ _ HR2 HB2) as (p & Hp & (Q1 & Q2 & _ & Q4)).
        mrun (upd_page_ok _ _ _ (set_order k) Hp).
        exists pg, (Buddy (<[pg := set_order k p]> (pages s2)) (free_lists s2)),
          (<[pg := (k, Held true true)]> B2), true, (set_order k p).
        split_and!.
        -- done.
        -- by eapply rep_relabel.
        -- by apply coalesced_take.
        -- intros j l o' n' Hj. destruct (decide (pg = j)) as [|]; [done|].
           rewrite lookup_insert_ne in Hj by done. by apply HH2 in Hj.
        -- by eapply allocs_relabel.
        -- apply lookup_insert_eq.
        -- apply lookup_insert_eq.
        -- done.
    + right. split; [done|]. intros l j Hlj.
      destruct (Z.eq_dec l k) as [->|]; [apply Hno|]. apply Hl. lia.
Qed.

(** Two blocks have no page in common. *)
Definition disjoint_blocks (i k j l : Z) : Prop :=
  forall x, in_block i k x -> in_block j l x -> False.

(** [buddy_alloc], whole: the block it returns, or why it halts. *)
Lemma buddy_alloc_spec (s : buddy) (A : gmap Z Z) (size k : Z) :
  buddy_inv s A -> order_for size k ->
  (exists i s', buddy_alloc size s = Ok (i, s') /\ buddy_inv s' (<[i := k]> A) /\
     0 <= i /\ i + 2 ^ k <= PAGE_NUM /\ (2 ^ k | i) /\
     forall j l, A !! j = Some l -> disjoint_blocks i k j l) \/
  (buddy_alloc size s = Err Halt /\
     forall i, 0 <= i -> i + 2 ^ k <= PAGE_NUM -> (2 ^ k | i) ->
       exists j l x, A !! j = Some l /\ in_block i k x /\ in_block j l x).
Proof.
  intros (B & HR & HC & HN & HA) Ho. pose proof Ho as (Hk & _).
  unfold buddy_alloc. rewrite (alloc_order_eq _ _ Ho). rewrite <- bind_assoc.
  destruct (buddy_take_spec s B A k HR HC HN HA Hk)
    as [(i & s' & B' & o & p & E & HR' & HC' & HH & HA' & HB & Hp & Hord)|(E & Hno)].
  - left. mrun E. mrun (upd_page_ok _ _ _ (raise_flag PF_FIRST_PAGE) Hp).
    destruct (part_ok _ (rep_part _ _ HR') _ _ _ HB) as (_ & Hi0 & Hi1 & Hi2).
    eexists i, _. split_and!; [done|by eapply hand_out|done|done|done|].
    intros j l Hj x Hx1 Hx2. apply HA' in Hj.
    assert (i = j) as <- by (by eapply (part_unique _ (rep_part _ _ HR'))). congruence.
  - right. rewrite (bind_err _ _ _ _ E). split; [done|]. intros i Hi0 Hi1 Hi2.
    pose proof (rep_part _ _ HR) as HP.
    (* otherwise the whole range is free and lies in one free block *)
    destruct (decide (Exists (fun x => Exists (fun j => in_block j.1 j.2 x) (map_to_list A))
                             (seqZ i (2 ^ k)))) as [Hx|Hx].
    { apply Exists_exists in Hx as (x & Hx & Hj).
      apply Exists_exists in Hj as ([j l] & Hj & Hin). simpl in *.
      apply elem_of_map_to_list in Hj. apply elem_of_seqZ in Hx.
      exists j, l, x. split_and!; try done; unfold in_block; lia. }
    exfalso.
    destruct (free_run_in_block B HP (Z.to_nat k) i HC) as (j & l & Hj & Hl & _).
    + lia.
    + by rewrite Z2Nat.id by lia.
    + rewrite Z2Nat.id by lia. intros x Hxin.
      destruct (part_cover _ HP x) as (j & l & t & Hj & Hin); [unfold in_block in *; lia|].
      destruct t as [| |o' n'].
      * eauto.
      * exfalso. apply Hx, Exists_exists. exists x.
        split; [apply elem_of_seqZ; unfold in_block in *; lia|].
        apply Exists_exists. exists (j, l). split; [|done]. apply elem_of_map_to_list. by apply HA.
      * by destruct (HN j l o' n').
    + eapply Hno; [|done]. rewrite Z2Nat.id in Hl by lia.
      destruct (part_ok _ HP _ _ _ Hj). lia.
Qed.

(** ** Deallocation *)
Lemma truthy_bit i k : 0 <= k -> truthy (Z.land (Z.shiftr i k) 0x1) = Z.testbit i k.
Proof.
  intros Hk. change 0x1 with (2 ^ 0). rewrite truthy_land_pow2 by lia.
  rewrite Z.shiftr_spec by lia. f_equal.
Qed.

(** Below the largest order, the buddy of a block is inside the page array and
    [buddy_find_buddy_index] computes it without wrap-around. *)
Lemma buddy_in_range i k :
  0 <= i < PAGE_NUM -> 0 <= k < PAGE_MAX_ORDER -> (2 ^ k | i) ->
  0 <= buddy_of i k < PAGE_NUM.
Proof.
  intros Hi Hk Hd. unfold buddy_of. pose proof (pow2_pos k ltac:(lia)).
  destruct (Z.testbit i k) eqn:E.
  - apply aligned_high in E as [q Hq]; [|lia|done]. rewrite pow2_succ in Hq by lia.
    assert (0 <= q) by nia. nia.
  - apply aligned_low in E as [q Hq]; [|lia|done]. rewrite pow2_succ in Hq by lia.
    split; [lia|]. bconst. assert (exists m, 0x4000 = m * (2 * 2 ^ k)) as [m Hm].
    { exists (2 ^ (13 - k)). rewrite <- pow2_succ by lia. rewrite <- Z.pow_add_r by lia.
      by replace (13 - k + (k + 1)) with 14 by lia. }
    assert (q < m) by nia. nia.
Qed.

Lemma buddy_index_eq p i k :
  index p = i -> order p = k -> 0 <= i < PAGE_NUM -> 0 <= k < PAGE_MAX_ORDER -> (2 ^ k | i) ->
  buddy_find_buddy_index p = buddy_of i k.
Proof.
  intros <- <- Hi Hk Hd. pose proof (buddy_in_range _ _ Hi Hk Hd) as Hr.
  unfold buddy_find_buddy_index, buddy_of in *. rewrite truthy_bit, Z.shiftl_1_l by lia.
  destruct (Z.testbit (index p) (order p)); apply u32_small; unfold is_u32; bconst; lia.
Qed.

Lemma free_buddy_iff s B p b j k :
  rep s B -> 0 <= j < PAGE_NUM -> pages s !! j = Some b -> order p = k ->
  buddy_is_free_buddy p b = true <-> B !! j = Some (k, Free).
Proof.
  intros HR Hj Hb Ho. destruct (rep_pages _ _ HR j Hj) as (b' & Hb' & HP).
  replace b' with b in * by congruence. unfold buddy_is_free_buddy.
  rewrite andb_true_iff, Z.eqb_eq, Ho. unfold repr_page in HP.
  destruct (B !! j) as [[l [| |o n]]|]; destruct HP as (_ & -> & HP); simpl.
  - rewrite HP. split; [intros [_ ->]; done|]. intros [= ->]. done.
  - split; [intros [? _]; done|congruence].
  - split; [intros [? _]; done|congruence].
  - split; [intros [? _]; done|congruence].
Qed.

(** Merging two blocks in hand. *)
Lemma rep_merge s B lo k p q :
  rep s B -> k < PAGE_MAX_ORDER -> (2 ^ (k + 1) | lo) ->
  B !! lo = Some (k, Held true true) -> B !! (lo + 2 ^ k) = Some (k, Held true true) ->
  pages s !! lo = Some p -> pages s !! (lo + 2 ^ k) = Some q ->
  rep (Buddy (<[lo := set_order (k + 1) p]> (<[lo + 2 ^ k := set_order 0 q]> (pages s)))
             (free_lists s))
      (<[lo := (k + 1, Held true true)]> (delete (lo + 2 ^ k) B)).
Proof.
  intros HR Hk Hd Hlo Hhi Hp Hq.
  pose proof (rep_order _ _ _ _ _ HR Hlo) as Hk0. pose proof (pow2_pos k ltac:(lia)).
  apply (rep_change s B); [done| | | |].
  - by eapply part_merge; [apply (rep_part _ _ HR)|..].
  - intros j l. destruct (decide (lo = j)) as [<-|].
    { rewrite lookup_insert_eq, Hlo. split; congruence. }
    rewrite lookup_insert_ne by done. destruct (decide (lo + 2 ^ k = j)) as [<-|].
    { rewrite lookup_delete_eq, Hhi. split; congruence. }
    by rewrite lookup_delete_ne.
  - intros j l Hj. rewrite !lookup_insert_ne; [done| |]; intros <-; congruence.
  - apply repr_pages_insert.
    + intros j Hj. destruct (rep_pages _ _ HR j Hj) as (x & Hx & HX).
      destruct (decide (lo + 2 ^ k = j)) as [<-|].
      * exists (set_order 0 q). rewrite lookup_insert_eq, lookup_delete_eq.
        rewrite Hhi in HX. replace x with q in HX by congruence.
        destruct HX as (? & ? & _ & ?). split; [done|]. by split_and!; auto.
      * exists x. by rewrite lookup_insert_ne, lookup_delete_ne.
    + destruct (rep_page _ _ _ _ _ HR Hlo) as (x & Hx & (E1 & E2 & _ & E4)).
      replace x with p in * by congruence. by split_and!.
Qed.

(** The blocks allocated after [i] is given back. *)
Definition allocs_but (B B' : blocks) (i : Z) : Prop :=
  forall j l, B' !! j = Some (l, Alloc) <-> B !! j = Some (l, Alloc) /\ j <> i.

(** [j] takes the place of a block that is not allocated, or of [i]. *)
Lemma allocs_but_insert B B' i j k t t' :
  allocs_but B B' i -> B' !! j = Some (k, t) -> t <> Alloc -> t' <> Alloc ->
  allocs_but B (<[j := (k, t')]> B') i.
Proof.
  intros H Hj Ht Ht' a l. rewrite <- (H a l). destruct (decide (j = a)) as [<-|].
  - rewrite lookup_insert_eq, Hj. split; congruence.
  - by rewrite lookup_insert_ne.
Qed.

(** The push that ends [buddy_free]. *)
Lemma free_push s B i k :
  rep s B -> coalesced B -> held_only B i -> B !! i = Some (k, Held true false) ->
  (k < PAGE_MAX_ORDER -> B !! buddy_of i k <> Some (k, Free)) ->
  exists s' B', buddy_list_push k i s = Ok (tt, s') /\ rep s' B' /\ coalesced B' /\
    no_held B' /\ forall j l, B' !! j = Some (l, Alloc) <-> B !! j = Some (l, Alloc).
Proof.
  intros HR HC HH HB Hbud. destruct (buddy_list_push_spec _ _ _ _ _ HR HB) as (s' & E & HR').
  exists s', (<[i := (k, Free)]> B). split_and!; [done|done| | |].
  - destruct (part_ok _ (rep_part _ _ HR) _ _ _ HB) as (Hk & _ & _ & Hd).
    apply coalesced_put; [done|lia|done|done|]. intros a l Ha.
    destruct (part_ok _ (rep_part _ _ HR) _ _ _ Ha) as (? & _ & _ & ?). split; [done|lia].
  - intros j l o n Hj. destruct (decide (i = j)) as [<-|].
    { rewrite lookup_insert_eq in Hj. congruence. }
    rewrite lookup_insert_ne in Hj by done. apply HH in Hj. congruence.
  - intros j l. destruct (decide (i = j)) as [<-|].
    + rewrite lookup_insert_eq, HB. split; congruence.
    + by rewrite lookup_insert_ne.
Qed.

(** The merge step of [buddy_free]: the two orders are rewritten and the lower
    of the two blocks goes on as a block of the next order. *)
Lemma free_merge s B i k :
  let bi := buddy_of i k in
  rep s B -> coalesced B -> k < PAGE_MAX_ORDER ->
  (forall j l o n, B !! j = Some (l, Held o n) -> j = i \/ j = bi) ->
  B !! i = Some (k, Held true true) -> B !! bi = Some (k, Held true true) ->
  exists head s' B',
    (let* head := (if truthy (Z.land (Z.shiftr bi k) 0x1)
                   then do* upd_page bi (set_order 0) in ret i
                   else do* upd_page i (set_order 0) in ret bi) in
     let* h := get_page head in
     do* upd_page head (set_order (u32 (order h + 1))) in ret head) s = Ok (head, s') /\
    rep s' B' /\ coalesced B' /\ held_only B' head /\
    B' !! head = Some (k + 1, Held true true) /\
    forall j l, B' !! j = Some (l, Alloc) <-> B !! j = Some (l, Alloc).
Proof.
  intros bi HR HC Hk HH HBi HBb.
  pose proof (part_ok _ (rep_part _ _ HR) _ _ _ HBi) as (Hk0 & Hi0 & _ & Hd).
  pose proof (pow2_pos k ltac:(lia)) as H2.
  destruct (rep_page _ _ _ _ _ HR HBi) as (p & Hp & (P1 & P2 & P3 & P4)).
  destruct (rep_page _ _ _ _ _ HR HBb) as (q & Hq & (Q1 & Q2 & Q3 & Q4)).
  specialize (P3 eq_refl). specialize (Q3 eq_refl).
  assert (Hu : u32 (k + 1) = k + 1) by (apply u32_small; unfold is_u32; bconst; lia).
  (* what remains once the lower half is named *)
  assert (Hend : forall lo, B !! lo = Some (k, Held true true) ->
    B !! (lo + 2 ^ k) = Some (k, Held true true) ->
    (forall j l o n, B !! j = Some (l, Held o n) -> j = lo \/ j = lo + 2 ^ k) ->
    let B' := <[lo := (k + 1, Held true true)]> (delete (lo + 2 ^ k) B) in
    coalesced B' /\ held_only B' lo /\ B' !! lo = Some (k + 1, Held true true) /\
    forall j l, B' !! j = Some (l, Alloc) <-> B !! j = Some (l, Alloc)).
  { intros lo Hlo Hhi HHlo. simpl. split_and!.
    - apply coalesced_take; [by apply coalesced_delete|done].
    - intros j l o n Hj. destruct (decide (lo = j)) as [|]; [done|].
      rewrite lookup_insert_ne in Hj by done.
      destruct (decide (lo + 2 ^ k = j)) as [<-|]; [by rewrite lookup_delete_eq in Hj|].
      rewrite lookup_delete_ne in Hj by done. apply HHlo in Hj. lia.
    - apply lookup_insert_eq.
    - intros j l. destruct (decide (lo = j)) as [<-|].
      { rewrite lookup_insert_eq, Hlo. split; congruence. }
      rewrite lookup_insert_ne by done. destruct (decide (lo + 2 ^ k = j)) as [<-|].
      { rewrite lookup_delete_eq, Hhi. split; congruence. }
      by rewrite lookup_delete_ne. }
  rewrite truthy_bit by lia. unfold bi in *. unfold buddy_of in *.
  destruct (Z.testbit i k) eqn:E.
  - (* [i] is the upper half *)
    pose proof (aligned_high i k ltac:(lia) Hd E) as Hd'.
    rewrite low_testbit by (done || lia). rewrite bind_assoc.
    set (lo := i - 2 ^ k) in *. assert (Hi : i = lo + 2 ^ k) by lia.
    mrun (upd_page_ok _ _ _ (set_order 0) Hp). unfold ret at 1, bind at 1.
    erewrite bind_ok by (eapply get_page_ok; simpl; rewrite lookup_insert_ne by lia; done).
    erewrite bind_ok by (eapply upd_page_ok; simpl; rewrite lookup_insert_ne by lia; done).
    rewrite Q3, Hu. simpl. eexists lo, _, _. split; [done|].
    split; [|apply Hend; [done|by rewrite <- Hi|]].
    + rewrite Hi. rewrite Hi in Hp, HBi. by apply (rep_merge s B lo k q p).
    + intros j l o n Hj. rewrite <- Hi. apply or_comm. eauto.
  - (* [i] is the lower half *)
    pose proof (aligned_low i k ltac:(lia) Hd E) as Hd'.
    rewrite high_testbit by (done || lia). rewrite bind_assoc.
    mrun (upd_page_ok _ _ _ (set_order 0) Hq). unfold ret at 1, bind at 1.
    erewrite bind_ok by (eapply get_page_ok; simpl; rewrite lookup_insert_ne by lia; done).
    erewrite bind_ok by (eapply upd_page_ok; simpl; rewrite lookup_insert_ne by lia; done).
    rewrite P3, Hu. simpl. eexists i, _, _. split; [done|].
    split; [by apply rep_merge|by apply Hend].
Qed.

(** Sequencing of the merge step with the recursive call. *)
Lemma merge_seq {A} (X : M buddy Z) (K : Z -> M buddy A) s head s' :
  (let* head := X in
   let* h := get_page head in
   do* upd_page head (set_order (u32 (order h + 1))) in ret head) s = Ok (head, s') ->
  (let* head := X in
   let* h := get_page head in
   do* upd_page head (set_order (u32 (order h + 1))) in K head) s = K head s'.
Proof.
  unfold bind. destruct (X s) as [[a s1]|]; [|discriminate].
  destruct (get_page a s1) as [[h s2]|]; [|discriminate].
  destruct (upd_page a _ s2) as [[u s3]|]; [|discriminate].
  by intros [= <- <-].
Qed.

(** Clearing [PF_FIRST_PAGE] of a block about to be freed. *)
Lemma free_enter s B i k t p :
  rep s B -> B !! i = Some (k, t) -> (t = Alloc \/ exists n, t = Held true n) ->
  pages s !! i = Some p ->
  rep (Buddy (<[i := clear_flag PF_FIRST_PAGE p]> (pages s)) (free_lists s))
      (<[i := (k, Held true false)]> B).
Proof.
  intros HR HB Ht Hp. eapply rep_relabel; [done|done|by destruct Ht as [->|[? ->]]|done|].
  destruct (rep_page _ _ _ _ _ HR HB) as (p' & Hp' & HP). replace p' with p in HP by congruence.
  unfold repr_page in *. destruct Ht as [->|[n ->]].
  - destruct HP as (E1 & E2 & E3). simpl. rewrite E2. by split_and!.
  - destruct HP as (E1 & E2 & E3 & _). simpl. rewrite E2. by split_and!; auto.
Qed.

Lemma buddy_free_rec_spec fuel : forall i k t s B,
  rep s B -> coalesced B -> held_only B i ->
  B !! i = Some (k, t) -> (t = Alloc \/ exists n, t = Held true n) ->
  PAGE_MAX_DEPTH - k <= Z.of_nat fuel ->
  exists s' B', buddy_free_rec fuel i s = Ok (tt, s') /\ rep s' B' /\ coalesced B' /\
    no_held B' /\ allocs_but B B' i.
Proof.
  induction fuel as [|fuel IH]; intros i k t s B HR HC HH HB Ht Hfuel.
  { pose proof (rep_order _ _ _ _ _ HR HB). bconst. lia. }
  pose proof (part_ok _ (rep_part _ _ HR) _ _ _ HB) as (Hk & _ & _ & Hd).
  pose proof (rep_range _ _ _ _ _ HR HB) as Hi.
  destruct (rep_page _ _ _ _ _ HR HB) as (p & Hp & HP).
  assert (Ho : order p = k) by (destruct HP as (_ & HP); destruct Ht as [->|[n ->]]; tauto).
  assert (Hx : index p = i) by apply HP.
  cbn [buddy_free_rec]. mrun (get_page_ok _ _ _ Hp).
  mrun (upd_page_ok _ _ _ (clear_flag PF_FIRST_PAGE) Hp). rewrite Ho.
  pose proof (free_enter _ _ _ _ _ _ HR HB Ht Hp) as HR1.
  set (s1 := Buddy _ _) in *. set (B1 := <[i := (k, Held true false)]> B) in *.
  assert (HB1 : B1 !! i = Some (k, Held true false)) by apply lookup_insert_eq.
  assert (HC1 : coalesced B1) by (by apply coalesced_take).
  assert (HH1 : held_only B1 i).
  { intros j l o n Hj. unfold B1 in Hj. destruct (decide (i = j)); [done|].
    rewrite lookup_insert_ne in Hj by done. by apply HH in Hj. }
  assert (HA1 : allocs_but B B1 i).
  { intros j l. unfold B1. destruct (decide (i = j)) as [<-|].
    - rewrite lookup_insert_eq. split; [congruence|tauto].
    - rewrite lookup_insert_ne by done. split; [auto|tauto]. }
  (* the block is put on its list *)
  assert (Hpush : (k < PAGE_MAX_ORDER -> B1 !! buddy_of i k <> Some (k, Free)) ->
    exists s' B', buddy_list_push k i s1 = Ok (tt, s') /\ rep s' B' /\ coalesced B' /\
      no_held B' /\ allocs_but B B' i).
  { intros Hb. destruct (free_push s1 B1 i k HR1 HC1 HH1 HB1 Hb) as (s' & B' & E & R1 & R2 & R3 & R4).
    exists s', B'. split_and!; try done. intros j l. by rewrite R4. }
  destruct (Z.eqb_spec k PAGE_MAX_ORDER) as [->|Hne].
  { rewrite (bind_ok _ _ s1 true s1) by done. apply Hpush. lia. }
  assert (Hkm : 0 <= k < PAGE_MAX_ORDER) by lia.
  rewrite (buddy_index_eq p i k) by done.
  pose proof (buddy_in_range i k Hi Hkm Hd) as Hbi. set (bi := buddy_of i k) in *.
  destruct (rep_pages _ _ HR1 bi Hbi) as (b & Hb & _).
  rewrite bind_assoc. mrun (get_page_ok _ _ _ Hb). unfold ret at 1, bind at 1.
  destruct (buddy_is_free_buddy p b) eqn:Efree; simpl.
  2: { apply Hpush. intros _ Hf. apply (free_buddy_iff s1 B1 p b bi k) in Hf; try done. congruence. }
  (* the buddy is free: take it out of its list and merge *)
  apply (free_buddy_iff s1 B1 p b bi k HR1 Hbi Hb Ho) in Efree.
  destruct (rep_page _ _ _ _ _ HR1 HB1) as (p1 & Hp1 & (E1 & E2 & E3 & _)).
  rewrite <- bind_assoc.
  mrun (upd_page_twice s1 i p1 (clear_flag PF_FREE_LIST) (set_next None) Hp1).
  assert (HR2 : rep (Buddy (<[i := set_next None (clear_flag PF_FREE_LIST p1)]> (pages s1))
                           (free_lists s1)) (<[i := (k, Held true true)]> B1)).
  { eapply rep_relabel; [done|done|done|done|]. unfold repr_page. simpl. rewrite E2.
    by split_and!; auto. }
  set (s2 := Buddy _ _) in HR2 |- *. set (B2 := <[i := _]> B1) in HR2.
  assert (Hib : i <> bi) by congruence.
  assert (HB2 : B2 !! bi = Some (k, Free)) by (unfold B2; by rewrite lookup_insert_ne).
  destruct (buddy_list_remove_spec s2 B2 k bi HR2 HB2) as (s3 & ER & HR3). mrun ER.
  set (B3 := <[bi := (k, Held true true)]> B2) in *.
  assert (HB2i : B2 !! i = Some (k, Held true true)) by apply lookup_insert_eq.
  assert (HA3 : allocs_but B B3 i).
  { unfold B3. eapply allocs_but_insert; [|done|done|done].
    unfold B2. by eapply allocs_but_insert. }
  destruct (free_merge s3 B3 i k) as (head & s4 & B4 & E4 & HR4 & HC4 & HH4 & HB4 & HA4).
  - done.
  - unfold B3, B2. by repeat apply coalesced_take.
  - lia.
  - intros j l o n Hj. unfold B3, B2 in Hj. fold bi.
    destruct (decide (bi = j)); [auto|]. rewrite lookup_insert_ne in Hj by done.
    destruct (decide (i = j)); [auto|]. rewrite lookup_insert_ne in Hj by done.
    left. by eapply HH1.
  - unfold B3. by rewrite lookup_insert_ne.
  - apply lookup_insert_eq.
  - fold bi in E4. rewrite (merge_seq _ _ _ _ _ E4).
    destruct (IH head (k + 1) (Held true true) s4 B4) as (s5 & B5 & E5 & R1 & R2 & R3 & R4);
      [done|done|done|done|eauto|lia|].
    exists s5, B5. split_and!; try done. intros j l. rewrite (R4 j l), (HA4 j l).
    rewrite (HA3 j l). split; [tauto|]. intros [H1 H2]. split; [done|]. intros ->.
    assert (B4 !! head = Some (l, Alloc)) by (by apply HA4, HA3). congruence.
Qed.

(** [buddy_free], whole. *)
Lemma buddy_free_spec (s : buddy) (A : gmap Z Z) (i k : Z) :
  buddy_inv s A -> A !! i = Some k ->
  exists s', buddy_free i s = Ok (tt, s') /\ buddy_inv s' (delete i A).
Proof.
  intros (B & HR & HC & HN & HA) Hi. apply HA in Hi.
  destruct (buddy_free_rec_spec (Z.to_nat PAGE_MAX_DEPTH) i k Alloc s B)
    as (s' & B' & E & R1 & R2 & R3 & R4); [done|done| |done|auto| |].
  - intros j l o n Hj. by destruct (HN j l o n).
  - pose proof (rep_order _ _ _ _ _ HR Hi). bconst. lia.
  - exists s'. split; [done|]. exists B'. split_and!; try done. intros j l.
    rewrite (R4 j l), <- (HA j l). destruct (decide (i = j)) as [<-|].
    + rewrite lookup_delete_eq. split; [congruence|tauto].
    + rewrite lookup_delete_ne by done. split; [auto|tauto].
Qed.
