(* ===== verification/PageAlloc.v ===== *)
(** * The page allocator as its clients see it

    What [page_init] sets up, what is left when every block has been returned,
    the lookups of [page.c], and the interface [PageAllocator] against which the
    clients of the allocator are verified; [buddy.c] is an instance of it. *)

From stdpp Require Import base numbers list gmap.
From S2P Require Import Prelude Buddy BuddyGeometry BuddyProofs.

#[local] Open Scope Z_scope.
#[local] Open Scope kernel_scope.

(** ** Initialisation *)
Section FoldAlter.
Context {A : Type} (g : Z -> A -> A) (h : Z -> Z).
Let step (m : gmap Z A) (i : Z) : gmap Z A := alter (g i) (h i) m.

Lemma foldl_alter_miss l m j :
  (forall i, i ∈ l -> h i <> j) -> foldl step m l !! j = m !! j.
Proof.
  revert m. induction l as [|i l IH]; intros m Hj; [done|]. simpl.
  rewrite IH by set_solver. unfold step. rewrite lookup_alter_ne; [done|]. set_solver.
Qed.

Lemma foldl_alter_hit l m i :
  NoDup (h <$> l) -> i ∈ l -> foldl step m l !! h i = g i <$> m !! h i.
Proof.
  revert m. induction l as [|a l IH]; intros m Hnd Hi; [set_solver|]. simpl in *.
  apply NoDup_cons in Hnd as [Hna Hnd]. apply elem_of_cons in Hi as [->|Hi].
  - rewrite foldl_alter_miss by set_solver. unfold step. by rewrite lookup_alter_eq.
  - rewrite IH by done. f_equal. unfold step. rewrite lookup_alter_ne; [done|].
    intros E. apply Hna. rewrite E. set_solver.
Qed.
End FoldAlter.

Lemma lookup_seq_map {A} (v : A) n j :
  0 <= j < n ->
  (list_to_map ((fun i => (i, v)) <$> seqZ 0 n) : gmap Z A) !! j = Some v.
Proof.
  intros Hj. apply elem_of_list_to_map_1.
  - rewrite <- list_fmap_compose. unfold compose. simpl. rewrite list_fmap_id. apply NoDup_seqZ.
  - apply list_elem_of_fmap. exists j. split; [done|]. apply elem_of_seqZ. lia.
Qed.

(** [seqZ] and [foldl] over the whole page array are never unfolded. *)
#[local] Opaque seqZ.

(** The blocks of the largest order. *)
Definition max_blocks : Z := PAGE_NUM / max_page_block.
Definition init_blocks : blocks :=
  list_to_map ((fun i => (i * max_page_block, (PAGE_MAX_ORDER, Free))) <$> seqZ 0 max_blocks).

Lemma init_blocks_lookup j v :
  init_blocks !! j = Some v <->
  v = (PAGE_MAX_ORDER, Free) /\ exists i, 0 <= i < max_blocks /\ j = i * max_page_block.
Proof.
  unfold init_blocks. rewrite <- elem_of_list_to_map.
  - rewrite list_elem_of_fmap. split.
    + intros (i & [= -> ->] & Hi). apply elem_of_seqZ in Hi. eauto with lia.
    + intros (-> & i & Hi & ->). exists i. split; [done|]. apply elem_of_seqZ. lia.
  - rewrite <- list_fmap_compose. apply NoDup_fmap_2_strong; [|apply NoDup_seqZ].
    unfold compose. simpl. intros x y _ _ E. change max_page_block with 1024 in E. lia.
Qed.

Lemma init_blocks_none j :
  (forall i, 0 <= i < max_blocks -> i * max_page_block <> j) -> init_blocks !! j = None.
Proof.
  intros H. destruct (init_blocks !! j) as [v|] eqn:E; [|done].
  apply init_blocks_lookup in E as (_ & i & Hi & ->). by destruct (H i Hi).
Qed.

Lemma init_part : part init_blocks.
Proof.
  split.
  - intros i k t Hi. apply init_blocks_lookup in Hi as ([= -> ->] & a & Ha & ->).
    change max_page_block with 1024. change max_blocks with 16 in *.
    change (2 ^ PAGE_MAX_ORDER) with 1024. bconst. split_and!; try lia. by exists a.
  - intros i j k l t u Hi Hj Hij.
    apply init_blocks_lookup in Hi as ([= -> ->] & a & Ha & ->).
    apply init_blocks_lookup in Hj as ([= -> ->] & b & Hb & ->).
    change max_page_block with 1024 in *. change (2 ^ PAGE_MAX_ORDER) with 1024. lia.
  - intros x Hx. exists (x / 1024 * 1024), PAGE_MAX_ORDER, Free. split.
    + apply init_blocks_lookup. split; [done|]. exists (x / 1024). split; [|done].
      change max_blocks with 16. bconst. split; [apply Z.div_pos; lia|].
      apply Z.div_lt_upper_bound; lia.
    + unfold in_block. change (2 ^ PAGE_MAX_ORDER) with 1024.
      pose proof (Z.div_mod x 1024). pose proof (Z.mod_pos_bound x 1024). lia.
Qed.

(** The array after the first loop of [buddy_init]. *)
Definition indexed_pages : gmap Z page :=
  foldl (fun ps i => alter (set_index i) i ps)
    (list_to_map ((fun i => (i, zero_page)) <$> seqZ 0 PAGE_NUM)) (seqZ 0 PAGE_NUM).

Definition link_block (i : Z) (p : page) : page :=
  raise_flag PF_FREE_LIST (set_order PAGE_MAX_ORDER
    (if i <? max_blocks - 1 then set_next (Some ((i + 1) * max_page_block)) p else p)).

Lemma indexed_lookup j : 0 <= j < PAGE_NUM -> indexed_pages !! j = Some (Page j 0 0 None).
Proof.
  intros Hj. unfold indexed_pages.
  etransitivity; [apply (foldl_alter_hit set_index (fun i => i))|].
  - rewrite list_fmap_id. apply NoDup_seqZ.
  - apply elem_of_seqZ. lia.
  - by rewrite lookup_seq_map by done.
Qed.

Lemma init_pages_eq :
  pages buddy_init =
  foldl (fun ps i => alter (link_block i) (i * max_page_block) ps) indexed_pages
        (seqZ 0 max_blocks).
Proof. reflexivity. Qed.

Lemma max_blocks_nodup : NoDup ((fun i => i * max_page_block) <$> seqZ 0 max_blocks).
Proof.
  apply NoDup_fmap_2_strong; [|apply NoDup_seqZ]. intros x y _ _ E.
  change max_page_block with 1024 in E. lia.
Qed.

(** The page [j] after [buddy_init]. *)
Lemma init_page_head i :
  0 <= i < max_blocks ->
  pages buddy_init !! (i * max_page_block) =
    Some (Page (i * max_page_block) PF_FREE_LIST PAGE_MAX_ORDER
            (if i <? max_blocks - 1 then Some ((i + 1) * max_page_block) else None)).
Proof.
  intros Hi. rewrite init_pages_eq.
  etransitivity; [apply (foldl_alter_hit link_block (fun i => i * max_page_block))|].
  - apply max_blocks_nodup.
  - apply elem_of_seqZ. lia.
  - rewrite indexed_lookup.
    + simpl. unfold link_block. by destruct (i <? max_blocks - 1).
    + change max_page_block with 1024. change max_blocks with 16 in *. bconst. lia.
Qed.

Lemma init_page_inner j :
  0 <= j < PAGE_NUM -> (forall i, 0 <= i < max_blocks -> i * max_page_block <> j) ->
  pages buddy_init !! j = Some (Page j 0 0 None).
Proof.
  intros Hj Hn. rewrite init_pages_eq.
  etransitivity; [apply (foldl_alter_miss link_block (fun i => i * max_page_block))|].
  - intros i Hi. apply elem_of_seqZ in Hi. apply Hn. lia.
  - by apply indexed_lookup.
Qed.

Lemma init_chain n : forall a,
  0 <= a -> a + Z.of_nat n = max_blocks ->
  chain (pages buddy_init) (if a <? max_blocks then Some (a * max_page_block) else None)
        ((fun i => i * max_page_block) <$> seqZ a (Z.of_nat n)).
Proof.
  induction n as [|n IH]; intros a Ha Hn.
  - simpl. destruct (Z.ltb_spec a max_blocks); [lia|done].
  - rewrite seqZ_cons by lia. simpl. destruct (Z.ltb_spec a max_blocks); [|lia].
    split; [done|]. eexists. split; [by apply init_page_head|]. simpl.
    specialize (IH (a + 1) ltac:(lia) ltac:(lia)).
    replace (Z.pred (Z.of_nat (S n))) with (Z.of_nat n) by lia.
    replace (a <? max_blocks - 1) with (a + 1 <? max_blocks)
      by (do 2 zcase; lia || done). done.
Qed.

Lemma init_rep : rep buddy_init init_blocks.
Proof.
  assert (Hdec : forall j, (exists i, 0 <= i < max_blocks /\ j = i * max_page_block) \/
    forall i, 0 <= i < max_blocks -> i * max_page_block <> j).
  { intros j. change max_page_block with 1024.
    destruct (Z.eq_dec (j / 1024 * 1024) j) as [E|E].
    - destruct (Z.lt_ge_cases (j / 1024) 0); [right; intros i Hi <-|].
      { rewrite Z.div_mul in * by lia. lia. }
      destruct (Z.lt_ge_cases (j / 1024) max_blocks); [left; eauto|right; intros i Hi <-].
      rewrite Z.div_mul in * by lia. lia.
    - right. intros i Hi <-. apply E. by rewrite Z.div_mul. }
  split; [apply init_part| |].
  - intros j Hj. destruct (Hdec j) as [(i & Hi & ->)|Hn].
    + eexists. split; [by apply init_page_head|].
      replace (init_blocks !! (i * max_page_block)) with (Some (PAGE_MAX_ORDER, Free))
        by (symmetry; apply init_blocks_lookup; eauto). by split_and!.
    + eexists. split; [by apply init_page_inner|]. by rewrite init_blocks_none.
  - intros k Hk. destruct (Z.eq_dec k PAGE_MAX_ORDER) as [->|Hne].
    + exists (Some 0), ((fun i => i * max_page_block) <$> seqZ 0 max_blocks). split_and!.
      * cbn [buddy_init free_lists]. apply lookup_insert_eq.
      * apply (init_chain 16 0); done.
      * apply max_blocks_nodup.
      * intros j. rewrite list_elem_of_fmap, init_blocks_lookup. setoid_rewrite elem_of_seqZ.
        split; [intros (i & -> & Hi)|intros (_ & i & Hi & ->)]; [|eauto with lia].
        split; [done|]. exists i. split; [lia|done].
    + exists None, []. split_and!; [|done|constructor|].
      * cbn [buddy_init free_lists]. rewrite lookup_insert_ne by done.
        apply (lookup_seq_map None PAGE_MAX_DEPTH). bconst. lia.
      * intros j. rewrite init_blocks_lookup. split; [set_solver|]. intros ([= ->] & _). done.
Qed.

Lemma buddy_init_spec : buddy_inv buddy_init ∅.
Proof.
  exists init_blocks. split_and!; [apply init_rep| | |].
  - intros i k Hi Hk. apply init_blocks_lookup in Hi as ([= ->] & _). lia.
  - intros i k o n Hi. apply init_blocks_lookup in Hi as ([=] & _).
  - intros i k. rewrite lookup_empty, init_blocks_lookup. split; [done|].
    intros ([=] & _).
Qed.

(** ** Room for a request *)

(** Some aligned range of [2^k] pages meets no allocated block. *)
Definition fits (A : gmap Z Z) (k : Z) : Prop :=
  exists i, 0 <= i /\ i + 2 ^ k <= PAGE_NUM /\ (2 ^ k | i) /\
    forall j l, A !! j = Some l -> disjoint_blocks i k j l.

Lemma buddy_alloc_fits s A size k :
  buddy_inv s A -> order_for size k -> fits A k ->
  exists i s', buddy_alloc size s = Ok (i, s') /\ buddy_inv s' (<[i := k]> A) /\
     0 <= i /\ i + 2 ^ k <= PAGE_NUM /\ (2 ^ k | i) /\
     forall j l, A !! j = Some l -> disjoint_blocks i k j l.
Proof.
  intros HI Ho (r & Hr0 & Hr1 & Hr2 & Hr3).
  destruct (buddy_alloc_spec s A size k HI Ho) as [H|[_ Hfull]]; [done|].
  destruct (Hfull r Hr0 Hr1 Hr2) as (j & l & x & Hj & Hx1 & Hx2).
  by destruct (Hr3 j l Hj x).
Qed.

Lemma fits_empty k : 0 <= k <= PAGE_MAX_ORDER -> fits ∅ k.
Proof.
  intros Hk. exists 0. pose proof (pow2_le_num k Hk).
  split_and!; [lia|lia|apply Z.divide_0_r|]. intros j l. by rewrite lookup_empty.
Qed.

Lemma order_for_page : order_for PAGE_SIZE 0.
Proof. split_and!; unfold PAGE_SIZE; bconst; lia. Qed.

(** An allocated block is a block of the partition. *)
Lemma buddy_inv_block s A i k :
  buddy_inv s A -> A !! i = Some k ->
  0 <= k <= PAGE_MAX_ORDER /\ 0 <= i /\ i + 2 ^ k <= PAGE_NUM /\ (2 ^ k | i).
Proof.
  intros (B & HR & _ & _ & HA) Hi. apply HA in Hi. by apply (part_ok _ (rep_part _ _ HR)) in Hi.
Qed.

(** When nothing is allocated, every block is a free block of the largest order. *)
Lemma all_free_blocks s B :
  rep s B -> coalesced B -> no_held B -> allocs B ∅ ->
  forall i k t, B !! i = Some (k, t) -> k = PAGE_MAX_ORDER /\ t = Free.
Proof.
  intros HR HC HN HA i k t Hi. pose proof (rep_part _ _ HR) as HP.
  assert (Hfree : forall j l u, B !! j = Some (l, u) -> u = Free).
  { intros j l [| |o n] Hj; [done| |by destruct (HN j l o n)].
    apply HA in Hj. by rewrite lookup_empty in Hj. }
  split; [|by eapply Hfree].
  pose proof (rep_range _ _ _ _ _ HR Hi) as Hr.
  assert (Hd : (2 ^ 10 | i / 1024 * 1024)) by (by exists (i / 1024)).
  pose proof (Z.div_mod i 1024 ltac:(lia)) as Hdm.
  pose proof (Z.mod_pos_bound i 1024 ltac:(lia)) as Hm.
  destruct (free_run_in_block B HP 10 (i / 1024 * 1024) HC) as (j & l & Hj & Hl & Hlo & Hhi).
  - done.
  - done.
  - intros x Hx. unfold in_block in Hx. change (2 ^ Z.of_nat 10) with 1024 in Hx.
    destruct (part_cover _ HP x) as (a & b & u & Ha & Hb).
    { bconst. assert (i / 1024 < 16) by (apply Z.div_lt_upper_bound; lia).
      assert (0 <= i / 1024) by (apply Z.div_pos; lia). lia. }
    rewrite (Hfree _ _ _ Ha) in Ha. eauto.
  - change (2 ^ Z.of_nat 10) with 1024 in *.
    assert (i = j) as <-.
    { eapply (part_unique _ HP i j k l t Free i); try done.
      - apply in_block_start. by destruct (part_ok _ HP _ _ _ Hi) as ([? _] & _).
      - unfold in_block. lia. }
    rewrite Hi in Hj. injection Hj as -> ->.
    destruct (part_ok _ HP _ _ _ Hi) as ([_ ?] & _). bconst. lia.
Qed.

(** ** Lookups of page.c *)
Lemma find_head_walk s A i k n : forall x,
  buddy_inv s A -> A !! i = Some k -> in_block i k x -> x - i < Z.of_nat n ->
  find_head_loop n x s = Ok (Some i, s).
Proof.
  induction n as [|n IH]; intros x HI Hi Hx Hn; unfold in_block in *; [lia|].
  pose proof (buddy_inv_block _ _ _ _ HI Hi) as (Hk & H0 & H1 & _).
  cbn [find_head_loop]. destruct (Z.ltb_spec x PAGE_NUM); [|lia].
  pose proof HI as (B & HR & _ & _ & HA). pose proof Hi as HBi. apply HA in HBi.
  destruct (rep_pages _ _ HR x ltac:(lia)) as (p & Hp & HP). mrun (get_page_ok _ _ _ Hp).
  destruct (Z.eq_dec x i) as [->|Hne].
  - rewrite HBi in HP. destruct HP as (_ & -> & _). done.
  - rewrite (part_inside _ (rep_part _ _ HR) i k Alloc x HBi) in HP by lia.
    destruct HP as (_ & -> & _). simpl.
    rewrite u32_small by (unfold is_u32; bconst; lia). apply IH; [done|done|lia|lia].
Qed.

Lemma page_find_head_spec s A i k x :
  buddy_inv s A -> A !! i = Some k -> in_block i k x -> page_find_head x s = Ok (Some i, s).
Proof.
  intros HI Hi Hx. pose proof (buddy_inv_block _ _ _ _ HI Hi) as (Hk & H0 & H1 & _).
  unfold in_block in Hx. pose proof HI as (B & HR & _).
  destruct (rep_pages _ _ HR x ltac:(lia)) as (p & Hp & [Hidx _]).
  unfold page_find_head. mrun (get_page_ok _ _ _ Hp). rewrite Hidx.
  eapply find_head_walk; [done|done|done|]. bconst. lia.
Qed.

Lemma page_address_eq p :
  0 <= index p < PAGE_NUM -> page_address p = PAGE_START + PAGE_SIZE * index p.
Proof.
  intros H. unfold page_address. unfold PAGE_START, PAGE_SIZE in *. bconst.
  rewrite (u32_small (0x1000 * index p)) by (unfold is_u32; lia).
  apply u32_small. unfold is_u32. lia.
Qed.

Lemma page_find_by_address_spec i off :
  0 <= i < PAGE_NUM -> 0 <= off < PAGE_SIZE ->
  page_find_by_address (PAGE_START + PAGE_SIZE * i + off) = Some i.
Proof.
  intros Hi Ho. unfold page_find_by_address, PAGE_START, PAGE_SIZE in *. bconst.
  rewrite s32_small by (unfold is_s32; lia).
  replace (0x65000000 + 0x1000 * i + off - 0x65000000) with (i * 0x1000 + off) by lia.
  rewrite Z.quot_div_nonneg by lia. rewrite Z.div_add_l, Z.div_small by lia.
  rewrite Z.add_0_r, u32_small by (unfold is_u32; lia).
  by destruct (Z.ltb_spec i 0x4000); [|lia].
Qed.

(** ** Properties *)

(** C1: on a well-formed allocator, [buddy_alloc] serves a request of [size]
    bytes from the smallest order [k] that is large enough.  It returns a block
    aligned on its size, inside the page array and disjoint from every block
    already allocated, and keeps the invariant with that block added; or it
    halts, and then no aligned range of [2^k] pages is free of allocated
    blocks.  So memory is refused only when nothing fits. *)
Theorem buddy_alloc_correct (s : buddy) (A : gmap Z Z) (size k : Z) :
  buddy_inv s A -> order_for size k ->
  (exists i s', buddy_alloc size s = Ok (i, s') /\ buddy_inv s' (<[i := k]> A) /\
     0 <= i /\ i + 2 ^ k <= PAGE_NUM /\ (2 ^ k | i) /\
     forall j l, A !! j = Some l -> disjoint_blocks i k j l) \/
  (buddy_alloc size s = Err Halt /\
     forall i, 0 <= i -> i + 2 ^ k <= PAGE_NUM -> (2 ^ k | i) ->
       exists j l x, A !! j = Some l /\ in_block i k x /\ in_block j l x).
Proof. apply buddy_alloc_spec. Qed.

Theorem buddy_alloc_correct_witness :
  exists i s', buddy_alloc 5000 buddy_init = Ok (i, s') /\ buddy_inv s' {[i := 1]}.
Proof.
  destruct (buddy_alloc_correct buddy_init ∅ 5000 1) as [(i & s' & E & HI & _)|[_ H]].
  - apply buddy_init_spec.
  - split_and!; unfold PAGE_SIZE; bconst; try lia. intros l Hl.
    assert (l = 0) as -> by lia. lia.
  - exists i, s'. by split.
  - destruct (H 0) as (j & l & x & Hj & _); [lia|bconst; lia|by exists 0|].
    by rewrite lookup_empty in Hj.
Defined.

(** C2: giving back an allocated block always succeeds: [buddy_free] never
    halts (the "broken page" branch is dead) and its recursion ends; afterwards
    exactly that block is gone from the allocated ones and the invariant, full
    merging of the free blocks included, holds again. *)
Theorem buddy_free_correct (s : buddy) (A : gmap Z Z) (i k : Z) :
  buddy_inv s A -> A !! i = Some k ->
  exists s', buddy_free i s = Ok (tt, s') /\ buddy_inv s' (delete i A).
Proof. apply buddy_free_spec. Qed.

Theorem buddy_free_correct_witness :
  exists i s s', buddy_alloc PAGE_SIZE buddy_init = Ok (i, s) /\
    buddy_free i s = Ok (tt, s') /\ buddy_inv s' ∅.
Proof.
  destruct (buddy_alloc_fits buddy_init ∅ PAGE_SIZE 0) as (i & s & E & HI & _).
  - apply buddy_init_spec.
  - apply order_for_page.
  - apply fits_empty. bconst. lia.
  - destruct (buddy_free_correct s (<[i := 0]> ∅) i 0 HI (lookup_insert_eq _ _ _))
      as (s' & E' & HI').
    exists i, s, s'. split; [done|]. split; [done|].
    by rewrite delete_insert_id in HI'.
Defined.

(** C35: when every block has been returned, whatever the history, the array is
    whole again: the lists of the smaller orders are empty and every block of
    the largest order is free.  [buddy_init] starts in such a state. *)
Theorem buddy_all_returned (s : buddy) :
  buddy_inv buddy_init ∅ /\
  (buddy_inv s ∅ ->
   (forall k, 0 <= k < PAGE_MAX_ORDER -> free_lists s !! k = Some None) /\
   forall i, 0 <= i < max_blocks ->
     exists p, pages s !! (i * max_page_block) = Some p /\
       flags p = PF_FREE_LIST /\ order p = PAGE_MAX_ORDER).
Proof.
  split; [apply buddy_init_spec|]. intros (B & HR & HC & HN & HA).
  pose proof (all_free_blocks s B HR HC HN HA) as Hall. split.
  - intros k Hk.
    destruct (buddy_list_pop_spec s B k HR ltac:(lia)) as [(b & _ & _ & Hb & _)|(_ & H & _)]; [|done].
    apply Hall in Hb as [-> _]. lia.
  - change max_blocks with 16. change max_page_block with 1024. intros i Hi.
    destruct (part_cover _ (rep_part _ _ HR) (i * 1024)) as (j & k & t & Hj & Hin); [bconst; lia|].
    pose proof (part_ok _ (rep_part _ _ HR) _ _ _ Hj) as (_ & _ & _ & [q Hq]).
    destruct (Hall _ _ _ Hj) as [-> ->]. unfold in_block in Hin.
    change (2 ^ PAGE_MAX_ORDER) with 1024 in *. assert (j = i * 1024) as -> by lia.
    destruct (rep_page _ _ _ _ _ HR Hj) as (p & Hp & (_ & Hf & Ho)). eauto.
Qed.

Theorem buddy_all_returned_witness :
  (forall k, 0 <= k < PAGE_MAX_ORDER -> free_lists buddy_init !! k = Some None) /\
   forall i, 0 <= i < max_blocks ->
     exists p, pages buddy_init !! (i * max_page_block) = Some p /\
       flags p = PF_FREE_LIST /\ order p = PAGE_MAX_ORDER.
Proof.
  destruct (buddy_all_returned buddy_init) as [H0 H]. exact (H H0).
Defined.

(** A page's address leads back to it: any address inside the page [x] is
    mapped to [x] by [page_find_by_address], and from any page of an allocated
    block [page_find_head] returns the first page of that block. *)
Theorem page_lookup_correct (s : buddy) (A : gmap Z Z) (i k x : Z) (p : page) (off : Z) :
  buddy_inv s A -> A !! i = Some k -> in_block i k x ->
  index p = x -> 0 <= off < PAGE_SIZE ->
  page_find_by_address (page_address p + off) = Some x /\
  page_find_head x s = Ok (Some i, s).
Proof.
  intros HI Hi Hx Hp Ho. pose proof (buddy_inv_block _ _ _ _ HI Hi) as (Hk & H0 & H1 & _).
  pose proof Hx as Hx'. unfold in_block in Hx'. split; [|by eapply page_find_head_spec].
  rewrite page_address_eq by lia. rewrite Hp. apply page_find_by_address_spec; lia.
Qed.

Theorem page_lookup_correct_witness :
  exists i s, buddy_alloc 16384 buddy_init = Ok (i, s) /\
    page_find_by_address (page_address (Page (i + 3) 0 0 None) + 7) = Some (i + 3) /\
    page_find_head (i + 3) s = Ok (Some i, s).
Proof.
  destruct (buddy_alloc_fits buddy_init ∅ 16384 2) as (i & s & E & HI & _).
  - apply buddy_init_spec.
  - split_and!; unfold PAGE_SIZE; bconst; try lia. intros l Hl.
    assert (l = 0 \/ l = 1) as [-> | ->] by lia; lia.
  - apply fits_empty. bconst. lia.
  - exists i, s. split; [done|].
    apply (page_lookup_correct s (<[i := 2]> ∅) i 2); [done|apply lookup_insert_eq| |done|].
    + unfold in_block. lia.
    + unfold PAGE_SIZE. lia.
Defined.

(** ** The interface

    What the page allocator promises to the components that call it.  The
    abstract state [A] maps the first page of an allocated block to its order. *)
Class PageAllocator (S : Type) := {
  pa_alloc : Z -> M S Z;                  (* buddy_alloc *)
  pa_free : Z -> M S unit;                (* buddy_free *)
  pa_address : Z -> M S Z;                (* page_address *)
  pa_find_head : Z -> M S (option Z);     (* page_find_head *)
  pa_inv : S -> gmap Z Z -> Prop;
  pa_block : forall s A i k, pa_inv s A -> A !! i = Some k ->
    0 <= k <= PAGE_MAX_ORDER /\ 0 <= i /\ i + 2 ^ k <= PAGE_NUM /\ (2 ^ k | i);
  pa_disjoint : forall s A i k j l, pa_inv s A -> A !! i = Some k -> A !! j = Some l ->
    i <> j -> disjoint_blocks i k j l;
  pa_alloc_spec : forall s A size k, pa_inv s A -> order_for size k ->
    (exists i s', pa_alloc size s = Ok (i, s') /\ pa_inv s' (<[i := k]> A) /\
       forall j l, A !! j = Some l -> disjoint_blocks i k j l) \/
    (pa_alloc size s = Err Halt /\ ~ fits A k);
  pa_too_big : forall s size, 2 ^ PAGE_MAX_ORDER * PAGE_SIZE < size -> pa_alloc size s = Err Halt;
  pa_free_spec : forall s A i k, pa_inv s A -> A !! i = Some k ->
    exists s', pa_free i s = Ok (tt, s') /\ pa_inv s' (delete i A);
  pa_address_spec : forall s A i k x, pa_inv s A -> A !! i = Some k -> in_block i k x ->
    pa_address x s = Ok (PAGE_START + PAGE_SIZE * x, s);
  pa_find_head_spec : forall s A i k x, pa_inv s A -> A !! i = Some k -> in_block i k x ->
    pa_find_head x s = Ok (Some i, s);
}.

Lemma buddy_inv_disjoint s A i k j l :
  buddy_inv s A -> A !! i = Some k -> A !! j = Some l -> i <> j -> disjoint_blocks i k j l.
Proof.
  intros (B & HR & _ & _ & HA) Hi Hj Hne x Hx1 Hx2. apply HA in Hi, Hj. apply Hne.
  by eapply (part_unique _ (rep_part _ _ HR)).
Qed.

(** [buddy.c] implements the interface. *)
#[export] Program Instance buddy_page_allocator : PageAllocator buddy := {|
  pa_alloc := buddy_alloc;
  pa_free := buddy_free;
  pa_address x := (let* p := get_page x in ret (page_address p));
  pa_find_head := page_find_head;
  pa_inv := buddy_inv;
|}.
Next Obligation. apply buddy_inv_block. Qed.
Next Obligation. apply buddy_inv_disjoint. Qed.
Next Obligation.
  intros s A size k HI Ho.
  destruct (buddy_alloc_spec s A size k HI Ho) as [(i & s' & E & HI' & _ & _ & _ & Hd)|[E Hf]].
  - left. eauto.
  - right. split; [done|]. intros (r & R0 & R1 & R2 & R3).
    destruct (Hf r R0 R1 R2) as (j & l & x & Hj & Hx1 & Hx2). by eapply R3.
Qed.
Next Obligation. intros s size Hs. unfold buddy_alloc. by rewrite alloc_order_none. Qed.
Next Obligation. apply buddy_free_spec. Qed.
Next Obligation.
  intros s A i k x HI Hi Hx. pose proof (buddy_inv_block _ _ _ _ HI Hi) as (Hk & H0 & H1 & _).
  unfold in_block in Hx. pose proof HI as (B & HR & _).
  destruct (rep_pages _ _ HR x ltac:(lia)) as (p & Hp & [Hidx _]).
  mrun (get_page_ok _ _ _ Hp). unfold ret. rewrite page_address_eq by lia. by rewrite Hidx.
Qed.
Next Obligation. apply page_find_head_spec. Qed.
