(* ===== verification/Slab.v ===== *)
(** * The object allocator: model

    [slab.c], over the interface of the page allocator.  A slab is a block of
    pages that starts with a [struct slab_header]; after it come the array of
    free indices and the objects.  Headers, the words of the free arrays and
    the cache descriptors are kept by address, in three maps; the objects
    belong to the clients.  The proofs are in [SlabProofs]. *)

From stdpp Require Import base numbers list gmap.
From S2P Require Import Prelude Buddy BuddyGeometry BuddyProofs PageAlloc.

#[local] Open Scope Z_scope.
#[local] Open Scope kernel_scope.

Definition MAX_SLAB_NAME : Z := 32.
Definition SLAB_FREE_END : Z := 0xffffffff.

(** [struct slab_header], 12 bytes: three pointers. *)
Record slab_header : Set := SlabHeader {
  sh_next : option Z;
  sh_free : Z;
  sh_object : Z;
}.
Definition sizeof_slab_header : Z := 12.
Definition SLAB_HEADER_SIZE : Z := sizeof_slab_header + 4.

(** [struct slab_cache], 52 bytes. *)
Record slab_cache : Set := SlabCache {
  sc_name : list Z;
  sc_next : option Z;
  slab_size : Z;
  object_size : Z;
  slabs_full : option Z;
  slabs_partial : option Z;
}.
Definition sizeof_slab_cache : Z := MAX_SLAB_NAME + 5 * 4.
Definition zero_cache : slab_cache := SlabCache (replicate 32 0) None 0 0 None None.

Record slabs (S : Type) : Type := Slabs {
  mem : S;
  headers : gmap Z slab_header;
  cells : gmap Z Z;
  caches : gmap Z slab_cache;
  free_cache_head : option Z;
  slab_size_limits : list Z;
}.
Arguments Slabs {S}.
Arguments mem {S}.
Arguments headers {S}.
Arguments cells {S}.
Arguments caches {S}.
Arguments free_cache_head {S}.
Arguments slab_size_limits {S}.

Section Slab.
Context {S : Type} `{PA : PageAllocator S}.
Notation state := (slabs S).

(** A call of the page allocator. *)
Definition lift {A} (m : M S A) : M state A :=
  fun s => match m (mem s) with
           | Ok (a, x) => Ok (a, Slabs x (headers s) (cells s) (caches s)
                                   (free_cache_head s) (slab_size_limits s))
           | Err r => Err r
           end.

(** Accesses: a record must be there to be read or updated in place. *)
Definition get_header (a : Z) : M state slab_header :=
  let* m := gets headers in opt Fault (m !! a).
Definition put_header (a : Z) (h : slab_header) : M state unit :=
  modify (fun s => Slabs (mem s) (<[a := h]> (headers s)) (cells s) (caches s)
                     (free_cache_head s) (slab_size_limits s)).
Definition upd_header (a : Z) (f : slab_header -> slab_header) : M state unit :=
  let* h := get_header a in put_header a (f h).
Definition get_cell (a : Z) : M state Z :=
  let* m := gets cells in opt Fault (m !! a).
Definition put_cell (a v : Z) : M state unit :=
  modify (fun s => Slabs (mem s) (headers s) (<[a := v]> (cells s)) (caches s)
                     (free_cache_head s) (slab_size_limits s)).
Definition set_cell (a v : Z) : M state unit :=
  let* _ := get_cell a in put_cell a v.
Definition get_cache (a : Z) : M state slab_cache :=
  let* m := gets caches in opt Fault (m !! a).
Definition put_cache (a : Z) (c : slab_cache) : M state unit :=
  modify (fun s => Slabs (mem s) (headers s) (cells s) (<[a := c]> (caches s))
                     (free_cache_head s) (slab_size_limits s)).
Definition upd_cache (a : Z) (f : slab_cache -> slab_cache) : M state unit :=
  let* c := get_cache a in put_cache a (f c).
Definition set_free_cache_head (v : option Z) : M state unit :=
  modify (fun s => Slabs (mem s) (headers s) (cells s) (caches s) v (slab_size_limits s)).

Definition with_next (v : option Z) (h : slab_header) := SlabHeader v (sh_free h) (sh_object h).
Definition with_free (v : Z) (h : slab_header) := SlabHeader (sh_next h) v (sh_object h).
Definition with_object (v : Z) (h : slab_header) := SlabHeader (sh_next h) (sh_free h) v.
Definition with_cnext (v : option Z) (c : slab_cache) :=
  SlabCache (sc_name c) v (slab_size c) (object_size c) (slabs_full c) (slabs_partial c).
Definition with_name (v : list Z) (c : slab_cache) :=
  SlabCache v (sc_next c) (slab_size c) (object_size c) (slabs_full c) (slabs_partial c).
Definition with_slab_size (v : Z) (c : slab_cache) :=
  SlabCache (sc_name c) (sc_next c) v (object_size c) (slabs_full c) (slabs_partial c).
Definition with_object_size (v : Z) (c : slab_cache) :=
  SlabCache (sc_name c) (sc_next c) (slab_size c) v (slabs_full c) (slabs_partial c).
Definition with_full (v : option Z) (c : slab_cache) :=
  SlabCache (sc_name c) (sc_next c) (slab_size c) (object_size c) v (slabs_partial c).
Definition with_partial (v : option Z) (c : slab_cache) :=
  SlabCache (sc_name c) (sc_next c) (slab_size c) (object_size c) (slabs_full c) v.

(** ** slab.c *)
Definition slab_max_object_num (c : slab_cache) : Z :=
  u32 (slab_size c - SLAB_HEADER_SIZE) / u32 (object_size c + 4).

(** The loop that fills the array of free indices. *)
Fixpoint fill_free (n : nat) (free i : Z) : M state unit :=
  match n with
  | O => ret tt
  | Datatypes.S n => do* put_cell (free + 4 * i) (i + 1) in fill_free n free (i + 1)
  end.

Definition slab_new (c : slab_cache) : M state Z :=
  let max_object_num := slab_max_object_num c in
  let* pg := lift (pa_alloc (slab_size c)) in
  let* header := lift (pa_address pg) in
  do* put_header header (SlabHeader None 0 0) in
  do* upd_header header (with_free (header + sizeof_slab_header)) in
  let* h := get_header header in
  do* upd_header header (with_object (sh_free h + 4 * (max_object_num + 1))) in
  do* fill_free (Z.to_nat max_object_num) (header + sizeof_slab_header) 0 in
  do* put_cell (header + sizeof_slab_header + 4 * max_object_num) SLAB_FREE_END in
  ret header.

(** The page of descriptors: the array of caches, linked in order. *)
Definition caches_per_page : Z := PAGE_SIZE / sizeof_slab_cache.
Fixpoint link_caches (n : nat) (base i : Z) : M state unit :=
  match n with
  | O => ret tt
  | Datatypes.S n =>
      do* upd_cache (base + sizeof_slab_cache * i)
            (with_cnext (Some (base + sizeof_slab_cache * (i + 1)))) in
      link_caches n base (i + 1)
  end.
Fixpoint zero_caches (n : nat) (base i : Z) : M state unit :=
  match n with
  | O => ret tt
  | Datatypes.S n =>
      do* put_cache (base + sizeof_slab_cache * i) zero_cache in
      zero_caches n base (i + 1)
  end.

Definition slab_cache_new : M state Z :=
  let* head := gets free_cache_head in
  do* match head with
      | Some _ => ret tt
      | None =>
          let* pg := lift (pa_alloc PAGE_SIZE) in
          let* cache := lift (pa_address pg) in
          do* zero_caches (Z.to_nat caches_per_page) cache 0 in
          do* link_caches (Z.to_nat (caches_per_page - 1)) cache 0 in
          set_free_cache_head (Some cache)
      end in
  let* head := gets free_cache_head in
  let* cache := opt Fault head in
  let* c := get_cache cache in
  do* set_free_cache_head (sc_next c) in
  do* upd_cache cache (with_cnext None) in
  ret cache.

Definition slab_cache_delete (cache : Z) : M state unit :=
  do* put_cache cache zero_cache in
  let* head := gets free_cache_head in
  do* upd_cache cache (with_cnext head) in
  set_free_cache_head (Some cache).

Definition slab_size_limit (i : Z) : Z :=
  let page_size := u32 (PAGE_SIZE * Z.shiftl 1 i) in
  u32 (page_size / 8 - (SLAB_HEADER_SIZE / 8 + 1) - 4).

Definition slab_cache_init : M state unit :=
  do* modify (fun s => Slabs (mem s) (headers s) (cells s) (caches s) (free_cache_head s)
                (slab_size_limit <$> seqZ 0 PAGE_MAX_DEPTH)) in
  set_free_cache_head None.

(** The loop of [slab_cache_create]: the first order whose limit is enough. *)
Fixpoint limit_search (limits : list Z) (i size : Z) : option Z :=
  match limits with
  | [] => None
  | l :: limits => if size <=? l then Some i else limit_search limits (i + 1) size
  end.

(** [name] is the C string, without its terminating 0. *)
Definition slab_cache_create (name : list Z) (size : Z) : M state (option Z) :=
  if negb (truthy size) then ret None
  else if MAX_SLAB_NAME <=? Z.of_nat (length name) then ret None
  else
    let* cache := slab_cache_new in
    do* upd_cache cache (fun c =>
          with_name (name ++ [0] ++ drop (length name + 1) (sc_name c)) c) in
    do* upd_cache cache (with_object_size (Z.land (u32 (size + 0x3)) (not32 0x3))) in
    let* c := get_cache cache in
    let* limits := gets slab_size_limits in
    do* match limit_search limits 0 (object_size c) with
        | Some i => upd_cache cache (with_slab_size (u32 (PAGE_SIZE * Z.shiftl 1 i)))
        | None => ret tt
        end in
    let* c := get_cache cache in
    if negb (truthy (slab_size c)) then ret None else ret (Some cache).

(** The two loops of [slab_cache_destroy] over a list of slabs. *)
Fixpoint destroy_loop (fuel : nat) (header : option Z) : M state unit :=
  match header with
  | None => ret tt
  | Some a =>
      match fuel with
      | O => fail Fuel
      | Datatypes.S fuel =>
          let* h := get_header a in
          let* pg := opt Fault (page_find_by_address a) in
          do* lift (pa_free pg) in
          destroy_loop fuel (sh_next h)
      end
  end.

Definition slab_cache_destroy (cache : Z) : M state unit :=
  let* c := get_cache cache in
  do* destroy_loop (Z.to_nat PAGE_NUM) (slabs_full c) in
  let* c := get_cache cache in
  do* destroy_loop (Z.to_nat PAGE_NUM) (slabs_partial c) in
  slab_cache_delete cache.

(** [header->free - free_list], a difference of [uint32_t] pointers. *)
Definition free_index (free free_list : Z) : Z := u32 (Z.quot (s32 (free - free_list)) 4).

Definition slab_cache_alloc (cache : Z) : M state Z :=
  let* c := get_cache cache in
  let* header := match slabs_partial c with
                 | Some a => ret a
                 | None =>
                     let* a := slab_new c in
                     do* upd_cache cache (with_partial (Some a)) in
                     ret a
                 end in
  let free_list := header + sizeof_slab_header in
  let* h := get_header header in
  let index := free_index (sh_free h) free_list in
  let* next_index := get_cell (sh_free h) in
  do* set_cell (free_list + 4 * index) SLAB_FREE_END in
  do* upd_header header (with_free (u32 (free_list + 4 * next_index))) in
  let* h := get_header header in
  let* w := get_cell (sh_free h) in
  do* (if w =? SLAB_FREE_END then
         do* upd_cache cache (with_partial (sh_next h)) in
         let* c := get_cache cache in
         do* match slabs_full c with
             | Some f => upd_header header (with_next (Some f))
             | None => upd_header header (with_next None)
             end in
         upd_cache cache (with_full (Some header))
       else ret tt) in
  let* h := get_header header in
  let* c := get_cache cache in
  ret (u32 (sh_object h + u32 (object_size c * index))).

(** [struct slab_header **hp]: the head of the full list or a [next] field. *)
Inductive hcell : Set := FullCell | NextOf (a : Z).
Definition write_hcell (cache : Z) (hp : hcell) (v : option Z) : M state unit :=
  match hp with
  | FullCell => upd_cache cache (with_full v)
  | NextOf a => upd_header a (with_next v)
  end.

(** The search of [slab_cache_free] in the full list. *)
Fixpoint unfull_loop (fuel : nat) (cache header : Z) (hp : hcell) (h : option Z) : M state unit :=
  match h with
  | None => fail Halt
  | Some a =>
      match fuel with
      | O => fail Fuel
      | Datatypes.S fuel =>
          let* x := get_header a in
          if a =? header then
            do* write_hcell cache hp (sh_next x) in
            let* c := get_cache cache in
            do* upd_header a (with_next (slabs_partial c)) in
            upd_cache cache (with_partial (Some a))
          else unfull_loop fuel cache header (NextOf a) (sh_next x)
      end
  end.

Definition slab_cache_free (cache obj : Z) : M state unit :=
  let* pg := opt Fault (page_find_by_address obj) in
  let* pg := lift (pa_find_head pg) in
  let* pg := opt Fault pg in
  let* header := lift (pa_address pg) in
  let free_list := header + sizeof_slab_header in
  let* h := get_header header in
  let* c := get_cache cache in
  let index := u32 (obj - sh_object h) / object_size c in
  let next_index := free_index (sh_free h) free_list in
  do* set_cell (free_list + 4 * index) next_index in
  do* upd_header header (with_free (free_list + 4 * index)) in
  let* w := get_cell (free_list + 4 * next_index) in
  if w =? SLAB_FREE_END then
    let* c := get_cache cache in
    unfull_loop (Z.to_nat PAGE_NUM) cache header FullCell (slabs_full c)
  else ret tt.
End Slab.
