(* ===== verification/SlabProofs.v ===== *)
(** * The object allocator: proofs

    The invariant of [slab.c] relates its state to an abstract one: the caches
    that exist, with their order and object size, and for each slab the cache
    it belongs to and the list of its free indices.  An object is live when its
    index is not in that list.  The operations are proved over the interface
    [PageAllocator], so the proofs do not depend on [buddy.c]. *)

From stdpp Require Import base numbers list gmap.
From S2P Require Import Prelude Buddy BuddyGeometry BuddyProofs PageAlloc Slab.

#[local] Open Scope Z_scope.
#[local] Open Scope kernel_scope.

(** ** Addresses *)

(** The address of the page [i], of the free word [j] and of the object [j]. *)
Definition base (i : Z) : Z := PAGE_START + PAGE_SIZE * i.
Definition slab_bytes (k : Z) : Z := PAGE_SIZE * 2 ^ k.
Definition word_at (h j : Z) : Z := h + sizeof_slab_header + 4 * j.
Definition nobj (k osz : Z) : Z := (slab_bytes k - SLAB_HEADER_SIZE) / (osz + 4).
Definition object_at (h k osz j : Z) : Z := word_at h (nobj k osz + 1) + osz * j.

(** The sizes of a cache: a whole order, and at least 8 aligned objects. *)
Definition cfg_ok (k osz : Z) : Prop :=
  0 <= k <= PAGE_MAX_ORDER /\ 0 < osz /\ (4 | osz) /\ 8 <= nobj k osz.

Ltac sconst :=
  unfold base, word_at, object_at, slab_bytes, SLAB_HEADER_SIZE, sizeof_slab_header,
    PAGE_START, PAGE_SIZE in *.

Lemma slab_bytes_bound k : 0 <= k <= PAGE_MAX_ORDER -> 4096 <= slab_bytes k <= 4194304.
Proof.
  intros Hk. unfold slab_bytes. change PAGE_SIZE with 4096.
  pose proof (Z.pow_le_mono_r 2 0 k ltac:(lia) ltac:(lia)).
  pose proof (Z.pow_le_mono_r 2 k 10 ltac:(lia) ltac:(bconst; lia)).
  change (2 ^ 10) with 1024 in *. change (2 ^ 0) with 1 in *. lia.
Qed.

(** The header, the words and the objects fit in the block. *)
Lemma nobj_bound k osz :
  0 <= k <= PAGE_MAX_ORDER -> 0 < osz ->
  0 <= nobj k osz <= 1048576 /\ 16 + nobj k osz * (osz + 4) <= slab_bytes k.
Proof.
  intros Hk Ho. pose proof (slab_bytes_bound k Hk). unfold nobj.
  change SLAB_HEADER_SIZE with 16.
  pose proof (Z.div_pos (slab_bytes k - 16) (osz + 4) ltac:(lia) ltac:(lia)).
  pose proof (Z.mul_div_le (slab_bytes k - 16) (osz + 4) ltac:(lia)). nia.
Qed.

Lemma word_inside k osz h j :
  0 <= k <= PAGE_MAX_ORDER -> 0 < osz -> 0 <= j <= nobj k osz ->
  h <= word_at h j /\ word_at h j < h + slab_bytes k.
Proof.
  intros Hk Ho Hj. pose proof (nobj_bound k osz Hk Ho). unfold word_at.
  change sizeof_slab_header with 12. nia.
Qed.

Lemma object_inside k osz h j :
  0 <= k <= PAGE_MAX_ORDER -> 0 < osz -> 0 <= j < nobj k osz ->
  word_at h (nobj k osz) + 4 <= object_at h k osz j /\
  object_at h k osz j + osz <= h + slab_bytes k.
Proof.
  intros Hk Ho Hj. pose proof (nobj_bound k osz Hk Ho). unfold object_at, word_at.
  change sizeof_slab_header with 12. nia.
Qed.

Lemma word_at_inj h j j' : word_at h j = word_at h j' -> j = j'.
Proof. unfold word_at. lia. Qed.

(** The page of an address inside a block. *)
Lemma address_page i k off :
  0 <= i -> i + 2 ^ k <= PAGE_NUM -> 0 <= k -> 0 <= off < slab_bytes k ->
  page_find_by_address (base i + off) = Some (i + off / PAGE_SIZE) /\
  in_block i k (i + off / PAGE_SIZE).
Proof.
  intros Hi Hn Hk Ho. pose proof (Z.div_mod off PAGE_SIZE ltac:(done)) as Hd.
  pose proof (Z.mod_pos_bound off PAGE_SIZE ltac:(done)) as Hm.
  assert (0 <= off / PAGE_SIZE) by (apply Z.div_pos; [lia|done]).
  assert (off / PAGE_SIZE < 2 ^ k).
  { apply Z.div_lt_upper_bound; [done|]. unfold slab_bytes in Ho. lia. }
  split; [|unfold in_block; lia].
  replace (base i + off) with
    (PAGE_START + PAGE_SIZE * (i + off / PAGE_SIZE) + off mod PAGE_SIZE) by (unfold base; lia).
  apply page_find_by_address_spec; lia.
Qed.

(** Addresses in disjoint blocks are different. *)
Lemma blocks_apart i k j l a b :
  disjoint_blocks i k j l -> 0 <= k -> 0 <= l ->
  base i <= a < base i + slab_bytes k -> base j <= b < base j + slab_bytes l -> a <> b.
Proof.
  intros Hd Hk Hl Ha Hb ->. sconst.
  apply (Hd ((b - 0x65000000) / 0x1000)); unfold in_block;
    (split; [apply Z.div_le_lower_bound | apply Z.div_lt_upper_bound]; lia).
Qed.

Lemma base_inj i j : base i = base j -> i = j.
Proof. sconst. lia. Qed.

(** ** The words of a slab *)
Definition fhead (n : Z) (fl : list Z) : Z := match fl with [] => n | j :: _ => j end.

Fixpoint fwords (m : gmap Z Z) (h n : Z) (fl : list Z) : Prop :=
  match fl with
  | [] => m !! word_at h n = Some SLAB_FREE_END
  | j :: fl => m !! word_at h j = Some (fhead n fl) /\ fwords m h n fl
  end.

Definition free_rep (m : gmap Z Z) (h n : Z) (fl : list Z) : Prop :=
  NoDup fl /\ (forall j, j ∈ fl -> 0 <= j < n) /\ fwords m h n fl /\
  forall j, 0 <= j <= n -> is_Some (m !! word_at h j).

Lemma fwords_agree m m' h n fl :
  (forall j, j ∈ fl \/ j = n -> m' !! word_at h j = m !! word_at h j) ->
  fwords m h n fl -> fwords m' h n fl.
Proof.
  induction fl as [|j fl IH]; simpl; intros Ha Hf.
  - by rewrite Ha by auto.
  - destruct Hf as [Hj Hf]. rewrite Ha by set_solver. split; [done|]. apply IH; [|done].
    intros i [Hi| ->]; apply Ha; set_solver.
Qed.

Lemma free_rep_agree m m' h n fl :
  (forall j, 0 <= j <= n -> m' !! word_at h j = m !! word_at h j) -> 0 <= n ->
  free_rep m h n fl -> free_rep m' h n fl.
Proof.
  intros Ha Hn (Hnd & Hr & Hf & Hs). split_and!; [done|done| |].
  - eapply fwords_agree; [|done]. intros j [Hj| ->]; apply Ha; [apply Hr in Hj|]; lia.
  - intros j Hj. rewrite Ha by done. by apply Hs.
Qed.

Lemma fwords_insert m h n fl j v :
  j ∉ fl -> j <> n -> fwords m h n fl -> fwords (<[word_at h j := v]> m) h n fl.
Proof.
  intros Hj Hn. apply fwords_agree. intros i Hi. rewrite lookup_insert_ne; [done|].
  intros E%word_at_inj. subst. naive_solver.
Qed.

Lemma fwords_head m h n fl :
  fwords m h n fl -> (forall j, j ∈ fl -> 0 <= j < n) -> 0 <= n < SLAB_FREE_END ->
  exists w, m !! word_at h (fhead n fl) = Some w /\ (w = SLAB_FREE_END <-> fl = []).
Proof.
  intros Hf Hr Hn. destruct fl as [|j fl]; simpl in *; [by exists SLAB_FREE_END|].
  destruct Hf as [Hj Hf]. exists (fhead n fl). split; [done|]. split; [|done].
  intros E. exfalso. destruct fl as [|i fl]; simpl in E; [lia|].
  specialize (Hr i ltac:(set_solver)). lia.
Qed.

Lemma free_rep_pop m h n j fl v :
  free_rep m h n (j :: fl) -> free_rep (<[word_at h j := v]> m) h n fl.
Proof.
  intros (Hnd & Hr & [Hj Hf] & Hs). apply NoDup_cons in Hnd as [Hni Hnd].
  specialize (Hr j ltac:(set_solver)) as Hjr. split_and!; [done|set_solver| |].
  - apply fwords_insert; [done|lia|done].
  - intros i Hi. destruct (decide (j = i)) as [->|Hne]; [rewrite lookup_insert_eq; eauto|].
    rewrite lookup_insert_ne by (by intros E%word_at_inj). by apply Hs.
Qed.

Lemma free_rep_push m h n j fl :
  free_rep m h n fl -> 0 <= j < n -> j ∉ fl ->
  free_rep (<[word_at h j := fhead n fl]> m) h n (j :: fl).
Proof.
  intros (Hnd & Hr & Hf & Hs) Hj Hni. split_and!.
  - by apply NoDup_cons.
  - set_solver.
  - split; [apply lookup_insert_eq|]. apply fwords_insert; [done|lia|done].
  - intros i Hi. destruct (decide (j = i)) as [->|Hne]; [rewrite lookup_insert_eq; eauto|].
    rewrite lookup_insert_ne by (by intros E%word_at_inj). by apply Hs.
Qed.

Section SlabProofs.
Context {S : Type} `{PA : PageAllocator S}.
(** The pages the clients took from the page allocator for themselves. *)
Context {U : gset Z}.
Notation state := (slabs S).
Implicit Types (s : state) (A : gmap Z Z) (C : gmap Z (Z * Z)) (G : gmap Z (Z * list Z)).

(** ** Running the accesses *)
Definition setM (x : S) s : state :=
  Slabs x (headers s) (cells s) (caches s) (free_cache_head s) (slab_size_limits s).
Definition setH (m : gmap Z slab_header) s : state :=
  Slabs (mem s) m (cells s) (caches s) (free_cache_head s) (slab_size_limits s).
Definition setW (m : gmap Z Z) s : state :=
  Slabs (mem s) (headers s) m (caches s) (free_cache_head s) (slab_size_limits s).
Definition setC (m : gmap Z slab_cache) s : state :=
  Slabs (mem s) (headers s) (cells s) m (free_cache_head s) (slab_size_limits s).
Definition setF (f : option Z) s : state :=
  Slabs (mem s) (headers s) (cells s) (caches s) f (slab_size_limits s).

Lemma lift_ok {X} (m : M S X) s a x :
  m (mem s) = Ok (a, x) -> lift m s = Ok (a, setM x s).
Proof. unfold lift. by intros ->. Qed.
Lemma lift_read {X} (m : M S X) s a :
  m (mem s) = Ok (a, mem s) -> lift m s = Ok (a, s).
Proof. unfold lift. intros ->. by destruct s. Qed.
Lemma lift_err {X} (m : M S X) s r : m (mem s) = Err r -> lift m s = Err r.
Proof. unfold lift. by intros ->. Qed.
Lemma get_header_ok s a h : headers s !! a = Some h -> get_header a s = Ok (h, s).
Proof. intros H. unfold get_header. mred. by rewrite H. Qed.
Lemma upd_header_ok s a h f :
  headers s !! a = Some h -> upd_header a f s = Ok (tt, setH (<[a := f h]> (headers s)) s).
Proof. intros H. unfold upd_header. by mrun (get_header_ok _ _ _ H). Qed.
Lemma get_cell_ok s a w : cells s !! a = Some w -> get_cell a s = Ok (w, s).
Proof. intros H. unfold get_cell. mred. by rewrite H. Qed.
Lemma set_cell_ok s a v :
  is_Some (cells s !! a) -> set_cell a v s = Ok (tt, setW (<[a := v]> (cells s)) s).
Proof. intros [w H]. unfold set_cell. by mrun (get_cell_ok _ _ _ H). Qed.
Lemma get_cache_ok s a c : caches s !! a = Some c -> get_cache a s = Ok (c, s).
Proof. intros H. unfold get_cache. mred. by rewrite H. Qed.
Lemma upd_cache_ok s a c f :
  caches s !! a = Some c -> upd_cache a f s = Ok (tt, setC (<[a := f c]> (caches s)) s).
Proof. intros H. unfold upd_cache. by mrun (get_cache_ok _ _ _ H). Qed.

Lemma fill_free_ok n : forall free i s,
  exists cs, fill_free n free i s = Ok (tt, setW cs s) /\
    (forall j, i <= j < i + Z.of_nat n -> cs !! (free + 4 * j) = Some (j + 1)) /\
    forall a, (forall j, i <= j < i + Z.of_nat n -> a <> free + 4 * j) ->
      cs !! a = cells s !! a.
Proof.
  induction n as [|n IH]; intros free i s.
  - exists (cells s). cbn [fill_free]. split; [by destruct s|]. split; [lia|done].
  - destruct (IH free (i + 1) (setW (<[free + 4 * i := i + 1]> (cells s)) s))
      as (cs & E & Hin & Hout).
    exists cs. split; [exact E|]. split.
    + intros j Hj. destruct (Z.eq_dec j i) as [->|]; [|apply Hin; lia].
      rewrite Hout by lia. apply lookup_insert_eq.
    + intros a Ha. rewrite Hout by (intros j Hj; apply Ha; lia). simpl.
      rewrite lookup_insert_ne; [done|]. intros <-. by apply (Ha i); [lia|].
Qed.

(** ** The invariant *)

(** The slab at [h]: its block, its header and its words. *)
Definition slab_ok s A (h k osz : Z) (fl : list Z) : Prop :=
  exists i nx, h = base i /\ A !! i = Some k /\
    headers s !! h = Some (SlabHeader nx (word_at h (fhead (nobj k osz) fl))
                             (word_at h (nobj k osz + 1))) /\
    free_rep (cells s) h (nobj k osz) fl /\ i ∉ U.

(** The cache at [c]: its two lists hold its slabs with no free index and
    with some. *)
Definition cache_rep s G (c k osz : Z) : Prop :=
  exists r full partial, caches s !! c = Some r /\
    slab_size r = slab_bytes k /\ object_size r = osz /\
    lchain sh_next (headers s) (slabs_full r) full /\
    lchain sh_next (headers s) (slabs_partial r) partial /\
    NoDup full /\ NoDup partial /\
    (forall h, h ∈ full <-> G !! h = Some (c, [])) /\
    (forall h, h ∈ partial <-> exists j fl, G !! h = Some (c, j :: fl)).

(** The descriptors: the caches and the free list lie in the pages [D], and
    the free ones are zeroed. *)
Definition desc_in (D : gset Z) (c : Z) : Prop :=
  exists i j, i ∈ D /\ 0 <= j < caches_per_page /\ c = base i + sizeof_slab_cache * j.
Definition desc_free s C (D : gset Z) (c : Z) : Prop :=
  C !! c = None /\ desc_in D c /\ exists nx, caches s !! c = Some (with_cnext nx zero_cache).
Definition desc_rep (D : gset Z) (F : list Z) s A C G : Prop :=
  (forall i, i ∈ D -> A !! i = Some 0 /\ G !! base i = None /\ i ∉ U) /\
  lchain sc_next (caches s) (free_cache_head s) F /\ NoDup F /\
  (forall c, c ∈ F -> desc_free s C D c) /\
  (forall c, is_Some (C !! c) -> desc_in D c).
Definition desc_ok s A C G : Prop := exists D F, desc_rep D F s A C G.

Record slab_inv s A C G : Prop := {
  si_pages : pa_inv (mem s) A;
  si_client : forall i, i ∈ U -> is_Some (A !! i);
  si_caches : forall c k osz, C !! c = Some (k, osz) -> cfg_ok k osz /\ cache_rep s G c k osz;
  si_slabs : forall h c fl, G !! h = Some (c, fl) ->
    exists k osz, C !! c = Some (k, osz) /\ slab_ok s A h k osz fl;
  si_desc : desc_ok s A C G;
  si_limits : slab_size_limits s = slab_size_limit <$> seqZ 0 PAGE_MAX_DEPTH;
}.

(** An object a client of the cache [c] holds. *)
Definition live C G (c a : Z) : Prop :=
  exists h fl k osz j, G !! h = Some (c, fl) /\ C !! c = Some (k, osz) /\
    0 <= j < nobj k osz /\ j ∉ fl /\ a = object_at h k osz j.

(** ** Frame lemmas *)
Lemma slab_ok_frame s s' A A' h k osz fl :
  slab_ok s A h k osz fl -> 0 <= nobj k osz ->
  (forall i, h = base i -> A !! i = Some k -> A' !! i = Some k) ->
  (forall x, headers s !! h = Some x ->
     exists nx, headers s' !! h = Some (with_next nx x)) ->
  (forall j, 0 <= j <= nobj k osz -> cells s' !! word_at h j = cells s !! word_at h j) ->
  slab_ok s' A' h k osz fl.
Proof.
  intros (i & nx & Hh & HA & Hhd & Hf & HU) Hn HA' Hhd' Hc.
  destruct (Hhd' _ Hhd) as (nx' & Hx). exists i, nx'. split_and!; [done|eauto|done| |done].
  by eapply free_rep_agree.
Qed.

Lemma cache_rep_frame s s' G G' c k osz :
  cache_rep s G c k osz -> caches s' !! c = caches s !! c ->
  (forall h fl, G !! h = Some (c, fl) -> headers s' !! h = headers s !! h) ->
  (forall h fl, G' !! h = Some (c, fl) <-> G !! h = Some (c, fl)) ->
  cache_rep s' G' c k osz.
Proof.
  intros (r & full & partial & Hr & Hs & Ho & Hcf & Hcp & Hnf & Hnp & Hf & Hp) Hc Hh HG.
  exists r, full, partial. rewrite Hc. split_and!; try done.
  - eapply chain_agree; [|done]. intros h Hin. eapply Hh. by apply Hf.
  - eapply chain_agree; [|done]. intros h Hin. apply Hp in Hin as (j & fl & Hin). by eapply Hh.
  - intros h. by rewrite HG.
  - intros h. rewrite Hp. by setoid_rewrite HG.
Qed.

Lemma desc_ok_frame s s' A A' C G G' c :
  desc_ok s A C G -> is_Some (C !! c) -> free_cache_head s' = free_cache_head s ->
  (forall c', c' <> c -> caches s' !! c' = caches s !! c') ->
  (forall i, A !! i = Some 0 -> G !! base i = None ->
     A' !! i = Some 0 /\ G' !! base i = None) ->
  desc_ok s' A' C G'.
Proof.
  intros (D & F & HD & HF & Hnd & Hfree & Hin) [v Hc] Hfr Hca HA.
  assert (HF' : forall c', c' ∈ F -> caches s' !! c' = caches s !! c').
  { intros c' Hc'. apply Hca. destruct (Hfree _ Hc') as [? _]. congruence. }
  exists D, F. unfold desc_rep. rewrite Hfr. split_and!; [|by eapply chain_agree|done| |done].
  - intros i Hi. destruct (HD i Hi) as (H1 & H2 & ?). by destruct (HA i H1 H2).
  - intros c' Hc'. destruct (Hfree _ Hc') as (? & ? & ?). split_and!; [done|done|].
    by rewrite HF'.
Qed.

(** The data of a slab and of its cache, together. *)
Lemma slab_inv_slab s A C G h c fl k osz :
  slab_inv s A C G -> G !! h = Some (c, fl) -> C !! c = Some (k, osz) ->
  cfg_ok k osz /\ cache_rep s G c k osz /\ slab_ok s A h k osz fl.
Proof.
  intros HI Hh Hc. destruct (si_caches _ _ _ _ HI _ _ _ Hc) as [Hcfg Hrep].
  destruct (si_slabs _ _ _ _ HI _ _ _ Hh) as (k' & osz' & Hc' & Hs).
  rewrite Hc in Hc'. injection Hc' as <- <-. done.
Qed.

(** The bytes of two slabs are apart. *)
Lemma slab_apart s A h k osz fl h' k' osz' fl' a b :
  pa_inv (mem s) A -> slab_ok s A h k osz fl -> slab_ok s A h' k' osz' fl' -> h <> h' ->
  h <= a < h + slab_bytes k -> h' <= b < h' + slab_bytes k' -> a <> b.
Proof.
  intros HP (i & nx & -> & HA & _) (i' & nx' & -> & HA' & _) Hne Ha Hb.
  assert (i <> i') by (by intros ->).
  destruct (pa_block _ _ _ _ HP HA) as [? _], (pa_block _ _ _ _ HP HA') as [? _].
  eapply (blocks_apart i k i' k'); [by eapply pa_disjoint|lia|lia|done|done].
Qed.

Lemma words_apart s A h k osz fl h' k' osz' fl' j j' :
  pa_inv (mem s) A -> slab_ok s A h k osz fl -> slab_ok s A h' k' osz' fl' -> h <> h' ->
  cfg_ok k osz -> cfg_ok k' osz' -> 0 <= j <= nobj k osz -> 0 <= j' <= nobj k' osz' ->
  word_at h j <> word_at h' j'.
Proof.
  intros HP H H' Hne (? & ? & _) (? & ? & _) Hj Hj'.
  eapply (slab_apart _ _ _ _ _ _ _ _ _ _ _ _ HP H H' Hne);
    [by apply (word_inside k osz) | by apply (word_inside k' osz')].
Qed.

(** A change of one slab [h] of the cache [c], and of the lists of [c]. *)
Lemma slab_inv_step s s' A C G h c k osz fl fl' j v :
  slab_inv s A C G -> G !! h = Some (c, fl) -> C !! c = Some (k, osz) ->
  mem s' = mem s -> cells s' = <[word_at h j := v]> (cells s) -> 0 <= j <= nobj k osz ->
  (forall h' c' fl', h' <> h -> G !! h' = Some (c', fl') ->
     if decide (c' = c) then
       forall x, headers s !! h' = Some x -> exists nx, headers s' !! h' = Some (with_next nx x)
     else headers s' !! h' = headers s !! h') ->
  (forall c', c' <> c -> caches s' !! c' = caches s !! c') ->
  free_cache_head s' = free_cache_head s -> slab_size_limits s' = slab_size_limits s ->
  cache_rep s' (<[h := (c, fl')]> G) c k osz -> slab_ok s' A h k osz fl' ->
  slab_inv s' A C (<[h := (c, fl')]> G).
Proof.
  intros HI Hh Hc Hm Hw Hj Hhd Hca Hfr Hlim Hrep Hok.
  destruct (slab_inv_slab _ _ _ _ _ _ _ _ _ HI Hh Hc) as (Hcfg & _ & Hok0).
  pose proof (si_pages _ _ _ _ HI) as HP.
  split; [by rewrite Hm|apply HI| | | |rewrite Hlim; apply HI].
  - intros c' k' osz' Hc'. destruct (si_caches _ _ _ _ HI _ _ _ Hc') as [Hcfg' Hrep'].
    split; [done|]. destruct (decide (c' = c)) as [->|Hne].
    { rewrite Hc in Hc'. by injection Hc' as <- <-. }
    eapply cache_rep_frame; [done|by apply Hca| |].
    + intros h' f' Hh'. assert (h' <> h) by (intros ->; congruence).
      specialize (Hhd h' c' f' ltac:(done) Hh'). by rewrite decide_False in Hhd.
    + intros h' f'. destruct (decide (h = h')) as [->|].
      * rewrite lookup_insert_eq. split; [|intros]; congruence.
      * by rewrite lookup_insert_ne.
  - intros h' c' f' Hh'. destruct (decide (h = h')) as [<-|Hne].
    { rewrite lookup_insert_eq in Hh'. injection Hh' as <- <-. eauto. }
    rewrite lookup_insert_ne in Hh' by done.
    destruct (si_slabs _ _ _ _ HI _ _ _ Hh') as (k' & osz' & Hc' & Hok').
    destruct (si_caches _ _ _ _ HI _ _ _ Hc') as [Hcfg' _].
    pose proof Hcfg' as (? & ? & ? & ?). exists k', osz'. split; [done|].
    eapply slab_ok_frame; [done|lia|done| |].
    + specialize (Hhd h' c' f' ltac:(done) Hh'). destruct (decide (c' = c)); [done|].
      intros x Hx. exists (sh_next x). rewrite Hhd, Hx. by destruct x.
    + intros j' Hj'. rewrite Hw, lookup_insert_ne; [done|].
      by eapply (words_apart _ _ _ _ _ _ _ _ _ _ _ _ HP Hok0 Hok').
  - eapply desc_ok_frame; [apply HI|eauto|done|done|]. intros i HA HG. split; [done|].
    rewrite lookup_insert_ne; [done|]. congruence.
Qed.

(** ** Allocation *)
Lemma free_index_word h j :
  0 <= j <= 1048576 -> free_index (word_at h j) (h + sizeof_slab_header) = j.
Proof.
  intros Hj. unfold free_index, word_at.
  replace (h + sizeof_slab_header + 4 * j - (h + sizeof_slab_header)) with (4 * j) by lia.
  rewrite s32_small by (unfold is_s32; lia).
  rewrite Z.mul_comm, Z.quot_mul by lia. apply u32_small. unfold is_u32. lia.
Qed.

(** The part of [slab_cache_alloc] after the slab has been chosen. *)
Definition alloc_from (cache header : Z) : M state Z :=
  let free_list := header + sizeof_slab_header in
  let* h := get_header header in
  let index := free_index (sh_free h) free_list in
  let* next_index := get_cell (sh_free h) in
  do* set_cell (free_list + 4 * index) SLAB_FREE_END in
  do* upd_header header (with_free (u32 (free_list + 4 * next_index))) in
  let* h := get_header header in
  let* w := get_cell (sh_free h) in
  do* (if w =? SLAB_FREE_END then
         do* upd_cache cache (with_partial (sh_next h)) in
         let* c := get_cache cache in
         do* match slabs_full c with
             | Some f => upd_header header (with_next (Some f))
             | None => upd_header header (with_next None)
             end in
         upd_cache cache (with_full (Some header))
       else ret tt) in
  let* h := get_header header in
  let* c := get_cache cache in
  ret (u32 (sh_object h + u32 (object_size c * index))).

Lemma slab_cache_alloc_eq cache :
  slab_cache_alloc cache =
  (let* c := get_cache cache in
   let* header := match slabs_partial c with
                  | Some a => ret a
                  | None =>
                      let* a := slab_new c in
                      do* upd_cache cache (with_partial (Some a)) in
                      ret a
                  end in
   alloc_from cache header).
Proof. reflexivity. Qed.

(** The move of the slab [header] from the head of the partial list to the
    full list. *)
Lemma to_full_ok s cache r header x :
  caches s !! cache = Some r -> headers s !! header = Some x ->
  (do* upd_cache cache (with_partial (sh_next x)) in
   let* c := get_cache cache in
   do* match slabs_full c with
       | Some f => upd_header header (with_next (Some f))
       | None => upd_header header (with_next None)
       end in
   upd_cache cache (with_full (Some header))) s =
  Ok (tt, setH (<[header := with_next (slabs_full r) x]> (headers s))
            (setC (<[cache := with_full (Some header) (with_partial (sh_next x) r)]> (caches s)) s)).
Proof.
  intros Hr Hx. mrun (upd_cache_ok _ _ _ (with_partial (sh_next x)) Hr).
  set (s1 := setC _ s).
  assert (Hr1 : caches s1 !! cache = Some (with_partial (sh_next x) r)) by apply lookup_insert_eq.
  mrun (get_cache_ok _ _ _ Hr1). cbn [slabs_full with_partial].
  set (s2 := setH (<[header := with_next (slabs_full r) x]> (headers s)) s1).
  assert (E : (match slabs_full r with
              | Some f => upd_header header (with_next (Some f))
              | None => upd_header header (with_next None)
              end) s1 = Ok (tt, s2)).
  { unfold s2. destruct (slabs_full r); by apply (upd_header_ok s1). }
  mrun E. assert (Hr2 : caches s2 !! cache = Some (with_partial (sh_next x) r))
    by apply lookup_insert_eq.
  rewrite (upd_cache_ok _ _ _ _ Hr2). unfold s2, s1, setC, setH. simpl.
  by rewrite insert_insert_eq.
Qed.

(** The state after an allocation of the index [j] of the slab [h] whose
    header is [x]; [fl] are the remaining free indices. *)
Definition alloc_state s (c h n : Z) (r : slab_cache) (x : slab_header) (j : Z) (fl : list Z) : state :=
  let s1 := setW (<[word_at h j := SLAB_FREE_END]> (cells s)) s in
  let x1 := with_free (word_at h (fhead n fl)) x in
  match fl with
  | [] => setH (<[h := with_next (slabs_full r) x1]> (headers s))
            (setC (<[c := with_full (Some h) (with_partial (sh_next x) r)]> (caches s)) s1)
  | _ => setH (<[h := x1]> (headers s)) s1
  end.

(** Addresses of a slab are 32-bit. *)
Lemma slab_u32 s A h k osz fl a :
  pa_inv (mem s) A -> slab_ok s A h k osz fl -> h <= a < h + slab_bytes k -> is_u32 a.
Proof.
  intros HP (i & nx & -> & HA & _) Ha. destruct (pa_block _ _ _ _ HP HA) as (? & ? & ? & _).
  unfold is_u32. sconst. bconst. lia.
Qed.

Lemma alloc_from_run s A c k osz r h j fl :
  pa_inv (mem s) A -> cfg_ok k osz -> slab_ok s A h k osz (j :: fl) ->
  caches s !! c = Some r -> object_size r = osz ->
  exists x, headers s !! h = Some x /\
    alloc_from c h s = Ok (object_at h k osz j, alloc_state s c h (nobj k osz) r x j fl).
Proof.
  intros HP Hcfg Hok Hr Ho. pose proof Hcfg as (Hk & Hosz & _ & Hn8).
  pose proof (nobj_bound k osz Hk Hosz) as [Hnb _].
  pose proof Hok as (i & nx & Hh & HA & Hx & Hf & HU).
  pose proof (free_rep_pop _ _ _ _ _ SLAB_FREE_END Hf) as (_ & Hrg & Hfw & _).
  destruct Hf as (_ & Hrg0 & [Hw _] & Hs). specialize (Hrg0 j ltac:(set_solver)) as Hj.
  assert (Hhd : 0 <= fhead (nobj k osz) fl <= nobj k osz).
  { destruct fl as [|j' fl]; simpl; [lia|]. specialize (Hrg j' ltac:(set_solver)). lia. }
  eexists. split; [done|]. set (x := SlabHeader nx _ _) in *.
  unfold alloc_from. mrun (get_header_ok _ _ _ Hx). simpl.
  rewrite free_index_word by lia. mrun (get_cell_ok _ _ _ Hw).
  change (h + sizeof_slab_header + 4 * j) with (word_at h j).
  change (h + sizeof_slab_header + 4 * fhead (nobj k osz) fl)
    with (word_at h (fhead (nobj k osz) fl)).
  mrun (set_cell_ok s _ SLAB_FREE_END (Hs j ltac:(lia))).
  set (s1 := setW _ s). rewrite u32_small
    by (eapply slab_u32; [done|done|]; by apply (word_inside k osz)).
  mrun (upd_header_ok s1 _ _ (with_free (word_at h (fhead (nobj k osz) fl))) Hx).
  set (x1 := with_free _ x). set (s2 := setH _ s1).
  assert (Hx1 : headers s2 !! h = Some x1) by apply lookup_insert_eq.
  mrun (get_header_ok _ _ _ Hx1).
  destruct (fwords_head _ _ _ _ Hfw Hrg ltac:(unfold SLAB_FREE_END; lia)) as (w & Hw1 & Hend).
  change (<[word_at h j := SLAB_FREE_END]> (cells s)) with (cells s2) in Hw1.
  mrun (get_cell_ok _ _ _ Hw1).
  assert (Hret : u32 (word_at h (nobj k osz + 1) + u32 (osz * j)) = object_at h k osz j).
  { destruct (object_inside k osz h j Hk Hosz Hj) as [H1 H2].
    pose proof (slab_bytes_bound k Hk).
    assert (0 <= osz * j < 2 ^ 32) by (pose proof (nobj_bound k osz Hk Hosz); nia).
    rewrite (u32_small (osz * j)) by done. apply u32_small.
    eapply slab_u32; [done|done|]. pose proof (word_inside k osz h (nobj k osz) Hk Hosz).
    unfold object_at in *. lia. }
  destruct fl as [|j' fl].
  - destruct Hend as [_ ->]; [|done]. rewrite Z.eqb_refl.
    mrun (to_full_ok s2 c r h x1 Hr Hx1). cbn [headers setH]. 
    erewrite (bind_ok (get_header h)); [|apply get_header_ok; apply lookup_insert_eq].
    erewrite (bind_ok (get_cache c)); [|apply get_cache_ok; apply lookup_insert_eq].
    cbn -[u32 object_at word_at nobj Z.add Z.mul]. rewrite Ho, Hret. unfold ret, alloc_state, setH, setC, s2, s1, setW.
    simpl. by rewrite insert_insert_eq.
  - replace (w =? SLAB_FREE_END) with false
      by (symmetry; apply Z.eqb_neq; intros E; by apply Hend in E).
    rewrite (bind_ok (ret tt) _ _ tt s2) by done. mrun (get_header_ok _ _ _ Hx1).
    mrun (get_cache_ok s2 _ _ Hr). cbn [x1 x with_free sh_object]. by rewrite Ho, Hret.
Qed.

(** A slab that stays in its list: only its header's [free] changes. *)
Lemma cache_rep_stay s s' G c k osz h x v fl fl' :
  cache_rep s G c k osz -> caches s' = caches s -> headers s !! h = Some x ->
  headers s' = <[h := with_free v x]> (headers s) ->
  G !! h = Some (c, fl) -> fl <> [] -> fl' <> [] ->
  cache_rep s' (<[h := (c, fl')]> G) c k osz.
Proof.
  intros (r & full & partial & Hr & Hs & Ho & Hcf & Hcp & Hnf & Hnp & Hf & Hp)
    Hc Hx Hh HG Hfl Hfl'.
  exists r, full, partial. rewrite Hc, Hh. split_and!; try done.
  - by eapply chain_insert_same.
  - by eapply chain_insert_same.
  - intros h'. rewrite Hf. destruct (decide (h = h')) as [<-|].
    + rewrite lookup_insert_eq. split; intros; congruence.
    + by rewrite lookup_insert_ne.
  - intros h'. rewrite Hp. destruct (decide (h = h')) as [<-|].
    + rewrite lookup_insert_eq. destruct fl, fl'; try done. naive_solver.
    + by rewrite lookup_insert_ne.
Qed.

(** The last free index goes: from the head of the partial list to the full list. *)
Lemma cache_rep_to_full s s' G c k osz r h x v j :
  cache_rep s G c k osz -> caches s !! c = Some r -> slabs_partial r = Some h ->
  headers s !! h = Some x -> G !! h = Some (c, [j]) ->
  caches s' = <[c := with_full (Some h) (with_partial (sh_next x) r)]> (caches s) ->
  headers s' = <[h := with_next (slabs_full r) (with_free v x)]> (headers s) ->
  cache_rep s' (<[h := (c, [])]> G) c k osz.
Proof.
  intros (r' & full & partial & Hr & Hs & Ho & Hcf & Hcp & Hnf & Hnp & Hf & Hp) Hr' Hph Hx HG Hc Hh.
  rewrite Hr in Hr'. injection Hr' as ->. rewrite Hph in Hcp.
  destruct partial as [|h0 partial]; [done|]. destruct Hcp as [[= <-] (x' & Hx' & Hcp)].
  rewrite Hx in Hx'. injection Hx' as <-. apply NoDup_cons in Hnp as [Hnh Hnp].
  assert (Hnf' : h ∉ full) by (rewrite Hf; congruence).
  eexists _, (h :: full), partial. rewrite Hc, Hh, lookup_insert_eq. split_and!; try done.
  - split; [done|]. eexists. split; [apply lookup_insert_eq|]. by apply chain_insert_notin.
  - by apply chain_insert_notin.
  - by apply NoDup_cons.
  - intros h'. destruct (decide (h = h')) as [<-|].
    + rewrite lookup_insert_eq. set_solver.
    + rewrite lookup_insert_ne, <- Hf by done. set_solver.
  - intros h'. destruct (decide (h = h')) as [<-|].
    + rewrite lookup_insert_eq. split; [done|]. by intros (? & ? & [=]).
    + rewrite lookup_insert_ne, <- Hp by done. set_solver.
Qed.

Lemma alloc_from_spec s A C G c k osz r h :
  slab_inv s A C G -> C !! c = Some (k, osz) ->
  caches s !! c = Some r -> slabs_partial r = Some h ->
  exists j fl s', G !! h = Some (c, j :: fl) /\ 0 <= j < nobj k osz /\ j ∉ fl /\
    alloc_from c h s = Ok (object_at h k osz j, s') /\
    slab_inv s' A C (<[h := (c, fl)]> G).
Proof.
  intros HI Hc Hr Hph. destruct (si_caches _ _ _ _ HI _ _ _ Hc) as [Hcfg Hrep].
  pose proof Hrep as (r' & full & partial & Hr' & Hs & Ho & Hcf & Hcp & Hnf & Hnp & Hf & Hp).
  rewrite Hr in Hr'. injection Hr' as <-. rewrite Hph in Hcp.
  destruct partial as [|h0 partial]; [done|]. destruct Hcp as [[= <-] _].
  destruct (proj1 (Hp h) ltac:(set_solver)) as (j & fl & HG). exists j, fl.
  destruct (slab_inv_slab _ _ _ _ _ _ _ _ _ HI HG Hc) as (_ & _ & Hok).
  pose proof (si_pages _ _ _ _ HI) as HP.
  destruct (alloc_from_run s A c k osz r h j fl HP Hcfg Hok Hr Ho) as (x & Hx & E).
  pose proof Hok as (i & nx & Hh & HA & Hx' & Hfr & HU). rewrite Hx in Hx'. injection Hx' as Ex.
  pose proof Hfr as (Hnd & Hrg & _). specialize (Hrg j ltac:(set_solver)) as Hj.
  apply NoDup_cons in Hnd as [Hjn _].
  eexists. split_and!; [done|lia|lia|done|exact E|].
  assert (Hfr' := free_rep_pop _ _ _ _ _ SLAB_FREE_END Hfr).
  eapply (slab_inv_step s _ A C G h c k osz _ fl j SLAB_FREE_END HI HG Hc).
  - by destruct fl.
  - by destruct fl.
  - lia.
  - intros h' c' fl' Hne Hh'. assert (E1 : headers (alloc_state s c h (nobj k osz) r x j fl) !! h' =
      headers s !! h') by (destruct fl; simpl; by rewrite lookup_insert_ne).
    destruct (decide (c' = c)); [|done]. intros y Hy. exists (sh_next y). rewrite E1, Hy.
    by destruct y.
  - intros c' Hne. destruct fl; simpl; [by rewrite lookup_insert_ne|done].
  - by destruct fl.
  - by destruct fl.
  - destruct fl as [|j' fl].
    + by eapply cache_rep_to_full.
    + by eapply cache_rep_stay.
  - exists i. destruct fl as [|j' fl]; eexists; (split_and!; [done|done| |exact Hfr'|done]);
      simpl; rewrite lookup_insert_eq, Ex; reflexivity.
Qed.

Lemma order_for_slab k : 0 <= k <= PAGE_MAX_ORDER -> order_for (slab_bytes k) k.
Proof.
  intros Hk. unfold order_for, slab_bytes. change PAGE_SIZE with 4096.
  split_and!; [lia|lia|lia|].
  intros l Hl. pose proof (Z.pow_lt_mono_r 2 l k). lia.
Qed.

Lemma max_object_num_eq r k osz :
  slab_size r = slab_bytes k -> object_size r = osz -> cfg_ok k osz ->
  slab_max_object_num r = nobj k osz.
Proof.
  intros Hs Ho (Hk & Hosz & _ & Hn). unfold slab_max_object_num, nobj. rewrite Hs, Ho.
  pose proof (slab_bytes_bound k Hk). pose proof (nobj_bound k osz Hk Hosz).
  change SLAB_HEADER_SIZE with 16. rewrite !u32_small; [done| |]; unfold is_u32; nia.
Qed.

(** The free list of a new slab: all the indices, in order. *)
Lemma fwords_fresh m h n : forall i,
  0 <= i <= n -> (forall j, i <= j < n -> m !! word_at h j = Some (j + 1)) ->
  m !! word_at h n = Some SLAB_FREE_END -> fwords m h n (seqZ i (n - i)).
Proof.
  intros i Hi. remember (Z.to_nat (n - i)) as d eqn:Hd. revert i Hi Hd.
  induction d as [|d IH]; intros i Hi Hd Hw He.
  - replace (n - i) with 0 by lia. done.
  - rewrite seqZ_cons by lia. simpl. rewrite Hw by lia.
    replace (Z.pred (n - i)) with (n - Z.succ i) by lia. split.
    + destruct (Z.eq_dec (i + 1) n) as [<-|].
      * replace (i + 1 - Z.succ i) with 0 by lia. done.
      * rewrite seqZ_cons by lia. done.
    + apply IH; [lia|lia| |done]. intros j Hj. apply Hw. lia.
Qed.

Lemma free_rep_fresh m h n :
  0 <= n -> (forall j, 0 <= j < n -> m !! word_at h j = Some (j + 1)) ->
  m !! word_at h n = Some SLAB_FREE_END -> free_rep m h n (seqZ 0 n).
Proof.
  intros Hn Hw He. split_and!.
  - apply NoDup_seqZ.
  - intros j Hj. apply elem_of_seqZ in Hj. lia.
  - replace n with (n - 0) at 2 by lia. apply fwords_fresh; [lia|done|done].
  - intros j Hj. destruct (Z.eq_dec j n) as [->|]; [eauto|]. rewrite Hw by lia. eauto.
Qed.

Lemma slab_new_run s A k osz r i x :
  cfg_ok k osz -> slab_size r = slab_bytes k -> object_size r = osz ->
  pa_alloc (slab_bytes k) (mem s) = Ok (i, x) -> pa_inv x (<[i := k]> A) ->
  let h := base i in
  exists cs, slab_new r s =
      Ok (h, setW cs (setH (<[h := SlabHeader None (word_at h 0) (word_at h (nobj k osz + 1))]>
                              (headers s)) (setM x s))) /\
    free_rep cs h (nobj k osz) (seqZ 0 (nobj k osz)) /\
    forall a, ~ (h <= a < h + slab_bytes k) -> cs !! a = cells s !! a.
Proof.
  intros Hcfg Hs Ho Ea HP h. pose proof Hcfg as (Hk & Hosz & _ & Hn).
  unfold slab_new. rewrite (max_object_num_eq r k osz) by done. rewrite Hs.
  mrun (lift_ok _ _ _ _ Ea). set (s1 := setM x s).
  assert (Ead : lift (pa_address i) s1 = Ok (h, s1)).
  { apply lift_read. eapply pa_address_spec; [done|apply lookup_insert_eq|].
    apply in_block_start. lia. }
  mrun Ead. unfold put_header, put_cell. erewrite (bind_ok (modify _)) by reflexivity.
  erewrite (bind_ok (upd_header h _)); [|apply upd_header_ok; apply lookup_insert_eq].
  erewrite (bind_ok (get_header h)); [|apply get_header_ok; apply lookup_insert_eq].
  erewrite (bind_ok (upd_header h _)); [|apply upd_header_ok; apply lookup_insert_eq].
  cbn [with_free with_object sh_free sh_next sh_object].
  match goal with |- context [bind (fill_free ?n ?f 0) _ ?st] =>
    destruct (fill_free_ok n f 0 st) as (cs & E & Hin & Hout) end.
  mrun E. rewrite Z2Nat.id in Hin, Hout by lia.
  exists (<[word_at h (nobj k osz) := SLAB_FREE_END]> cs). split_and!.
  - unfold bind, modify, ret. do 2 f_equal. unfold setW, setH, s1, setM. simpl. f_equal.
    rewrite !insert_insert_eq. unfold word_at. rewrite !Z.mul_0_r, !Z.add_0_r. done.
  - apply free_rep_fresh; [lia| |apply lookup_insert_eq].
    intros j Hj. rewrite lookup_insert_ne by (intros E'%word_at_inj; lia). by apply Hin.
  - intros a Ha. rewrite lookup_insert_ne, Hout; [done| |].
    + intros j Hj ->. apply Ha. by apply (word_inside k osz h j); [..|lia].
    + intros <-. apply Ha. by apply (word_inside k osz); [..|lia].
Qed.

Lemma fresh_block A i k :
  0 <= k -> (forall j l, A !! j = Some l -> disjoint_blocks i k j l) ->
  (forall l, A !! i = Some l -> 0 <= l) -> A !! i = None.
Proof.
  intros Hk Hd Hl. destruct (A !! i) as [l|] eqn:E; [|done].
  destruct (Hd i l E i); apply in_block_start; [done|by apply Hl].
Qed.

(** A slab lies in an allocated block. *)
Lemma slab_block s A C G h c fl :
  slab_inv s A C G -> G !! h = Some (c, fl) ->
  exists i k, h = base i /\ A !! i = Some k.
Proof.
  intros HI HG. destruct (si_slabs _ _ _ _ HI _ _ _ HG) as (k & osz & _ & (i & nx & H1 & H2 & _)).
  eauto.
Qed.

(** The cache and its slab after [slab_new]: the partial list was empty. *)
Lemma cache_rep_refill s s' G c k osz r h x j fl :
  cache_rep s G c k osz -> caches s !! c = Some r -> slabs_partial r = None ->
  G !! h = None -> sh_next x = None ->
  caches s' !! c = Some (with_partial (Some h) r) -> headers s' = <[h := x]> (headers s) ->
  cache_rep s' (<[h := (c, j :: fl)]> G) c k osz.
Proof.
  intros (r' & full & partial & Hr & Hs & Ho & Hcf & Hcp & Hnf & Hnp & Hf & Hp)
    Hr' Hph HG Hx Hc Hh.
  rewrite Hr in Hr'. injection Hr' as ->. rewrite Hph in Hcp.
  destruct partial as [|? ?]; [|by destruct Hcp as [[=] _]].
  assert (Hnf' : h ∉ full) by (rewrite Hf; congruence).
  eexists _, full, [h]. rewrite Hc, Hh. split_and!; try done.
  - by apply chain_insert_notin.
  - simpl. split; [done|]. exists x. by rewrite lookup_insert_eq.
  - apply NoDup_singleton.
  - intros h'. rewrite Hf. destruct (decide (h = h')) as [<-|].
    + rewrite lookup_insert_eq. split; intros; congruence.
    + by rewrite lookup_insert_ne.
  - intros h'. destruct (decide (h = h')) as [<-|].
    + rewrite lookup_insert_eq. set_solver.
    + rewrite lookup_insert_ne, <- Hp by done. set_solver.
Qed.

Lemma slab_refill_spec s A C G c k osz r :
  slab_inv s A C G -> C !! c = Some (k, osz) ->
  caches s !! c = Some r -> slabs_partial r = None ->
  let refill := (let* a := slab_new r in do* upd_cache c (with_partial (Some a)) in ret a) in
  (refill s = Err Halt /\ ~ fits A k) \/
  exists i s', refill s = Ok (base i, s') /\ A !! i = None /\ G !! base i = None /\
    slab_inv s' (<[i := k]> A) C (<[base i := (c, seqZ 0 (nobj k osz))]> G) /\
    exists r', caches s' !! c = Some r' /\ slabs_partial r' = Some (base i).
Proof.
  intros HI Hc Hr Hph. simpl. destruct (si_caches _ _ _ _ HI _ _ _ Hc) as [Hcfg Hrep].
  pose proof Hcfg as (Hk & Hosz & _ & Hn).
  pose proof Hrep as (r' & full & partial & Hr' & Hs & Ho & _).
  rewrite Hr in Hr'. injection Hr' as <-. pose proof (si_pages _ _ _ _ HI) as HP.
  destruct (pa_alloc_spec _ _ _ k HP (order_for_slab k Hk)) as [(i & x & Ea & HP' & Hd)|[Ea Hf]].
  2: { left. split; [|done]. apply bind_err. unfold slab_new. rewrite Hs.
       apply bind_err. by apply lift_err. }
  right. destruct (slab_new_run s A k osz r i x Hcfg Hs Ho Ea HP') as (cs & E & Hfr & Hout).
  assert (HAi : A !! i = None).
  { eapply fresh_block; [|done|]; [lia|]. intros l Hl. apply (pa_block _ _ _ _ HP Hl). }
  assert (HGi : G !! base i = None).
  { destruct (G !! base i) as [[c' fl']|] eqn:EG; [|done].
    destruct (slab_block _ _ _ _ _ _ _ HI EG) as (i' & k' & ->%base_inj & ?). congruence. }
  assert (HGne : forall h v, G !! h = Some v -> h <> base i) by (intros h v Hv ->; congruence).
  mrun E. set (s1 := setW cs _). assert (Hr1 : caches s1 !! c = Some r) by done.
  mrun (upd_cache_ok _ _ _ (with_partial (Some (base i))) Hr1).
  eexists i, _. split; [reflexivity|]. split_and!; [done|done| |].
  2: { eexists. split; [apply lookup_insert_eq|done]. }
  split; [exact HP'| | | | |apply HI].
  - intros j Hj. destruct (decide (i = j)) as [->|]; [by rewrite lookup_insert_eq; eauto|].
    rewrite lookup_insert_ne by done. by apply HI.
  - intros c' k' osz' Hc'. destruct (si_caches _ _ _ _ HI _ _ _ Hc') as [Hcfg' Hrep'].
    split; [done|]. destruct (decide (c' = c)) as [->|Hne].
    + rewrite Hc in Hc'. injection Hc' as <- <-. rewrite seqZ_cons by lia.
      eapply (cache_rep_refill s); [done|done|done|done| |apply lookup_insert_eq|reflexivity]. done.
    + eapply cache_rep_frame; [done| | |].
      * simpl. by rewrite lookup_insert_ne.
      * intros h fl Hh. simpl. rewrite lookup_insert_ne; [done|]. by apply not_eq_sym, (HGne _ _ Hh).
      * intros h fl. destruct (decide (h = base i)) as [->|].
        -- rewrite lookup_insert_eq, HGi. split; intros; congruence.
        -- by rewrite lookup_insert_ne.
  - intros h c' fl Hh. destruct (decide (h = base i)) as [->|Hne].
    + rewrite lookup_insert_eq in Hh. injection Hh as <- <-. exists k, osz. split; [done|].
      exists i, None. rewrite lookup_insert_eq. simpl. split_and!; [done|done| |done|].
      * rewrite lookup_insert_eq. by rewrite seqZ_cons by lia.
      * intros [l Hl]%(si_client _ _ _ _ HI). congruence.
    + rewrite lookup_insert_ne in Hh by done.
      destruct (si_slabs _ _ _ _ HI _ _ _ Hh) as (k' & osz' & Hc' & Hok').
      destruct (si_caches _ _ _ _ HI _ _ _ Hc') as [(Hk' & Ho' & _ & Hn') _].
      exists k', osz'. split; [done|]. pose proof Hok' as (i' & nx' & Hh' & HA' & _).
      eapply slab_ok_frame; [done|lia| | |].
      * intros i0 E0 HA0. rewrite lookup_insert_ne; [done|]. congruence.
      * intros y Hy. exists (sh_next y). simpl. rewrite lookup_insert_ne, Hy by done. by destruct y.
      * intros j Hj. simpl. apply Hout. intros Hin.
        apply (blocks_apart i k i' k' (word_at h j) (word_at h j)); try done; [by apply (Hd i' k')|lia|lia|].
        subst h. by apply (word_inside k' osz').
  - eapply (desc_ok_frame s _ A _ C G _ c); [apply HI|eauto|done| |].
    + intros c' Hne. simpl. by rewrite lookup_insert_ne.
    + intros j HA HG. assert (j <> i) by congruence.
      rewrite !lookup_insert_ne by (congruence || (intros ?%base_inj; congruence)). done.
Qed.

(** ** Live objects *)
Lemma object_at_range s A C G c k osz h fl j :
  slab_inv s A C G -> C !! c = Some (k, osz) -> G !! h = Some (c, fl) ->
  0 <= j < nobj k osz ->
  h < object_at h k osz j /\ object_at h k osz j + osz <= h + slab_bytes k.
Proof.
  intros HI Hc HG Hj. destruct (si_caches _ _ _ _ HI _ _ _ Hc) as [(Hk & Ho & _ & Hn) _].
  pose proof (object_inside k osz h j Hk Ho Hj) as [H1 H2].
  pose proof (word_inside k osz h (nobj k osz) Hk Ho). lia.
Qed.

(** Objects of different indices or slabs do not overlap. *)
Lemma objects_apart s A C G c k osz h fl j c' k' osz' h' fl' j' :
  slab_inv s A C G ->
  C !! c = Some (k, osz) -> G !! h = Some (c, fl) -> 0 <= j < nobj k osz ->
  C !! c' = Some (k', osz') -> G !! h' = Some (c', fl') -> 0 <= j' < nobj k' osz' ->
  (h, j) <> (h', j') ->
  object_at h k osz j + osz <= object_at h' k' osz' j' \/
  object_at h' k' osz' j' + osz' <= object_at h k osz j.
Proof.
  intros HI Hc HG Hj Hc' HG' Hj' Hne.
  destruct (slab_inv_slab _ _ _ _ _ _ _ _ _ HI HG Hc) as ((Hk & Ho & _) & _ & Hok).
  destruct (slab_inv_slab _ _ _ _ _ _ _ _ _ HI HG' Hc') as ((Hk' & Ho' & _) & _ & Hok').
  pose proof (object_at_range _ _ _ _ _ _ _ _ _ _ HI Hc HG Hj).
  pose proof (object_at_range _ _ _ _ _ _ _ _ _ _ HI Hc' HG' Hj').
  destruct (decide (h = h')) as [<-|Hh].
  - rewrite HG in HG'. injection HG' as <- <-. rewrite Hc in Hc'. injection Hc' as <- <-.
    assert (j <> j') by congruence. unfold object_at. nia.
  - pose proof (slab_apart _ _ _ _ _ _ _ _ _ _
      (Z.max (object_at h k osz j) (object_at h' k' osz' j'))
      (Z.max (object_at h k osz j) (object_at h' k' osz' j'))
      (si_pages _ _ _ _ HI) Hok Hok' Hh) as Ha. lia.
Qed.

Lemma object_at_inj s A C G c k osz h fl j c' k' osz' h' fl' j' :
  slab_inv s A C G ->
  C !! c = Some (k, osz) -> G !! h = Some (c, fl) -> 0 <= j < nobj k osz ->
  C !! c' = Some (k', osz') -> G !! h' = Some (c', fl') -> 0 <= j' < nobj k' osz' ->
  object_at h k osz j = object_at h' k' osz' j' -> h = h' /\ j = j'.
Proof.
  intros HI Hc HG Hj Hc' HG' Hj' E.
  destruct (si_caches _ _ _ _ HI _ _ _ Hc) as [(_ & Ho & _) _].
  destruct (si_caches _ _ _ _ HI _ _ _ Hc') as [(_ & Ho' & _) _].
  destruct (decide ((h, j) = (h', j'))) as [[= ? ?]|Hne]; [done|].
  pose proof (objects_apart _ _ _ _ _ _ _ _ _ _ _ _ _ _ _ _ HI Hc HG Hj Hc' HG' Hj' Hne). lia.
Qed.

(** What changing the free list of one slab does to the live objects. *)
Lemma live_step C G h c k osz fl fl' c' a :
  G !! h = Some (c, fl) -> C !! c = Some (k, osz) ->
  live C (<[h := (c, fl')]> G) c' a <->
  (exists h' g k' osz' j, h' <> h /\ G !! h' = Some (c', g) /\ C !! c' = Some (k', osz') /\
     0 <= j < nobj k' osz' /\ j ∉ g /\ a = object_at h' k' osz' j) \/
  (c' = c /\ exists j, 0 <= j < nobj k osz /\ j ∉ fl' /\ a = object_at h k osz j).
Proof.
  intros HG Hc. unfold live. split.
  - intros (h' & g & k' & osz' & j & HG' & Hc' & Hj & Hng & ->).
    destruct (decide (h = h')) as [<-|Hne].
    + rewrite lookup_insert_eq in HG'. injection HG' as <- <-. rewrite Hc in Hc'.
      injection Hc' as <- <-. right. eauto.
    + rewrite lookup_insert_ne in HG' by done. left. eauto 12.
  - intros [(h' & g & k' & osz' & j & Hne & HG' & Hc' & Hj & Hng & ->)|(-> & j & Hj & Hng & ->)].
    + exists h', g, k', osz', j. by rewrite lookup_insert_ne.
    + exists h, fl', k, osz, j. by rewrite lookup_insert_eq.
Qed.

Lemma live_same C G h c k osz fl c' a :
  G !! h = Some (c, fl) -> C !! c = Some (k, osz) ->
  live C G c' a <->
  (exists h' g k' osz' j, h' <> h /\ G !! h' = Some (c', g) /\ C !! c' = Some (k', osz') /\
     0 <= j < nobj k' osz' /\ j ∉ g /\ a = object_at h' k' osz' j) \/
  (c' = c /\ exists j, 0 <= j < nobj k osz /\ j ∉ fl /\ a = object_at h k osz j).
Proof.
  intros HG Hc. rewrite <- (live_step C G h c k osz fl fl c' a HG Hc).
  by rewrite insert_id.
Qed.

Lemma live_pop C G h c k osz j fl c' a :
  G !! h = Some (c, j :: fl) -> C !! c = Some (k, osz) -> 0 <= j < nobj k osz -> j ∉ fl ->
  live C (<[h := (c, fl)]> G) c' a <-> live C G c' a \/ (c' = c /\ a = object_at h k osz j).
Proof.
  intros HG Hc Hj Hni. rewrite (live_step _ _ _ _ _ _ _ _ _ _ HG Hc).
  rewrite (live_same C G h c k osz _ c' a HG Hc). split.
  - intros [H|(-> & i & Hi & Hni' & ->)]; [by left; left|].
    destruct (decide (i = j)) as [->|]; [by right|]. left. right. split; [done|].
    exists i. set_solver.
  - intros [[H|(-> & i & Hi & Hni' & ->)]|[-> ->]]; [by left| |]; right; split; try done.
    + exists i. set_solver.
    + eauto.
Qed.

Lemma not_live_free s A C G h c k osz j fl c' :
  slab_inv s A C G -> G !! h = Some (c, fl) -> C !! c = Some (k, osz) ->
  0 <= j < nobj k osz -> j ∈ fl -> ~ live C G c' (object_at h k osz j).
Proof.
  intros HI HG Hc Hj Hin (h' & fl' & k' & osz' & j' & HG' & Hc' & Hj' & Hni & E).
  destruct (object_at_inj _ _ _ _ _ _ _ _ _ _ _ _ _ _ _ _ HI Hc HG Hj Hc' HG' Hj' E) as [<- <-].
  congruence.
Qed.

Lemma live_fresh C G h c k osz c' a :
  G !! h = None -> C !! c = Some (k, osz) ->
  live C (<[h := (c, seqZ 0 (nobj k osz))]> G) c' a <-> live C G c' a.
Proof.
  intros HG Hc. split; intros (h' & g & k' & osz' & j & HG' & Hc' & Hj & Hng & ->).
  - destruct (decide (h = h')) as [<-|Hne].
    + rewrite lookup_insert_eq in HG'. injection HG' as <- <-. rewrite Hc in Hc'.
      injection Hc' as <- <-. destruct Hng. apply elem_of_seqZ. lia.
    + rewrite lookup_insert_ne in HG' by done. exists h', g, k', osz', j. done.
  - exists h', g, k', osz', j. rewrite lookup_insert_ne; [done|]. congruence.
Qed.

Lemma slab_cache_alloc_spec s A C G c k osz :
  slab_inv s A C G -> C !! c = Some (k, osz) ->
  (exists a s' A' G', slab_cache_alloc c s = Ok (a, s') /\ slab_inv s' A' C G' /\
     (A' = A \/ exists i, A !! i = None /\ A' = <[i := k]> A) /\
     (forall c', ~ live C G c' a) /\
     (forall c' x, live C G' c' x <-> live C G c' x \/ (c' = c /\ x = a))) \/
  (slab_cache_alloc c s = Err Halt /\ ~ fits A k /\
     forall h fl, G !! h = Some (c, fl) -> fl = []).
Proof.
  intros HI Hc. destruct (si_caches _ _ _ _ HI _ _ _ Hc) as [Hcfg Hrep].
  pose proof Hrep as (r & full & partial & Hr & Hs & Ho & Hcf & Hcp & Hnf & Hnp & Hf & Hp).
  rewrite slab_cache_alloc_eq. mrun (get_cache_ok _ _ _ Hr).
  destruct (slabs_partial r) as [h|] eqn:Hph.
  - left. destruct (alloc_from_spec _ _ _ _ _ _ _ _ _ HI Hc Hr Hph)
      as (j & fl & s' & HG & Hj & Hni & E & HI').
    exists (object_at h k osz j), s', A, (<[h := (c, fl)]> G).
    split_and!; [by mrun (eq_refl (ret h s))|done|by left| |].
    + intros c'. eapply not_live_free; [done|done|done|done|set_solver].
    + intros c' x. by apply live_pop.
  - destruct (slab_refill_spec _ _ _ _ _ _ _ _ HI Hc Hr Hph)
      as [[E Hfit]|(i & s1 & E & HA & HG & HI1 & r1 & Hr1 & Hph1)].
    + right. split; [by apply bind_err|]. split; [done|]. intros h fl HG.
      destruct fl as [|j fl]; [done|]. assert (Hin : h ∈ partial) by (apply Hp; eauto).
      destruct partial; [set_solver|]. by destruct Hcp as [[=] _].
    + left. mrun E. destruct (alloc_from_spec _ _ _ _ _ _ _ _ _ HI1 Hc Hr1 Hph1)
        as (j & fl & s' & HG' & Hj & Hni & E' & HI').
      eexists _, s', _, _. split_and!; [exact E'|exact HI'|by right; eauto| |].
      * intros c' Hl. rewrite <- live_fresh in Hl by done. revert Hl.
        eapply not_live_free; [done|done|done|done|set_solver].
      * intros c' x. rewrite (live_pop _ _ _ _ k osz j) by done. by rewrite live_fresh.
Qed.

(** ** Release *)
Lemma full_length s A C G c (l : list Z) :
  slab_inv s A C G -> NoDup l -> (forall h, h ∈ l -> exists fl, G !! h = Some (c, fl)) ->
  (length l <= Z.to_nat PAGE_NUM)%nat.
Proof.
  intros HI Hnd Hl. replace (Z.to_nat PAGE_NUM) with (length (base <$> seqZ 0 PAGE_NUM))
    by (rewrite length_fmap, length_seqZ; done).
  apply submseteq_length, NoDup_submseteq; [done|]. intros h Hh.
  destruct (Hl h Hh) as [fl HG]. destruct (slab_block _ _ _ _ _ _ _ HI HG) as (i & k & -> & HA).
  destruct (pa_block _ _ _ _ (si_pages _ _ _ _ HI) HA) as (? & ? & ? & _).
  apply list_elem_of_fmap. exists i. split; [done|]. apply elem_of_seqZ.
  pose proof (pow2_pos k ltac:(lia)). lia.
Qed.

Definition pred_hcell (hp : hcell) (l : list Z) : hcell :=
  match last l with Some a => NextOf a | None => hp end.

Lemma unfull_loop_run c h x l2 s : headers s !! h = Some x ->
  forall l1 fuel hp cur,
  lchain sh_next (headers s) cur (l1 ++ h :: l2) -> h ∉ l1 -> (length l1 < fuel)%nat ->
  unfull_loop fuel c h hp cur s =
    (do* write_hcell c (pred_hcell hp l1) (sh_next x) in
     let* r := get_cache c in
     do* upd_header h (with_next (slabs_partial r)) in
     upd_cache c (with_partial (Some h))) s.
Proof.
  intros Hx l1. induction l1 as [|a l1 IH]; intros fuel hp cur Hc Hni Hfu;
    (destruct fuel as [|fuel]; [simpl in Hfu; lia|]).
  - destruct Hc as [-> (y & Hy & Hc)]. simpl. mrun (get_header_ok _ _ _ Hx).
    by rewrite Z.eqb_refl.
  - destruct Hc as [-> (y & Hy & Hc)]. simpl. mrun (get_header_ok _ _ _ Hy).
    replace (a =? h) with false by (symmetry; apply Z.eqb_neq; set_solver).
    rewrite (IH fuel (NextOf a) (sh_next y)); [|done|set_solver|simpl in Hfu; lia].
    unfold pred_hcell. simpl. destruct l1 as [|b l1]; [done|]. simpl.
    by destruct (last_is_Some (b :: l1)) as [_ [z ->]].
Qed.

(** The full list without the slab [h]: its predecessor's pointer is written. *)
Lemma unlink_full s c r h x l1 l2 :
  caches s !! c = Some r -> headers s !! h = Some x ->
  lchain sh_next (headers s) (slabs_full r) (l1 ++ h :: l2) -> NoDup (l1 ++ h :: l2) ->
  exists s' f, write_hcell c (pred_hcell FullCell l1) (sh_next x) s = Ok (tt, s') /\
    mem s' = mem s /\ cells s' = cells s /\ free_cache_head s' = free_cache_head s /\
    slab_size_limits s' = slab_size_limits s /\
    caches s' = <[c := with_full f r]> (caches s) /\
    lchain sh_next (headers s') f (l1 ++ l2) /\
    (forall h', h' ∉ l1 -> headers s' !! h' = headers s !! h') /\
    (forall h' y, headers s !! h' = Some y -> exists nx, headers s' !! h' = Some (with_next nx y)).
Proof.
  intros Hr Hx Hc Hnd. unfold pred_hcell.
  induction l1 as [|y l1' _] using rev_ind.
  - destruct Hc as [_ (y & Hy & Hc)]. rewrite Hx in Hy. injection Hy as <-.
    eexists _, (sh_next x). split; [simpl; by apply upd_cache_ok|].
    split_and!; try done. intros h' [nx ? ?] Hy. exists nx. done.
  - rewrite last_snoc. rewrite <- app_assoc in Hc, Hnd. simpl in Hc, Hnd.
    destruct (chain_app _ _ _ _ _ _ Hc) as (py & Hpy & _).
    eexists _, (slabs_full r). split; [simpl; by apply upd_header_ok|]. split_and!; try done.
    + simpl. rewrite insert_id; [done|]. rewrite Hr. by destruct r.
    + rewrite <- app_assoc. by eapply chain_bypass.
    + intros h' Hn. simpl. rewrite lookup_insert_ne; [done|]. set_solver.
    + intros h' z Hz. simpl. destruct (decide (y = h')) as [<-|].
      * rewrite lookup_insert_eq. rewrite Hpy in Hz. injection Hz as <-. eauto.
      * rewrite lookup_insert_ne, Hz by done. exists (sh_next z). by destruct z.
Qed.

(** The slab [h] goes from the full list to the partial list. *)
Lemma unfull_spec s G c k osz r h x j fuel :
  cache_rep s G c k osz -> caches s !! c = Some r -> headers s !! h = Some x ->
  G !! h = Some (c, []) ->
  (forall l, NoDup l -> (forall h, h ∈ l -> exists fl, G !! h = Some (c, fl)) ->
     (length l <= fuel)%nat) ->
  exists s', unfull_loop fuel c h FullCell (slabs_full r) s = Ok (tt, s') /\
    cache_rep s' (<[h := (c, [j])]> G) c k osz /\
    mem s' = mem s /\ cells s' = cells s /\ free_cache_head s' = free_cache_head s /\
    slab_size_limits s' = slab_size_limits s /\
    (forall c', c' <> c -> caches s' !! c' = caches s !! c') /\
    (forall h', h' <> h -> G !! h' <> Some (c, []) -> headers s' !! h' = headers s !! h') /\
    (forall h' y, headers s !! h' = Some y -> exists nx, headers s' !! h' = Some (with_next nx y)).
Proof.
  intros (r' & full & partial & Hr & Hs & Ho & Hcf & Hcp & Hnf & Hnp & Hf & Hp) Hr' Hx HG Hfu.
  rewrite Hr in Hr'. injection Hr' as ->. specialize (Hfu full Hnf ltac:(intros ? ?%Hf; eauto)).
  assert (Hin : h ∈ full) by (by apply Hf).
  assert (Hap : forall h', h' ∈ full -> h' ∉ partial).
  { intros h' H1%Hf (? & ? & H2)%Hp. congruence. }
  apply list_elem_of_split in Hin as (l1 & l2 & ->). rewrite length_app in Hfu. simpl in Hfu.
  pose proof Hnf as Hnf0. apply NoDup_app in Hnf0 as (_ & Hd & Hnd2).
  assert (Hhn : h ∉ l1) by set_solver. apply NoDup_cons in Hnd2 as [Hh2 _].
  rewrite (unfull_loop_run c h x l2 s Hx l1 fuel FullCell) by (done || lia).
  destruct (unlink_full s c r h x l1 l2 Hr Hx Hcf Hnf)
    as (s1 & f & E & Em & Ew & Ef & El & Ec & Hch & Hout & Hnx). mrun E.
  assert (Hr1 : caches s1 !! c = Some (with_full f r)) by (rewrite Ec; apply lookup_insert_eq).
  mrun (get_cache_ok _ _ _ Hr1). cbn [slabs_partial with_full].
  assert (Hx1 : headers s1 !! h = Some x) by (by rewrite Hout).
  mrun (upd_header_ok _ _ _ (with_next (slabs_partial r)) Hx1).
  erewrite upd_cache_ok by done. eexists. split; [reflexivity|]. simpl. rewrite Em, Ew, Ef, El.
  split_and!; try done.
  - eexists _, (l1 ++ l2), (h :: partial). simpl. rewrite lookup_insert_eq. split_and!; try done.
    + apply chain_insert_notin; [set_solver|done].
    + eexists. split; [apply lookup_insert_eq|]. simpl.
      apply chain_insert_notin; [set_solver|]. eapply chain_agree; [|done].
      intros h' Hh'. apply Hout. set_solver.
    + apply NoDup_app in Hnf as (? & ? & Hnd2). apply NoDup_cons in Hnd2 as [? ?].
      apply NoDup_app. split_and!; [done|set_solver|done].
    + apply NoDup_cons. split; [apply Hap; set_solver|done].
    + intros h'. destruct (decide (h = h')) as [<-|].
      * rewrite lookup_insert_eq. set_solver.
      * rewrite lookup_insert_ne, <- Hf by done. set_solver.
    + intros h'. destruct (decide (h = h')) as [<-|].
      * rewrite lookup_insert_eq. set_solver.
      * rewrite lookup_insert_ne, <- Hp by done. set_solver.
  - intros c' Hne. rewrite lookup_insert_ne by done. rewrite Ec. by rewrite lookup_insert_ne.
  - intros h' Hne HG'. rewrite lookup_insert_ne by done. apply Hout. rewrite <- Hf in HG'. set_solver.
  - intros h' y Hy. destruct (decide (h = h')) as [<-|].
    + rewrite lookup_insert_eq. rewrite Hx in Hy. injection Hy as <-. eauto.
    + rewrite lookup_insert_ne by done. by apply Hnx.
Qed.

(** [slab_cache_free] finds the slab and the index of an object. *)
Lemma free_locate s A h k osz fl j :
  pa_inv (mem s) A -> cfg_ok k osz -> slab_ok s A h k osz fl -> 0 <= j < nobj k osz ->
  exists i y, page_find_by_address (object_at h k osz j) = Some y /\
    lift (pa_find_head y) s = Ok (Some i, s) /\ lift (pa_address i) s = Ok (h, s) /\
    u32 (object_at h k osz j - word_at h (nobj k osz + 1)) / osz = j.
Proof.
  intros HP (Hk & Ho & _ & Hn) (i & nx & -> & HA & _) Hj.
  destruct (pa_block _ _ _ _ HP HA) as (_ & Hi & Hi2 & _).
  destruct (object_inside k osz (base i) j Hk Ho Hj) as [H1 H2].
  pose proof (word_inside k osz (base i) (nobj k osz) Hk Ho) as H3.
  destruct (address_page i k (object_at (base i) k osz j - base i)) as [E Hb]; [lia..|].
  replace (base i + (object_at (base i) k osz j - base i)) with (object_at (base i) k osz j)
    in E by lia.
  eexists i, _. split; [exact E|]. split_and!.
  - apply lift_read. by eapply pa_find_head_spec.
  - apply lift_read. eapply pa_address_spec; [done|done|]. apply in_block_start. lia.
  - unfold object_at. replace (_ + osz * j - _) with (j * osz) by lia.
    pose proof (slab_bytes_bound k Hk). pose proof (nobj_bound k osz Hk Ho).
    rewrite u32_small by (unfold is_u32; nia). apply Z.div_mul. lia.
Qed.

Lemma live_push s A C G h c k osz j fl c' a :
  slab_inv s A C G ->
  G !! h = Some (c, fl) -> C !! c = Some (k, osz) -> 0 <= j < nobj k osz -> j ∉ fl ->
  live C (<[h := (c, j :: fl)]> G) c' a <-> live C G c' a /\ a <> object_at h k osz j.
Proof.
  intros HI HG Hc Hj Hni. rewrite (live_step _ _ _ _ _ _ _ _ _ _ HG Hc).
  rewrite (live_same C G h c k osz _ c' a HG Hc). split.
  - intros [(h' & g & k' & osz' & j' & Hne & HG' & Hc' & Hj' & Hng & ->)|(-> & i & Hi & Hni' & ->)].
    + split; [left; eauto 12|]. intros E.
      by destruct (object_at_inj _ _ _ _ _ _ _ _ _ _ _ _ _ _ _ _ HI Hc' HG' Hj' Hc HG Hj E).
    + split; [right; split; [done|]; exists i; set_solver|]. intros E.
      destruct (object_at_inj _ _ _ _ _ _ _ _ _ _ _ _ _ _ _ _ HI Hc HG Hi Hc HG Hj E). set_solver.
  - intros [[H|(-> & i & Hi & Hni' & ->)] Hne]; [by left|]. right. split; [done|]. exists i.
    split; [done|]. split; [|done]. intros [->|?]%elem_of_cons; done.
Qed.

(** What [slab_cache_free] does once the slab and the index are known. *)
Lemma free_tail_spec s A C G h c k osz fl j s2 x :
  slab_inv s A C G -> G !! h = Some (c, fl) -> C !! c = Some (k, osz) ->
  0 <= j < nobj k osz -> j ∉ fl -> headers s !! h = Some x ->
  s2 = setH (<[h := with_free (word_at h j) x]> (headers s))
         (setW (<[word_at h j := fhead (nobj k osz) fl]> (cells s)) s) ->
  exists s', (let* w := get_cell (word_at h (fhead (nobj k osz) fl)) in
    if w =? SLAB_FREE_END then
      let* c' := get_cache c in
      unfull_loop (Z.to_nat PAGE_NUM) c h FullCell (slabs_full c')
    else ret tt) s2 = Ok (tt, s') /\ slab_inv s' A C (<[h := (c, j :: fl)]> G).
Proof.
  intros HI HG Hc Hj Hni Hx ->. set (s2 := setH _ _).
  destruct (slab_inv_slab _ _ _ _ _ _ _ _ _ HI HG Hc) as (Hcfg & Hrep & Hok).
  pose proof Hcfg as (Hk & Ho & _ & Hn). pose proof (nobj_bound k osz Hk Ho) as [Hnb _].
  pose proof Hok as (i & nx & Hh & HA & Hx' & Hfr & HU).
  pose proof (free_rep_push _ _ _ _ _ Hfr Hj Hni) as Hfr2.
  pose proof Hfr2 as (_ & Hrg & [_ Hfw] & _).
  destruct (fwords_head _ _ _ _ Hfw) as (w & Hw & Hend);
    [set_solver|unfold SLAB_FREE_END; lia|].
  rewrite Hx in Hx'. injection Hx' as Ex.
  change (<[_ := _]> (cells s)) with (cells s2) in Hw. mrun (get_cell_ok _ _ _ Hw).
  assert (Hx2 : headers s2 !! h = Some (with_free (word_at h j) x)) by apply lookup_insert_eq.
  assert (Hok2 : forall s', (exists y, headers s' !! h = Some (with_next y (with_free (word_at h j) x))) ->
    cells s' = cells s2 -> slab_ok s' A h k osz (j :: fl)).
  { intros s' (y & Hy) Hcs. exists i, y. split_and!; [done|done| |by rewrite Hcs|done].
    by rewrite Hy, Ex. }
  destruct (Z.eqb_spec w SLAB_FREE_END) as [->|Hwe].
  - assert (fl = []) as -> by (by apply Hend).
    pose proof Hrep as (r & full & partial & Hr & Hs & Hos & Hcf & Hcp & Hnf & Hnp & Hf & Hp).
    assert (Hrep2 : cache_rep s2 G c k osz).
    { exists r, full, partial. simpl. split_and!; try done; by eapply chain_insert_same. }
    assert (Hr2 : caches s2 !! c = Some r) by done. mrun (get_cache_ok _ _ _ Hr2).
    destruct (unfull_spec s2 G c k osz r h _ j (Z.to_nat PAGE_NUM) Hrep2 Hr2 Hx2 HG)
      as (s' & E & Hrep' & Em & Ew & Ef & El & Hca & Hhd & Hnx).
    { intros l. by eapply full_length. }
    exists s'. split; [done|].
    eapply (slab_inv_step s s' A C G h c k osz [] [j] j (nobj k osz)); try done;
      [lia| |by apply Hok2, Ew; apply Hnx].
    intros h' c' fl' Hne HG'. destruct (decide (c' = c)).
    + intros y Hy. apply Hnx. simpl. by rewrite lookup_insert_ne.
    + rewrite Hhd; [|done|congruence]. simpl. by rewrite lookup_insert_ne.
  - exists s2. split; [done|].
    eapply (slab_inv_step s s2 A C G h c k osz fl (j :: fl) j); try done; [lia| | |].
    + intros h' c' fl' Hne HG'. simpl. rewrite lookup_insert_ne by done.
      destruct (decide (c' = c)); [|done]. intros y Hy. exists (sh_next y). rewrite Hy. by destruct y.
    + eapply cache_rep_stay; try done. intros ->. by apply Hwe, Hend.
    + apply Hok2; [|done]. exists (sh_next x). rewrite Hx2. by destruct x.
Qed.

Lemma slab_cache_free_spec s A C G c a :
  slab_inv s A C G -> live C G c a ->
  exists s' G', slab_cache_free c a s = Ok (tt, s') /\ slab_inv s' A C G' /\
    forall c' x, live C G' c' x <-> live C G c' x /\ x <> a.
Proof.
  intros HI (h & fl & k & osz & j & HG & Hc & Hj & Hni & ->).
  destruct (slab_inv_slab _ _ _ _ _ _ _ _ _ HI HG Hc) as (Hcfg & Hrep & Hok).
  pose proof Hcfg as (Hk & Ho & _ & Hn). pose proof (nobj_bound k osz Hk Ho) as [Hnb _].
  destruct (free_locate s A h k osz fl j (si_pages _ _ _ _ HI) Hcfg Hok Hj)
    as (i & y & E1 & E2 & E3 & Eidx).
  pose proof Hrep as (r & full & partial & Hr & Hs & Hos & _).
  pose proof Hok as (i' & nx & Hh & HA & Hx & Hfr & HU).
  assert (Hhd : 0 <= fhead (nobj k osz) fl <= nobj k osz).
  { destruct Hfr as (_ & Hrg & _). destruct fl as [|j' fl]; simpl; [lia|].
    specialize (Hrg j' ltac:(set_solver)). lia. }
  unfold slab_cache_free. rewrite E1. rewrite (bind_ok _ _ _ _ _ (eq_refl (ret y s))).
  mrun E2. rewrite (bind_ok _ _ _ _ _ (eq_refl (ret i s))). mrun E3.
  mrun (get_header_ok _ _ _ Hx). mrun (get_cache_ok _ _ _ Hr).
  cbn [sh_object sh_free]. rewrite Hos, Eidx, free_index_word by lia.
  mrun (set_cell_ok s _ (fhead (nobj k osz) fl) (proj2 (proj2 (proj2 Hfr)) j ltac:(lia))).
  set (x := SlabHeader nx _ _) in *. set (s1 := setW _ s).
  change (h + sizeof_slab_header + 4 * j) with (word_at h j).
  mrun (upd_header_ok s1 _ _ (with_free (word_at h j)) Hx).
  destruct (free_tail_spec s A C G h c k osz fl j _ x HI HG Hc Hj Hni Hx eq_refl)
    as (s' & E & HI').
  exists s', (<[h := (c, j :: fl)]> G). split; [exact E|]. split; [done|].
  intros c' z. by eapply live_push.
Qed.
End SlabProofs.
