(* ===== verification/SlabCaches.v ===== *)
(** * The object allocator: caches

    Creation and destruction of the caches of [slab.c], and the properties of
    the whole allocator.  They are proved over the interface [PageAllocator];
    the witnesses run them over [buddy.c]. *)

From stdpp Require Import base numbers list gmap.
From S2P Require Import Prelude Buddy BuddyGeometry BuddyProofs PageAlloc Slab SlabProofs.

#[local] Open Scope Z_scope.
#[local] Open Scope kernel_scope.

Section SlabCaches.
Context {S : Type} `{PA : PageAllocator S} {U : gset Z}.
Notation state := (slabs S).
Notation slab_inv := (slab_inv (U := U)).
Notation slab_ok := (slab_ok (U := U)).
Notation desc_rep := (desc_rep (U := U)).
Notation desc_ok := (desc_ok (U := U)).
Implicit Types (s : state) (A : gmap Z Z) (C : gmap Z (Z * Z)) (G : gmap Z (Z * list Z)).

(** ** Creation *)

(** [seqZ] over the array of descriptors is never unfolded. *)
#[local] Opaque seqZ.

Lemma slab_cache_init_spec s A :
  pa_inv (mem s) A -> (forall i, i ∈ U -> is_Some (A !! i)) ->
  exists s', slab_cache_init s = Ok (tt, s') /\ slab_inv s' A ∅ ∅ /\ mem s' = mem s.
Proof.
  intros HP HU. eexists. split; [reflexivity|]. split; [|done]. split; [done|done| | | |done].
  - intros c k osz. by rewrite lookup_empty.
  - intros h c fl. by rewrite lookup_empty.
  - exists ∅, []. split_and!; [set_solver|done|constructor|set_solver|].
    intros c. rewrite lookup_empty. by intros [? [=]].
Qed.

(** The array of descriptors of a new page. *)
Definition nth_desc (b j : Z) : Z := b + sizeof_slab_cache * j.

Lemma nth_desc_inj b j j' : nth_desc b j = nth_desc b j' -> j = j'.
Proof. unfold nth_desc. change sizeof_slab_cache with 52. lia. Qed.

Lemma zero_caches_ok b n : forall i s,
  exists cs, zero_caches n b i s = Ok (tt, setC cs s) /\
    (forall j, i <= j < i + Z.of_nat n -> cs !! nth_desc b j = Some zero_cache) /\
    forall a, (forall j, i <= j < i + Z.of_nat n -> a <> nth_desc b j) ->
      cs !! a = caches s !! a.
Proof.
  induction n as [|n IH]; intros i s.
  - exists (caches s). split; [by destruct s|]. split; [lia|done].
  - destruct (IH (i + 1) (setC (<[nth_desc b i := zero_cache]> (caches s)) s))
      as (cs & E & Hin & Hout).
    exists cs. split; [exact E|]. split.
    + intros j Hj. destruct (Z.eq_dec j i) as [->|]; [|apply Hin; lia].
      rewrite Hout; [apply lookup_insert_eq|]. intros j Hj' ?%nth_desc_inj. lia.
    + intros a Ha. rewrite Hout by (intros j Hj; apply Ha; lia). simpl.
      rewrite lookup_insert_ne; [done|]. intros <-. by apply (Ha i); [lia|].
Qed.

Lemma link_caches_ok b n : forall i s,
  (forall j, i <= j <= i + Z.of_nat n -> caches s !! nth_desc b j = Some zero_cache) ->
  exists cs, link_caches n b i s = Ok (tt, setC cs s) /\
    (forall j, i <= j < i + Z.of_nat n ->
       cs !! nth_desc b j = Some (with_cnext (Some (nth_desc b (j + 1))) zero_cache)) /\
    cs !! nth_desc b (i + Z.of_nat n) = Some zero_cache /\
    forall a, (forall j, i <= j < i + Z.of_nat n -> a <> nth_desc b j) ->
      cs !! a = caches s !! a.
Proof.
  induction n as [|n IH]; intros i s Hz.
  - exists (caches s). split; [by destruct s|]. split; [lia|]. split; [|done].
    apply Hz. lia.
  - pose proof (Hz i ltac:(lia)) as Hi. cbn [link_caches].
    mrun (upd_cache_ok _ _ _ (with_cnext (Some (nth_desc b (i + 1)))) Hi).
    match goal with |- context [link_caches n b (i + 1) ?st] =>
      destruct (IH (i + 1) st) as (cs & E & Hin & Hlast & Hout) end.
    { intros j Hj. simpl. rewrite lookup_insert_ne by (intros ?%nth_desc_inj; lia).
      apply Hz. lia. }
    exists cs. split; [exact E|]. split_and!.
    + intros j Hj. destruct (Z.eq_dec j i) as [->|]; [|apply Hin; lia].
      rewrite Hout; [apply lookup_insert_eq|]. intros j Hj' ?%nth_desc_inj. lia.
    + by replace (i + Z.of_nat (Datatypes.S n)) with (i + 1 + Z.of_nat n) by lia.
    + intros a Ha. rewrite Hout by (intros j Hj; apply Ha; lia). simpl.
      rewrite lookup_insert_ne; [done|]. intros <-. by apply (Ha i); [lia|].
Qed.

(** A chain through the array, from the descriptor [i] on. *)
Lemma array_chain (m : gmap Z slab_cache) b n : forall i,
  (forall j, i <= j < i + Z.of_nat n ->
     m !! nth_desc b j = Some (with_cnext (Some (nth_desc b (j + 1))) zero_cache)) ->
  m !! nth_desc b (i + Z.of_nat n) = Some zero_cache ->
  lchain sc_next m (Some (nth_desc b i)) (nth_desc b <$> seqZ i (Z.of_nat n + 1)).
Proof.
  induction n as [|n IH]; intros i Hin Hlast; rewrite seqZ_cons by lia; simpl.
  - split; [done|]. rewrite Z.add_0_r in Hlast. exists zero_cache. split; [done|].
    by rewrite seqZ_nil by done.
  - split; [done|]. eexists. split; [apply Hin; lia|]. simpl.
    replace (Z.pred (Z.of_nat (Datatypes.S n) + 1)) with (Z.of_nat n + 1) by lia.
    apply (IH (i + 1)).
    + intros j Hj. apply Hin. lia.
    + by replace (i + 1 + Z.of_nat n) with (i + Z.of_nat (Datatypes.S n)) by lia.
Qed.

(** A change that concerns no existing cache. *)
Lemma slab_inv_desc s s' A A' C G :
  slab_inv s A C G -> pa_inv (mem s') A' -> A ⊆ A' ->
  headers s' = headers s -> cells s' = cells s -> slab_size_limits s' = slab_size_limits s ->
  (forall c, is_Some (C !! c) -> caches s' !! c = caches s !! c) ->
  desc_ok s' A' C G -> slab_inv s' A' C G.
Proof.
  intros HI HP HA Hh Hw Hl Hc Hd. split; [done| | | |done|by rewrite Hl; apply HI].
  - intros i [l Hi]%(si_client _ _ _ _ HI). exists l. by eapply lookup_weaken.
  - intros c k osz HC. destruct (si_caches _ _ _ _ HI _ _ _ HC) as [Hcfg Hrep].
    split; [done|]. eapply cache_rep_frame; [done|apply Hc; eauto| |done].
    intros h fl _. by rewrite Hh.
  - intros h c fl HG. destruct (si_slabs _ _ _ _ HI _ _ _ HG) as (k & osz & HC & Hok).
    destruct (si_caches _ _ _ _ HI _ _ _ HC) as [(? & ? & ? & ?) _].
    exists k, osz. split; [done|]. eapply slab_ok_frame; [done|lia| | |].
    + intros i _ Hi. by eapply lookup_weaken.
    + intros x Hx. exists (sh_next x). rewrite Hh, Hx. by destruct x.
    + intros j _. by rewrite Hw.
Qed.

Lemma desc_apart (D : gset Z) c i j :
  desc_in D c -> i ∉ D -> 0 <= j < caches_per_page -> c <> nth_desc (base i) j.
Proof.
  intros (i' & j' & Hi' & Hj' & ->) Hi Hj E. unfold nth_desc in E.
  assert (i' <> i) by (by intros ->).
  change caches_per_page with 78 in *. change sizeof_slab_cache with 52 in *. sconst. lia.
Qed.

Lemma desc_refill_spec s A C G :
  slab_inv s A C G -> free_cache_head s = None ->
  let refill :=
    (let* pg := lift (pa_alloc PAGE_SIZE) in
     let* cache := lift (pa_address pg) in
     do* zero_caches (Z.to_nat caches_per_page) cache 0 in
     do* link_caches (Z.to_nat (caches_per_page - 1)) cache 0 in
     set_free_cache_head (Some cache)) in
  (refill s = Err Halt /\ ~ fits A 0) \/
  exists i s', refill s = Ok (tt, s') /\ A !! i = None /\
    slab_inv s' (<[i := 0]> A) C G /\ free_cache_head s' = Some (base i).
Proof.
  intros HI Hnone refill. unfold refill. clear refill. assert (Hcpp : caches_per_page = 78) by done.
  pose proof (si_pages _ _ _ _ HI) as HP.
  destruct (pa_alloc_spec _ _ _ 0 HP order_for_page) as [(i & x & Ea & HP' & Hd)|[Ea Hf]].
  2: { left. split; [|done]. apply bind_err. by apply lift_err. }
  right. assert (HAi : A !! i = None).
  { eapply fresh_block; [|done|]; [lia|]. intros l Hl. apply (pa_block _ _ _ _ HP Hl). }
  mrun (lift_ok _ _ _ _ Ea).
  assert (Ead : lift (pa_address i) (setM x s) = Ok (base i, setM x s)).
  { apply lift_read. eapply pa_address_spec; [done|apply lookup_insert_eq|].
    apply in_block_start. lia. }
  mrun Ead.
  destruct (zero_caches_ok (base i) (Z.to_nat caches_per_page) 0 (setM x s)) as (cs & E & Hin & Hout).
  mrun E.
  destruct (link_caches_ok (base i) (Z.to_nat (caches_per_page - 1)) 0 (setC cs (setM x s)))
    as (cs' & E' & Hin' & Hlast & Hout').
  { intros j Hj. apply Hin. lia. }
  mrun E'. clear E E'. eexists i, _. split; [reflexivity|]. split_and!; [done| |done].
  destruct (si_desc _ _ _ _ HI) as (D & F & HD & HF & Hnd & Hfree & HinD).
  assert (HiD : i ∉ D) by (intros [? _]%HD; congruence).
  assert (HGi : G !! base i = None).
  { destruct (G !! base i) as [[c' fl']|] eqn:EG; [|done].
    destruct (slab_block _ _ _ _ _ _ _ HI EG) as (i' & k' & ->%base_inj & ?). congruence. }
  eapply (slab_inv_desc s); [done|exact HP'|by apply insert_subseteq|done|done|done| |].
  - intros c Hc. simpl. pose proof (HinD c Hc) as Hdc.
    rewrite Hout', Hout; [done| |]; intros j Hj; (eapply desc_apart; [done|done|]);
      lia.
  - exists ({[i]} ∪ D), (nth_desc (base i) <$> seqZ 0 (Z.of_nat (Z.to_nat (caches_per_page - 1)) + 1)).
    split_and!.
    + intros i' [->%elem_of_singleton|Hi']%elem_of_union.
      * rewrite lookup_insert_eq. split_and!; [done|done|].
        intros [l Hl]%(si_client _ _ _ _ HI). congruence.
      * destruct (HD i' Hi') as (? & ? & ?). rewrite lookup_insert_ne by (by intros ->). done.
    + cbn [caches free_cache_head setC]. replace (base i) with (nth_desc (base i) 0) at 1
        by (unfold nth_desc; lia). apply array_chain; [exact Hin'|exact Hlast].
    + apply NoDup_fmap_2_strong; [|apply NoDup_seqZ]. intros ? ? _ _. apply nth_desc_inj.
    + intros c (j & -> & Hj%elem_of_seqZ)%list_elem_of_fmap.
      split_and!.
      * destruct (C !! nth_desc (base i) j) eqn:EC; [|done].
        destruct (desc_apart D _ i j (HinD _ ltac:(eauto)) HiD); [|done].
        lia.
      * exists i, j. split; [set_solver|]. split; [lia|done].
      * destruct (Z.eq_dec j 77) as [->|]; [exists None; by replace 77 with (0 + Z.of_nat (Z.to_nat (caches_per_page - 1))) by lia|].
        eexists. apply Hin'. lia.
    + intros c Hc. destruct (HinD c Hc) as (i' & j' & ? & ? & ?). exists i', j'. set_solver.
Qed.

(** The descriptor [c] has been taken off the free list. *)
Definition reserved s A C G (c : Z) : Prop :=
  C !! c = None /\ caches s !! c = Some zero_cache /\
  exists D F, desc_rep D F s A C G /\ c ∉ F /\ desc_in D c.

Lemma desc_take_spec s A C G c :
  slab_inv s A C G -> free_cache_head s = Some c ->
  let take :=
    (let* head := gets free_cache_head in
     let* cache := opt Fault head in
     let* r := get_cache cache in
     do* set_free_cache_head (sc_next r) in
     do* upd_cache cache (with_cnext None) in
     ret cache) in
  exists s', take s = Ok (c, s') /\ slab_inv s' A C G /\ reserved s' A C G c.
Proof.
  intros HI Hhead take. destruct (si_desc _ _ _ _ HI) as (D & F & HD & HF & Hnd & Hfree & HinD).
  rewrite Hhead in HF. destruct F as [|c' F]; [done|].
  destruct HF as [[= <-] (r & Hr & HF)]. apply NoDup_cons in Hnd as [Hni Hnd].
  destruct (Hfree c ltac:(set_solver)) as (HC & Hdin & nx & Hz).
  unfold take. rewrite (bind_ok (gets free_cache_head) _ _ (Some c) s) by (unfold gets; by rewrite Hhead).
  rewrite (bind_ok (opt Fault (Some c)) _ _ c s) by done. mrun (get_cache_ok _ _ _ Hr).
  unfold set_free_cache_head. erewrite (bind_ok (modify _)) by reflexivity.
  erewrite (bind_ok (upd_cache c _)); [|apply upd_cache_ok; exact Hr].
  eexists. split; [reflexivity|]. set (s' := setC _ _).
  assert (Hne : forall c', c' <> c -> caches s' !! c' = caches s !! c').
  { intros c' Hc'. simpl. by rewrite lookup_insert_ne. }
  assert (Hrep : desc_rep D F s' A C G).
  { split_and!; [done| |done| |done].
    - simpl. by apply chain_insert_notin.
    - intros c' Hc'. destruct (Hfree c' ltac:(set_solver)) as (? & ? & ?).
      split_and!; [done|done|]. rewrite Hne; [done|]. set_solver. }
  split.
  - eapply (slab_inv_desc s); [done|apply HI|done|done|done|done| |by exists D, F].
    intros c' [v Hv]. apply Hne. congruence.
  - split_and!; [done| |by exists D, F]. simpl. rewrite lookup_insert_eq.
    rewrite Hz in Hr. injection Hr as <-. done.
Qed.

Lemma slab_cache_new_spec s A C G :
  slab_inv s A C G ->
  (slab_cache_new s = Err Halt /\ ~ fits A 0) \/
  exists c s' A', slab_cache_new s = Ok (c, s') /\
    (A' = A \/ exists i, A !! i = None /\ A' = <[i := 0]> A) /\
    slab_inv s' A' C G /\ reserved s' A' C G c.
Proof.
  intros HI. unfold slab_cache_new. rewrite (bind_ok (gets free_cache_head) _ _ _ s) by reflexivity.
  destruct (free_cache_head s) as [c|] eqn:Hhead.
  - right. rewrite (bind_ok (ret tt) _ _ tt s) by done.
    destruct (desc_take_spec _ _ _ _ _ HI Hhead) as (s' & E & HI' & Hr).
    exists c, s', A. split_and!; [exact E|by left|done|done].
  - destruct (desc_refill_spec _ _ _ _ HI Hhead) as [[E Hf]|(i & s1 & E & HA & HI1 & Hh1)].
    + left. split; [|done]. by apply bind_err.
    + right. rewrite (bind_ok _ _ _ _ _ E).
      destruct (desc_take_spec _ _ _ _ _ HI1 Hh1) as (s' & E' & HI' & Hr).
      exists (base i), s', (<[i := 0]> A). split_and!; [exact E'|by right; eauto|done|done].
Qed.

(** A reserved descriptor may be written: nothing else refers to it. *)
Lemma reserved_write s A C G c r :
  slab_inv s A C G -> reserved s A C G c ->
  slab_inv (setC (<[c := r]> (caches s)) s) A C G.
Proof.
  intros HI (HC & Hz & D & F & (HD & HF & Hnd & Hfree & HinD) & Hni & Hdin).
  eapply (slab_inv_desc s); [done|apply HI|done|done|done|done| |].
  - intros c' [v Hv]. simpl. rewrite lookup_insert_ne; [done|]. congruence.
  - exists D, F. split_and!; [done|by apply chain_insert_notin|done| |done].
    intros c' Hc'. destruct (Hfree c' Hc') as (? & ? & ?). split_and!; [done|done|].
    simpl. rewrite lookup_insert_ne; [done|]. set_solver.
Qed.

(** ... and becomes a cache without slabs. *)
Lemma reserved_cache s A C G c r k osz :
  slab_inv s A C G -> reserved s A C G c -> cfg_ok k osz ->
  slab_size r = slab_bytes k -> object_size r = osz ->
  slabs_full r = None -> slabs_partial r = None ->
  slab_inv (setC (<[c := r]> (caches s)) s) A (<[c := (k, osz)]> C) G.
Proof.
  intros HI HR Hcfg Hs Ho Hf Hp. pose proof (reserved_write _ _ _ _ _ r HI HR) as HI'.
  destruct HR as (HC & Hz & D & F & (HD & HF & Hnd & Hfree & HinD) & Hni & Hdin).
  assert (HG : forall h fl, G !! h <> Some (c, fl)).
  { intros h fl Hh. destruct (si_slabs _ _ _ _ HI _ _ _ Hh) as (? & ? & ? & _). congruence. }
  split; [apply HI'|apply HI'| | | |apply HI'].
  - intros c' k' osz'. destruct (decide (c = c')) as [<-|].
    + rewrite lookup_insert_eq. intros [= <- <-]. split; [done|].
      exists r, [], []. simpl. rewrite lookup_insert_eq. split_and!; try done; try constructor.
      * set_solver.
      * by intros ?%HG.
      * set_solver.
      * by intros (? & ? & ?%HG).
    + rewrite lookup_insert_ne by done. apply HI'.
  - intros h c' fl Hh. destruct (si_slabs _ _ _ _ HI' _ _ _ Hh) as (k' & osz' & HC' & Hok).
    exists k', osz'. rewrite lookup_insert_ne; [done|]. congruence.
  - exists D, F. split_and!; [done|by apply chain_insert_notin|done| |].
    + intros c' Hc'. destruct (Hfree c' Hc') as (? & ? & ?).
      assert (c <> c') by set_solver. split_and!; [by rewrite lookup_insert_ne|done|].
      simpl. by rewrite lookup_insert_ne.
    + intros c'. destruct (decide (c = c')) as [<-|]; [done|].
      rewrite lookup_insert_ne by done. apply HinD.
Qed.

(** ** Sizes *)

(** The object size rounded up to a word. *)
Definition round4 (size : Z) : Z := (size + 3) / 4 * 4.

Lemma round4_spec size :
  0 < size <= 2 ^ 32 - 4 -> Z.land (u32 (size + 0x3)) (not32 0x3) = round4 size.
Proof.
  intros Hs. rewrite (u32_small (size + 3)) by (unfold is_u32; lia).
  transitivity (Z.ldiff (size + 3) (Z.ones 2)).
  - apply u32_bits_inj.
    + apply is_u32_land. unfold is_u32. lia.
    + apply is_u32_bits; [apply Z.ldiff_nonneg; lia|]. intros i Hi.
      rewrite Z.ldiff_spec, u32_testbit_high; [done|unfold is_u32; lia|lia].
    + intros i Hi. rewrite Z.land_spec, Z.ldiff_spec, testbit_not32 by lia.
      replace (i <? 32) with true by (symmetry; apply Z.ltb_lt; lia). done.
  - rewrite Z.ldiff_ones_r, Z.shiftl_mul_pow2, Z.shiftr_div_pow2 by lia. done.
Qed.

Lemma round4_bounds size :
  0 < size <= 2 ^ 32 - 4 ->
  (4 | round4 size) /\ size <= round4 size < size + 4 /\ 0 < round4 size < 2 ^ 32.
Proof.
  intros Hs. unfold round4. pose proof (Z.div_mod (size + 3) 4 ltac:(lia)).
  pose proof (Z.mod_pos_bound (size + 3) 4 ltac:(lia)).
  split; [by eexists|]. split; [lia|]. split; [lia|].
  assert ((size + 3) / 4 * 4 <= 2 ^ 32 - 4); [|lia].
  assert ((size + 3) / 4 < 2 ^ 30); [|lia]. apply Z.div_lt_upper_bound; lia.
Qed.

(** The precomputed limits say exactly when eight objects fit. *)
Lemma limit_iff k osz :
  0 <= k <= PAGE_MAX_ORDER -> 0 < osz -> (4 | osz) ->
  osz <= slab_size_limit k <-> 8 <= nobj k osz.
Proof.
  intros Hk Ho [q Hq]. pose proof (slab_bytes_bound k Hk) as Hb.
  assert (slab_bytes k = 8 * (512 * 2 ^ k)) as E
    by (unfold slab_bytes; change PAGE_SIZE with 4096; lia).
  unfold slab_size_limit. rewrite Z.shiftl_1_l. change (PAGE_SIZE * 2 ^ k) with (slab_bytes k).
  rewrite (u32_small (slab_bytes k)) by (unfold is_u32; lia).
  replace (slab_bytes k / 8) with (512 * 2 ^ k)
    by (rewrite E, (Z.mul_comm 8), Z.div_mul; lia).
  change (SLAB_HEADER_SIZE / 8 + 1) with 3. rewrite u32_small by (unfold is_u32; lia).
  unfold nobj. change SLAB_HEADER_SIZE with 16. rewrite E. split; intros H.
  - apply Z.div_le_lower_bound; lia.
  - assert (8 * (osz + 4) <= 8 * (512 * 2 ^ k) - 16); [|].
    { etransitivity; [|apply (Z.mul_div_le _ (osz + 4)); lia].
      rewrite Z.mul_comm. apply Z.mul_le_mono_nonneg_l; [lia|done]. }
    assert (512 * 2 ^ k = 4 * (128 * 2 ^ k)) by lia. lia.
Qed.

Lemma limit_search_spec size n : forall i,
  match limit_search (slab_size_limit <$> seqZ i (Z.of_nat n)) i size with
  | Some k => i <= k < i + Z.of_nat n /\ size <= slab_size_limit k /\
      forall l, i <= l < k -> ~ size <= slab_size_limit l
  | None => forall l, i <= l < i + Z.of_nat n -> ~ size <= slab_size_limit l
  end.
Proof.
  induction n as [|n IH]; intros i.
  - rewrite seqZ_nil by lia. simpl. intros l Hl. lia.
  - rewrite seqZ_cons by lia. simpl limit_search.
    replace (Z.pred (Z.of_nat (Datatypes.S n))) with (Z.of_nat n) by lia.
    destruct (Z.leb_spec size (slab_size_limit i)).
    + split_and!; [lia|lia|done|]. intros l Hl. lia.
    + specialize (IH (i + 1)). change (Z.succ i) with (i + 1).
      destruct (limit_search _ (i + 1) size).
      * destruct IH as (? & ? & IH). split_and!; [lia|lia|done|]. intros l Hl.
        destruct (Z.eq_dec l i) as [->|]; [lia|]. apply IH. lia.
      * intros l Hl. destruct (Z.eq_dec l i) as [->|]; [lia|]. apply IH. lia.
Qed.

(** The order a cache gets: the smallest whose slab holds eight objects. *)
Definition least_order (osz k : Z) : Prop :=
  0 <= k <= PAGE_MAX_ORDER /\ 8 <= nobj k osz /\ forall l, 0 <= l < k -> nobj l osz < 8.

Lemma limit_search_least osz :
  0 < osz -> (4 | osz) ->
  match limit_search (slab_size_limit <$> seqZ 0 PAGE_MAX_DEPTH) 0 osz with
  | Some k => least_order osz k
  | None => forall k, 0 <= k <= PAGE_MAX_ORDER -> nobj k osz < 8
  end.
Proof.
  intros Ho H4. pose proof (limit_search_spec osz (Z.to_nat PAGE_MAX_DEPTH) 0) as H.
  rewrite Z2Nat.id in H by done. destruct (limit_search _ 0 osz) as [k|].
  - destruct H as (Hk & Hl & Hmin).
    assert (0 <= k <= PAGE_MAX_ORDER) by (bconst; lia). split_and!; [lia|lia| |].
    + by apply limit_iff.
    + intros l Hl'. destruct (Z.lt_ge_cases (nobj l osz) 8) as [|Hge]; [done|].
      destruct (Hmin l Hl'). apply limit_iff; [lia|done|done|lia].
  - intros k Hk. destruct (Z.lt_ge_cases (nobj k osz) 8) as [|Hge]; [done|].
    destruct (H k); [bconst; lia|]. by apply limit_iff.
Qed.

Lemma slab_bytes_shift k :
  0 <= k <= PAGE_MAX_ORDER -> u32 (PAGE_SIZE * Z.shiftl 1 k) = slab_bytes k.
Proof.
  intros Hk. rewrite Z.shiftl_1_l. apply u32_small. pose proof (slab_bytes_bound k Hk).
  unfold slab_bytes in *. unfold is_u32. lia.
Qed.

Lemma live_new_cache s A C G c v c' x :
  slab_inv s A C G -> C !! c = None -> live (<[c := v]> C) G c' x <-> live C G c' x.
Proof.
  intros HI HC. split; intros (h & fl & k & osz & j & HG & Hc & Hj & Hn & ->);
    exists h, fl, k, osz, j; (split; [done|]; split; [|done]);
    destruct (si_slabs _ _ _ _ HI _ _ _ HG) as (k' & osz' & HC' & _);
    [rewrite lookup_insert_ne in Hc by congruence | rewrite lookup_insert_ne by congruence]; done.
Qed.

(** The descriptor [slab_cache_create] fills, when an order was found. *)
Definition filled_cache (name : list Z) (osz : Z) (k : option Z) : slab_cache :=
  SlabCache (name ++ [0] ++ drop (length name + 1) (replicate 32 0)) None
    (match k with Some k => slab_bytes k | None => 0 end) osz None None.

Lemma create_run s c name size :
  0 < size <= 2 ^ 32 - 4 -> caches s !! c = Some zero_cache ->
  slab_size_limits s = slab_size_limit <$> seqZ 0 PAGE_MAX_DEPTH ->
  let osz := round4 size in
  let k := limit_search (slab_size_limit <$> seqZ 0 PAGE_MAX_DEPTH) 0 osz in
  (do* upd_cache c (fun r => with_name (name ++ [0] ++ drop (length name + 1) (sc_name r)) r) in
   do* upd_cache c (with_object_size (Z.land (u32 (size + 0x3)) (not32 0x3))) in
   let* r := get_cache c in
   let* limits := gets slab_size_limits in
   do* match limit_search limits 0 (object_size r) with
       | Some i => upd_cache c (with_slab_size (u32 (PAGE_SIZE * Z.shiftl 1 i)))
       | None => ret tt
       end in
   let* r := get_cache c in
   if negb (truthy (slab_size r)) then ret None else ret (Some c)) s =
  Ok (match k with Some _ => Some c | None => None end,
      setC (<[c := filled_cache name osz k]> (caches s)) s).
Proof.
  intros Hs Hz Hl osz k. destruct (round4_bounds size Hs) as (H4 & _ & Ho & _).
  pose proof (limit_search_least osz Ho H4) as Hleast.
  erewrite (bind_ok (upd_cache c _)); [|by apply upd_cache_ok].
  erewrite (bind_ok (upd_cache c _)); [|apply upd_cache_ok; apply lookup_insert_eq].
  erewrite (bind_ok (get_cache c)); [|apply get_cache_ok; apply lookup_insert_eq].
  rewrite (round4_spec size Hs). cbn [object_size with_object_size with_name].
  erewrite (bind_ok (gets _)) by reflexivity. cbn [slab_size_limits setC]. rewrite Hl.
  fold osz. fold k in Hleast |- *. clearbody k. destruct k as [k|].
  - destruct Hleast as [Hk _]. rewrite (slab_bytes_shift k Hk).
    erewrite (bind_ok (upd_cache c _)); [|apply upd_cache_ok; apply lookup_insert_eq].
    erewrite (bind_ok (get_cache c)); [|apply get_cache_ok; apply lookup_insert_eq].
    cbn [slab_size with_slab_size]. pose proof (slab_bytes_bound k Hk).
    replace (truthy (slab_bytes k)) with true by (symmetry; apply truthy_true; lia).
    unfold ret, setC. cbn [negb mem headers cells caches free_cache_head slab_size_limits].
    by rewrite !insert_insert_eq.
  - erewrite (bind_ok (ret tt) _ _ tt) by reflexivity.
    erewrite (bind_ok (get_cache c)); [|apply get_cache_ok; apply lookup_insert_eq].
    unfold ret, setC. cbn [mem headers cells caches free_cache_head slab_size_limits].
    by rewrite !insert_insert_eq.
Qed.

Lemma slab_cache_create_spec s A C G name size :
  slab_inv s A C G -> 0 < size <= 2 ^ 32 - 4 -> Z.of_nat (length name) < MAX_SLAB_NAME ->
  let osz := round4 size in
  (slab_cache_create name size s = Err Halt /\ ~ fits A 0) \/
  exists o s' A', slab_cache_create name size s = Ok (o, s') /\
    (A' = A \/ exists i, A !! i = None /\ A' = <[i := 0]> A) /\
    match o with
    | Some c => C !! c = None /\ exists k, least_order osz k /\
        slab_inv s' A' (<[c := (k, osz)]> C) G /\
        forall c' x, live (<[c := (k, osz)]> C) G c' x <-> live C G c' x
    | None => slab_inv s' A' C G /\ forall k, 0 <= k <= PAGE_MAX_ORDER -> nobj k osz < 8
    end.
Proof.
  intros HI Hs Hname osz. unfold slab_cache_create.
  replace (truthy size) with true by (symmetry; apply truthy_true; lia).
  replace (MAX_SLAB_NAME <=? Z.of_nat (length name)) with false by (symmetry; apply Z.leb_gt; lia).
  change (negb true) with false. cbv iota.
  destruct (slab_cache_new_spec _ _ _ _ HI) as [[E Hf]|(c & s1 & A' & E & HA' & HI1 & HR)].
  { left. split; [|done]. by apply bind_err. }
  right. mrun E. destruct HR as (HC & Hz & HR).
  rewrite (create_run s1 c name size Hs Hz (si_limits _ _ _ _ HI1)). fold osz.
  destruct (round4_bounds size Hs) as (H4 & _ & Ho & _).
  pose proof (limit_search_least osz Ho H4) as Hleast.
  destruct (limit_search _ 0 osz) as [k|].
  - eexists _, _, A'. split; [reflexivity|]. split; [done|]. split; [done|]. exists k.
    split; [done|]. destruct Hleast as (Hk & Hn & _). split.
    + by eapply reserved_cache.
    + intros c' x. by eapply live_new_cache.
  - eexists _, _, A'. split; [reflexivity|]. split; [done|]. split; [|done].
    by eapply reserved_write.
Qed.

(** ** Destruction *)
Lemma destroy_loop_spec l : forall fuel cur s A,
  lchain sh_next (headers s) cur l -> NoDup l -> pa_inv (mem s) A ->
  (forall h, h ∈ l -> exists i k, h = base i /\ A !! i = Some k) -> (length l <= fuel)%nat ->
  exists x A', destroy_loop fuel cur s = Ok (tt, setM x s) /\ pa_inv x A' /\
    forall i, A' !! i = if decide (base i ∈ l) then None else A !! i.
Proof.
  induction l as [|h l IH]; intros fuel cur s A Hc Hnd HP Hl Hf.
  - simpl in Hc. subst cur. exists (mem s), A. split; [by destruct fuel, s|]. split; [done|].
    intros i. rewrite decide_False; [done|]. set_solver.
  - destruct Hc as [-> (x & Hx & Hc)]. destruct fuel as [|fuel]; [simpl in Hf; lia|].
    simpl in Hf. apply NoDup_cons in Hnd as [Hni Hnd].
    destruct (Hl h ltac:(set_solver)) as (i & k & -> & HA).
    destruct (pa_block _ _ _ _ HP HA) as (Hk & Hi & Hi2 & _).
    pose proof (pow2_pos k ltac:(lia)).
    cbn [destroy_loop]. mrun (get_header_ok _ _ _ Hx).
    replace (page_find_by_address (base i)) with (Some i).
    2: { symmetry. unfold base. rewrite <- (Z.add_0_r (PAGE_START + PAGE_SIZE * i)).
         apply page_find_by_address_spec; [lia|]. change PAGE_SIZE with 4096. lia. }
    rewrite (bind_ok (opt Fault (Some i)) _ _ i s) by done.
    destruct (pa_free_spec _ _ _ _ HP HA) as (m & Em & HP').
    mrun (lift_ok _ _ _ _ Em).
    destruct (IH fuel (sh_next x) (setM m s) (delete i A)) as (y & A' & E & HP2 & HA');
      [done|done|done| |lia|].
    { intros h Hh. destruct (Hl h ltac:(set_solver)) as (i' & k' & -> & HA').
      exists i', k'. split; [done|]. rewrite lookup_delete_ne; [done|]. by intros ->. }
    exists y, A'. split; [exact E|]. split; [done|]. intros j. rewrite HA'.
    destruct (decide (i = j)) as [<-|Hne].
    + rewrite (decide_True (P := base i ∈ base i :: l)) by set_solver.
      destruct (decide _); [done|]. apply lookup_delete_eq.
    + rewrite lookup_delete_ne by done. assert (base j <> base i) by (by intros ?%base_inj).
      destruct (decide (base j ∈ l)), (decide (base j ∈ base i :: l)); try done; set_solver.
Qed.

Definition without (c : Z) G : gmap Z (Z * list Z) := filter (fun x => x.2.1 <> c) G.

Lemma without_lookup c G h c' fl :
  without c G !! h = Some (c', fl) <-> G !! h = Some (c', fl) /\ c' <> c.
Proof. unfold without. by rewrite map_lookup_filter_Some. Qed.

Lemma without_none c G h : G !! h = None -> without c G !! h = None.
Proof.
  intros H. destruct (without c G !! h) as [[c' fl]|] eqn:E; [|done].
  apply without_lookup in E as [? _]. congruence.
Qed.

(** The state after the slabs of [c] have been given back and its descriptor
    has been put on the free list. *)
Lemma destroyed_inv s s' A A' C G c k osz :
  slab_inv s A C G -> C !! c = Some (k, osz) -> pa_inv (mem s') A' ->
  (forall i, G !! base i = None \/ (exists c' fl, G !! base i = Some (c', fl) /\ c' <> c) ->
     A' !! i = A !! i) ->
  headers s' = headers s -> cells s' = cells s -> slab_size_limits s' = slab_size_limits s ->
  caches s' = <[c := with_cnext (free_cache_head s) zero_cache]> (caches s) ->
  free_cache_head s' = Some c ->
  slab_inv s' A' (delete c C) (without c G).
Proof.
  intros HI Hc HP HA Hh Hw Hl Hca Hfr. split; [done| | | | |by rewrite Hl; apply HI].
  - intros i Hi. destruct (si_client _ _ _ _ HI i Hi) as [l Hl']. exists l. rewrite HA; [done|].
    destruct (G !! base i) as [[c' fl]|] eqn:HG; [|by left]. exfalso.
    destruct (si_slabs _ _ _ _ HI _ _ _ HG) as (? & ? & _ & (i' & ? & E%base_inj & _ & _ & _ & Hn)).
    by subst i'.
  - intros c' k' osz' [Hne Hc']%lookup_delete_Some.
    destruct (si_caches _ _ _ _ HI _ _ _ Hc') as [Hcfg Hrep]. split; [done|].
    eapply cache_rep_frame; [done|by rewrite Hca, lookup_insert_ne|by rewrite Hh|].
    intros h fl. rewrite without_lookup. naive_solver.
  - intros h c' fl [HG Hne]%without_lookup.
    destruct (si_slabs _ _ _ _ HI _ _ _ HG) as (k' & osz' & Hc' & Hok).
    destruct (si_caches _ _ _ _ HI _ _ _ Hc') as [(? & ? & ? & ?) _].
    exists k', osz'. split; [by rewrite lookup_delete_ne|].
    eapply slab_ok_frame; [done|lia| | |].
    + intros i -> Hi. rewrite HA; [done|]. right. eauto.
    + intros x Hx. exists (sh_next x). rewrite Hh, Hx. by destruct x.
    + intros j _. by rewrite Hw.
  - destruct (si_desc _ _ _ _ HI) as (D & F & HD & HF & Hnd & Hfree & HinD).
    assert (HcF : c ∉ F) by (intros Hin; destruct (Hfree _ Hin); congruence).
    exists D, (c :: F). split_and!.
    + intros i Hi. destruct (HD i Hi) as (? & HG & ?). split_and!; [|by apply without_none|done].
      rewrite HA; [done|]. by left.
    + rewrite Hfr. split; [done|]. rewrite Hca. eexists. split; [apply lookup_insert_eq|].
      by apply chain_insert_notin.
    + by apply NoDup_cons.
    + intros c' [->|Hin]%elem_of_cons.
      * split_and!; [apply lookup_delete_eq|apply HinD; eauto|]. eexists. rewrite Hca.
        apply lookup_insert_eq.
      * destruct (Hfree _ Hin) as (? & ? & ?). assert (c <> c') by (by intros ->).
        split_and!; [by rewrite lookup_delete_ne|done|]. by rewrite Hca, lookup_insert_ne.
    + intros c' [v [_ Hv]%lookup_delete_Some]. apply HinD. eauto.
Qed.

Lemma live_without C G c c' x :
  live (delete c C) (without c G) c' x <-> live C G c' x /\ c' <> c.
Proof.
  split.
  - intros (h & fl & k & osz & j & [HG Hne]%without_lookup & [_ Hc]%lookup_delete_Some & H).
    split; [|done]. by exists h, fl, k, osz, j.
  - intros [(h & fl & k & osz & j & HG & Hc & H) Hne]. exists h, fl, k, osz, j.
    rewrite without_lookup, lookup_delete_ne by done. done.
Qed.

Lemma slab_cache_delete_run s c r :
  caches s !! c = Some r ->
  slab_cache_delete c s =
    Ok (tt, setF (Some c) (setC (<[c := with_cnext (free_cache_head s) zero_cache]> (caches s)) s)).
Proof.
  intros Hr. unfold slab_cache_delete, put_cache. erewrite (bind_ok (modify _)) by reflexivity.
  erewrite (bind_ok (gets _)) by reflexivity.
  erewrite (bind_ok (upd_cache c _)); [|apply upd_cache_ok; apply lookup_insert_eq].
  unfold set_free_cache_head, modify, setF, setC. simpl. by rewrite insert_insert_eq.
Qed.

Lemma slab_cache_destroy_spec s A C G c k osz :
  slab_inv s A C G -> C !! c = Some (k, osz) ->
  exists s' A' G', slab_cache_destroy c s = Ok (tt, s') /\
    slab_inv s' A' (delete c C) G' /\
    (forall i, A' !! i = None <-> A !! i = None \/ exists fl, G !! base i = Some (c, fl)) /\
    (forall i, A' !! i = None \/ A' !! i = A !! i) /\
    (forall c' x, live (delete c C) G' c' x <-> live C G c' x /\ c' <> c).
Proof.
  intros HI Hc. destruct (si_caches _ _ _ _ HI _ _ _ Hc) as [Hcfg Hrep].
  pose proof Hrep as (r & full & partial & Hr & Hs & Ho & Hcf & Hcp & Hnf & Hnp & Hf & Hp).
  assert (Hcase : forall h, (h ∈ full \/ h ∈ partial) <-> exists fl, G !! h = Some (c, fl)).
  { intros h. rewrite Hf, Hp. split; [naive_solver|]. intros [[|j fl] H]; eauto. }
  assert (Hblk : forall h, h ∈ full \/ h ∈ partial -> exists i l, h = base i /\ A !! i = Some l).
  { intros h [fl H]%Hcase. by eapply slab_block. }
  pose proof (full_length s A C G c full HI Hnf (fun h Hh => proj1 (Hcase h) (or_introl Hh))) as Lf.
  pose proof (full_length s A C G c partial HI Hnp (fun h Hh => proj1 (Hcase h) (or_intror Hh))) as Lp.
  destruct (destroy_loop_spec full (Z.to_nat PAGE_NUM) (slabs_full r) s A Hcf Hnf
    (si_pages _ _ _ _ HI) (fun h Hh => Hblk h (or_introl Hh)) Lf) as (x1 & A1 & E1 & HP1 & HA1).
  destruct (destroy_loop_spec partial (Z.to_nat PAGE_NUM) (slabs_partial r) (setM x1 s) A1 Hcp Hnp
    HP1) as (x2 & A2 & E2 & HP2 & HA2); [|done|].
  { intros h Hh. destruct (Hblk h ltac:(by right)) as (i & l & -> & HA). exists i, l.
    split; [done|]. rewrite HA1, decide_False; [done|]. rewrite Hf. apply Hp in Hh as (? & ? & ?). congruence. }
  assert (HA : forall i, A2 !! i = if decide (base i ∈ full \/ base i ∈ partial) then None else A !! i).
  { intros i. rewrite HA2, HA1. destruct (decide (base i ∈ full)), (decide (base i ∈ partial)),
      (decide (base i ∈ full \/ base i ∈ partial)); tauto. }
  unfold slab_cache_destroy. mrun (get_cache_ok _ _ _ Hr). mrun E1.
  mrun (get_cache_ok (setM x1 s) _ _ Hr). mrun E2.
  rewrite (slab_cache_delete_run (setM x2 (setM x1 s)) c r Hr). eexists _, A2, (without c G).
  split; [reflexivity|]. split_and!.
  - eapply (destroyed_inv s); try done. intros i Hi. rewrite HA, decide_False; [done|].
    rewrite Hcase. intros [fl Hfl]. destruct Hi as [Hi|(c0 & fl0 & Hi & Hne)]; congruence.
  - intros i. rewrite HA, <- Hcase. destruct (decide _); tauto.
  - intros i. rewrite HA. destruct (decide _); tauto.
  - intros c' x. apply live_without.
Qed.
End SlabCaches.

(** ** A first state, for the witnesses: [slab_cache_init] over [buddy_init] *)
Definition empty_slabs : slabs buddy := Slabs buddy_init ∅ ∅ ∅ None [].

Lemma fits_one i : fits {[i := 0]} 0.
Proof.
  exists (if decide (i = 0) then 1 else 0). split_and!; try (destruct (decide (i = 0)); bconst; lia).
  - change (2 ^ 0) with 1. apply Z.divide_1_l.
  - intros j l Hj x. apply lookup_singleton_Some in Hj as [<- <-]. unfold in_block.
    change (2 ^ 0) with 1. destruct (decide (i = 0)); lia.
Qed.

Lemma round4_100 : round4 100 = 100.
Proof. reflexivity. Qed.

(** A cache of objects of 100 bytes, created in the first state. *)
Lemma first_cache :
  exists s c s1 A1, slab_cache_init empty_slabs = Ok (tt, s) /\
    slab_cache_create [97] 100 s = Ok (Some c, s1) /\ fits A1 0 /\
    slab_inv (U := ∅) s1 A1 {[c := (0, 100)]} ∅.
Proof.
  destruct (slab_cache_init_spec (PA := buddy_page_allocator) (U := ∅) empty_slabs ∅
    buddy_init_spec (fun i (Hi : i ∈ ∅) => match not_elem_of_empty i Hi with end)) as (s & E & HI & _).
  destruct (slab_cache_create_spec s ∅ ∅ ∅ [97] 100 HI) as [[_ H]|(o & s1 & A1 & E1 & HA & Ho)];
    [lia|done|by destruct H; apply fits_empty; bconst; lia|].
  rewrite round4_100 in Ho. destruct o as [c|].
  - destruct Ho as (_ & k & (Hk & _ & Hmin) & HI1 & _). assert (k = 0) as ->.
    { destruct (Z.eq_dec k 0); [done|]. specialize (Hmin 0 ltac:(lia)). by vm_compute in Hmin. }
    exists s, c, s1, A1. split_and!; [done|done| |done].
    destruct HA as [->|(i & _ & ->)]; [apply fits_empty; bconst; lia|apply fits_one].
  - destruct Ho as [_ Ho]. specialize (Ho 0 ltac:(bconst; lia)). by vm_compute in Ho.
Qed.

(** ** Properties *)

(** C3: [slab_cache_alloc] hands out an object that no client of any cache
    holds, and exactly that object becomes live; the only pages it takes are
    one block of the cache's order.  It halts only when no slab of the cache
    has a free index and the page allocator has no room for a new slab. *)
Theorem slab_cache_alloc_correct {S : Type} `{PageAllocator S} (U : gset Z) (s : slabs S)
    (A : gmap Z Z) (C : gmap Z (Z * Z)) (G : gmap Z (Z * list Z)) (c k osz : Z) :
  slab_inv (U := U) s A C G -> C !! c = Some (k, osz) ->
  (exists a s' A' G', slab_cache_alloc c s = Ok (a, s') /\ slab_inv (U := U) s' A' C G' /\
     (A' = A \/ exists i, A !! i = None /\ A' = <[i := k]> A) /\
     (forall c', ~ live C G c' a) /\
     (forall c' x, live C G' c' x <-> live C G c' x \/ (c' = c /\ x = a))) \/
  (slab_cache_alloc c s = Err Halt /\ ~ fits A k /\
     forall h fl, G !! h = Some (c, fl) -> fl = []).
Proof. apply slab_cache_alloc_spec. Qed.

Theorem slab_cache_alloc_correct_witness :
  exists s c a s', slab_cache_alloc (S := buddy) c s = Ok (a, s').
Proof.
  destruct first_cache as (s & c & s1 & A1 & _ & _ & Hf & HI).
  destruct (slab_cache_alloc_correct ∅ s1 A1 {[c := (0, 100)]} ∅ c 0 100 HI)
    as [(a & s' & _ & _ & E & _)|(_ & Hn & _)].
  - apply lookup_singleton_eq.
  - exists s1, c, a, s'. exact E.
  - by destruct Hn.
Defined.

(** C5: two live objects never overlap, and a live object lies inside one
    allocated block of its cache's order, after the header and the words of the
    slab, at an address aligned on a word. *)
Theorem slab_live_separate {S : Type} `{PageAllocator S} (U : gset Z) (s : slabs S)
    (A : gmap Z Z) (C : gmap Z (Z * Z)) (G : gmap Z (Z * list Z)) (c k osz a c' k' osz' a' : Z) :
  slab_inv (U := U) s A C G -> C !! c = Some (k, osz) -> C !! c' = Some (k', osz') ->
  live C G c a -> live C G c' a' ->
  (a = a' \/ a + osz <= a' \/ a' + osz' <= a) /\ (4 | a) /\
  exists i, A !! i = Some k /\ word_at (base i) (nobj k osz) + 4 <= a /\
    a + osz <= base i + slab_bytes k.
Proof.
  intros HI Hc Hc' (h & fl & k0 & osz0 & j & HG & Hc0 & Hj & _ & ->)
    (h' & fl' & k0' & osz0' & j' & HG' & Hc0' & Hj' & _ & ->).
  rewrite Hc in Hc0. injection Hc0 as <- <-. rewrite Hc' in Hc0'. injection Hc0' as <- <-.
  destruct (slab_inv_slab _ _ _ _ _ _ _ _ _ HI HG Hc)
    as ((Hk & Ho & H4 & _) & _ & (i & nx & -> & HA & _)).
  split_and!.
  - destruct (decide ((base i, j) = (h', j'))) as [[= E1 E2]|Hne].
    + left. subst h' j'. rewrite HG in HG'. injection HG' as -> ->. congruence.
    + right. by eapply objects_apart.
  - unfold object_at. apply Z.divide_add_r; [|by apply Z.divide_mul_l].
    sconst. exists (0x19400000 + 0x400 * i + 3 + (nobj k osz + 1)). lia.
  - exists i. split; [done|]. by apply object_inside.
Qed.

Theorem slab_live_separate_witness :
  exists (s s' : slabs buddy) c a, slab_cache_alloc c s = Ok (a, s') /\ (4 | a) /\
    exists i, word_at (base i) (nobj 0 100) + 4 <= a /\ a + 100 <= base i + slab_bytes 0.
Proof.
  destruct first_cache as (s & c & s1 & A1 & _ & _ & Hf & HI).
  assert (Hc : ({[c := (0, 100)]} : gmap Z (Z * Z)) !! c = Some (0, 100)) by apply lookup_singleton_eq.
  destruct (slab_cache_alloc_spec _ _ _ _ _ _ _ HI Hc)
    as [(a & s2 & A2 & G2 & E2 & HI2 & _ & _ & Hl2)|(_ & Hn & _)]; [|by destruct Hn].
  assert (Hl : live {[c := (0, 100)]} G2 c a) by (apply Hl2; by right).
  destruct (slab_live_separate ∅ s2 A2 {[c := (0, 100)]} G2 c 0 100 a c 0 100 a HI2 Hc Hc Hl Hl)
    as (_ & H4 & i & _ & H1 & H2).
  exists s1, s2, c, a. split; [done|]. split; [done|]. by exists i.
Defined.

(** C4: giving back a live object to its cache always succeeds: the search in
    the full list ends and finds the slab (the "broken slab" halt is dead).
    Exactly that object stops being live, and no page is given back. *)
Theorem slab_cache_free_correct {S : Type} `{PageAllocator S} (U : gset Z) (s : slabs S)
    (A : gmap Z Z) (C : gmap Z (Z * Z)) (G : gmap Z (Z * list Z)) (c a : Z) :
  slab_inv (U := U) s A C G -> live C G c a ->
  exists s' G', slab_cache_free c a s = Ok (tt, s') /\ slab_inv (U := U) s' A C G' /\
    forall c' x, live C G' c' x <-> live C G c' x /\ x <> a.
Proof. apply slab_cache_free_spec. Qed.

Theorem slab_cache_free_correct_witness :
  exists (s s' s'' : slabs buddy) c a, slab_cache_alloc c s = Ok (a, s') /\
    slab_cache_free c a s' = Ok (tt, s'').
Proof.
  destruct first_cache as (s & c & s1 & A1 & _ & _ & Hf & HI).
  assert (Hc : ({[c := (0, 100)]} : gmap Z (Z * Z)) !! c = Some (0, 100)) by apply lookup_singleton_eq.
  destruct (slab_cache_alloc_spec _ _ _ _ _ _ _ HI Hc)
    as [(a & s2 & A2 & G2 & E2 & HI2 & _ & _ & Hl2)|(_ & Hn & _)]; [|by destruct Hn].
  destruct (slab_cache_free_correct ∅ s2 A2 {[c := (0, 100)]} G2 c a HI2) as (s3 & _ & E3 & _).
  - apply Hl2. by right.
  - by exists s1, s2, s3, c, a.
Defined.

(** C6: [slab_cache_create] refuses an empty object and a name of 32
    characters or more, changing nothing.  Otherwise the object size is rounded
    up to a word and the cache gets the smallest order whose slabs hold eight
    objects: it is new, has no live object and leaves those of the other caches
    alone.  [NULL] is returned only when no order holds eight objects, and the
    call halts only when no page is left for its descriptor. *)
Theorem slab_cache_create_correct {S : Type} `{PageAllocator S} (U : gset Z) (s : slabs S)
    (A : gmap Z Z) (C : gmap Z (Z * Z)) (G : gmap Z (Z * list Z)) (name : list Z) (size : Z) :
  slab_inv (U := U) s A C G -> 0 <= size <= 2 ^ 32 - 4 ->
  if decide (size = 0 \/ MAX_SLAB_NAME <= Z.of_nat (length name))
  then slab_cache_create name size s = Ok (None, s)
  else
    (slab_cache_create name size s = Err Halt /\ ~ fits A 0) \/
    exists o s' A', slab_cache_create name size s = Ok (o, s') /\
      (A' = A \/ exists i, A !! i = None /\ A' = <[i := 0]> A) /\
      match o with
      | Some c => C !! c = None /\ exists k, least_order (round4 size) k /\
          slab_inv (U := U) s' A' (<[c := (k, round4 size)]> C) G /\
          forall c' x, live (<[c := (k, round4 size)]> C) G c' x <-> live C G c' x
      | None => slab_inv (U := U) s' A' C G /\
          forall k, 0 <= k <= PAGE_MAX_ORDER -> nobj k (round4 size) < 8
      end.
Proof.
  intros HI Hs. destruct (decide _) as [Hd|Hd].
  - unfold slab_cache_create. destruct Hd as [->|Hd]; [done|].
    destruct (negb (truthy size)); [done|]. by rewrite (proj2 (Z.leb_le _ _) Hd).
  - apply slab_cache_create_spec; [done|lia|lia].
Qed.

Theorem slab_cache_create_correct_witness :
  exists (s s' : slabs buddy) o, slab_cache_create [97] 100 s = Ok (o, s').
Proof.
  destruct (slab_cache_init_spec (PA := buddy_page_allocator) (U := ∅) empty_slabs ∅
    buddy_init_spec (fun i (Hi : i ∈ ∅) => match not_elem_of_empty i Hi with end))
    as (s & _ & HI & _).
  pose proof (slab_cache_create_correct ∅ s ∅ ∅ ∅ [97] 100 HI ltac:(lia)) as Hcr.
  rewrite decide_False in Hcr by (intros [?|Hl]; [lia|vm_compute in Hl; congruence]).
  destruct Hcr as [[_ Hn]|(o & s' & _ & E & _)].
  - destruct Hn. apply fits_empty. bconst. lia.
  - by exists s, s', o.
Defined.

(** [slab_cache_destroy] always ends: it gives back to the page allocator
    exactly the blocks of the slabs of the cache, full and partial, and leaves
    the live objects of the other caches as they are. *)
Theorem slab_cache_destroy_correct {S : Type} `{PageAllocator S} (U : gset Z) (s : slabs S)
    (A : gmap Z Z) (C : gmap Z (Z * Z)) (G : gmap Z (Z * list Z)) (c k osz : Z) :
  slab_inv (U := U) s A C G -> C !! c = Some (k, osz) ->
  exists s' A' G', slab_cache_destroy c s = Ok (tt, s') /\
    slab_inv (U := U) s' A' (delete c C) G' /\
    (forall i, A' !! i = None <-> A !! i = None \/ exists fl, G !! base i = Some (c, fl)) /\
    (forall i, A' !! i = None \/ A' !! i = A !! i) /\
    (forall c' x, live (delete c C) G' c' x <-> live C G c' x /\ c' <> c).
Proof. apply slab_cache_destroy_spec. Qed.

Theorem slab_cache_destroy_correct_witness :
  exists (s s' s'' : slabs buddy) c a, slab_cache_alloc c s = Ok (a, s') /\
    slab_cache_destroy c s' = Ok (tt, s'').
Proof.
  destruct first_cache as (s & c & s1 & A1 & _ & _ & Hf & HI).
  assert (Hc : ({[c := (0, 100)]} : gmap Z (Z * Z)) !! c = Some (0, 100)) by apply lookup_singleton_eq.
  destruct (slab_cache_alloc_spec _ _ _ _ _ _ _ HI Hc)
    as [(a & s2 & A2 & G2 & E2 & HI2 & _ & _ & Hl2)|(_ & Hn & _)]; [|by destruct Hn].
  destruct (slab_cache_destroy_correct ∅ s2 A2 {[c := (0, 100)]} G2 c 0 100 HI2 Hc)
    as (s3 & _ & _ & E3 & _).
  by exists s1, s2, s3, c, a.
Defined.
