(* ===== verification/KernelMem.v ===== *)
(** * The memory interface of the kernel

    What [slab.c] and [buddy.c] together promise to the components that keep
    objects in caches and whole pages of their own: pipes, files, processes.
    Their theorems are proved against the class [KernelMem]; the allocators
    implement it. *)

From stdpp Require Import base numbers list gmap.
From S2P Require Import Prelude Buddy BuddyGeometry BuddyProofs PageAlloc Slab SlabProofs SlabCaches.

#[local] Open Scope Z_scope.
#[local] Open Scope kernel_scope.

(** [km_inv s C L U]: the caches of [C] exist, with their object sizes; [L c a]
    holds for the objects [a] of the cache [c] that are in use; [U] are the
    first pages of the blocks taken directly. *)
Class KernelMem (S : Type) := {
  km_obj_alloc : Z -> M S Z;              (* slab_cache_alloc *)
  km_obj_free : Z -> Z -> M S unit;       (* slab_cache_free *)
  km_page_alloc : Z -> M S Z;             (* buddy_alloc *)
  km_page_free : Z -> M S unit;           (* buddy_free *)
  km_inv : S -> gmap Z Z -> (Z -> Z -> Prop) -> gset Z -> Prop;
  km_obj_alloc_spec : forall s C L U c osz, km_inv s C L U -> C !! c = Some osz ->
    km_obj_alloc c s = Err Halt \/
    exists a s', km_obj_alloc c s = Ok (a, s') /\ (forall c', ~ L c' a) /\ a <> 0 /\
      km_inv s' C (fun c' x => L c' x \/ (c' = c /\ x = a)) U;
  km_obj_free_spec : forall s C L U c a, km_inv s C L U -> L c a ->
    exists s', km_obj_free c a s = Ok (tt, s') /\
      km_inv s' C (fun c' x => L c' x /\ x <> a) U;
  km_page_alloc_spec : forall s C L U size k, km_inv s C L U -> order_for size k ->
    km_page_alloc size s = Err Halt \/
    exists i s', km_page_alloc size s = Ok (i, s') /\ i ∉ U /\ 0 <= i < PAGE_NUM /\
      km_inv s' C L ({[i]} ∪ U);
  km_page_aligned : forall s C L U size k i s', km_inv s C L U -> order_for size k ->
    km_page_alloc size s = Ok (i, s') -> (2 ^ k | i);
  km_too_big : forall s size, 2 ^ PAGE_MAX_ORDER * PAGE_SIZE < size -> km_page_alloc size s = Err Halt;
  km_page_free_spec : forall s C L U i, km_inv s C L U -> i ∈ U ->
    exists s', km_page_free i s = Ok (tt, s') /\ km_inv s' C L (U ∖ {[i]});
  km_unique : forall s C L U c c' a, km_inv s C L U -> L c a -> L c' a -> c = c';
  km_ext : forall s C L L' U, (forall c x, L c x <-> L' c x) -> km_inv s C L U -> km_inv s C L' U;
}.

(** ** Pages taken next to the caches *)
Section ClientPages.
Context {S : Type} `{PA : PageAllocator S}.
Implicit Types (s : slabs S) (A : gmap Z Z) (C : gmap Z (Z * Z)) (G : gmap Z (Z * list Z)).

Lemma client_alloc U s A C G size k :
  slab_inv (U := U) s A C G -> order_for size k ->
  lift (pa_alloc size) s = Err Halt \/
  exists i s', lift (pa_alloc size) s = Ok (i, s') /\ i ∉ U /\ 0 <= i < PAGE_NUM /\
    slab_inv (U := {[i]} ∪ U) s' (<[i := k]> A) C G.
Proof.
  intros HI Ho. pose proof (si_pages _ _ _ _ HI) as HP.
  destruct (pa_alloc_spec _ _ _ k HP Ho) as [(i & x & Ea & HP' & Hd)|[Ea Hf]];
    [right|left; by apply lift_err].
  assert (HAi : A !! i = None).
  { eapply fresh_block; [|done|]; [apply Ho|]. intros l Hl. apply (pa_block _ _ _ _ HP Hl). }
  destruct (pa_block _ _ _ _ HP' (lookup_insert_eq _ _ _)) as (Hk & Hi & Hi2 & _).
  pose proof (pow2_pos k ltac:(lia)).
  exists i, (setM x s). split; [by apply lift_ok|]. split; [|split; [lia|]].
  { intros [l Hl]%(si_client _ _ _ _ HI). congruence. }
  split; [done| | | | |apply HI].
  - intros j. rewrite elem_of_union, elem_of_singleton. intros [->|Hj].
    + rewrite lookup_insert_eq. eauto.
    + destruct (decide (i = j)) as [->|]; [rewrite lookup_insert_eq; eauto|].
      rewrite lookup_insert_ne by done. by apply HI.
  - intros c k' osz Hc. destruct (si_caches _ _ _ _ HI _ _ _ Hc) as [? Hrep].
    split; [done|]. by eapply cache_rep_frame.
  - intros h c fl HG. destruct (si_slabs _ _ _ _ HI _ _ _ HG)
      as (k' & osz & HC & (j & nx & Hh & HA & Hx & Hfr & HU)).
    assert (j <> i) by congruence. exists k', osz. split; [done|]. exists j, nx.
    rewrite lookup_insert_ne by done. split_and!; [done|done|done|done|]. set_solver.
  - destruct (si_desc _ _ _ _ HI) as (D & F & HD & HF & Hnd & Hfree & HinD).
    exists D, F. split_and!; [|done|done|done|done].
    intros j Hj. destruct (HD j Hj) as (HAj & ? & ?). assert (j <> i) by congruence.
    rewrite lookup_insert_ne by done. split_and!; [done|done|]. set_solver.
Qed.

Lemma client_free U s A C G i :
  slab_inv (U := U) s A C G -> i ∈ U ->
  exists s', lift (pa_free i) s = Ok (tt, s') /\
    slab_inv (U := U ∖ {[i]}) s' (delete i A) C G.
Proof.
  intros HI Hi. pose proof (si_pages _ _ _ _ HI) as HP.
  destruct (si_client _ _ _ _ HI i Hi) as [k HA].
  destruct (pa_free_spec _ _ _ _ HP HA) as (x & E & HP').
  exists (setM x s). split; [by apply lift_ok|]. split; [done| | | | |apply HI].
  - intros j Hj. assert (i <> j) by set_solver. rewrite lookup_delete_ne by done.
    apply HI. set_solver.
  - intros c k' osz Hc. destruct (si_caches _ _ _ _ HI _ _ _ Hc) as [? Hrep].
    split; [done|]. by eapply cache_rep_frame.
  - intros h c fl HG. destruct (si_slabs _ _ _ _ HI _ _ _ HG)
      as (k' & osz & HC & (j & nx & Hh & HAj & Hx & Hfr & HU)).
    assert (j <> i) by (by intros ->). exists k', osz. split; [done|]. exists j, nx.
    rewrite lookup_delete_ne by done. split_and!; [done|done|done|done|]. set_solver.
  - destruct (si_desc _ _ _ _ HI) as (D & F & HD & HF & Hnd & Hfree & HinD).
    exists D, F. split_and!; [|done|done|done|done].
    intros j Hj. destruct (HD j Hj) as (HAj & ? & ?). assert (j <> i) by (by intros ->).
    rewrite lookup_delete_ne by done. split_and!; [done|done|]. set_solver.
Qed.

(** ** The allocators implement the interface *)
Definition mem_inv s (C : gmap Z Z) (L : Z -> Z -> Prop) (U : gset Z) : Prop :=
  exists A (K : gmap Z (Z * Z)) G, slab_inv (U := U) s A K G /\ C = snd <$> K /\
    forall c x, L c x <-> live K G c x.

Lemma live_positive U s A K G c a : slab_inv (U := U) s A K G -> live K G c a -> 0 < a.
Proof.
  intros HI (h & fl & k & osz & j & HG & Hc & Hj & _ & ->).
  pose proof (object_at_range _ _ _ _ _ _ _ _ _ _ HI Hc HG Hj) as [H1 _].
  destruct (slab_block _ _ _ _ _ _ _ HI HG) as (i & k' & -> & HA).
  destruct (pa_block _ _ _ _ (si_pages _ _ _ _ HI) HA) as (_ & Hi & _). sconst. lia.
Qed.
End ClientPages.

#[export] Program Instance slab_kernel_mem {S} `{PageAllocator S} : KernelMem (slabs S) := {|
  km_obj_alloc := slab_cache_alloc;
  km_obj_free := slab_cache_free;
  km_page_alloc size := lift (pa_alloc size);
  km_page_free i := lift (pa_free i);
  km_inv := mem_inv;
|}.
Next Obligation.
  intros S PA s C L U c osz (A & K & G & HI & -> & HL) Hc.
  rewrite lookup_fmap in Hc. destruct (K !! c) as [[k o]|] eqn:HK; [|done].
  destruct (slab_cache_alloc_spec _ _ _ _ _ _ _ HI HK)
    as [(a & s' & A' & G' & E & HI' & _ & Hnl & Hl)|(E & _)]; [right|by left].
  assert (Ha : live K G' c a) by (apply Hl; by right).
  exists a, s'. split_and!; [done| | |].
  - intros c'. rewrite HL. apply Hnl.
  - pose proof (live_positive _ _ _ _ _ _ _ HI' Ha). lia.
  - exists A', K, G'. split_and!; [done|done|]. intros c' x. by rewrite HL, Hl.
Qed.
Next Obligation.
  intros S PA s C L U c a (A & K & G & HI & -> & HL) HLa. apply HL in HLa.
  destruct (slab_cache_free_spec _ _ _ _ _ _ HI HLa) as (s' & G' & E & HI' & Hl).
  exists s'. split; [done|]. exists A, K, G'. split_and!; [done|done|].
  intros c' x. by rewrite HL, Hl.
Qed.
Next Obligation.
  intros S PA s C L U size k (A & K & G & HI & -> & HL) Ho.
  destruct (client_alloc _ _ _ _ _ _ _ HI Ho) as [E|(i & s' & E & Hi & Hr & HI')]; [by left|right].
  exists i, s'. split_and!; [done|done|lia|lia|]. by exists (<[i := k]> A), K, G.
Qed.
Next Obligation.
  intros S PA s C L U size k i s' (A & K & G & HI & -> & HL) Ho E.
  destruct (client_alloc _ _ _ _ _ _ _ HI Ho) as [E'|(i' & s1 & E' & Hi & Hr & HI')]; [congruence|].
  rewrite E' in E. injection E as -> ->.
  by destruct (pa_block _ _ _ _ (si_pages _ _ _ _ HI') (lookup_insert_eq _ _ _)) as (_ & _ & _ & Hd).
Qed.
Next Obligation. intros S PA s size Hs. unfold lift. by rewrite pa_too_big. Qed.
Next Obligation.
  intros S PA s C L U i (A & K & G & HI & -> & HL) Hi.
  destruct (client_free _ _ _ _ _ _ HI Hi) as (s' & E & HI').
  exists s'. split; [done|]. by exists (delete i A), K, G.
Qed.
Next Obligation.
  intros S PA s C L U c c' a (A & K & G & HI & -> & HL) H1%HL H2%HL.
  destruct H1 as (h & fl & k & osz & j & HG & Hc & Hj & _ & ->).
  destruct H2 as (h' & fl' & k' & osz' & j' & HG' & Hc' & Hj' & _ & E).
  destruct (object_at_inj _ _ _ _ _ _ _ _ _ _ _ _ _ _ _ _ HI Hc HG Hj Hc' HG' Hj' E) as [<- _].
  congruence.
Qed.
Next Obligation.
  intros S PA s C L L' U HLL (A & K & G & HI & -> & HL).
  exists A, K, G. split_and!; [done|done|]. intros c x. by rewrite <- HLL.
Qed.

(** ** The simplest implementation

    Objects and pages are numbered and never used again.  The examples of the
    components above this interface run on it. *)
Record bump : Set := Bump { next_obj : Z; next_page : Z }.

Definition bump_inv (s : bump) (C : gmap Z Z) (L : Z -> Z -> Prop) (U : gset Z) : Prop :=
  0 < next_obj s /\ 0 <= next_page s /\ (forall c a, L c a -> a < next_obj s) /\
  (forall c c' a, L c a -> L c' a -> c = c') /\ forall i, i ∈ U -> i < next_page s.

(** The first number from [n] on that is a multiple of the size of a block. *)
Definition align_up (n k : Z) : Z := (n + 2 ^ k - 1) / 2 ^ k * 2 ^ k.

Lemma align_up_spec n k : 0 <= k -> n <= align_up n k /\ (2 ^ k | align_up n k).
Proof.
  intros Hk. unfold align_up. pose proof (pow2_pos k Hk). split; [|by exists ((n + 2 ^ k - 1) / 2 ^ k)].
  pose proof (Z.div_mod (n + 2 ^ k - 1) (2 ^ k) ltac:(lia)). pose proof (Z.mod_pos_bound (n + 2 ^ k - 1) (2 ^ k) ltac:(lia)). lia.
Qed.

Definition bump_page (size : Z) : M bump Z := fun s =>
  match alloc_order (Z.to_nat PAGE_MAX_DEPTH) 0 size with
  | None => Err Halt
  | Some k =>
      let i := align_up (next_page s) k in
      if i <? PAGE_NUM then Ok (i, Bump (next_obj s) (i + 1)) else Err Halt
  end.

#[export] Program Instance bump_kernel_mem : KernelMem bump := {|
  km_obj_alloc _ s := Ok (next_obj s, Bump (next_obj s + 1) (next_page s));
  km_obj_free _ _ s := Ok (tt, s);
  km_page_alloc := bump_page;
  km_page_free _ s := Ok (tt, s);
  km_inv := bump_inv;
|}.
Next Obligation.
  intros s C L U c osz (H1 & H2 & H3 & H4 & H5) _. right. eexists _, _. split; [done|].
  assert (Hn : forall c', ~ L c' (next_obj s)) by (intros c' Hc; specialize (H3 _ _ Hc); lia).
  split; [done|]. split; [lia|]. split_and!; simpl; [lia|lia| | |done].
  - intros c' a [Ha|[_ ->]]; [specialize (H3 _ _ Ha)|]; lia.
  - intros c1 c2 a [Ha|[-> ->]] [Hb|[-> Hb]]; try done; [by eapply H4| |].
    + subst a. by destruct (Hn c1).
    + by destruct (Hn c2).
Qed.
Next Obligation.
  intros s C L U c a (H1 & H2 & H3 & H4 & H5) _. eexists. split; [done|]. split_and!; [done|done| | |done].
  - intros c' x [Hx _]. by eapply H3.
  - intros c1 c2 x [Hx _] [Hy _]. by eapply H4.
Qed.
Next Obligation.
  intros s C L U size k (H1 & H2 & H3 & H4 & H5) Ho. unfold bump_page. rewrite (alloc_order_eq _ _ Ho). cbv zeta.
  destruct (align_up_spec (next_page s) k) as [Hge _]; [apply Ho|]. set (i := align_up _ _) in *.
  destruct (Z.ltb_spec i PAGE_NUM); [right|by left]. eexists _, _. split; [done|].
  split; [intros Hi%H5; lia|]. split; [lia|]. split_and!; simpl; try done; try lia.
  - intros j [->%elem_of_singleton|Hj%H5]%elem_of_union; lia.
Qed.
Next Obligation.
  intros s C L U size k i s' _ Ho. unfold bump_page. rewrite (alloc_order_eq _ _ Ho). cbv zeta.
  destruct (align_up_spec (next_page s) k) as [_ Hd]; [apply Ho|].
  destruct (align_up _ _ <? PAGE_NUM); [|done]. by intros [= <- _].
Qed.
Next Obligation. intros s size Hs. unfold bump_page. by rewrite alloc_order_none. Qed.
Next Obligation.
  intros s C L U i (H1 & H2 & H3 & H4 & H5) Hi. eexists. split; [done|]. split_and!; try done.
  intros j [Hj _]%elem_of_difference. by apply H5.
Qed.
Next Obligation. intros s C L U c c' a (_ & _ & _ & H4 & _). by apply H4. Qed.
Next Obligation.
  intros s C L L' U HL (H1 & H2 & H3 & H4 & H5). split_and!; try done.
  - intros c a Ha%HL. by eapply H3.
  - intros c c' a Ha%HL Hb%HL. by eapply H4.
Qed.
