(* ===== verification/Unix.v ===== *)
(** * Constants of the system interface

    The error numbers, open flags and signal actions the kernel uses
    ([lib/errno.h], [lib/unix.h], [file.h]). *)

From stdpp Require Import base numbers.
From S2P Require Import Prelude.

#[local] Open Scope Z_scope.

Definition ENOENT : Z := 2.
Definition ESRCH : Z := 3.
Definition E2BIG : Z := 7.
Definition EBADF : Z := 9.
Definition ECHILD : Z := 10.
Definition EACCES : Z := 13.
Definition EFAULT : Z := 14.
Definition EEXIST : Z := 17.
Definition ENOTDIR : Z := 20.
Definition EISDIR : Z := 21.
Definition EINVAL : Z := 22.
Definition EMFILE : Z := 24.
Definition ENOTTY : Z := 25.
Definition EFBIG : Z := 27.
Definition ENOSPC : Z := 28.
Definition ESPIPE : Z := 29.
Definition EPIPE : Z := 32.
Definition ENOSYS : Z := 38.
Definition ENOTEMPTY : Z := 39.
Definition EOVERFLOW : Z := 75.

(** Octal constants of the source are written in hexadecimal. *)
Definition O_SEARCH : Z := 0x200000.
Definition O_ACCMODE : Z := Z.lor 3 O_SEARCH.
Definition O_RDONLY : Z := 0.
Definition O_WRONLY : Z := 1.
Definition O_RDWR : Z := 2.
Definition O_CREAT : Z := 0x40.
Definition O_EXCL : Z := 0x80.
Definition O_TRUNC : Z := 0x200.
Definition O_APPEND : Z := 0x400.
Definition O_NONBLOCK : Z := 0x800.
Definition O_DSYNC : Z := 0x1000.
Definition O_SYNC : Z := 0x101000.
Definition O_CLOEXEC : Z := 0x80000.
Definition O_ASYNC : Z := 0x2000.
Definition O_DIRECT : Z := 0x10000.
Definition O_NOATIME : Z := 0x40000.

Definition F_DUPFD : Z := 0.
Definition F_GETFD : Z := 1.
Definition F_SETFD : Z := 2.
Definition F_GETFL : Z := 3.
Definition F_SETFL : Z := 4.
Definition FD_CLOEXEC : Z := 1.

Definition access_mode (flags : Z) : Z := Z.land flags O_ACCMODE.
Definition FILE_FOR_READ (flags : Z) : bool :=
  (access_mode flags =? O_RDWR) || (access_mode flags =? O_RDONLY).
Definition FILE_FOR_WRITE (flags : Z) : bool :=
  (access_mode flags =? O_RDWR) || (access_mode flags =? O_WRONLY).
