(* ===== verification/UserSpace.v ===== *)
(** * Address spaces: the interface

    What [mmu.c] promises to [process.c]: an address space per process
    identifier, with its bytes, and the one the processor uses now.  Reads and
    writes of user memory go through the current one.  Page tables and pages
    are taken from the kernel's allocators: a call stops when they are
    exhausted, and what the callers hold of them does not change. *)

From stdpp Require Import base numbers list gmap.
From S2P Require Import Prelude Buddy BuddyProofs KernelMem.

#[local] Open Scope Z_scope.
#[local] Open Scope kernel_scope.

(** A call of one of the allocators that returned. *)
Inductive km_step {S} `{KernelMem S} (s s' : S) : Prop :=
| ks_obj_alloc c a : km_obj_alloc c s = Ok (a, s') -> km_step s s'
| ks_obj_free c a : km_obj_free c a s = Ok (tt, s') -> km_step s s'
| ks_page_alloc size i : km_page_alloc size s = Ok (i, s') -> km_step s s'
| ks_page_free i : km_page_free i s = Ok (tt, s') -> km_step s s'.

(** The pages that hold the [size] bytes from [addr] on; they lie in one megabyte. *)
Definition page_count (size : Z) : Z := (size + PAGE_SIZE - 1) / PAGE_SIZE.
Definition in_pages (addr size x : Z) : Prop :=
  addr / PAGE_SIZE <= x / PAGE_SIZE < addr / PAGE_SIZE + page_count size.
Definition in_megabyte (addr size : Z) : bool := (addr / PAGE_SIZE) mod 256 + page_count size <=? 256.
Definition alloc_result (addr size : Z) : Z := if in_megabyte addr size then 0 else -1.

Lemma in_pages_dec addr size x : {in_pages addr size x} + {~ in_pages addr size x}.
Proof. unfold in_pages. destruct (Z_le_dec (addr / PAGE_SIZE) (x / PAGE_SIZE)), (Z_lt_dec (x / PAGE_SIZE) (addr / PAGE_SIZE + page_count size)); first [left; lia|right; lia]. Defined.

(** [mmu_alloc] maps what was asked for when [addr] is the start of a page. *)
Lemma in_pages_aligned addr size x : addr mod PAGE_SIZE = 0 -> addr <= x < addr + size -> in_pages addr size x.
Proof. unfold in_pages, page_count. change PAGE_SIZE with 4096. intros. Z.to_euclidean_division_equations; lia. Qed.

Class UserSpace (S : Type) `{KernelMem S} := {
  us_set_ttb : Z -> M S Z;                (* mmu_set_ttb *)
  us_alloc : Z -> Z -> Z -> M S Z;        (* mmu_alloc *)
  us_destroy : Z -> M S Z;                (* mmu_destroy *)
  us_load : Z -> M S Z;                   (* a byte read through the page tables *)
  us_store : Z -> Z -> M S unit;          (* a byte written through them *)
  us_byte : S -> Z -> Z -> option Z;      (* the byte of a process at an address *)
  us_current : S -> Z;                    (* the address space in use *)
  us_known : S -> Z -> Prop;              (* there are page tables for the process *)
  us_byte_u8 : forall s pid a b, us_byte s pid a = Some b -> is_u8 b;
  us_load_spec : forall s C L U a b, km_inv s C L U -> us_byte s (us_current s) a = Some b -> us_load a s = Ok (b, s);
  us_store_spec : forall s C L U a b v, km_inv s C L U -> us_byte s (us_current s) a = Some b -> is_u8 v ->
    exists s', us_store a v s = Ok (tt, s') /\ us_current s' = us_current s /\
      (forall q x, us_byte s' q x = if decide (q = us_current s /\ x = a) then Some v else us_byte s q x) /\
      (forall q, us_known s' q <-> us_known s q) /\
      (forall C L U, km_inv s C L U -> km_inv s' C L U);
  us_set_ttb_spec : forall s C L U pid, km_inv s C L U ->
    us_set_ttb pid s = Err Halt \/
    exists s', us_set_ttb pid s = Ok (us_current s, s') /\ us_current s' = pid /\
      (forall q x, us_byte s' q x = us_byte s q x) /\
      (forall q, us_known s' q <-> q = pid \/ us_known s q) /\ km_inv s' C L U;
  us_alloc_spec : forall s C L U pid addr size, km_inv s C L U -> 0 <= size <= 2 ^ 31 -> is_u32 addr ->
    us_alloc pid addr size s = Err Halt \/
    exists s', us_alloc pid addr size s = Ok (alloc_result addr size, s') /\ us_current s' = us_current s /\
      (forall q x, q <> pid \/ in_megabyte addr size = false \/ ~ in_pages addr size x -> us_byte s' q x = us_byte s q x) /\
      (in_megabyte addr size = true -> forall x, in_pages addr size x -> is_Some (us_byte s' pid x)) /\
      (forall q, us_known s' q <-> q = pid \/ us_known s q) /\ km_inv s' C L U;
  us_destroy_spec : forall s C L U pid, km_inv s C L U -> us_known s pid -> pid <> 0 ->
    us_destroy pid s = Err Halt \/
    exists s', us_destroy pid s = Ok (0, s') /\ us_current s' = 0 /\
      (forall q x, us_byte s' q x = if decide (q = pid) then None else us_byte s q x) /\
      (forall q, us_known s q -> q <> pid -> us_known s' q) /\ km_inv s' C L U;
  us_km_step : forall s s', km_step s s' -> us_current s' = us_current s /\
    (forall q x, us_byte s' q x = us_byte s q x) /\ (forall q, us_known s' q <-> us_known s q);
}.

(** ** Strings of bytes in the current address space *)
Section Strings.
Context {S : Type} `{KM : KernelMem S} {US : UserSpace S}.
Implicit Types (s : S).

(** [memcpy] from and to user memory, a byte at a time. *)
Fixpoint us_read (n : nat) (a : Z) : M S (list Z) :=
  match n with
  | O => ret []
  | Datatypes.S n =>
      let* b := us_load a in
      let* l := us_read n (u32 (a + 1)) in
      ret (b :: l)
  end.
Fixpoint us_write (a : Z) (l : list Z) : M S unit :=
  match l with
  | [] => ret tt
  | b :: l => do* us_store a b in us_write (u32 (a + 1)) l
  end.

(** The bytes [l] are at [a] in the current space; [n] bytes are mapped there. *)
Definition bytes_at s (a : Z) (l : list Z) : Prop :=
  forall i b, l !! i = Some b -> us_byte s (us_current s) (a + Z.of_nat i) = Some b.
Definition mapped_at s (a n : Z) : Prop :=
  forall x, a <= x < a + n -> is_Some (us_byte s (us_current s) x).

(** [s'] differs from [s] in the [n] bytes at [a] of the current space only. *)
Record writes_only s s' (a n : Z) : Prop := {
  wo_current : us_current s' = us_current s;
  wo_byte : forall q x, q <> us_current s \/ x < a \/ a + n <= x -> us_byte s' q x = us_byte s q x;
  wo_mapped : forall x, is_Some (us_byte s (us_current s) x) -> is_Some (us_byte s' (us_current s) x);
  wo_known : forall q, us_known s' q <-> us_known s q;
  wo_inv : forall C L U, km_inv s C L U -> km_inv s' C L U;
}.

Lemma us_read_ok s C L U l : km_inv s C L U -> forall a, 0 <= a -> a + Z.of_nat (length l) <= 2 ^ 32 -> bytes_at s a l ->
  us_read (length l) a s = Ok (l, s).
Proof.
  intros HI. induction l as [|b l IH]; intros a Ha Hl Hh; [done|]. cbn [length us_read] in *.
  pose proof (Hh 0%nat b eq_refl) as H0. rewrite Z.add_0_r in H0. mrun (us_load_spec _ _ _ _ _ _ HI H0).
  destruct l as [|c l]; [done|]. rewrite (u32_small (a + 1)) by (unfold is_u32; simpl length in *; lia).
  assert (E : us_read (length (c :: l)) (a + 1) s = Ok (c :: l, s)); [|mrun E; done].
  apply IH; [lia|simpl length in *; lia|]. intros i x Hi. specialize (Hh (Datatypes.S i) x Hi).
  rewrite <- Hh. f_equal. lia.
Qed.

Lemma us_write_ok C L U l : forall s a, km_inv s C L U -> 0 <= a -> a + Z.of_nat (length l) <= 2 ^ 32 -> Forall is_u8 l ->
  mapped_at s a (Z.of_nat (length l)) ->
  exists s', us_write a l s = Ok (tt, s') /\ writes_only s s' a (Z.of_nat (length l)) /\ bytes_at s' a l.
Proof.
  induction l as [|b l IH]; intros s a HI Ha Hl Hu Hm.
  { exists s. split; [done|]. split; [|intros i x Hi; by rewrite lookup_nil in Hi]. by split. }
  cbn [length us_write] in *. destruct (Hm a ltac:(lia)) as [b0 Hb0].
  apply Forall_cons in Hu as [Hb Hu].
  destruct (us_store_spec s _ _ _ a b0 b HI Hb0 Hb) as (s1 & E1 & Hc1 & Hy1 & Hk1 & Hi1). mrun E1.
  destruct l as [|c l].
  { exists s1. split; [done|]. split.
    - split; [done| | |done|done].
      + intros q x Hx. rewrite Hy1, decide_False; [done|]. simpl length in *. intros [? ?]. lia.
      + intros x Hx. rewrite Hy1. case_decide; [by eexists|done].
    - intros i x Hi. destruct i as [|i]; [|discriminate Hi]. injection Hi as ->.
      rewrite Hc1, Hy1, decide_True; [done|]. split; [done|]. lia. }
  rewrite (u32_small (a + 1)) by (unfold is_u32; simpl length in *; lia).
  destruct (IH s1 (a + 1)) as (s2 & E2 & [W1 W2 W3 W4 W5] & Hh2); [auto|lia|lia|done| |].
  { intros x Hx. rewrite Hc1, Hy1. case_decide; [by eexists|]. apply Hm. lia. }
  exists s2. split; [done|]. rewrite Hc1 in *. split.
  - split; [congruence| | | |auto].
    + intros q x Hx. rewrite W2 by (destruct Hx as [?|[?|?]]; [by left|right; lia|right; lia]).
      rewrite Hy1, decide_False; [done|]. intros [? ?]. lia.
    + intros x Hx. apply W3. rewrite Hy1. case_decide; [by eexists|done].
    + intros q. by rewrite W4.
  - intros [|i] x Hi.
    + injection Hi as ->. rewrite W1, W2 by lia. rewrite Hy1, decide_True; [done|]. split; [done|]. lia.
    + rewrite <- (Hh2 i x Hi). f_equal. lia.
Qed.

Lemma writes_only_bytes s s' a n b l :
  writes_only s s' a n -> b + Z.of_nat (length l) <= a \/ a + n <= b -> bytes_at s b l -> bytes_at s' b l.
Proof.
  intros W Hd Hh i x Hi. pose proof (lookup_lt_Some _ _ _ Hi).
  rewrite (wo_current _ _ _ _ W), (wo_byte _ _ _ _ W) by lia. by apply Hh.
Qed.

Lemma writes_only_mapped s s' a n b k : writes_only s s' a n -> mapped_at s b k -> mapped_at s' b k.
Proof. intros W Hm x Hx. rewrite (wo_current _ _ _ _ W). by apply (wo_mapped _ _ _ _ W), Hm. Qed.
End Strings.

(** ** The simplest implementation

    The bytes of each process as a map, next to any allocator.  The examples
    run on it. *)
Record spaces (S : Type) : Type := Spaces {
  sp_mem : S;
  sp_bytes : gmap Z (gmap Z Z);
  sp_ttb : Z;
}.
Arguments Spaces {S}.
Arguments sp_mem {S}.
Arguments sp_bytes {S}.
Arguments sp_ttb {S}.

Section Spaces.
Context {S : Type} `{KM : KernelMem S}.
Implicit Types (s : spaces S).

Definition on_mem {A} (m : M S A) : M (spaces S) A :=
  fun s => match m (sp_mem s) with
           | Ok (a, x) => Ok (a, Spaces x (sp_bytes s) (sp_ttb s))
           | Err r => Err r
           end.

#[export] Program Instance spaces_kernel_mem : KernelMem (spaces S) := {|
  km_obj_alloc c := on_mem (km_obj_alloc c);
  km_obj_free c a := on_mem (km_obj_free c a);
  km_page_alloc size := on_mem (km_page_alloc size);
  km_page_free i := on_mem (km_page_free i);
  km_inv s := km_inv (sp_mem s);
|}.
Next Obligation.
  intros s C L U c osz HI HC. unfold on_mem.
  destruct (km_obj_alloc_spec _ _ _ _ _ _ HI HC) as [->|(a & x & -> & H)]; [by left|right]. eauto.
Qed.
Next Obligation.
  intros s C L U c a HI HL. unfold on_mem.
  destruct (km_obj_free_spec _ _ _ _ _ _ HI HL) as (x & -> & H). eauto.
Qed.
Next Obligation.
  intros s C L U size k HI Ho. unfold on_mem.
  destruct (km_page_alloc_spec _ _ _ _ _ _ HI Ho) as [->|(a & x & -> & H)]; [by left|right]. eauto.
Qed.
Next Obligation.
  intros s C L U size k i s' HI Ho. unfold on_mem.
  destruct (km_page_alloc size (sp_mem s)) as [[j x]|] eqn:E; [|done]. intros [= <- _].
  exact (km_page_aligned _ _ _ _ _ _ _ _ HI Ho E).
Qed.
Next Obligation. intros s size Hs. unfold on_mem. by rewrite km_too_big. Qed.
Next Obligation.
  intros s C L U i HI Hi. unfold on_mem.
  destruct (km_page_free_spec _ _ _ _ _ HI Hi) as (x & -> & H). eauto.
Qed.
Next Obligation. intros s C L U c c' a. apply km_unique. Qed.
Next Obligation. intros s C L L' U HL. by apply km_ext. Qed.

(** [n] zeros at [a], and the pages of a request filled with zeros. *)
Definition zeros_at (a n : Z) : gmap Z Z := list_to_map (map (fun i => (a + Z.of_nat i, 0)) (seq 0 (Z.to_nat n))).
Definition fresh_bytes (addr size : Z) : gmap Z Z := zeros_at (addr / PAGE_SIZE * PAGE_SIZE) (page_count size * PAGE_SIZE).
Definition sp_space s (pid : Z) : gmap Z Z := default ∅ (sp_bytes s !! pid).
Definition set_space (pid : Z) (m : gmap Z Z) s : spaces S :=
  Spaces (sp_mem s) (<[pid := m]> (sp_bytes s)) (sp_ttb s).
(** A byte is kept modulo 256. *)
Definition sp_byte s (pid a : Z) : option Z := u8 <$> sp_space s pid !! a.

Lemma sp_space_set s pid m q : sp_space (set_space pid m s) q = if decide (q = pid) then m else sp_space s q.
Proof.
  unfold sp_space, set_space. cbn [sp_bytes]. case_decide as Hq; [by rewrite Hq, lookup_insert_eq|].
  by rewrite lookup_insert_ne by congruence.
Qed.

Lemma u8_range z : is_u8 (u8 z).
Proof. unfold is_u8, u8. apply Z.mod_pos_bound. lia. Qed.

Lemma in_pages_range addr size x :
  in_pages addr size x <-> addr / PAGE_SIZE * PAGE_SIZE <= x < addr / PAGE_SIZE * PAGE_SIZE + page_count size * PAGE_SIZE.
Proof.
  unfold in_pages, page_count. change PAGE_SIZE with 4096. generalize (addr / 4096), ((size + 4096 - 1) / 4096). intros a n.
  pose proof (Z.div_mod x 4096 ltac:(lia)). pose proof (Z.mod_pos_bound x 4096 ltac:(lia)). lia.
Qed.

Lemma zeros_at_lookup a n x : zeros_at a n !! x = if decide (a <= x < a + n) then Some 0 else None.
Proof.
  unfold zeros_at. assert (Hnd : NoDup (map (fun i => (a + Z.of_nat i, 0)) (seq 0 (Z.to_nat n))).*1).
  { rewrite <- list_fmap_compose. apply NoDup_fmap_2; [intros i j; simpl; lia|apply NoDup_seq]. }
  case_decide as Hx.
  - apply elem_of_list_to_map_1; [done|]. apply list_elem_of_fmap. exists (Z.to_nat (x - a)).
    split; [f_equal; lia|]. apply elem_of_seq. lia.
  - apply not_elem_of_list_to_map_1. intros Hin. apply list_elem_of_fmap in Hin as ([y z] & -> & Hin).
    apply list_elem_of_fmap in Hin as (i & [= -> ->] & Hi%elem_of_seq). simpl in Hx. lia.
Qed.

Lemma fresh_bytes_lookup addr size x :
  fresh_bytes addr size !! x = if in_pages_dec addr size x then Some 0 else None.
Proof.
  unfold fresh_bytes. rewrite zeros_at_lookup.
  destruct (in_pages_dec addr size x) as [Hx|Hx]; rewrite in_pages_range in Hx; [by rewrite decide_True|by rewrite decide_False].
Qed.

#[export] Program Instance spaces_user_space : UserSpace (spaces S) := {|
  us_set_ttb pid s := Ok (sp_ttb s, Spaces (sp_mem s) (<[pid := sp_space s pid]> (sp_bytes s)) pid);
  us_alloc pid addr size s :=
    Ok (alloc_result addr size, set_space pid (if in_megabyte addr size then fresh_bytes addr size ∪ sp_space s pid else sp_space s pid) s);
  us_destroy pid s := Ok (0, Spaces (sp_mem s) (delete pid (sp_bytes s)) 0);
  us_load a s := match sp_byte s (sp_ttb s) a with Some b => Ok (b, s) | None => Err Fault end;
  us_store a v s := Ok (tt, set_space (sp_ttb s) (<[a := v]> (sp_space s (sp_ttb s))) s);
  us_byte := sp_byte;
  us_current := sp_ttb;
  us_known s pid := is_Some (sp_bytes s !! pid);
|}.
Next Obligation.
  intros s pid a b. unfold sp_byte. intros (z & _ & ->)%fmap_Some. apply u8_range.
Qed.
Next Obligation. intros s C L U a b _ Hb. cbv beta. by rewrite Hb. Qed.
Next Obligation.
  intros s C L U a b v _ Hb Hv. eexists. split; [done|]. split; [done|]. split; [|split; [|done]].
  - intros q x. unfold sp_byte. rewrite sp_space_set. destruct (decide (q = sp_ttb s)) as [->|].
    + destruct (decide (x = a)) as [->|].
      * rewrite lookup_insert_eq, decide_True by done. cbn. f_equal. apply Z.mod_small. exact Hv.
      * rewrite lookup_insert_ne, decide_False by (intuition congruence). done.
    + by rewrite decide_False by (intros [? ?]; done).
  - intros q. unfold set_space. cbn [sp_bytes]. rewrite lookup_insert_is_Some'. split; [|by right].
    intros [<-|?]; [|done]. unfold sp_byte, sp_space in Hb.
    destruct (sp_bytes s !! sp_ttb s); [by eexists|]. cbn in Hb. by rewrite lookup_empty in Hb.
Qed.
Next Obligation.
  intros s C L U pid HI. right. eexists. split; [done|]. split; [done|]. split; [|split; [|done]].
  - intros q x. unfold sp_byte, sp_space at 1. cbn [sp_bytes].
    destruct (decide (q = pid)) as [->|]; [by rewrite lookup_insert_eq|by rewrite lookup_insert_ne by congruence].
  - intros q. cbn [sp_bytes]. rewrite lookup_insert_is_Some'. intuition congruence.
Qed.
Next Obligation.
  intros s C L U pid addr size HI Hs Ha. right. eexists. split; [done|]. split; [done|].
  split; [|split; [|split; [|done]]].
  - intros q x Hx. unfold sp_byte. rewrite sp_space_set. destruct (decide (q = pid)) as [->|]; [|done].
    destruct (in_megabyte addr size); [|done]. destruct Hx as [?|[?|Hx]]; [done|done|].
    f_equal. rewrite lookup_union_r; [done|]. rewrite fresh_bytes_lookup. by destruct (in_pages_dec addr size x).
  - intros Hm x Hx. unfold sp_byte. rewrite sp_space_set, decide_True, Hm by done. apply fmap_is_Some.
    apply lookup_union_is_Some. left. rewrite fresh_bytes_lookup. destruct (in_pages_dec addr size x); [by eexists|done].
  - intros q. unfold set_space. cbn [sp_bytes]. rewrite lookup_insert_is_Some'. intuition congruence.
Qed.
Next Obligation.
  intros s C L U pid HI Hk _. right. eexists. split; [done|]. split; [done|]. split; [|split; [|done]].
  - intros q x. unfold sp_byte, sp_space at 1. cbn [sp_bytes]. case_decide as Hq.
    + rewrite Hq, lookup_delete_eq. cbn. by rewrite lookup_empty.
    + by rewrite lookup_delete_ne by congruence.
  - intros q Hq Hn. cbn [sp_bytes]. by rewrite lookup_delete_ne by congruence.
Qed.
Next Obligation.
  assert (Hm : forall A (m : M S A) s a s', on_mem m s = Ok (a, s') ->
    sp_ttb s' = sp_ttb s /\ sp_bytes s' = sp_bytes s).
  { intros A m s a s'. unfold on_mem. destruct (m (sp_mem s)) as [[b x]|]; [|done]. by intros [= _ <-]. }
  intros s s' Hs. assert (H : sp_ttb s' = sp_ttb s /\ sp_bytes s' = sp_bytes s).
  { destruct Hs as [c a E|c a E|size i E|i E].
    - exact (Hm _ (km_obj_alloc c) _ _ _ E).
    - exact (Hm _ (km_obj_free c a) _ _ _ E).
    - exact (Hm _ (km_page_alloc size) _ _ _ E).
    - exact (Hm _ (km_page_free i) _ _ _ E). }
  destruct H as [H1 H2]. split; [done|]. unfold sp_byte, sp_space. by rewrite H2.
Qed.
End Spaces.
