(* ===== verification/Devices.v ===== *)
(** * Devices: model

    uart.c, gic.c and timer.c, and the access of mmc.c to one sector, on the
    interface of a memory-mapped register: a read and a write of a word at an
    address.  A read may change the device.  The loops that wait for a flag are
    bounded by a number of polls, which is an argument. *)

From stdpp Require Import base numbers list.
From S2P Require Import Prelude Bytes Unix.

#[local] Open Scope Z_scope.
#[local] Open Scope kernel_scope.

Class Mmio (S : Type) := {
  io_read32 : Z -> M S Z;
  io_write32 : Z -> Z -> M S unit;
}.

(** ** Constants *)
Definition UART0 : Z := 0x10009000.
Definition UARTFR : Z := 0x06.
Definition UARTFR_TXFF : Z := 0x20.
Definition UARTFR_RXFE : Z := 0x10.
Definition UARTIMSC : Z := 0x0e.
Definition UARTIMSC_RXIM : Z := Z.shiftl 1 4.
Definition UARTIMSC_TXIM : Z := Z.shiftl 1 5.
Definition UARTIMSC_RTIM : Z := Z.shiftl 1 6.
(** [UART0 + n], a pointer to words. *)
Definition uart_register (n : Z) : Z := UART0 + 4 * n.

Definition GIC_DIST_BASE : Z := 0x1e001000.
Definition GIC_CPU_BASE : Z := 0x1e000100.
Definition GICC_CTLR : Z := 0x0000.
Definition GICC_PMR : Z := 0x0004.
Definition GICC_IAR : Z := 0x000c.
Definition GICC_EOIR : Z := 0x0010.
Definition GICD_CTLR : Z := 0x0000.
Definition GICD_ISENABLER (n : Z) : Z := GIC_DIST_BASE + 0x100 + (n / 32) * 4.
Definition GICD_ITARGETSR (n : Z) : Z := GIC_DIST_BASE + 0x800 + (n / 4) * 4.
Definition GICD_ICFGR (n : Z) : Z := GIC_DIST_BASE + 0xc00 + (n / 16) * 4.
Definition IRQ_TIMER01 : Z := 34.
Definition IRQ_UART0 : Z := 37.

Definition TIMER0 : Z := 0x10011000.
Definition TIMER_CONTROL : Z := 0x2.
Definition TIMER_INTCLR : Z := 0x3.
Definition TIMER_MIS : Z := 0x5.
Definition TIMER_EN : Z := 0x80.
Definition TIMER_PERIODIC : Z := 0x40.
Definition TIMER_INTEN : Z := 0x20.
Definition TIMER_32BIT : Z := 0x02.
Definition timer_register (n : Z) : Z := TIMER0 + 4 * n.

Section Devices.
Context {S : Type} {IO : Mmio S}.

(** ** uart.c *)
Definition uart_can_recv : M S bool :=
  let* fr := io_read32 (uart_register UARTFR) in ret (negb (truthy (Z.land fr UARTFR_RXFE))).
Definition uart_can_send : M S bool :=
  let* fr := io_read32 (uart_register UARTFR) in ret (negb (truthy (Z.land fr UARTFR_TXFF))).

Definition io_set32 (a bits : Z) : M S unit :=
  let* v := io_read32 a in io_write32 a (Z.lor v bits).
Definition io_clear32 (a bits : Z) : M S unit :=
  let* v := io_read32 a in io_write32 a (Z.land v (not32 bits)).

Definition uart_set_interrupt (flags : Z) : M S unit :=
  let mode := Z.land flags O_ACCMODE in
  if mode =? O_RDONLY then io_set32 (uart_register UARTIMSC) (Z.lor UARTIMSC_RXIM UARTIMSC_RTIM)
  else if mode =? O_WRONLY then io_set32 (uart_register UARTIMSC) UARTIMSC_TXIM
  else fail Halt.
Definition uart_clear_interrupt (flags : Z) : M S unit :=
  let mode := Z.land flags O_ACCMODE in
  if mode =? O_RDONLY then io_clear32 (uart_register UARTIMSC) (Z.lor UARTIMSC_RXIM UARTIMSC_RTIM)
  else if mode =? O_WRONLY then io_clear32 (uart_register UARTIMSC) UARTIMSC_TXIM
  else fail Halt.

(** [while (!ready());] *)
Fixpoint poll (polls : nat) (ready : M S bool) : M S unit :=
  match polls with
  | O => fail Fuel
  | Datatypes.S polls => let* b := ready in if b then ret tt else poll polls ready
  end.
Context (polls : nat).
Definition uart_recv : M S Z :=
  do* poll polls uart_can_recv in
  let* v := io_read32 UART0 in ret (Z.land v 0xff).
Definition uart_send (c : Z) : M S unit :=
  do* poll polls uart_can_send in
  io_write32 UART0 (Z.land c 0xff).

(** Carriage return is 13, newline is 10. *)
Definition uart_getc : M S Z :=
  let* c := uart_recv in ret (if c =? 13 then 10 else c).
Definition uart_putc (c : Z) : M S unit :=
  do* (if c =? 10 then uart_send 13 else ret tt) in
  uart_send c.

(** [n] bytes are left to read; those read so far are in the buffer. *)
Fixpoint uart_read_loop (n : nat) : M S (list Z) :=
  match n with
  | O => ret []
  | Datatypes.S n =>
      let* ch := uart_getc in
      if ch =? 10 then ret [ch]
      else let* l := uart_read_loop n in ret (ch :: l)
  end.
Definition uart_read (size : Z) : M S (Z * list Z) :=
  let* l := uart_read_loop (Z.to_nat size) in ret (Z.of_nat (length l), l).
Fixpoint uart_write_loop (data : list Z) : M S unit :=
  match data with
  | [] => ret tt
  | c :: data => do* uart_putc c in uart_write_loop data
  end.
Definition uart_write (data : list Z) : M S Z :=
  do* uart_write_loop data in ret (Z.of_nat (length data)).

(** ** gic.c *)
Definition gic_init : M S unit :=
  do* io_write32 (GIC_CPU_BASE + GICC_PMR) 0xff in
  do* io_write32 (GIC_CPU_BASE + GICC_CTLR) 0x1 in
  io_write32 (GIC_DIST_BASE + GICD_CTLR) 0x1.
Definition gic_enable_irq (id : Z) : M S unit :=
  do* io_set32 (GICD_ISENABLER id) (Z.shiftl 0x1 (Z.land id 0x1f)) in
  do* io_set32 (GICD_ITARGETSR id) (Z.shiftl 0x1 (Z.land id 0x3 * 8)) in
  io_clear32 (GICD_ICFGR id) (Z.shiftl 0x3 (Z.land id 0xf * 2)).
Definition gic_interrupt_acknowledge : M S Z :=
  let* v := io_read32 (GIC_CPU_BASE + GICC_IAR) in ret (Z.land v 0x3ff).
Definition gic_end_of_interrupt (irq : Z) : M S unit :=
  io_write32 (GIC_CPU_BASE + GICC_EOIR) (Z.land irq 0x3ff).

(** ** timer.c *)
Definition timer_enable : M S unit :=
  do* gic_enable_irq IRQ_TIMER01 in
  do* io_write32 TIMER0 10000 in
  io_write32 (timer_register TIMER_CONTROL)
    (Z.lor (Z.lor (Z.lor TIMER_EN TIMER_PERIODIC) TIMER_32BIT) TIMER_INTEN).
Definition timer_is_masked : M S Z := io_read32 (timer_register TIMER_MIS).
Definition timer_clear_interrupt : M S unit := io_write32 (timer_register TIMER_INTCLR) 1.
End Devices.

(** ** The card: registers of mmc.c *)
Definition MMC_BASE : Z := 0x10005000.
Definition MMC_POWER : Z := 0x00.
Definition MMC_CLOCK : Z := 0x04.
Definition MMC_ARGUMENT : Z := 0x08.
Definition MMC_COMMAND : Z := 0x0c.
Definition MMC_RESPONSE0 : Z := 0x14.
Definition MMC_RESPONSE1 : Z := 0x18.
Definition MMC_RESPONSE2 : Z := 0x1c.
Definition MMC_RESPONSE3 : Z := 0x20.
Definition MMC_DATA_TIMER : Z := 0x24.
Definition MMC_DATA_LENGTH : Z := 0x28.
Definition MMC_DATA_CTRL : Z := 0x2c.
Definition MMC_STATUS : Z := 0x34.
Definition MMC_CLEAR : Z := 0x38.
Definition MMC_MASK0 : Z := 0x3c.
Definition MMC_FIFO : Z := 0x80.
Definition MMC_CMD_GO_IDLE_STATE : Z := 0.
Definition MMC_CMD_ALL_SEND_CID : Z := 2.
Definition MMC_CMD_SEND_RELATIVE_ADDR : Z := 3.
Definition MMC_CMD_SELECT_CARD : Z := 7.
Definition MMC_CMD_SEND_IF_COND : Z := 8.
Definition MMC_CMD_SEND_CSD : Z := 9.
Definition MMC_CMD_READ_SINGLE_BLOCK : Z := 17.
Definition MMC_CMD_WRITE_SINGLE_BLOCK : Z := 24.
Definition MMC_CMD_SD_APP_OP_COND : Z := 41.
Definition MMC_CMD_APP_CMD : Z := 55.
Definition MMC_CMD_RESPONSE : Z := Z.shiftl 1 6.
Definition MMC_CMD_LONG_RSP : Z := Z.shiftl 1 7.
Definition MMC_CMD_ENABLE : Z := Z.shiftl 1 10.
Definition MMC_RCA_MASK : Z := not32 (Z.shiftl 1 16 - 1).
Definition MMC_FIFO_SIZE : Z := 16.

(** [struct mmc_cmd_resp]; the words of a command without a response are not
    written. *)
Record mmc_cmd_resp : Set := MmcCmdResp { cr_status : Z; cr_mask : Z; cr_resp : list Z }.

Section Card.
Context {S : Type} {IO : Mmio S}.

Definition mmc_send_command (cmd arg : Z) : M S mmc_cmd_resp :=
  do* io_write32 (MMC_BASE + MMC_ARGUMENT) arg in
  do* io_write32 (MMC_BASE + MMC_COMMAND) cmd in
  let* status := io_read32 (MMC_BASE + MMC_STATUS) in
  let* mask := io_read32 (MMC_BASE + MMC_MASK0) in
  do* io_write32 (MMC_BASE + MMC_CLEAR) 0xfff in
  if truthy (Z.land cmd MMC_CMD_RESPONSE) then
    let* r0 := io_read32 (MMC_BASE + MMC_RESPONSE0) in
    let* r1 := io_read32 (MMC_BASE + MMC_RESPONSE1) in
    let* r2 := io_read32 (MMC_BASE + MMC_RESPONSE2) in
    let* r3 := io_read32 (MMC_BASE + MMC_RESPONSE3) in
    ret (MmcCmdResp status mask [r0; r1; r2; r3])
  else ret (MmcCmdResp status mask []).

(** The inner loops over the FIFO, a word each time. *)
Fixpoint mmc_fifo_write (words : list Z) : M S unit :=
  match words with
  | [] => ret tt
  | w :: words => do* io_write32 (MMC_BASE + MMC_FIFO) w in mmc_fifo_write words
  end.
Fixpoint mmc_fifo_read (n : nat) : M S (list Z) :=
  match n with
  | O => ret []
  | Datatypes.S n =>
      let* w := io_read32 (MMC_BASE + MMC_FIFO) in
      let* l := mmc_fifo_read n in
      ret (w :: l)
  end.
(** The loop of [mmc_read_block]: the status, then a full FIFO, [n] times. *)
Fixpoint mmc_fifo_read_blocks (n : nat) : M S (list Z) :=
  match n with
  | O => ret []
  | Datatypes.S n =>
      let* _ := io_read32 (MMC_BASE + MMC_STATUS) in
      let* l := mmc_fifo_read (Z.to_nat MMC_FIFO_SIZE) in
      let* r := mmc_fifo_read_blocks n in
      ret (l ++ r)
  end.

(** A sector of 512 bytes; the address is cut to a word. *)
Definition SECTOR_SIZE : Z := 0x200.
Definition words_of (data : list Z) : list Z :=
  map (fun i => get_word data (Z.of_nat i)) (seq 0 (Z.to_nat (SECTOR_SIZE / 4))).
Definition mmc_write_block (address : Z) (data : list Z) : M S Z :=
  do* io_write32 (MMC_BASE + MMC_DATA_TIMER) 0xa000 in
  do* io_write32 (MMC_BASE + MMC_DATA_LENGTH) 0x200 in
  do* io_write32 (MMC_BASE + MMC_DATA_CTRL) 0x91 in
  let* _ := mmc_send_command (Z.lor (Z.lor MMC_CMD_WRITE_SINGLE_BLOCK MMC_CMD_RESPONSE) MMC_CMD_ENABLE) (u32 address) in
  do* mmc_fifo_write (words_of data) in
  ret 0.
Definition mmc_read_block (address : Z) : M S (Z * list Z) :=
  do* io_write32 (MMC_BASE + MMC_DATA_TIMER) 0xa000 in
  do* io_write32 (MMC_BASE + MMC_DATA_LENGTH) 0x200 in
  do* io_write32 (MMC_BASE + MMC_DATA_CTRL) 0x93 in
  let* _ := mmc_send_command (Z.lor (Z.lor MMC_CMD_READ_SINGLE_BLOCK MMC_CMD_RESPONSE) MMC_CMD_ENABLE) (u32 address) in
  let* words := mmc_fifo_read_blocks (Z.to_nat (SECTOR_SIZE / 4 / MMC_FIFO_SIZE)) in
  ret (0, concat (map le32 words)).

Definition mmc_init : M S unit :=
  do* io_write32 (MMC_BASE + MMC_CLEAR) 0xfff in
  do* io_write32 (MMC_BASE + MMC_MASK0) 0x2ff in
  do* io_write32 (MMC_BASE + MMC_POWER) 0x2 in
  do* io_write32 (MMC_BASE + MMC_CLOCK) 0x11d in
  do* io_write32 (MMC_BASE + MMC_POWER) 0x3 in
  let* _ := mmc_send_command (Z.lor MMC_CMD_GO_IDLE_STATE MMC_CMD_ENABLE) 0x00 in
  let* _ := mmc_send_command (Z.lor (Z.lor MMC_CMD_SEND_IF_COND MMC_CMD_RESPONSE) MMC_CMD_ENABLE) 0x1aa in
  let* _ := mmc_send_command (Z.lor MMC_CMD_APP_CMD MMC_CMD_ENABLE) 0x00 in
  let* _ := mmc_send_command (Z.lor MMC_CMD_SD_APP_OP_COND MMC_CMD_ENABLE) 0x40300000 in
  let* _ := mmc_send_command (Z.lor (Z.lor (Z.lor MMC_CMD_ALL_SEND_CID MMC_CMD_RESPONSE) MMC_CMD_LONG_RSP) MMC_CMD_ENABLE) 0x00 in
  let* cresp := mmc_send_command (Z.lor (Z.lor MMC_CMD_SEND_RELATIVE_ADDR MMC_CMD_RESPONSE) MMC_CMD_ENABLE) 0x00 in
  let* resp := opt Fault (cr_resp cresp !! 0%nat) in
  let rca := Z.land resp MMC_RCA_MASK in
  let* _ := mmc_send_command (Z.lor (Z.lor (Z.lor MMC_CMD_SEND_CSD MMC_CMD_RESPONSE) MMC_CMD_LONG_RSP) MMC_CMD_ENABLE) rca in
  let* _ := mmc_send_command (Z.lor (Z.lor MMC_CMD_SELECT_CARD MMC_CMD_RESPONSE) MMC_CMD_ENABLE) rca in
  ret tt.
End Card.
