(* ===== verification/Uart.v ===== *)
(** * uart.c: properties

    What the serial port does ([UartLaws], with a simulated port as an instance),
    and what the loops of uart.c send and receive through it. *)

From stdpp Require Import base numbers list.
From S2P Require Import Prelude Unix Devices.

#[local] Open Scope Z_scope.
#[local] Open Scope kernel_scope.

(** The registers of the serial port (PL011).  [uart_sent]: the bytes sent;
    [uart_pending]: those received and not read yet; [uart_busy]: how many more
    reads of the flags show a full transmit queue, at most [uart_slow] of them
    after a byte was written. *)
Class UartLaws (D : Type) {IO : Mmio D} := {
  uart_sent : D -> list Z;
  uart_pending : D -> list Z;
  uart_busy : D -> nat;
  uart_slow : nat;
  uart_flags : forall d, exists v d', io_read32 (uart_register UARTFR) d = Ok (v, d') /\
    truthy (Z.land v UARTFR_TXFF) = negb (bool_decide (uart_busy d = 0%nat)) /\
    truthy (Z.land v UARTFR_RXFE) = bool_decide (uart_pending d = []) /\
    uart_sent d' = uart_sent d /\ uart_pending d' = uart_pending d /\ uart_busy d' = pred (uart_busy d);
  uart_put : forall d c, uart_busy d = 0%nat -> exists d', io_write32 UART0 c d = Ok (tt, d') /\
    uart_sent d' = uart_sent d ++ [c] /\ uart_pending d' = uart_pending d /\ (uart_busy d' <= uart_slow)%nat;
  uart_take : forall d c l, uart_pending d = c :: l -> exists v d', io_read32 UART0 d = Ok (v, d') /\
    Z.land v 0xff = c /\ uart_sent d' = uart_sent d /\ uart_pending d' = l /\ (uart_busy d' <= uart_busy d)%nat;
  uart_mask_read : forall d, exists v d', io_read32 (uart_register UARTIMSC) d = Ok (v, d') /\
    uart_sent d' = uart_sent d /\ uart_pending d' = uart_pending d /\ uart_busy d' = uart_busy d;
  uart_mask_write : forall d v, exists d', io_write32 (uart_register UARTIMSC) v d = Ok (tt, d') /\
    uart_sent d' = uart_sent d /\ uart_pending d' = uart_pending d /\ uart_busy d' = uart_busy d;
}.
(** The port is as before, as far as these laws speak of it. *)
Definition uart_same {D} {IO : Mmio D} {UL : UartLaws D} (d d' : D) : Prop :=
  uart_sent d' = uart_sent d /\ uart_pending d' = uart_pending d /\ uart_busy d' = uart_busy d.

(** What is sent for a character, and for a text. *)
Definition wire (c : Z) : list Z := if c =? 10 then [13; 10] else [Z.land c 0xff].
Definition wires (l : list Z) : list Z := concat (map wire l).
(** What is received: at most [n] characters, up to and with the first newline. *)
Definition received (c : Z) : Z := if c =? 13 then 10 else c.
Fixpoint line (n : nat) (l : list Z) : list Z :=
  match n, l with
  | Datatypes.S n, c :: l => if received c =? 10 then [10] else received c :: line n l
  | _, _ => []
  end.
(** [line n l] is all that was asked for. *)
Definition complete (n : nat) (l : list Z) : Prop := length (line n l) = n \/ last (line n l) = Some 10.

Section Uart.
Context {D : Type} {IO : Mmio D} {UL : UartLaws D}.
Implicit Types (d : D).

Lemma can_send_ok d : exists d', uart_can_send d = Ok (bool_decide (uart_busy d = 0%nat), d') /\ uart_sent d' = uart_sent d /\
  uart_pending d' = uart_pending d /\ uart_busy d' = pred (uart_busy d).
Proof.
  destruct (uart_flags d) as (v & d' & E & H1 & _ & H2 & H3 & H4). exists d'. unfold uart_can_send. mrun E.
  rewrite H1, negb_involutive. done.
Qed.
Lemma can_recv_ok d : exists d', uart_can_recv d = Ok (negb (bool_decide (uart_pending d = [])), d') /\ uart_sent d' = uart_sent d /\
  uart_pending d' = uart_pending d /\ uart_busy d' = pred (uart_busy d).
Proof.
  destruct (uart_flags d) as (v & d' & E & _ & H1 & H2 & H3 & H4). exists d'. unfold uart_can_recv. mrun E. rewrite H1. done.
Qed.

Lemma poll_send n : forall d, (uart_busy d < n)%nat ->
  exists d', poll n uart_can_send d = Ok (tt, d') /\ uart_sent d' = uart_sent d /\ uart_pending d' = uart_pending d /\
    uart_busy d' = 0%nat.
Proof.
  induction n as [|n IH]; intros d Hl; [lia|]. cbn [poll].
  destruct (can_send_ok d) as (d1 & E & H1 & H2 & H3). mrun E. case_bool_decide as H0.
  - exists d1. split_and!; try done. by rewrite H3, H0.
  - destruct (IH d1 ltac:(lia)) as (d' & E' & G1 & G2 & G3). exists d'. split_and!; [done|congruence|congruence|done].
Qed.

Lemma mask_ok d f : exists d', (let* v := io_read32 (uart_register UARTIMSC) in io_write32 (uart_register UARTIMSC) (f v)) d = Ok (tt, d') /\
  uart_same d d'.
Proof.
  destruct (uart_mask_read d) as (v & d1 & E1 & H1 & H2 & H3). mrun E1.
  destruct (uart_mask_write d1 (f v)) as (d' & E2 & G1 & G2 & G3). exists d'. split; [done|]. split_and!; congruence.
Qed.
Lemma interrupt_ok flags d : flags = O_RDONLY \/ flags = O_WRONLY ->
  (exists d', uart_set_interrupt flags d = Ok (tt, d') /\ uart_same d d') /\
  (exists d', uart_clear_interrupt flags d = Ok (tt, d') /\ uart_same d d').
Proof. intros [->| ->]; split; apply mask_ok. Qed.

Context (polls : nat) (Hpolls : (uart_slow < polls)%nat).

Lemma send_ok d c : (uart_busy d <= uart_slow)%nat ->
  exists d', uart_send polls c d = Ok (tt, d') /\ uart_sent d' = uart_sent d ++ [Z.land c 0xff] /\
    uart_pending d' = uart_pending d /\ (uart_busy d' <= uart_slow)%nat.
Proof.
  intros Hb. destruct (poll_send polls d) as (d1 & E & H1 & H2 & H3); [lia|].
  unfold uart_send. mrun E. destruct (uart_put d1 (Z.land c 0xff)) as (d' & Ep & G1 & G2 & G3); [lia|].
  exists d'. split_and!; [done|congruence|congruence|done].
Qed.
Lemma putc_ok d c : (uart_busy d <= uart_slow)%nat ->
  exists d', uart_putc polls c d = Ok (tt, d') /\ uart_sent d' = uart_sent d ++ wire c /\
    uart_pending d' = uart_pending d /\ (uart_busy d' <= uart_slow)%nat.
Proof.
  intros Hb. unfold uart_putc, wire. destruct (Z.eqb_spec c 10) as [->|_].
  - destruct (send_ok d 13 Hb) as (d1 & E & H1 & H2 & H3). mrun E. destruct (send_ok d1 10 H3) as (d' & E' & G1 & G2 & G3).
    exists d'. split_and!; [done| |congruence|done]. rewrite G1, H1, <- app_assoc. done.
  - erewrite bind_ok by reflexivity. by apply send_ok.
Qed.
Lemma uart_write_loop_ok l : forall d, (uart_busy d <= uart_slow)%nat ->
  exists d', uart_write_loop polls l d = Ok (tt, d') /\ uart_sent d' = uart_sent d ++ wires l /\
    uart_pending d' = uart_pending d /\ (uart_busy d' <= uart_slow)%nat.
Proof.
  induction l as [|c l IH]; intros d Hb.
  - exists d. by rewrite app_nil_r.
  - cbn [uart_write_loop]. destruct (putc_ok d c Hb) as (d1 & E & H1 & H2 & H3). mrun E.
    destruct (IH d1 H3) as (d' & E' & G1 & G2 & G3). exists d'. split_and!; [done| |congruence|done].
    rewrite G1, H1, <- app_assoc. done.
Qed.
Lemma uart_write_ok d l : (uart_busy d <= uart_slow)%nat ->
  exists d', uart_write polls l d = Ok (Z.of_nat (length l), d') /\ uart_sent d' = uart_sent d ++ wires l /\
    uart_pending d' = uart_pending d /\ (uart_busy d' <= uart_slow)%nat.
Proof.
  intros Hb. destruct (uart_write_loop_ok l d Hb) as (d' & E & H). exists d'. unfold uart_write. mrun E. done.
Qed.

(** ** Receiving *)
Lemma getc_ok d c l : uart_pending d = c :: l ->
  exists d', uart_getc polls d = Ok (received c, d') /\ uart_sent d' = uart_sent d /\ uart_pending d' = l /\
    (uart_busy d' <= uart_busy d)%nat /\ is_u8 (received c).
Proof.
  intros Hp. destruct (can_recv_ok d) as (d1 & E & H1 & H2 & H3). rewrite Hp in H2.
  destruct (uart_take d1 c l H2) as (v & d' & Et & Hv & G1 & G2 & G3). exists d'.
  assert (Er : uart_recv polls d = Ok (c, d')).
  { unfold uart_recv. destruct polls as [|n]; [lia|]. erewrite bind_ok by (cbn [poll]; mrun E; by rewrite Hp).
    mrun Et. by rewrite Hv. }
  unfold uart_getc. mrun Er. split_and!; [done|congruence|done|lia|].
  rewrite <- Hv. unfold received, is_u8. change 255 with (Z.ones 8). rewrite Z.land_ones by lia.
  pose proof (Z.mod_pos_bound v (2 ^ 8)). destruct (_ =? 13); lia.
Qed.
Lemma uart_read_loop_ok n : forall d, complete n (uart_pending d) ->
  exists d', uart_read_loop polls n d = Ok (line n (uart_pending d), d') /\ uart_sent d' = uart_sent d /\
    uart_pending d' = drop (length (line n (uart_pending d))) (uart_pending d).
Proof.
  induction n as [|n IH]; intros d Hc; [by exists d|]. cbn [uart_read_loop].
  destruct (uart_pending d) as [|c l] eqn:Hp; [by destruct Hc|].
  destruct (getc_ok d c l Hp) as (d1 & E & H1 & H2 & _). mrun E. cbn [line] in *. destruct (Z.eqb_spec (received c) 10) as [->|Hn].
  - by exists d1.
  - destruct (IH d1) as (d' & E' & G1 & G2).
    { rewrite H2. unfold complete in *. cbn [line] in Hc. rewrite (proj2 (Z.eqb_neq _ _)) in Hc by done. cbn [length] in Hc.
      destruct Hc as [Hc|Hc]; [left; lia|right]. destruct (line n l); [|done]. cbn in Hc. congruence. }
    mrun E'. exists d'. rewrite H2 in *. split_and!; [done|congruence|]. by rewrite G2.
Qed.
End Uart.

(** ** A simulated port

    The transmit queue is full for one poll after every byte. *)
Record sim_uart : Set := SimUart { su_sent : list Z; su_pending : list Z; su_busy : nat; su_mask : Z }.
Definition sim_flags (d : sim_uart) : Z :=
  (if decide (su_busy d = 0%nat) then 0 else UARTFR_TXFF) + (if decide (su_pending d = []) then UARTFR_RXFE else 0).

#[export] Instance sim_mmio : Mmio sim_uart := {|
  io_read32 a d :=
    if decide (a = uart_register UARTFR) then
      Ok (sim_flags d, SimUart (su_sent d) (su_pending d) (pred (su_busy d)) (su_mask d))
    else if decide (a = UART0) then
      match su_pending d with
      | c :: l => Ok (Z.land c 0xff, SimUart (su_sent d) l (su_busy d) (su_mask d))
      | [] => Ok (0, d)
      end
    else if decide (a = uart_register UARTIMSC) then Ok (su_mask d, d)
    else Err Fault;
  io_write32 a v d :=
    if decide (a = UART0) then Ok (tt, SimUart (su_sent d ++ [v]) (su_pending d) 1 (su_mask d))
    else if decide (a = uart_register UARTIMSC) then Ok (tt, SimUart (su_sent d) (su_pending d) (su_busy d) v)
    else Err Fault;
|}.
#[export] Program Instance sim_laws : UartLaws sim_uart := {|
  uart_sent := su_sent;
  uart_pending d := map (fun c => Z.land c 0xff) (su_pending d);
  uart_busy := su_busy;
  uart_slow := 1;
|}.
Next Obligation.
  intros d. exists (sim_flags d), (SimUart (su_sent d) (su_pending d) (pred (su_busy d)) (su_mask d)). split; [reflexivity|].
  unfold sim_flags. destruct (decide (su_busy d = 0%nat)) as [H|H], (decide (su_pending d = [])) as [G|G].
  all: rewrite ?(bool_decide_eq_true_2 _ H), ?(bool_decide_eq_false_2 _ H); split_and!; try done.
  all: try (rewrite G; reflexivity).
  all: destruct (su_pending d); done.
Qed.
Next Obligation. intros d c _. eexists. split; [reflexivity|]. by split_and!. Qed.
Next Obligation.
  intros d c l Hp. cbv beta in Hp. destruct (su_pending d) as [|b r] eqn:E; [done|]. injection Hp as <- <-.
  eexists _, (SimUart (su_sent d) r (su_busy d) (su_mask d)). split; [cbn; rewrite E; reflexivity|].
  split_and!; try done. by rewrite <- Z.land_assoc.
Qed.
Next Obligation. intros d. eexists _, _. split; [reflexivity|]. by split_and!. Qed.
Next Obligation. intros d v. eexists. split; [reflexivity|]. by split_and!. Qed.
