(* ===== verification/Mmu.v ===== *)
(** * mmu.c: model

    Page tables in memory.  A block taken from the page allocator is known by
    the number of its first page: [mm_words] holds the words of the tables by
    block and index, [mm_frames] the bytes of the other pages by page and
    offset.  Tables and data are kept apart: what a page that was a table holds
    when it is taken again as a page of user memory is not modelled.  The chain
    of pages that starts at [page_head] and the list [mappings] are sequences.

    [walk] is what the processor does with the tables: the short-descriptor
    format of ARMv7, two levels, small pages. *)

From stdpp Require Import base numbers list list_numbers gmap.
From S2P Require Import Prelude Hoare Buddy BuddyProofs KernelMem UserSpace.

#[local] Open Scope Z_scope.
#[local] Open Scope kernel_scope.

Definition L1_ENTRY_NUM : Z := 4096.
Definition L2_ENTRY_NUM : Z := 256.
Definition L1_SIZE : Z := L1_ENTRY_NUM * 4.
Definition L2_SIZE : Z := L2_ENTRY_NUM * 4.
Definition GET_L1_INDEX (addr : Z) : Z := Z.shiftr addr 20.
Definition GET_L2_INDEX (addr : Z) : Z := Z.shiftr (Z.land addr 0xff000) 12.
Definition GET_PAGE_SIZE (size : Z) : Z := Z.shiftr (u32 (u32 (size + PAGE_SIZE) - 1)) 12.
Definition FL_PAGE_TABLE : Z := 0x1.
Definition SL_SHORT_DESCRIPTOR : Z := 0x2.
Definition AP_PRIVILEGED_ACCESS : Z := 0x10.
Definition AP_FULL_ACCESS : Z := 0x30.
Definition VIRT_VECTORS_ADDR : Z := 0xffff0000.

(** [struct mapping]. *)
Record mapping : Set := Mapping { mp_pid : Z; mp_pages : list Z; mp_address : Z }.
Definition set_mp_pages (v : list Z) (x : mapping) : mapping := Mapping (mp_pid x) v (mp_address x).
Definition set_mp_address (v : Z) (x : mapping) : mapping := Mapping (mp_pid x) (mp_pages x) v.

Record mmu (S : Type) : Type := Mmu {
  mm_mem : S;
  mapping_cache : Z;
  mm_words : gmap (Z * Z) Z;
  mm_frames : gmap (Z * Z) Z;
  mm_objs : gmap Z mapping;
  mappings : list Z;
  mm_ttb : Z;
  current_pid : Z;
}.
Arguments Mmu {S}.
Arguments mm_mem {S}.
Arguments mapping_cache {S}.
Arguments mm_words {S}.
Arguments mm_frames {S}.
Arguments mm_objs {S}.
Arguments mappings {S}.
Arguments mm_ttb {S}.
Arguments current_pid {S}.
Definition set_mm_mem {S : Type} (v : S) (x : mmu S) : mmu S :=
  Mmu v (mapping_cache x) (mm_words x) (mm_frames x) (mm_objs x) (mappings x) (mm_ttb x) (current_pid x).
Definition set_mm_words {S : Type} (v : gmap (Z * Z) Z) (x : mmu S) : mmu S :=
  Mmu (mm_mem x) (mapping_cache x) v (mm_frames x) (mm_objs x) (mappings x) (mm_ttb x) (current_pid x).
Definition set_mm_frames {S : Type} (v : gmap (Z * Z) Z) (x : mmu S) : mmu S :=
  Mmu (mm_mem x) (mapping_cache x) (mm_words x) v (mm_objs x) (mappings x) (mm_ttb x) (current_pid x).
Definition set_mm_objs {S : Type} (v : gmap Z mapping) (x : mmu S) : mmu S :=
  Mmu (mm_mem x) (mapping_cache x) (mm_words x) (mm_frames x) v (mappings x) (mm_ttb x) (current_pid x).
Definition set_mappings {S : Type} (v : list Z) (x : mmu S) : mmu S :=
  Mmu (mm_mem x) (mapping_cache x) (mm_words x) (mm_frames x) (mm_objs x) v (mm_ttb x) (current_pid x).
Definition set_ttb {S : Type} (ttb pid : Z) (x : mmu S) : mmu S :=
  Mmu (mm_mem x) (mapping_cache x) (mm_words x) (mm_frames x) (mm_objs x) (mappings x) ttb pid.

(** The address of a page, and the page of an address. *)
Definition page_base (page : Z) : Z := PAGE_START + PAGE_SIZE * page.
Definition page_of (address : Z) : Z := (address - PAGE_START) / PAGE_SIZE.

Section Mmu.
Context {S : Type} `{KM : KernelMem S}.
Notation state := (mmu S).
(** The bytes between [vectors_start] and [vectors_end] (asm/vectors.s). *)
Context (vectors : list Z).

Definition mem {A} (m : M S A) : M state A := within mm_mem set_mm_mem m.

Definition get_mapping (a : Z) : M state mapping :=
  let* m := gets mm_objs in opt Fault (m !! a).
Definition upd_mapping (a : Z) (f : mapping -> mapping) : M state unit :=
  let* x := get_mapping a in modify (fun s => set_mm_objs (<[a := f x]> (mm_objs s)) s).

(** [table[i]], for the table at the address [table]. *)
Definition load_word (table i : Z) : M state Z :=
  let* m := gets mm_words in opt Fault (m !! (page_of table, i)).
Definition store_word (table i v : Z) : M state unit :=
  let* _ := load_word table i in
  modify (fun s => set_mm_words (<[(page_of table, i) := v]> (mm_words s)) s).

Definition add_page (mapping page : Z) : M state unit :=
  upd_mapping mapping (fun m => set_mp_pages (page :: mp_pages m) m).

Fixpoint release_pages (l : list Z) : M state unit :=
  match l with
  | [] => ret tt
  | page :: l => do* mem (km_page_free page) in release_pages l
  end.

(** [memset] of a table of [n] entries to 0. *)
Definition zero_table (page n : Z) (m : gmap (Z * Z) Z) : gmap (Z * Z) Z :=
  list_to_map (map (fun i => ((page, i), 0)) (seqZ 0 n)) ∪ m.

Definition mmu_create_pl1 (mapping : Z) : M state Z :=
  let* page := mem (km_page_alloc L1_SIZE) in
  do* add_page mapping page in
  do* modify (fun s => set_mm_words (zero_table page L1_ENTRY_NUM (mm_words s)) s) in
  ret (page_base page).
Definition mmu_create_pl2 (mapping : Z) : M state Z :=
  let* page := mem (km_page_alloc L2_SIZE) in
  do* add_page mapping page in
  do* modify (fun s => set_mm_words (zero_table page L2_ENTRY_NUM (mm_words s)) s) in
  ret (page_base page).
Definition mmu_create_page (mapping : Z) : M state Z :=
  let* page := mem (km_page_alloc PAGE_SIZE) in
  do* add_page mapping page in
  ret (page_base page).

Definition mmu_create_and_fill_pl2 (mapping l1_i : Z) : M state Z :=
  let* m := get_mapping mapping in
  let pl1 := mp_address m in
  let* w := load_word pl1 l1_i in
  do* (if negb (truthy (Z.land w FL_PAGE_TABLE)) then
         let* pl2 := mmu_create_pl2 mapping in
         store_word pl1 l1_i (Z.lor (Z.land 0xfffffc00 pl2) FL_PAGE_TABLE)
       else ret tt) in
  let* w := load_word pl1 l1_i in
  ret (Z.land 0xfffffc00 w).

(** The loop of [mmu_create_mapping], [n] entries from [i] on. *)
Fixpoint map_pages (n : nat) (mapping pl2 i ap : Z) : M state unit :=
  match n with
  | O => ret tt
  | Datatypes.S n =>
      let* page := mmu_create_page mapping in
      do* store_word pl2 i (Z.lor (Z.lor page SL_SHORT_DESCRIPTOR) ap) in
      map_pages n mapping pl2 (i + 1) ap
  end.
Definition mmu_create_mapping (mapping addr size : Z) (is_privileged : bool) : M state Z :=
  let l1_i := GET_L1_INDEX addr in
  let l2_i := GET_L2_INDEX addr in
  if L2_ENTRY_NUM <? u32 (l2_i + GET_PAGE_SIZE size) then ret (-1)
  else
    let* pl2 := mmu_create_and_fill_pl2 mapping l1_i in
    do* map_pages (Z.to_nat (GET_PAGE_SIZE size)) mapping pl2 l2_i
          (if is_privileged then AP_PRIVILEGED_ACCESS else AP_FULL_ACCESS) in
    ret 0.

(** The loop of [mmu_create_straight_mapping] from [i] on. *)
Fixpoint map_straight (n : nat) (pl2 l2_i addr i : Z) : M state unit :=
  match n with
  | O => ret tt
  | Datatypes.S n =>
      let new_addr := u32 (Z.land addr 0xfffff000 + PAGE_SIZE * i) in
      do* store_word pl2 (l2_i + i) (Z.lor (Z.lor new_addr SL_SHORT_DESCRIPTOR) AP_PRIVILEGED_ACCESS) in
      map_straight n pl2 l2_i addr (i + 1)
  end.
Definition mmu_create_straight_mapping (mapping addr size : Z) : M state Z :=
  let l1_i := GET_L1_INDEX addr in
  let l2_i := GET_L2_INDEX addr in
  if L2_ENTRY_NUM <? u32 (l2_i + GET_PAGE_SIZE size) then ret (-1)
  else
    let* pl2 := mmu_create_and_fill_pl2 mapping l1_i in
    do* map_straight (Z.to_nat (GET_PAGE_SIZE size)) pl2 l2_i addr 0 in
    ret 0.

Definition mmu_create_vectors_mapping (mapping : Z) : M state unit :=
  let l1_i := GET_L1_INDEX VIRT_VECTORS_ADDR in
  let l2_i := GET_L2_INDEX VIRT_VECTORS_ADDR in
  let* pl2 := mmu_create_and_fill_pl2 mapping l1_i in
  let* page := mmu_create_page mapping in
  do* modify (fun s => set_mm_frames
        (list_to_map (imap (fun i b => ((page_of page, Z.of_nat i), b)) vectors) ∪ mm_frames s) s) in
  store_word pl2 l2_i (Z.lor (Z.lor page SL_SHORT_DESCRIPTOR) AP_PRIVILEGED_ACCESS).

(** The kernel in pieces of 1 MB. *)
Fixpoint map_kernel (n : nat) (mapping i : Z) : M state unit :=
  match n with
  | O => ret tt
  | Datatypes.S n =>
      let* _ := mmu_create_straight_mapping mapping (0x60000000 + 0x100000 * i) 0x100000 in
      map_kernel n mapping (i + 1)
  end.
Definition mmu_create_kernel_mappings (mapping : Z) : M state Z :=
  do* mmu_create_vectors_mapping mapping in
  do* map_kernel 144 mapping 0 in
  let* _ := mmu_create_straight_mapping mapping 0x10000000 0x20000 in
  let* _ := mmu_create_straight_mapping mapping 0x1e000000 0x2000 in
  ret 0.

(** The walk over [mappings] to the one of [pid]. *)
Fixpoint find_mapping (l : list Z) (pid : Z) : M state (option Z) :=
  match l with
  | [] => ret None
  | a :: l =>
      let* m := get_mapping a in
      if mp_pid m =? pid then ret (Some a) else find_mapping l pid
  end.

Definition mmu_mapping_fetch (pid : Z) : M state Z :=
  let* l := gets mappings in
  let* found := find_mapping l pid in
  match found with
  | Some a => ret a
  | None =>
      let* c := gets mapping_cache in
      let* a := mem (km_obj_alloc c) in
      do* modify (fun s => set_mm_objs (<[a := Mapping pid [] 0]> (mm_objs s)) s) in
      let* pl1 := mmu_create_pl1 a in
      do* upd_mapping a (set_mp_address pl1) in
      let* _ := mmu_create_kernel_mappings a in
      do* modify (fun s => set_mappings (a :: mappings s) s) in
      ret a
  end.

Definition mmu_set_ttb (pid : Z) : M state Z :=
  let* a := mmu_mapping_fetch pid in
  let* m := get_mapping a in
  let addr := mp_address m in
  let* old_pid := gets current_pid in
  do* modify (set_ttb (Z.land addr 0xffffc000) pid) in
  ret old_pid.

(** After [list_foreach] the cursor is never [NULL]; when no mapping has the
    identifier it is not a mapping at all. *)
Definition mmu_destroy (pid : Z) : M state Z :=
  let* l := gets mappings in
  let* found := find_mapping l pid in
  let* a := opt Fault found in
  let* _ := mmu_set_ttb 0 in
  do* modify (fun s => set_mappings (filter (fun x => x <> a) (mappings s)) s) in
  let* m := get_mapping a in
  do* release_pages (mp_pages m) in
  let* c := gets mapping_cache in
  do* mem (km_obj_free c a) in
  do* modify (fun s => set_mm_objs (delete a (mm_objs s)) s) in
  ret 0.

Definition mmu_alloc (pid addr size : Z) : M state Z :=
  let* a := mmu_mapping_fetch pid in
  mmu_create_mapping a addr size false.

(** [mmu_init] after the cache has been created. *)
Definition mmu_init : M state unit :=
  do* modify (set_mappings []) in
  let* _ := mmu_set_ttb 0 in
  ret tt.

(** ** The processor *)

(** The descriptor of the page of an address (of 32 bits), in the tables at
    [table]. *)
Definition walk (s : state) (table va : Z) : option Z :=
  _ ← guard (0 <= va < 2 ^ 32);
  w1 ← mm_words s !! (page_of table, Z.shiftr va 20);
  if Z.land w1 3 =? FL_PAGE_TABLE then
    w2 ← mm_words s !! (page_of (Z.land 0xfffffc00 w1), Z.land (Z.shiftr va 12) 0xff);
    if truthy (Z.land w2 SL_SHORT_DESCRIPTOR) then Some w2 else None
  else None.
(** The descriptor lets user programs read and write the page. *)
Definition user_pte (w : Z) : bool := truthy (Z.land w SL_SHORT_DESCRIPTOR) && (Z.land w AP_FULL_ACCESS =? AP_FULL_ACCESS).
(** The place of a byte: page and offset. *)
Definition place (w va : Z) : Z * Z := (page_of (Z.land w 0xfffff000), Z.land va 0xfff).
Definition byte_at (s : state) (p : Z * Z) : Z := u8 (default 0 (mm_frames s !! p)).

(** The place in RAM of a byte of user memory, in the tables at [table]. *)
Definition translate (s : state) (table va : Z) : option (Z * Z) :=
  w ← walk s table va;
  if user_pte w then Some (place w va) else None.

(** A byte of user memory read and written through the tables in use.  An
    access to anything else (an abort, or the kernel's own memory) is outside of
    the model. *)
Definition mmu_load (va : Z) : M state Z := fun s =>
  match translate s (mm_ttb s) va with
  | Some p => Ok (byte_at s p, s)
  | None => Err Fault
  end.
Definition mmu_store (va v : Z) : M state unit := fun s =>
  match translate s (mm_ttb s) va with
  | Some p => Ok (tt, set_mm_frames (<[p := v]> (mm_frames s)) s)
  | None => Err Fault
  end.

(** The byte a user program of the process [pid] reads. *)
Fixpoint mapping_in (objs : gmap Z mapping) (l : list Z) (pid : Z) : option Z :=
  match l with
  | [] => None
  | a :: l => m ← objs !! a; if mp_pid m =? pid then Some a else mapping_in objs l pid
  end.
Definition user_byte (s : state) (pid va : Z) : option Z :=
  a ← mapping_in (mm_objs s) (mappings s) pid;
  m ← mm_objs s !! a;
  p ← translate s (mp_address m) va;
  Some (byte_at s p).
End Mmu.
