(* ===== verification/MmuTables.v ===== *)
(** * mmu.c: the page tables

    Who owns the pages that hold tables and user memory.  [O] gives for the
    first page of a block the mapping that took it and the role it plays there;
    [tables_inv] says that the words of the tables and the owners agree: every
    live entry leads to the one page that has the entry's role, so no page of
    user memory is reached twice, from one mapping or from two. *)

From stdpp Require Import base numbers list list_numbers gmap.
From S2P Require Import Prelude Buddy BuddyProofs KernelMem UserSpace Mmu.

#[local] Open Scope Z_scope.
#[local] Open Scope kernel_scope.

(** First-level table, table of the megabyte [i], page of user memory at the
    virtual page [v], any other page. *)
Inductive role : Set := RL1 | RL2 (i : Z) | RUser (v : Z) | ROther.
#[export] Instance role_eq_dec : EqDecision role.
Proof. solve_decision. Defined.

Notation owners := (gmap Z (Z * role)).
Implicit Types (O : owners) (words : gmap (Z * Z) Z) (objs : gmap Z mapping).

(** ** Descriptors *)
Definition l1_word (q : Z) : Z := page_base q + 1.
Definition user_word (u : Z) : Z := page_base u + 0x32.

Definition page_bits (p : Z) : bool :=
  (Z.lor (Z.land 0xfffffc00 (page_base p)) FL_PAGE_TABLE =? l1_word p) &&
  (Z.land (l1_word p) FL_PAGE_TABLE =? 1) && (Z.land (l1_word p) 3 =? 1) &&
  (Z.land 0xfffffc00 (l1_word p) =? page_base p) &&
  (Z.lor (Z.lor (page_base p) SL_SHORT_DESCRIPTOR) AP_FULL_ACCESS =? user_word p) &&
  (Z.land (user_word p) 0xfffff000 =? page_base p) && user_pte (user_word p) &&
  negb (user_pte (Z.lor (Z.lor (page_base p) SL_SHORT_DESCRIPTOR) AP_PRIVILEGED_ACCESS)) &&
  ((negb (p mod 4 =? 0)) || (Z.land (page_base p) 0xffffc000 =? page_base p)).

Fixpoint all_from (f : Z -> bool) (n : nat) (p : Z) : bool :=
  match n with O => true | S n => f p && all_from f n (p + 1) end.

Lemma all_from_spec f n : forall p q, all_from f n p = true -> p <= q < p + Z.of_nat n -> f q = true.
Proof.
  induction n as [|n IH]; intros p q; [lia|]. cbn [all_from]. intros [H1 H2]%andb_true_iff Hq.
  destruct (Z.eq_dec q p) as [->|]; [done|]. apply (IH _ _ H2). lia.
Qed.

(** All addresses of pages have the same few bits clear. *)
Lemma page_bits_all p : 0 <= p < PAGE_NUM -> page_bits p = true.
Proof.
  intros Hp. apply (all_from_spec page_bits (Z.to_nat PAGE_NUM) 0); [vm_compute; reflexivity|].
  rewrite Z2Nat.id; unfold PAGE_NUM in *; lia.
Qed.

Ltac page_bits p :=
  let H := fresh in pose proof (page_bits_all p ltac:(lia)) as H; unfold page_bits in H;
  repeat (apply andb_true_iff in H as [H ?]); repeat match goal with H : (_ =? _) = true |- _ => apply Z.eqb_eq in H end.

Lemma page_of_base p : page_of (page_base p) = p.
Proof. unfold page_of, page_base, PAGE_SIZE. replace (PAGE_START + 4096 * p - PAGE_START) with (p * 4096) by lia. by apply Z.div_mul. Qed.

Section Bits.
Context (p : Z) (Hp : 0 <= p < PAGE_NUM).

Lemma l1_word_make : Z.lor (Z.land 0xfffffc00 (page_base p)) FL_PAGE_TABLE = l1_word p.
Proof using Hp. by page_bits p. Qed.
Lemma l1_word_live : truthy (Z.land (l1_word p) FL_PAGE_TABLE) = true.
Proof using Hp. page_bits p. unfold truthy. by replace (Z.land _ _) with 1. Qed.
Lemma l1_word_table : (Z.land (l1_word p) 3 =? FL_PAGE_TABLE) = true.
Proof using Hp. page_bits p. by replace (Z.land _ 3) with 1. Qed.
Lemma l1_word_base : Z.land 0xfffffc00 (l1_word p) = page_base p.
Proof using Hp. by page_bits p. Qed.
Lemma user_word_make : Z.lor (Z.lor (page_base p) SL_SHORT_DESCRIPTOR) AP_FULL_ACCESS = user_word p.
Proof using Hp. by page_bits p. Qed.
Lemma user_word_base : Z.land (user_word p) 0xfffff000 = page_base p.
Proof using Hp. by page_bits p. Qed.
Lemma user_word_pte : user_pte (user_word p) = true.
Proof using Hp. by page_bits p. Qed.
Lemma kernel_word_pte : user_pte (Z.lor (Z.lor (page_base p) SL_SHORT_DESCRIPTOR) AP_PRIVILEGED_ACCESS) = false.
Proof using Hp. page_bits p. by apply negb_true_iff. Qed.
Lemma ttb_base : (4 | p) -> Z.land (page_base p) 0xffffc000 = page_base p.
Proof using Hp.
  intros Hd. page_bits p. apply Z.mod_divide in Hd; [|lia].
  match goal with H : _ || _ = true |- _ => rewrite Hd in H; by apply Z.eqb_eq in H end.
Qed.
End Bits.

(** The address of a straight mapping is a multiple of the page size. *)
Lemma straight_word_pte k : user_pte (Z.lor (Z.lor (u32 (PAGE_SIZE * k)) SL_SHORT_DESCRIPTOR) AP_PRIVILEGED_ACCESS) = false.
Proof.
  unfold user_pte. apply andb_false_iff. right. apply Z.eqb_neq. intros E.
  apply (f_equal (fun z => Z.testbit z 5)) in E. revert E. rewrite Z.land_spec, !Z.lor_spec. change (Z.testbit AP_FULL_ACCESS 5) with true.
  change (Z.testbit SL_SHORT_DESCRIPTOR 5) with false. change (Z.testbit AP_PRIVILEGED_ACCESS 5) with false.
  unfold u32. rewrite Z.mod_pow2_bits_low by lia. change PAGE_SIZE with (2 ^ 12).
  rewrite Z.mul_comm, Z.mul_pow2_bits_low by lia. done.
Qed.

Lemma user_pte_live w : user_pte w = true -> truthy (Z.land w SL_SHORT_DESCRIPTOR) = true.
Proof. unfold user_pte. by intros [? _]%andb_true_iff. Qed.

(** ** The entries of a table *)

(** The word [w] of an entry whose page has the role [x]: no page has it and the
    word is dead, or one page has it and the word leads there. *)
Definition slot O (x : Z * role) (w : Z) (dead : Prop) (enc : Z -> Z) : Prop :=
  (dead /\ forall p, O !! p <> Some x) \/
  exists p, w = enc p /\ O !! p = Some x /\ forall p', O !! p' = Some x -> p' = p.

Lemma slot_ext O O' x w dead enc : (forall p, O' !! p = Some x <-> O !! p = Some x) ->
  slot O x w dead enc -> slot O' x w dead enc.
Proof.
  intros HO [[Hd Hn]|(p & -> & Hp & Hu)]; [left|right].
  - split; [done|]. intros p. by rewrite HO.
  - exists p. split; [done|]. split; [by apply HO|]. intros p' ?%HO. by apply Hu.
Qed.

Definition l1_slot words O (a p i : Z) : Prop :=
  exists w, words !! (p, i) = Some w /\ slot O (a, RL2 i) w (w = 0) l1_word.
Definition l2_slot words O (a q i j : Z) : Prop :=
  exists w, words !! (q, j) = Some w /\ slot O (a, RUser (256 * i + j)) w (user_pte w = false) user_word.

Record tables_inv words objs O : Prop := {
  ti_range : forall p x, O !! p = Some x -> 0 <= p < PAGE_NUM;
  ti_pages : forall a m, objs !! a = Some m ->
    NoDup (mp_pages m) /\ forall p, p ∈ mp_pages m <-> exists r, O !! p = Some (a, r);
  ti_owner : forall p a r, O !! p = Some (a, r) -> is_Some (objs !! a);
  ti_l1 : forall a m, objs !! a = Some m ->
    exists p, mp_address m = page_base p /\ (4 | p) /\ O !! p = Some (a, RL1) /\
      forall i, 0 <= i < 4096 -> l1_slot words O a p i;
  ti_l2 : forall q a i, O !! q = Some (a, RL2 i) ->
    0 <= i < 4096 /\ forall j, 0 <= j < 256 -> l2_slot words O a q i j;
  ti_user : forall u a v, O !! u = Some (a, RUser v) -> 0 <= v /\ exists q, O !! q = Some (a, RL2 (v / 256));
}.

Definition grow (p : Z) (m : mapping) : mapping := set_mp_pages (p :: mp_pages m) m.

Lemma zero_table_lookup words p n q i :
  zero_table p n words !! (q, i) = if decide (q = p /\ 0 <= i < n) then Some 0 else words !! (q, i).
Proof.
  unfold zero_table.
  assert (Hnd : NoDup (map (fun i => ((p, i), 0)) (seqZ 0 n)).*1).
  { rewrite <- list_fmap_compose. apply NoDup_fmap_2; [intros ? ? [=]; done|apply NoDup_seqZ]. }
  case_decide as Hd.
  - destruct Hd as [-> Hi]. apply lookup_union_Some_l, elem_of_list_to_map_1; [done|].
    apply list_elem_of_fmap. exists i. split; [done|]. apply elem_of_seqZ. lia.
  - apply lookup_union_r, not_elem_of_list_to_map_1. intros Hin.
    apply list_elem_of_fmap in Hin as ([y z] & E & Hin). apply list_elem_of_fmap in Hin as (k & [= -> ->] & Hk%elem_of_seqZ).
    injection E as -> ->. apply Hd. split; [done|lia].
Qed.

Section Steps.
Context (words : gmap (Z * Z) Z) (objs : gmap Z mapping) (O : owners) (HT : tables_inv words objs O).

(** A page joins a mapping: what is left to show is its own role. *)
Lemma grow_pages a m p r : objs !! a = Some m -> O !! p = None ->
  forall b n, <[a := grow p m]> objs !! b = Some n ->
    NoDup (mp_pages n) /\ forall q, q ∈ mp_pages n <-> exists s, <[p := (a, r)]> O !! q = Some (b, s).
Proof using HT.
  intros Ha Hp b n. destruct (decide (b = a)) as [->|Hb].
  - rewrite lookup_insert_eq. intros [= <-]. destruct (ti_pages _ _ _ HT _ _ Ha) as [Hn Hin]. cbn. split.
    + apply NoDup_cons. split; [|done]. rewrite Hin. intros [s Hs]. congruence.
    + intros q. rewrite elem_of_cons, Hin. destruct (decide (q = p)) as [->|Hq].
      * rewrite lookup_insert_eq. split; [|by left]. intros _. by eexists.
      * rewrite lookup_insert_ne by congruence. split; [by intros [?|?]|by right].
  - rewrite lookup_insert_ne by congruence. intros Hbn. destruct (ti_pages _ _ _ HT _ _ Hbn) as [Hn Hin]. split; [done|].
    intros q. rewrite Hin. destruct (decide (q = p)) as [->|Hq]; [|by rewrite lookup_insert_ne by congruence].
    rewrite lookup_insert_eq, Hp. split; intros [s Hs]; congruence.
Qed.

Lemma grow_owner a m p r : objs !! a = Some m ->
  forall q b s, <[p := (a, r)]> O !! q = Some (b, s) -> is_Some (<[a := grow p m]> objs !! b).
Proof using HT.
  intros Ha q b s. destruct (decide (b = a)) as [->|Hb]; [rewrite lookup_insert_eq; by eexists|].
  rewrite (lookup_insert_ne objs) by congruence. destruct (decide (q = p)) as [->|Hq].
  - rewrite lookup_insert_eq. congruence.
  - rewrite lookup_insert_ne by congruence. apply (ti_owner _ _ _ HT).
Qed.

Lemma insert_range p x : 0 <= p < PAGE_NUM -> forall q y, <[p := x]> O !! q = Some y -> 0 <= q < PAGE_NUM.
Proof using HT.
  intros Hp q y. destruct (decide (q = p)) as [->|]; [done|]. rewrite lookup_insert_ne by congruence. apply (ti_range _ _ _ HT).
Qed.

Lemma insert_fresh p x y q : O !! p = None -> x <> y -> <[p := x]> O !! q = Some y <-> O !! q = Some y.
Proof using Type.
  intros Hp Hxy. destruct (decide (q = p)) as [->|]; [|by rewrite lookup_insert_ne by congruence].
  rewrite lookup_insert_eq, Hp. split; congruence.
Qed.

Lemma grow_l1 a m p b n : objs !! a = Some m -> <[a := grow p m]> objs !! b = Some n ->
  exists n', objs !! b = Some n' /\ mp_address n' = mp_address n.
Proof using Type.
  intros Ha. destruct (decide (b = a)) as [->|]; [rewrite lookup_insert_eq; intros [= <-]; by exists m|].
  rewrite lookup_insert_ne by congruence. intros H. by exists n.
Qed.

Lemma tables_new_other a m p : objs !! a = Some m -> O !! p = None -> 0 <= p < PAGE_NUM ->
  tables_inv words (<[a := grow p m]> objs) (<[p := (a, ROther)]> O).
Proof using HT.
  intros Ha Hp Hr. split.
  - by apply insert_range.
  - by apply grow_pages.
  - by apply grow_owner.
  - intros b n Hb. destruct (grow_l1 _ _ _ _ _ Ha Hb) as (n' & Hn & <-).
    destruct (ti_l1 _ _ _ HT _ _ Hn) as (q & E & Hd & Hq & Hs). exists q. split_and!; [done|done|by apply insert_fresh|].
    intros i Hi. destruct (Hs i Hi) as (w & Hw & Hsl). exists w. split; [done|].
    eapply slot_ext; [|done]. intros ?. by apply insert_fresh.
  - intros q b i [Hi Hq]%insert_fresh%(ti_l2 _ _ _ HT); [|done|done]. split; [done|]. intros j Hj.
    destruct (Hq j Hj) as (w & Hw & Hsl). exists w. split; [done|].
    eapply slot_ext; [|done]. intros ?. by apply insert_fresh.
  - intros u b v [Hv [q Hq]]%insert_fresh%(ti_user _ _ _ HT); [|done|done]. split; [done|]. exists q. by apply insert_fresh.
Qed.

(** The page of a table that is already there. *)
Lemma other_page p q x : O !! p = None -> O !! q = Some x -> q <> p.
Proof using Type. congruence. Qed.

(** A table for the megabyte [i]. *)
Lemma tables_new_l2 a m p1 p i : objs !! a = Some m -> mp_address m = page_base p1 -> O !! p1 = Some (a, RL1) ->
  O !! p = None -> 0 <= p < PAGE_NUM -> 0 <= i < 4096 -> (forall q, O !! q <> Some (a, RL2 i)) ->
  tables_inv (<[(p1, i) := l1_word p]> (zero_table p 256 words)) (<[a := grow p m]> objs) (<[p := (a, RL2 i)]> O).
Proof using HT.
  intros Ha Hm Hp1 Hp Hr Hi Hno.
  assert (Huser : forall q v, <[p := (a, RL2 i)]> O !! q = Some v -> v <> (a, RL2 i) -> O !! q = Some v).
  { intros q v Hq Hv. by apply (insert_fresh p (a, RL2 i)) in Hq. }
  assert (Hw : forall q j, q <> p -> (q, j) <> (p1, i) ->
    <[(p1, i) := l1_word p]> (zero_table p 256 words) !! (q, j) = words !! (q, j)).
  { intros q j Hq Hj. rewrite lookup_insert_ne by congruence. rewrite zero_table_lookup, decide_False; [done|]. by intros [? _]. }
  split.
  - by apply insert_range.
  - by apply grow_pages.
  - by apply grow_owner.
  - intros b n Hb. destruct (grow_l1 _ _ _ _ _ Ha Hb) as (n' & Hn & <-).
    destruct (ti_l1 _ _ _ HT _ _ Hn) as (q & E & Hd & Hq & Hs).
    pose proof (other_page _ _ _ Hp Hq) as Hqp.
    exists q. split_and!; [done|done|by rewrite lookup_insert_ne by congruence|].
    intros k Hk. destruct (Hs k Hk) as (w & Hwk & Hsl). destruct (decide ((q, k) = (p1, i))) as [[= -> ->]|Hne].
    + assert (b = a) as -> by congruence. exists (l1_word p). rewrite lookup_insert_eq. split; [done|]. right. exists p.
      rewrite lookup_insert_eq. split_and!; [done|done|]. intros p' Hp'. destruct (decide (p' = p)); [done|].
      rewrite lookup_insert_ne in Hp' by congruence. by destruct (Hno p').
    + exists w. rewrite Hw by done. split; [done|]. eapply slot_ext; [|done]. intros x. apply insert_fresh; [done|].
      intros [= <- <-]. apply Hne. replace n' with m in * by congruence.
      f_equal. rewrite <- (page_of_base q), <- (page_of_base p1). congruence.
  - intros q b k Hq. destruct (decide (q = p)) as [->|Hqp].
    + rewrite lookup_insert_eq in Hq. injection Hq as <- <-. split; [done|]. intros j Hj. exists 0.
      assert ((p1, i) <> (p, j)) by (intros [= -> _]; congruence).
      rewrite lookup_insert_ne, zero_table_lookup, decide_True by done. split; [done|]. left. split; [done|].
      intros u Hu. apply Huser in Hu; [|done]. destruct (ti_user _ _ _ HT _ _ _ Hu) as (_ & q & Hq).
      replace ((256 * i + j) / 256) with i in Hq by (Z.to_euclidean_division_equations; lia). by destruct (Hno q).
    + rewrite lookup_insert_ne in Hq by congruence. destruct (ti_l2 _ _ _ HT _ _ _ Hq) as [Hk Hs]. split; [done|].
      intros j Hj. destruct (Hs j Hj) as (w & Hwj & Hsl). exists w. rewrite Hw by congruence. split; [done|].
      eapply slot_ext; [|done]. intros x. by apply insert_fresh.
  - intros u b v Hu. apply Huser in Hu; [|done]. destruct (ti_user _ _ _ HT _ _ _ Hu) as [Hv [q Hq]]. split; [done|].
    exists q. destruct (decide ((b, RL2 (v / 256)) = (a, RL2 i))) as [E|]; [rewrite E in Hq; by destruct (Hno q)|].
    by apply insert_fresh.
Qed.

(** A new mapping, with its first-level table. *)
Lemma tables_new_l1 a pid p : objs !! a = None -> O !! p = None -> 0 <= p < PAGE_NUM -> (4 | p) ->
  tables_inv (zero_table p 4096 words) (<[a := Mapping pid [p] (page_base p)]> objs) (<[p := (a, RL1)]> O).
Proof using HT.
  intros Ha Hp Hr Hd.
  assert (Hno : forall q r, O !! q <> Some (a, r)).
  { intros q r Hq. destruct (ti_owner _ _ _ HT _ _ _ Hq). congruence. }
  assert (Hw : forall q j, q <> p -> zero_table p 4096 words !! (q, j) = words !! (q, j)).
  { intros q j Hq. rewrite zero_table_lookup, decide_False; [done|]. by intros [? _]. }
  split.
  - by apply insert_range.
  - intros b n. destruct (decide (b = a)) as [->|Hb].
    + rewrite lookup_insert_eq. intros [= <-]. cbn. split; [apply NoDup_singleton|]. intros q.
      rewrite list_elem_of_singleton. destruct (decide (q = p)) as [->|].
      * rewrite lookup_insert_eq. split; [by eexists|done].
      * rewrite lookup_insert_ne by congruence. split; [done|]. intros [r Hq]. by destruct (Hno q r).
    + rewrite lookup_insert_ne by congruence. intros Hn. destruct (ti_pages _ _ _ HT _ _ Hn) as [? Hin]. split; [done|].
      intros q. rewrite Hin. split; intros [r Hq]; exists r; apply (insert_fresh p (a, RL1)) in Hq || apply insert_fresh; congruence.
  - intros q b r. destruct (decide (b = a)) as [->|Hb]; [rewrite lookup_insert_eq; by eexists|].
    rewrite (lookup_insert_ne objs) by congruence. intros Hq%insert_fresh; [|done|congruence]. by eapply (ti_owner _ _ _ HT).
  - intros b n. destruct (decide (b = a)) as [->|Hb].
    + rewrite lookup_insert_eq. intros [= <-]. exists p. split_and!; [done|done|apply lookup_insert_eq|]. intros i Hi.
      exists 0. rewrite zero_table_lookup, decide_True by done. split; [done|]. left. split; [done|].
      intros q Hq%insert_fresh; [|done|done]. by destruct (Hno q (RL2 i)).
    + rewrite lookup_insert_ne by congruence. intros Hn. destruct (ti_l1 _ _ _ HT _ _ Hn) as (q & E & ? & Hq & Hs).
      pose proof (other_page _ _ _ Hp Hq). exists q. split_and!; [done|done|by rewrite lookup_insert_ne by congruence|].
      intros i Hi. destruct (Hs i Hi) as (w & Hwi & Hsl). exists w. rewrite Hw by done. split; [done|].
      eapply slot_ext; [|done]. intros ?. by apply insert_fresh.
  - intros q b i Hq. apply insert_fresh in Hq; [|done|done]. pose proof (other_page _ _ _ Hp Hq).
    destruct (ti_l2 _ _ _ HT _ _ _ Hq) as [? Hs]. split; [done|]. intros j Hj. destruct (Hs j Hj) as (w & Hwj & Hsl).
    exists w. rewrite Hw by done. split; [done|]. eapply slot_ext; [|done]. intros ?. by apply insert_fresh.
  - intros u b v [Hv [q Hq]]%insert_fresh%(ti_user _ _ _ HT); [|done|done]. split; [done|]. exists q. by apply insert_fresh.
Qed.

(** The mapping [a] is gone with all its pages. *)
Definition disown (a : Z) : owners := filter (fun x => x.2.1 <> a) O.

Lemma disown_lookup a p b r : disown a !! p = Some (b, r) <-> O !! p = Some (b, r) /\ b <> a.
Proof using Type. unfold disown. by rewrite map_lookup_filter_Some. Qed.

Lemma tables_delete a : tables_inv words (delete a objs) (disown a).
Proof using HT.
  assert (Hs : forall b r w d e, b <> a -> slot O (b, r) w d e -> slot (disown a) (b, r) w d e).
  { intros b r w d e Hb. apply slot_ext. intros p. rewrite disown_lookup. by intuition. }
  split.
  - intros p [b r] [Hp _]%disown_lookup. by eapply (ti_range _ _ _ HT).
  - intros b m [Hb Hm]%lookup_delete_Some. destruct (ti_pages _ _ _ HT _ _ Hm) as [? Hin]. split; [done|].
    intros p. rewrite Hin. split; intros [r Hr]; exists r; [apply disown_lookup; split; congruence|].
    by apply disown_lookup in Hr as [Hr _].
  - intros p b r [Hp Hb]%disown_lookup. rewrite lookup_delete_ne by congruence. by eapply (ti_owner _ _ _ HT).
  - intros b m [Hb Hm]%lookup_delete_Some. destruct (ti_l1 _ _ _ HT _ _ Hm) as (p & E & Hd & Hp & Hl).
    exists p. split_and!; [done|done|by apply disown_lookup|]. intros i Hi. destruct (Hl i Hi) as (w & Hw & Hsl).
    exists w. auto.
  - intros q b i [Hq Hb]%disown_lookup. destruct (ti_l2 _ _ _ HT _ _ _ Hq) as [? Hl]. split; [done|].
    intros j Hj. destruct (Hl j Hj) as (w & Hw & Hsl). exists w. auto.
  - intros u b v [Hu Hb]%disown_lookup. destruct (ti_user _ _ _ HT _ _ _ Hu) as [? [q Hq]]. split; [done|].
    exists q. by apply disown_lookup.
Qed.

(** A page that loses its entry stays with the mapping, in no role. *)
Definition demote (x : Z * role) : owners := (fun y => if decide (y = x) then (x.1, ROther) else y) <$> O.

Lemma demote_ne x y p : x <> y -> y <> (x.1, ROther) -> demote x !! p = Some y <-> O !! p = Some y.
Proof using Type.
  intros Hxy Hy. unfold demote. rewrite lookup_fmap. destruct (O !! p) as [z|]; cbn; [|done].
  case_decide as Hz; [subst z|done]. split; intros [=]; congruence.
Qed.
Lemma demote_eq a v p : demote (a, RUser v) !! p <> Some (a, RUser v).
Proof using Type.
  unfold demote. rewrite lookup_fmap. destruct (O !! p) as [z|]; cbn; [|done]. case_decide; congruence.
Qed.
Lemma demote_owner a v p b : (exists r, demote (a, RUser v) !! p = Some (b, r)) <-> exists r, O !! p = Some (b, r).
Proof using Type.
  unfold demote. rewrite lookup_fmap. destruct (O !! p) as [[c r]|]; cbn; [|by split; intros [? ?]].
  case_decide as Hz; [injection Hz as -> ->|]; (split; intros [? [= -> ?]]; by eexists).
Qed.

(** What the pages of the mapping are after [u] became the page of [v]. *)
Definition assign (a v u : Z) : owners := <[u := (a, RUser v)]> (demote (a, RUser v)).

Lemma assign_other a v u p y : O !! u = Some (a, ROther) -> y <> (a, RUser v) -> y <> (a, ROther) ->
  assign a v u !! p = Some y <-> O !! p = Some y.
Proof using Type.
  intros Hu Hy Hy'. unfold assign. destruct (decide (p = u)) as [->|].
  - rewrite lookup_insert_eq, Hu. split; congruence.
  - rewrite lookup_insert_ne by congruence. by apply demote_ne.
Qed.
Lemma assign_user a v u p : assign a v u !! p = Some (a, RUser v) <-> p = u.
Proof using Type.
  unfold assign. destruct (decide (p = u)) as [->|]; [by rewrite lookup_insert_eq|].
  rewrite lookup_insert_ne by congruence. split; [|done]. intros H. by apply demote_eq in H.
Qed.
Lemma assign_owner a v u p b : O !! u = Some (a, ROther) ->
  (exists r, assign a v u !! p = Some (b, r)) <-> exists r, O !! p = Some (b, r).
Proof using Type.
  intros Hu. unfold assign. destruct (decide (p = u)) as [->|]; [|rewrite lookup_insert_ne by congruence; apply demote_owner].
  rewrite lookup_insert_eq, Hu. split; intros [r [= <- _]]; by eexists.
Qed.
Lemma assign_dom a v u : O !! u = Some (a, ROther) -> dom (assign a v u) = dom O.
Proof using Type.
  intros Hu. unfold assign, demote. rewrite dom_insert_L, dom_fmap_L. apply elem_of_dom_2 in Hu. clear HT. set_solver.
Qed.

(** A store into the entry [j] of the table [q]. *)
Lemma store_l1 a m p1 q b i j w k : objs !! a = Some m -> O !! p1 = Some (a, RL1) -> O !! q = Some (b, RL2 i) ->
  l1_slot words O a p1 k -> l1_slot (<[(q, j) := w]> words) O a p1 k.
Proof using Type.
  intros Ha Hp Hq (w' & Hw & Hs). exists w'. rewrite lookup_insert_ne; [done|]. congruence.
Qed.

Lemma l2_index v : 0 <= v mod 256 < 256 /\ 256 * (v / 256) + v mod 256 = v.
Proof using Type. Z.to_euclidean_division_equations; lia. Qed.

Lemma tables_kernel_pte a q i j w : O !! q = Some (a, RL2 i) -> 0 <= j < 256 -> user_pte w = false ->
  (forall u, O !! u <> Some (a, RUser (256 * i + j))) -> tables_inv (<[(q, j) := w]> words) objs O.
Proof using HT.
  intros Hq Hj Hw Hno. split; [apply HT|apply HT|apply HT| | |apply HT].
  - intros b m Hb. destruct (ti_l1 _ _ _ HT _ _ Hb) as (p & E & Hd & Hp & Hs). exists p. split_and!; [done|done|done|].
    intros k Hk. by eapply store_l1; [| | |apply Hs].
  - intros r b k Hr. destruct (ti_l2 _ _ _ HT _ _ _ Hr) as [Hk Hs]. split; [done|]. intros l Hl.
    destruct (decide ((r, l) = (q, j))) as [[= -> ->]|Hne].
    + assert (b = a /\ k = i) as [-> ->] by (split; congruence).
      exists w. rewrite lookup_insert_eq. split; [done|]. by left.
    + destruct (Hs l Hl) as (w' & Hw' & Hsl). exists w'. by rewrite lookup_insert_ne by congruence.
Qed.

Lemma tables_user_pte a q i j u : O !! q = Some (a, RL2 i) -> 0 <= j < 256 -> O !! u = Some (a, ROther) ->
  tables_inv (<[(q, j) := user_word u]> words) objs (assign a (256 * i + j) u).
Proof using HT.
  intros Hq Hj Hu. set (v := 256 * i + j). destruct (ti_l2 _ _ _ HT _ _ _ Hq) as [Hi _]. split.
  - intros p [b r] Hp. assert (Ho : exists r, O !! p = Some (b, r)) by (apply (assign_owner a v u p b Hu); by eexists).
    destruct Ho as [r' Ho]. by eapply (ti_range _ _ _ HT).
  - intros b m Hb. destruct (ti_pages _ _ _ HT _ _ Hb) as [? Hin]. split; [done|]. intros p. by rewrite Hin, assign_owner.
  - intros p b r Hp. assert (Ho : exists r, O !! p = Some (b, r)) by (apply (assign_owner a v u p b Hu); by eexists).
    destruct Ho as [r' Ho]. by eapply (ti_owner _ _ _ HT).
  - intros b m Hb. destruct (ti_l1 _ _ _ HT _ _ Hb) as (p & E & Hd & Hp & Hs). exists p. split_and!; [done|done|by apply assign_other|].
    intros k Hk. destruct (Hs k Hk) as (w & Hw & Hsl). exists w. rewrite lookup_insert_ne by congruence. split; [done|].
    eapply slot_ext; [|done]. intros x. by apply assign_other.
  - intros r b k Hr. apply assign_other in Hr; [|done|done|done]. destruct (ti_l2 _ _ _ HT _ _ _ Hr) as [Hk Hs]. split; [done|].
    intros l Hl. destruct (decide ((r, l) = (q, j))) as [[= -> ->]|Hne].
    + assert (b = a /\ k = i) as [-> ->] by (split; congruence).
      exists (user_word u). rewrite lookup_insert_eq. split; [done|]. right. exists u. split; [done|].
      split; [by apply assign_user|]. intros p'. apply assign_user.
    + destruct (Hs l Hl) as (w & Hw & Hsl). exists w. rewrite lookup_insert_ne by congruence. split; [done|].
      eapply slot_ext; [|done]. intros x. apply assign_other; [done| |done]. intros [= -> Hv].
      apply Hne. assert (k = i /\ l = j) as [-> ->] by (subst v; lia). f_equal.
      destruct (ti_owner _ _ _ HT _ _ _ Hq) as [m Hm]. destruct (ti_l1 _ _ _ HT _ _ Hm) as (p & _ & _ & _ & Hs1).
      destruct (Hs1 i Hi) as (w1 & _ & [[_ Hno]|(q' & _ & _ & Huniq)]); [by destruct (Hno q)|].
      by rewrite (Huniq _ Hr), (Huniq _ Hq).
  - intros x b v' Hx. assert (Hx' : (b = a /\ v' = v) \/ O !! x = Some (b, RUser v')).
    { destruct (decide ((b, RUser v') = (a, RUser v))) as [[= -> ->]|Hne]; [by left|right]. by apply assign_other in Hx. }
    destruct Hx' as [[-> ->]|Hx']; [|destruct (ti_user _ _ _ HT _ _ _ Hx') as [? [q' Hq']]].
    + split; [subst v; lia|]. exists q. apply assign_other; [done|done|done|].
      by replace (v / 256) with i by (subst v; Z.to_euclidean_division_equations; lia).
    + split; [done|]. exists q'. by apply assign_other.
Qed.
End Steps.

(** ** What the processor finds *)
Section Walk.
Context {S : Type}.
Implicit Types (s : mmu S).

Lemma l2_index_bits va : Z.shiftr va 20 = Z.shiftr va 12 / 256 /\ Z.land (Z.shiftr va 12) 0xff = Z.shiftr va 12 mod 256.
Proof.
  split.
  - rewrite !Z.shiftr_div_pow2 by lia. rewrite Z.div_div by lia. done.
  - change 0xff with (Z.ones 8). by rewrite Z.land_ones by lia.
Qed.

Lemma translate_iff s O a m va x : tables_inv (mm_words s) (mm_objs s) O -> mm_objs s !! a = Some m ->
  translate s (mp_address m) va = Some x <->
  exists u, O !! u = Some (a, RUser (Z.shiftr va 12)) /\ x = (u, Z.land va 0xfff).
Proof.
  intros HT Ha. destruct (ti_l1 _ _ _ HT _ _ Ha) as (p & Em & _ & Hp & Hs).
  unfold translate, walk. rewrite Em, page_of_base. destruct (l2_index_bits va) as [-> ->].
  set (v := Z.shiftr va 12). destruct (l2_index v) as [Hj Hv].
  assert (Hout : (forall u, O !! u <> Some (a, RUser v)) ->
    None = Some x <-> exists u, O !! u = Some (a, RUser v) /\ x = (u, Z.land va 0xfff)).
  { intros Hn. split; [done|]. intros (u & Hu & _). by destruct (Hn u). }
  case_guard as Hva; cbn [mbind option_bind mret option_ret].
  2: { apply Hout. intros u Hu. destruct (ti_user _ _ _ HT _ _ _ Hu) as [? [q Hq]].
       destruct (ti_l2 _ _ _ HT _ _ _ Hq) as [Hi _]. apply Hva. subst v. rewrite Z.shiftr_div_pow2 in * by lia.
       Z.to_euclidean_division_equations; lia. }
  assert (Hi : 0 <= v / 256 < 4096).
  { subst v. rewrite Z.shiftr_div_pow2 by lia. Z.to_euclidean_division_equations; lia. }
  destruct (Hs _ Hi) as (w & -> & [[-> Hno]|(q & -> & Hq & _)]); cbn [mbind option_bind].
  { apply Hout. intros u Hu. destruct (ti_user _ _ _ HT _ _ _ Hu) as [_ [q Hq]]. by destruct (Hno q). }
  pose proof (ti_range _ _ _ HT _ _ Hq) as Hr. rewrite l1_word_table, l1_word_base, page_of_base by done.
  destruct (ti_l2 _ _ _ HT _ _ _ Hq) as [_ Hs2]. destruct (Hs2 _ Hj) as (w & -> & Hsl). rewrite Hv in Hsl.
  cbn [mbind option_bind]. destruct Hsl as [[Hd Hno]|(u & -> & Hu & Hun)].
  { destruct (truthy (Z.land w SL_SHORT_DESCRIPTOR)); cbn [mbind option_bind]; [rewrite Hd|]; by apply Hout. }
  pose proof (ti_range _ _ _ HT _ _ Hu) as Hur.
  rewrite user_pte_live by (by apply user_word_pte). cbn [mbind option_bind]. rewrite user_word_pte by done.
  unfold place. rewrite user_word_base, page_of_base by done. split.
  - intros [= <-]. by exists u.
  - intros (u' & Hu' & ->). by rewrite (Hun _ Hu').
Qed.
End Walk.
