(* ===== verification/MmuProofs.v ===== *)
(** * mmu.c: properties

    Each function against the owners of the pages, then the page tables as an
    implementation of the address spaces. *)

From stdpp Require Import base numbers list list_numbers gmap.
From S2P Require Import Prelude Hoare Buddy BuddyProofs KernelMem UserSpace Mmu MmuTables.

#[local] Open Scope Z_scope.
#[local] Open Scope kernel_scope.

(** The pages of a request, and the entries of an address. *)
Lemma get_page_size_eq size : 0 <= size <= 2 ^ 31 -> GET_PAGE_SIZE size = (size + 4095) / 4096.
Proof.
  intros Hs. unfold GET_PAGE_SIZE. change PAGE_SIZE with 4096. rewrite Z.shiftr_div_pow2 by lia. change (2 ^ 12) with 4096.
  rewrite (u32_small (size + 4096)) by (unfold is_u32; lia). rewrite u32_small by (unfold is_u32; lia). f_equal. lia.
Qed.
Lemma get_page_size_range size : 0 <= GET_PAGE_SIZE size < 2 ^ 20.
Proof.
  unfold GET_PAGE_SIZE. rewrite Z.shiftr_div_pow2 by lia. unfold u32.
  pose proof (Z.mod_pos_bound ((size + PAGE_SIZE) mod 2 ^ 32 - 1) (2 ^ 32) ltac:(lia)). Z.to_euclidean_division_equations; lia.
Qed.
Lemma get_l2_index_eq addr : GET_L2_INDEX addr = (addr / 4096) mod 256.
Proof.
  unfold GET_L2_INDEX. rewrite Z.shiftr_land. change (Z.shiftr 0xff000 12) with (Z.ones 8).
  rewrite Z.land_ones, Z.shiftr_div_pow2 by lia. done.
Qed.
Lemma get_l1_index_eq addr : GET_L1_INDEX addr = addr / 4096 / 256.
Proof. unfold GET_L1_INDEX. rewrite Z.shiftr_div_pow2, Z.div_div by lia. done. Qed.
Lemma get_indices addr : is_u32 addr ->
  0 <= GET_L1_INDEX addr < 4096 /\ 0 <= GET_L2_INDEX addr < 256 /\ 256 * GET_L1_INDEX addr + GET_L2_INDEX addr = addr / 4096.
Proof. unfold is_u32. intros H. rewrite get_l1_index_eq, get_l2_index_eq. Z.to_euclidean_division_equations; lia. Qed.
Lemma request_fits addr size : is_u32 addr ->
  u32 (GET_L2_INDEX addr + GET_PAGE_SIZE size) = GET_L2_INDEX addr + GET_PAGE_SIZE size.
Proof.
  intros H. destruct (get_indices addr H) as (_ & ? & _). pose proof (get_page_size_range size).
  apply u32_small. unfold is_u32. lia.
Qed.

(** The virtual pages of a request, and the result: they lie in one megabyte. *)
Definition span (addr size v : Z) : Prop := addr / 4096 <= v < addr / 4096 + GET_PAGE_SIZE size.
Definition map_result (addr size : Z) : Z := if GET_L2_INDEX addr + GET_PAGE_SIZE size <=? 256 then 0 else -1.

Lemma span_pages addr size x : 0 <= size <= 2 ^ 31 -> span addr size (Z.shiftr x 12) <-> in_pages addr size x.
Proof.
  intros Hs. unfold span, in_pages, page_count. rewrite get_page_size_eq by done. rewrite Z.shiftr_div_pow2 by lia.
  change PAGE_SIZE with 4096. change (2 ^ 12) with 4096. by replace (size + 4096 - 1) with (size + 4095) by lia.
Qed.
Lemma map_result_eq addr size : 0 <= size <= 2 ^ 31 -> map_result addr size = alloc_result addr size.
Proof.
  intros Hs. unfold map_result, alloc_result, in_megabyte, page_count. rewrite get_l2_index_eq, get_page_size_eq by done.
  change PAGE_SIZE with 4096. by replace (size + 4096 - 1) with (size + 4095) by lia.
Qed.

Section Mmu.
Context {S : Type} `{KM : KernelMem S} (vectors : list Z).
(** The memory of the callers. *)
Context (C : gmap Z Z) (L : Z -> Z -> Prop) (U : gset Z).
Implicit Types (s : mmu S) (O : owners).

(** The objects in use: those of the callers and the mappings. *)
Definition mlive s (c x : Z) : Prop := L c x \/ (c = mapping_cache s /\ is_Some (mm_objs s !! x)).

Record memp s O : Prop := {
  mp_inv : km_inv (mm_mem s) (<[mapping_cache s := 20]> C) (mlive s) (U ∪ dom O);
  mp_disj : U ## dom O;
  mp_cache : C !! mapping_cache s = None;
  mp_live : forall x, ~ L (mapping_cache s) x;
}.
Definition core s O : Prop := memp s O /\ tables_inv (mm_words s) (mm_objs s) O.

Lemma memp_ext s s' O O' : memp s O -> mm_mem s' = mm_mem s -> mapping_cache s' = mapping_cache s ->
  (forall x, is_Some (mm_objs s' !! x) <-> is_Some (mm_objs s !! x)) -> dom O' = dom O -> memp s' O'.
Proof.
  intros [M1 M2 M3 M4] E1 E2 Ho Hd. split; rewrite ?E1, ?E2, ?Hd; try done.
  eapply km_ext; [|done]. intros c x. unfold mlive. by rewrite E2, Ho.
Qed.

(** ** What a call that works for the mapping [a] leaves alone *)
Definition mid (m : mapping) : Z * Z := (mp_pid m, mp_address m).

(** Everything but the pages of user memory of [a] at the virtual pages [V]. *)
Record ext (a : Z) (V : Z -> Prop) s s' O O' : Prop := {
  e_list : mappings s' = mappings s;
  e_ttb : mm_ttb s' = mm_ttb s;
  e_pid : current_pid s' = current_pid s;
  e_cache : mapping_cache s' = mapping_cache s;
  e_obj : forall b, mid <$> mm_objs s' !! b = mid <$> mm_objs s !! b;
  e_user : forall u b v, ~ (b = a /\ V v) -> O' !! u = Some (b, RUser v) <-> O !! u = Some (b, RUser v);
  e_dom : dom O ⊆ dom O';
  e_frames : forall u k, u ∈ dom O -> mm_frames s' !! (u, k) = mm_frames s !! (u, k);
}.

Lemma ext_refl a V s O : ext a V s s O O.
Proof. by split. Qed.

Lemma ext_trans a V V1 V2 s s1 s2 O O1 O2 : (forall v, V1 v \/ V2 v -> V v) ->
  ext a V1 s s1 O O1 -> ext a V2 s1 s2 O1 O2 -> ext a V s s2 O O2.
Proof.
  intros HV [A1 A2 A3 A4 A5 A6 A7 A8] [B1 B2 B3 B4 B5 B6 B7 B8]. split; try congruence.
  - intros u b v Hv. rewrite B6, A6; [done| |]; intros [-> ?]; apply Hv; auto.
  - by etrans.
  - intros u k Hu. rewrite B8, A8; [done|done|]. by apply A7.
Qed.

Lemma ext_known a V s s' O O' b : ext a V s s' O O' -> is_Some (mm_objs s' !! b) <-> is_Some (mm_objs s !! b).
Proof. intros HE. pose proof (e_obj _ _ _ _ _ _ HE b) as E. by rewrite <- (fmap_is_Some mid), E, fmap_is_Some. Qed.

Lemma ext_mapping a V s s' O O' b m : ext a V s s' O O' -> mm_objs s !! b = Some m ->
  exists m', mm_objs s' !! b = Some m' /\ mp_pid m' = mp_pid m /\ mp_address m' = mp_address m.
Proof.
  intros HE Hb. pose proof (e_obj _ _ _ _ _ _ HE b) as E. rewrite Hb in E. cbn in E.
  destruct (mm_objs s' !! b) as [m'|]; [|done]. injection E as E1 E2. by exists m'.
Qed.

(** ** Taking pages *)
Lemma get_mapping_runs s a m (Q : mapping -> mmu S -> Prop) : mm_objs s !! a = Some m -> Q m s -> runs (get_mapping a) s Q.
Proof. intros Ha HQ. unfold get_mapping. rgets. by eapply runs_opt. Qed.

Lemma upd_mapping_runs s a m f (Q : unit -> mmu S -> Prop) : mm_objs s !! a = Some m ->
  Q tt (set_mm_objs (<[a := f m]> (mm_objs s)) s) -> runs (upd_mapping a f) s Q.
Proof. intros Ha HQ. unfold upd_mapping. apply runs_bind. eapply get_mapping_runs; [done|]. by apply runs_modify. Qed.

Definition took (a p : Z) (m : mapping) (x : S) s : mmu S := set_mm_objs (<[a := grow p m]> (mm_objs s)) (set_mm_mem x s).

Lemma insert_known (objs : gmap Z mapping) a m m' x : objs !! a = Some m ->
  is_Some (<[a := m']> objs !! x) <-> is_Some (objs !! x).
Proof.
  intros Ha. destruct (decide (x = a)) as [->|]; [rewrite lookup_insert_eq, Ha; by split; eexists|].
  by rewrite lookup_insert_ne by congruence.
Qed.

Lemma page_alloc_runs {B} s O a m size k (K : Z -> M (mmu S) B) (Q : B -> mmu S -> Prop) :
  memp s O -> mm_objs s !! a = Some m -> order_for size k ->
  (forall p x, O !! p = None -> 0 <= p < PAGE_NUM -> (2 ^ k | p) ->
    (forall r, memp (took a p m x s) (<[p := (a, r)]> O)) -> runs (K p) (took a p m x s) Q) ->
  runs (let* page := mem (km_page_alloc size) in do* add_page a page in K page) s Q.
Proof.
  intros [M1 M2 M3 M4] Ha Ho HQ. apply runs_bind, runs_within, runs_inv.
  destruct (km_page_alloc_spec _ _ _ _ _ _ M1 Ho) as [E|(p & x & E & Hp & Hr & HI)]; [by left|right].
  pose proof (km_page_aligned _ _ _ _ _ _ _ _ M1 Ho E) as Hd.
  exists p, x. split; [done|]. unfold add_page. apply runs_bind. eapply upd_mapping_runs; [done|]. cbn beta.
  apply HQ; [|done|done|]. { apply not_elem_of_dom. set_solver. }
  intros r. split; cbn [mm_mem took set_mm_objs set_mm_mem mapping_cache]; [|set_solver|done|done].
  rewrite dom_insert_L. replace (U ∪ ({[p]} ∪ dom O)) with ({[p]} ∪ (U ∪ dom O)) by set_solver.
  eapply km_ext; [|exact HI]. intros c y. unfold mlive. cbn. by rewrite (insert_known _ _ _ _ _ Ha).
Qed.

Lemma took_ext a p m x s O r : mm_objs s !! a = Some m -> O !! p = None -> (forall v, r <> RUser v) ->
  ext a (fun _ => False) s (took a p m x s) O (<[p := (a, r)]> O).
Proof.
  intros Ha Hp Hr. split; try done.
  - intros b. cbn. destruct (decide (b = a)) as [->|]; [by rewrite lookup_insert_eq, Ha|by rewrite lookup_insert_ne by congruence].
  - intros u b v _. apply insert_fresh; [done|]. intros [= _ E]. by apply (Hr v).
  - rewrite dom_insert. set_solver.
Qed.

Lemma order_page : order_for PAGE_SIZE 0.
Proof. split; [bconst; lia|]. split; [lia|]. intros l Hl. lia. Qed.
Lemma order_l2 : order_for L2_SIZE 0.
Proof. split; [bconst; lia|]. split; [by compute|]. intros l Hl. lia. Qed.
Lemma order_l1 : order_for L1_SIZE 2.
Proof.
  split; [bconst; lia|]. split; [by compute|]. intros l Hl. assert (l = 0 \/ l = 1) as [-> | ->] by lia; by compute.
Qed.

Lemma mmu_create_page_runs s O a (Q : Z -> mmu S -> Prop) : core s O -> is_Some (mm_objs s !! a) ->
  (forall p s', O !! p = None -> 0 <= p < PAGE_NUM -> core s' (<[p := (a, ROther)]> O) ->
     ext a (fun _ => False) s s' O (<[p := (a, ROther)]> O) -> Q (page_base p) s') ->
  runs (mmu_create_page a) s Q.
Proof.
  intros [HM HT] [m Ha] HQ. unfold mmu_create_page. apply (page_alloc_runs _ _ _ _ _ _ _ _ HM Ha order_page).
  intros p x Hp Hr _ HM'. apply runs_ret, HQ; [done|done| |by apply took_ext].
  split; [apply HM'|]. by apply tables_new_other.
Qed.

(** ** Words of the tables *)
Lemma store_word_runs s p i w v (Q : unit -> mmu S -> Prop) : mm_words s !! (p, i) = Some w ->
  Q tt (set_mm_words (<[(p, i) := v]> (mm_words s)) s) -> runs (store_word (page_base p) i v) s Q.
Proof.
  intros Hw HQ. unfold store_word, load_word. rewrite page_of_base. apply runs_bind. rgets. eapply runs_opt; [done|].
  by apply runs_modify.
Qed.

Lemma load_word_runs s p i w (Q : Z -> mmu S -> Prop) : mm_words s !! (p, i) = Some w ->
  Q w s -> runs (load_word (page_base p) i) s Q.
Proof. intros Hw HQ. unfold load_word. rewrite page_of_base. rgets. by eapply runs_opt. Qed.

(** A change of the words alone. *)
Lemma words_ext a s O words : ext a (fun _ => False) s (set_mm_words words s) O O.
Proof. by split. Qed.
Lemma words_memp s O words : memp s O -> memp (set_mm_words words s) O.
Proof. intros HM. by apply (memp_ext s _ O). Qed.

Lemma fill_pl2_runs s O a i (Q : Z -> mmu S -> Prop) : core s O -> is_Some (mm_objs s !! a) -> 0 <= i < 4096 ->
  (forall q s' O', core s' O' -> ext a (fun _ => False) s s' O O' -> O' !! q = Some (a, RL2 i) -> Q (page_base q) s') ->
  runs (mmu_create_and_fill_pl2 a i) s Q.
Proof.
  intros [HM HT] [m Ha] Hi HQ. unfold mmu_create_and_fill_pl2. apply runs_bind. eapply get_mapping_runs; [done|]. cbn beta zeta.
  destruct (ti_l1 _ _ _ HT _ _ Ha) as (p & Em & Hd & Hp & Hs). destruct (Hs i Hi) as (w & Hw & Hsl). rewrite Em.
  apply runs_bind. eapply load_word_runs; [done|]. destruct Hsl as [[-> Hno]|(q & -> & Hq & _)].
  - change (negb _) with true. cbn iota. apply runs_bind, runs_bind. unfold mmu_create_pl2.
    apply (page_alloc_runs _ _ _ _ _ _ _ _ HM Ha order_l2). intros q x Hq Hr _ HM'. apply runs_bind, runs_modify, runs_ret.
    rewrite (l1_word_make q) by done.
    assert (p <> q) by congruence. eapply store_word_runs.
    { cbn. rewrite zero_table_lookup, decide_False; [done|]. by intros [? _]. }
    apply runs_bind. eapply load_word_runs; [cbn; apply lookup_insert_eq|]. apply runs_ret.
    rewrite l1_word_base by done. eapply (HQ q).
    + split; [by apply words_memp, words_memp, HM'|]. cbn. by eapply tables_new_l2.
    + eapply (ext_trans a _ (fun _ => False) (fun _ => False)); [|by apply (took_ext a q m x s O (RL2 i))|by split]. by intros v [].
    + apply lookup_insert_eq.
  - pose proof (ti_range _ _ _ HT _ _ Hq) as Hr. rewrite l1_word_live by done. cbn [negb]. apply runs_bind, runs_ret, runs_bind.
    eapply load_word_runs; [done|]. apply runs_ret. rewrite l1_word_base by done. apply (HQ q s O); [done|apply ext_refl|done].
Qed.

(** ** Mappings of user memory *)
Definition users O (a v : Z) : Prop := exists u, O !! u = Some (a, RUser v).

Lemma l2_word s O q a i j : core s O -> O !! q = Some (a, RL2 i) -> 0 <= j < 256 -> is_Some (mm_words s !! (q, j)).
Proof. intros [_ HT] Hq Hj. destruct (ti_l2 _ _ _ HT _ _ _ Hq) as [_ Hs]. destruct (Hs j Hj) as (w & Hw & _). by exists w. Qed.

Lemma assign_ext a v u s O words : O !! u = Some (a, ROther) ->
  ext a (fun x => x = v) s (set_mm_words words s) O (assign O a v u).
Proof.
  intros Hu. split; try done.
  - intros u' b v' Hv. apply assign_other; [done| |done]. intros [= -> ->]. by apply Hv.
  - by rewrite assign_dom.
Qed.

Lemma map_pages_runs a q i n : forall j s O, core s O -> O !! q = Some (a, RL2 i) -> 0 <= j -> j + Z.of_nat n <= 256 ->
  runs (map_pages n a (page_base q) j AP_FULL_ACCESS) s (fun _ s' => exists O', core s' O' /\
    ext a (fun v => 256 * i + j <= v < 256 * i + j + Z.of_nat n) s s' O O' /\
    forall v, 256 * i + j <= v < 256 * i + j + Z.of_nat n -> users O' a v).
Proof.
  induction n as [|n IH]; intros j s O HC Hq Hj Hn; cbn [map_pages].
  { apply runs_ret. exists O. split_and!; [done|apply ext_refl|]. intros v Hv. lia. }
  assert (Ha : is_Some (mm_objs s !! a)) by (by eapply ti_owner; [apply HC|]).
  apply runs_bind. eapply mmu_create_page_runs; [done|done|]. intros u s1 Hu Hr HC1 HE1. set (O1 := <[u := _]> O) in *.
  assert (Hu1 : O1 !! u = Some (a, ROther)) by apply lookup_insert_eq.
  assert (Hq1 : O1 !! q = Some (a, RL2 i)) by (subst O1; by apply insert_fresh).
  destruct (l2_word _ _ _ _ _ j HC1 Hq1 ltac:(lia)) as [w Hw]. apply runs_bind. eapply store_word_runs; [done|].
  rewrite user_word_make by done. eapply runs_mono; [apply (IH _ _ (assign O1 a (256 * i + j) u))|].
  - destruct HC1 as [HM1 HT1]. split; [|apply tables_user_pte; [done|done|lia|done]].
    eapply memp_ext; [exact HM1|done|done|done|by apply assign_dom].
  - by apply assign_other.
  - lia.
  - lia.
  - intros _ s2 (O2 & HC2 & HE2 & HU2). exists O2. split_and!; [done| |].
    + eapply ext_trans; [|exact HE1|eapply ext_trans; [|apply assign_ext; exact Hu1|exact HE2]].
      2: { intros v Hv. exact Hv. } cbn. intros v Hv. lia.
    + intros v Hv. destruct (decide (v = 256 * i + j)) as [->|]; [|apply HU2; lia].
      exists u. apply (e_user _ _ _ _ _ _ HE2); [intros [_ ?]; lia|]. by apply assign_user.
Qed.

Lemma mmu_create_mapping_runs s O a addr size (Q : Z -> mmu S -> Prop) :
  core s O -> is_Some (mm_objs s !! a) -> is_u32 addr ->
  (forall s' O', core s' O' -> let r := map_result addr size in
     ext a (fun v => r = 0 /\ span addr size v) s s' O O' -> (r = 0 -> forall v, span addr size v -> users O' a v) -> Q r s') ->
  runs (mmu_create_mapping a addr size false) s Q.
Proof.
  intros HC Ha Hu HQ. unfold mmu_create_mapping. cbv zeta. rewrite request_fits by done.
  destruct (get_indices addr Hu) as (H1 & H2 & E). pose proof (get_page_size_range size) as Hn. unfold map_result in HQ.
  destruct (Z.ltb_spec L2_ENTRY_NUM (GET_L2_INDEX addr + GET_PAGE_SIZE size)) as [Hb|Hb], (Z.leb_spec (GET_L2_INDEX addr + GET_PAGE_SIZE size) 256);
    unfold L2_ENTRY_NUM in *; [lia| |  |lia].
  { apply runs_ret. apply (HQ s O); [done|apply ext_refl|done]. }
  apply runs_bind. eapply fill_pl2_runs; [done|done|done|]. intros q s1 O1 HC1 HE1 Hq. apply runs_bind.
  eapply runs_mono; [apply map_pages_runs; [done|done|lia|lia]|].
  intros _ s2 (O2 & HC2 & HE2 & HU2). rewrite Z2Nat.id, E in * by lia. apply runs_ret.
  apply (HQ s2 O2 HC2); [|intros _; exact HU2]. eapply ext_trans; [|exact HE1|exact HE2]. unfold span. by intros v [[]|?].
Qed.

(** ** The kernel's own mappings, of a mapping without user memory *)
Definition no_users O (a : Z) : Prop := forall u v, O !! u <> Some (a, RUser v).

(** [core] and [ext] of the steps that build a mapping. *)
Definition builds (a : Z) s O s' O' : Prop := core s' O' /\ ext a (fun _ => False) s s' O O' /\ no_users O' a.

Lemma builds_refl a s O : core s O -> no_users O a -> builds a s O s O.
Proof. intros HC Hn. split_and!; [done|apply ext_refl|done]. Qed.
Lemma builds_trans a s O s1 O1 s2 O2 : builds a s O s1 O1 -> builds a s1 O1 s2 O2 -> builds a s O s2 O2.
Proof.
  intros (_ & E1 & _) (C2 & E2 & N2). split_and!; [done| |done]. eapply ext_trans; [|exact E1|exact E2]. by intros v [].
Qed.
Lemma builds_ext a s O s' O' : no_users O a -> core s' O' -> ext a (fun _ => False) s s' O O' -> builds a s O s' O'.
Proof.
  intros Hn HC HE. split_and!; [done|done|]. intros u v Hu. apply (e_user _ _ _ _ _ _ HE) in Hu; [by destruct (Hn u v)|]. by intros [_ ?].
Qed.
Lemma builds_known a s O s' O' : builds a s O s' O' -> is_Some (mm_objs s !! a) -> is_Some (mm_objs s' !! a).
Proof. intros (_ & E & _) Ha. by apply (ext_known _ _ _ _ _ _ _ E). Qed.

Lemma kernel_pte_runs s O a q i j w (Q : unit -> mmu S -> Prop) : core s O -> no_users O a -> O !! q = Some (a, RL2 i) ->
  0 <= j < 256 -> user_pte w = false -> (forall s', builds a s O s' O -> Q tt s') -> runs (store_word (page_base q) j w) s Q.
Proof.
  intros HC Hn Hq Hj Hw HQ. destruct (l2_word _ _ _ _ _ j HC Hq Hj) as [w' Hw']. eapply store_word_runs; [done|]. apply HQ.
  destruct HC as [HM HT]. split_and!; [|apply words_ext|done]. split; [by apply words_memp|]. by eapply tables_kernel_pte.
Qed.

Lemma straight_word addr i : exists k, u32 (Z.land addr 0xfffff000 + PAGE_SIZE * i) = u32 (PAGE_SIZE * k).
Proof.
  exists (Z.land (Z.shiftr addr 12) 0xfffff + i). f_equal. change PAGE_SIZE with (2 ^ 12).
  rewrite Z.mul_add_distr_l. f_equal. rewrite Z.mul_comm, <- Z.shiftl_mul_pow2, Z.shiftl_land by lia.
  apply Z.bits_inj'. intros n Hn. rewrite !Z.land_spec. change (Z.shiftl 0xfffff 12) with 0xfffff000.
  destruct (Z.ltb_spec n 12).
  - replace (Z.testbit 0xfffff000 n) with false; [by rewrite !andb_false_r|]. symmetry.
    change 0xfffff000 with (0xfffff * 2 ^ 12). apply Z.mul_pow2_bits_low. lia.
  - f_equal. rewrite Z.shiftl_spec, Z.shiftr_spec by lia. f_equal. lia.
Qed.

Lemma map_straight_runs a q i l2_i addr n : forall k s O, core s O -> no_users O a -> O !! q = Some (a, RL2 i) -> 0 <= l2_i + k ->
  l2_i + k + Z.of_nat n <= 256 ->
  runs (map_straight n (page_base q) l2_i addr k) s (fun _ s' => builds a s O s' O).
Proof.
  induction n as [|n IH]; intros k s O HC Hn Hq Hk Hb; cbn [map_straight]. { by apply runs_ret, builds_refl. }
  apply runs_bind. destruct (straight_word addr k) as [x ->].
  eapply kernel_pte_runs; [done|done|done|lia|apply straight_word_pte|]. intros s1 HB.
  eapply runs_mono; [apply (IH _ s1 O); [apply HB|done|done|lia|lia]|]. intros [] s2 HB2. by eapply builds_trans.
Qed.

Lemma straight_runs s O a addr size : core s O -> no_users O a -> is_Some (mm_objs s !! a) -> is_u32 addr ->
  runs (mmu_create_straight_mapping a addr size) s (fun _ s' => exists O', builds a s O s' O').
Proof.
  intros HC Hno Ha Hu. unfold mmu_create_straight_mapping. cbv zeta. rewrite request_fits by done.
  destruct (get_indices addr Hu) as (H1 & H2 & E). pose proof (get_page_size_range size) as Hn.
  destruct (Z.ltb_spec L2_ENTRY_NUM (GET_L2_INDEX addr + GET_PAGE_SIZE size)) as [Hb|Hb].
  { apply runs_ret. exists O. by apply builds_refl. }
  apply runs_bind. eapply fill_pl2_runs; [done|done|done|]. intros q s1 O1 HC1 HE1 Hq.
  pose proof (builds_ext _ _ _ _ _ Hno HC1 HE1) as HB1. apply runs_bind.
  eapply runs_mono; [eapply (map_straight_runs a q); [done|apply HB1|done|lia|unfold L2_ENTRY_NUM in *; lia]|].
  intros [] s2 HB2. apply runs_ret. exists O1. by eapply builds_trans.
Qed.

Lemma vectors_runs s O a : core s O -> no_users O a -> is_Some (mm_objs s !! a) ->
  runs (mmu_create_vectors_mapping vectors a) s (fun _ s' => exists O', builds a s O s' O').
Proof.
  intros HC Hno Ha. unfold mmu_create_vectors_mapping. cbv zeta. apply runs_bind.
  destruct (get_indices VIRT_VECTORS_ADDR) as (H1 & H2 & _); [by compute|].
  eapply fill_pl2_runs; [done|done|done|]. intros q s1 O1 HC1 HE1 Hq.
  pose proof (builds_ext _ _ _ _ _ Hno HC1 HE1) as HB1. apply runs_bind.
  eapply mmu_create_page_runs; [done|by eapply builds_known|]. intros p s2 Hp Hr HC2 HE2. rewrite page_of_base.
  assert (HB2 : builds a s1 O1 s2 (<[p := (a, ROther)]> O1)) by (apply builds_ext; [apply HB1|done|done]).
  apply runs_bind, runs_modify. set (s3 := set_mm_frames _ s2). set (O2 := <[p := _]> O1) in *.
  assert (HB3 : builds a s1 O1 s3 O2).
  { destruct HC2 as [HM2 HT2]. destruct HE2 as [? ? ? ? ? ? ? F]. apply builds_ext; [apply HB1| |].
    - split; [|done]. by eapply memp_ext; [exact HM2| | | |].
    - split; try done. intros u k Hu. cbn. rewrite lookup_union_r; [by apply F|].
      apply not_elem_of_list_to_map_1. intros Hin. apply list_elem_of_fmap in Hin as ([x b] & E & Hin).
      apply elem_of_lookup_imap in Hin as (l & y & [= Hx Hb] & _). rewrite Hx in E. injection E as Eu _.
      apply elem_of_dom in Hu. rewrite Eu, Hp in Hu. by destruct Hu. }
  eapply kernel_pte_runs; [apply HB3|apply HB3|subst O2; apply insert_fresh; [done|done|exact Hq]|done|by apply kernel_word_pte|].
  intros s4 HB4. exists O2. eapply builds_trans; [exact HB1|]. by eapply builds_trans.
Qed.

Lemma map_kernel_runs a n : forall i s O, core s O -> no_users O a -> is_Some (mm_objs s !! a) -> 0 <= i ->
  i + Z.of_nat n <= 144 -> runs (map_kernel n a i) s (fun _ s' => exists O', builds a s O s' O').
Proof.
  induction n as [|n IH]; intros i s O HC Hno Ha Hi Hn; cbn [map_kernel]. { apply runs_ret. exists O. by apply builds_refl. }
  rstep straight_runs as _ s1 (O1 & HB1); [done|done|done|unfold is_u32; lia|].
  eapply runs_mono; [apply (IH _ _ O1); [apply HB1|apply HB1|by eapply builds_known|lia|lia]|].
  intros _ s2 (O2 & HB2). exists O2. by eapply builds_trans.
Qed.

Lemma kernel_mappings_runs s O a : core s O -> no_users O a -> is_Some (mm_objs s !! a) ->
  runs (mmu_create_kernel_mappings vectors a) s (fun _ s' => exists O', builds a s O s' O').
Proof.
  intros HC Hno Ha. unfold mmu_create_kernel_mappings.
  rstep vectors_runs as _ s1 (O1 & HB1); [done|done|done|].
  rstep map_kernel_runs as _ s2 (O2 & HB2); [apply HB1|apply HB1|by eapply builds_known|done|done|].
  pose proof (builds_trans _ _ _ _ _ _ _ HB1 HB2) as HB.
  rstep straight_runs as _ s3 (O3 & HB3); [apply HB|apply HB|by eapply builds_known|by compute|].
  pose proof (builds_trans _ _ _ _ _ _ _ HB HB3) as HB'.
  rstep straight_runs as _ s4 (O4 & HB4); [apply HB'|apply HB'|by eapply builds_known|by compute|].
  apply runs_ret. exists O4. by eapply builds_trans.
Qed.

(** ** The list of mappings *)
Record list_ok s : Prop := {
  lo_nodup : NoDup (mappings s);
  lo_dom : forall a, a ∈ mappings s <-> is_Some (mm_objs s !! a);
  lo_pid : forall a b m n, mm_objs s !! a = Some m -> mm_objs s !! b = Some n -> mp_pid m = mp_pid n -> a = b;
}.
(** The mapping of a process. *)
Definition mapped s (pid a : Z) : Prop := exists m, mm_objs s !! a = Some m /\ mp_pid m = pid.
Definition known s (pid : Z) : Prop := exists a, a ∈ mappings s /\ mapped s pid a.

Lemma mapping_in_spec objs l pid : (forall a, a ∈ l -> is_Some (objs !! a)) ->
  match mapping_in objs l pid with
  | Some a => a ∈ l /\ exists m, objs !! a = Some m /\ mp_pid m = pid
  | None => forall a m, a ∈ l -> objs !! a = Some m -> mp_pid m <> pid
  end.
Proof.
  induction l as [|a l IH]; intros Hl; cbn [mapping_in]; [intros a m Ha; by apply elem_of_nil in Ha|].
  destruct (Hl a ltac:(left)) as [m Hm]. rewrite Hm. cbn [mbind option_bind]. destruct (Z.eqb_spec (mp_pid m) pid) as [E|E].
  { split; [left|by exists m]. }
  specialize (IH (fun a Ha => Hl a (list_elem_of_further _ _ _ Ha))). destruct (mapping_in objs l pid) as [b|].
  - destruct IH as [Hb ?]. split; [by right|done].
  - intros b n [->|Hb]%elem_of_cons Hn; [congruence|by eapply IH].
Qed.

Lemma find_mapping_eq s l pid : (forall a, a ∈ l -> is_Some (mm_objs s !! a)) ->
  find_mapping l pid s = Ok (mapping_in (mm_objs s) l pid, s).
Proof.
  induction l as [|a l IH]; intros Hl; [done|]. cbn [find_mapping mapping_in].
  destruct (Hl a ltac:(left)) as [m Hm]. unfold get_mapping. mred. rewrite Hm. cbn [mbind option_bind].
  unfold ret. cbn beta iota. destruct (mp_pid m =? pid); [done|]. apply IH. intros b Hb. apply Hl. by right.
Qed.

Lemma mapping_in_iff s pid a : list_ok s -> mapping_in (mm_objs s) (mappings s) pid = Some a <-> mapped s pid a.
Proof.
  intros [_ Hd Hu]. pose proof (mapping_in_spec (mm_objs s) (mappings s) pid (fun a => proj1 (Hd a))) as H.
  destruct (mapping_in _ _ _) as [b|].
  - destruct H as (Hb & m & Hm & Hp). split; [intros [= <-]; by exists m|]. intros (n & Hn & Hq). f_equal.
    eapply Hu; [done|done|congruence].
  - split; [done|]. intros (n & Hn & Hq). exfalso. eapply (H a n); [|done|done]. apply Hd. by eexists.
Qed.

Lemma find_mapping_ok s pid : list_ok s ->
  find_mapping (mappings s) pid s = Ok (mapping_in (mm_objs s) (mappings s) pid, s).
Proof. intros HL. apply find_mapping_eq. intros a. apply (lo_dom _ HL). Qed.

(** The bytes of a process are those of its pages. *)
Lemma user_byte_iff s O pid va b : tables_inv (mm_words s) (mm_objs s) O -> list_ok s ->
  user_byte s pid va = Some b <->
  exists a u, mapped s pid a /\ O !! u = Some (a, RUser (Z.shiftr va 12)) /\ b = byte_at s (u, Z.land va 0xfff).
Proof.
  intros HT HL. unfold user_byte. split.
  - intros (a & Ha & H)%bind_Some. apply (mapping_in_iff _ _ _ HL) in Ha. destruct Ha as (m & Hm & Hp).
    rewrite Hm in H. cbn [mbind option_bind] in H. apply bind_Some in H as (x & Hx & [= <-]).
    apply (translate_iff _ _ _ _ _ _ HT Hm) in Hx as (u & Hu & ->). exists a, u. split_and!; [by exists m|done|done].
  - intros (a & u & Ha & Hu & ->). pose proof Ha as (m & Hm & _). apply bind_Some. exists a. split; [by apply mapping_in_iff|].
    rewrite Hm. cbn [mbind option_bind]. apply bind_Some. eexists. split; [|done]. apply (translate_iff _ _ _ _ _ _ HT Hm). eauto.
Qed.

Lemma byte_at_eq s s' p : mm_frames s' !! p = mm_frames s !! p -> byte_at s' p = byte_at s p.
Proof. unfold byte_at. by intros ->. Qed.

Lemma option_ext {A} (x y : option A) : (forall b, x = Some b <-> y = Some b) -> x = y.
Proof. intros H. apply option_eq. done. Qed.

Lemma ext_mapped a V s s' O O' pid b : ext a V s s' O O' -> mapped s' pid b <-> mapped s pid b.
Proof.
  intros HE. pose proof (e_obj _ _ _ _ _ _ HE b) as E. unfold mapped.
  destruct (mm_objs s' !! b) as [m'|], (mm_objs s !! b) as [m|]; try done.
  - injection E as E1 _. split; intros (n & [= <-] & ?); eexists; (split; [done|congruence]).
Qed.

Lemma ext_list a V s s' O O' : ext a V s s' O O' -> list_ok s -> list_ok s'.
Proof.
  intros HE [H1 H2 H3]. split; rewrite ?(e_list _ _ _ _ _ _ HE); [done| |].
  - intros b. by rewrite H2, (ext_known _ _ _ _ _ _ _ HE).
  - intros b c m n Hb Hc E. pose proof (e_obj _ _ _ _ _ _ HE b) as Eb. pose proof (e_obj _ _ _ _ _ _ HE c) as Ec.
    rewrite Hb in Eb. rewrite Hc in Ec. destruct (mm_objs s !! b) as [m'|] eqn:Hb'; [|done].
    destruct (mm_objs s !! c) as [n'|] eqn:Hc'; [|done]. injection Eb as Eb _. injection Ec as Ec _. eapply H3; [done|done|congruence].
Qed.

Lemma ext_byte a V s s' O O' pid q va : core s O -> core s' O' -> list_ok s -> ext a V s s' O O' -> mapped s pid a ->
  q <> pid \/ ~ V (Z.shiftr va 12) -> user_byte s' q va = user_byte s q va.
Proof.
  intros [_ HT] [_ HT'] HL HE Ha Hq. pose proof (ext_list _ _ _ _ _ _ HE HL) as HL'. apply option_ext. intros b.
  rewrite (user_byte_iff _ O') by done. rewrite (user_byte_iff _ O) by done.
  assert (Hv : forall c, mapped s q c -> ~ (c = a /\ V (Z.shiftr va 12))).
  { intros c (m & Hm & <-) [-> HV]. destruct Hq as [Hq|Hq]; [|done]. destruct Ha as (n & Hn & <-). congruence. }
  split; intros (c & u & Hc & Hu & ->); exists c, u.
  - apply (ext_mapped _ _ _ _ _ _ _ _ HE) in Hc. apply (e_user _ _ _ _ _ _ HE) in Hu; [|by apply Hv]. split_and!; [done|done|].
    apply byte_at_eq, (e_frames _ _ _ _ _ _ HE). by eapply elem_of_dom_2.
  - split_and!; [by apply (ext_mapped _ _ _ _ _ _ _ _ HE)|apply (e_user _ _ _ _ _ _ HE); [by apply Hv|done]|].
    symmetry. apply byte_at_eq, (e_frames _ _ _ _ _ _ HE). by eapply elem_of_dom_2.
Qed.

(** ** The mapping of a process, made when there is none *)

(** The tables in use are those of the current process. *)
Definition ttb_ok s : Prop := exists a m, mm_objs s !! a = Some m /\ mp_pid m = current_pid s /\ mm_ttb s = mp_address m.

Lemma ext_ttb a V s s' O O' : ext a V s s' O O' -> ttb_ok s -> ttb_ok s'.
Proof.
  intros HE (b & m & Hb & H1 & H2). destruct (ext_mapping _ _ _ _ _ _ _ _ HE Hb) as (m' & Hb' & E1 & E2).
  exists b, m'. rewrite (e_pid _ _ _ _ _ _ HE), (e_ttb _ _ _ _ _ _ HE). split_and!; [done|congruence|congruence].
Qed.

(** What [mmu_mapping_fetch] leaves alone: everything. *)
Record fetched (pid : Z) s s' : Prop := {
  f_list : list_ok s';
  f_ttb : ttb_ok s -> ttb_ok s';
  f_cur : mm_ttb s' = mm_ttb s /\ current_pid s' = current_pid s;
  f_byte : forall q va, user_byte s' q va = user_byte s q va;
  f_known : forall q, known s' q <-> q = pid \/ known s q;
  f_mapped : forall q b, mapped s q b -> mapped s' q b;
}.

(** The state when the mapping [a] has its first-level table. *)
Definition born (a pid p : Z) (x : S) s : mmu S :=
  set_mm_objs (<[a := Mapping pid [p] (page_base p)]> (mm_objs s))
    (set_mm_words (zero_table p L1_ENTRY_NUM (mm_words s)) (set_mm_mem x s)).

Lemma obj_alloc_runs s O (Q : Z -> mmu S -> Prop) : memp s O ->
  (forall a x, mm_objs s !! a = None ->
    (forall m, memp (set_mm_objs (<[a := m]> (mm_objs s)) (set_mm_mem x s)) O) -> Q a (set_mm_mem x s)) ->
  runs (mem (km_obj_alloc (mapping_cache s))) s Q.
Proof.
  intros [M1 M2 M3 M4] HQ. apply runs_within, runs_inv.
  destruct (km_obj_alloc_spec _ _ _ _ (mapping_cache s) 20 M1) as [E|(a & x & E & Hn & _ & HI)]; [apply lookup_insert_eq|by left|right].
  exists a, x. split; [done|]. assert (Ha : mm_objs s !! a = None).
  { destruct (mm_objs s !! a) eqn:Ha; [|done]. destruct (Hn (mapping_cache s)). right. split; [done|]. by eexists. }
  apply HQ; [done|]. intros m. split; cbn; [|done|done|done]. eapply km_ext; [|exact HI].
  intros c y. unfold mlive. cbn. destruct (decide (y = a)) as [->|].
  - rewrite lookup_insert_eq. split; [|intros [?|[-> _]]]; [intros [[?|[-> _]]|[-> _]]; [by left|right..]|by left; left|by right].
    all: split; [done|by eexists].
  - rewrite lookup_insert_ne by congruence. intuition congruence.
Qed.

Lemma born_runs s O pid (K : Z -> M (mmu S) Z) (Q : Z -> mmu S -> Prop) : core s O ->
  (forall a p x, mm_objs s !! a = None -> O !! p = None -> core (born a pid p x s) (<[p := (a, RL1)]> O) -> runs (K a) (born a pid p x s) Q) ->
  runs (let* c := gets mapping_cache in
        let* a := mem (km_obj_alloc c) in
        do* modify (fun s => set_mm_objs (<[a := Mapping pid [] 0]> (mm_objs s)) s) in
        let* pl1 := mmu_create_pl1 a in
        do* upd_mapping a (set_mp_address pl1) in K a) s Q.
Proof.
  intros [HM HT] HQ. rgets. apply runs_bind. eapply obj_alloc_runs; [done|]. intros a x Ha HM1. rmodify.
  set (s1 := set_mm_objs _ (set_mm_mem x s)). specialize (HM1 (Mapping pid [] 0)). apply runs_bind. unfold mmu_create_pl1.
  assert (Ha1 : mm_objs s1 !! a = Some (Mapping pid [] 0)) by apply lookup_insert_eq.
  apply (page_alloc_runs s1 O a _ _ _ _ _ HM1 Ha1 order_l1). intros p y Hp Hr Hd HM2. apply runs_bind, runs_modify, runs_ret, runs_bind.
  eapply upd_mapping_runs; [cbn; apply lookup_insert_eq|].
  match goal with |- runs _ ?t Q => replace t with (born a pid p y s)
    by (unfold born, took, s1, set_mm_objs, set_mm_words, set_mm_mem; cbn; by rewrite !insert_insert_eq) end.
  apply HQ; [done|done|]. split; [|by apply tables_new_l1].
  eapply (memp_ext _ _ _ _ (HM2 RL1)); [done|done| |done]. intros z. cbn.
  destruct (decide (z = a)) as [->|]; [rewrite !lookup_insert_eq; by split; eexists|by rewrite !lookup_insert_ne by congruence].
Qed.

Lemma born_mapped a pid p x s q b : mm_objs s !! a = None ->
  mapped (born a pid p x s) q b <-> (b = a /\ q = pid) \/ mapped s q b.
Proof.
  intros Ha. unfold mapped. cbn. destruct (decide (b = a)) as [->|].
  - rewrite lookup_insert_eq, Ha. split; [intros (m & [= <-] & <-); by left|]. intros [[_ ->]|(m & ? & _)]; [|done]. by eexists.
  - rewrite lookup_insert_ne by congruence. split; [by right|]. by intros [[? _]|?].
Qed.

Lemma fetch_new s O pid a p x s2 O2 : core s O -> list_ok s -> (forall b, ~ mapped s pid b) ->
  mm_objs s !! a = None -> O !! p = None -> core (born a pid p x s) (<[p := (a, RL1)]> O) ->
  builds a (born a pid p x s) (<[p := (a, RL1)]> O) s2 O2 ->
  core (set_mappings (a :: mappings s2) s2) O2 /\ fetched pid s (set_mappings (a :: mappings s2) s2) /\
  mapped (set_mappings (a :: mappings s2) s2) pid a.
Proof.
  intros HC HL Hno Ha Hp HC1 (HC2 & HE & Hnu). set (s3 := set_mappings _ s2).
  assert (HC3 : core s3 O2). { destruct HC2 as [HM2 HT2]. split; [|done]. by apply (memp_ext s2 _ O2). }
  assert (Hmap : forall q b, mapped s3 q b <-> (b = a /\ q = pid) \/ mapped s q b).
  { intros q b. change (mapped s3 q b) with (mapped s2 q b). rewrite (ext_mapped _ _ _ _ _ _ _ _ HE). by apply born_mapped. }
  assert (Hk : forall b, is_Some (mm_objs s3 !! b) <-> b = a \/ is_Some (mm_objs s !! b)).
  { intros b. assert (H : forall t, is_Some (mm_objs t !! b) <-> exists q, mapped t q b).
    { intros t. unfold mapped. split; [intros [m Hm]; by exists (mp_pid m), m|]. intros (q & m & Hm & _). by exists m. }
    rewrite !H. setoid_rewrite Hmap. split.
    - intros (q & [[? _]|?]); [by left|right; by exists q].
    - intros [->|[q Hq]]; [exists pid; by left|exists q; by right]. }
  assert (Hlist : mappings s3 = a :: mappings s) by (unfold s3; cbn; by rewrite (e_list _ _ _ _ _ _ HE)).
  assert (HL3 : list_ok s3).
  { split.
    - rewrite Hlist. apply NoDup_cons. split; [|apply HL]. rewrite (lo_dom _ HL), Ha. by intros [].
    - intros b. by rewrite Hlist, elem_of_cons, (lo_dom _ HL), Hk.
    - intros b c m n Hb Hc E. assert (Mb : mapped s3 (mp_pid m) b) by (by exists m). assert (Mc : mapped s3 (mp_pid m) c) by (by exists n).
      apply Hmap in Mb, Mc. destruct Mb as [[-> Eb]|Mb], Mc as [[-> Ec]|Mc]; [done|rewrite Eb in Mc; by destruct (Hno c)|rewrite Ec in Mb; by destruct (Hno b)|].
      destruct Mb as (m1 & H1 & E1), Mc as (n1 & H2 & E2). eapply (lo_pid _ HL); [done|done|congruence]. }
  split_and!; [done| |by apply Hmap; left]. split; [done| | | | |intros q b Hb; apply Hmap; by right].
  - intros (b & m & Hb & H1 & H2). assert (ttb_ok (born a pid p x s)) as HT1.
    { exists b, m. cbn. rewrite lookup_insert_ne by congruence. done. }
    exact (ext_ttb _ _ _ _ _ _ HE HT1).
  - exact (conj (e_ttb _ _ _ _ _ _ HE) (e_pid _ _ _ _ _ _ HE)).
  - intros q va. apply option_ext. intros b. rewrite (user_byte_iff _ O2) by (apply HC3 || done).
    rewrite (user_byte_iff _ O) by (apply HC || done).
    assert (Hu : forall c u v, c <> a -> O2 !! u = Some (c, RUser v) <-> O !! u = Some (c, RUser v)).
    { intros c u v Hc. rewrite (e_user _ _ _ _ _ _ HE) by (by intros [? _]). by apply insert_fresh. }
    assert (Hf : forall u c v, O !! u = Some (c, RUser v) -> forall k, byte_at s3 (u, k) = byte_at s (u, k)).
    { intros u c v Hu0 k. apply byte_at_eq. change (mm_frames s3) with (mm_frames s2).
      rewrite (e_frames _ _ _ _ _ _ HE); [done|]. rewrite dom_insert. apply elem_of_union_r. by eapply elem_of_dom_2. }
    split; intros (c & u & Hc & Huc & ->).
    + assert (c <> a) by (intros ->; by destruct (Hnu u (Z.shiftr va 12))).
      apply Hu in Huc; [|done]. exists c, u. apply Hmap in Hc as [[? _]|Hc]; [done|]. split_and!; [done|done|by eapply Hf].
    + assert (c <> a) by (intros ->; destruct Hc as (m & Hm & _); congruence).
      exists c, u. split_and!; [by apply Hmap; right|by apply Hu|]. symmetry. by eapply Hf.
  - intros q. unfold known. rewrite Hlist. setoid_rewrite elem_of_cons. setoid_rewrite Hmap. split.
    + intros (b & _ & [[-> ->]|Hm]); [by left|]. right. exists b. split; [|done]. apply (lo_dom _ HL).
      destruct Hm as (m & Hm & _). by exists m.
    + intros [->|(b & Hb & Hm)]; [exists a; by split; left|exists b; by split; right].
Qed.

Lemma fetch_runs s O pid (Q : Z -> mmu S -> Prop) : core s O -> list_ok s ->
  (forall a s' O', core s' O' -> fetched pid s s' -> mapped s' pid a -> Q a s') ->
  runs (mmu_mapping_fetch vectors pid) s Q.
Proof.
  intros HC HL HQ. unfold mmu_mapping_fetch. rgets. apply runs_bind. eapply runs_ok; [by apply find_mapping_ok|].
  destruct (mapping_in (mm_objs s) (mappings s) pid) as [a|] eqn:E.
  - apply (mapping_in_iff _ _ _ HL) in E as Hm. apply runs_ret. apply (HQ a s O); [done| |done].
    split; try done. intros q. split; [by right|]. intros [->|?]; [|done]. exists a. split; [|done].
    apply (lo_dom _ HL). destruct Hm as (m & Hm & _). by exists m.
  - assert (Hno : forall b, ~ mapped s pid b). { intros b Hb%(mapping_in_iff _ _ _ HL). congruence. }
    apply (born_runs _ O); [done|]. intros a p x Ha Hp HC1.
    assert (Hnu : no_users (<[p := (a, RL1)]> O) a).
    { intros u v Hu%insert_fresh; [|done|done]. destruct HC as [_ HT]. destruct (ti_owner _ _ _ HT _ _ _ Hu). congruence. }
    rstep kernel_mappings_runs as _ s2 (O2 & HB); [done|done|cbn; rewrite lookup_insert_eq; by eexists|].
    rmodify. apply runs_ret. destruct (fetch_new _ _ _ _ _ _ _ _ HC HL Hno Ha Hp HC1 HB) as (HC3 & HF & Hm). by eapply HQ.
Qed.

(** ** The calls *)
Definition minv s O : Prop := core s O /\ list_ok s /\ ttb_ok s.

(** A change of the tables in use. *)
Lemma set_ttb_byte ttb pid s q va : user_byte (set_ttb ttb pid s) q va = user_byte s q va.
Proof. done. Qed.

Lemma mmu_set_ttb_runs s O pid : core s O -> list_ok s ->
  runs (mmu_set_ttb vectors pid) s (fun r s' => exists O', minv s' O' /\ r = current_pid s /\ current_pid s' = pid /\
    (forall q va, user_byte s' q va = user_byte s q va) /\ (forall q, known s' q <-> q = pid \/ known s q) /\
    (forall q b, mapped s q b -> mapped s' q b)).
Proof.
  intros HC HL. unfold mmu_set_ttb. apply runs_bind. eapply fetch_runs; [done|done|]. intros a s1 O1 HC1 HF (m & Hm & Hp).
  apply runs_bind. eapply get_mapping_runs; [done|]. cbv zeta. rgets. rmodify. apply runs_ret.
  destruct HF as [F1 F2 [F3 F4] F5 F6 F7]. exists O1. split; [|split_and!; [done|done|done|done|done]].
  destruct HC1 as [HM1 HT1]. split_and!.
  - split; [|done]. by apply (memp_ext s1 _ O1).
  - destruct F1 as [G1 G2 G3]. by split.
  - destruct (ti_l1 _ _ _ HT1 _ _ Hm) as (p & E & Hd & HO & _). exists a, m. cbn. split_and!; [done|done|].
    rewrite E. apply ttb_base; [|done]. by eapply (ti_range _ _ _ HT1).
Qed.

Lemma mmu_init_runs s : memp s ∅ -> mm_objs s = ∅ ->
  runs (mmu_init vectors) s (fun _ s' => exists O', minv s' O' /\ current_pid s' = 0 /\ (forall q, known s' q <-> q = 0) /\
    forall q va, user_byte s' q va = None).
Proof.
  intros HM Ho. unfold mmu_init. rmodify. set (s1 := set_mappings [] s).
  assert (HC : core s1 ∅).
  { split; [by apply (memp_ext s _ ∅)|]. split; cbn; rewrite ?Ho; intros *; rewrite lookup_empty; done. }
  apply runs_bind. eapply runs_mono; [apply (mmu_set_ttb_runs s1 ∅); [done|]|].
  - split; cbn; [apply NoDup_nil_2| |]; rewrite ?Ho; intros *; rewrite !lookup_empty; [|done].
    rewrite elem_of_nil. split; [done|by intros []].
  - intros r s2 (O2 & HI & _ & Hc & Hb & Hk & _). apply runs_ret. exists O2. split_and!; [done|done| |].
    + intros q. rewrite Hk. split; [|by left]. intros [?|(a & Ha & _)]; [done|]. by apply elem_of_nil in Ha.
    + intros q va. by rewrite Hb.
Qed.

Lemma mmu_alloc_runs s O pid addr size : minv s O -> is_u32 addr ->
  runs (mmu_alloc vectors pid addr size) s (fun r s' => exists O', minv s' O' /\ current_pid s' = current_pid s /\
    r = map_result addr size /\
    (forall q va, q <> pid \/ r <> 0 \/ ~ span addr size (Z.shiftr va 12) -> user_byte s' q va = user_byte s q va) /\
    (r = 0 -> forall va, span addr size (Z.shiftr va 12) -> is_Some (user_byte s' pid va)) /\
    (forall q, known s' q <-> q = pid \/ known s q)).
Proof.
  intros (HC & HL & HT) Hu. unfold mmu_alloc. apply runs_bind. eapply fetch_runs; [done|done|].
  intros a s1 O1 HC1 [F1 F2 [F3 F4] F5 F6 _] Ha. assert (Hk : is_Some (mm_objs s1 !! a)) by (destruct Ha as (m & Hm & _); by exists m).
  eapply mmu_create_mapping_runs; [done|done|done|]. intros s2 O2 HC2 r HE HU. exists O2.
  pose proof (ext_list _ _ _ _ _ _ HE F1) as HL2. split_and!.
  - split_and!; [done|done|]. eapply ext_ttb; [done|auto].
  - by rewrite (e_pid _ _ _ _ _ _ HE).
  - done.
  - intros q va Hq. rewrite <- F5. eapply ext_byte; [exact HC1|exact HC2|done|exact HE|done|].
    destruct Hq as [?|[?|?]]; [by left|right; by intros [? _]|right; by intros [_ ?]].
  - intros Hr va Hv. destruct (HU Hr _ Hv) as [u Hu0]. eexists. apply (user_byte_iff _ O2); [apply HC2|done|].
    exists a, u. split_and!; [by apply (ext_mapped _ _ _ _ _ _ _ _ HE)|done|done].
  - intros q. rewrite <- F6. unfold known. rewrite (e_list _ _ _ _ _ _ HE).
    split; intros (b & Hb & Hm); exists b; (split; [done|]); by apply (ext_mapped _ _ _ _ _ _ _ _ HE).
Qed.

(** Every page of the list goes back to the allocator. *)
Lemma release_runs (C' : gmap Z Z) (L' : Z -> Z -> Prop) l : forall s (U' : gset Z), km_inv (mm_mem s) C' L' U' -> NoDup l -> (forall p, p ∈ l -> p ∈ U') ->
  runs (release_pages l) s (fun _ s' => exists x, s' = set_mm_mem x s /\ km_inv x C' L' (U' ∖ list_to_set l)).
Proof.
  induction l as [|p l IH]; intros s U' HI Hn Hl; cbn [release_pages].
  { apply runs_ret. exists (mm_mem s). split; [by destruct s|]. by replace (U' ∖ list_to_set []) with U' by set_solver. }
  apply NoDup_cons in Hn as [Hp Hn]. apply runs_bind, runs_within, runs_inv. right.
  destruct (km_page_free_spec _ _ _ _ p HI (Hl p ltac:(left))) as (x & E & HI'). exists tt, x. split; [done|].
  eapply runs_mono; [apply (IH (set_mm_mem x s) (U' ∖ {[p]})); [exact HI'|done|set_solver]|].
  intros [] s2 (y & -> & HIy). exists y. split; [done|].
  by replace (U' ∖ list_to_set (p :: l)) with (U' ∖ {[p]} ∖ list_to_set l) by set_solver.
Qed.

(** The state without the mapping [a]. *)
Definition buried (a : Z) (x : S) s : mmu S :=
  set_mm_objs (delete a (mm_objs s)) (set_mm_mem x (set_mappings (filter (fun b => b <> a) (mappings s)) s)).

Lemma buried_mapped a x s q b : mapped (buried a x s) q b <-> b <> a /\ mapped s q b.
Proof.
  unfold mapped. cbn. split.
  - intros (m & [Hb Hm]%lookup_delete_Some & E). split; [congruence|by exists m].
  - intros (Hb & m & Hm & E). exists m. by rewrite lookup_delete_ne by congruence.
Qed.

Lemma buried_list a x s : list_ok s -> list_ok (buried a x s).
Proof.
  intros [H1 H2 H3]. split; cbn.
  - by apply NoDup_filter.
  - intros b. rewrite list_elem_of_filter, H2. destruct (decide (b = a)) as [->|].
    + rewrite lookup_delete_eq. split; [by intros []|by intros []].
    + rewrite lookup_delete_ne by congruence. by intuition.
  - intros b c m n [_ Hb]%lookup_delete_Some [_ Hc]%lookup_delete_Some. by apply H3.
Qed.

Lemma owner_pages s O a m : tables_inv (mm_words s) (mm_objs s) O -> mm_objs s !! a = Some m -> U ## dom O ->
  (U ∪ dom O) ∖ list_to_set (mp_pages m) = U ∪ dom (disown O a).
Proof.
  intros HT Ha HU. destruct (ti_pages _ _ _ HT _ _ Ha) as [_ Hin]. apply set_eq. intros p.
  rewrite elem_of_difference, !elem_of_union, elem_of_list_to_set, Hin, !elem_of_dom. split.
  - intros [[Hp|[[b r] Hp]] Hn]; [by left|right]. exists (b, r). apply disown_lookup. split; [done|]. intros ->. apply Hn. by exists r.
  - intros [Hp|[[b r] [Hp Hb]%disown_lookup]].
    + split; [by left|]. intros [r Hr]. apply elem_of_dom_2 in Hr. set_solver.
    + split; [right; by eexists|]. intros [r' Hr]. congruence.
Qed.

Lemma destroy_core s O a m x y : core s O -> mm_objs s !! a = Some m ->
  km_inv x (<[mapping_cache s := 20]> C) (mlive s) ((U ∪ dom O) ∖ list_to_set (mp_pages m)) ->
  km_obj_free (mapping_cache s) a x = Ok (tt, y) ->
  core (buried a y s) (disown O a).
Proof.
  intros [[M1 M2 M3 M4] HT] Ha HI Ef. assert (Hl : mlive s (mapping_cache s) a) by (right; split; [done|by exists m]).
  destruct (km_obj_free_spec _ _ _ _ _ _ HI Hl) as (y' & E & HI'). rewrite E in Ef. injection Ef as ->.
  rewrite (owner_pages s O a m HT Ha M2) in HI'.
  assert (Hd : dom (disown O a) ⊆ dom O) by apply dom_filter_subseteq.
  split; [|by apply tables_delete]. split; cbn; [|set_solver|done|done].
  eapply km_ext; [|exact HI']. intros c z. unfold mlive. cbn. destruct (decide (z = a)) as [->|].
  - rewrite lookup_delete_eq. split; [by intros [_ ?]|]. intros [HL|[_ [? ?]]]; [|done].
    assert (c = mapping_cache s) as -> by (eapply (km_unique _ _ _ _ c _ a M1); [by left|done]). by destruct (M4 a).
  - rewrite lookup_delete_ne by congruence. by intuition.
Qed.

Lemma buried_byte s O a x pid q va : core s O -> core (buried a x s) (disown O a) -> list_ok s -> mapped s pid a ->
  user_byte (buried a x s) q va = if decide (q = pid) then None else user_byte s q va.
Proof.
  intros [_ HT] [_ HT'] HL Ha. apply option_ext. intros b. rewrite (user_byte_iff _ _ _ _ _ HT' (buried_list _ _ _ HL)).
  assert (Hne : forall c, mapped s q c -> q <> pid <-> c <> a).
  { intros c (m & Hm & <-). destruct Ha as (n & Hn & <-). split; [intros H ->; congruence|].
    intros H E. apply H. by eapply (lo_pid _ HL). }
  case_decide as Hq.
  - split; [|done]. intros (c & u & [Hc Hm]%buried_mapped & _). by apply Hne in Hc.
  - rewrite (user_byte_iff _ _ _ _ _ HT HL). split; intros (c & u & Hc & Hu & ->); exists c, u.
    + apply buried_mapped in Hc as [_ ?]. by apply disown_lookup in Hu as [? _].
    + split_and!; [|by apply disown_lookup; split; [|apply Hne]|done]. apply buried_mapped. by split; [apply Hne|].
Qed.

Lemma mmu_destroy_runs s O pid : minv s O -> known s pid -> pid <> 0 ->
  runs (mmu_destroy vectors pid) s (fun r s' => exists O', minv s' O' /\ r = 0 /\ current_pid s' = 0 /\
    (forall q va, user_byte s' q va = if decide (q = pid) then None else user_byte s q va) /\
    (forall q, known s' q <-> q <> pid /\ (q = 0 \/ known s q))).
Proof.
  intros (HC & HL & HTtb) (a & Hin & Ha) H0. unfold mmu_destroy. rgets. apply runs_bind. eapply runs_ok; [by apply find_mapping_ok|].
  apply (mapping_in_iff _ _ _ HL) in Ha as Em. rewrite Em. apply runs_bind. eapply runs_opt; [done|].
  rstep mmu_set_ttb_runs as r s1 (O1 & (HC1 & HL1 & HT1) & _ & Hp1 & Hb1 & Hk1 & Hm1); [done|done|].
  pose proof (Hm1 _ _ Ha) as (m & Hm & Hp). rmodify. apply runs_bind. eapply get_mapping_runs; [done|].
  assert (HC1' := HC1). destruct HC1' as [[M1 M2 M3 M4] HTa]. destruct (ti_pages _ _ _ HTa _ _ Hm) as [Hnd Hpg].
  rstep release_runs as [] s2 (x & -> & HI); [exact M1|done|set_unfold; intros p [r' Hr]%Hpg; right; by eapply elem_of_dom_2|].
  rgets. apply runs_bind, runs_within, runs_inv. right.
  destruct (km_obj_free_spec _ _ _ _ (mapping_cache s1) a HI) as (y & Ef & _); [right; split; [done|by exists m]|].
  exists tt, y. split; [exact Ef|]. rmodify. apply runs_ret.
  match goal with |- context [minv ?t] => change t with (buried a y s1) end.
  pose proof (destroy_core _ _ _ _ _ _ HC1 Hm HI Ef) as HC2. exists (disown O1 a). split_and!.
  - split_and!; [done|by apply buried_list|]. destruct HT1 as (b & n & Hb & E1 & E2). exists b, n. cbn. split_and!; [|done|done].
    rewrite lookup_delete_ne; [done|]. intros ->. congruence.
  - done.
  - done.
  - intros q va. rewrite (buried_byte _ _ _ _ pid _ _ HC1 HC2 HL1) by (by exists m). by rewrite Hb1.
  - intros q. rewrite <- Hk1. unfold known. split.
    + intros (b & Hb & [Hba Hmb]%buried_mapped). apply list_elem_of_filter in Hb as [_ Hb]. split; [|by exists b].
      intros ->. apply Hba. destruct Hmb as (n & Hn & E). eapply (lo_pid _ HL1); [done|done|congruence].
    + intros (Hq & b & Hb & Hmb). assert (b <> a) by (intros ->; destruct Hmb as (n & Hn & E); congruence).
      exists b. split; [by apply list_elem_of_filter|by apply buried_mapped].
Qed.

(** ** Reads and writes of user memory *)
Lemma current_place s O va b : minv s O -> user_byte s (current_pid s) va = Some b ->
  exists a u, mapped s (current_pid s) a /\ O !! u = Some (a, RUser (Z.shiftr va 12)) /\
    translate s (mm_ttb s) va = Some (u, Z.land va 0xfff) /\ b = byte_at s (u, Z.land va 0xfff).
Proof.
  intros ([_ HT] & HL & (a & m & Hm & Hp & ->)) Hb. apply (user_byte_iff _ _ _ _ _ HT HL) in Hb as (c & u & Hc & Hu & ->).
  assert (c = a) as ->. { destruct Hc as (n & Hn & E). eapply (lo_pid _ HL); [done|done|congruence]. }
  exists a, u. split_and!; [done|done| |done]. apply (translate_iff _ _ _ _ _ _ HT Hm). eauto.
Qed.

Lemma mmu_load_ok s O va b : minv s O -> user_byte s (current_pid s) va = Some b -> mmu_load va s = Ok (b, s).
Proof. intros HI Hb. destruct (current_place _ _ _ _ HI Hb) as (a & u & _ & _ & E & ->). unfold mmu_load. by rewrite E. Qed.

Lemma va_split x y : Z.shiftr x 12 = Z.shiftr y 12 -> Z.land x 0xfff = Z.land y 0xfff -> x = y.
Proof.
  change 0xfff with (Z.ones 12). rewrite !Z.land_ones, !Z.shiftr_div_pow2 by lia. intros H1 H2.
  rewrite (Z.div_mod x (2 ^ 12)), (Z.div_mod y (2 ^ 12)) by lia. congruence.
Qed.

Lemma mmu_store_ok s O va b v : minv s O -> user_byte s (current_pid s) va = Some b -> is_u8 v ->
  exists s', mmu_store va v s = Ok (tt, s') /\ minv s' O /\ current_pid s' = current_pid s /\
    (forall q x, user_byte s' q x = if decide (q = current_pid s /\ x = va) then Some v else user_byte s q x) /\
    (forall q, known s' q <-> known s q) /\ mm_mem s' = mm_mem s.
Proof.
  intros HI Hb Hv. destruct (current_place _ _ _ _ HI Hb) as (a & u & Ha & Hu & E & _). unfold mmu_store. rewrite E.
  eexists. split; [done|]. set (s' := set_mm_frames _ s). destruct HI as ([HM HT] & HL & HTb).
  assert (HL' : list_ok s') by (destruct HL; by split). split_and!; [|done| |done|done].
  { split_and!; [split; [|done]|done|done]. by apply (memp_ext s _ O). }
  intros q x. apply option_ext. intros c. rewrite (user_byte_iff s' O) by done. unfold byte_at. cbn [s' set_mm_frames mm_frames].
  case_decide as Hd.
  - destruct Hd as [-> ->]. split.
    + intros (a' & u' & Ha' & Hu' & ->). assert (a' = a) as ->.
      { destruct Ha as (m & Hm & E1), Ha' as (n & Hn & E2). eapply (lo_pid _ HL); [done|done|congruence]. }
      destruct Ha as (m & Hm & _). assert (translate s (mp_address m) va = Some (u, Z.land va 0xfff)) as T1 by (apply (translate_iff _ _ _ _ _ _ HT Hm); eauto).
      assert (translate s (mp_address m) va = Some (u', Z.land va 0xfff)) as T2 by (apply (translate_iff _ _ _ _ _ _ HT Hm); eauto).
      assert (u' = u) as -> by congruence. rewrite lookup_insert_eq. cbn. f_equal. symmetry. by apply Z.mod_small.
    + intros [= <-]. exists a, u. split_and!; [done|done|]. rewrite lookup_insert_eq. cbn. symmetry. by apply Z.mod_small.
  - rewrite (user_byte_iff s O) by done.
    assert (Hne : forall a' u', mapped s q a' -> O !! u' = Some (a', RUser (Z.shiftr x 12)) -> (u, Z.land va 0xfff) <> (u', Z.land x 0xfff)).
    { intros a' u' Ha' Hu' [= -> Eo]. rewrite Hu in Hu'. injection Hu' as -> Ev. apply Hd. split; [|by symmetry; apply va_split].
      destruct Ha as (m & Hm & <-), Ha' as (n & Hn & <-). congruence. }
    split; intros (a' & u' & Ha' & Hu' & ->); exists a', u'; (split_and!; [done|done|]); by rewrite lookup_insert_ne by (by eapply Hne).
Qed.
End Mmu.
