(* ===== verification/MmuSpecs.v ===== *)
(** * mmu.c implements the address spaces

    The page tables discharge the interfaces [KernelMem] and [UserSpace]: the
    callers see the memory they own as before, and one address space per
    process. *)

From stdpp Require Import base numbers list list_numbers gmap.
From S2P Require Import Prelude Hoare Buddy BuddyProofs KernelMem UserSpace Mmu MmuTables MmuProofs.

#[local] Open Scope Z_scope.
#[local] Open Scope kernel_scope.

Section Instances.
Context {S : Type} `{KM : KernelMem S}.
Implicit Types (s : mmu S).

Definition mmu_inv s (C : gmap Z Z) (L : Z -> Z -> Prop) (U : gset Z) : Prop := exists O, minv C L U s O.

(** A call of an allocator for somebody else. *)
Lemma mem_user C L U s O x C' L' U' : minv C L U s O ->
  km_inv x (<[mapping_cache s := 20]> C') (fun c a => L' c a \/ (c = mapping_cache s /\ is_Some (mm_objs s !! a))) (U' ∪ dom O) ->
  U' ## dom O -> C' !! mapping_cache s = None -> (forall a, ~ L' (mapping_cache s) a) -> minv C' L' U' (set_mm_mem x s) O.
Proof. intros ((_ & HT) & HL & HB) HI HU HC Hl. split_and!; [by split|by destruct HL|done]. Qed.

#[export] Program Instance mmu_kernel_mem : KernelMem (mmu S) := {|
  km_obj_alloc c := mem (km_obj_alloc c);
  km_obj_free c a := mem (km_obj_free c a);
  km_page_alloc size := mem (km_page_alloc size);
  km_page_free i := mem (km_page_free i);
  km_inv := mmu_inv;
|}.
Next Obligation.
  intros s C L U c osz [O HI] HC. pose proof HI as ([[M1 M2 M3 M4] _] & _). unfold mem, within.
  assert (Hc : c <> mapping_cache s) by congruence.
  destruct (km_obj_alloc_spec _ _ _ _ c osz M1) as [->|(a & x & -> & Hn & H0 & HI')]; [by rewrite lookup_insert_ne by done|by left|right].
  exists a, (set_mm_mem x s). split_and!; [done|intros c' H; apply (Hn c'); by left|done|].
  exists O. eapply mem_user; [done| |done|done|].
  - eapply km_ext; [|exact HI']. intros c' y. unfold mlive. by intuition.
  - intros y [Hy|[Hy _]]; [by apply (M4 y)|congruence].
Qed.
Next Obligation.
  intros s C L U c a [O HI] HL. pose proof HI as ([[M1 M2 M3 M4] _] & _). unfold mem, within.
  destruct (km_obj_free_spec _ _ _ _ c a M1) as (x & -> & HI'); [by left|].
  exists (set_mm_mem x s). split; [done|]. exists O. eapply mem_user; [done| |done|done|intros y [Hy _]; by apply (M4 y)].
  eapply km_ext; [|exact HI']. intros c' y. unfold mlive. split; [intros [[?|?] ?]; [by left|by right]|].
  intros [[? ?]|[-> Hy]]; [by split; [left|]|]. split; [by right|]. intros ->.
  assert (c = mapping_cache s) as -> by (eapply (km_unique _ _ _ _ c _ a M1); [by left|by right]). by apply (M4 a).
Qed.
Next Obligation.
  intros s C L U size k [O HI] Ho. pose proof HI as ([[M1 M2 M3 M4] _] & _). unfold mem, within.
  destruct (km_page_alloc_spec _ _ _ _ _ _ M1 Ho) as [->|(i & x & -> & Hi & Hr & HI')]; [by left|right].
  exists i, (set_mm_mem x s). split_and!; [done|set_solver|lia|lia|]. exists O.
  eapply mem_user; [done| |set_solver|done|done]. by replace ({[i]} ∪ U ∪ dom O) with ({[i]} ∪ (U ∪ dom O)) by set_solver.
Qed.
Next Obligation.
  intros s C L U size k i s' [O HI] Ho. pose proof HI as ([[M1 M2 M3 M4] _] & _). unfold mem, within.
  destruct (km_page_alloc size (mm_mem s)) as [[j x]|] eqn:E; [|done]. intros [= <- _].
  exact (km_page_aligned _ _ _ _ _ _ _ _ M1 Ho E).
Qed.
Next Obligation. intros s size Hs. unfold mem, within. by rewrite km_too_big. Qed.
Next Obligation.
  intros s C L U i [O HI] Hi. pose proof HI as ([[M1 M2 M3 M4] _] & _). unfold mem, within.
  destruct (km_page_free_spec _ _ _ _ i M1) as (x & -> & HI'); [set_solver|].
  exists (set_mm_mem x s). split; [done|]. exists O. eapply mem_user; [done| |set_solver|done|done].
  by replace (U ∖ {[i]} ∪ dom O) with ((U ∪ dom O) ∖ {[i]}) by set_solver.
Qed.
Next Obligation.
  intros s C L U c c' a [O ([[M1 _ _ _] _] & _)] H1 H2. eapply (km_unique _ _ _ _ c c' a M1); by left.
Qed.
Next Obligation.
  intros s C L L' U HL [O HI]. exists O. pose proof HI as ([[M1 M2 M3 M4] _] & _).
  destruct s as [x ca w f ob l t cp]. eapply (mem_user _ _ _ (Mmu x ca w f ob l t cp) O x); [done| |done|done|intros a; rewrite <- HL; apply M4].
  eapply km_ext; [|exact M1]. intros c a. unfold mlive. by rewrite HL.
Qed.

Lemma mem_step {A} (m : M S A) s a s' : mem m s = Ok (a, s') -> exists x, s' = set_mm_mem x s.
Proof. unfold mem, within. destruct (m (mm_mem s)) as [[b x]|]; [|done]. intros [= _ <-]. by exists x. Qed.

Program Definition mmu_user_space (vectors : list Z) : UserSpace (mmu S) := {|
  us_set_ttb := mmu_set_ttb vectors;
  us_alloc := mmu_alloc vectors;
  us_destroy := mmu_destroy vectors;
  us_load := mmu_load;
  us_store := mmu_store;
  us_byte := user_byte;
  us_current := current_pid;
  us_known := known;
|}.
Next Obligation.
  intros vectors s pid a b. unfold user_byte. intros (? & _ & (? & _ & (p & _ & [= <-])%bind_Some)%bind_Some)%bind_Some.
  apply u8_range.
Qed.
Next Obligation. intros vectors s C L U a b [O HI]. by apply (mmu_load_ok C L U _ O). Qed.
Next Obligation.
  intros vectors s C L U a b v [O HI] Hb Hv. destruct (mmu_store_ok C L U s O a b v HI Hb Hv) as (s' & E & HI' & H1 & H2 & H3 & H4).
  exists s'. split_and!; [done|done|done|done|]. intros C1 L1 U1 [O1 HI1].
  destruct (mmu_store_ok C1 L1 U1 s O1 a b v HI1 Hb Hv) as (s1 & E1 & HI1' & _). rewrite E in E1. injection E1 as <-. by exists O1.
Qed.
Next Obligation.
  intros vectors s C L U pid [O (HC & HL & _)].
  destruct (proj1 (runs_inv _ _ _) (mmu_set_ttb_runs vectors C L U s O pid HC HL)) as [E|(r & s' & E & O' & HI & -> & H)]; [by left|right].
  exists s'. destruct H as (H1 & H2 & H3 & _). split_and!; [done|done|done|done|by exists O'].
Qed.
Next Obligation.
  intros vectors s C L U pid addr size [O HI] Hs Hu.
  destruct (proj1 (runs_inv _ _ _) (mmu_alloc_runs vectors C L U s O pid addr size HI Hu)) as [E|(r & s' & E & O' & HI' & H1 & Hr & H2 & H3 & H4)]; [by left|right].
  rewrite map_result_eq in Hr by done. subst r. exists s'. split_and!; [done|done| | |done|by exists O'].
  - intros q x Hq. apply H2. unfold alloc_result. rewrite span_pages by done.
    destruct Hq as [Hq|[Hx|Hx]]; [by left|rewrite Hx; right; by left|right; by right].
  - intros Hr x Hx. apply H3; [unfold alloc_result; by rewrite Hr|]. by apply span_pages.
Qed.
Next Obligation.
  intros vectors s C L U pid [O HI] Hk H0.
  destruct (proj1 (runs_inv _ _ _) (mmu_destroy_runs vectors C L U s O pid HI Hk H0)) as [E|(r & s' & E & O' & HI' & -> & H1 & H2 & H3)]; [by left|right].
  exists s'. split_and!; [done|done|done| |by exists O']. intros q Hq Hn. apply H3. auto.
Qed.
Next Obligation.
  intros vectors s s' Hs. assert (exists x, s' = set_mm_mem x s) as [x ->]; [|done].
  destruct Hs as [c a E|c a E|size i E|i E].
  - exact (mem_step (km_obj_alloc c) _ _ _ E).
  - exact (mem_step (km_obj_free c a) _ _ _ E).
  - exact (mem_step (km_page_alloc size) _ _ _ E).
  - exact (mem_step (km_page_free i) _ _ _ E).
Qed.
End Instances.

(** ** The specification: one address space per process *)
Record spec_state : Type := SpecState {
  as_current : Z;
  as_known : Z -> Prop;
  as_byte : Z -> Z -> option Z;
}.

(** The calls, and the accesses of the processor. *)
Inductive mmu_call : Set :=
| SetTtb (pid : Z)
| Alloc (pid addr size : Z)
| Destroy (pid : Z)
| Load (va : Z)
| Store (va v : Z).

(** What the callers see to.  [Destroy] of a process without tables is not
    allowed: the code would release the head of the list. *)
Definition allowed (A : spec_state) (c : mmu_call) : Prop :=
  match c with
  | SetTtb _ => True
  | Alloc _ addr size => 0 <= size <= 2 ^ 31 /\ is_u32 addr
  | Destroy pid => as_known A pid /\ pid <> 0
  | Load va => is_Some (as_byte A (as_current A) va)
  | Store va v => is_Some (as_byte A (as_current A) va) /\ is_u8 v
  end.

(** One call.  [Alloc] makes the pages that hold the [size] bytes from [addr] on
    part of the space of [pid], when all of them lie in one megabyte. *)
Inductive spec_step (A : spec_state) : mmu_call -> Z -> spec_state -> Prop :=
| step_set_ttb pid K :
    (forall q, K q <-> q = pid \/ as_known A q) ->
    spec_step A (SetTtb pid) (as_current A) (SpecState pid K (as_byte A))
| step_alloc pid addr size r K B :
    (forall q, K q <-> q = pid \/ as_known A q) ->
    r = alloc_result addr size ->
    (forall q va, q <> pid \/ r <> 0 \/ ~ in_pages addr size va -> B q va = as_byte A q va) ->
    (r = 0 -> forall va, in_pages addr size va -> is_Some (B pid va)) ->
    spec_step A (Alloc pid addr size) r (SpecState (as_current A) K B)
| step_destroy pid K B :
    (forall q, K q <-> q <> pid /\ (q = 0 \/ as_known A q)) ->
    (forall q va, B q va = if decide (q = pid) then None else as_byte A q va) ->
    spec_step A (Destroy pid) 0 (SpecState 0 K B)
| step_load va b : as_byte A (as_current A) va = Some b ->
    spec_step A (Load va) b A
| step_store va v K B :
    (forall q, K q <-> as_known A q) ->
    (forall q x, B q x = if decide (q = as_current A /\ x = va) then Some v else as_byte A q x) ->
    spec_step A (Store va v) 0 (SpecState (as_current A) K B).

Section Refinement.
Context {S : Type} `{KM : KernelMem S} (vectors : list Z).
Implicit Types (s : mmu S).

Definition exec (c : mmu_call) : M (mmu S) Z :=
  match c with
  | SetTtb pid => mmu_set_ttb vectors pid
  | Alloc pid addr size => mmu_alloc vectors pid addr size
  | Destroy pid => mmu_destroy vectors pid
  | Load va => mmu_load va
  | Store va v => do* mmu_store va v in ret 0
  end.

(** [s] as a state of the specification. *)
Definition models s (A : spec_state) : Prop :=
  current_pid s = as_current A /\ (forall q, known s q <-> as_known A q) /\ forall q va, user_byte s q va = as_byte A q va.
Definition empty_state : spec_state := SpecState 0 (fun q => q = 0) (fun _ _ => None).

(** A call is a step of the specification, or the kernel stops for want of
    memory. *)
Lemma exec_simulates s C L U A c : mmu_inv s C L U -> models s A -> allowed A c ->
  runs (exec c) s (fun r s' => mmu_inv s' C L U /\ exists A', models s' A' /\ spec_step A c r A').
Proof.
  intros [O HI] (Ec & Hk & Hb) Hc. destruct c as [pid|pid addr size|pid|va|va v]; cbn [exec allowed] in *.
  - eapply runs_mono; [apply (mmu_set_ttb_runs vectors C L U s O); apply HI|].
    intros r s' (O' & HI' & -> & H1 & H2 & H3 & _). split; [by exists O'|].
    exists (SpecState pid (known s') (as_byte A)). rewrite Ec. split; [split_and!; [done|done|intros; cbn; by rewrite H2]|].
    constructor. intros q. by rewrite H3, Hk.
  - destruct Hc as (Hs & Hu). eapply runs_mono; [apply (mmu_alloc_runs vectors C L U s O); done|].
    intros r s' (O' & HI' & H1 & Hr & H2 & H3 & H4). split; [by exists O'|].
    exists (SpecState (as_current A) (known s') (user_byte s')). split; [split_and!; cbn; [congruence|done|done]|].
    rewrite map_result_eq in Hr by done.
    constructor; [intros q; by rewrite H4, Hk|done|intros q va Hq; rewrite <- Hb; apply H2; by rewrite span_pages|].
    intros Hr0 va Hva. apply H3; [done|]. by apply span_pages.
  - destruct Hc as [Hc H0]. eapply runs_mono; [apply (mmu_destroy_runs vectors C L U s O); [done|by apply Hk|done]|].
    intros r s' (O' & HI' & -> & H1 & H2 & H3). split; [by exists O'|].
    exists (SpecState 0 (known s') (user_byte s')). split; [by split_and!|].
    constructor; [intros q; by rewrite H3, Hk|]. intros q va. rewrite H2. by rewrite Hb.
  - destruct Hc as [b Hc]. rewrite <- Hb, <- Ec in Hc. eapply runs_ok; [by apply (mmu_load_ok C L U s O)|]. split; [by exists O|].
    exists A. split; [done|]. constructor. by rewrite <- Hb, <- Ec.
  - destruct Hc as [[b Hc] Hv]. rewrite <- Hb, <- Ec in Hc.
    destruct (mmu_store_ok C L U s O va b v HI Hc Hv) as (s' & E & HI' & H1 & H2 & H3 & _). apply runs_bind.
    eapply runs_ok; [exact E|]. apply runs_ret. split; [by exists O|].
    exists (SpecState (as_current A) (known s') (user_byte s')). split; [split_and!; cbn; [congruence|done|done]|].
    constructor; [intros q; by rewrite H3, Hk|]. intros q x. rewrite H2, Ec. by rewrite Hb.
Qed.

Lemma init_models s C L U : memp C L U s ∅ -> mm_objs s = ∅ ->
  runs (mmu_init vectors) s (fun _ s' => mmu_inv s' C L U /\ models s' empty_state).
Proof.
  intros HM Ho. eapply runs_mono; [by apply (mmu_init_runs vectors C L U)|]. intros r s' (O & HI & H1 & H2 & H3).
  split; [by exists O|]. by split_and!.
Qed.
End Refinement.

(** C15: the page tables of mmu.c implement one address space per process.
    [mmu_init] makes the spaces in which only process 0 is known and nothing is
    mapped.  From then on [mmu_set_ttb], [mmu_alloc], [mmu_destroy] and the
    processor's reads and writes of user memory are steps of the specification,
    on every state the code can reach, whatever the allocators answer: a write
    changes one byte of the current process and no byte of any other, [mmu_alloc]
    changes nothing outside of the pages it was asked for, and refuses requests
    that cross a megabyte, [mmu_destroy] ends one space and leaves the others;
    the memory of the other parts of the kernel is kept.  A call never touches
    an entry that is not there; it returns, unless memory runs out. *)
Theorem mmu_implements_spaces {S : Type} `{KM : KernelMem S} vectors (s : mmu S) C L U :
  (memp C L U s ∅ -> mm_objs s = ∅ ->
     runs (mmu_init vectors) s (fun _ s' => mmu_inv s' C L U /\ models s' empty_state)) /\
  (forall A c, mmu_inv s C L U -> models s A -> allowed A c ->
     runs (exec vectors c) s (fun r s' => mmu_inv s' C L U /\ exists A', models s' A' /\ spec_step A c r A')).
Proof. split; [by apply init_models|]. intros A c. apply exec_simulates. Qed.

(** Before [mmu_init], and with the first-level table of process 0 alone. *)
Definition mmu0 : mmu bump := Mmu (Bump 1 0) 7 ∅ ∅ ∅ [] 0 0.
Definition mmu1 : mmu bump := set_ttb (page_base 0) 0 (set_mappings [1] (born 1 0 0 (Bump 2 1) mmu0)).
Definition mmu1_space : spec_state := SpecState 0 (fun q => q = 0) (fun _ _ => None).

Lemma mmu0_memp : memp ∅ (fun _ _ => False) ∅ mmu0 ∅.
Proof.
  split; [|set_solver|apply lookup_empty|tauto]. split_and!; cbn; [lia|lia| | |].
  - intros c a [?|[_ [m Hm]]]; [done|]. change (mm_objs mmu0) with (∅ : gmap Z mapping) in Hm. by rewrite lookup_empty in Hm.
  - intros c c' a [?|[_ [m Hm]]]; [done|]. change (mm_objs mmu0) with (∅ : gmap Z mapping) in Hm. by rewrite lookup_empty in Hm.
  - intros i. rewrite dom_empty. set_solver.
Qed.

Lemma mmu0_tables : tables_inv (mm_words mmu0) (mm_objs mmu0) ∅.
Proof. split; cbn; intros *; rewrite lookup_empty; done. Qed.

Lemma mmu1_objs x : mm_objs mmu1 !! x = if decide (x = 1) then Some (Mapping 0 [0] (page_base 0)) else None.
Proof.
  change (mm_objs mmu1) with (<[1 := Mapping 0 [0] (page_base 0)]> (∅ : gmap Z mapping)).
  case_decide as Hx; [by rewrite Hx, lookup_insert_eq|by rewrite lookup_insert_ne, lookup_empty by congruence].
Qed.

Lemma mmu1_inv : minv ∅ (fun _ _ => False) ∅ mmu1 {[0 := (1, RL1)]}.
Proof.
  split_and!; [split| |].
  - split; [|set_solver|apply lookup_empty|tauto]. split_and!; cbn [next_obj next_page mm_mem mmu1 set_ttb set_mappings born set_mm_objs set_mm_words set_mm_mem]; [lia|lia| | |].
    + intros c a [?|[_ [m Hm]]]; [done|]. change (mm_objs _) with (mm_objs mmu1) in Hm. rewrite mmu1_objs in Hm. case_decide; [lia|done].
    + by intros c c' a [?|[-> _]] [?|[-> _]].
    + intros i. rewrite dom_singleton. set_unfold. lia.
  - apply (tables_new_l1 _ _ _ mmu0_tables 1 0 0); [done|done|by compute|by exists 0].
  - split; cbn [mappings mmu1 set_ttb set_mappings]; [apply NoDup_singleton| |].
    + intros a. rewrite list_elem_of_singleton, mmu1_objs. case_decide; [|split; [done|by intros []]]. split; [by eexists|done].
    + intros a b m n. rewrite !mmu1_objs. do 2 case_decide; congruence.
  - exists 1, (Mapping 0 [0] (page_base 0)). by rewrite mmu1_objs.
Qed.

Lemma mmu1_models : models mmu1 mmu1_space.
Proof.
  pose proof mmu1_inv as ([_ HT] & HL & _). split_and!; [done| |].
  - intros q. split.
    + intros (a & _ & m & Hm & <-). rewrite mmu1_objs in Hm. case_decide; [|done]. injection Hm as <-. done.
    + cbn. intros ->. exists 1. split; [left|]. exists (Mapping 0 [0] (page_base 0)). by rewrite mmu1_objs.
  - intros q va. cbn. destruct (user_byte mmu1 q va) as [b|] eqn:E; [|done].
    apply (user_byte_iff _ _ _ _ _ HT HL) in E as (a & u & _ & Hu & _). apply lookup_singleton_Some in Hu as [_ ?]. done.
Qed.

Definition succeeds {A} (r : res A) : bool := match r with Ok _ => true | Err _ => false end.

Lemma mmu_implements_spaces_witness :
  runs (mmu_init [1; 2; 3]) mmu0 (fun _ s' => mmu_inv s' ∅ (fun _ _ => False) ∅ /\ models s' empty_state) /\
  exists s' A, mmu_alloc [1; 2; 3] 0 0x8000 0x1000 mmu1 = Ok (0, s') /\ mmu_inv s' ∅ (fun _ _ => False) ∅ /\
    models s' A /\ is_Some (as_byte A 0 0x8fff) /\ as_byte A 0 0x9000 = None.
Proof.
  assert (Hi1 : in_pages 0x8000 0x1000 0x8fff) by (apply in_pages_aligned; [reflexivity|lia]).
  assert (Hi2 : ~ in_pages 0x8000 0x1000 0x9000) by (rewrite in_pages_range; vm_compute; intros [_ H]; discriminate H).
  destruct (mmu_implements_spaces [1; 2; 3] mmu0 ∅ (fun _ _ => False) ∅) as [H0 _].
  split; [exact (H0 mmu0_memp eq_refl)|].
  destruct (mmu_implements_spaces [1; 2; 3] mmu1 ∅ (fun _ _ => False) ∅) as [_ H1].
  assert (HI : mmu_inv mmu1 ∅ (fun _ _ => False) ∅) by (eexists; exact mmu1_inv).
  assert (Ha : allowed mmu1_space (Alloc 0 0x8000 0x1000)) by (split; [lia|unfold is_u32; lia]).
  specialize (H1 mmu1_space (Alloc 0 0x8000 0x1000) HI mmu1_models Ha). clear HI.
  rewrite runs_inv in H1. cbn [exec] in H1.
  assert (Hs : succeeds (mmu_alloc [1; 2; 3] 0 0x8000 0x1000 mmu1) = true) by (vm_compute; reflexivity).
  destruct H1 as [E|(r & s' & E & HI & A & HA & Hstep)]; [rewrite E in Hs; discriminate Hs|].
  exists s', A. inversion Hstep as [|? ? ? ? K B HK Hr Hout Hin| | |]. subst.
  change (alloc_result 0x8000 0x1000) with 0 in *. split; [exact E|]. split; [exact HI|]. split; [exact HA|].
  split; [exact (Hin eq_refl _ Hi1)|]. exact (Hout 0 _ (or_intror (or_intror Hi2))).
Defined.
