(* ===== verification/Kernel.v ===== *)
(** * The state of the process subsystem

    The data of [process.c], [pipe.c] and [file.h]: processes, open files and
    pipes, each kept by the address of its object, and the accesses to them.
    Linked lists of objects are kept as the sequences of the objects' addresses
    (what [LinkedList] shows the list operations to implement); [list_add]
    inserts at the front and [list_foreach] walks from the front.  A wait queue
    is the sequence of its entries: the address of the entry and the process.

    Memory comes from the interface [KernelMem]. *)

From stdpp Require Import base numbers list gmap.
From S2P Require Import Prelude Arith Signal Buddy BuddyProofs KernelMem Unix.

#[local] Open Scope Z_scope.
#[local] Open Scope kernel_scope.

Definition MAX_FD_SIZE : Z := 32.
Definition SEGMENT_TYPE_SIZE : Z := 4.

(** [struct process_context]: the registers of a process. *)
Record process_context : Set := Context {
  c_cpsr : Z;
  c_r : list Z;
  c_sp : Z;
  c_lr : Z;
  c_pc : Z;
}.

(** [struct segment]. *)
Record segment : Set := Segment {
  s_start : Z;
  s_current : Z;
  s_end : Z;
  s_flags : Z;
}.
Definition set_s_current (v : Z) (x : segment) : segment :=
  Segment (s_start x) v (s_end x) (s_flags x).
Definition set_s_end (v : Z) (x : segment) : segment :=
  Segment (s_start x) (s_current x) v (s_flags x).

Inductive process_state : Set := STATE_READY | STATE_BLOCKED | STATE_DEAD.

#[export] Instance process_state_eq_dec : EqDecision process_state.
Proof. solve_decision. Defined.

(** [struct k_sigaction]. *)
Record k_sigaction : Set := KSigaction {
  ksa_handler : Z;
  ksa_flags : Z;
  ksa_restorer : Z;
  ksa_mask : sigset;
}.

(** [struct process]; a null pointer is 0. *)
Record process : Set := Process {
  p_id : Z;
  p_parent : Z;
  p_children : list Z;
  p_state : process_state;
  p_exit_status : Z;
  p_context : process_context;
  p_suspend : Z;
  p_segments : list segment;
  p_brk : Z;
  p_kernel_stack : Z;
  p_files : list Z;
  p_close_on_exec : list Z;
  p_mask : sigset;
  p_pending : sigset;
  p_actions : list k_sigaction;
}.
Definition set_p_id (v : Z) (x : process) : process :=
Process v (p_parent x) (p_children x) (p_state x) (p_exit_status x) (p_context x) (p_suspend x)
    (p_segments x) (p_brk x) (p_kernel_stack x) (p_files x) (p_close_on_exec x) (p_mask x)
    (p_pending x) (p_actions x).
Definition set_p_parent (v : Z) (x : process) : process :=
Process (p_id x) v (p_children x) (p_state x) (p_exit_status x) (p_context x) (p_suspend x)
    (p_segments x) (p_brk x) (p_kernel_stack x) (p_files x) (p_close_on_exec x) (p_mask x)
    (p_pending x) (p_actions x).
Definition set_p_children (v : list Z) (x : process) : process :=
Process (p_id x) (p_parent x) v (p_state x) (p_exit_status x) (p_context x) (p_suspend x)
    (p_segments x) (p_brk x) (p_kernel_stack x) (p_files x) (p_close_on_exec x) (p_mask x)
    (p_pending x) (p_actions x).
Definition set_p_state (v : process_state) (x : process) : process :=
Process (p_id x) (p_parent x) (p_children x) v (p_exit_status x) (p_context x) (p_suspend x)
    (p_segments x) (p_brk x) (p_kernel_stack x) (p_files x) (p_close_on_exec x) (p_mask x)
    (p_pending x) (p_actions x).
Definition set_p_exit_status (v : Z) (x : process) : process :=
Process (p_id x) (p_parent x) (p_children x) (p_state x) v (p_context x) (p_suspend x)
    (p_segments x) (p_brk x) (p_kernel_stack x) (p_files x) (p_close_on_exec x) (p_mask x)
    (p_pending x) (p_actions x).
Definition set_p_context (v : process_context) (x : process) : process :=
Process (p_id x) (p_parent x) (p_children x) (p_state x) (p_exit_status x) v (p_suspend x)
    (p_segments x) (p_brk x) (p_kernel_stack x) (p_files x) (p_close_on_exec x) (p_mask x)
    (p_pending x) (p_actions x).
Definition set_p_suspend (v : Z) (x : process) : process :=
Process (p_id x) (p_parent x) (p_children x) (p_state x) (p_exit_status x) (p_context x) v
    (p_segments x) (p_brk x) (p_kernel_stack x) (p_files x) (p_close_on_exec x) (p_mask x)
    (p_pending x) (p_actions x).
Definition set_p_segments (v : list segment) (x : process) : process :=
Process (p_id x) (p_parent x) (p_children x) (p_state x) (p_exit_status x) (p_context x)
    (p_suspend x) v (p_brk x) (p_kernel_stack x) (p_files x) (p_close_on_exec x) (p_mask x)
    (p_pending x) (p_actions x).
Definition set_p_brk (v : Z) (x : process) : process :=
Process (p_id x) (p_parent x) (p_children x) (p_state x) (p_exit_status x) (p_context x)
    (p_suspend x) (p_segments x) v (p_kernel_stack x) (p_files x) (p_close_on_exec x) (p_mask x)
    (p_pending x) (p_actions x).
Definition set_p_kernel_stack (v : Z) (x : process) : process :=
Process (p_id x) (p_parent x) (p_children x) (p_state x) (p_exit_status x) (p_context x)
    (p_suspend x) (p_segments x) (p_brk x) v (p_files x) (p_close_on_exec x) (p_mask x)
    (p_pending x) (p_actions x).
Definition set_p_files (v : list Z) (x : process) : process :=
Process (p_id x) (p_parent x) (p_children x) (p_state x) (p_exit_status x) (p_context x)
    (p_suspend x) (p_segments x) (p_brk x) (p_kernel_stack x) v (p_close_on_exec x) (p_mask x)
    (p_pending x) (p_actions x).
Definition set_p_close_on_exec (v : list Z) (x : process) : process :=
Process (p_id x) (p_parent x) (p_children x) (p_state x) (p_exit_status x) (p_context x)
    (p_suspend x) (p_segments x) (p_brk x) (p_kernel_stack x) (p_files x) v (p_mask x)
    (p_pending x) (p_actions x).
Definition set_p_mask (v : sigset) (x : process) : process :=
Process (p_id x) (p_parent x) (p_children x) (p_state x) (p_exit_status x) (p_context x)
    (p_suspend x) (p_segments x) (p_brk x) (p_kernel_stack x) (p_files x) (p_close_on_exec x) v
    (p_pending x) (p_actions x).
Definition set_p_pending (v : sigset) (x : process) : process :=
Process (p_id x) (p_parent x) (p_children x) (p_state x) (p_exit_status x) (p_context x)
    (p_suspend x) (p_segments x) (p_brk x) (p_kernel_stack x) (p_files x) (p_close_on_exec x)
    (p_mask x) v (p_actions x).
Definition set_p_actions (v : list k_sigaction) (x : process) : process :=
Process (p_id x) (p_parent x) (p_children x) (p_state x) (p_exit_status x) (p_context x)
    (p_suspend x) (p_segments x) (p_brk x) (p_kernel_stack x) (p_files x) (p_close_on_exec x)
    (p_mask x) (p_pending x) v.

(** [struct pipe]. *)
Record pipe : Set := Pipe {
  pp_page : Z;
  pp_offset : Z;
  pp_length : Z;
  pp_readers : Z;
  pp_writers : Z;
  readers_waitq : list (Z * Z);
  writers_waitq : list (Z * Z);
}.
Definition set_pp_page (v : Z) (x : pipe) : pipe :=
Pipe v (pp_offset x) (pp_length x) (pp_readers x) (pp_writers x) (readers_waitq x)
    (writers_waitq x).
Definition set_pp_offset (v : Z) (x : pipe) : pipe :=
Pipe (pp_page x) v (pp_length x) (pp_readers x) (pp_writers x) (readers_waitq x) (writers_waitq
    x).
Definition set_pp_length (v : Z) (x : pipe) : pipe :=
Pipe (pp_page x) (pp_offset x) v (pp_readers x) (pp_writers x) (readers_waitq x) (writers_waitq
    x).
Definition set_pp_readers (v : Z) (x : pipe) : pipe :=
Pipe (pp_page x) (pp_offset x) (pp_length x) v (pp_writers x) (readers_waitq x) (writers_waitq
    x).
Definition set_pp_writers (v : Z) (x : pipe) : pipe :=
Pipe (pp_page x) (pp_offset x) (pp_length x) (pp_readers x) v (readers_waitq x) (writers_waitq
    x).
Definition set_readers_waitq (v : list (Z * Z)) (x : pipe) : pipe :=
  Pipe (pp_page x) (pp_offset x) (pp_length x) (pp_readers x) (pp_writers x) v (writers_waitq x).
Definition set_writers_waitq (v : list (Z * Z)) (x : pipe) : pipe :=
  Pipe (pp_page x) (pp_offset x) (pp_length x) (pp_readers x) (pp_writers x) (readers_waitq x) v.

Inductive file_type : Set := FF_UNUSED | FF_TTY | FF_INODE | FF_PIPE.

#[export] Instance file_type_eq_dec : EqDecision file_type.
Proof. solve_decision. Defined.

(** [struct file]; [f_ptr] is the union of the dentry, termios and pipe pointers. *)
Record file : Set := File {
  f_type : file_type;
  f_ptr : Z;
  f_flags : Z;
  f_offset : Z;
  f_count : Z;
}.
Definition set_f_type (v : file_type) (x : file) : file :=
  File v (f_ptr x) (f_flags x) (f_offset x) (f_count x).
Definition set_f_ptr (v : Z) (x : file) : file :=
  File (f_type x) v (f_flags x) (f_offset x) (f_count x).
Definition set_f_flags (v : Z) (x : file) : file :=
  File (f_type x) (f_ptr x) v (f_offset x) (f_count x).
Definition set_f_offset (v : Z) (x : file) : file :=
  File (f_type x) (f_ptr x) (f_flags x) v (f_count x).
Definition set_f_count (v : Z) (x : file) : file :=
  File (f_type x) (f_ptr x) (f_flags x) (f_offset x) v.

Record kernel_caches : Set := KernelCaches {
  process_cache : Z;
  file_cache : Z;
  waitq_cache : Z;
  context_cache : Z;
  pipe_cache : Z;
}.

Record kernel (S : Type) : Type := Kernel {
  k_mem : S;
  k_caches : kernel_caches;
  k_pipes : gmap Z pipe;
  k_bufs : gmap Z (list Z);
  k_files : gmap Z file;
  k_procs : gmap Z process;
  all_processes : list Z;
  run_queue : list Z;
  child_waitq : list (Z * Z);
  current_process : Z;
  max_id : Z;
  tty_read_waitq : list (Z * Z);
  tty_write_waitq : list (Z * Z);
  k_termios : list Z;
}.
Arguments Kernel {S}.
Arguments k_mem {S}.
Arguments k_caches {S}.
Arguments k_pipes {S}.
Arguments k_bufs {S}.
Arguments k_files {S}.
Arguments k_procs {S}.
Arguments all_processes {S}.
Arguments run_queue {S}.
Arguments child_waitq {S}.
Arguments current_process {S}.
Arguments max_id {S}.
Arguments tty_read_waitq {S}.
Arguments tty_write_waitq {S}.
Arguments k_termios {S}.
Definition set_k_mem {S} (v : S) (x : kernel S) : kernel S :=
Kernel v (k_caches x) (k_pipes x) (k_bufs x) (k_files x) (k_procs x) (all_processes x)
    (run_queue x) (child_waitq x) (current_process x) (max_id x) (tty_read_waitq x)
    (tty_write_waitq x) (k_termios x).
Definition set_k_pipes {S} (v : gmap Z pipe) (x : kernel S) : kernel S :=
Kernel (k_mem x) (k_caches x) v (k_bufs x) (k_files x) (k_procs x) (all_processes x) (run_queue
    x) (child_waitq x) (current_process x) (max_id x) (tty_read_waitq x) (tty_write_waitq x)
    (k_termios x).
Definition set_k_bufs {S} (v : gmap Z (list Z)) (x : kernel S) : kernel S :=
Kernel (k_mem x) (k_caches x) (k_pipes x) v (k_files x) (k_procs x) (all_processes x) (run_queue
    x) (child_waitq x) (current_process x) (max_id x) (tty_read_waitq x) (tty_write_waitq x)
    (k_termios x).
Definition set_k_files {S} (v : gmap Z file) (x : kernel S) : kernel S :=
Kernel (k_mem x) (k_caches x) (k_pipes x) (k_bufs x) v (k_procs x) (all_processes x) (run_queue
    x) (child_waitq x) (current_process x) (max_id x) (tty_read_waitq x) (tty_write_waitq x)
    (k_termios x).
Definition set_k_procs {S} (v : gmap Z process) (x : kernel S) : kernel S :=
Kernel (k_mem x) (k_caches x) (k_pipes x) (k_bufs x) (k_files x) v (all_processes x) (run_queue
    x) (child_waitq x) (current_process x) (max_id x) (tty_read_waitq x) (tty_write_waitq x)
    (k_termios x).
Definition set_all_processes {S} (v : list Z) (x : kernel S) : kernel S :=
Kernel (k_mem x) (k_caches x) (k_pipes x) (k_bufs x) (k_files x) (k_procs x) v (run_queue x)
    (child_waitq x) (current_process x) (max_id x) (tty_read_waitq x) (tty_write_waitq x)
    (k_termios x).
Definition set_run_queue {S} (v : list Z) (x : kernel S) : kernel S :=
Kernel (k_mem x) (k_caches x) (k_pipes x) (k_bufs x) (k_files x) (k_procs x) (all_processes x) v
    (child_waitq x) (current_process x) (max_id x) (tty_read_waitq x) (tty_write_waitq x)
    (k_termios x).
Definition set_child_waitq {S} (v : list (Z * Z)) (x : kernel S) : kernel S :=
Kernel (k_mem x) (k_caches x) (k_pipes x) (k_bufs x) (k_files x) (k_procs x) (all_processes x)
    (run_queue x) v (current_process x) (max_id x) (tty_read_waitq x) (tty_write_waitq x)
    (k_termios x).
Definition set_current_process {S} (v : Z) (x : kernel S) : kernel S :=
Kernel (k_mem x) (k_caches x) (k_pipes x) (k_bufs x) (k_files x) (k_procs x) (all_processes x)
    (run_queue x) (child_waitq x) v (max_id x) (tty_read_waitq x) (tty_write_waitq x) (k_termios
    x).
Definition set_max_id {S} (v : Z) (x : kernel S) : kernel S :=
Kernel (k_mem x) (k_caches x) (k_pipes x) (k_bufs x) (k_files x) (k_procs x) (all_processes x)
    (run_queue x) (child_waitq x) (current_process x) v (tty_read_waitq x) (tty_write_waitq x)
    (k_termios x).
Definition set_tty_read_waitq {S} (v : list (Z * Z)) (x : kernel S) : kernel S :=
Kernel (k_mem x) (k_caches x) (k_pipes x) (k_bufs x) (k_files x) (k_procs x) (all_processes x)
    (run_queue x) (child_waitq x) (current_process x) (max_id x) v (tty_write_waitq x)
    (k_termios x).
Definition set_tty_write_waitq {S} (v : list (Z * Z)) (x : kernel S) : kernel S :=
Kernel (k_mem x) (k_caches x) (k_pipes x) (k_bufs x) (k_files x) (k_procs x) (all_processes x)
    (run_queue x) (child_waitq x) (current_process x) (max_id x) (tty_read_waitq x) v (k_termios
    x).
Definition set_k_termios {S} (v : list Z) (x : kernel S) : kernel S :=
Kernel (k_mem x) (k_caches x) (k_pipes x) (k_bufs x) (k_files x) (k_procs x) (all_processes x)
    (run_queue x) (child_waitq x) (current_process x) (max_id x) (tty_read_waitq x)
    (tty_write_waitq x) v.

Section Access.
Context {S : Type} `{KM : KernelMem S}.
Notation state := (kernel S).

(** A call of the allocators. *)
Definition kmem {A} (m : M S A) : M state A :=
  fun k => match m (k_mem k) with
           | Ok (a, x) => Ok (a, set_k_mem x k)
           | Err r => Err r
           end.
Definition cache_of (f : kernel_caches -> Z) : M state Z := gets (fun k => f (k_caches k)).

Definition get_proc (p : Z) : M state process :=
  let* m := gets k_procs in opt Fault (m !! p).
Definition put_proc (p : Z) (x : process) : M state unit :=
  modify (fun k => set_k_procs (<[p := x]> (k_procs k)) k).
Definition upd_proc (p : Z) (f : process -> process) : M state unit :=
  let* x := get_proc p in put_proc p (f x).
Definition get_pipe (a : Z) : M state pipe :=
  let* m := gets k_pipes in opt Fault (m !! a).
Definition put_pipe (a : Z) (x : pipe) : M state unit :=
  modify (fun k => set_k_pipes (<[a := x]> (k_pipes k)) k).
Definition upd_pipe (a : Z) (f : pipe -> pipe) : M state unit :=
  let* x := get_pipe a in put_pipe a (f x).
Definition get_file_obj (a : Z) : M state file :=
  let* m := gets k_files in opt Fault (m !! a).
Definition put_file_obj (a : Z) (x : file) : M state unit :=
  modify (fun k => set_k_files (<[a := x]> (k_files k)) k).
Definition upd_file_obj (a : Z) (f : file -> file) : M state unit :=
  let* x := get_file_obj a in put_file_obj a (f x).

(** [SYSTEM_BUG_ON]. *)
Definition SYSTEM_BUG_ON (b : bool) : M state unit := if b then fail Halt else ret tt.

(** ** Wait queues *)
Inductive waitq : Set := ReadersOf (pipe : Z) | WritersOf (pipe : Z) | ChildWaitq
| TtyReadWaitq | TtyWriteWaitq.

Definition get_waitq (q : waitq) : M state (list (Z * Z)) :=
  match q with
  | ReadersOf a => let* p := get_pipe a in ret (readers_waitq p)
  | WritersOf a => let* p := get_pipe a in ret (writers_waitq p)
  | ChildWaitq => gets child_waitq
  | TtyReadWaitq => gets tty_read_waitq
  | TtyWriteWaitq => gets tty_write_waitq
  end.
Definition put_waitq (q : waitq) (l : list (Z * Z)) : M state unit :=
  match q with
  | ReadersOf a => upd_pipe a (set_readers_waitq l)
  | WritersOf a => upd_pipe a (set_writers_waitq l)
  | ChildWaitq => modify (set_child_waitq l)
  | TtyReadWaitq => modify (set_tty_read_waitq l)
  | TtyWriteWaitq => modify (set_tty_write_waitq l)
  end.

(** [process_sleep], up to [system_suspend]: the caller goes on when it is
    dispatched again. *)
Definition process_sleep (q : waitq) : M state unit :=
  let* process := gets current_process in
  let* wc := cache_of waitq_cache in
  let* entry := kmem (km_obj_alloc wc) in
  let* cc := cache_of context_cache in
  let* suspend := kmem (km_obj_alloc cc) in
  do* upd_proc process (set_p_state STATE_BLOCKED) in
  let* l := get_waitq q in
  do* put_waitq q ((entry, process) :: l) in
  upd_proc process (set_p_suspend suspend).

Definition process_wake (q : waitq) : M state Z :=
  let* l := get_waitq q in
  match l with
  | [] => ret 0
  | (entry, process) :: l =>
      do* upd_proc process (set_p_state STATE_READY) in
      do* put_waitq q l in
      let* wc := cache_of waitq_cache in
      do* kmem (km_obj_free wc entry) in
      ret 1
  end.

(** [while (process_wake(q));] *)
Fixpoint wake_all (fuel : nat) (q : waitq) : M state unit :=
  match fuel with
  | O => fail Fuel
  | Datatypes.S fuel =>
      let* r := process_wake q in
      if truthy r then wake_all fuel q else ret tt
  end.

(** ** The process table *)

(** The walk of [find_process] over [all_processes]. *)
Fixpoint find_process_in (l : list Z) (pid : Z) : M state Z :=
  match l with
  | [] => ret 0
  | a :: l =>
      let* p := get_proc a in
      if p_id p =? pid then ret a else find_process_in l pid
  end.
Definition find_process (pid : Z) : M state Z :=
  let* l := gets all_processes in find_process_in l pid.

Definition process_kill (pid sig : Z) : M state Z :=
  if (sig <? 1) || (NSIG <=? sig) then ret (- EINVAL)
  else if pid <? 1 then ret (- ESRCH)
  else
    let* process := find_process pid in
    if process =? 0 then ret (- ESRCH)
    else
      do* upd_proc process (fun p => set_p_pending (snd (sigaddset (p_pending p) sig)) p) in
      ret 0.
End Access.
