(* ===== verification/Pipe.v ===== *)
(** * Pipes: model

    [pipe.c].  The kernel is not preempted: a system call runs until it returns
    or until it sleeps.  [pipe_read] and [pipe_write] are therefore functions
    from the state in which they are entered, or resumed after a sleep, to the
    state in which they return ([Some] result) or sleep ([None]).  Their locals
    are arguments: [got] are the bytes copied to the caller's buffer so far
    ([read] is their number), [written] is the number of bytes already taken
    from the caller's data.

    The proofs are in [PipeProofs]. *)

From stdpp Require Import base numbers list gmap.
From S2P Require Import Prelude Signal Buddy BuddyProofs KernelMem Unix Kernel.

#[local] Open Scope Z_scope.
#[local] Open Scope kernel_scope.

Section Pipe.
Context {S : Type} `{KM : KernelMem S}.
Notation state := (kernel S).

(** ** The page of a pipe *)
Definition get_buf (i : Z) : M state (list Z) :=
  let* m := gets k_bufs in opt Fault (m !! i).
(** [memcpy] from and to the page: it must stay inside. *)
Definition copy_from (i off n : Z) : M state (list Z) :=
  let* b := get_buf i in
  if (0 <=? off) && (off + n <=? PAGE_SIZE)
  then ret (take (Z.to_nat n) (drop (Z.to_nat off) b)) else fail Fault.
Definition copy_to (i off : Z) (bytes : list Z) : M state unit :=
  let* b := get_buf i in
  if (0 <=? off) && (off + Z.of_nat (length bytes) <=? PAGE_SIZE)
  then modify (fun k => set_k_bufs (<[i := list_inserts (Z.to_nat off) bytes b]> (k_bufs k)) k)
  else fail Fault.

(** ** pipe.c *)
Definition pipe_create : M state Z :=
  let* pc := cache_of pipe_cache in
  let* pipe := kmem (km_obj_alloc pc) in
  do* put_pipe pipe (Pipe 0 0 0 0 0 [] []) in
  let* page := kmem (km_page_alloc PAGE_SIZE) in
  do* upd_pipe pipe (set_pp_page page) in
  do* upd_pipe pipe (set_readers_waitq []) in
  do* upd_pipe pipe (set_writers_waitq []) in
  do* upd_pipe pipe (set_pp_readers 1) in
  do* upd_pipe pipe (set_pp_writers 1) in
  ret pipe.

Fixpoint pipe_read_loop (fuel : nat) (pipe size : Z) (got : list Z) : M state (list Z * option Z) :=
  match fuel with
  | O => fail Fuel
  | Datatypes.S fuel =>
      let* p := get_pipe pipe in
      if negb (truthy (pp_length p)) then
        if negb (truthy (pp_writers p)) then ret (got, Some 0)
        else do* process_sleep (ReadersOf pipe) in ret (got, None)
      else
        let read := Z.of_nat (length got) in
        let start := u32 (pp_offset p + pp_length p) mod PAGE_SIZE in
        let remaining := if pp_offset p <? start then u32 (start - pp_offset p)
                         else u32 (PAGE_SIZE - pp_offset p) in
        let len := if u32 (size - read) <? remaining then u32 (size - read) else remaining in
        let* bytes := copy_from (pp_page p) (pp_offset p) len in
        let got := got ++ bytes in
        let read := Z.of_nat (length got) in
        do* upd_pipe pipe (fun p => set_pp_offset (u32 (pp_offset p + len) mod PAGE_SIZE) p) in
        do* upd_pipe pipe (fun p => set_pp_length (u32 (pp_length p - len)) p) in
        let* p := get_pipe pipe in
        do* SYSTEM_BUG_ON (PAGE_SIZE <=? pp_offset p) in
        do* SYSTEM_BUG_ON (PAGE_SIZE <=? pp_length p) in
        let* _ := process_wake (WritersOf pipe) in
        let* p := get_pipe pipe in
        if negb (truthy (pp_length p)) || (size =? u32 read) then ret (got, Some read)
        else pipe_read_loop fuel pipe size got
  end.

Fixpoint pipe_write_loop (fuel : nat) (pipe : Z) (data : list Z) (written : Z) :
    M state (Z * option Z) :=
  match fuel with
  | O => fail Fuel
  | Datatypes.S fuel =>
      let size := Z.of_nat (length data) in
      let* p := get_pipe pipe in
      if negb (truthy (pp_readers p)) then
        let* cur := gets current_process in
        let* c := get_proc cur in
        let* _ := process_kill (p_id c) SIGPIPE in
        ret (written, Some (- EPIPE))
      else if pp_length p =? PAGE_SIZE then
        do* process_sleep (WritersOf pipe) in ret (written, None)
      else
        let start := u32 (pp_offset p + pp_length p) mod PAGE_SIZE in
        let remaining := if start <? pp_offset p then u32 (pp_offset p - start)
                         else u32 (PAGE_SIZE - start) in
        let len := if remaining <? u32 (size - written) then remaining else u32 (size - written) in
        do* copy_to (pp_page p) start (take (Z.to_nat len) (drop (Z.to_nat written) data)) in
        let written := written + len in
        do* upd_pipe pipe (fun p => set_pp_length (u32 (pp_length p + len)) p) in
        let* _ := process_wake (ReadersOf pipe) in
        let* p := get_pipe pipe in
        do* SYSTEM_BUG_ON (PAGE_SIZE <? pp_length p) in
        if size =? u32 written then ret (written, Some written)
        else pipe_write_loop fuel pipe data written
  end.

(** The page is filled or emptied in at most two pieces: three turns are
    enough for every call ([PipeProofs]). *)
Definition pipe_fuel : nat := 3.
Definition pipe_read (pipe size : Z) (got : list Z) : M state (list Z * option Z) :=
  pipe_read_loop pipe_fuel pipe size got.
(** The count is an [ssize_t]: callers pass buffers in user memory, which are
    smaller than 2{^31} bytes, so that it is the number of bytes. *)
Definition pipe_write (pipe : Z) (data : list Z) (written : Z) : M state (Z * option Z) :=
  pipe_write_loop pipe_fuel pipe data written.

Definition pipe_countup (pipe flags : Z) : M state unit :=
  if access_mode flags =? O_RDONLY then upd_pipe pipe (fun p => set_pp_readers (u32 (pp_readers p + 1)) p)
  else if access_mode flags =? O_WRONLY then upd_pipe pipe (fun p => set_pp_writers (u32 (pp_writers p + 1)) p)
  else fail Halt.

(** [while (process_wake(q));] with the length of the queue as its bound. *)
Definition wake_whole (q : waitq) : M state unit :=
  let* l := get_waitq q in wake_all (Datatypes.S (length l)) q.

Definition pipe_release (pipe flags : Z) : M state unit :=
  do* (if access_mode flags =? O_RDONLY then
         let* p := get_pipe pipe in
         do* SYSTEM_BUG_ON (pp_readers p =? 0) in
         do* upd_pipe pipe (fun p => set_pp_readers (u32 (pp_readers p - 1)) p) in
         let* p := get_pipe pipe in
         if negb (truthy (pp_readers p)) then wake_whole (WritersOf pipe) else ret tt
       else if access_mode flags =? O_WRONLY then
         let* p := get_pipe pipe in
         do* SYSTEM_BUG_ON (pp_writers p =? 0) in
         do* upd_pipe pipe (fun p => set_pp_writers (u32 (pp_writers p - 1)) p) in
         let* p := get_pipe pipe in
         if negb (truthy (pp_writers p)) then wake_whole (ReadersOf pipe) else ret tt
       else fail Halt) in
  let* p := get_pipe pipe in
  if negb (truthy (pp_readers p)) && negb (truthy (pp_writers p)) then
    let page := pp_page p in
    let* pc := cache_of pipe_cache in
    do* kmem (km_obj_free pc pipe) in
    do* modify (fun k => set_k_pipes (delete pipe (k_pipes k)) k) in
    kmem (km_page_free page)
  else ret tt.
End Pipe.
