(* ===== verification/PipeProofs.v ===== *)
(** * Pipes: proofs

    The page of a pipe is a ring; [ring] reads a stretch of it.  The invariant
    [pipes_inv] covers the pipes, their pages, the wait queues and the objects
    behind them, over the interface [KernelMem]. *)

From stdpp Require Import base numbers list gmap.
From S2P Require Import Prelude Signal Buddy BuddyProofs PageAlloc KernelMem Unix Kernel Pipe.

#[local] Open Scope Z_scope.
#[local] Open Scope kernel_scope.

(** ** The ring *)
Definition ring (b : list Z) (off n : Z) : list Z :=
  (fun i => b !!! Z.to_nat ((off + i) mod PAGE_SIZE)) <$> seqZ 0 n.

Lemma ring_length b off n : 0 <= n -> Z.of_nat (length (ring b off n)) = n.
Proof. intros. unfold ring. rewrite length_fmap, length_seqZ. lia. Qed.

Lemma ring_nil b off : ring b off 0 = [].
Proof. reflexivity. Qed.

Lemma ring_app b off n m :
  0 <= n -> 0 <= m -> ring b off (n + m) = ring b off n ++ ring b (off + n) m.
Proof.
  intros Hn Hm. unfold ring. rewrite seqZ_app, fmap_app by done. f_equal.
  replace (0 + n) with (n + 0) by lia. rewrite <- fmap_add_seqZ, <- list_fmap_compose.
  apply list_fmap_ext. intros _ x _. simpl. do 3 f_equal. lia.
Qed.

Lemma ring_mod b off n : ring b (off mod PAGE_SIZE) n = ring b off n.
Proof.
  unfold ring. apply list_fmap_ext. intros _ x _. do 2 f_equal.
  apply Z.add_mod_idemp_l. done.
Qed.

Lemma ring_take b off n m : 0 <= n <= m -> take (Z.to_nat n) (ring b off m) = ring b off n.
Proof.
  intros H. replace m with (n + (m - n)) by lia. rewrite ring_app by lia.
  apply take_app_length'. pose proof (ring_length b off n). lia.
Qed.

Lemma ring_drop b off n m : 0 <= n <= m -> drop (Z.to_nat n) (ring b off m) = ring b (off + n) (m - n).
Proof.
  intros H. replace m with (n + (m - n)) at 1 by lia. rewrite ring_app by lia.
  apply drop_app_length'. pose proof (ring_length b off n). lia.
Qed.

(** A stretch that does not wrap is a piece of the page. *)
Lemma ring_linear b off n :
  0 <= off -> 0 <= n -> off + n <= PAGE_SIZE -> Z.of_nat (length b) = PAGE_SIZE ->
  ring b off n = take (Z.to_nat n) (drop (Z.to_nat off) b).
Proof.
  intros Ho Hn Hl Hb. apply list_eq_same_length with (n := Z.to_nat n).
  - rewrite length_take, length_drop. lia.
  - pose proof (ring_length b off n). lia.
  - intros i x y Hi. unfold ring. rewrite list_lookup_fmap.
    replace (seqZ 0 n !! i) with (Some (Z.of_nat i)) by (symmetry; apply lookup_seqZ; lia).
    rewrite lookup_take_lt, lookup_drop by lia. simpl. rewrite Z.mod_small by lia.
    replace (Z.to_nat (off + Z.of_nat i)) with (Z.to_nat off + i)%nat by lia.
    intros [= <-] Hy. by rewrite (list_lookup_total_correct _ _ _ Hy).
Qed.

Lemma ring_write_new b start ch :
  0 <= start -> start + Z.of_nat (length ch) <= PAGE_SIZE -> Z.of_nat (length b) = PAGE_SIZE ->
  ring (list_inserts (Z.to_nat start) ch b) start (Z.of_nat (length ch)) = ch.
Proof.
  intros Hs Hl Hb. rewrite ring_linear; [|lia|lia|lia|by rewrite length_inserts].
  rewrite Nat2Z.id. apply list_eq. intros i. destruct (decide (i < length ch)%nat) as [Hi|Hi].
  - rewrite lookup_take_lt, lookup_drop, list_lookup_inserts by lia. f_equal. lia.
  - rewrite lookup_take_ge by lia. symmetry. apply lookup_ge_None. lia.
Qed.

Lemma ring_write_old b off n start ch :
  0 <= n -> start = (off + n) mod PAGE_SIZE -> n + Z.of_nat (length ch) <= PAGE_SIZE ->
  start + Z.of_nat (length ch) <= PAGE_SIZE ->
  ring (list_inserts (Z.to_nat start) ch b) off n = ring b off n.
Proof.
  intros Hn Hs Hl Hl2. unfold ring. apply list_fmap_ext. intros _ x Hx%list_elem_of_lookup_2.
  apply elem_of_seqZ in Hx.
  pose proof (Z.mod_pos_bound (off + x) PAGE_SIZE ltac:(done)) as Hb1.
  pose proof (Z.mod_pos_bound (off + n) PAGE_SIZE ltac:(done)) as Hb2.
  pose proof (Z.div_mod (off + x) PAGE_SIZE ltac:(done)) as Hd1.
  pose proof (Z.div_mod (off + n) PAGE_SIZE ltac:(done)) as Hd2.
  rewrite !list_lookup_total_alt. f_equal.
  destruct (Z.lt_ge_cases ((off + x) mod PAGE_SIZE) start) as [Hlt|Hge].
  - apply list_lookup_inserts_lt. lia.
  - apply list_lookup_inserts_ge.
    destruct (Z.lt_ge_cases ((off + x) mod PAGE_SIZE) (start + Z.of_nat (length ch))) as [Hin|]; [|lia].
    exfalso. set (q := (off + n) / PAGE_SIZE - (off + x) / PAGE_SIZE).
    assert (PAGE_SIZE * q = n - x + ((off + x) mod PAGE_SIZE - start)) as E by (unfold q; lia).
    assert (0 < PAGE_SIZE * q < PAGE_SIZE) by lia. change PAGE_SIZE with 4096 in *. nia.
Qed.

(** Appending bytes where the stretch ends. *)
Lemma ring_write b off n ch :
  0 <= n -> n + Z.of_nat (length ch) <= PAGE_SIZE -> Z.of_nat (length b) = PAGE_SIZE ->
  let start := (off + n) mod PAGE_SIZE in
  start + Z.of_nat (length ch) <= PAGE_SIZE ->
  ring (list_inserts (Z.to_nat start) ch b) off (n + Z.of_nat (length ch)) = ring b off n ++ ch.
Proof.
  intros Hn Hl Hb start Hs. pose proof (Z.mod_pos_bound (off + n) PAGE_SIZE ltac:(done)).
  rewrite ring_app by lia. f_equal; [by apply ring_write_old|].
  rewrite <- ring_mod. apply ring_write_new; [lia|lia|done].
Qed.

Section PipeProofs.
Context {S : Type} `{KM : KernelMem S}.
Notation state := (kernel S).
Implicit Types (k : state) (C : gmap Z Z) (L : Z -> Z -> Prop) (U : gset Z).

(** ** Running the accesses *)
Lemma kmem_ok {X} (m : M S X) k a x :
  m (k_mem k) = Ok (a, x) -> kmem m k = Ok (a, set_k_mem x k).
Proof. unfold kmem. by intros ->. Qed.
Lemma kmem_err {X} (m : M S X) k r : m (k_mem k) = Err r -> kmem m k = Err r.
Proof. unfold kmem. by intros ->. Qed.
Lemma get_proc_ok k p x : k_procs k !! p = Some x -> get_proc p k = Ok (x, k).
Proof. intros H. unfold get_proc. mred. by rewrite H. Qed.
Lemma upd_proc_ok k p x f :
  k_procs k !! p = Some x ->
  upd_proc p f k = Ok (tt, set_k_procs (<[p := f x]> (k_procs k)) k).
Proof. intros H. unfold upd_proc. by mrun (get_proc_ok _ _ _ H). Qed.
Lemma get_pipe_ok k a p : k_pipes k !! a = Some p -> get_pipe a k = Ok (p, k).
Proof. intros H. unfold get_pipe. mred. by rewrite H. Qed.
Lemma upd_pipe_ok k a p f :
  k_pipes k !! a = Some p ->
  upd_pipe a f k = Ok (tt, set_k_pipes (<[a := f p]> (k_pipes k)) k).
Proof. intros H. unfold upd_pipe. by mrun (get_pipe_ok _ _ _ H). Qed.
Lemma get_buf_ok k i b : k_bufs k !! i = Some b -> get_buf i k = Ok (b, k).
Proof. intros H. unfold get_buf. mred. by rewrite H. Qed.

(** ** Wait queues as a part of the state *)
Definition waitq_of k (q : waitq) : option (list (Z * Z)) :=
  match q with
  | ReadersOf a => readers_waitq <$> k_pipes k !! a
  | WritersOf a => writers_waitq <$> k_pipes k !! a
  | ChildWaitq => Some (child_waitq k)
  | TtyReadWaitq => Some (tty_read_waitq k)
  | TtyWriteWaitq => Some (tty_write_waitq k)
  end.
Definition with_waitq (q : waitq) (l : list (Z * Z)) k : state :=
  match q with
  | ReadersOf a => set_k_pipes (alter (set_readers_waitq l) a (k_pipes k)) k
  | WritersOf a => set_k_pipes (alter (set_writers_waitq l) a (k_pipes k)) k
  | ChildWaitq => set_child_waitq l k
  | TtyReadWaitq => set_tty_read_waitq l k
  | TtyWriteWaitq => set_tty_write_waitq l k
  end.

#[export] Instance waitq_eq_dec : EqDecision waitq.
Proof. solve_decision. Defined.

Lemma get_waitq_ok k q l : waitq_of k q = Some l -> get_waitq q k = Ok (l, k).
Proof.
  destruct q as [a|a| | |]; simpl; intros H; [| |by injection H as <-..];
    apply fmap_Some in H as (p & Hp & ->); by mrun (get_pipe_ok _ _ _ Hp).
Qed.

Lemma alter_insert (m : gmap Z pipe) a p f : m !! a = Some p -> <[a := f p]> m = alter f a m.
Proof.
  intros H. apply map_eq. intros j. destruct (decide (a = j)) as [<-|].
  - by rewrite lookup_insert_eq, lookup_alter_eq, H.
  - by rewrite lookup_insert_ne, lookup_alter_ne.
Qed.

Lemma put_waitq_ok k q l l' :
  waitq_of k q = Some l -> put_waitq q l' k = Ok (tt, with_waitq q l' k).
Proof.
  destruct q as [a|a| | |]; simpl; intros H; [| |done..];
    apply fmap_Some in H as (p & Hp & ->); rewrite (upd_pipe_ok _ _ _ _ Hp);
    by rewrite (alter_insert _ _ _ _ Hp).
Qed.

Lemma waitq_of_with k q q' l :
  is_Some (waitq_of k q) ->
  waitq_of (with_waitq q l k) q' = if decide (q' = q) then Some l else waitq_of k q'.
Proof.
  intros [l0 H]. destruct (decide (q' = q)) as [->|Hne].
  - destruct q as [a|a| | |]; simpl in *; [| |done..];
      apply fmap_Some in H as (p & Hp & ->); rewrite lookup_alter_eq, Hp; done.
  - destruct q as [a|a| | |], q' as [a'|a'| | |]; simpl in *; try done;
      try (rewrite lookup_alter_ne; [done|congruence]);
      (destruct (decide (a = a')) as [->|];
        [rewrite lookup_alter_eq; by destruct (k_pipes k !! a')|by rewrite lookup_alter_ne]).
Qed.

(** The part of a pipe the wait queues do not concern. *)
Definition core (p : pipe) : Z * Z * Z * Z * Z :=
  (pp_page p, pp_offset p, pp_length p, pp_readers p, pp_writers p).

Lemma core_with k q l a : core <$> k_pipes (with_waitq q l k) !! a = core <$> k_pipes k !! a.
Proof.
  destruct q as [b|b| | |]; simpl; [| |done..];
    (destruct (decide (b = a)) as [->|];
      [rewrite lookup_alter_eq; by destruct (k_pipes k !! a)|by rewrite lookup_alter_ne]).
Qed.

(** ** The invariant *)
Definition pipe_ok k (p : pipe) : Prop :=
  exists b, k_bufs k !! pp_page p = Some b /\ Z.of_nat (length b) = PAGE_SIZE /\
    0 <= pp_offset p < PAGE_SIZE /\ 0 <= pp_length p <= PAGE_SIZE /\
    is_u32 (pp_readers p) /\ is_u32 (pp_writers p).

(** The entries of the wait queues, each in one queue, and live objects. *)
Definition waitqs_ok k L (E : gmap Z waitq) : Prop :=
  (forall q l, waitq_of k q = Some l ->
     NoDup l.*1 /\ (forall e, e ∈ l.*1 <-> E !! e = Some q) /\
     forall e p, (e, p) ∈ l -> is_Some (k_procs k !! p)) /\
  (forall e q, E !! e = Some q -> L (waitq_cache (k_caches k)) e /\ is_Some (waitq_of k q)).

Definition caches_ok k C : Prop :=
  is_Some (C !! pipe_cache (k_caches k)) /\ is_Some (C !! waitq_cache (k_caches k)) /\
  is_Some (C !! context_cache (k_caches k)) /\
  pipe_cache (k_caches k) <> waitq_cache (k_caches k).

Record pipes_inv k C L U (E : gmap Z waitq) : Prop := {
  pi_mem : km_inv (k_mem k) C L U;
  pi_caches : caches_ok k C;
  pi_pipes : forall a p, k_pipes k !! a = Some p ->
    L (pipe_cache (k_caches k)) a /\ pp_page p ∈ U /\ pipe_ok k p;
  pi_pages : forall a a' p p', k_pipes k !! a = Some p -> k_pipes k !! a' = Some p' ->
    pp_page p = pp_page p' -> a = a';
  pi_waitqs : waitqs_ok k L E;
  pi_current : is_Some (k_procs k !! current_process k);
  pi_bufs : forall i, 0 <= i < PAGE_NUM ->
    exists b, k_bufs k !! i = Some b /\ Z.of_nat (length b) = PAGE_SIZE;
}.

(** A change of the queues and of the processes only. *)
Lemma pipes_inv_queues k k' C L U E L' E' :
  pipes_inv k C L U E -> km_inv (k_mem k') C L' U ->
  k_caches k' = k_caches k -> k_bufs k' = k_bufs k -> current_process k' = current_process k ->
  (forall a, core <$> k_pipes k' !! a = core <$> k_pipes k !! a) ->
  (forall a, is_Some (k_pipes k !! a) -> L' (pipe_cache (k_caches k)) a) ->
  (forall p, is_Some (k_procs k !! p) -> is_Some (k_procs k' !! p)) ->
  waitqs_ok k' L' E' -> pipes_inv k' C L' U E'.
Proof.
  intros HI HM Hc Hb Hcur Hcore HL Hp HW.
  assert (Hget : forall a p', k_pipes k' !! a = Some p' ->
    exists p, k_pipes k !! a = Some p /\ core p = core p').
  { intros a p' H. specialize (Hcore a). rewrite H in Hcore. symmetry in Hcore.
    apply fmap_Some in Hcore as (p & Hp' & Ep). eauto. }
  split; [done| | | |done| |].
  - unfold caches_ok. rewrite Hc. apply HI.
  - intros a p' H. destruct (Hget a p' H) as (p & Hk & Ec). injection Ec as E1 E2 E3 E4 E5.
    destruct (pi_pipes _ _ _ _ _ HI a p Hk) as (_ & HU & b & Hok).
    rewrite Hc. split_and!; [apply HL; eauto|congruence|]. exists b.
    rewrite Hb, <- E1, <- E2, <- E3, <- E4, <- E5. done.
  - intros a a' p p' H H' Epg. destruct (Hget a p H) as (x & Hk & Ec).
    destruct (Hget a' p' H') as (x' & Hk' & Ec'). injection Ec as E1 _ _ _ _.
    injection Ec' as E1' _ _ _ _. eapply (pi_pages _ _ _ _ _ HI); [done|done|congruence].
  - rewrite Hcur. apply Hp, HI.
  - rewrite Hb. apply HI.
Qed.

(** The state after the process [p] was taken off the queue [q]; [l] is left. *)
Definition woken k (q : waitq) (l : list (Z * Z)) (p : Z) (x : process) (m : S) : state :=
  set_k_mem m (with_waitq q l (set_k_procs (<[p := set_p_state STATE_READY x]> (k_procs k)) k)).

Lemma waitq_of_ext k k' q :
  k_pipes k' = k_pipes k -> child_waitq k' = child_waitq k -> tty_read_waitq k' = tty_read_waitq k ->
  tty_write_waitq k' = tty_write_waitq k -> waitq_of k' q = waitq_of k q.
Proof. intros H1 H2 H3 H4. destruct q; simpl; by rewrite ?H1, ?H2, ?H3, ?H4. Qed.

Lemma is_Some_insert_proc (m : gmap Z process) p x p' : is_Some (m !! p') -> is_Some (<[p := x]> m !! p').
Proof.
  intros H. destruct (decide (p = p')) as [->|]; [rewrite lookup_insert_eq; eauto|].
  by rewrite lookup_insert_ne.
Qed.

Lemma with_waitq_fields q l k :
  k_mem (with_waitq q l k) = k_mem k /\ k_caches (with_waitq q l k) = k_caches k /\
  k_bufs (with_waitq q l k) = k_bufs k /\ k_procs (with_waitq q l k) = k_procs k /\
  k_files (with_waitq q l k) = k_files k /\ all_processes (with_waitq q l k) = all_processes k /\
  current_process (with_waitq q l k) = current_process k.
Proof. by destruct q. Qed.

Lemma process_wake_spec k C L U E q e p l :
  pipes_inv k C L U E -> waitq_of k q = Some ((e, p) :: l) ->
  exists x m, k_procs k !! p = Some x /\ process_wake q k = Ok (1, woken k q l p x m) /\
    pipes_inv (woken k q l p x m) C (fun c a => L c a /\ a <> e) U (delete e E).
Proof.
  intros HI Hq. destruct (pi_waitqs _ _ _ _ _ HI) as [Hqs HE].
  destruct (Hqs _ _ Hq) as (Hnd & Hin & Hpr). destruct (Hpr e p ltac:(set_solver)) as [x Hx].
  assert (HEe : E !! e = Some q) by (apply Hin; simpl; set_solver).
  destruct (HE e q HEe) as [HLe _].
  destruct (km_obj_free_spec _ _ _ _ _ _ (pi_mem _ _ _ _ _ HI) HLe) as (m & Em & HM).
  exists x, m. split; [done|].
  set (k1 := set_k_procs (<[p := set_p_state STATE_READY x]> (k_procs k)) k).
  assert (Hq1 : waitq_of k1 q = Some ((e, p) :: l)) by (rewrite <- Hq; by apply waitq_of_ext).
  destruct (with_waitq_fields q l k1) as (F1 & F2 & F3 & F4 & F5 & F6 & F7).
  split.
  - unfold process_wake. mrun (get_waitq_ok _ _ _ Hq). mrun (upd_proc_ok _ _ _ (set_p_state STATE_READY) Hx).
    fold k1. mrun (put_waitq_ok _ _ _ l Hq1). unfold cache_of, gets, bind. rewrite F2.
    cbn [k_caches set_k_procs k1]. rewrite (kmem_ok _ (with_waitq q l k1) tt m); [done|]. by rewrite F1.
  - eapply (pipes_inv_queues k); [done|done|by apply F2|by apply F3|by apply F7| | | |].
    + intros a. cbn [k_pipes woken set_k_mem]. apply (core_with k1).
    + intros a [pa Ha]. destruct (pi_pipes _ _ _ _ _ HI a pa Ha) as (HLa & _). split; [done|].
      intros ->. destruct (pi_caches _ _ _ _ _ HI) as (_ & _ & _ & Hne). apply Hne.
      by eapply km_unique; [apply HI| |].
    + intros p' Hp'. change (k_procs (woken k q l p x m)) with (k_procs (with_waitq q l k1)).
      rewrite F4. by apply is_Some_insert_proc.
    + assert (Hwq : forall q', waitq_of (woken k q l p x m) q' =
        if decide (q' = q) then Some l else waitq_of k q').
      { intros q'. transitivity (waitq_of (with_waitq q l k1) q'); [by apply waitq_of_ext|].
        rewrite waitq_of_with by eauto. destruct (decide (q' = q)); [done|]. by apply waitq_of_ext. }
      assert (Hprocs : k_procs (woken k q l p x m) = <[p := set_p_state STATE_READY x]> (k_procs k))
        by exact F4.
      simpl in Hnd. apply NoDup_cons in Hnd as [Hne Hnd].
      split; [intros q' l' Hl'; rewrite Hwq in Hl'; rewrite Hprocs|].
      * destruct (decide (q' = q)) as [->|Hqq].
        -- injection Hl' as <-. split_and!; [done| |].
           ++ intros e'. destruct (decide (e = e')) as [<-|]; [by rewrite lookup_delete_eq|].
              rewrite lookup_delete_ne, <- Hin by done. simpl. set_solver.
           ++ intros e' p' Hp'. eapply is_Some_insert_proc, (Hpr e'). set_solver.
        -- destruct (Hqs _ _ Hl') as (Hnd' & Hin' & Hpr'). split_and!; [done| |].
           ++ intros e'. rewrite Hin'. destruct (decide (e = e')) as [<-|].
              ** rewrite lookup_delete_eq, HEe. naive_solver.
              ** by rewrite lookup_delete_ne.
           ++ intros e' p' Hp'. by eapply is_Some_insert_proc, (Hpr' e').
      * intros e' q' [Hne' HE']%lookup_delete_Some. destruct (HE e' q' HE') as [? ?].
        rewrite Hwq. change (k_caches (woken k q l p x m)) with (k_caches (with_waitq q l k1)).
        rewrite F2. split; [by split; [|congruence]|]. by destruct (decide (q' = q)).
Qed.

Lemma process_wake_empty k q : waitq_of k q = Some [] -> process_wake q k = Ok (0, k).
Proof. intros H. unfold process_wake. by mrun (get_waitq_ok _ _ _ H). Qed.

(** Processes that changed in their scheduling state only. *)
Definition sched_only (m m' : gmap Z process) : Prop :=
  forall p, match m !! p with
            | Some x => exists st sp, m' !! p = Some (set_p_suspend sp (set_p_state st x))
            | None => m' !! p = None
            end.

Lemma sched_only_refl m : sched_only m m.
Proof.
  intros p. destruct (m !! p) as [x|] eqn:E; [|done].
  exists (p_state x), (p_suspend x). by destruct x.
Qed.

Lemma sched_only_trans m1 m2 m3 : sched_only m1 m2 -> sched_only m2 m3 -> sched_only m1 m3.
Proof.
  intros H1 H2 p. specialize (H1 p). specialize (H2 p). destruct (m1 !! p) as [x|].
  - destruct H1 as (st & sp & E). rewrite E in H2. destruct H2 as (st' & sp' & E').
    exists st', sp'. by rewrite E'.
  - by rewrite H1 in H2.
Qed.

Lemma sched_only_insert m p x st sp :
  m !! p = Some x -> sched_only m (<[p := set_p_suspend sp (set_p_state st x)]> m).
Proof.
  intros Hx p'. destruct (decide (p = p')) as [<-|].
  - rewrite Hx, lookup_insert_eq. eauto.
  - rewrite lookup_insert_ne by done. apply sched_only_refl.
Qed.

Lemma sched_only_lookup m m' p x :
  sched_only m m' -> m !! p = Some x -> exists st sp, m' !! p = Some (set_p_suspend sp (set_p_state st x)).
Proof. intros H Hx. specialize (H p). by rewrite Hx in H. Qed.

(** What sleeping and waking keep: everything but the queues, the scheduling
    state of the processes and the objects of the two caches behind them. *)
Record evolves k L k' L' : Prop := {
  ev_caches : k_caches k' = k_caches k;
  ev_current : current_process k' = current_process k;
  ev_all : all_processes k' = all_processes k;
  ev_files : k_files k' = k_files k;
  ev_procs : sched_only (k_procs k) (k_procs k');
  ev_live : forall c a, c <> waitq_cache (k_caches k) -> c <> context_cache (k_caches k) ->
    L' c a <-> L c a;
}.

Lemma evolves_refl k L : evolves k L k L.
Proof. split; try done. apply sched_only_refl. Qed.

Lemma evolves_trans k1 L1 k2 L2 k3 L3 :
  evolves k1 L1 k2 L2 -> evolves k2 L2 k3 L3 -> evolves k1 L1 k3 L3.
Proof.
  intros [A1 A2 A3 A4 A5 A6] [B1 B2 B3 B4 B5 B6]. split; try congruence.
  - by eapply sched_only_trans.
  - intros c a H1 H2. rewrite B6, A6 by congruence. done.
Qed.

(** Waking, seen from a pipe: the data stay, the queue loses its head. *)
Lemma process_wake_pipe k C L U E q l :
  pipes_inv k C L U E -> waitq_of k q = Some l ->
  exists r k' L' E', process_wake q k = Ok (r, k') /\ pipes_inv k' C L' U E' /\
    evolves k L k' L' /\ k_bufs k' = k_bufs k /\
    k' = with_waitq q (tail l) (set_k_mem (k_mem k') (set_k_procs (k_procs k') k)) /\
    (forall e p, head l = Some (e, p) ->
       exists x, k_procs k' !! p = Some x /\ p_state x = STATE_READY) /\
    (forall p x, k_procs k !! p = Some x -> p_state x = STATE_READY ->
       exists x', k_procs k' !! p = Some x' /\ p_state x' = STATE_READY).
Proof.
  intros HI Hq. destruct l as [|[e p] l].
  - exists 0, k, L, E. split; [by apply process_wake_empty|]. split; [done|].
    split; [apply evolves_refl|]. split; [done|]. split; [|split; [done|eauto]].
    destruct k. destruct q as [a|a| | |]; simpl in *; [| |by injection Hq as ->..];
      unfold set_k_pipes, set_k_procs, set_k_mem; simpl; f_equal;
      apply map_eq; intros i; (destruct (decide (a = i)) as [->|]; [|by rewrite lookup_alter_ne]);
      rewrite lookup_alter_eq; apply fmap_Some in Hq as ([] & Hi & Hq); rewrite Hi;
      simpl in *; by subst.
  - destruct (process_wake_spec k C L U E q e p l HI Hq) as (x & m & Hx & Er & HI').
    assert (Hst : k_procs (woken k q l p x m) = <[p := set_p_state STATE_READY x]> (k_procs k))
      by (by destruct q).
    exists 1, (woken k q l p x m), (fun c a => L c a /\ a <> e), (delete e E).
    split; [done|]. split; [done|]. split; [split; try (by destruct q)|].
    + rewrite Hst. replace (set_p_state STATE_READY x) with
        (set_p_suspend (p_suspend x) (set_p_state STATE_READY x)) by (by destruct x).
      by apply sched_only_insert.
    + intros c a Hc _. split; [by intros [? _]|]. intros Ha. split; [done|]. intros ->.
      apply Hc. eapply km_unique; [apply HI|done|].
      destruct (pi_waitqs _ _ _ _ _ HI) as [Hqs HE]. destruct (Hqs _ _ Hq) as (_ & Hin & _).
      eapply HE. apply Hin. simpl. set_solver.
    + split; [by destruct q|]. split; [by destruct q|]. rewrite Hst. split.
      * intros ? ? [= <- <-]. rewrite lookup_insert_eq. by eexists.
      * intros p' x' Hx' Hr. destruct (decide (p = p')) as [<-|].
        -- rewrite lookup_insert_eq. by eexists.
        -- rewrite lookup_insert_ne by done. eauto.
Qed.

(** ** The data of one pipe *)
Definition put_pipe_state (a : Z) (p : pipe) k : state := set_k_pipes (<[a := p]> (k_pipes k)) k.

Lemma pipes_inv_data k C L U E a p p' :
  pipes_inv k C L U E -> k_pipes k !! a = Some p ->
  pp_page p' = pp_page p -> readers_waitq p' = readers_waitq p ->
  writers_waitq p' = writers_waitq p -> pipe_ok k p' ->
  pipes_inv (put_pipe_state a p' k) C L U E.
Proof.
  intros HI Ha Hpg Hr Hw Hok. split; try apply HI.
  - intros a' x. simpl. destruct (decide (a = a')) as [<-|].
    + rewrite lookup_insert_eq. intros [= <-]. destruct (pi_pipes _ _ _ _ _ HI _ _ Ha) as (? & ? & _).
      rewrite Hpg. done.
    + rewrite lookup_insert_ne by done. apply HI.
  - assert (Hget : forall a1 x1, k_pipes (put_pipe_state a p' k) !! a1 = Some x1 ->
      exists y, k_pipes k !! a1 = Some y /\ pp_page y = pp_page x1).
    { simpl. intros a1 x1. destruct (decide (a = a1)) as [<-|].
      - rewrite lookup_insert_eq. intros [= <-]. eauto.
      - rewrite lookup_insert_ne by done. eauto. }
    intros a1 a2 x1 x2 (y1 & H1 & E1)%Hget (y2 & H2 & E2)%Hget Epg.
    eapply (pi_pages _ _ _ _ _ HI); [done|done|congruence].
  - assert (Hq : forall q, waitq_of (put_pipe_state a p' k) q = waitq_of k q).
    { intros [a'|a'| | |]; simpl; [| |done..]; (destruct (decide (a = a')) as [<-|];
        [rewrite lookup_insert_eq, Ha; simpl; congruence|by rewrite lookup_insert_ne]). }
    destruct (pi_waitqs _ _ _ _ _ HI) as [H1 H2]. split.
    + intros q l. rewrite Hq. apply H1.
    + intros e q. rewrite Hq. apply H2.
Qed.

Lemma evolves_data k L a p' : evolves k L (put_pipe_state a p' k) L.
Proof. split; try done. apply sched_only_refl. Qed.

(** The longest piece of data in front of the read position. *)
Lemma read_remaining p :
  0 <= pp_offset p < PAGE_SIZE -> 0 < pp_length p <= PAGE_SIZE ->
  let start := u32 (pp_offset p + pp_length p) mod PAGE_SIZE in
  (if pp_offset p <? start then u32 (start - pp_offset p) else u32 (PAGE_SIZE - pp_offset p)) =
  Z.min (pp_length p) (PAGE_SIZE - pp_offset p).
Proof.
  intros Ho Hl. unfold u32. change PAGE_SIZE with 4096 in *. cbv zeta.
  rewrite (Z.mod_small (pp_offset p + pp_length p)) by lia.
  destruct (Z.lt_ge_cases (pp_offset p + pp_length p) 4096).
  - rewrite (Z.mod_small (_ + _) 4096) by lia.
    destruct (Z.ltb_spec (pp_offset p) (pp_offset p + pp_length p)); [|lia].
    rewrite Z.mod_small; lia.
  - replace (pp_offset p + pp_length p) with (pp_offset p + pp_length p - 4096 + 1 * 4096) by lia.
    rewrite Z.mod_add, (Z.mod_small (_ - _) 4096) by lia.
    destruct (Z.ltb_spec (pp_offset p) (pp_offset p + pp_length p - 4096)); [lia|].
    rewrite Z.mod_small; lia.
Qed.

(** The state of the pipe after [n] bytes were read. *)
Definition read_pipe (p : pipe) (n : Z) : pipe :=
  set_pp_length (pp_length p - n) (set_pp_offset ((pp_offset p + n) mod PAGE_SIZE) p).

Lemma read_pipe_ok k p n :
  pipe_ok k p -> 0 <= n <= pp_length p -> pipe_ok k (read_pipe p n).
Proof.
  intros (b & Hb & Hlen & Ho & Hl & Hr & Hw) Hn. exists b. split_and!; try done; simpl; try lia.
  - apply Z.mod_pos_bound. done.
  - by apply Z.mod_pos_bound.
Qed.

(** One turn of the loop of [pipe_read], on a pipe that holds data. *)
Lemma read_turn fuel k C L U E a p b size got :
  pipes_inv k C L U E -> k_pipes k !! a = Some p -> k_bufs k !! pp_page p = Some b ->
  0 < pp_length p -> is_u32 size -> Z.of_nat (length got) <= size ->
  let n := Z.min (size - Z.of_nat (length got)) (Z.min (pp_length p) (PAGE_SIZE - pp_offset p)) in
  let q := ring b (pp_offset p) (pp_length p) in
  pp_length p - n < PAGE_SIZE ->
  exists k' L' E', pipes_inv k' C L' U E' /\ evolves k L k' L' /\ k_bufs k' = k_bufs k /\
    k' = with_waitq (WritersOf a) (tail (writers_waitq p))
           (set_k_mem (k_mem k') (set_k_procs (k_procs k') (put_pipe_state a (read_pipe p n) k))) /\
    (forall e pr, head (writers_waitq p) = Some (e, pr) ->
       exists x, k_procs k' !! pr = Some x /\ p_state x = STATE_READY) /\
    (forall pr x, k_procs k !! pr = Some x -> p_state x = STATE_READY ->
       exists x', k_procs k' !! pr = Some x' /\ p_state x' = STATE_READY) /\
    let got' := got ++ take (Z.to_nat n) q in
    pipe_read_loop (Datatypes.S fuel) a size got k =
      (if (pp_length p - n =? 0) || (size =? Z.of_nat (length got'))
       then Ok ((got', Some (Z.of_nat (length got'))), k')
       else pipe_read_loop fuel a size got' k').
Proof.
  intros HI Ha Hb Hpos Hsz Hgot n q Hfull.
  destruct (pi_pipes _ _ _ _ _ HI _ _ Ha) as (_ & _ & Hok).
  pose proof Hok as (b' & Hb' & Hlen & Ho & Hl & Hru & Hwu). rewrite Hb in Hb'. injection Hb' as <-.
  assert (Hn : 0 <= n <= pp_length p /\ pp_offset p + n <= PAGE_SIZE) by (unfold n; lia).
  set (k1 := put_pipe_state a (read_pipe p n) k).
  assert (HI1 : pipes_inv k1 C L U E).
  { eapply pipes_inv_data; try done. apply read_pipe_ok; [done|lia]. }
  assert (Hq1 : waitq_of k1 (WritersOf a) = Some (writers_waitq p)).
  { simpl. by rewrite lookup_insert_eq. }
  destruct (process_wake_pipe k1 C L U E (WritersOf a) _ HI1 Hq1)
    as (r & k' & L' & E' & Ew & HI' & Hev & Hbufs & Hk' & Hhd & Hkeep).
  exists k', L', E'. split; [done|].
  split; [eapply evolves_trans; [apply evolves_data|done]|]. split; [done|]. split; [done|].
  split; [done|]. split; [done|]. intros got'.
  assert (Hp' : exists p', k_pipes k' !! a = Some p' /\ pp_length p' = pp_length p - n).
  { rewrite Hk'. simpl. rewrite lookup_alter_eq, lookup_insert_eq. by eexists. }
  destruct Hp' as (p' & Hp' & Hlen').
  cbn [pipe_read_loop]. mrun (get_pipe_ok _ _ _ Ha).
  replace (truthy (pp_length p)) with true by (symmetry; apply truthy_true; lia). cbn [negb].
  rewrite read_remaining by lia.
  rewrite (u32_small (size - Z.of_nat (length got))) by (unfold is_u32 in *; lia).
  replace (if size - Z.of_nat (length got) <? Z.min (pp_length p) (PAGE_SIZE - pp_offset p)
           then size - Z.of_nat (length got) else Z.min (pp_length p) (PAGE_SIZE - pp_offset p))
    with n by (unfold n; zcase; lia).
  assert (Ec : copy_from (pp_page p) (pp_offset p) n k = Ok (take (Z.to_nat n) q, k)).
  { unfold copy_from. mrun (get_buf_ok _ _ _ Hb).
    rewrite (proj2 (Z.leb_le 0 _)), (proj2 (Z.leb_le _ PAGE_SIZE)) by lia. cbn [andb].
    unfold q. rewrite ring_take, ring_linear by (done || lia). done. }
  mrun Ec. fold got'.
  mrun (upd_pipe_ok _ _ _ (fun p0 => set_pp_offset (u32 (pp_offset p0 + n) mod PAGE_SIZE) p0) Ha).
  erewrite (bind_ok (upd_pipe a _)); [|apply upd_pipe_ok; apply lookup_insert_eq].
  replace (set_k_pipes _ _) with k1.
  2: { unfold k1, put_pipe_state, set_k_pipes. simpl. rewrite insert_insert_eq. do 2 f_equal.
       unfold read_pipe, set_pp_length, set_pp_offset. simpl.
       rewrite !u32_small by (unfold is_u32; change PAGE_SIZE with 4096 in *; lia). done. }
  assert (Hk1 : k_pipes k1 !! a = Some (read_pipe p n)) by apply lookup_insert_eq.
  mrun (get_pipe_ok _ _ _ Hk1). cbn [pp_offset pp_length read_pipe set_pp_length set_pp_offset].
  rewrite (proj2 (Z.leb_gt PAGE_SIZE ((pp_offset p + n) mod PAGE_SIZE)))
    by (apply Z.mod_pos_bound; done).
  rewrite (proj2 (Z.leb_gt PAGE_SIZE (pp_length p - n))) by lia.
  rewrite !(bind_ok (SYSTEM_BUG_ON false) _ k1 tt k1) by done. mrun Ew.
  mrun (get_pipe_ok _ _ _ Hp'). rewrite Hlen'. unfold truthy. rewrite negb_involutive.
  assert (Hgl : Z.of_nat (length got') = Z.of_nat (length got) + n).
  { unfold got', q. rewrite length_app, ring_take by lia.
    pose proof (ring_length b (pp_offset p) n ltac:(lia)). lia. }
  rewrite u32_small by (unfold is_u32 in *; unfold n in *; lia).
  by destruct (_ || _).
Qed.

(** A call that moved data through the pipe [a] only. *)
Record pipe_moved k k' (a : Z) (p p' : pipe) : Prop := {
  pm_here : k_pipes k' !! a = Some p';
  pm_page : pp_page p' = pp_page p;
  pm_readers : pp_readers p' = pp_readers p;
  pm_writers : pp_writers p' = pp_writers p;
  pm_others : forall a', a' <> a -> k_pipes k' !! a' = k_pipes k !! a';
}.
Definition all_ready k (l : list (Z * Z)) : Prop :=
  forall e pr, (e, pr) ∈ l -> exists x, k_procs k !! pr = Some x /\ p_state x = STATE_READY.

(** The pipe after a turn. *)
Lemma turn_pipe k k' a p p1 l :
  k_pipes k !! a = Some p ->
  k' = with_waitq (WritersOf a) l (set_k_mem (k_mem k') (set_k_procs (k_procs k') (put_pipe_state a p1 k))) ->
  k_pipes k' !! a = Some (set_writers_waitq l p1) /\
  forall a', a' <> a -> k_pipes k' !! a' = k_pipes k !! a'.
Proof.
  intros Ha ->. simpl. rewrite lookup_alter_eq, lookup_insert_eq. split; [done|].
  intros a' Hne. by rewrite lookup_alter_ne, lookup_insert_ne.
Qed.

Lemma pipe_read_data k C L U E a p b size :
  pipes_inv k C L U E -> k_pipes k !! a = Some p -> k_bufs k !! pp_page p = Some b ->
  0 < pp_length p -> is_u32 size -> (0 < size \/ pp_length p < PAGE_SIZE) ->
  let m := Z.min size (pp_length p) in
  let q := ring b (pp_offset p) (pp_length p) in
  exists k' L' E' p' j, pipe_read a size [] k = Ok ((take (Z.to_nat m) q, Some m), k') /\
    pipes_inv k' C L' U E' /\ evolves k L k' L' /\ k_bufs k' = k_bufs k /\
    pipe_moved k k' a p p' /\
    ring b (pp_offset p') (pp_length p') = drop (Z.to_nat m) q /\
    readers_waitq p' = readers_waitq p /\
    writers_waitq p' = drop j (writers_waitq p) /\ (1 <= j <= 2)%nat /\
    all_ready k' (take j (writers_waitq p)).
Proof.
  intros HI Ha Hb Hpos Hsz Hne m q. unfold pipe_read, pipe_fuel.
  destruct (pi_pipes _ _ _ _ _ HI _ _ Ha) as (_ & _ & (b0 & _ & _ & Ho & Hl & _)).
  destruct (read_turn 2 k C L U E a p b size [] HI Ha Hb Hpos Hsz) as
    (k1 & L1 & E1 & HI1 & Hev1 & Hbufs1 & Hk1 & Hhd1 & _ & Er); [simpl; destruct Hsz; lia|simpl; destruct Hsz, Hne; lia|].
  fold q in Er. change (Z.of_nat (length [])) with 0 in *. rewrite Z.sub_0_r in *.
  rewrite app_nil_l in Er. cbv zeta in Er.
  set (n := Z.min size (Z.min (pp_length p) (PAGE_SIZE - pp_offset p))) in *.
  assert (Hn : 0 <= n <= pp_length p /\ n <= size) by (unfold n; destruct Hsz; lia).
  assert (Hgl : Z.of_nat (length (take (Z.to_nat n) q)) = n).
  { unfold q. rewrite ring_take by lia. apply ring_length. lia. }
  rewrite Hgl in Er. destruct (turn_pipe _ _ _ _ _ _ Ha Hk1) as [Hp1 Hoth1].
  assert (Hready1 : all_ready k1 (take 1 (writers_waitq p))).
  { intros e pr. destruct (writers_waitq p) as [|[e0 p0] l]; simpl; [set_solver|].
    intros Hin. assert ((e, pr) = (e0, p0)) as [= -> ->] by set_solver. by eapply Hhd1. }
  assert (Hring : ring b ((pp_offset p + n) mod PAGE_SIZE) (pp_length p - n) = drop (Z.to_nat n) q).
  { unfold q. rewrite ring_drop by lia. apply ring_mod. }
  destruct ((pp_length p - n =? 0) || (size =? n)) eqn:Hstop.
  - assert (n = m) as Hnm by (apply orb_true_iff in Hstop as [?|?]; zbool; unfold m; lia).
    rewrite <- Hnm.
    exists k1, L1, E1, (set_writers_waitq (tail (writers_waitq p)) (read_pipe p n)), 1%nat. split; [exact Er|]. split_and!; try done. lia.
  - zbool. assert (Hoff : pp_offset p + n = PAGE_SIZE) by (unfold n in *; lia).
    rewrite Hoff, Z.mod_same in Hring by done.
    set (p1 := set_writers_waitq _ _) in Hp1.
    assert (Hb1 : k_bufs k1 !! pp_page p1 = Some b) by (rewrite Hbufs1; done).
    assert (Hl1 : pp_length p1 = pp_length p - n) by done.
    assert (Ho1 : pp_offset p1 = 0) by (simpl; rewrite Hoff; by apply Z.mod_same).
    destruct (read_turn 1 k1 C L1 U E1 a p1 b size (take (Z.to_nat n) q) HI1 Hp1 Hb1) as
      (k2 & L2 & E2 & HI2 & Hev2 & Hbufs2 & Hk2 & Hhd2 & Hkeep2 & Er2); [lia|done|lia|lia|].
    rewrite Hgl, Hl1, Ho1 in Er2. rewrite Hgl, Hl1, Ho1 in Hk2. cbv zeta in Er2.
    set (n2 := Z.min (size - n) (Z.min (pp_length p - n) (PAGE_SIZE - 0))) in *.
    rewrite Hring in Er2. assert (Hm : m = n + n2) by (unfold m, n2; lia).
    assert (Hn2 : 0 <= n2 <= pp_length p - n) by (unfold n2; lia).
    assert (Hgot : take (Z.to_nat n) q ++ take (Z.to_nat n2) (drop (Z.to_nat n) q) = take (Z.to_nat m) q).
    { rewrite Hm, Z2Nat.inj_add by lia. apply take_take_drop. }
    rewrite Hgot in Er2. assert (Hml : Z.of_nat (length (take (Z.to_nat m) q)) = m).
    { unfold q. rewrite ring_take by lia. apply ring_length. lia. }
    rewrite Hml in Er2. replace ((pp_length p - n - n2 =? 0) || (size =? m)) with true in Er2.
    2: { symmetry. apply orb_true_iff. destruct (Z.eqb_spec (pp_length p - n - n2) 0); [by left|].
         right. apply Z.eqb_eq. unfold n2 in *. lia. }
    destruct (turn_pipe _ _ _ _ _ _ Hp1 Hk2) as [Hp2 Hoth2].
    exists k2, L2, E2, (set_writers_waitq (tail (writers_waitq p1)) (read_pipe p1 n2)), 2%nat. split; [rewrite Er; exact Er2|]. split_and!; try done.
    + by eapply evolves_trans.
    + congruence.
    + split; [exact Hp2|done|done|done|]. intros a' Hne'. by rewrite Hoth2, Hoth1.
    + simpl. rewrite Hoff, Z.mod_same, Z.add_0_l by done. unfold q. rewrite ring_drop by lia.
      rewrite ring_mod. replace (pp_length p - n - n2) with (pp_length p - m) by lia.
      rewrite <- (ring_mod b (pp_offset p + m)).
      replace (pp_offset p + m) with (n2 + 1 * PAGE_SIZE) by lia. rewrite Z.mod_add by done.
      by rewrite ring_mod.
    + simpl. destruct (writers_waitq p) as [|? [|? ?]]; done.
    + lia.
    + intros e pr Hin. destruct (writers_waitq p) as [|[e0 p0] l] eqn:Hw; [simpl in Hin; set_solver|].
      destruct (decide ((e, pr) = (e0, p0))) as [[= -> ->]|Hne0].
      * destruct (Hready1 e0 p0) as (x & Hx & Hst); [simpl; set_solver|]. by eapply Hkeep2.
      * apply (Hhd2 e). simpl. destruct l as [|[e1 pr1] l]; simpl in *; [set_solver|].
        assert ((e, pr) = (e1, pr1)) as -> by set_solver. done.
Qed.

(** ** Sleeping *)
Definition slept k (q : waitq) (l : list (Z * Z)) (e sp : Z) (x : process) (m : S) : state :=
  let cur := current_process k in
  set_k_procs (<[cur := set_p_suspend sp (set_p_state STATE_BLOCKED x)]> (k_procs k))
    (with_waitq q ((e, cur) :: l) (set_k_mem m k)).

Lemma process_sleep_run k C L U E q l :
  pipes_inv k C L U E -> waitq_of k q = Some l ->
  let wc := waitq_cache (k_caches k) in let cc := context_cache (k_caches k) in
  process_sleep q k = Err Halt \/
  exists e sp x m, process_sleep q k = Ok (tt, slept k q l e sp x m) /\
    k_procs k !! current_process k = Some x /\ (forall c, ~ L c e) /\ (forall c, ~ L c sp) /\
    km_inv m C (fun c a => (L c a \/ (c = wc /\ a = e)) \/ (c = cc /\ a = sp)) U.
Proof.
  intros HI Hq wc cc. destruct (pi_caches _ _ _ _ _ HI) as (_ & [o1 H1] & [o2 H2] & _).
  destruct (pi_current _ _ _ _ _ HI) as [x Hx].
  unfold process_sleep. erewrite (bind_ok (gets _)) by reflexivity.
  unfold cache_of. erewrite (bind_ok (gets _)) by reflexivity. fold wc.
  destruct (km_obj_alloc_spec _ _ _ _ _ _ (pi_mem _ _ _ _ _ HI) H1) as [Ea|(e & m1 & Ea & Hfe & _ & HM1)].
  { left. apply bind_err. by apply kmem_err. }
  mrun (kmem_ok _ _ _ _ Ea). erewrite (bind_ok (gets _)) by reflexivity.
  cbn [k_caches set_k_mem]. fold cc.
  destruct (km_obj_alloc_spec _ _ _ _ _ _ HM1 H2) as [Eb|(sp & m2 & Eb & Hfs & _ & HM2)].
  { left. apply bind_err. by apply kmem_err. }
  right. exists e, sp, x, m2. split; [|split_and!; [done|done| |done]].
  - mrun (kmem_ok _ (set_k_mem m1 k) _ _ Eb).
    erewrite (bind_ok (upd_proc _ _)); [|by apply upd_proc_ok].
    set (k2 := set_k_procs _ _).
    assert (Hq2 : waitq_of k2 q = Some l) by (rewrite <- Hq; by apply waitq_of_ext).
    mrun (get_waitq_ok _ _ _ Hq2). mrun (put_waitq_ok _ _ _ ((e, current_process k) :: l) Hq2).
    erewrite upd_proc_ok.
    2: { destruct (with_waitq_fields q ((e, current_process k) :: l) k2) as (_ & _ & _ & -> & _).
         apply lookup_insert_eq. }
    do 2 f_equal. unfold slept. destruct q; unfold set_k_procs; simpl; by rewrite insert_insert_eq.
  - intros c Hc. apply (Hfs c). by left.
Qed.

Lemma process_sleep_pipe k C L U E q l :
  pipes_inv k C L U E -> waitq_of k q = Some l ->
  process_sleep q k = Err Halt \/
  exists k' L' E' e, process_sleep q k = Ok (tt, k') /\ pipes_inv k' C L' U E' /\
    evolves k L k' L' /\ k_bufs k' = k_bufs k /\
    k_pipes k' = k_pipes (with_waitq q ((e, current_process k) :: l) k) /\
    (exists x, k_procs k' !! current_process k = Some x /\ p_state x = STATE_BLOCKED) /\
    (forall p, p <> current_process k -> k_procs k' !! p = k_procs k !! p).
Proof.
  intros HI Hq. destruct (process_sleep_run _ _ _ _ _ _ _ HI Hq)
    as [E1|(e & sp & x & m & E1 & Hx & Hfe & Hfs & HM)]; [by left|right].
  set (wc := waitq_cache (k_caches k)) in *. set (cc := context_cache (k_caches k)) in *.
  set (L' := fun c a => (L c a \/ (c = wc /\ a = e)) \/ (c = cc /\ a = sp)) in *.
  exists (slept k q l e sp x m), L', (<[e := q]> E), e.
  set (cur := current_process k) in *. set (l' := (e, cur) :: l).
  destruct (with_waitq_fields q l' (set_k_mem m k)) as (F1 & F2 & F3 & F4 & F5 & F6 & F7).
  assert (Hprocs : k_procs (slept k q l e sp x m) =
    <[cur := set_p_suspend sp (set_p_state STATE_BLOCKED x)]> (k_procs k)) by done.
  assert (Hsome : forall p, is_Some (k_procs k !! p) -> is_Some (k_procs (slept k q l e sp x m) !! p)).
  { intros p Hp. rewrite Hprocs. by apply is_Some_insert_proc. }
  split; [done|]. split; [|split; [|split_and!]].
  - eapply (pipes_inv_queues k); [done| |by apply F2|by apply F3|by apply F7| | |done|].
    + change (k_mem (slept k q l e sp x m)) with (k_mem (with_waitq q l' (set_k_mem m k))).
      rewrite F1. exact HM.
    + intros a. apply (core_with (set_k_mem m k)).
    + intros a [pa Ha]. left. left. by apply (pi_pipes _ _ _ _ _ HI a pa).
    + assert (Hwq : forall q', waitq_of (slept k q l e sp x m) q' =
        if decide (q' = q) then Some l' else waitq_of k q').
      { intros q'. transitivity (waitq_of (with_waitq q l' (set_k_mem m k)) q'); [by apply waitq_of_ext|].
        rewrite waitq_of_with by (destruct q; eauto).
        destruct (decide (q' = q)); [done|]. by apply waitq_of_ext. }
      destruct (pi_waitqs _ _ _ _ _ HI) as [Hqs HE].
      assert (HeE : E !! e = None).
      { destruct (E !! e) as [q0|] eqn:He; [|done]. destruct (HE e q0 He) as [HLe _]. by destruct (Hfe wc). }
      destruct (Hqs _ _ Hq) as (Hnd & Hin & Hpr).
      split; [intros q' l0 Hl0; rewrite Hwq in Hl0|].
      * destruct (decide (q' = q)) as [->|Hqq].
        -- injection Hl0 as <-. split_and!.
           ++ simpl. apply NoDup_cons. split; [rewrite Hin; congruence|done].
           ++ intros e'. simpl. destruct (decide (e = e')) as [<-|].
              ** rewrite lookup_insert_eq. set_solver.
              ** rewrite lookup_insert_ne, <- Hin by done. set_solver.
           ++ intros e' p' [[= -> ->]|Hp']%elem_of_cons; [apply Hsome; eauto|].
              by eapply Hsome, (Hpr e').
        -- destruct (Hqs _ _ Hl0) as (Hnd' & Hin' & Hpr'). split_and!; [done| |].
           ++ intros e'. rewrite Hin'. destruct (decide (e = e')) as [<-|].
              ** rewrite lookup_insert_eq, HeE. split; [done|]. congruence.
              ** by rewrite lookup_insert_ne.
           ++ intros e' p' Hp'. by eapply Hsome, (Hpr' e').
      * intros e' q'. rewrite Hwq.
        change (k_caches (slept k q l e sp x m)) with (k_caches (with_waitq q l' (set_k_mem m k))).
        rewrite F2. destruct (decide (e = e')) as [<-|].
        -- rewrite lookup_insert_eq. intros [= <-]. split; [left; by right|].
           by rewrite decide_True.
        -- rewrite lookup_insert_ne by done. intros HE'. destruct (HE e' q' HE') as [? ?].
           split; [by left; left|]. by destruct (decide (q' = q)).
  - split; try (by destruct q).
    + rewrite Hprocs. by apply sched_only_insert.
    + intros c a Hc1 Hc2. unfold L'. fold wc in Hc1. fold cc in Hc2. naive_solver.
  - by destruct q.
  - by destruct q.
  - rewrite Hprocs, lookup_insert_eq. by eexists.
  - intros p0 Hp0. rewrite Hprocs. by rewrite lookup_insert_ne.
Qed.

(** ** Writing *)
Lemma write_remaining p :
  0 <= pp_offset p < PAGE_SIZE -> 0 <= pp_length p < PAGE_SIZE ->
  let start := u32 (pp_offset p + pp_length p) mod PAGE_SIZE in
  start = (pp_offset p + pp_length p) mod PAGE_SIZE /\ 0 <= start /\
  let r := if start <? pp_offset p then u32 (pp_offset p - start) else u32 (PAGE_SIZE - start) in
  r = (if pp_offset p + pp_length p <? PAGE_SIZE then PAGE_SIZE - (pp_offset p + pp_length p)
       else PAGE_SIZE - pp_length p) /\
  start + r <= PAGE_SIZE /\ 0 < r <= PAGE_SIZE - pp_length p.
Proof.
  intros Ho Hl. unfold u32. change PAGE_SIZE with 4096 in *. cbv zeta.
  rewrite (Z.mod_small (pp_offset p + pp_length p) (2 ^ 32)) by lia.
  destruct (Z.ltb_spec (pp_offset p + pp_length p) 4096).
  - rewrite (Z.mod_small (_ + _) 4096) by lia.
    destruct (Z.ltb_spec (pp_offset p + pp_length p) (pp_offset p)); [lia|].
    rewrite Z.mod_small; lia.
  - replace (pp_offset p + pp_length p) with (pp_offset p + pp_length p - 4096 + 1 * 4096) by lia.
    rewrite Z.mod_add, (Z.mod_small (_ - _) 4096) by lia.
    destruct (Z.ltb_spec (pp_offset p + pp_length p - 4096) (pp_offset p)); [|lia].
    rewrite Z.mod_small; lia.
Qed.

(** The state after the bytes [ch] were appended. *)
Definition write_state k (a : Z) (p : pipe) (b ch : list Z) : state :=
  put_pipe_state a (set_pp_length (pp_length p + Z.of_nat (length ch)) p)
    (set_k_bufs (<[pp_page p := list_inserts
       (Z.to_nat ((pp_offset p + pp_length p) mod PAGE_SIZE)) ch b]> (k_bufs k)) k).

Lemma write_state_inv k C L U E a p b ch :
  pipes_inv k C L U E -> k_pipes k !! a = Some p -> k_bufs k !! pp_page p = Some b ->
  pp_length p + Z.of_nat (length ch) <= PAGE_SIZE ->
  pipes_inv (write_state k a p b ch) C L U E.
Proof.
  intros HI Ha Hb Hl. destruct (pi_pipes _ _ _ _ _ HI _ _ Ha) as (_ & _ & (b' & Hb' & Hlen & Hok)).
  rewrite Hb in Hb'. injection Hb' as <-. unfold write_state. set (b1 := list_inserts _ _ b).
  assert (Hb1 : Z.of_nat (length b1) = PAGE_SIZE) by (unfold b1; by rewrite length_inserts).
  assert (HI1 : pipes_inv (set_k_bufs (<[pp_page p := b1]> (k_bufs k)) k) C L U E).
  { split; try apply HI.
    - intros a' p' Ha'. destruct (pi_pipes _ _ _ _ _ HI _ _ Ha') as (? & ? & (b' & Hb' & Hrest)).
      split_and!; [done|done|]. destruct (decide (pp_page p = pp_page p')) as [Heq|Hne].
      + exists b1. simpl. rewrite Heq, lookup_insert_eq. split; [done|]. split; [done|]. apply Hrest.
      + exists b'. simpl. by rewrite lookup_insert_ne.
    - intros i Hi. simpl. destruct (decide (pp_page p = i)) as [<-|].
      + rewrite lookup_insert_eq. eauto.
      + rewrite lookup_insert_ne by done. by apply HI. }
  eapply pipes_inv_data; try done. exists b1. simpl. rewrite lookup_insert_eq.
  destruct Hok as (? & ? & ? & ?). split_and!; try done; lia.
Qed.

Lemma turn_pipe_readers k k' a p p1 l k1 :
  k_pipes k !! a = Some p -> k_pipes k1 = <[a := p1]> (k_pipes k) ->
  k' = with_waitq (ReadersOf a) l (set_k_mem (k_mem k') (set_k_procs (k_procs k') k1)) ->
  k_pipes k' !! a = Some (set_readers_waitq l p1) /\
  forall a', a' <> a -> k_pipes k' !! a' = k_pipes k !! a'.
Proof.
  intros Ha Hk1 ->. simpl. rewrite Hk1, lookup_alter_eq, lookup_insert_eq. split; [done|].
  intros a' Hne. by rewrite lookup_alter_ne, lookup_insert_ne.
Qed.

(** One turn of the loop of [pipe_write], on a pipe with readers and room. *)
Lemma write_turn fuel k C L U E a p b data w :
  pipes_inv k C L U E -> k_pipes k !! a = Some p -> k_bufs k !! pp_page p = Some b ->
  pp_readers p <> 0 -> pp_length p < PAGE_SIZE ->
  0 <= w <= Z.of_nat (length data) -> is_u32 (Z.of_nat (length data)) ->
  let r := if pp_offset p + pp_length p <? PAGE_SIZE then PAGE_SIZE - (pp_offset p + pp_length p)
           else PAGE_SIZE - pp_length p in
  let n := Z.min r (Z.of_nat (length data) - w) in
  let ch := take (Z.to_nat n) (drop (Z.to_nat w) data) in
  exists k' L' E', pipes_inv k' C L' U E' /\ evolves k L k' L' /\
    k_bufs k' = k_bufs (write_state k a p b ch) /\ Z.of_nat (length ch) = n /\
    k' = with_waitq (ReadersOf a) (tail (readers_waitq p))
           (set_k_mem (k_mem k') (set_k_procs (k_procs k') (write_state k a p b ch))) /\
    (forall e pr, head (readers_waitq p) = Some (e, pr) ->
       exists x, k_procs k' !! pr = Some x /\ p_state x = STATE_READY) /\
    (forall pr x, k_procs k !! pr = Some x -> p_state x = STATE_READY ->
       exists x', k_procs k' !! pr = Some x' /\ p_state x' = STATE_READY) /\
    pipe_write_loop (Datatypes.S fuel) a data w k =
      (if Z.of_nat (length data) =? w + n then Ok ((w + n, Some (w + n)), k')
       else pipe_write_loop fuel a data (w + n) k').
Proof.
  intros HI Ha Hb Hrd Hroom Hw Hsz r n ch.
  destruct (pi_pipes _ _ _ _ _ HI _ _ Ha) as (_ & _ & (b' & Hb' & Hlen & Ho & Hl & _)).
  rewrite Hb in Hb'. injection Hb' as <-.
  destruct (write_remaining p Ho ltac:(lia)) as (Es & Hs0 & Er & Hsr & Hr0). cbv zeta in Er, Hsr, Hr0.
  rewrite Er in Hsr, Hr0. fold r in Er, Hsr, Hr0.
  assert (Hch : Z.of_nat (length ch) = n).
  { unfold ch. rewrite length_take, length_drop. unfold n. lia. }
  set (k1 := write_state k a p b ch).
  assert (HI1 : pipes_inv k1 C L U E) by (apply write_state_inv; try done; unfold n in *; lia).
  assert (Hq1 : waitq_of k1 (ReadersOf a) = Some (readers_waitq p)).
  { simpl. by rewrite lookup_insert_eq. }
  destruct (process_wake_pipe k1 C L U E (ReadersOf a) _ HI1 Hq1)
    as (v & k' & L' & E' & Ew & HI' & Hev & Hbufs & Hk' & Hhd & Hkeep).
  exists k', L', E'. split; [done|]. split; [eapply evolves_trans; [|done]; split; try done; apply sched_only_refl|].
  split; [done|]. split; [done|]. split; [done|]. split; [done|]. split; [done|].
  assert (Hp' : exists p', k_pipes k' !! a = Some p' /\ pp_length p' = pp_length p + n).
  { rewrite Hk'. simpl. rewrite lookup_alter_eq, lookup_insert_eq. eexists. split; [done|].
    simpl. lia. }
  destruct Hp' as (p' & Hp' & Hlen').
  cbn [pipe_write_loop]. mrun (get_pipe_ok _ _ _ Ha).
  replace (truthy (pp_readers p)) with true by (symmetry; by apply truthy_true). cbn [negb].
  rewrite (proj2 (Z.eqb_neq (pp_length p) PAGE_SIZE)) by lia.
  rewrite Er. rewrite (u32_small (Z.of_nat (length data) - w)) by (unfold is_u32 in *; lia).
  replace (if r <? Z.of_nat (length data) - w then r else Z.of_nat (length data) - w)
    with n by (unfold n; zcase; lia).
  fold ch. assert (Ec : copy_to (pp_page p) (u32 (pp_offset p + pp_length p) mod PAGE_SIZE) ch k =
    Ok (tt, set_k_bufs (<[pp_page p := list_inserts
       (Z.to_nat ((pp_offset p + pp_length p) mod PAGE_SIZE)) ch b]> (k_bufs k)) k)).
  { unfold copy_to. mrun (get_buf_ok _ _ _ Hb).
    rewrite (proj2 (Z.leb_le 0 _)), (proj2 (Z.leb_le _ PAGE_SIZE)) by (unfold n in *; lia).
    cbn [andb]. by rewrite Es. }
  mrun Ec. erewrite (bind_ok (upd_pipe a _)); [|by apply upd_pipe_ok].
  replace (set_k_pipes _ _) with k1.
  2: { unfold k1, write_state, put_pipe_state, set_k_pipes. simpl. do 4 f_equal.
       rewrite Hch. symmetry. apply u32_small. unfold is_u32, n in *. change PAGE_SIZE with 4096 in *. lia. }
  mrun Ew. mrun (get_pipe_ok _ _ _ Hp'). rewrite Hlen'.
  rewrite (proj2 (Z.ltb_ge PAGE_SIZE (pp_length p + n))) by (unfold n; lia).
  rewrite (bind_ok (SYSTEM_BUG_ON false) _ k' tt k') by done.
  rewrite u32_small by (unfold is_u32 in *; unfold n in *; lia).
  by destruct (_ =? _).
Qed.

(** What the pipe [a] holds. *)
Definition holds k (a : Z) (p : pipe) (q : list Z) : Prop :=
  k_pipes k !! a = Some p /\
  exists b, k_bufs k !! pp_page p = Some b /\ q = ring b (pp_offset p) (pp_length p).

Lemma holds_length k C L U E a p q :
  pipes_inv k C L U E -> holds k a p q -> pp_length p = Z.of_nat (length q).
Proof.
  intros HI (Ha & b & Hb & ->). destruct (pi_pipes _ _ _ _ _ HI _ _ Ha) as (_ & _ & (? & _ & _ & _ & Hl & _)).
  rewrite ring_length; lia.
Qed.

(** Other pipes, and their pages, are left alone. *)
Definition others_kept k k' (a : Z) : Prop :=
  (forall a', a' <> a -> k_pipes k' !! a' = k_pipes k !! a') /\
  (forall a' p' q', a' <> a -> holds k a' p' q' -> holds k' a' p' q').

Lemma others_kept_trans k1 k2 k3 a : others_kept k1 k2 a -> others_kept k2 k3 a -> others_kept k1 k3 a.
Proof.
  intros [A1 B1] [A2 B2]. split.
  - intros a' Hne. by rewrite A2, A1.
  - intros a' p' q' Hne H. by apply B2, B1.
Qed.

Lemma write_state_holds k C L U E a p b ch l k' :
  pipes_inv k C L U E -> k_pipes k !! a = Some p -> k_bufs k !! pp_page p = Some b ->
  pp_length p + Z.of_nat (length ch) <= PAGE_SIZE ->
  (pp_offset p + pp_length p) mod PAGE_SIZE + Z.of_nat (length ch) <= PAGE_SIZE ->
  k' = with_waitq (ReadersOf a) l (set_k_mem (k_mem k') (set_k_procs (k_procs k') (write_state k a p b ch))) ->
  holds k' a (set_readers_waitq l (set_pp_length (pp_length p + Z.of_nat (length ch)) p))
    (ring b (pp_offset p) (pp_length p) ++ ch) /\ others_kept k k' a.
Proof.
  intros HI Ha Hb Hl Hs Hk'.
  destruct (pi_pipes _ _ _ _ _ HI _ _ Ha) as (_ & _ & (b' & Hb' & Hlen & Ho & Hl0 & _)).
  rewrite Hb in Hb'. injection Hb' as <-. split; [split|].
  - rewrite Hk'. simpl. by rewrite lookup_alter_eq, lookup_insert_eq.
  - rewrite Hk'. simpl. rewrite lookup_insert_eq. eexists. split; [done|].
    rewrite ring_write; [done|lia|done|done|done].
  - split.
    { intros a' Hne. rewrite Hk'. simpl. by rewrite lookup_alter_ne, lookup_insert_ne. }
    intros a' p' q' Hne (Ha' & b' & Hb' & ->). rewrite Hk'. split; simpl.
    + by rewrite lookup_alter_ne, lookup_insert_ne.
    + exists b'. rewrite lookup_insert_ne; [done|]. intros Epg. apply Hne.
      by eapply (pi_pages _ _ _ _ _ HI).
Qed.

(** The pipe after a write of [n] bytes that woke [j] readers. *)
Definition written_pipe (p : pipe) (n : Z) (j : nat) : pipe :=
  set_readers_waitq (drop j (readers_waitq p)) (set_pp_length (pp_length p + n) p).

(** [pipe_write] copies as much as there is room for, in one or two pieces. *)
Lemma pipe_write_fill k C L U E a p q data w :
  pipes_inv k C L U E -> holds k a p q -> pp_readers p <> 0 -> pp_length p < PAGE_SIZE ->
  0 <= w <= Z.of_nat (length data) -> is_u32 (Z.of_nat (length data)) ->
  let m := Z.min (Z.of_nat (length data) - w) (PAGE_SIZE - pp_length p) in
  exists k' L' E' j fuel, pipes_inv k' C L' U E' /\ evolves k L k' L' /\
    holds k' a (written_pipe p m j) (q ++ take (Z.to_nat m) (drop (Z.to_nat w) data)) /\
    others_kept k k' a /\ (1 <= j <= 2)%nat /\ all_ready k' (take j (readers_waitq p)) /\
    pipe_write a data w k =
      (if Z.of_nat (length data) =? w + m then Ok ((w + m, Some (w + m)), k')
       else pipe_write_loop (Datatypes.S fuel) a data (w + m) k').
Proof.
  intros HI (Ha & b & Hb & ->) Hrd Hroom Hw Hsz m. unfold pipe_write, pipe_fuel.
  destruct (pi_pipes _ _ _ _ _ HI _ _ Ha) as (_ & _ & (b0 & _ & _ & Ho & Hl & _)).
  destruct (write_turn 2 k C L U E a p b data w HI Ha Hb Hrd Hroom Hw Hsz)
    as (k1 & L1 & E1 & HI1 & Hev1 & _ & Hch1 & Hk1 & Hhd1 & Hkeep1 & Er1).
  set (r := if _ <? _ then _ else _) in *. set (n := Z.min r (Z.of_nat (length data) - w)) in *.
  assert (Hr : 0 < r <= PAGE_SIZE - pp_length p /\
    (pp_offset p + pp_length p) mod PAGE_SIZE + r <= PAGE_SIZE).
  { destruct (write_remaining p Ho ltac:(lia)) as (Es & _ & Er & Hsr & Hr0).
    cbv zeta in Er, Hsr, Hr0. fold r in Er. rewrite Er in Hsr, Hr0. rewrite <- Es. lia. }
  set (ch1 := take (Z.to_nat n) (drop (Z.to_nat w) data)) in *.
  destruct (write_state_holds k C L U E a p b ch1 (tail (readers_waitq p)) k1 HI Ha Hb)
    as [Hh1 Ho1];
    [unfold n in *; lia|unfold n in *; lia|exact Hk1|].
  rewrite Hch1 in Hh1.
  assert (Hready1 : all_ready k1 (take 1 (readers_waitq p))).
  { intros e pr. destruct (readers_waitq p) as [|[e0 p0] l]; simpl; [set_solver|].
    intros Hin. assert ((e, pr) = (e0, p0)) as [= -> ->] by set_solver. by eapply Hhd1. }
  assert (Hd1 : drop 1 (readers_waitq p) = tail (readers_waitq p)) by (by destruct (readers_waitq p)).
  destruct (decide (n = m)) as [Hnm|Hnm].
  { rewrite <- Hnm. exists k1, L1, E1, 1%nat, 1%nat. unfold written_pipe. rewrite Hd1.
    split_and!; try done. lia. }
  assert (Hlt : pp_offset p + pp_length p < PAGE_SIZE /\ n = PAGE_SIZE - (pp_offset p + pp_length p)).
  { revert Hnm. unfold n, m, r. destruct (Z.ltb_spec (pp_offset p + pp_length p) PAGE_SIZE); lia. }
  set (p1 := set_readers_waitq _ _) in Hh1. destruct Hh1 as (Hp1 & b1 & Hb1 & Hq1).
  assert (Hl1 : pp_length p1 = pp_length p + n) by done.
  assert (Hw1 : 0 <= w + n <= Z.of_nat (length data)) by (unfold n in *; lia).
  assert (Hne1 : (Z.of_nat (length data) =? w + n) = false).
  { apply Z.eqb_neq. revert Hnm. unfold n, m. lia. }
  rewrite Hne1 in Er1.
  destruct (write_turn 1 k1 C L1 U E1 a p1 b1 data (w + n) HI1 Hp1 Hb1 Hrd ltac:(unfold m in *; lia) Hw1 Hsz)
    as (k2 & L2 & E2 & HI2 & Hev2 & _ & Hch2 & Hk2 & Hhd2 & Hkeep2 & Er2).
  rewrite Hl1 in *. change (pp_offset p1) with (pp_offset p) in *.
  rewrite (proj2 (Z.ltb_ge (pp_offset p + (pp_length p + n)) PAGE_SIZE)) in * by lia.
  set (n2 := Z.min (PAGE_SIZE - (pp_length p + n)) (Z.of_nat (length data) - (w + n))) in *.
  assert (Hm : m = n + n2) by (unfold m, n2; lia).
  set (ch2 := take (Z.to_nat n2) (drop (Z.to_nat (w + n)) data)) in *.
  destruct (write_state_holds k1 C L1 U E1 a p1 b1 ch2 (tail (readers_waitq p1)) k2 HI1 Hp1 Hb1)
    as [Hh2 Ho2];
    [lia| |exact Hk2|].
  { rewrite Hl1. change (pp_offset p1) with (pp_offset p).
    replace (pp_offset p + (pp_length p + n)) with (0 + 1 * PAGE_SIZE) by lia.
    rewrite Z.mod_add by done. change (0 mod PAGE_SIZE) with 0. lia. }
  rewrite Hch2, Hl1 in Hh2. change (pp_offset p1) with (pp_offset p) in Hh2.
  change (pp_offset p1) with (pp_offset p) in Hq1. rewrite ?Hl1 in Hq1. rewrite <- Hq1 in Hh2.
  exists k2, L2, E2, 2%nat, 0%nat. split; [done|]. split; [by eapply evolves_trans|].
  split; [|split; [by eapply others_kept_trans|split; [lia|split]]].
  - unfold written_pipe. rewrite Hm.
    replace (take (Z.to_nat (n + n2)) (drop (Z.to_nat w) data)) with (ch1 ++ ch2).
    2: { unfold ch1, ch2. rewrite (Z2Nat.inj_add w), (Z2Nat.inj_add n) by lia.
         rewrite <- drop_drop. apply take_take_drop. }
    rewrite app_assoc. replace (drop 2 (readers_waitq p)) with (tail (readers_waitq p1))
      by (simpl; by destruct (readers_waitq p) as [|? [|? ?]]).
    rewrite Z.add_assoc. exact Hh2.
  - intros e pr Hin. destruct (readers_waitq p) as [|[e0 p0] l] eqn:Hrq; [simpl in Hin; set_solver|].
    destruct (decide ((e, pr) = (e0, p0))) as [[= -> ->]|Hne0].
    + destruct (Hready1 e0 p0) as (x & Hx & Hst); [simpl; set_solver|]. by eapply Hkeep2.
    + apply (Hhd2 e). simpl. destruct l as [|[e1 pr1] l]; simpl in *; [set_solver|].
      assert ((e, pr) = (e1, pr1)) as -> by set_solver. done.
  - rewrite Er1, Er2, Hm. by rewrite Z.add_assoc.
Qed.
End PipeProofs.
