(* ===== verification/PipeSpecs.v ===== *)
(** * Pipes: what the operations of [pipe.c] do

    [pipe_read] and [pipe_write] on every branch, the first-in first-out
    behaviour of a pipe under any interleaving of its readers and writers,
    creation, and release with the wake-up of the other side. *)

From stdpp Require Import base numbers list gmap relations.
From S2P Require Import Prelude Signal Buddy BuddyProofs PageAlloc KernelMem Unix Kernel Pipe PipeProofs.

#[local] Open Scope Z_scope.
#[local] Open Scope kernel_scope.

Section PipeSpecs.
Context {S : Type} `{KM : KernelMem S}.
Notation state := (kernel S).
Implicit Types (k : state) (C : gmap Z Z) (L : Z -> Z -> Prop) (U : gset Z).

(** ** Signals *)

(** The process table: its processes exist, and their identifiers tell them
    apart. *)
Record table_ok k : Prop := {
  tb_procs : forall a, a ∈ all_processes k -> exists x, k_procs k !! a = Some x /\ 1 <= p_id x /\ a <> 0;
  tb_ids : forall a b x y, a ∈ all_processes k -> b ∈ all_processes k ->
    k_procs k !! a = Some x -> k_procs k !! b = Some y -> p_id x = p_id y -> a = b;
}.

Lemma find_process_in_ok k pid l a x :
  a ∈ l -> k_procs k !! a = Some x -> p_id x = pid ->
  (forall b, b ∈ l -> is_Some (k_procs k !! b)) ->
  (forall b y, b ∈ l -> k_procs k !! b = Some y -> p_id y = pid -> b = a) ->
  find_process_in l pid k = Ok (a, k).
Proof.
  induction l as [|b l IH]; intros Ha Hx Hid Hl Hu; [set_solver|].
  destruct (Hl b ltac:(set_solver)) as [y Hy]. cbn [find_process_in]. mrun (get_proc_ok _ _ _ Hy).
  destruct (Z.eqb_spec (p_id y) pid) as [E|E].
  - by rewrite (Hu b y ltac:(set_solver) Hy E).
  - apply IH; [|done|done|set_solver|set_solver]. apply elem_of_cons in Ha as [->|]; [|done].
    congruence.
Qed.

Lemma find_process_ok k a x :
  table_ok k -> a ∈ all_processes k -> k_procs k !! a = Some x -> find_process (p_id x) k = Ok (a, k).
Proof.
  intros [H1 H2] Ha Hx. unfold find_process. rewrite (bind_ok _ _ k (all_processes k) k) by done.
  eapply find_process_in_ok; [done|done|done| |].
  - intros b (y & Hy & _)%H1. eauto.
  - intros b y Hb Hy E. by eapply H2.
Qed.

(** [process_kill] of a process of the table. *)
Lemma process_kill_ok k a x sig :
  table_ok k -> a ∈ all_processes k -> k_procs k !! a = Some x -> valid_sig sig ->
  process_kill (p_id x) sig k =
    Ok (0, set_k_procs (<[a := set_p_pending (snd (sigaddset (p_pending x) sig)) x]> (k_procs k)) k).
Proof.
  intros Ht Ha Hx Hs. unfold process_kill. unfold valid_sig in Hs.
  rewrite (proj2 (Z.ltb_ge sig 1)), (proj2 (Z.leb_gt NSIG sig)) by lia. cbn [orb].
  destruct (tb_procs _ Ht a Ha) as (x' & Hx' & Hid & H0). rewrite Hx in Hx'. injection Hx' as <-.
  rewrite (proj2 (Z.ltb_ge (p_id x) 1)) by lia. mrun (find_process_ok _ _ _ Ht Ha Hx).
  rewrite (proj2 (Z.eqb_neq a 0)) by done.
  by mrun (upd_proc_ok k a x (fun p => set_p_pending (snd (sigaddset (p_pending p) sig)) p) Hx).
Qed.

Lemma pipes_inv_procs k C L U E m :
  pipes_inv k C L U E -> (forall p, is_Some (k_procs k !! p) -> is_Some (m !! p)) ->
  pipes_inv (set_k_procs m k) C L U E.
Proof.
  intros HI Hm. eapply (pipes_inv_queues k); try done.
  - apply HI.
  - intros a [p Hp]. by apply (pi_pipes _ _ _ _ _ HI a p).
  - destruct (pi_waitqs _ _ _ _ _ HI) as [H1 H2]. split; [|done].
    intros q l Hl. destruct (H1 q l Hl) as (? & ? & H3). split_and!; [done|done|].
    intros e p Hp. by eapply Hm, H3.
Qed.

Lemma holds_procs k a p q m : holds k a p q -> holds (set_k_procs m k) a p q.
Proof. done. Qed.

(** A sleep leaves the data of every pipe. *)
Lemma sleep_holds k k' a q l p d :
  k_bufs k' = k_bufs k -> k_pipes k' = k_pipes (with_waitq q l k) ->
  holds k a p d -> exists p', holds k' a p' d /\ core p' = core p.
Proof.
  intros Hb Hp (Ha & b & Hbb & ->). pose proof (core_with k q l a) as Hc.
  rewrite Ha in Hc. rewrite <- Hp in Hc. apply fmap_Some in Hc as (p' & Hp' & Ec).
  exists p'. split; [|done]. injection Ec as E1 E2 E3 _ _. split; [done|].
  exists b. rewrite Hb, <- E1, <- E2, <- E3. done.
Qed.

(** ** Reading *)

(** What a call to [pipe_read] does, from the data [q] of the pipe. *)
Definition read_post k C L U a (p : pipe) (q : list Z) size (out : res ((list Z * option Z) * state)) : Prop :=
  let m := Z.min size (pp_length p) in
  if decide (pp_length p = 0) then
    if decide (pp_writers p = 0) then out = Ok (([], Some 0), k)
    else out = Err Halt \/ exists k' L' E' e, out = Ok (([], None), k') /\
      pipes_inv k' C L' U E' /\ evolves k L k' L' /\
      holds k' a (set_readers_waitq ((e, current_process k) :: readers_waitq p) p) q /\
      others_kept k k' a /\
      exists x, k_procs k' !! current_process k = Some x /\ p_state x = STATE_BLOCKED
  else if decide (size = 0 /\ pp_length p = PAGE_SIZE) then out = Err Halt
  else exists k' L' E' p' j, out = Ok ((take (Z.to_nat m) q, Some m), k') /\
    pipes_inv k' C L' U E' /\ evolves k L k' L' /\ others_kept k k' a /\
    holds k' a p' (drop (Z.to_nat m) q) /\
    pp_readers p' = pp_readers p /\ pp_writers p' = pp_writers p /\
    readers_waitq p' = readers_waitq p /\ writers_waitq p' = drop j (writers_waitq p) /\
    (1 <= j <= 2)%nat /\ all_ready k' (take j (writers_waitq p)).

Lemma others_kept_pipes k k' a :
  k_bufs k' = k_bufs k -> (forall a', a' <> a -> k_pipes k' !! a' = k_pipes k !! a') ->
  others_kept k k' a.
Proof.
  intros Hb Hp. split; [done|]. intros a' p' q' Hne (Ha & b & H). split; [by rewrite Hp|].
  exists b. by rewrite Hb.
Qed.

Lemma sleep_readers k C L U E a p q :
  pipes_inv k C L U E -> holds k a p q ->
  process_sleep (ReadersOf a) k = Err Halt \/
  exists k' L' E' e, process_sleep (ReadersOf a) k = Ok (tt, k') /\ pipes_inv k' C L' U E' /\
    evolves k L k' L' /\
    holds k' a (set_readers_waitq ((e, current_process k) :: readers_waitq p) p) q /\
    others_kept k k' a /\
    exists x, k_procs k' !! current_process k = Some x /\ p_state x = STATE_BLOCKED.
Proof.
  intros HI (Ha & b & Hb & ->).
  assert (Hq : waitq_of k (ReadersOf a) = Some (readers_waitq p)) by (simpl; by rewrite Ha).
  destruct (process_sleep_pipe _ _ _ _ _ _ _ HI Hq)
    as [E1|(k' & L' & E' & e & E1 & HI' & Hev & Hbufs & Hpipes & Hst & _)]; [by left|right].
  exists k', L', E', e. do 3 (split; [done|]). split; [split|split; [|done]].
  - rewrite Hpipes. simpl. by rewrite lookup_alter_eq, Ha.
  - exists b. by rewrite Hbufs.
  - apply others_kept_pipes; [done|]. intros a' Hne. rewrite Hpipes. simpl. by rewrite lookup_alter_ne.
Qed.

Lemma sleep_writers k C L U E a p q :
  pipes_inv k C L U E -> holds k a p q ->
  process_sleep (WritersOf a) k = Err Halt \/
  exists k' L' E' e, process_sleep (WritersOf a) k = Ok (tt, k') /\ pipes_inv k' C L' U E' /\
    evolves k L k' L' /\
    holds k' a (set_writers_waitq ((e, current_process k) :: writers_waitq p) p) q /\
    others_kept k k' a /\
    exists x, k_procs k' !! current_process k = Some x /\ p_state x = STATE_BLOCKED.
Proof.
  intros HI (Ha & b & Hb & ->).
  assert (Hq : waitq_of k (WritersOf a) = Some (writers_waitq p)) by (simpl; by rewrite Ha).
  destruct (process_sleep_pipe _ _ _ _ _ _ _ HI Hq)
    as [E1|(k' & L' & E' & e & E1 & HI' & Hev & Hbufs & Hpipes & Hst & _)]; [by left|right].
  exists k', L', E', e. do 3 (split; [done|]). split; [split|split; [|done]].
  - rewrite Hpipes. simpl. by rewrite lookup_alter_eq, Ha.
  - exists b. by rewrite Hbufs.
  - apply others_kept_pipes; [done|]. intros a' Hne. rewrite Hpipes. simpl. by rewrite lookup_alter_ne.
Qed.

(** A full pipe and an empty request: the assertion on the length fails. *)
Lemma read_full_zero fuel k C L U E a p b :
  pipes_inv k C L U E -> k_pipes k !! a = Some p -> k_bufs k !! pp_page p = Some b ->
  pp_length p = PAGE_SIZE -> pipe_read_loop (Datatypes.S fuel) a 0 [] k = Err Halt.
Proof.
  intros HI Ha Hb Hfull.
  destruct (pi_pipes _ _ _ _ _ HI _ _ Ha) as (_ & _ & (b' & Hb' & Hlen & Ho & Hl & _)).
  cbn [pipe_read_loop]. mrun (get_pipe_ok _ _ _ Ha).
  replace (truthy (pp_length p)) with true by (symmetry; apply truthy_true; rewrite Hfull; done).
  cbn [negb length]. change (u32 (0 - Z.of_nat 0)) with 0.
  rewrite read_remaining by (rewrite ?Hfull; done || lia).
  rewrite (proj2 (Z.ltb_lt 0 (Z.min (pp_length p) (PAGE_SIZE - pp_offset p))))
    by (rewrite Hfull; change PAGE_SIZE with 4096 in *; lia).
  rewrite (bind_ok (copy_from (pp_page p) (pp_offset p) 0) _ k [] k).
  2: { unfold copy_from. mrun (get_buf_ok _ _ _ Hb).
       rewrite (proj2 (Z.leb_le 0 _)), (proj2 (Z.leb_le _ PAGE_SIZE)) by lia. done. }
  erewrite (bind_ok (upd_pipe a _)); [|by apply upd_pipe_ok].
  erewrite (bind_ok (upd_pipe a _)); [|apply upd_pipe_ok; apply lookup_insert_eq].
  erewrite (bind_ok (get_pipe a)); [|apply get_pipe_ok; apply lookup_insert_eq].
  cbn [pp_offset pp_length set_pp_length set_pp_offset].
  rewrite (proj2 (Z.leb_gt PAGE_SIZE (u32 (pp_offset p + 0) mod PAGE_SIZE)))
    by (apply Z.mod_pos_bound; done).
  rewrite (bind_ok (SYSTEM_BUG_ON false) _ _ tt _) by reflexivity.
  rewrite Z.sub_0_r, Hfull. apply bind_err. reflexivity.
Qed.

Lemma pipe_read_spec k C L U E a p q size :
  pipes_inv k C L U E -> holds k a p q -> is_u32 size ->
  read_post k C L U a p q size (pipe_read a size [] k).
Proof.
  intros HI Hh Hsz. pose proof Hh as (Ha & b & Hb & ->). unfold read_post.
  destruct (pi_pipes _ _ _ _ _ HI _ _ Ha) as (_ & _ & (b' & _ & _ & Ho & Hl & _)).
  destruct (decide (pp_length p = 0)) as [H0|H0].
  - unfold pipe_read, pipe_fuel. cbn [pipe_read_loop]. mrun (get_pipe_ok _ _ _ Ha).
    rewrite H0. change (negb (truthy 0)) with true. cbv iota.
    destruct (decide (pp_writers p = 0)) as [Hw|Hw]; [by rewrite Hw|].
    replace (truthy (pp_writers p)) with true by (symmetry; by apply truthy_true). cbn [negb].
    destruct (sleep_readers _ _ _ _ _ _ _ _ HI Hh) as [E1|(k' & L' & E' & e & E1 & Hrest)].
    + left. by apply bind_err.
    + right. exists k', L', E', e. mrun E1. rewrite H0 in Hrest. done.
  - destruct (decide _) as [[-> Hf]|Hne].
    + by eapply read_full_zero.
    + destruct (pipe_read_data k C L U E a p b size HI Ha Hb) as
        (k' & L' & E' & p' & j & Er & HI' & Hev & Hbufs & [Hp' Hpg Hr Hw Hoth] & Hring & Hrest);
        [lia|done|destruct Hsz; lia|].
      exists k', L', E', p', j. do 3 (split; [done|]). split; [|split; [split; [done|]|done]].
      * by apply others_kept_pipes.
      * exists b. rewrite Hbufs, Hpg. done.
Qed.

(** ** Writing *)

(** What a call to [pipe_write] does, with [w] bytes of [data] already taken. *)
Definition write_post k C L U E a (p : pipe) (q data : list Z) (w : Z)
    (out : res ((Z * option Z) * state)) : Prop :=
  let size := Z.of_nat (length data) in
  let m := Z.min (size - w) (PAGE_SIZE - pp_length p) in
  let cur := current_process k in
  if decide (pp_readers p = 0) then
    exists x, k_procs k !! cur = Some x /\
      let k' := set_k_procs (<[cur := set_p_pending (snd (sigaddset (p_pending x) SIGPIPE)) x]>
                               (k_procs k)) k in
      out = Ok ((w, Some (- EPIPE)), k') /\ pipes_inv k' C L U E
  else if decide (pp_length p = PAGE_SIZE) then
    out = Err Halt \/ exists k' L' E' e, out = Ok ((w, None), k') /\
      pipes_inv k' C L' U E' /\ evolves k L k' L' /\
      holds k' a (set_writers_waitq ((e, cur) :: writers_waitq p) p) q /\ others_kept k k' a /\
      exists x, k_procs k' !! cur = Some x /\ p_state x = STATE_BLOCKED
  else
    let q' := q ++ take (Z.to_nat m) (drop (Z.to_nat w) data) in
    (if decide (w + m = size) then False else out = Err Halt) \/
    exists k' L' E' p' r j, out = Ok ((w + m, r), k') /\
      pipes_inv k' C L' U E' /\ evolves k L k' L' /\ others_kept k k' a /\
      holds k' a p' q' /\ pp_readers p' = pp_readers p /\ pp_writers p' = pp_writers p /\
      readers_waitq p' = drop j (readers_waitq p) /\ (1 <= j <= 2)%nat /\
      (forall e pr, (e, pr) ∈ take j (readers_waitq p) -> pr <> cur ->
         exists x, k_procs k' !! pr = Some x /\ p_state x = STATE_READY) /\
      if decide (w + m = size) then r = Some size /\ writers_waitq p' = writers_waitq p
      else r = None /\ (exists e, writers_waitq p' = (e, cur) :: writers_waitq p) /\
        exists x, k_procs k' !! cur = Some x /\ p_state x = STATE_BLOCKED.

(** The next turn on a full pipe: the writer sleeps. *)
Lemma write_full_sleeps fuel k C L U E a p q data w :
  pipes_inv k C L U E -> holds k a p q -> pp_readers p <> 0 -> pp_length p = PAGE_SIZE ->
  pipe_write_loop (Datatypes.S fuel) a data w k =
    (do* process_sleep (WritersOf a) in ret (w, None)) k.
Proof.
  intros HI (Ha & _) Hr Hl. cbn [pipe_write_loop]. mrun (get_pipe_ok _ _ _ Ha).
  replace (truthy (pp_readers p)) with true by (symmetry; by apply truthy_true). cbn [negb].
  by rewrite Hl, Z.eqb_refl.
Qed.

Lemma pipe_write_spec k C L U E a p q data w :
  pipes_inv k C L U E -> table_ok k -> current_process k ∈ all_processes k ->
  holds k a p q -> 0 <= w <= Z.of_nat (length data) -> is_u32 (Z.of_nat (length data)) ->
  write_post k C L U E a p q data w (pipe_write a data w k).
Proof.
  intros HI Ht Hcur Hh Hw Hsz. unfold write_post. pose proof Hh as (Ha & _).
  destruct (pi_pipes _ _ _ _ _ HI _ _ Ha) as (_ & _ & (b' & _ & _ & Ho & Hl & _)).
  destruct (decide (pp_readers p = 0)) as [Hr|Hr].
  - destruct (pi_current _ _ _ _ _ HI) as [x Hx]. exists x. split; [done|].
    unfold pipe_write, pipe_fuel. cbn [pipe_write_loop]. mrun (get_pipe_ok _ _ _ Ha).
    rewrite Hr. change (negb (truthy 0)) with true. cbv iota.
    rewrite (bind_ok (gets current_process) _ k _ k) by done. mrun (get_proc_ok _ _ _ Hx).
    mrun (process_kill_ok k _ x SIGPIPE Ht Hcur Hx ltac:(done)). split; [done|].
    apply pipes_inv_procs; [done|]. intros pr. by apply is_Some_insert_proc.
  - destruct (decide (pp_length p = PAGE_SIZE)) as [Hf|Hf].
    + unfold pipe_write, pipe_fuel. rewrite (write_full_sleeps _ _ _ _ _ _ _ _ _ _ _ HI Hh Hr Hf).
      destruct (sleep_writers _ _ _ _ _ _ _ _ HI Hh) as [E1|(k' & L' & E' & e & E1 & Hrest)].
      * left. by apply bind_err.
      * right. exists k', L', E', e. by mrun E1.
    + destruct (pipe_write_fill k C L U E a p q data w HI Hh Hr ltac:(lia) Hw Hsz)
        as (k1 & L1 & E1 & j & fuel & HI1 & Hev1 & Hh1 & Hoth1 & Hj & Hready & Er).
      set (m := Z.min _ _) in *. rewrite Er.
      destruct (decide (w + m = Z.of_nat (length data))) as [Hd|Hd].
      * right. rewrite (proj2 (Z.eqb_eq _ _)) by lia.
        exists k1, L1, E1, (written_pipe p m j), (Some (w + m)), j.
        do 4 (split; [done|]). split; [exact Hh1|].
        split_and!; try done; [lia|lia| |by rewrite Hd]. intros e pr Hin _. by eapply Hready.
      * rewrite (proj2 (Z.eqb_neq _ _)) by lia.
        assert (Hl1 : pp_length (written_pipe p m j) = PAGE_SIZE) by (simpl; unfold m in *; lia).
        rewrite (write_full_sleeps _ _ _ _ _ _ _ _ _ _ _ HI1 Hh1 Hr Hl1).
        assert (Hq1 : waitq_of k1 (WritersOf a) = Some (writers_waitq p))
          by (simpl; by rewrite (proj1 Hh1)).
        destruct (process_sleep_pipe _ _ _ _ _ _ _ HI1 Hq1)
          as [E2|(k2 & L2 & E2 & e & Es & HI2 & Hev2 & Hbufs & Hpipes & Hst & Hsame)].
        { left. by apply bind_err. }
        right. mrun Es. rewrite (ev_current _ _ _ _ Hev1) in *.
        exists k2, L2, E2, (set_writers_waitq ((e, current_process k) :: writers_waitq p) (written_pipe p m j)),
          None, j. split; [done|]. split; [done|]. split; [by eapply evolves_trans|].
        destruct Hh1 as (Hp1 & b1 & Hb1 & Hq).
        split; [|split; [split|]].
        -- eapply others_kept_trans; [done|]. apply others_kept_pipes; [done|].
           intros a' Hne. rewrite Hpipes. simpl. by rewrite lookup_alter_ne.
        -- rewrite Hpipes. simpl. by rewrite lookup_alter_eq, Hp1.
        -- exists b1. by rewrite Hbufs.
        -- split_and!; try done; try lia; [|by eexists].
           intros e' pr Hin Hne. rewrite Hsame by done. by eapply Hready.
Qed.

(** ** Creation *)

(** A second write of the same pipe replaces the first. *)
Lemma upd_pipe_again k a p f m :
  upd_pipe a f (set_k_pipes (<[a := p]> m) k) = Ok (tt, set_k_pipes (<[a := f p]> m) k).
Proof.
  erewrite upd_pipe_ok by apply lookup_insert_eq. cbn [k_pipes set_k_pipes].
  by rewrite insert_insert_eq.
Qed.

Lemma pipe_create_spec k C L U E :
  pipes_inv k C L U E ->
  pipe_create k = Err Halt \/
  exists a i k' L', pipe_create k = Ok (a, k') /\ k_pipes k !! a = None /\ i ∉ U /\
    k_pipes k' = <[a := Pipe i 0 0 1 1 [] []]> (k_pipes k) /\
    holds k' a (Pipe i 0 0 1 1 [] []) [] /\ pipes_inv k' C L' ({[i]} ∪ U) E /\
    (forall c x, L' c x <-> L c x \/ (c = pipe_cache (k_caches k) /\ x = a)) /\
    exists m, k' = set_k_pipes (<[a := Pipe i 0 0 1 1 [] []]> (k_pipes k)) (set_k_mem m k).
Proof.
  intros HI. destruct (pi_caches _ _ _ _ _ HI) as ([o Hpc] & Hc2 & Hc3 & Hne).
  unfold pipe_create, cache_of. erewrite (bind_ok (gets _)) by reflexivity.
  destruct (km_obj_alloc_spec _ _ _ _ _ _ (pi_mem _ _ _ _ _ HI) Hpc) as [Ea|(a & m1 & Ea & Hfa & _ & HM1)].
  { left. apply bind_err. by apply kmem_err. }
  mrun (kmem_ok _ _ _ _ Ea). unfold put_pipe. erewrite (bind_ok (modify _)) by reflexivity.
  destruct (km_page_alloc_spec _ _ _ _ _ _ HM1 order_for_page) as [Eb|(i & m2 & Eb & Hi & Hir & HM2)].
  { left. apply bind_err. by apply kmem_err. }
  right. erewrite (bind_ok (kmem _)); [|by apply kmem_ok].
  change (set_k_mem m2 (set_k_pipes ?m ?x)) with (set_k_pipes m (set_k_mem m2 x)).
  cbn [k_pipes set_k_mem].
  change (set_k_mem m2 (set_k_mem m1 k)) with (set_k_mem m2 k).
  do 5 (rewrite (bind_ok _ _ _ _ _ (upd_pipe_again _ a _ _ _)); cbn beta).
  assert (Hka : k_pipes k !! a = None).
  { destruct (k_pipes k !! a) as [p|] eqn:Hp; [|done].
    destruct (pi_pipes _ _ _ _ _ HI _ _ Hp) as [HLa _]. by destruct (Hfa (pipe_cache (k_caches k))). }
  destruct (pi_bufs _ _ _ _ _ HI i Hir) as (b & Hb & Hlen).
  set (p := Pipe i 0 0 1 1 [] []).
  exists a, i, (set_k_pipes (<[a := p]> (k_pipes k)) (set_k_mem m2 k)),
    (fun c x => L c x \/ (c = pipe_cache (k_caches k) /\ x = a)).
  split; [done|].
  split; [done|]. split; [done|]. split; [done|]. split; [|split; [|split; [done|by exists m2]]].
  { split; [apply lookup_insert_eq|]. by exists b. }
  assert (Hget : forall a' p', (<[a := p]> (k_pipes k)) !! a' = Some p' ->
    (a' = a /\ p' = p) \/ (a' <> a /\ k_pipes k !! a' = Some p')).
  { intros a' p'. destruct (decide (a = a')) as [<-|].
    - rewrite lookup_insert_eq. intros [= <-]. by left.
    - rewrite lookup_insert_ne by done. by right. }
  assert (Hpg : forall a' p', k_pipes k !! a' = Some p' -> pp_page p' <> i).
  { intros a' p' H Ei. destruct (pi_pipes _ _ _ _ _ HI _ _ H) as (_ & HU & _). by subst i. }
  split; try apply HI.
  - exact HM2.
  - intros a' p' [[-> ->]|[Hne' H]]%Hget.
    + split_and!; [by right|set_solver|]. exists b. split_and!; done.
    + destruct (pi_pipes _ _ _ _ _ HI _ _ H) as (? & ? & ?). split_and!; [by left|set_solver|done].
  - intros a1 a2 p1 p2 [[-> ->]|[Hn1 H1]]%Hget [[-> ->]|[Hn2 H2]]%Hget Epg; try done.
    + by destruct (Hpg _ _ H2).
    + by destruct (Hpg _ _ H1).
    + by eapply (pi_pages _ _ _ _ _ HI).
  - destruct (pi_waitqs _ _ _ _ _ HI) as [Hqs HE].
    assert (Hnew : forall e, E !! e <> Some (ReadersOf a) /\ E !! e <> Some (WritersOf a)).
    { intros e. split; intros He; destruct (HE _ _ He) as [_ [l Hl]]; simpl in Hl; by rewrite Hka in Hl. }
    split.
    + intros [a'|a'| | |] l; simpl; [| |apply (Hqs ChildWaitq)|apply (Hqs TtyReadWaitq)|apply (Hqs TtyWriteWaitq)]; (destruct (decide (a = a')) as [<-|Hn];
        [rewrite lookup_insert_eq; intros [= <-]|rewrite lookup_insert_ne by done]).
      * split_and!; [constructor| |set_solver]. intros e. destruct (Hnew e). set_solver.
      * apply (Hqs (ReadersOf a')).
      * split_and!; [constructor| |set_solver]. intros e. destruct (Hnew e). set_solver.
      * apply (Hqs (WritersOf a')).
    + intros e q He. destruct (HE e q He) as [? Hs]. split; [by left|].
      destruct q as [a'|a'| | |]; simpl in *; [| |done..];
        (destruct (decide (a = a')) as [<-|Hn]; [rewrite lookup_insert_eq; eauto|by rewrite lookup_insert_ne]).
Qed.

(** ** Waking a whole queue *)
Lemma with_waitq_twice q l l' k k1 :
  k_pipes k1 = k_pipes (with_waitq q l k) -> k_pipes (with_waitq q l' k1) = k_pipes (with_waitq q l' k).
Proof.
  destruct q as [a|a| | |]; simpl; [| |done..]; intros ->; apply map_eq; intros i;
    (destruct (decide (a = i)) as [<-|]; [rewrite !lookup_alter_eq; by destruct (k_pipes k !! a)
                                         |by rewrite !lookup_alter_ne]).
Qed.

Lemma wake_all_spec q l : forall fuel k C L U E,
  pipes_inv k C L U E -> waitq_of k q = Some l -> (length l < fuel)%nat ->
  exists k' L' E', wake_all fuel q k = Ok (tt, k') /\ pipes_inv k' C L' U E' /\ evolves k L k' L' /\
    k_bufs k' = k_bufs k /\ k_pipes k' = k_pipes (with_waitq q [] k) /\ waitq_of k' q = Some [] /\
    all_ready k' l /\
    (forall p x, k_procs k !! p = Some x -> p_state x = STATE_READY ->
       exists x', k_procs k' !! p = Some x' /\ p_state x' = STATE_READY).
Proof.
  induction l as [|[e p] l IH]; intros fuel k C L U E HI Hq Hf; (destruct fuel as [|fuel]; [simpl in Hf; lia|]).
  - cbn [wake_all]. mrun (process_wake_empty k q Hq). exists k, L, E.
    split; [done|]. split; [done|]. split; [apply evolves_refl|]. split; [done|].
    split; [|split; [done|split; [|eauto]]].
    + destruct q as [a|a| | |]; simpl in *; [| |done..]; symmetry; apply map_eq; intros i;
        (destruct (decide (a = i)) as [<-|]; [|by rewrite lookup_alter_ne]);
        rewrite lookup_alter_eq; apply fmap_Some in Hq as ([] & Hi & Hq); rewrite Hi; simpl in *; by subst.
    + intros ? ? ?. set_solver.
  - cbn [wake_all]. destruct (process_wake_pipe _ _ _ _ _ _ _ HI Hq)
      as (r & k1 & L1 & E1 & Ew & HI1 & Hev1 & Hb1 & Hk1 & Hhd1 & Hkeep1).
    assert (r = 1) as ->.
    { destruct (process_wake_spec k C L U E q e p l HI Hq) as (x & m & _ & E' & _). congruence. }
    mrun Ew. change (truthy 1) with true. cbv iota. simpl in Hk1.
    assert (Hq1 : waitq_of k1 q = Some l).
    { rewrite Hk1, waitq_of_with, decide_True; [done|done|]. exists ((e, p) :: l).
      rewrite <- Hq. by apply waitq_of_ext. }
    destruct (IH fuel k1 C L1 U E1 HI1 Hq1 ltac:(simpl in Hf; lia))
      as (k2 & L2 & E2 & E' & HI2 & Hev2 & Hb2 & Hp2 & Hq2 & Hr2 & Hkeep2).
    exists k2, L2, E2. split; [done|]. split; [done|]. split; [by eapply evolves_trans|].
    split; [congruence|]. split; [|split; [done|split]].
    + rewrite Hp2. eapply (with_waitq_twice q l). rewrite Hk1. by destruct q.
    + intros e' p' [[= -> ->]|Hin]%elem_of_cons; [|by eapply Hr2].
      destruct (Hhd1 e p eq_refl) as (x & Hx & Hs). by eapply Hkeep2.
    + intros p' x Hx Hs. destruct (Hkeep1 p' x Hx Hs) as (x' & Hx' & Hs'). by eapply Hkeep2.
Qed.

Lemma wake_whole_spec k C L U E q l :
  pipes_inv k C L U E -> waitq_of k q = Some l ->
  exists k' L' E', wake_whole q k = Ok (tt, k') /\ pipes_inv k' C L' U E' /\ evolves k L k' L' /\
    k_bufs k' = k_bufs k /\ k_pipes k' = k_pipes (with_waitq q [] k) /\ all_ready k' l.
Proof.
  intros HI Hq. destruct (wake_all_spec q l (Datatypes.S (length l)) k C L U E HI Hq ltac:(lia))
    as (k' & L' & E' & E1 & H1 & H2 & H3 & H4 & _ & H5 & _).
  exists k', L', E'. unfold wake_whole. by mrun (get_waitq_ok _ _ _ Hq).
Qed.

(** ** Counting references *)

(** The two sides of a pipe. *)
Definition side_mode (rd : bool) : Z := if rd then O_RDONLY else O_WRONLY.
Definition side_count (rd : bool) (p : pipe) : Z := if rd then pp_readers p else pp_writers p.
Definition set_side (rd : bool) (n : Z) (p : pipe) : pipe :=
  if rd then set_pp_readers n p else set_pp_writers n p.
Definition other_waitq (rd : bool) (a : Z) : waitq := if rd then WritersOf a else ReadersOf a.
Definition other_sleepers (rd : bool) (p : pipe) : list (Z * Z) :=
  if rd then writers_waitq p else readers_waitq p.
Definition clear_sleepers (rd : bool) (p : pipe) : pipe :=
  if rd then set_writers_waitq [] p else set_readers_waitq [] p.

(** Nobody sleeps on a side whose other end is closed. *)
Definition no_dead_sleepers (p : pipe) : Prop :=
  forall rd, side_count rd p = 0 -> other_sleepers rd p = [].

Lemma set_side_inv k C L U E a p q rd n :
  pipes_inv k C L U E -> holds k a p q -> is_u32 n ->
  pipes_inv (put_pipe_state a (set_side rd n p) k) C L U E /\
  holds (put_pipe_state a (set_side rd n p) k) a (set_side rd n p) q /\
  others_kept k (put_pipe_state a (set_side rd n p) k) a.
Proof.
  intros HI (Ha & b & Hb & ->) Hn.
  destruct (pi_pipes _ _ _ _ _ HI _ _ Ha) as (_ & _ & (b' & Hb' & Hlen & Ho & Hl & Hr & Hw)).
  split; [|split; [split|]].
  - eapply pipes_inv_data; [done|done| | | |exists b']; by destruct rd.
  - apply lookup_insert_eq.
  - exists b. by destruct rd.
  - apply others_kept_pipes; [done|]. intros a' Hne. simpl. by rewrite lookup_insert_ne.
Qed.

Lemma pipe_countup_spec k C L U E a p q flags rd :
  pipes_inv k C L U E -> holds k a p q -> access_mode flags = side_mode rd ->
  side_count rd p < 2 ^ 32 - 1 ->
  let p' := set_side rd (side_count rd p + 1) p in
  exists k', pipe_countup a flags k = Ok (tt, k') /\ pipes_inv k' C L U E /\ holds k' a p' q /\
    others_kept k k' a /\ k_procs k' = k_procs k /\ k' = put_pipe_state a p' k.
Proof.
  intros HI Hh Hm Hc p'. pose proof Hh as (Ha & _).
  destruct (pi_pipes _ _ _ _ _ HI _ _ Ha) as (_ & _ & (b' & _ & _ & _ & _ & Hr & Hw)).
  assert (Hu : is_u32 (side_count rd p + 1)) by (unfold is_u32 in *; destruct rd; simpl in *; lia).
  destruct (set_side_inv _ _ _ _ _ _ _ _ rd _ HI Hh Hu) as (HI' & Hh' & Ho').
  exists (put_pipe_state a p' k). split; [|by split_and!]. unfold pipe_countup. rewrite Hm.
  destruct rd; cbn [side_mode O_RDONLY O_WRONLY Z.eqb Pos.eqb];
    (erewrite upd_pipe_ok by done; rewrite u32_small by done; done).
Qed.

(** The first half of [pipe_release]. *)
Definition release_side (rd : bool) (a : Z) : M state unit :=
  let* p := get_pipe a in
  do* SYSTEM_BUG_ON (side_count rd p =? 0) in
  do* upd_pipe a (fun p => set_side rd (u32 (side_count rd p - 1)) p) in
  let* p := get_pipe a in
  if negb (truthy (side_count rd p)) then wake_whole (other_waitq rd a) else ret tt.
(** The second half. *)
Definition release_rest (a : Z) : M state unit :=
  let* p := get_pipe a in
  if negb (truthy (pp_readers p)) && negb (truthy (pp_writers p)) then
    let page := pp_page p in
    let* pc := cache_of pipe_cache in
    do* kmem (km_obj_free pc a) in
    do* modify (fun k => set_k_pipes (delete a (k_pipes k)) k) in
    kmem (km_page_free page)
  else ret tt.

Lemma pipe_release_eq a flags rd :
  access_mode flags = side_mode rd ->
  pipe_release a flags = (do* release_side rd a in release_rest a).
Proof. intros Hm. unfold pipe_release. rewrite Hm. by destruct rd. Qed.

Lemma release_side_spec k C L U E a p q rd :
  pipes_inv k C L U E -> holds k a p q -> 0 < side_count rd p ->
  let p1 := set_side rd (side_count rd p - 1) p in
  exists k' L' E', release_side rd a k = Ok (tt, k') /\ pipes_inv k' C L' U E' /\ evolves k L k' L' /\
    others_kept k k' a /\
    holds k' a (if decide (side_count rd p = 1) then clear_sleepers rd p1 else p1) q /\
    (side_count rd p = 1 -> all_ready k' (other_sleepers rd p)).
Proof.
  intros HI Hh Hc p1. pose proof Hh as (Ha & _).
  destruct (pi_pipes _ _ _ _ _ HI _ _ Ha) as (_ & _ & (b' & _ & _ & _ & _ & Hr & Hw)).
  assert (Hu : is_u32 (side_count rd p - 1)) by (unfold is_u32 in *; destruct rd; simpl in *; lia).
  destruct (set_side_inv _ _ _ _ _ _ _ _ rd _ HI Hh Hu) as (HI1 & Hh1 & Ho1). fold p1 in HI1, Hh1, Ho1.
  set (k1 := put_pipe_state a p1 k) in *.
  assert (E1 : release_side rd a k =
    (if negb (truthy (side_count rd p - 1)) then wake_whole (other_waitq rd a) else ret tt) k1).
  { unfold release_side. mrun (get_pipe_ok _ _ _ Ha).
    rewrite (proj2 (Z.eqb_neq (side_count rd p) 0)) by lia.
    rewrite (bind_ok (SYSTEM_BUG_ON false) _ k tt k) by done.
    mrun (upd_pipe_ok k a p (fun p => set_side rd (u32 (side_count rd p - 1)) p) Ha).
    rewrite (u32_small (side_count rd p - 1)) by done. fold p1. fold (put_pipe_state a p1 k). fold k1.
    mrun (get_pipe_ok k1 a p1 (proj1 Hh1)).
    replace (side_count rd p1) with (side_count rd p - 1) by (by destruct rd). done. }
  rewrite E1. destruct (decide (side_count rd p = 1)) as [Hone|Hone].
  - rewrite Hone. change (negb (truthy (1 - 1))) with true. cbv iota.
    assert (Hq : waitq_of k1 (other_waitq rd a) = Some (other_sleepers rd p)).
    { destruct rd; simpl; by rewrite lookup_insert_eq. }
    destruct (wake_whole_spec _ _ _ _ _ _ _ HI1 Hq) as (k' & L' & E' & Ew & HI' & Hev & Hb & Hp & Hr').
    exists k', L', E'. split; [done|]. split; [done|].
    split; [eapply evolves_trans; [apply evolves_data|done]|]. split; [|split; [|done]].
    + eapply others_kept_trans; [done|]. apply others_kept_pipes; [done|]. intros a' Hne. rewrite Hp.
      destruct rd; simpl; by rewrite lookup_alter_ne.
    + destruct Hh1 as (Hp1 & b & Hb1 & Hq1). split.
      * rewrite Hp. destruct rd; simpl; by rewrite lookup_alter_eq, lookup_insert_eq.
      * exists b. rewrite Hb. by destruct rd.
  - replace (truthy (side_count rd p - 1)) with true by (symmetry; apply truthy_true; lia).
    exists k1, L, E. split; [done|]. split; [done|]. split; [apply evolves_data|]. done.
Qed.

(** The table of processes stays. *)
Definition keeps_table k k' : Prop :=
  all_processes k' = all_processes k /\ current_process k' = current_process k /\
  forall p x, k_procs k !! p = Some x -> exists x', k_procs k' !! p = Some x' /\ p_id x' = p_id x.

Lemma keeps_table_trans k1 k2 k3 : keeps_table k1 k2 -> keeps_table k2 k3 -> keeps_table k1 k3.
Proof.
  intros (A1 & A2 & A3) (B1 & B2 & B3). split_and!; [congruence|congruence|]. intros p x Hx.
  destruct (A3 p x Hx) as (y & Hy & ?). destruct (B3 p y Hy) as (z & Hz & ?). exists z. split; congruence.
Qed.

Lemma evolves_table k L k' L' : evolves k L k' L' -> keeps_table k k'.
Proof.
  intros H. split; [apply H|split; [apply H|]]. intros p x Hx.
  destruct (sched_only_lookup _ _ _ _ (ev_procs _ _ _ _ H) Hx) as (st & sp & E). by eexists.
Qed.

Lemma table_kept k k' :
  keeps_table k k' -> table_ok k -> current_process k ∈ all_processes k ->
  table_ok k' /\ current_process k' ∈ all_processes k'.
Proof.
  intros (Ha & Hc & Hp) [H1 H2] Hcur. rewrite Ha, Hc. split; [|done].
  assert (Hback : forall b x', b ∈ all_processes k -> k_procs k' !! b = Some x' ->
    exists x, k_procs k !! b = Some x /\ p_id x' = p_id x).
  { intros b x' Hb Hx'. destruct (H1 b Hb) as (x & Hx & _). destruct (Hp b x Hx) as (y & Hy & Hid).
    exists x. split; [done|]. congruence. }
  split; rewrite Ha.
  - intros b Hb. destruct (H1 b Hb) as (x & Hx & Hid & H0). destruct (Hp b x Hx) as (y & Hy & Hyid).
    exists y. split_and!; [done|lia|done].
  - intros b c x y Hb Hc' Hx Hy E. destruct (Hback b x Hb Hx) as (x0 & Hx0 & E0).
    destruct (Hback c y Hc' Hy) as (y0 & Hy0 & E1). eapply H2; try done. congruence.
Qed.

(** The pipe goes when no reference is left: its object and its page are
    given back. *)
Lemma release_free_spec k C L U E a p q :
  pipes_inv k C L U E -> holds k a p q -> pp_readers p = 0 -> pp_writers p = 0 ->
  readers_waitq p = [] -> writers_waitq p = [] ->
  exists k', release_rest a k = Ok (tt, k') /\ k_pipes k' = delete a (k_pipes k) /\
    pipes_inv k' C (fun c x => L c x /\ x <> a) (U ∖ {[pp_page p]}) E /\
    others_kept k k' a /\ keeps_table k k' /\ k_procs k' = k_procs k /\
    k_files k' = k_files k /\ k_caches k' = k_caches k.
Proof.
  intros HI (Ha & b & Hb & ->) Hr Hw Hrq Hwq.
  destruct (pi_pipes _ _ _ _ _ HI _ _ Ha) as (HLa & HU & _).
  destruct (km_obj_free_spec _ _ _ _ _ _ (pi_mem _ _ _ _ _ HI) HLa) as (m1 & E1 & HM1).
  destruct (km_page_free_spec _ _ _ _ _ HM1 HU) as (m2 & E2 & HM2).
  exists (set_k_mem m2 (set_k_pipes (delete a (k_pipes k)) k)).
  assert (Hget : forall a' p', delete a (k_pipes k) !! a' = Some p' -> a' <> a /\ k_pipes k !! a' = Some p').
  { intros a' p' [Hne H]%lookup_delete_Some. done. }
  destruct (pi_caches _ _ _ _ _ HI) as (_ & _ & _ & Hcne).
  split; [|split; [done|split; [|split; [|split; [|done]]]]].
  - unfold release_rest. mrun (get_pipe_ok _ _ _ Ha). rewrite Hr, Hw.
    change (negb (truthy 0) && negb (truthy 0)) with true. cbv iota. unfold cache_of.
    erewrite (bind_ok (gets _)) by reflexivity. mrun (kmem_ok _ _ _ _ E1).
    erewrite (bind_ok (modify _)) by reflexivity. exact (kmem_ok _ (set_k_pipes (delete a (k_pipes k)) (set_k_mem m1 k)) _ _ E2).
  - split; try apply HI.
    + exact HM2.
    + intros a' p' [Hne H]%Hget. destruct (pi_pipes _ _ _ _ _ HI _ _ H) as (? & ? & ?).
      split_and!; [done|done| |done]. apply elem_of_difference. split; [done|].
      intros Epg%elem_of_singleton. apply Hne. by eapply (pi_pages _ _ _ _ _ HI).
    + intros a1 a2 p1 p2 [_ H1]%Hget [_ H2]%Hget. by apply (pi_pages _ _ _ _ _ HI).
    + destruct (pi_waitqs _ _ _ _ _ HI) as [Hqs HE].
      assert (HnoR : forall e, E !! e <> Some (ReadersOf a)).
      { intros e He. destruct (Hqs (ReadersOf a) [] ltac:(simpl; rewrite Ha; simpl; congruence)) as (_ & Hin & _).
        apply Hin in He. simpl in He. set_solver. }
      assert (HnoW : forall e, E !! e <> Some (WritersOf a)).
      { intros e He. destruct (Hqs (WritersOf a) [] ltac:(simpl; rewrite Ha; simpl; congruence)) as (_ & Hin & _).
        apply Hin in He. simpl in He. set_solver. }
      assert (Hwait : forall qq, qq <> ReadersOf a -> qq <> WritersOf a ->
        waitq_of (set_k_mem m2 (set_k_pipes (delete a (k_pipes k)) k)) qq = waitq_of k qq).
      { intros [a'|a'| | |] H1 H2; simpl; [| |done..]; (rewrite lookup_delete_ne; [done|congruence]). }
      split.
      * intros qq l Hl. apply Hqs. rewrite <- Hwait; [done| |]; intros ->; simpl in Hl;
          by rewrite lookup_delete_eq in Hl.
      * intros e qq He. destruct (HE e qq He) as [HLe Hs]. split.
        -- split; [done|]. intros ->. apply Hcne. by eapply km_unique; [apply HI| |].
        -- rewrite Hwait; [done| |]; intros ->; [by destruct (HnoR e)|by destruct (HnoW e)].
  - split; [intros a' Hne; simpl; by rewrite lookup_delete_ne|].
    intros a' p' q' Hne (H & bb & Hbb). split; [simpl; by rewrite lookup_delete_ne|by exists bb].
  - split; [done|]. split; [done|]. intros ? ? ?. by eexists.
Qed.

Lemma release_rest_keeps k a p q :
  holds k a p q -> (pp_readers p <> 0 \/ pp_writers p <> 0) -> release_rest a k = Ok (tt, k).
Proof.
  intros (Ha & _) H. unfold release_rest. mrun (get_pipe_ok _ _ _ Ha). unfold truthy.
  rewrite !negb_involutive. destruct (Z.eqb_spec (pp_readers p) 0), (Z.eqb_spec (pp_writers p) 0); try done.
  by destruct H.
Qed.

(** [pipe_release] by the side [rd]. *)
Lemma pipe_release_spec k C L U E a p q flags rd :
  pipes_inv k C L U E -> holds k a p q -> no_dead_sleepers p ->
  access_mode flags = side_mode rd -> 0 < side_count rd p ->
  exists k' L' U' E', pipe_release a flags k = Ok (tt, k') /\ pipes_inv k' C L' U' E' /\
    others_kept k k' a /\ keeps_table k k' /\ sched_only (k_procs k) (k_procs k') /\
    k_files k' = k_files k /\ k_caches k' = k_caches k /\
    (forall c x, c <> waitq_cache (k_caches k) -> c <> context_cache (k_caches k) ->
       c <> pipe_cache (k_caches k) -> L' c x <-> L c x) /\
    (side_count rd p = 1 -> all_ready k' (other_sleepers rd p)) /\
    if decide (side_count rd p = 1 /\ side_count (negb rd) p = 0)
    then k_pipes k' !! a = None /\ U' = U ∖ {[pp_page p]} /\ ~ L' (pipe_cache (k_caches k)) a
    else U' = U /\ exists p', holds k' a p' q /\ no_dead_sleepers p' /\
      side_count rd p' = side_count rd p - 1 /\ side_count (negb rd) p' = side_count (negb rd) p.
Proof.
  intros HI Hh Hnd Hm Hc. rewrite (pipe_release_eq _ _ _ Hm).
  destruct (release_side_spec _ _ _ _ _ _ _ _ rd HI Hh Hc) as (k1 & L1 & E1 & Er & HI1 & Hev & Ho1 & Hh1 & Hr1).
  mrun Er. set (p1 := if decide _ then _ else _) in Hh1.
  assert (Hs1 : side_count rd p1 = side_count rd p - 1 /\ side_count (negb rd) p1 = side_count (negb rd) p).
  { unfold p1. destruct (decide _), rd; done. }
  assert (Hnd1 : no_dead_sleepers p1).
  { intros r. specialize (Hnd r). unfold p1. destruct (decide (side_count rd p = 1)), rd, r; simpl in *; lia || done. }
  destruct (decide (side_count rd p = 1 /\ side_count (negb rd) p = 0)) as [[H1 H2]|Hn].
  - assert (H0 : pp_readers p1 = 0 /\ pp_writers p1 = 0) by (destruct rd; simpl in *; lia).
    destruct H0 as [H0r H0w].
    destruct (release_free_spec _ _ _ _ _ _ _ _ HI1 Hh1 H0r H0w (Hnd1 false H0w) (Hnd1 true H0r))
      as (k2 & E2 & Hp2 & HI2 & Ho2 & Ht2 & Hpr2 & Hf2 & Hc2).
    assert (Hpage : pp_page p1 = pp_page p) by (unfold p1; destruct (decide _), rd; done).
    rewrite Hpage in HI2. eexists k2, _, _, _. split; [done|]. split; [exact HI2|].
    split; [by eapply others_kept_trans|].
    split; [|split; [by rewrite Hpr2; apply Hev|split; [|split; [|split; [|split]]]]].
    + by eapply keeps_table_trans, Ht2; eapply evolves_table.
    + rewrite Hf2. apply Hev.
    + rewrite Hc2. apply Hev.
    + intros c x H3 H4 H5. rewrite <- (ev_live _ _ _ _ Hev) by done. split; [by intros [? _]|].
      intros Hx. split; [done|]. intros ->. apply H5.
      eapply km_unique; [apply HI1|done|]. rewrite <- (ev_caches _ _ _ _ Hev).
      by apply (pi_pipes _ _ _ _ _ HI1 a p1), Hh1.
    + intros _ e pr Hin. rewrite Hpr2. by eapply Hr1.
    + split; [rewrite Hp2; apply lookup_delete_eq|]. split; [done|]. by intros [_ ?].
  - rewrite (release_rest_keeps k1 a p1 q Hh1).
    2: { destruct Hs1 as [Hs1 Hs2]. destruct rd; simpl in *; lia. }
    exists k1, L1, U, E1. split; [done|]. split; [done|]. split; [done|].
    split; [by eapply evolves_table|]. split; [apply Hev|]. split; [apply Hev|]. split; [apply Hev|].
    split; [intros c x ? ? _; by apply Hev|]. split; [done|]. split; [done|]. exists p1. done.
Qed.

(** ** First in, first out

    The steps of the processes that use the pipe [a]: a call of [pipe_read] or
    [pipe_write] from its start or from where it slept, a change of the running
    process, and the counting of references while the pipe exists.  With the
    state go the bytes [i] the pipe accepted and the bytes [o] it delivered. *)
Inductive pipe_step (a : Z) : state * list Z * list Z -> state * list Z * list Z -> Prop :=
| step_read k i o size bytes r k' :
    is_u32 size -> pipe_read a size [] k = Ok ((bytes, r), k') ->
    pipe_step a (k, i, o) (k', i, o ++ bytes)
| step_write k i o data w w' r k' :
    0 <= w <= Z.of_nat (length data) -> is_u32 (Z.of_nat (length data)) ->
    pipe_write a data w k = Ok ((w', r), k') ->
    pipe_step a (k, i, o) (k', i ++ take (Z.to_nat (w' - w)) (drop (Z.to_nat w) data), o)
| step_switch k i o p :
    p ∈ all_processes k -> pipe_step a (k, i, o) (set_current_process p k, i, o)
| step_countup k i o flags p k' rd :
    access_mode flags = side_mode rd -> k_pipes k !! a = Some p -> side_count rd p < 2 ^ 32 - 1 ->
    pipe_countup a flags k = Ok (tt, k') -> pipe_step a (k, i, o) (k', i, o)
| step_release k i o flags p k' rd :
    access_mode flags = side_mode rd -> k_pipes k !! a = Some p -> 0 < side_count rd p ->
    pipe_release a flags k = Ok (tt, k') -> is_Some (k_pipes k' !! a) ->
    pipe_step a (k, i, o) (k', i, o).

(** What is accepted is delivered or still in the pipe, in order. *)
Definition fifo_inv (a : Z) (s : state * list Z * list Z) : Prop :=
  let '(k, i, o) := s in
  exists C L U E p q, pipes_inv k C L U E /\ table_ok k /\ current_process k ∈ all_processes k /\
    holds k a p q /\ no_dead_sleepers p /\ i = o ++ q.

Lemma no_dead_read p p' j :
  no_dead_sleepers p -> pp_readers p' = pp_readers p -> pp_writers p' = pp_writers p ->
  readers_waitq p' = readers_waitq p -> writers_waitq p' = drop j (writers_waitq p) ->
  no_dead_sleepers p'.
Proof.
  intros H Hr Hw Hrq Hwq [] Hc; specialize (H true) as Ht; specialize (H false) as Hf; simpl in *.
  - rewrite Hwq, Ht by congruence. by rewrite drop_nil.
  - rewrite Hrq. apply Hf. congruence.
Qed.

Lemma fifo_read a k i o size bytes r k' :
  fifo_inv a (k, i, o) -> is_u32 size -> pipe_read a size [] k = Ok ((bytes, r), k') ->
  fifo_inv a (k', i, o ++ bytes).
Proof.
  intros (C & L & U & E & p & q & HI & Ht & Hcur & Hh & Hnd & ->) Hsz Er.
  pose proof (pipe_read_spec _ _ _ _ _ _ _ _ size HI Hh Hsz) as Hpost. rewrite Er in Hpost.
  unfold read_post in Hpost. destruct (decide (pp_length p = 0)).
  - destruct (decide (pp_writers p = 0)) as [|Hw].
    + injection Hpost as -> -> ->. rewrite app_nil_r. exists C, L, U, E, p, q. done.
    + destruct Hpost as [|(k1 & L' & E' & e' & [= -> -> ->] & HI' & Hev & Hh' & _)]; [done|].
      destruct (table_kept _ _ (evolves_table _ _ _ _ Hev) Ht Hcur) as [Ht' Hcur'].
      rewrite app_nil_r. eexists C, L', U, E', _, q. do 3 (split; [done|]). split; [exact Hh'|].
      split; [|done]. intros [] Hc; simpl in *; [by apply (Hnd true)|done].
  - destruct (decide _); [done|].
    destruct Hpost as (k1 & L' & E' & p' & j & [= -> -> ->] & HI' & Hev & _ & Hh' & Hr & Hw & Hrq & Hwq & _).
    destruct (table_kept _ _ (evolves_table _ _ _ _ Hev) Ht Hcur) as [Ht' Hcur'].
    exists C, L', U, E', p', (drop (Z.to_nat (Z.min size (pp_length p))) q). do 4 (split; [done|]).
    split; [by eapply no_dead_read|]. rewrite <- app_assoc. by rewrite take_drop.
Qed.

Lemma fifo_write a k i o data w w' r k' :
  fifo_inv a (k, i, o) -> 0 <= w <= Z.of_nat (length data) -> is_u32 (Z.of_nat (length data)) ->
  pipe_write a data w k = Ok ((w', r), k') ->
  fifo_inv a (k', i ++ take (Z.to_nat (w' - w)) (drop (Z.to_nat w) data), o).
Proof.
  intros (C & L & U & E & p & q & HI & Ht & Hcur & Hh & Hnd & ->) Hw Hsz Er.
  pose proof (pipe_write_spec _ _ _ _ _ _ _ _ data w HI Ht Hcur Hh Hw Hsz) as Hpost.
  rewrite Er in Hpost. unfold write_post in Hpost.
  destruct (decide (pp_readers p = 0)) as [Hr0|Hr0].
  - destruct Hpost as (x & Hx & [= -> -> ->] & HI'). rewrite Z.sub_diag, app_nil_r.
    destruct (table_kept k (set_k_procs (<[current_process k := set_p_pending
      (snd (sigaddset (p_pending x) SIGPIPE)) x]> (k_procs k)) k)) as [Ht' Hcur']; [|done|done|].
    { split; [done|]. split; [done|]. intros pr y Hy. simpl.
      destruct (decide (current_process k = pr)) as [<-|].
      - rewrite lookup_insert_eq. rewrite Hx in Hy. injection Hy as <-. by eexists.
      - rewrite lookup_insert_ne by done. eauto. }
    exists C, L, U, E, p, q. done.
  - destruct (decide (pp_length p = PAGE_SIZE)).
    + destruct Hpost as [|(k1 & L' & E' & e' & [= -> -> ->] & HI' & Hev & Hh' & _)]; [done|].
      destruct (table_kept _ _ (evolves_table _ _ _ _ Hev) Ht Hcur) as [Ht' Hcur'].
      rewrite Z.sub_diag, app_nil_r. eexists C, L', U, E', _, q. do 3 (split; [done|]).
      split; [exact Hh'|]. split; [|done]. intros [] Hc; simpl in *; [done|by apply (Hnd false)].
    + destruct Hpost as [Hpost|(k1 & L' & E' & p' & r' & j & [= -> -> ->] & HI' & Hev & _ & Hh' & Hr & Hw' & Hrq & _ & _ & Hlast)].
      { by destruct (decide _). }
      destruct (table_kept _ _ (evolves_table _ _ _ _ Hev) Ht Hcur) as [Ht' Hcur'].
      rewrite Z.add_simpl_l. eexists C, L', U, E', p', _. do 3 (split; [done|]). split; [exact Hh'|].
      split; [|by rewrite app_assoc]. intros [] Hc; simpl in *.
      * congruence.
      * rewrite Hrq. specialize (Hnd false). simpl in Hnd. rewrite Hnd by congruence. by rewrite drop_nil.
Qed.

Lemma fifo_step a s s' : pipe_step a s s' -> fifo_inv a s -> fifo_inv a s'.
Proof.
  intros Hs. destruct Hs as [k i o size bytes r k' Hsz Er|k i o data w w' r k' Hw Hsz Er|k i o p Hp
    |k i o flags p k' rd Hm Hp Hc Er|k i o flags p k' rd Hm Hp Hc Er Hk']; intros Hf.
  - by eapply fifo_read.
  - by eapply fifo_write.
  - destruct Hf as (C & L & U & E & x & q & HI & Ht & Hcur & Hh & Hnd & ->).
    exists C, L, U, E, x, q. destruct (tb_procs _ Ht p Hp) as (y & Hy & _).
    split; [split; try apply HI; by exists y|]. split; [split; apply Ht|]. done.
  - destruct Hf as (C & L & U & E & x & q & HI & Ht & Hcur & Hh & Hnd & ->).
    pose proof (proj1 Hh) as Hx. rewrite Hp in Hx. injection Hx as <-.
    destruct (pipe_countup_spec _ _ _ _ _ _ _ _ flags rd HI Hh Hm Hc) as (k1 & Er1 & HI' & Hh' & _ & Hpr & _).
    rewrite Er in Er1. injection Er1 as <-.
    assert (Hkt : keeps_table k k').
    { unfold pipe_countup in Er. rewrite Hm in Er. revert Er.
      destruct rd; cbn [side_mode O_RDONLY O_WRONLY Z.eqb Pos.eqb]; erewrite upd_pipe_ok by done;
        intros [= <-]; (split; [done|]; split; [done|]; intros ? ? ?; by eexists). }
    destruct (table_kept _ _ Hkt Ht Hcur) as [Ht' Hcur'].
    eexists C, L, U, E, _, q. do 3 (split; [done|]). split; [exact Hh'|]. split; [|done].
    intros r Hc0. specialize (Hnd r). destruct (pi_pipes _ _ _ _ _ HI _ _ Hp) as (_ & _ & (? & _ & _ & _ & _ & [? _] & [? _])).
    destruct rd, r; simpl in *; lia || auto.
  - destruct Hf as (C & L & U & E & x & q & HI & Ht & Hcur & Hh & Hnd & ->).
    pose proof (proj1 Hh) as Hx. rewrite Hp in Hx. injection Hx as <-.
    destruct (pipe_release_spec _ _ _ _ _ _ _ _ flags rd HI Hh Hnd Hm Hc)
      as (k1 & L' & U' & E' & Er1 & HI' & _ & Hkt & _ & _ & _ & _ & _ & Hcase).
    rewrite Er in Er1. injection Er1 as <-. destruct (table_kept _ _ Hkt Ht Hcur) as [Ht' Hcur'].
    destruct (decide _) as [|]; [destruct Hcase as [Hnone _]; rewrite Hnone in Hk'; by destruct Hk'|].
    destruct Hcase as (-> & p' & Hh' & Hnd' & _). exists C, L', U, E', p', q. done.
Qed.

Lemma fifo_steps a s s' : rtc (pipe_step a) s s' -> fifo_inv a s -> fifo_inv a s'.
Proof. induction 1; [done|]. intros Hf. apply IHrtc. by eapply fifo_step. Qed.
End PipeSpecs.

(** ** A small kernel, for the witnesses

    One running process and one pipe, whose three bytes wrap around the end of
    its page. *)
Definition sample_proc : process :=
  Process 1 0x2000 [] STATE_READY 0 (Context 0 [] 0 0 0) 0 [] 0 0 [] [] (Sigset 0 0) (Sigset 0 0) [].
Definition sample_pipe : pipe := Pipe 0 4094 3 1 1 [] [].
Definition zero_pages : gmap Z (list Z) :=
  list_to_map ((fun i => (i, replicate 4096 0)) <$> seqZ 0 PAGE_NUM).
Definition sample_kernel : kernel bump :=
  Kernel (Bump 0x10000 1) (KernelCaches 1 2 3 4 5) {[0x3000 := sample_pipe]} zero_pages ∅
    {[0x2000 := sample_proc]} [0x2000] [] [] 0x2000 2 [] [] [].
Definition sample_live (c a : Z) : Prop := c = 5 /\ a = 0x3000.
Definition sample_sizes : gmap Z Z := {[5 := 40; 3 := 12; 4 := 68]}.

Lemma zero_page i : 0 <= i < PAGE_NUM -> zero_pages !! i = Some (replicate 4096 0).
Proof. apply lookup_seq_map. Qed.

Lemma sample_pipes_inv : pipes_inv sample_kernel sample_sizes sample_live {[0]} ∅.
Proof.
  assert (Hp : forall a p, k_pipes sample_kernel !! a = Some p -> a = 0x3000 /\ p = sample_pipe).
  { intros a p Hp. change (({[0x3000 := sample_pipe]} : gmap Z pipe) !! a = Some p) in Hp.
    apply lookup_singleton_Some in Hp as [<- <-]. done. }
  split.
  - split_and!; try done.
    + by intros c a [_ ->].
    + by intros c c' a [-> _] [-> _].
    + by intros i ->%elem_of_singleton.
  - split_and!; [by eexists|by eexists|by eexists|done].
  - intros a p [-> ->]%Hp. split_and!; [done|set_solver|]. exists (replicate 4096 0).
    split; [by apply zero_page|]. split_and!; done.
  - intros a a' p p' [-> _]%Hp [-> _]%Hp. done.
  - split; [|intros e q He; by rewrite lookup_empty in He].
    assert (Hnil : forall q l, waitq_of sample_kernel q = Some l -> l = []).
    { intros [a|a| | |] l; simpl; [| |by intros [= <-]..];
        (destruct (decide (a = 0x3000)) as [->|]; [by intros [= <-]|by rewrite lookup_singleton_ne]). }
    intros q l ->%Hnil. split_and!; [constructor| |].
    + intros e. rewrite lookup_empty. split; [|done]. intros H. by apply not_elem_of_nil in H.
    + intros e p H. by apply not_elem_of_nil in H.
  - by eexists.
  - intros i Hi. eexists. split; [by apply zero_page|done].
Qed.

Lemma sample_table : table_ok sample_kernel /\ current_process sample_kernel ∈ all_processes sample_kernel.
Proof.
  split; [split|simpl; set_solver].
  - intros a Ha. assert (a = 0x2000) as -> by (simpl in Ha; set_solver). by eexists.
  - intros a b x y Ha Hb _ _ _. simpl in Ha, Hb. set_solver.
Qed.

Lemma sample_holds : holds sample_kernel 0x3000 sample_pipe [0; 0; 0].
Proof. split; [done|]. exists (replicate 4096 0). split; [by apply zero_page|reflexivity]. Qed.

Lemma sample_fifo : fifo_inv 0x3000 (sample_kernel, [0; 0; 0], []).
Proof.
  destruct sample_table as [Ht Hc].
  exists sample_sizes, sample_live, {[0]}, ∅, sample_pipe, [0; 0; 0].
  split; [apply sample_pipes_inv|]. split; [done|]. split; [done|]. split; [apply sample_holds|].
  split; [|done]. by intros [] Hc'.
Qed.

(** ** Properties *)

(** C7: a pipe is first in, first out, whatever the interleaving of its readers
    and writers: at every reachable state the bytes accepted by [pipe_write] are
    the bytes delivered by [pipe_read] followed by those in the page, in order.
    No byte is lost, duplicated or reordered, and nobody sleeps on a pipe whose
    other end is closed. *)
Theorem pipe_fifo {S : Type} `{KernelMem S} (a : Z) (k k' : kernel S) (i o i' o' : list Z) :
  fifo_inv a (k, i, o) -> rtc (pipe_step a) (k, i, o) (k', i', o') ->
  exists p q, holds k' a p q /\ i' = o' ++ q /\ no_dead_sleepers p.
Proof.
  intros Hf Hs. destruct (fifo_steps _ _ _ Hs Hf) as (C & L & U & E & p & q & _ & _ & _ & Hh & Hn & Hq).
  eauto.
Qed.

Theorem pipe_fifo_witness :
  exists k', pipe_read 0x3000 2 [] sample_kernel = Ok (([0; 0], Some 2), k') /\
    exists p q, holds k' 0x3000 p q /\ [0; 0; 0] = ([] ++ [0; 0]) ++ q /\ no_dead_sleepers p.
Proof.
  pose proof (pipe_read_spec _ _ _ _ _ _ _ _ 2 sample_pipes_inv sample_holds ltac:(done)) as Hr.
  unfold read_post in Hr. destruct (decide (pp_length sample_pipe = 0)) as [H0|_]; [discriminate H0|].
  destruct (decide (2 = 0 /\ pp_length sample_pipe = PAGE_SIZE)) as [[H0 _]|_]; [discriminate H0|].
  destruct Hr as (k' & _ & _ & _ & _ & Er & _). exists k'. split; [exact Er|].
  apply (pipe_fifo 0x3000 sample_kernel k' [0; 0; 0] [] [0; 0; 0] ([] ++ [0; 0]) sample_fifo).
  apply rtc_once. exact (step_read 0x3000 sample_kernel [0; 0; 0] [] 2 [0; 0] (Some 2) k'
    ltac:(unfold is_u32; lia) Er).
Defined.

(** C8: [pipe_read] on every branch.  On an empty pipe it returns 0 when there
    is no writer and otherwise puts the caller to sleep among the readers.  With
    data it ends and returns the first [min size length] bytes, removes exactly
    these, and wakes one or two of the sleeping writers.  It stops the kernel
    only when the request is empty and the page full, or when no memory is left
    to sleep.  The other pipes keep their data. *)
Theorem pipe_read_correct {S : Type} `{KernelMem S} (k : kernel S) (C : gmap Z Z)
    (L : Z -> Z -> Prop) (U : gset Z) (E : gmap Z waitq) (a : Z) (p : pipe) (q : list Z) (size : Z) :
  pipes_inv k C L U E -> holds k a p q -> is_u32 size ->
  read_post k C L U a p q size (pipe_read a size [] k).
Proof. apply pipe_read_spec. Qed.

Theorem pipe_read_correct_witness :
  read_post sample_kernel sample_sizes sample_live {[0]} 0x3000 sample_pipe [0; 0; 0] 2
    (pipe_read 0x3000 2 [] sample_kernel).
Proof.
  apply (pipe_read_correct sample_kernel sample_sizes sample_live {[0]} ∅).
  - exact sample_pipes_inv.
  - exact sample_holds.
  - done.
Defined.

(** C9: [pipe_write] on every branch.  Without readers the caller gets
    [SIGPIPE] and [-EPIPE].  On a full pipe the caller sleeps among the writers.
    Otherwise as many bytes as fit are appended, one or two sleeping readers are
    woken, and the call returns the size when all bytes were taken; if not, the
    page is full, the caller sleeps, and the count of bytes taken is kept for
    when it goes on. *)
Theorem pipe_write_correct {S : Type} `{KernelMem S} (k : kernel S) (C : gmap Z Z)
    (L : Z -> Z -> Prop) (U : gset Z) (E : gmap Z waitq) (a : Z) (p : pipe) (q data : list Z) (w : Z) :
  pipes_inv k C L U E -> table_ok k -> current_process k ∈ all_processes k ->
  holds k a p q -> 0 <= w <= Z.of_nat (length data) -> is_u32 (Z.of_nat (length data)) ->
  write_post k C L U E a p q data w (pipe_write a data w k).
Proof. apply pipe_write_spec. Qed.

Theorem pipe_write_correct_witness :
  write_post sample_kernel sample_sizes sample_live {[0]} ∅ 0x3000 sample_pipe [0; 0; 0] [7; 8] 0
    (pipe_write 0x3000 [7; 8] 0 sample_kernel).
Proof.
  apply (pipe_write_correct sample_kernel sample_sizes sample_live {[0]} ∅).
  - exact sample_pipes_inv.
  - apply sample_table.
  - apply sample_table.
  - exact sample_holds.
  - simpl. lia.
  - done.
Defined.

(** [pipe_release] drops one reference of a side.  When it was the last of
    that side every process sleeping on the other side is made ready; when it
    was the last of all, the pipe's object and its page go back to the
    allocators; otherwise the pipe and its data stay.  The other pipes keep
    their data. *)
Theorem pipe_release_correct {S : Type} `{KernelMem S} (k : kernel S) (C : gmap Z Z)
    (L : Z -> Z -> Prop) (U : gset Z) (E : gmap Z waitq) (a : Z) (p : pipe) (q : list Z) (flags : Z) (rd : bool) :
  pipes_inv k C L U E -> holds k a p q -> no_dead_sleepers p ->
  access_mode flags = side_mode rd -> 0 < side_count rd p ->
  exists k' L' U' E', pipe_release a flags k = Ok (tt, k') /\ pipes_inv k' C L' U' E' /\
    others_kept k k' a /\ keeps_table k k' /\ sched_only (k_procs k) (k_procs k') /\
    k_files k' = k_files k /\ k_caches k' = k_caches k /\
    (forall c x, c <> waitq_cache (k_caches k) -> c <> context_cache (k_caches k) ->
       c <> pipe_cache (k_caches k) -> L' c x <-> L c x) /\
    (side_count rd p = 1 -> all_ready k' (other_sleepers rd p)) /\
    if decide (side_count rd p = 1 /\ side_count (negb rd) p = 0)
    then k_pipes k' !! a = None /\ U' = U ∖ {[pp_page p]} /\ ~ L' (pipe_cache (k_caches k)) a
    else U' = U /\ exists p', holds k' a p' q /\ no_dead_sleepers p' /\
      side_count rd p' = side_count rd p - 1 /\ side_count (negb rd) p' = side_count (negb rd) p.
Proof. apply pipe_release_spec. Qed.

Theorem pipe_release_correct_witness :
  exists k', pipe_release 0x3000 O_WRONLY sample_kernel = Ok (tt, k').
Proof.
  destruct (pipe_release_correct sample_kernel sample_sizes sample_live {[0]} ∅ 0x3000 sample_pipe
    [0; 0; 0] O_WRONLY false) as (k' & _ & _ & _ & E & _).
  - exact sample_pipes_inv.
  - exact sample_holds.
  - by intros [] Hc.
  - reflexivity.
  - simpl. lia.
  - by exists k'.
Defined.
