(* ===== verification/Files.v ===== *)
(** * Open files: model

    The file descriptors of [process.c]: the tables of the processes, the
    reference counts of the open files and of the pipes behind them.  A
    descriptor table is a list of [MAX_FD_SIZE] file addresses, 0 for [NULL].
    The proofs are in [FilesProofs]. *)

From stdpp Require Import base numbers list gmap.
From S2P Require Import Prelude Arith Signal Buddy KernelMem Unix Kernel Pipe.

#[local] Open Scope Z_scope.
#[local] Open Scope kernel_scope.

Definition FILE_STATUS_FLAGS : Z :=
  Z.lor O_APPEND (Z.lor O_ASYNC (Z.lor O_DIRECT (Z.lor O_DSYNC (Z.lor O_NOATIME (Z.lor O_NONBLOCK O_SYNC))))).
Definition PIPE2_FLAGS : Z := Z.lor O_CLOEXEC (Z.lor O_DIRECT O_NONBLOCK).

Section Files.
Context {S : Type} `{KM : KernelMem S}.
Notation state := (kernel S).
(** The address of the static [terminal_config]. *)
Context (terminal_config : Z).

(** [p->files[i]], read and written. *)
Definition get_fd (p i : Z) : M state Z :=
  let* x := get_proc p in opt Fault (p_files x !! Z.to_nat i).
Definition set_fd (p i file : Z) : M state unit :=
  let* _ := get_fd p i in
  upd_proc p (fun x => set_p_files (<[Z.to_nat i := file]> (p_files x)) x).
(** The bits of [close_on_exec]. *)
Definition cloexec_add (p i : Z) : M state unit :=
  let* x := get_proc p in
  let* b := opt Fault (bitset_add (p_close_on_exec x) i) in
  put_proc p (set_p_close_on_exec b x).
Definition cloexec_remove (p i : Z) : M state unit :=
  let* x := get_proc p in
  let* b := opt Fault (bitset_remove (p_close_on_exec x) i) in
  put_proc p (set_p_close_on_exec b x).
Definition cloexec_test (p i : Z) : M state Z :=
  let* x := get_proc p in opt Fault (bitset_test (p_close_on_exec x) i).

(** The loop of [alloc_file]. *)
Fixpoint alloc_file_loop (n : nat) (p i : Z) : M state Z :=
  match n with
  | O => ret (- EMFILE)
  | Datatypes.S n =>
      let* f := get_fd p i in
      if f =? 0 then
        let* fc := cache_of file_cache in
        let* file := kmem (km_obj_alloc fc) in
        do* put_file_obj file (File FF_UNUSED 0 0 0 0) in
        do* upd_file_obj file (set_f_count 1) in
        do* set_fd p i file in
        ret i
      else alloc_file_loop n p (i + 1)
  end.
Definition alloc_file (p : Z) : M state Z := alloc_file_loop (Z.to_nat MAX_FD_SIZE) p 0.

Definition release_file (file : Z) : M state unit :=
  let* f := get_file_obj file in
  do* SYSTEM_BUG_ON (f_count f =? 0) in
  do* upd_file_obj file (fun f => set_f_count (u32 (f_count f - 1)) f) in
  let* f := get_file_obj file in
  do* match f_type f with
      | FF_PIPE => pipe_release (f_ptr f) (f_flags f)
      | _ => ret tt
      end in
  let* f := get_file_obj file in
  if negb (truthy (f_count f)) then
    let* fc := cache_of file_cache in
    do* kmem (km_obj_free fc file) in
    modify (fun k => set_k_files (delete file (k_files k)) k)
  else ret tt.

Definition countup_file (file : Z) : M state unit :=
  do* upd_file_obj file (fun f => set_f_count (u32 (f_count f + 1)) f) in
  let* f := get_file_obj file in
  match f_type f with
  | FF_PIPE => pipe_countup (f_ptr f) (f_flags f)
  | _ => ret tt
  end.

Definition create_tty (p : Z) : M state Z :=
  let* fd := alloc_file p in
  if fd <? 0 then ret fd
  else
    let* file := get_fd p fd in
    do* upd_file_obj file (set_f_type FF_TTY) in
    do* upd_file_obj file (set_f_ptr terminal_config) in
    do* upd_file_obj file (set_f_flags O_RDWR) in
    ret 0.

Definition get_file (fd : Z) : M state Z :=
  if (fd <? 0) || (MAX_FD_SIZE <=? fd) then ret 0
  else let* cur := gets current_process in get_fd cur fd.

Definition process_close (fd : Z) : M state Z :=
  let* file := get_file fd in
  if file =? 0 then ret (- EBADF)
  else
    do* release_file file in
    let* cur := gets current_process in
    do* set_fd cur fd 0 in
    do* cloexec_remove cur fd in
    ret 0.

(** The loop of [process_dupfd]. *)
Fixpoint dupfd_loop (n : nat) (file i flags : Z) : M state Z :=
  match n with
  | O => ret (- EMFILE)
  | Datatypes.S n =>
      let* cur := gets current_process in
      let* f := get_fd cur i in
      if f =? 0 then
        do* countup_file file in
        do* (if truthy (Z.land flags O_CLOEXEC) then cloexec_add cur i else ret tt) in
        do* set_fd cur i file in
        ret i
      else dupfd_loop n file (i + 1) flags
  end.
Definition process_dupfd (fd from flags : Z) : M state Z :=
  let* file := get_file fd in
  if file =? 0 then ret (- EBADF)
  else if (from <? 0) || (MAX_FD_SIZE <=? from) then ret (- EINVAL)
  else dupfd_loop (Z.to_nat (MAX_FD_SIZE - from)) file from flags.

Definition process_dup2 (oldfd newfd : Z) : M state Z :=
  let* file := get_file oldfd in
  if file =? 0 then ret (- EBADF)
  else if (newfd <? 0) || (MAX_FD_SIZE <=? newfd) then ret (- EBADF)
  else if oldfd =? newfd then ret newfd
  else
    let* cur := gets current_process in
    let* f := get_fd cur newfd in
    let* _ := (if truthy f then process_close newfd else ret 0) in
    do* countup_file file in
    do* set_fd cur newfd file in
    ret newfd.

Definition process_dup3 (oldfd newfd flags : Z) : M state Z :=
  let* file := get_file oldfd in
  if file =? 0 then ret (- EBADF)
  else if (newfd <? 0) || (MAX_FD_SIZE <=? newfd) then ret (- EBADF)
  else if oldfd =? newfd then ret (- EINVAL)
  else
    let* cur := gets current_process in
    let* f := get_fd cur newfd in
    let* _ := (if truthy f then process_close newfd else ret 0) in
    do* countup_file file in
    do* (if truthy (Z.land flags O_CLOEXEC) then cloexec_add cur newfd else ret tt) in
    do* set_fd cur newfd file in
    ret newfd.

(** The second component is what the call stores through [pipefd]. *)
Definition process_pipe2 (flags : Z) : M state (Z * option (Z * Z)) :=
  if truthy (Z.land flags (not32 PIPE2_FLAGS)) then ret (- EINVAL, None)
  else
    let* cur := gets current_process in
    let* rfd := alloc_file cur in
    if rfd <? 0 then ret (rfd, None)
    else
      let* wfd := alloc_file cur in
      if wfd <? 0 then let* _ := process_close rfd in ret (wfd, None)
      else
        let* pipe := pipe_create in
        let* rfile := get_fd cur rfd in
        let* wfile := get_fd cur wfd in
        do* upd_file_obj wfile (set_f_type FF_PIPE) in
        do* upd_file_obj rfile (set_f_type FF_PIPE) in
        do* upd_file_obj wfile (set_f_ptr pipe) in
        do* upd_file_obj rfile (set_f_ptr pipe) in
        do* upd_file_obj rfile
              (set_f_flags (Z.lor (Z.lor O_RDONLY O_APPEND) (Z.land flags PIPE2_FLAGS))) in
        do* upd_file_obj wfile
              (set_f_flags (Z.lor (Z.lor O_WRONLY O_APPEND) (Z.land flags PIPE2_FLAGS))) in
        do* (if truthy (Z.land flags O_CLOEXEC)
             then do* cloexec_add cur rfd in cloexec_add cur wfd else ret tt) in
        ret (0, Some (rfd, wfd)).

Definition process_fcntl64 (fd cmd arg : Z) : M state Z :=
  let* file := get_file fd in
  if file =? 0 then ret (- EBADF)
  else
    let* cur := gets current_process in
    if cmd =? F_DUPFD then process_dupfd fd (s32 arg) 0
    else if cmd =? F_GETFD then
      let* b := cloexec_test cur fd in ret (if truthy b then FD_CLOEXEC else 0)
    else if cmd =? F_SETFD then
      do* (if truthy (Z.land arg FD_CLOEXEC) then cloexec_add cur fd else cloexec_remove cur fd) in
      ret 0
    else if cmd =? F_GETFL then
      let* f := get_file_obj file in
      ret (Z.land (f_flags f) (Z.lor FILE_STATUS_FLAGS O_ACCMODE))
    else if cmd =? F_SETFL then
      do* upd_file_obj file (fun f =>
            set_f_flags (Z.lor (Z.land arg FILE_STATUS_FLAGS) (Z.land (f_flags f) O_ACCMODE)) f) in
      ret 0
    else ret (- EINVAL).

(** The loops over the whole table in [process_fork], [process_exec] and
    [process_exit]. *)
Fixpoint fork_files (n : nat) (p i : Z) : M state unit :=
  match n with
  | O => ret tt
  | Datatypes.S n =>
      let* f := get_fd p i in
      do* (if truthy f then countup_file f else ret tt) in
      fork_files n p (i + 1)
  end.
Fixpoint exec_files (n : nat) (p i : Z) : M state unit :=
  match n with
  | O => ret tt
  | Datatypes.S n =>
      let* f := get_fd p i in
      let* b := (if truthy f then cloexec_test p i else ret 0) in
      do* (if truthy f && truthy b then
             do* release_file f in
             do* set_fd p i 0 in
             cloexec_remove p i
           else ret tt) in
      exec_files n p (i + 1)
  end.
Fixpoint exit_files (n : nat) (p i : Z) : M state unit :=
  match n with
  | O => ret tt
  | Datatypes.S n =>
      let* f := get_fd p i in
      do* (if truthy f then do* set_fd p i 0 in release_file f else ret tt) in
      exit_files n p (i + 1)
  end.
End Files.
