(* ===== verification/FilesProofs.v ===== *)
(** * Open files: proofs

    The reference counts of the open files and of the pipes are right: a file's
    count is the number of descriptors that refer to it, and a pipe's readers
    and writers are the references of its two kinds of files.  The invariant
    [files_inv] is relative to the descriptor tables [T] and to a list [D] of
    references that are in no table, because a running operation holds them. *)

From stdpp Require Import base numbers list gmap.
From S2P Require Import Prelude Arith Signal Buddy BuddyProofs PageAlloc KernelMem Unix Kernel Pipe PipeProofs PipeSpecs Files.

#[local] Open Scope Z_scope.
#[local] Open Scope kernel_scope.

(** ** Counting *)
Definition refs (T : gmap Z (list Z)) (f : Z) : Z := msum (fun _ l => occ f l) T.

(** A file that is the side [rd] of the pipe [a]. *)
Definition on_side (a : Z) (rd : bool) (fl : file) : Prop :=
  f_type fl = FF_PIPE /\ f_ptr fl = a /\ access_mode (f_flags fl) = side_mode rd.
#[export] Instance on_side_dec a rd fl : Decision (on_side a rd fl).
Proof. unfold on_side. apply _. Defined.

Definition pipe_refs (fs : gmap Z file) (a : Z) (rd : bool) : Z :=
  msum (fun _ fl => if decide (on_side a rd fl) then f_count fl else 0) fs.

Lemma refs_nonneg T f : 0 <= refs T f.
Proof. apply msum_nonneg. intros. apply occ_nonneg. Qed.

Lemma refs_update T f p l i x y :
  T !! p = Some l -> l !! i = Some x ->
  refs (<[p := <[i := y]> l]> T) f =
    refs T f - (if decide (f = x) then 1 else 0) + (if decide (f = y) then 1 else 0).
Proof.
  intros Hp Hi. unfold refs. rewrite (msum_update _ _ _ _ _ Hp), (occ_insert _ _ _ _ _ Hi). lia.
Qed.

Lemma refs_pos T f p l : T !! p = Some l -> f ∈ l -> 0 < refs T f.
Proof.
  intros Hp Hf. unfold refs. rewrite (msum_delete _ _ _ _ Hp). apply occ_in in Hf.
  pose proof (refs_nonneg (delete p T) f). unfold refs in *. lia.
Qed.

(** All references together. *)
Lemma refs_total T (fs : gmap Z file) D :
  (forall p l, T !! p = Some l -> Z.of_nat (length l) = MAX_FD_SIZE) ->
  msum (fun f _ => refs T f + occ f D) fs <= MAX_FD_SIZE * Z.of_nat (size T) + Z.of_nat (length D).
Proof.
  intros HT. rewrite msum_add. pose proof (occ_keys fs D).
  assert (msum (fun f (_ : file) => refs T f) fs <= MAX_FD_SIZE * Z.of_nat (size T)); [|lia].
  unfold refs. rewrite (msum_swap (fun f (_ : file) (_ : Z) l => occ f l)).
  induction T as [|p l T Hp IH] using map_ind; [rewrite msum_empty, map_size_empty; lia|].
  rewrite msum_insert, map_size_insert_None by done.
  pose proof (occ_keys fs l). rewrite (HT p l) in * by apply lookup_insert_eq.
  assert (msum (fun (_ : Z) y => msum (fun i _ => occ i y) fs) T <= MAX_FD_SIZE * Z.of_nat (size T)); [|lia].
  apply IH. intros p' l' Hp'. apply (HT p'). rewrite lookup_insert_ne; [done|congruence].
Qed.

Lemma pipe_refs_le fs a rd (g : Z -> file -> Z) :
  (forall f fl, fs !! f = Some fl -> 0 <= f_count fl <= g f fl) -> pipe_refs fs a rd <= msum g fs.
Proof.
  intros H. apply msum_le. intros f fl Hf. specialize (H f fl Hf). destruct (decide _); lia.
Qed.

Lemma pipe_refs_update fs a rd f fl fl' :
  fs !! f = Some fl ->
  pipe_refs (<[f := fl']> fs) a rd =
    pipe_refs fs a rd - (if decide (on_side a rd fl) then f_count fl else 0)
                      + (if decide (on_side a rd fl') then f_count fl' else 0).
Proof. intros H. unfold pipe_refs. by rewrite (msum_update _ _ _ _ _ H). Qed.

Lemma pipe_refs_in fs a rd f fl :
  (forall g fl, fs !! g = Some fl -> 0 <= f_count fl) ->
  fs !! f = Some fl -> on_side a rd fl -> f_count fl <= pipe_refs fs a rd.
Proof.
  intros Hpos Hf Hs. unfold pipe_refs. rewrite (msum_delete _ _ _ _ Hf), decide_True by done.
  assert (0 <= msum (fun _ fl => if decide (on_side a rd fl) then f_count fl else 0) (delete f fs)); [|lia].
  apply msum_nonneg. intros g fl' [_ Hg]%lookup_delete_Some. specialize (Hpos g fl' Hg).
  destruct (decide _); lia.
Qed.

(** One reference less or more to the file [f]. *)
Definition side_delta (fl : file) (a : Z) (rd : bool) : Z := if decide (on_side a rd fl) then 1 else 0.

Definition dropped (f : Z) (fl : file) (fs : gmap Z file) : gmap Z file :=
  if decide (f_count fl = 1) then delete f fs else <[f := set_f_count (f_count fl - 1) fl]> fs.

Lemma pipe_refs_dropped fs a rd f fl :
  fs !! f = Some fl -> pipe_refs (dropped f fl fs) a rd = pipe_refs fs a rd - side_delta fl a rd.
Proof.
  intros Hf. unfold dropped, side_delta. destruct (decide (f_count fl = 1)) as [H1|H1].
  - unfold pipe_refs. rewrite (msum_delete _ _ _ _ Hf). destruct (decide (on_side _ _ fl)); lia.
  - rewrite (pipe_refs_update _ _ _ _ _ _ Hf).
    destruct (decide (on_side a rd fl)) as [Hs|Hs], (decide (on_side a rd (set_f_count _ fl))) as [Hs'|Hs'];
      simpl; first [lia | by destruct Hs | by destruct Hs'].
Qed.

Lemma pipe_refs_added fs a rd f fl :
  fs !! f = Some fl ->
  pipe_refs (<[f := set_f_count (f_count fl + 1) fl]> fs) a rd = pipe_refs fs a rd + side_delta fl a rd.
Proof.
  intros Hf. unfold side_delta. rewrite (pipe_refs_update _ _ _ _ _ _ Hf).
  destruct (decide (on_side a rd fl)) as [Hs|Hs], (decide (on_side a rd (set_f_count _ fl))) as [Hs'|Hs'];
    simpl; first [lia | by destruct Hs | by destruct Hs'].
Qed.

Lemma side_mode_inj rd rd' : side_mode rd = side_mode rd' -> rd = rd'.
Proof. by destruct rd, rd'. Qed.

Section FilesProofs.
Context {S : Type} `{KM : KernelMem S}.
Notation state := (kernel S).
Implicit Types (k : state) (C : gmap Z Z) (L : Z -> Z -> Prop) (U : gset Z)
  (T : gmap Z (list Z)) (D : list Z).

Record files_inv k C L U (E : gmap Z waitq) T D : Prop := {
  fi_pipes : pipes_inv k C L U E;
  fi_cache : is_Some (C !! file_cache (k_caches k)) /\
    file_cache (k_caches k) <> pipe_cache (k_caches k) /\
    file_cache (k_caches k) <> waitq_cache (k_caches k) /\
    file_cache (k_caches k) <> context_cache (k_caches k);
  fi_tables : forall p l, T !! p = Some l -> Z.of_nat (length l) = MAX_FD_SIZE;
  fi_count : forall f fl, k_files k !! f = Some fl ->
    f <> 0 /\ L (file_cache (k_caches k)) f /\ f_count fl = refs T f + occ f D /\ 0 < f_count fl;
  fi_valid : forall f, f <> 0 -> 0 < refs T f + occ f D -> is_Some (k_files k !! f);
  fi_hand : 0 ∉ D;
  fi_live : forall f, L (file_cache (k_caches k)) f -> is_Some (k_files k !! f);
  fi_pipe_file : forall f fl, k_files k !! f = Some fl -> f_type fl = FF_PIPE ->
    exists rd p, access_mode (f_flags fl) = side_mode rd /\ k_pipes k !! f_ptr fl = Some p;
  fi_pipe_count : forall a p rd, k_pipes k !! a = Some p ->
    side_count rd p = pipe_refs (k_files k) a rd;
  fi_pipe : forall a p, k_pipes k !! a = Some p ->
    no_dead_sleepers p /\ 0 < side_count true p + side_count false p;
  fi_bound : MAX_FD_SIZE * Z.of_nat (size T) + Z.of_nat (length D) < 2 ^ 31;
}.

(** The tables [T] are those of the processes. *)
Definition synced k T : Prop := p_files <$> k_procs k = T.

Lemma fi_count_nonneg k C L U E T D f fl :
  files_inv k C L U E T D -> k_files k !! f = Some fl -> 0 <= f_count fl.
Proof. intros HI Hf. destruct (fi_count _ _ _ _ _ _ _ HI f fl Hf) as (_ & _ & _ & ?). lia. Qed.

(** No counter comes near its width. *)
Lemma fi_small k C L U E T D a rd :
  files_inv k C L U E T D -> pipe_refs (k_files k) a rd < 2 ^ 31.
Proof.
  intros HI. eapply Z.le_lt_trans; [|apply (fi_bound _ _ _ _ _ _ _ HI)].
  etransitivity; [|apply (refs_total T (k_files k) D), HI].
  apply pipe_refs_le. intros f fl Hf. destruct (fi_count _ _ _ _ _ _ _ HI f fl Hf) as (_ & _ & ? & ?). lia.
Qed.

Lemma fi_count_small k C L U E T D f fl :
  files_inv k C L U E T D -> k_files k !! f = Some fl -> f_count fl < 2 ^ 31.
Proof.
  intros HI Hf. eapply Z.le_lt_trans; [|apply (fi_bound _ _ _ _ _ _ _ HI)].
  etransitivity; [|apply (refs_total T {[f := fl]} D), HI].
  destruct (fi_count _ _ _ _ _ _ _ HI f fl Hf) as (_ & _ & -> & _).
  rewrite <- insert_empty, msum_insert, msum_empty by apply lookup_empty. lia.
Qed.

(** A reference in hand is to an open file. *)
Lemma fi_in_hand k C L U E T D f :
  files_inv k C L U E T D -> f ∈ D -> f <> 0 /\ exists fl, k_files k !! f = Some fl.
Proof.
  intros HI Hf. assert (f <> 0) by (intros ->; by apply (fi_hand _ _ _ _ _ _ _ HI)). split; [done|].
  apply (fi_valid _ _ _ _ _ _ _ HI); [done|]. apply occ_in in Hf. pose proof (refs_nonneg T f). lia.
Qed.

(** So is a descriptor in use. *)
Lemma fi_in_table k C L U E T D p l i f :
  files_inv k C L U E T D -> T !! p = Some l -> l !! i = Some f -> f <> 0 ->
  exists fl, k_files k !! f = Some fl.
Proof.
  intros HI Hp Hi Hf. apply (fi_valid _ _ _ _ _ _ _ HI); [done|].
  pose proof (refs_pos T f p l Hp (list_elem_of_lookup_2 _ _ _ Hi)). pose proof (occ_nonneg f D). lia.
Qed.

Lemma pipes_inv_files k C L U E m : pipes_inv k C L U E -> pipes_inv (set_k_files m k) C L U E.
Proof. intros HI. split; apply HI. Qed.

Lemma get_file_obj_ok k f fl : k_files k !! f = Some fl -> get_file_obj f k = Ok (fl, k).
Proof. intros H. unfold get_file_obj. mred. by rewrite H. Qed.
Lemma upd_file_obj_ok k f fl g :
  k_files k !! f = Some fl ->
  upd_file_obj f g k = Ok (tt, set_k_files (<[f := g fl]> (k_files k)) k).
Proof. intros H. unfold upd_file_obj. by mrun (get_file_obj_ok _ _ _ H). Qed.

Lemma sched_only_files m m' : sched_only m m' -> p_files <$> m' = p_files <$> m.
Proof.
  intros H. apply map_eq. intros p. rewrite !lookup_fmap. specialize (H p).
  destruct (m !! p) as [x|]; [destruct H as (st & sp & ->); done|by rewrite H].
Qed.

(** ** Moving references between the tables and the hands of an operation *)
Lemma files_inv_rebalance k C L U E T D T' D' :
  files_inv k C L U E T D ->
  (forall f, f <> 0 -> refs T' f + occ f D' = refs T f + occ f D) ->
  (forall p l, T' !! p = Some l -> Z.of_nat (length l) = MAX_FD_SIZE) -> 0 ∉ D' ->
  MAX_FD_SIZE * Z.of_nat (size T') + Z.of_nat (length D') < 2 ^ 31 ->
  files_inv k C L U E T' D'.
Proof.
  intros HI Hr Hl Hh Hb. split; try apply HI; try done.
  - intros f fl Hf. destruct (fi_count _ _ _ _ _ _ _ HI f fl Hf) as (H1 & H2 & H3 & H4).
    rewrite (Hr f H1). done.
  - intros f Hf. rewrite (Hr f Hf). by apply HI.
Qed.

Lemma table_lengths_insert T p l l' :
  (forall p l, T !! p = Some l -> Z.of_nat (length l) = MAX_FD_SIZE) ->
  T !! p = Some l -> length l' = length l ->
  forall q m, <[p := l']> T !! q = Some m -> Z.of_nat (length m) = MAX_FD_SIZE.
Proof.
  intros HT Hp Hl q m. destruct (decide (p = q)) as [<-|].
  - rewrite lookup_insert_eq. intros [= <-]. rewrite Hl. by apply (HT p).
  - rewrite lookup_insert_ne by done. apply HT.
Qed.

Lemma ghost_take k C L U E T D p l i f :
  files_inv k C L U E T D -> T !! p = Some l -> l !! i = Some f -> f <> 0 ->
  MAX_FD_SIZE * Z.of_nat (size T) + Z.of_nat (length D) < 2 ^ 31 - 1 ->
  files_inv k C L U E (<[p := <[i := 0]> l]> T) (f :: D).
Proof.
  intros HI Hp Hi Hf Hb. eapply files_inv_rebalance; [done| | | |].
  - intros g Hg. rewrite (refs_update _ _ _ _ _ _ _ Hp Hi), occ_cons.
    rewrite (decide_False (P := g = 0)) by done. lia.
  - eapply table_lengths_insert; [apply HI|done|apply length_insert].
  - apply not_elem_of_cons. split; [done|apply HI].
  - rewrite map_size_insert_Some by eauto. simpl length. lia.
Qed.

Lemma ghost_give k C L U E T D p l i f :
  files_inv k C L U E T (f :: D) -> T !! p = Some l -> l !! i = Some 0 ->
  files_inv k C L U E (<[p := <[i := f]> l]> T) D.
Proof.
  intros HI Hp Hi. eapply files_inv_rebalance; [done| | | |].
  - intros g Hg. rewrite (refs_update _ _ _ _ _ _ _ Hp Hi), occ_cons.
    rewrite (decide_False (P := g = 0)) by done. lia.
  - eapply table_lengths_insert; [apply HI|done|apply length_insert].
  - pose proof (fi_hand _ _ _ _ _ _ _ HI). set_solver.
  - rewrite map_size_insert_Some by eauto. pose proof (fi_bound _ _ _ _ _ _ _ HI). simpl length in *. lia.
Qed.

(** ** The pipe behind a file *)

(** The pipes after the file [fl] got [d] more references. *)
Record pipes_shift (fl : file) (d : Z) k k' : Prop := {
  ps_new : forall a p', k_pipes k' !! a = Some p' ->
    exists p, k_pipes k !! a = Some p /\ no_dead_sleepers p' /\
      0 < side_count true p' + side_count false p' /\
      forall rd, side_count rd p' = side_count rd p + d * side_delta fl a rd;
  ps_gone : forall a p, k_pipes k !! a = Some p -> k_pipes k' !! a = None ->
    forall rd, side_count rd p + d * side_delta fl a rd = 0;
}.

Lemma side_delta_self fl rd rd' :
  f_type fl = FF_PIPE -> access_mode (f_flags fl) = side_mode rd ->
  side_delta fl (f_ptr fl) rd' = if decide (rd' = rd) then 1 else 0.
Proof.
  intros Ht Hm. unfold side_delta. destruct (decide (rd' = rd)) as [->|Hn].
  - by rewrite decide_True.
  - rewrite decide_False; [done|]. intros (_ & _ & Hm'). apply Hn, side_mode_inj. congruence.
Qed.

Lemma side_delta_other fl a rd : f_type fl <> FF_PIPE \/ a <> f_ptr fl -> side_delta fl a rd = 0.
Proof. intros H. unfold side_delta. rewrite decide_False; [done|]. intros (? & ? & _). naive_solver. Qed.

Lemma pipes_shift_none fl d k k' :
  f_type fl <> FF_PIPE -> k_pipes k' = k_pipes k ->
  (forall a p, k_pipes k !! a = Some p -> no_dead_sleepers p /\ 0 < side_count true p + side_count false p) ->
  pipes_shift fl d k k'.
Proof.
  intros Ht Hk H. split; rewrite Hk; [|intros; congruence]. intros a p Hp. exists p.
  destruct (H a p Hp). split_and!; try done. intros rd. rewrite side_delta_other by (by left). lia.
Qed.

Lemma file_cache_kept k L k' L' C (x : Z) :
  (forall c x, c <> waitq_cache (k_caches k) -> c <> context_cache (k_caches k) ->
       c <> pipe_cache (k_caches k) -> L' c x <-> L c x) ->
  (is_Some (C !! file_cache (k_caches k)) /\
    file_cache (k_caches k) <> pipe_cache (k_caches k) /\
    file_cache (k_caches k) <> waitq_cache (k_caches k) /\
    file_cache (k_caches k) <> context_cache (k_caches k)) ->
  k_caches k' = k_caches k ->
  L' (file_cache (k_caches k')) x <-> L (file_cache (k_caches k)) x.
Proof. intros H (_ & H1 & H2 & H3) ->. by apply H. Qed.

(** The reference of a file to its pipe, dropped. *)
Definition release_target (fl : file) : M state unit :=
  match f_type fl with FF_PIPE => pipe_release (f_ptr fl) (f_flags fl) | _ => ret tt end.

Lemma release_target_spec k C L U E T D f fl :
  files_inv k C L U E T D -> k_files k !! f = Some fl ->
  forall m, let k1 := set_k_files m k in
  exists k' L' U' E', release_target fl k1 = Ok (tt, k') /\ pipes_inv k' C L' U' E' /\
    pipes_shift fl (-1) k k' /\ keeps_table k k' /\ sched_only (k_procs k) (k_procs k') /\
    k_files k' = m /\ k_caches k' = k_caches k /\
    forall x, L' (file_cache (k_caches k)) x <-> L (file_cache (k_caches k)) x.
Proof.
  intros HI Hf m k1. destruct (fi_count _ _ _ _ _ _ _ HI f fl Hf) as (_ & _ & _ & Hpos).
  pose proof (pipes_inv_files _ _ _ _ _ m (fi_pipes _ _ _ _ _ _ _ HI)) as HI1. fold k1 in HI1.
  unfold release_target. destruct (decide (f_type fl = FF_PIPE)) as [Ht|Ht].
  2: { exists k1, L, U, E. split; [by destruct (f_type fl)|]. split; [done|].
       split; [by apply pipes_shift_none, HI|]. split; [split_and!; [done|done|eauto]|].
       split; [apply sched_only_refl|]. done. }
  rewrite Ht. destruct (fi_pipe_file _ _ _ _ _ _ _ HI f fl Hf Ht) as (rd & p & Hm & Hp).
  destruct (fi_pipe _ _ _ _ _ _ _ HI _ _ Hp) as [Hnd Hsum].
  assert (Hge : f_count fl <= side_count rd p).
  { rewrite (fi_pipe_count _ _ _ _ _ _ _ HI _ p rd Hp). apply (pipe_refs_in _ _ _ f); [|done|done].
    intros g flg. by apply (fi_count_nonneg _ _ _ _ _ _ _ _ _ HI). }
  destruct (pi_pipes _ _ _ _ _ HI1 _ _ Hp) as (_ & _ & (b & Hb & _)).
  assert (Hh : holds k1 (f_ptr fl) p (ring b (pp_offset p) (pp_length p))) by (split; [done|by exists b]).
  destruct (pipe_release_spec _ _ _ _ _ _ _ _ _ rd HI1 Hh Hnd Hm ltac:(lia))
    as (k' & L' & U' & E' & Er & HI' & Hoth & Hkt & Hso & Hfs & Hc & HL & _ & Hcase).
  exists k', L', U', E'. split; [done|]. split; [done|].
  split; [|split; [done|split; [done|split; [done|split; [done|]]]]].
  2: { intros x. change (k_caches k) with (k_caches k1). rewrite <- Hc at 1.
       eapply file_cache_kept; [exact HL|apply HI|done]. }
  destruct Hoth as [Hoth _]. change (k_pipes k1) with (k_pipes k) in Hoth.
  assert (Hside : forall rd', side_count rd' p + -1 * side_delta fl (f_ptr fl) rd' =
    if decide (rd' = rd) then side_count rd p - 1 else side_count (negb rd) p).
  { intros rd'. rewrite (side_delta_self _ _ _ Ht Hm). destruct (decide (rd' = rd)) as [->|]; [lia|].
    replace (negb rd) with rd' by (destruct rd, rd'; done). lia. }
  assert (Hrest : forall a p', a <> f_ptr fl -> k_pipes k !! a = Some p' ->
    exists p0, k_pipes k !! a = Some p0 /\ no_dead_sleepers p' /\ 0 < side_count true p' + side_count false p' /\
      forall rd, side_count rd p' = side_count rd p0 + -1 * side_delta fl a rd).
  { intros a p' Ha Hp'. exists p'. destruct (fi_pipe _ _ _ _ _ _ _ HI _ _ Hp').
    split_and!; try done. intros. rewrite side_delta_other by (by right). lia. }
  destruct (decide (side_count rd p = 1 /\ side_count (negb rd) p = 0)) as [[H1 H0]|Hn].
  - destruct Hcase as [Hnone _]. split.
    + intros a p' Hp'. destruct (decide (a = f_ptr fl)) as [->|Ha]; [congruence|].
      rewrite Hoth in Hp' by done. by apply Hrest.
    + intros a p' Hp' Hn rd'. destruct (decide (a = f_ptr fl)) as [->|Ha].
      * replace p' with p by congruence. rewrite Hside. destruct (decide _); lia.
      * rewrite Hoth in Hn by done. congruence.
  - destruct Hcase as (_ & p' & (Hp' & _) & Hnd' & Hs1 & Hs2). split.
    + intros a p2 Hp2. destruct (decide (a = f_ptr fl)) as [->|Ha].
      * replace p2 with p' by congruence. exists p. split_and!; [done|done| |].
        -- destruct (pi_pipes _ _ _ _ _ HI1 _ _ Hp) as (_ & _ & (? & _ & _ & _ & _ & Hr & Hw)).
           unfold is_u32 in Hr, Hw. destruct rd; simpl in *; lia.
        -- intros rd'. rewrite Hside. destruct (decide (rd' = rd)) as [->|]; [done|].
           replace rd' with (negb rd) by (destruct rd, rd'; done). done.
      * rewrite Hoth in Hp2 by done. by apply Hrest.
    + intros a p2 Hp2 Hn2. destruct (decide (a = f_ptr fl)) as [->|Ha]; [congruence|].
      rewrite Hoth in Hn2 by done. congruence.
Qed.

(** What an operation on files leaves alone besides the descriptor tables. *)
Record keeps k k' : Prop := {
  kp_table : keeps_table k k';
  kp_caches : k_caches k' = k_caches k;
}.
Lemma keeps_trans k1 k2 k3 : keeps k1 k2 -> keeps k2 k3 -> keeps k1 k3.
Proof. intros [A1 A2] [B1 B2]. split; [by eapply keeps_table_trans|congruence]. Qed.
Lemma keeps_same k k' :
  all_processes k' = all_processes k -> current_process k' = current_process k ->
  k_caches k' = k_caches k -> k_procs k' = k_procs k -> keeps k k'.
Proof. intros H1 H2 H3 H4. split; [split; [done|split; [done|]]|done]. rewrite H4. eauto. Qed.
Lemma keeps_refl k : keeps k k.
Proof. by apply keeps_same. Qed.

(** Freeing an object of another cache. *)
Lemma pipes_inv_mem k C L U E L' m :
  pipes_inv k C L U E -> km_inv m C L' U ->
  (forall a, L (pipe_cache (k_caches k)) a -> L' (pipe_cache (k_caches k)) a) ->
  (forall a, L (waitq_cache (k_caches k)) a -> L' (waitq_cache (k_caches k)) a) ->
  pipes_inv (set_k_mem m k) C L' U E.
Proof.
  intros HI HM Hp Hw. split; try apply HI; [done| |].
  - intros a p H. destruct (pi_pipes _ _ _ _ _ HI a p H) as (? & ? & ?). split_and!; [by apply Hp|done|done].
  - destruct (pi_waitqs _ _ _ _ _ HI) as [H1 H2]. split; [done|]. intros e q He.
    destruct (H2 e q He). split; [by apply Hw|done].
Qed.

(** The invariant after one reference to [f] was dropped. *)
Lemma files_inv_dropped k C L U E T D f fl k' L' U' E' :
  files_inv k C L U E T (f :: D) -> k_files k !! f = Some fl ->
  pipes_inv k' C L' U' E' -> k_caches k' = k_caches k -> pipes_shift fl (-1) k k' ->
  k_files k' = dropped f fl (k_files k) ->
  (forall x, L' (file_cache (k_caches k)) x <->
     L (file_cache (k_caches k)) x /\ (f_count fl = 1 -> x <> f)) ->
  files_inv k' C L' U' E' T D.
Proof.
  intros HI Hf HI' Hc Hps Hfs HL. destruct (fi_count _ _ _ _ _ _ _ HI f fl Hf) as (Hf0 & HLf & Hcf & Hpos).
  rewrite occ_cons, decide_True in Hcf by done.
  assert (Hget : forall g flg, k_files k' !! g = Some flg ->
    (g = f /\ flg = set_f_count (f_count fl - 1) fl /\ f_count fl <> 1) \/ (g <> f /\ k_files k !! g = Some flg)).
  { intros g flg. rewrite Hfs. unfold dropped. destruct (decide (f_count fl = 1)).
    - intros [Hne Hg]%lookup_delete_Some. right. done.
    - destruct (decide (f = g)) as [<-|]; [rewrite lookup_insert_eq; intros [= <-]; by left|].
      rewrite lookup_insert_ne by done. right. done. }
  assert (Hsome : forall g, (g = f -> f_count fl <> 1) -> is_Some (k_files k !! g) -> is_Some (k_files k' !! g)).
  { intros g Hg Hs. rewrite Hfs. unfold dropped. destruct (decide (f_count fl = 1)).
    - rewrite lookup_delete_ne; [done|]. intros ->. by apply Hg.
    - destruct (decide (f = g)) as [<-|]; [rewrite lookup_insert_eq; eauto|by rewrite lookup_insert_ne]. }
  split; [done| | | | | | | | | |].
  - rewrite Hc. apply HI.
  - apply HI.
  - intros g flg Hg. rewrite Hc. destruct (Hget g flg Hg) as [(-> & -> & H1)|[Hne Hg']].
    + split_and!; [done|by apply HL|simpl; lia|simpl; lia].
    + destruct (fi_count _ _ _ _ _ _ _ HI g flg Hg') as (H1 & H2 & H3 & H4).
      rewrite occ_cons, decide_False in H3 by done. split_and!; [done|by apply HL|lia|done].
  - intros g Hg Hr. apply Hsome.
    + intros -> H1. lia.
    + apply (fi_valid _ _ _ _ _ _ _ HI); [done|]. rewrite occ_cons. destruct (decide _); lia.
  - pose proof (fi_hand _ _ _ _ _ _ _ HI). set_solver.
  - intros g [Hg Hne]%(eq_ind_r (fun c => L' (file_cache c) g -> _) (proj1 (HL g)) Hc).
    apply Hsome; [intros -> H1; by apply Hne|by apply (fi_live _ _ _ _ _ _ _ HI)].
  - intros g flg Hg Ht. assert (Hg' : exists flg', k_files k !! g = Some flg' /\ f_type flg' = f_type flg /\
      f_flags flg' = f_flags flg /\ f_ptr flg' = f_ptr flg).
    { destruct (Hget g flg Hg) as [(-> & -> & _)|[_ Hg']]; [by exists fl|by exists flg]. }
    destruct Hg' as (flg' & Hg' & Ht' & Hfl' & Hpt').
    destruct (fi_pipe_file _ _ _ _ _ _ _ HI g flg' Hg' ltac:(congruence)) as (rd & p & Hm & Hp).
    rewrite <- Hpt', <- Hfl'.
    destruct (k_pipes k' !! f_ptr flg') as [p'|] eqn:Hp'; [by exists rd, p'|exfalso].
    pose proof (ps_gone _ _ _ _ Hps _ _ Hp Hp' rd) as Hz.
    rewrite (fi_pipe_count _ _ _ _ _ _ _ HI _ p rd Hp) in Hz.
    assert (Hzero : pipe_refs (k_files k') (f_ptr flg') rd = 0).
    { rewrite Hfs, pipe_refs_dropped by done. lia. }
    assert (Hposs : 0 < f_count flg).
    { destruct (Hget g flg Hg) as [(-> & -> & H1)|[_ Hg2]]; [simpl; lia|].
      by apply (fi_count _ _ _ _ _ _ _ HI g flg). }
    pose proof (pipe_refs_in (k_files k') (f_ptr flg') rd g flg) as Hle.
    enough (f_count flg <= 0) by lia. rewrite <- Hzero. apply Hle; [|done|].
    + intros h flh Hh. destruct (Hget h flh Hh) as [(-> & -> & _)|[_ Hh']]; [simpl; lia|].
      by apply (fi_count_nonneg _ _ _ _ _ _ _ _ _ HI Hh').
    + split_and!; congruence.
  - intros a p' rd Hp'. destruct (ps_new _ _ _ _ Hps a p' Hp') as (p & Hp & _ & _ & Hs).
    rewrite Hs, Hfs, pipe_refs_dropped, (fi_pipe_count _ _ _ _ _ _ _ HI a p rd Hp) by done. lia.
  - intros a p' Hp'. destruct (ps_new _ _ _ _ Hps a p' Hp') as (p & Hp & ? & ? & _). done.
  - pose proof (fi_bound _ _ _ _ _ _ _ HI). simpl length in *. lia.
Qed.

(** ** Dropping and adding a reference *)
Lemma release_file_eq k f fl :
  k_files k !! f = Some fl -> 0 < f_count fl -> is_u32 (f_count fl) ->
  let k1 := set_k_files (<[f := set_f_count (f_count fl - 1) fl]> (k_files k)) k in
  release_file f k =
    (do* release_target fl in
     let* f0 := get_file_obj f in
     if negb (truthy (f_count f0)) then
       let* fc := cache_of file_cache in
       do* kmem (km_obj_free fc f) in
       modify (fun k => set_k_files (delete f (k_files k)) k)
     else ret tt) k1.
Proof.
  intros Hf Hpos Hu k1. unfold release_file. mrun (get_file_obj_ok _ _ _ Hf).
  rewrite (proj2 (Z.eqb_neq (f_count fl) 0)) by lia.
  rewrite (bind_ok (SYSTEM_BUG_ON false) _ k tt k) by done.
  mrun (upd_file_obj_ok k f fl (fun f => set_f_count (u32 (f_count f - 1)) f) Hf).
  rewrite (u32_small (f_count fl - 1)) by (unfold is_u32 in *; lia). fold k1.
  mrun (get_file_obj_ok k1 f (set_f_count (f_count fl - 1) fl) (lookup_insert_eq _ _ _)).
  reflexivity.
Qed.

Lemma release_file_spec k C L U E T D f fl :
  files_inv k C L U E T (f :: D) -> k_files k !! f = Some fl ->
  exists k' L' U' E', release_file f k = Ok (tt, k') /\ files_inv k' C L' U' E' T D /\
    keeps k k' /\ sched_only (k_procs k) (k_procs k') /\
    k_files k' = dropped f fl (k_files k) /\ pipes_shift fl (-1) k k'.
Proof.
  intros HI Hf. destruct (fi_count _ _ _ _ _ _ _ HI f fl Hf) as (Hf0 & HLf & Hcf & Hpos).
  pose proof (fi_count_small _ _ _ _ _ _ _ _ _ HI Hf) as Hsm.
  rewrite (release_file_eq k f fl Hf Hpos) by (unfold is_u32; lia). cbv zeta.
  set (fs1 := <[f := set_f_count (f_count fl - 1) fl]> (k_files k)).
  destruct (release_target_spec _ _ _ _ _ _ _ _ _ HI Hf fs1)
    as (k1 & L1 & U1 & E1 & Er & HI1 & Hps & Hkt & Hso & Hfs & Hc & HL). mrun Er.
  assert (Hf1 : k_files k1 !! f = Some (set_f_count (f_count fl - 1) fl))
    by (rewrite Hfs; apply lookup_insert_eq).
  mrun (get_file_obj_ok _ _ _ Hf1). cbn [f_count set_f_count].
  destruct (decide (f_count fl = 1)) as [H1|H1].
  - rewrite H1. change (negb (truthy (1 - 1))) with true. cbv iota.
    unfold cache_of. erewrite (bind_ok (gets _)) by reflexivity.
    assert (HL1 : L1 (file_cache (k_caches k1)) f) by (rewrite Hc; by apply HL).
    destruct (km_obj_free_spec _ _ _ _ _ _ (pi_mem _ _ _ _ _ HI1) HL1) as (m & Em & HM).
    mrun (kmem_ok _ _ _ _ Em). eexists _, _, U1, E1. split; [reflexivity|].
    destruct (fi_cache _ _ _ _ _ _ _ HI) as (_ & Hn1 & Hn2 & _).
    assert (Hother : forall c a, c <> file_cache (k_caches k1) -> L1 c a -> L1 c a /\ a <> f).
    { intros c a Hne Ha. split; [done|]. intros ->. apply Hne. by eapply km_unique; [apply HI1| |]. }
    assert (Hdr : delete f (k_files k1) = dropped f fl (k_files k)).
    { unfold dropped. rewrite decide_True by done. rewrite Hfs. apply delete_insert_eq. }
    assert (HI2 : pipes_inv (set_k_files (delete f (k_files k1)) (set_k_mem m k1)) C
      (fun c x => L1 c x /\ x <> f) U1 E1).
    { apply pipes_inv_files. eapply pipes_inv_mem; [done|done| |]; intros a; apply Hother; rewrite Hc; done. }
    assert (Hps2 : pipes_shift fl (-1) k (set_k_files (delete f (k_files k1)) (set_k_mem m k1)))
      by (destruct Hps; by split).
    split; [|split; [by split|split; [done|split; [exact Hdr|exact Hps2]]]].
    eapply files_inv_dropped; [exact HI|exact Hf|exact HI2|exact Hc|exact Hps2|exact Hdr|].
    intros x. cbv beta. rewrite HL. naive_solver.
  - replace (truthy (f_count fl - 1)) with true by (symmetry; apply truthy_true; lia). cbn [negb].
    exists k1, L1, U1, E1. split; [done|].
    assert (Hdr : k_files k1 = dropped f fl (k_files k)) by (unfold dropped; by rewrite decide_False).
    split; [|split; [by split|done]].
    eapply files_inv_dropped; [exact HI|exact Hf|exact HI1|exact Hc|exact Hps|exact Hdr|].
    intros x. rewrite HL. naive_solver.
Qed.

(** The pipes after the file [f] was counted up. *)
Definition countup_target (fl : file) : M state unit :=
  match f_type fl with FF_PIPE => pipe_countup (f_ptr fl) (f_flags fl) | _ => ret tt end.

Lemma countup_target_spec k C L U E T D f fl :
  files_inv k C L U E T D -> k_files k !! f = Some fl ->
  forall m, let k1 := set_k_files m k in
  exists k', countup_target fl k1 = Ok (tt, k') /\ pipes_inv k' C L U E /\ keeps k k' /\
    k_procs k' = k_procs k /\ k_files k' = m /\
    (forall a, is_Some (k_pipes k !! a) -> is_Some (k_pipes k' !! a)) /\ pipes_shift fl 1 k k'.
Proof.
  intros HI Hf m k1. destruct (fi_count _ _ _ _ _ _ _ HI f fl Hf) as (_ & _ & _ & Hpos).
  pose proof (pipes_inv_files _ _ _ _ _ m (fi_pipes _ _ _ _ _ _ _ HI)) as HI1. fold k1 in HI1.
  unfold countup_target. destruct (decide (f_type fl = FF_PIPE)) as [Ht|Ht].
  2: { exists k1. split; [by destruct (f_type fl)|]. split; [done|]. split; [by apply keeps_same|].
       do 3 (split; [done|]). by apply pipes_shift_none, HI. }
  rewrite Ht. destruct (fi_pipe_file _ _ _ _ _ _ _ HI f fl Hf Ht) as (rd & p & Hm & Hp).
  destruct (pi_pipes _ _ _ _ _ HI1 _ _ Hp) as (_ & _ & (b & Hb' & _ & _ & _ & Hu1 & Hu2)).
  assert (Hh : holds k1 (f_ptr fl) p (ring b (pp_offset p) (pp_length p))) by (split; [done|by exists b]).
  pose proof (fi_pipe_count _ _ _ _ _ _ _ HI _ p rd Hp) as Hcnt.
  destruct (pipe_countup_spec _ _ _ _ _ _ _ _ (f_flags fl) rd HI1 Hh Hm) as (k' & Er & HI' & _ & _ & _ & Hk').
  { rewrite Hcnt. pose proof (fi_small _ _ _ _ _ _ _ (f_ptr fl) rd HI). lia. }
  assert (Hpos' : 0 < side_count rd p).
  { rewrite Hcnt. eapply Z.lt_le_trans; [exact Hpos|]. apply (pipe_refs_in _ _ _ f); [|done|done].
    intros g flg. by apply (fi_count_nonneg _ _ _ _ _ _ _ _ _ HI). }
  exists k'. split; [done|]. split; [done|].
  assert (Hkp : k_pipes k' = <[f_ptr fl := set_side rd (side_count rd p + 1) p]> (k_pipes k)) by (by rewrite Hk').
  split; [by apply keeps_same; rewrite Hk'|]. split; [by rewrite Hk'|]. split; [by rewrite Hk'|].
  assert (Hs : forall a, is_Some (k_pipes k !! a) -> is_Some (k_pipes k' !! a)).
  { intros a Ha. rewrite Hkp. destruct (decide (f_ptr fl = a)) as [<-|]; [rewrite lookup_insert_eq; eauto|].
    by rewrite lookup_insert_ne. }
  split; [done|]. split; [|intros a q Hq Hn; destruct (Hs a (mk_is_Some _ _ Hq)); congruence].
  intros a p'. rewrite Hkp. destruct (decide (f_ptr fl = a)) as [<-|Hne].
  - rewrite lookup_insert_eq. intros [= <-]. exists p. split; [done|].
    destruct (fi_pipe _ _ _ _ _ _ _ HI _ _ Hp) as [Hnd Hsum]. unfold is_u32 in *. split_and!.
    + intros rd' Hz. specialize (Hnd rd'). destruct rd, rd'; simpl in *; lia || by apply Hnd.
    + destruct rd; simpl in *; lia.
    + intros rd'. rewrite (side_delta_self _ _ _ Ht Hm). destruct rd, rd'; simpl; lia.
  - rewrite lookup_insert_ne by done. intros Hp'. exists p'.
    destruct (fi_pipe _ _ _ _ _ _ _ HI _ _ Hp'). split_and!; [done|done|done|].
    intros rd'. rewrite side_delta_other by (by right). lia.
Qed.

Lemma files_inv_added k C L U E T D f fl k' :
  files_inv k C L U E T D -> k_files k !! f = Some fl ->
  MAX_FD_SIZE * Z.of_nat (size T) + Z.of_nat (length D) < 2 ^ 31 - 1 ->
  pipes_inv k' C L U E -> k_caches k' = k_caches k ->
  (forall a, is_Some (k_pipes k !! a) -> is_Some (k_pipes k' !! a)) -> pipes_shift fl 1 k k' ->
  k_files k' = <[f := set_f_count (f_count fl + 1) fl]> (k_files k) ->
  files_inv k' C L U E T (f :: D).
Proof.
  intros HI Hf Hb HI' Hc Hkeep Hps Hfs.
  destruct (fi_count _ _ _ _ _ _ _ HI f fl Hf) as (Hf0 & HLf & Hcf & Hpos).
  assert (Hget : forall g flg, k_files k' !! g = Some flg ->
    (g = f /\ flg = set_f_count (f_count fl + 1) fl) \/ (g <> f /\ k_files k !! g = Some flg)).
  { intros g flg. rewrite Hfs. destruct (decide (f = g)) as [<-|].
    - rewrite lookup_insert_eq. intros [= <-]. by left.
    - rewrite lookup_insert_ne by done. by right. }
  assert (Hsome : forall g, is_Some (k_files k !! g) -> is_Some (k_files k' !! g)).
  { intros g Hg. rewrite Hfs.
    destruct (decide (f = g)) as [<-|]; [rewrite lookup_insert_eq; eauto|by rewrite lookup_insert_ne]. }
  split; [done| | | | | | | | | |].
  - rewrite Hc. apply HI.
  - apply HI.
  - intros g flg Hg. rewrite Hc, occ_cons. destruct (Hget g flg Hg) as [(-> & ->)|[Hne Hg']].
    + rewrite decide_True by done. split_and!; [done|done|simpl; lia|simpl; lia].
    + rewrite decide_False by done. by apply (fi_count _ _ _ _ _ _ _ HI).
  - intros g Hg. rewrite occ_cons. intros Hr. apply Hsome. destruct (decide (g = f)) as [->|]; [eauto|].
    apply (fi_valid _ _ _ _ _ _ _ HI); [done|lia].
  - apply not_elem_of_cons. split; [done|apply HI].
  - rewrite Hc. intros g Hg. apply Hsome. by apply (fi_live _ _ _ _ _ _ _ HI).
  - intros g flg Hg Ht. assert (Hg' : exists rd p, access_mode (f_flags flg) = side_mode rd /\
      k_pipes k !! f_ptr flg = Some p).
    { destruct (Hget g flg Hg) as [(-> & ->)|[_ Hg']]; [exact (fi_pipe_file _ _ _ _ _ _ _ HI f fl Hf Ht)|exact (fi_pipe_file _ _ _ _ _ _ _ HI g flg Hg' Ht)]. }
    destruct Hg' as (rd & p & Hm & Hp). destruct (Hkeep _ (mk_is_Some _ _ Hp)) as [p' Hp']. by exists rd, p'.
  - intros a p' rd Hp'. destruct (ps_new _ _ _ _ Hps a p' Hp') as (p & Hp & _ & _ & Hs).
    rewrite Hs, Hfs, pipe_refs_added, (fi_pipe_count _ _ _ _ _ _ _ HI a p rd Hp) by done. lia.
  - intros a p' Hp'. by destruct (ps_new _ _ _ _ Hps a p' Hp') as (p & _ & ? & ? & _).
  - simpl length. lia.
Qed.

(** [countup_file]: the new reference is in hand. *)
Lemma countup_file_spec k C L U E T D f fl :
  files_inv k C L U E T D -> k_files k !! f = Some fl ->
  MAX_FD_SIZE * Z.of_nat (size T) + Z.of_nat (length D) < 2 ^ 31 - 1 ->
  exists k', countup_file f k = Ok (tt, k') /\ files_inv k' C L U E T (f :: D) /\
    keeps k k' /\ k_procs k' = k_procs k /\
    k_files k' = <[f := set_f_count (f_count fl + 1) fl]> (k_files k) /\ pipes_shift fl 1 k k'.
Proof.
  intros HI Hf Hb. destruct (fi_count _ _ _ _ _ _ _ HI f fl Hf) as (_ & _ & _ & Hpos).
  pose proof (fi_count_small _ _ _ _ _ _ _ _ _ HI Hf) as Hsm.
  set (fl' := set_f_count (f_count fl + 1) fl). set (fs1 := <[f := fl']> (k_files k)).
  assert (E1 : countup_file f k = countup_target fl (set_k_files fs1 k)).
  { unfold countup_file. mrun (upd_file_obj_ok k f fl (fun f => set_f_count (u32 (f_count f + 1)) f) Hf).
    rewrite (u32_small (f_count fl + 1)) by (unfold is_u32; lia). fold fl' fs1.
    mrun (get_file_obj_ok (set_k_files fs1 k) f fl' (lookup_insert_eq _ _ _)). reflexivity. }
  rewrite E1. destruct (countup_target_spec _ _ _ _ _ _ _ _ _ HI Hf fs1)
    as (k' & Er & HI' & Hk & Hpr & Hfs & Hkeep & Hps).
  exists k'. split; [done|]. split; [|done].
  eapply files_inv_added; [exact HI|exact Hf|exact Hb|exact HI'|apply Hk|exact Hkeep|exact Hps|exact Hfs].
Qed.
End FilesProofs.
