(* ===== verification/FileSpecs.v ===== *)
(** * Open files: the operations

    What the system calls on descriptors do, on every branch, and that the
    reference counts stay right: [process_close], [process_dupfd],
    [process_dup2], [process_dup3], [process_pipe2], [process_fcntl64], and the
    loops over the table in [process_fork], [process_exec] and [process_exit]. *)

From stdpp Require Import base numbers list gmap.
From S2P Require Import Prelude Arith Signal Buddy BuddyProofs PageAlloc KernelMem Unix Kernel Pipe PipeProofs PipeSpecs Files FilesProofs.

#[local] Open Scope Z_scope.
#[local] Open Scope kernel_scope.

(** The file behind a descriptor of a process, 0 when there is none. *)
Definition fd_of (x : process) (fd : Z) : Z :=
  if (fd <? 0) || (MAX_FD_SIZE <=? fd) then 0 else default 0 (p_files x !! Z.to_nat fd).
(** The process after the descriptor [fd] was set to [f] and the close-on-exec
    set to [b]. *)
Definition fd_set (x : process) (fd f : Z) (b : list Z) : process :=
  set_p_close_on_exec b (set_p_files (<[Z.to_nat fd := f]> (p_files x)) x).

Lemma fd_of_lookup x fd f :
  fd_of x fd = f -> f <> 0 -> 0 <= fd < MAX_FD_SIZE /\ p_files x !! Z.to_nat fd = Some f.
Proof.
  unfold fd_of. intros E Hf.
  destruct (Z.ltb_spec fd 0), (Z.leb_spec MAX_FD_SIZE fd); simpl in E; try congruence.
  split; [lia|]. by destruct (p_files x !! _); simpl in E; subst.
Qed.

Lemma fd_of_in x fd :
  0 <= fd < MAX_FD_SIZE -> Z.of_nat (length (p_files x)) = MAX_FD_SIZE ->
  p_files x !! Z.to_nat fd = Some (fd_of x fd).
Proof.
  intros Hfd Hl. unfold fd_of. rewrite (proj2 (Z.ltb_ge fd 0)), (proj2 (Z.leb_gt MAX_FD_SIZE fd)) by lia.
  destruct (lookup_lt_is_Some_2 (p_files x) (Z.to_nat fd)) as [f Hf]; [lia|]. by rewrite Hf.
Qed.

Lemma fd_of_set x fd f b i :
  0 <= fd < MAX_FD_SIZE -> Z.of_nat (length (p_files x)) = MAX_FD_SIZE ->
  fd_of (fd_set x fd f b) i = if decide (i = fd) then f else fd_of x i.
Proof.
  intros Hr Hl. unfold fd_of, fd_set. cbn [p_files set_p_files set_p_close_on_exec].
  destruct (decide (i = fd)) as [->|Hne].
  - rewrite (proj2 (Z.ltb_ge fd 0)), (proj2 (Z.leb_gt MAX_FD_SIZE fd)) by lia. cbn [orb].
    by rewrite list_lookup_insert_eq by lia.
  - destruct (Z.ltb_spec i 0), (Z.leb_spec MAX_FD_SIZE i); try done. simpl.
    rewrite list_lookup_insert_ne by lia. done.
Qed.

(** A close-on-exec mark is on an open descriptor. *)
Definition cloexec_open (x : process) : Prop :=
  forall i, 0 <= i < MAX_FD_SIZE -> bitset_mem (p_close_on_exec x) i = true -> fd_of x i <> 0.

(** The files after a reference to [f] was dropped or added. *)
Definition drop_ref (f : Z) (fs : gmap Z file) : gmap Z file :=
  match fs !! f with Some fl => dropped f fl fs | None => fs end.
Definition add_ref (f : Z) (fs : gmap Z file) : gmap Z file :=
  match fs !! f with Some fl => <[f := set_f_count (f_count fl + 1) fl]> fs | None => fs end.

Section FileSpecs.
Context {S : Type} `{KM : KernelMem S}.
Notation state := (kernel S).
Implicit Types (k : state) (C : gmap Z Z) (L : Z -> Z -> Prop) (U : gset Z)
  (T : gmap Z (list Z)) (D : list Z).

(** The invariant between two system calls. *)
Record files_ok k C L U E : Prop := {
  fo_inv : files_inv k C L U E (p_files <$> k_procs k) [];
  fo_sets : forall p x, k_procs k !! p = Some x -> bitset_wf MAX_FD_SIZE (p_close_on_exec x);
  fo_room : MAX_FD_SIZE * (Z.of_nat (size (k_procs k)) + 2) < 2 ^ 31;
}.

Lemma fo_current k C L U E : files_ok k C L U E -> exists x, k_procs k !! current_process k = Some x.
Proof. intros HO. exact (pi_current _ _ _ _ _ (fi_pipes _ _ _ _ _ _ _ (fo_inv _ _ _ _ _ HO))). Qed.

Lemma fo_length k C L U E p x :
  files_ok k C L U E -> k_procs k !! p = Some x -> Z.of_nat (length (p_files x)) = MAX_FD_SIZE.
Proof.
  intros HO Hx. apply (fi_tables _ _ _ _ _ _ _ (fo_inv _ _ _ _ _ HO) p). by rewrite lookup_fmap, Hx.
Qed.

Lemma fo_file k C L U E p x fd f :
  files_ok k C L U E -> k_procs k !! p = Some x -> fd_of x fd = f -> f <> 0 ->
  exists fl, k_files k !! f = Some fl.
Proof.
  intros HO Hx Hfd Hf. destruct (fd_of_lookup _ _ _ Hfd Hf) as [_ Hl].
  eapply fi_in_table; [apply HO| |exact Hl|done]. by rewrite lookup_fmap, Hx.
Qed.

Lemma get_file_ok k C L U E x fd :
  files_ok k C L U E -> k_procs k !! current_process k = Some x -> get_file fd k = Ok (fd_of x fd, k).
Proof.
  intros HO Hx. pose proof (fo_length _ _ _ _ _ _ _ HO Hx) as Hl. unfold get_file, fd_of.
  destruct (Z.ltb_spec fd 0), (Z.leb_spec MAX_FD_SIZE fd); try done. simpl.
  erewrite (bind_ok (gets _)) by reflexivity. unfold get_fd. mrun (get_proc_ok _ _ _ Hx).
  destruct (lookup_lt_is_Some_2 (p_files x) (Z.to_nat fd)) as [f Hf]; [lia|]. by rewrite Hf.
Qed.

Lemma get_fd_ok k p x i f :
  k_procs k !! p = Some x -> p_files x !! Z.to_nat i = Some f -> get_fd p i k = Ok (f, k).
Proof. intros Hx Hf. unfold get_fd. mrun (get_proc_ok _ _ _ Hx). by rewrite Hf. Qed.

Lemma set_fd_ok k p x i f g :
  k_procs k !! p = Some x -> p_files x !! Z.to_nat i = Some g ->
  set_fd p i f k =
    Ok (tt, set_k_procs (<[p := set_p_files (<[Z.to_nat i := f]> (p_files x)) x]> (k_procs k)) k).
Proof.
  intros Hx Hg. unfold set_fd. mrun (get_fd_ok _ _ _ _ _ Hx Hg). by rewrite (upd_proc_ok _ _ _ _ Hx).
Qed.

Lemma cloexec_remove_ok k p x i :
  k_procs k !! p = Some x -> bitset_wf MAX_FD_SIZE (p_close_on_exec x) -> 0 <= i < MAX_FD_SIZE ->
  exists b, bitset_remove (p_close_on_exec x) i = Some b /\ bitset_wf MAX_FD_SIZE b /\
    cloexec_remove p i k = Ok (tt, set_k_procs (<[p := set_p_close_on_exec b x]> (k_procs k)) k).
Proof.
  intros Hx Hwf Hi. destruct (bitset_spec MAX_FD_SIZE _ i ltac:(done) Hwf Hi) as [_ (b & Hb & Hwb & _)].
  exists b. split; [done|]. split; [done|]. unfold cloexec_remove. mrun (get_proc_ok _ _ _ Hx).
  rewrite Hb. reflexivity.
Qed.

Lemma cloexec_add_ok k p x i :
  k_procs k !! p = Some x -> bitset_wf MAX_FD_SIZE (p_close_on_exec x) -> 0 <= i < MAX_FD_SIZE ->
  exists b, bitset_add (p_close_on_exec x) i = Some b /\ bitset_wf MAX_FD_SIZE b /\
    cloexec_add p i k = Ok (tt, set_k_procs (<[p := set_p_close_on_exec b x]> (k_procs k)) k).
Proof.
  intros Hx Hwf Hi. destruct (bitset_spec MAX_FD_SIZE _ i ltac:(done) Hwf Hi) as [(b & Hb & Hwb & _) _].
  exists b. split; [done|]. split; [done|]. unfold cloexec_add. mrun (get_proc_ok _ _ _ Hx).
  rewrite Hb. reflexivity.
Qed.

(** ** Changes of the process table *)
Lemma files_inv_procs k C L U E T D m :
  files_inv k C L U E T D -> (forall p, is_Some (k_procs k !! p) -> is_Some (m !! p)) ->
  files_inv (set_k_procs m k) C L U E T D.
Proof.
  intros HI Hm. split; try apply HI. apply pipes_inv_procs; [apply HI|done].
Qed.

Lemma sched_only_insert_both m m' p y st sp :
  sched_only m m' -> sched_only (<[p := y]> m) (<[p := set_p_suspend sp (set_p_state st y)]> m').
Proof.
  intros H q. destruct (decide (p = q)) as [<-|].
  - rewrite !lookup_insert_eq. eauto.
  - rewrite !lookup_insert_ne by done. apply H.
Qed.

Lemma sched_only_size m m' : sched_only m m' -> size m' = size m.
Proof.
  intros H. rewrite <- (map_size_fmap p_files m'), (sched_only_files _ _ H). apply map_size_fmap.
Qed.

(** One process changed, besides the scheduling of others. *)
Lemma files_ok_change k C L U E k' L' U' E' p x y :
  files_ok k C L U E -> k_procs k !! p = Some x ->
  sched_only (<[p := y]> (k_procs k)) (k_procs k') -> bitset_wf MAX_FD_SIZE (p_close_on_exec y) ->
  files_inv k' C L' U' E' (<[p := p_files y]> (p_files <$> k_procs k)) [] ->
  files_ok k' C L' U' E'.
Proof.
  intros HO Hx Hs Hwf HI. split.
  - rewrite (sched_only_files _ _ Hs), fmap_insert. done.
  - intros q z Hz. pose proof (Hs q) as Hq. destruct (decide (p = q)) as [<-|Hne].
    + rewrite lookup_insert_eq in Hq. destruct Hq as (st & sp & Hq). rewrite Hz in Hq. by injection Hq as ->.
    + rewrite lookup_insert_ne in Hq by done. destruct (k_procs k !! q) as [w|] eqn:Hw; [|congruence].
      destruct Hq as (st & sp & Hq). rewrite Hz in Hq. injection Hq as ->. by apply (fo_sets _ _ _ _ _ HO q w).
  - rewrite (sched_only_size _ _ Hs), map_size_insert_Some by eauto. apply HO.
Qed.

Lemma keeps_change k k' p x y :
  k_procs k !! p = Some x -> p_id y = p_id x -> sched_only (<[p := y]> (k_procs k)) (k_procs k') ->
  all_processes k' = all_processes k -> current_process k' = current_process k ->
  k_caches k' = k_caches k -> keeps k k'.
Proof.
  intros Hx Hid Hs H1 H2 H3. split; [split; [done|split; [done|]]|done]. intros q z Hz.
  specialize (Hs q). destruct (decide (p = q)) as [<-|Hne].
  - rewrite lookup_insert_eq in Hs. destruct Hs as (st & sp & Hs). eexists. split; [done|].
    replace z with x by congruence. done.
  - rewrite lookup_insert_ne, Hz in Hs by done. destruct Hs as (st & sp & Hs). by eexists.
Qed.

(** ** Closing *)

(** The common end of [process_close] and of the loop of [process_exec]. *)
Definition closes (p fd file : Z) k k' : Prop :=
  exists k1, release_file file k = Ok (tt, k1) /\ current_process k1 = current_process k /\
    (do* set_fd p fd 0 in cloexec_remove p fd) k1 = Ok (tt, k').

Lemma closes_spec k C L U E p x fd f fl :
  files_ok k C L U E -> k_procs k !! p = Some x -> fd_of x fd = f -> f <> 0 -> k_files k !! f = Some fl ->
  exists k' L' U' E' b, closes p fd f k k' /\ files_ok k' C L' U' E' /\ keeps k k' /\
    bitset_remove (p_close_on_exec x) fd = Some b /\
    sched_only (<[p := fd_set x fd 0 b]> (k_procs k)) (k_procs k') /\
    k_files k' = drop_ref f (k_files k) /\ pipes_shift fl (-1) k k'.
Proof.
  intros HO Hx Hfd Hf0 Hf. destruct (fd_of_lookup _ _ _ Hfd Hf0) as [Hr Hl].
  pose proof (fo_room _ _ _ _ _ HO) as Hroom.
  assert (HT : (p_files <$> k_procs k) !! p = Some (p_files x)) by (by rewrite lookup_fmap, Hx).
  destruct (release_file_spec k C L U E (<[p := <[Z.to_nat fd := 0]> (p_files x)]> (p_files <$> k_procs k)) [] f fl)
    as (k1 & L1 & U1 & E1 & Er & HI1 & [Hkt Hc1] & Hso & Hfs & Hps).
  { apply ghost_take; [apply HO|done|done|done|]. rewrite map_size_fmap. simpl length.
    change MAX_FD_SIZE with 32 in *. lia. }
  { done. }
  destruct (sched_only_lookup _ _ _ _ Hso Hx) as (st & sp & Hx1).
  set (x1 := set_p_suspend sp (set_p_state st x)) in Hx1.
  set (x2 := set_p_files (<[Z.to_nat fd := 0]> (p_files x1)) x1).
  set (k2 := set_k_procs (<[p := x2]> (k_procs k1)) k1).
  assert (Hx2 : k_procs k2 !! p = Some x2) by apply lookup_insert_eq.
  destruct (cloexec_remove_ok k2 p x2 fd Hx2) as (b & Hb & Hwb & Ec).
  { exact (fo_sets _ _ _ _ _ HO p x Hx). }
  { done. }
  set (k3 := set_k_procs (<[p := set_p_close_on_exec b x2]> (k_procs k2)) k2) in Ec.
  assert (Hk3 : k_procs k3 = <[p := set_p_close_on_exec b x2]> (k_procs k1)).
  { unfold k3, k2. simpl. by rewrite insert_insert_eq. }
  assert (Hs3 : sched_only (<[p := fd_set x fd 0 b]> (k_procs k)) (k_procs k3)).
  { rewrite Hk3. exact (sched_only_insert_both _ _ p (fd_set x fd 0 b) st sp Hso). }
  replace (dropped f fl (k_files k)) with (drop_ref f (k_files k)) in Hfs
    by (unfold drop_ref; by rewrite Hf).
  exists k3, L1, U1, E1, b. split.
  { exists k1. split; [done|]. split; [apply Hkt|]. mrun (set_fd_ok k1 p x1 fd 0 f Hx1 Hl). exact Ec. }
  split; [|split; [|split; [exact Hb|split; [exact Hs3|split; [exact Hfs|]]]]].
  3: { destruct Hps as [A B]. split; [exact A|exact B]. }
  - eapply files_ok_change; [done|done|exact Hs3|done|].
    apply files_inv_procs; [apply files_inv_procs; [done|]|]; intros q Hq; by apply is_Some_insert_proc.
  - eapply keeps_change; [exact Hx| |exact Hs3| | |]; [done|apply Hkt|apply Hkt|done].
Qed.

Lemma process_close_spec k C L U E x fd :
  files_ok k C L U E -> k_procs k !! current_process k = Some x ->
  if decide (fd_of x fd = 0) then process_close fd k = Ok (- EBADF, k)
  else exists fl k' L' U' E' b, k_files k !! fd_of x fd = Some fl /\
    process_close fd k = Ok (0, k') /\ files_ok k' C L' U' E' /\ keeps k k' /\
    bitset_remove (p_close_on_exec x) fd = Some b /\
    sched_only (<[current_process k := fd_set x fd 0 b]> (k_procs k)) (k_procs k') /\
    k_files k' = drop_ref (fd_of x fd) (k_files k) /\ pipes_shift fl (-1) k k'.
Proof.
  intros HO Hx. unfold process_close. mrun (get_file_ok _ _ _ _ _ _ fd HO Hx).
  destruct (decide (fd_of x fd = 0)) as [->|Hf]; [done|].
  rewrite (proj2 (Z.eqb_neq _ _)) by done.
  destruct (fo_file _ _ _ _ _ _ _ _ _ HO Hx eq_refl Hf) as [fl Hfl].
  destruct (closes_spec _ _ _ _ _ _ _ _ _ _ HO Hx eq_refl Hf Hfl) as (k' & L' & U' & E' & b & (k1 & Er & Hcur & Er2) & HO' & Hrest).
  exists fl, k', L', U', E', b. split; [done|]. split; [|done].
  mrun Er. erewrite (bind_ok (gets _)) by reflexivity. rewrite Hcur.
  apply bind_inv in Er2 as ([] & k2 & Es & Ec). mrun Es. mrun Ec. reflexivity.
Qed.

(** ** Duplicating *)

(** The common end of the duplicating calls. *)
Definition install (p fd file : Z) (cloexec : bool) : M state Z :=
  do* countup_file file in
  do* (if cloexec then cloexec_add p fd else ret tt) in
  do* set_fd p fd file in
  ret fd.

(** The close-on-exec set after it. *)
Definition cloexec_after (b : list Z) (fd : Z) (cloexec : bool) : option (list Z) :=
  if cloexec then bitset_add b fd else Some b.

Lemma install_spec k C L U E p x fd f fl (cloexec : bool) :
  files_ok k C L U E -> k_procs k !! p = Some x -> 0 <= fd < MAX_FD_SIZE -> fd_of x fd = 0 ->
  k_files k !! f = Some fl ->
  exists k' b, install p fd f cloexec k = Ok (fd, k') /\ files_ok k' C L U E /\ keeps k k' /\
    cloexec_after (p_close_on_exec x) fd cloexec = Some b /\
    k_procs k' = <[p := fd_set x fd f b]> (k_procs k) /\
    k_files k' = add_ref f (k_files k) /\ pipes_shift fl 1 k k'.
Proof.
  intros HO Hx Hr Hfd Hf. pose proof (fo_room _ _ _ _ _ HO) as Hroom.
  pose proof (fd_of_in x fd Hr (fo_length _ _ _ _ _ _ _ HO Hx)) as Hl. rewrite Hfd in Hl.
  destruct (countup_file_spec k C L U E (p_files <$> k_procs k) [] f fl) as (k1 & Er & HI1 & [Hkt Hc1] & Hpr & Hfs & Hps).
  { apply HO. }
  { done. }
  { rewrite map_size_fmap. simpl length. change MAX_FD_SIZE with 32 in *. lia. }
  rewrite <- Hpr in Hx.
  assert (Hadd : exists b, cloexec_after (p_close_on_exec x) fd cloexec = Some b /\ bitset_wf MAX_FD_SIZE b /\
    (if cloexec then cloexec_add p fd else ret tt) k1 =
      Ok (tt, set_k_procs (<[p := set_p_close_on_exec b x]> (k_procs k1)) k1)).
  { rewrite Hpr in Hx. pose proof (fo_sets _ _ _ _ _ HO p x Hx) as Hwf. rewrite <- Hpr in Hx. destruct cloexec.
    - exact (cloexec_add_ok k1 p x fd Hx Hwf Hr).
    - exists (p_close_on_exec x). split; [done|]. split; [done|].
      replace (set_p_close_on_exec (p_close_on_exec x) x) with x by (by destruct x).
      rewrite insert_id by done. by destruct k1. }
  destruct Hadd as (b & Hb & Hwb & Ea).
  set (k2 := set_k_procs _ k1) in Ea.
  assert (Hx2 : k_procs k2 !! p = Some (set_p_close_on_exec b x)) by apply lookup_insert_eq.
  pose proof (set_fd_ok k2 p _ fd f 0 Hx2 Hl) as Es. set (k3 := set_k_procs _ k2) in Es.
  assert (Hk3 : k_procs k3 = <[p := fd_set x fd f b]> (k_procs k)).
  { unfold k3, k2. simpl. by rewrite insert_insert_eq, Hpr. }
  replace (<[f := _]> (k_files k)) with (add_ref f (k_files k)) in Hfs
    by (unfold add_ref; by rewrite Hf).
  rewrite Hpr in Hx. exists k3, b. split.
  { unfold install. mrun Er. mrun Ea. mrun Es. done. }
  assert (Hs3 : sched_only (<[p := fd_set x fd f b]> (k_procs k)) (k_procs k3))
    by (rewrite Hk3; apply sched_only_refl).
  split; [|split; [|split; [exact Hb|split; [exact Hk3|split; [exact Hfs|]]]]].
  3: { destruct Hps as [A B]. split; [exact A|exact B]. }
  - eapply files_ok_change; [done|done|exact Hs3|done|].
    apply files_inv_procs; [apply files_inv_procs; [|]|]; try (intros q Hq; by apply is_Some_insert_proc).
    apply ghost_give; [done|by rewrite lookup_fmap, Hx|done].
  - eapply keeps_change; [exact Hx| |exact Hs3| | |]; [done|apply Hkt|apply Hkt|done].
Qed.

(** The first free descriptor from [i] on. *)
Definition first_free (x : process) (i j : Z) : Prop :=
  i <= j < MAX_FD_SIZE /\ fd_of x j = 0 /\ forall h, i <= h < j -> fd_of x h <> 0.

(** A scan for it, over the [n] descriptors from [i] on. *)
Lemma first_free_scan {A} (loop : nat -> Z -> A) (full : A) (found : Z -> A) x :
  (forall i, loop O i = full) ->
  (forall n i, 0 <= i < MAX_FD_SIZE -> loop (Datatypes.S n) i =
     if fd_of x i =? 0 then found i else loop n (i + 1)) ->
  forall n i, 0 <= i -> i + Z.of_nat n = MAX_FD_SIZE ->
  (loop n i = full /\ forall h, i <= h < MAX_FD_SIZE -> fd_of x h <> 0) \/
  exists j, first_free x i j /\ loop n i = found j.
Proof.
  intros H0 HS n. induction n as [|n IH]; intros i Hi Hn.
  { left. split; [done|]. intros h Hh. lia. }
  rewrite HS by lia. destruct (Z.eqb_spec (fd_of x i) 0) as [E|E].
  - right. exists i. split; [|done]. split_and!; [lia|lia|done|]. intros h Hh. lia.
  - destruct (IH (i + 1)) as [[Er Hall]|(j & (Hj & Hj0 & Hall) & Er)]; [lia|lia| |].
    + left. split; [done|]. intros h Hh. destruct (decide (h = i)) as [->|]; [done|]. apply Hall. lia.
    + right. exists j. split; [|done]. split_and!; [lia|lia|done|]. intros h Hh.
      destruct (decide (h = i)) as [->|]; [done|]. apply Hall. lia.
Qed.

Lemma dupfd_loop_spec k C L U E x f fl flags :
  files_ok k C L U E -> k_procs k !! current_process k = Some x -> k_files k !! f = Some fl ->
  forall n i, 0 <= i -> i + Z.of_nat n = MAX_FD_SIZE ->
  (dupfd_loop n f i flags k = Ok (- EMFILE, k) /\ forall h, i <= h < MAX_FD_SIZE -> fd_of x h <> 0) \/
  exists j, first_free x i j /\
    dupfd_loop n f i flags k = install (current_process k) j f (truthy (Z.land flags O_CLOEXEC)) k.
Proof.
  intros HO Hx Hf. apply (first_free_scan (fun n i => dupfd_loop n f i flags k)); [done|].
  intros n i Hi. cbn [dupfd_loop]. erewrite (bind_ok (gets _)) by reflexivity.
  mrun (get_fd_ok _ _ _ _ _ Hx (fd_of_in x i Hi (fo_length _ _ _ _ _ _ _ HO Hx))).
  by destruct (fd_of x i =? 0).
Qed.

(** What a duplicating call did: [newfd] refers to the file of [oldfd]. *)
Definition dup_done k C k' (x : process) (newfd f : Z) (cloexec : bool) : Prop :=
  exists L' U' E' b, files_ok k' C L' U' E' /\ keeps k k' /\
    sched_only (<[current_process k := fd_set x newfd f b]> (k_procs k)) (k_procs k') /\
    (cloexec_open x -> forall i, 0 <= i < MAX_FD_SIZE ->
       bitset_mem b i = if decide (i = newfd) then cloexec else bitset_mem (p_close_on_exec x) i) /\
    k_files k' = add_ref f (drop_ref (fd_of x newfd) (k_files k)).

Lemma drop_ref_null k C L U E : files_ok k C L U E -> drop_ref 0 (k_files k) = k_files k.
Proof.
  intros HO. unfold drop_ref. destruct (k_files k !! 0) as [fl|] eqn:H0; [|done].
  by destruct (fi_count _ _ _ _ _ _ _ (fo_inv _ _ _ _ _ HO) 0 fl H0).
Qed.

(** On a free descriptor the mark becomes what was asked for. *)
Lemma cloexec_after_mem x fd cloexec b i :
  bitset_wf MAX_FD_SIZE (p_close_on_exec x) -> cloexec_open x -> 0 <= fd < MAX_FD_SIZE -> fd_of x fd = 0 ->
  cloexec_after (p_close_on_exec x) fd cloexec = Some b -> 0 <= i < MAX_FD_SIZE ->
  bitset_mem b i = if decide (i = fd) then cloexec else bitset_mem (p_close_on_exec x) i.
Proof.
  intros Hwf Ho Hr H0 Hb Hi.
  assert (Hno : bitset_mem (p_close_on_exec x) fd = false).
  { destruct (bitset_mem _ _) eqn:E; [|done]. by destruct (Ho fd Hr E). }
  destruct cloexec; simpl in Hb.
  - destruct (bitset_spec MAX_FD_SIZE _ fd ltac:(done) Hwf Hr) as [(b' & Hb' & _ & Hm) _].
    replace b with b' by congruence. rewrite (Hm i Hi). destruct (Z.eqb_spec i fd), (decide (i = fd)); done.
  - injection Hb as <-. destruct (decide (i = fd)) as [->|]; done.
Qed.

Lemma install_done k C L U E x fd f fl cloexec :
  files_ok k C L U E -> k_procs k !! current_process k = Some x ->
  0 <= fd < MAX_FD_SIZE -> fd_of x fd = 0 -> k_files k !! f = Some fl ->
  exists k', install (current_process k) fd f cloexec k = Ok (fd, k') /\ dup_done k C k' x fd f cloexec.
Proof.
  intros HO Hx Hr H0 Hf.
  destruct (install_spec _ _ _ _ _ _ _ fd _ _ cloexec HO Hx Hr H0 Hf)
    as (k' & b & Ei & HO' & Hk & Hb & Hpr & Hfs & _).
  exists k'. split; [done|]. exists L, U, E, b. split; [done|]. split; [done|].
  split; [rewrite Hpr; apply sched_only_refl|].
  split; [|by rewrite H0, (drop_ref_null _ _ _ _ _ HO)].
  intros Hco i Hi. eapply cloexec_after_mem; try done. by apply (fo_sets _ _ _ _ _ HO _ _ Hx).
Qed.

Lemma process_dupfd_spec k C L U E x fd from flags :
  files_ok k C L U E -> k_procs k !! current_process k = Some x ->
  if decide (fd_of x fd = 0) then process_dupfd fd from flags k = Ok (- EBADF, k)
  else if decide (0 <= from < MAX_FD_SIZE) then
    (process_dupfd fd from flags k = Ok (- EMFILE, k) /\ forall h, from <= h < MAX_FD_SIZE -> fd_of x h <> 0) \/
    exists j k', first_free x from j /\ process_dupfd fd from flags k = Ok (j, k') /\
      dup_done k C k' x j (fd_of x fd) (truthy (Z.land flags O_CLOEXEC))
  else process_dupfd fd from flags k = Ok (- EINVAL, k).
Proof.
  intros HO Hx. unfold process_dupfd. mrun (get_file_ok _ _ _ _ _ _ fd HO Hx).
  destruct (decide (fd_of x fd = 0)) as [->|Hf]; [done|].
  rewrite (proj2 (Z.eqb_neq _ _)) by done.
  destruct (decide (0 <= from < MAX_FD_SIZE)) as [Hr|Hr].
  2: { destruct (Z.ltb_spec from 0), (Z.leb_spec MAX_FD_SIZE from); simpl; done || lia. }
  rewrite (proj2 (Z.ltb_ge from 0)), (proj2 (Z.leb_gt MAX_FD_SIZE from)) by lia. cbn [orb].
  destruct (fo_file _ _ _ _ _ _ _ _ _ HO Hx eq_refl Hf) as [fl Hfl].
  destruct (dupfd_loop_spec _ _ _ _ _ _ _ _ flags HO Hx Hfl (Z.to_nat (MAX_FD_SIZE - from)) from)
    as [[Er Hall]|(j & Hj & Er)]; [lia|lia|by left|right].
  destruct Hj as (Hj & Hj0 & Hall).
  destruct (install_done _ _ _ _ _ _ j _ _ (truthy (Z.land flags O_CLOEXEC)) HO Hx ltac:(lia) Hj0 Hfl)
    as (k' & Ei & Hd).
  exists j, k'. split; [done|]. by rewrite Er.
Qed.

(** The common end of [process_dup2] and [process_dup3]. *)
Definition replace_fd (file newfd : Z) (cloexec : bool) : M state Z :=
  let* cur := gets current_process in
  let* f := get_fd cur newfd in
  let* _ := (if truthy f then process_close newfd else ret 0) in
  install cur newfd file cloexec.

Lemma replace_fd_spec k C L U E x oldfd newfd cloexec :
  files_ok k C L U E -> k_procs k !! current_process k = Some x ->
  fd_of x oldfd <> 0 -> 0 <= newfd < MAX_FD_SIZE -> oldfd <> newfd ->
  exists k', replace_fd (fd_of x oldfd) newfd cloexec k = Ok (newfd, k') /\
    dup_done k C k' x newfd (fd_of x oldfd) cloexec.
Proof.
  intros HO Hx Hf Hr Hne. unfold replace_fd. erewrite (bind_ok (gets _)) by reflexivity.
  pose proof (fo_length _ _ _ _ _ _ _ HO Hx) as Hlen.
  mrun (get_fd_ok _ _ _ _ _ Hx (fd_of_in x newfd Hr Hlen)).
  destruct (decide (fd_of x newfd = 0)) as [H0|H0].
  { rewrite (proj2 (truthy_false _) H0). erewrite (bind_ok (ret 0)) by reflexivity.
    destruct (fo_file _ _ _ _ _ _ _ _ _ HO Hx eq_refl Hf) as [fl Hfl]. by eapply install_done. }
  rewrite (proj2 (truthy_true _) H0).
  pose proof (process_close_spec _ _ _ _ _ _ newfd HO Hx) as Hcl. rewrite decide_False in Hcl by done.
  destruct Hcl as (fl & k1 & L1 & U1 & E1 & b1 & Hfl & Er & HO1 & Hk1 & Hb1 & Hs1 & Hfs1 & _). mrun Er.
  destruct (sched_only_lookup _ _ _ _ Hs1 (lookup_insert_eq _ _ _)) as (st & sp & Hx1).
  set (x1 := set_p_suspend sp (set_p_state st (fd_set x newfd 0 b1))) in Hx1.
  assert (Hfd1 : forall i, fd_of x1 i = if decide (i = newfd) then 0 else fd_of x i)
    by (intros i; exact (fd_of_set x newfd 0 b1 i Hr Hlen)).
  assert (Hold : fd_of x1 oldfd = fd_of x oldfd) by (by rewrite Hfd1, decide_False).
  assert (Hnew : fd_of x1 newfd = 0) by (by rewrite Hfd1, decide_True).
  assert (Hm1 : forall i, 0 <= i < MAX_FD_SIZE ->
    bitset_mem b1 i = negb (i =? newfd) && bitset_mem (p_close_on_exec x) i).
  { destruct (bitset_spec MAX_FD_SIZE _ newfd ltac:(done) (fo_sets _ _ _ _ _ HO _ _ Hx) Hr)
      as [_ (b' & Hb' & _ & Hm)]. replace b1 with b' by congruence. done. }
  assert (Hco1 : cloexec_open x -> cloexec_open x1).
  { intros Hco i Hi. change (p_close_on_exec x1) with b1. rewrite (Hm1 i Hi), Hfd1.
    destruct (Z.eqb_spec i newfd), (decide (i = newfd)); try done. simpl. by apply Hco. }
  destruct (kp_table _ _ Hk1) as (_ & Hcur & _). rewrite <- Hcur in Hx1.
  destruct (fo_file _ _ _ _ _ _ _ _ _ HO1 Hx1 Hold Hf) as [fl1 Hfl1].
  destruct (install_done _ _ _ _ _ _ newfd _ _ cloexec HO1 Hx1 Hr Hnew Hfl1)
    as (k' & Ei & (L' & U' & E' & b & HO' & Hk' & Hs' & Hm & Hfs')).
  rewrite Hcur in *. exists k'. split; [done|]. exists L', U', E', b.
  split; [done|]. split; [by eapply keeps_trans|]. split; [|split].
  - eapply sched_only_trans; [|exact Hs'].
    replace (fd_set x1 newfd (fd_of x oldfd) b)
      with (set_p_suspend sp (set_p_state st (fd_set x newfd (fd_of x oldfd) b))).
    + rewrite <- (insert_insert_eq (k_procs k) (current_process k)
        (fd_set x newfd (fd_of x oldfd) b) (fd_set x newfd 0 b1)). by apply sched_only_insert_both.
    + unfold fd_set, x1. cbn [p_files set_p_files set_p_close_on_exec set_p_suspend set_p_state].
      unfold fd_set. simpl. rewrite list_insert_insert_eq. done.
  - intros Hco i Hi. rewrite (Hm (Hco1 Hco) i Hi). destruct (decide (i = newfd)); [done|].
    change (p_close_on_exec x1) with b1. rewrite (Hm1 i Hi). by rewrite (proj2 (Z.eqb_neq i newfd)).
  - by rewrite Hfs', Hnew, (drop_ref_null _ _ _ _ _ HO1), Hfs1.
Qed.

(** [process_dup2] is [process_dup3] but for the equal descriptors and the flag. *)
Definition dup_post k C (x : process) (oldfd newfd : Z) (same : Z) (cloexec : bool)
    (out : res (Z * state)) : Prop :=
  if decide (fd_of x oldfd = 0) then out = Ok (- EBADF, k)
  else if decide (0 <= newfd < MAX_FD_SIZE) then
    if decide (oldfd = newfd) then out = Ok (same, k)
    else exists k', out = Ok (newfd, k') /\ dup_done k C k' x newfd (fd_of x oldfd) cloexec
  else out = Ok (- EBADF, k).

Lemma dup_post_intro k C L U E x oldfd newfd same cloexec :
  files_ok k C L U E -> k_procs k !! current_process k = Some x ->
  dup_post k C x oldfd newfd same cloexec
    ((let* file := get_file oldfd in
      if file =? 0 then ret (- EBADF)
      else if (newfd <? 0) || (MAX_FD_SIZE <=? newfd) then ret (- EBADF)
      else if oldfd =? newfd then ret same
      else replace_fd file newfd cloexec) k).
Proof.
  intros HO Hx. unfold dup_post. mrun (get_file_ok _ _ _ _ _ _ oldfd HO Hx).
  destruct (decide (fd_of x oldfd = 0)) as [->|Hf]; [done|]. rewrite (proj2 (Z.eqb_neq _ _)) by done.
  destruct (decide (0 <= newfd < MAX_FD_SIZE)) as [Hr|Hr].
  2: { destruct (Z.ltb_spec newfd 0), (Z.leb_spec MAX_FD_SIZE newfd); simpl; done || lia. }
  rewrite (proj2 (Z.ltb_ge newfd 0)), (proj2 (Z.leb_gt MAX_FD_SIZE newfd)) by lia. cbn [orb].
  destruct (decide (oldfd = newfd)) as [->|Hne]; [by rewrite Z.eqb_refl|].
  rewrite (proj2 (Z.eqb_neq _ _)) by done. by eapply replace_fd_spec.
Qed.

Lemma process_dup2_spec k C L U E x oldfd newfd :
  files_ok k C L U E -> k_procs k !! current_process k = Some x ->
  dup_post k C x oldfd newfd newfd false (process_dup2 oldfd newfd k).
Proof. intros HO Hx. exact (dup_post_intro _ _ _ _ _ _ oldfd newfd newfd false HO Hx). Qed.

Lemma process_dup3_spec k C L U E x oldfd newfd flags :
  files_ok k C L U E -> k_procs k !! current_process k = Some x ->
  dup_post k C x oldfd newfd (- EINVAL) (truthy (Z.land flags O_CLOEXEC))
    (process_dup3 oldfd newfd flags k).
Proof. intros HO Hx. exact (dup_post_intro _ _ _ _ _ _ oldfd newfd (- EINVAL) _ HO Hx). Qed.

(** ** New files *)
Lemma files_inv_new k C L U E T D f m :
  files_inv k C L U E T D -> (forall c, ~ L c f) -> f <> 0 ->
  MAX_FD_SIZE * Z.of_nat (size T) + Z.of_nat (length D) < 2 ^ 31 - 1 ->
  km_inv m C (fun c x => L c x \/ (c = file_cache (k_caches k) /\ x = f)) U ->
  k_files k !! f = None /\
  files_inv (set_k_files (<[f := File FF_UNUSED 0 0 0 1]> (k_files k)) (set_k_mem m k)) C
    (fun c x => L c x \/ (c = file_cache (k_caches k) /\ x = f)) U E T (f :: D).
Proof.
  intros HI Hfresh Hf0 Hb HM.
  assert (Hnone : k_files k !! f = None).
  { destruct (k_files k !! f) as [fl|] eqn:Hf; [|done].
    destruct (fi_count _ _ _ _ _ _ _ HI f fl Hf) as (_ & HLf & _). by destruct (Hfresh _ HLf). }
  assert (Hzero : refs T f + occ f D = 0).
  { pose proof (refs_nonneg T f). pose proof (occ_nonneg f D).
    destruct (decide (refs T f + occ f D = 0)); [done|].
    destruct (fi_valid _ _ _ _ _ _ _ HI f Hf0) as [fl Hfl]; [lia|congruence]. }
  set (nf := File FF_UNUSED 0 0 0 1).
  assert (Hget : forall g flg, <[f := nf]> (k_files k) !! g = Some flg ->
    (g = f /\ flg = nf) \/ (g <> f /\ k_files k !! g = Some flg)).
  { intros g flg. destruct (decide (f = g)) as [<-|].
    - rewrite lookup_insert_eq. intros [= <-]. by left.
    - rewrite lookup_insert_ne by done. by right. }
  assert (Hsome : forall g, g = f \/ is_Some (k_files k !! g) -> is_Some (<[f := nf]> (k_files k) !! g)).
  { intros g Hg. destruct (decide (f = g)) as [<-|]; [rewrite lookup_insert_eq; eauto|].
    rewrite lookup_insert_ne by done. destruct Hg; [congruence|done]. }
  split; [done|]. split; try apply HI.
  - apply pipes_inv_files. eapply pipes_inv_mem; [apply HI|done| |]; intros a Ha; by left.
  - intros g flg Hg. rewrite occ_cons. destruct (Hget g flg Hg) as [[-> ->]|[Hne Hg']].
    + rewrite decide_True by done. split_and!; [done|by right|simpl; lia|done].
    + rewrite decide_False by done. destruct (fi_count _ _ _ _ _ _ _ HI g flg Hg') as (? & ? & ? & ?).
      split_and!; [done|by left|done|done].
  - intros g Hg. rewrite occ_cons. intros Hr. apply Hsome. destruct (decide (g = f)) as [->|]; [by left|right].
    apply (fi_valid _ _ _ _ _ _ _ HI); [done|lia].
  - apply not_elem_of_cons. split; [done|apply HI].
  - intros g [Hg|[_ ->]]; apply Hsome; [right; by apply (fi_live _ _ _ _ _ _ _ HI)|by left].
  - intros g flg Hg Ht. destruct (Hget g flg Hg) as [[-> ->]|[Hne Hg']]; [done|].
    by apply (fi_pipe_file _ _ _ _ _ _ _ HI g).
  - intros a p rd Hp. cbn [k_files set_k_files]. rewrite (fi_pipe_count _ _ _ _ _ _ _ HI a p rd Hp).
    unfold pipe_refs. rewrite msum_insert by done. rewrite decide_False; [lia|]. by intros (? & _).
  - simpl length. lia.
Qed.

(** The body of the loop of [alloc_file]. *)
Definition alloc_at (p i : Z) : M state Z :=
  let* fc := cache_of file_cache in
  let* file := kmem (km_obj_alloc fc) in
  do* put_file_obj file (File FF_UNUSED 0 0 0 0) in
  do* upd_file_obj file (set_f_count 1) in
  do* set_fd p i file in
  ret i.

Lemma alloc_at_spec k C L U E p x i :
  files_ok k C L U E -> k_procs k !! p = Some x -> 0 <= i < MAX_FD_SIZE -> fd_of x i = 0 ->
  alloc_at p i k = Err Halt \/
  exists f k' L', alloc_at p i k = Ok (i, k') /\ files_ok k' C L' U E /\ keeps k k' /\
    k_procs k' = <[p := fd_set x i f (p_close_on_exec x)]> (k_procs k) /\
    f <> 0 /\ k_files k !! f = None /\ k_files k' = <[f := File FF_UNUSED 0 0 0 1]> (k_files k) /\
    k_pipes k' = k_pipes k.
Proof.
  intros HO Hx Hr H0. pose proof (fo_inv _ _ _ _ _ HO) as HI. pose proof (fo_room _ _ _ _ _ HO) as Hroom.
  unfold alloc_at, cache_of. erewrite (bind_ok (gets _)) by reflexivity.
  destruct (fi_cache _ _ _ _ _ _ _ HI) as ([o Ho] & _).
  destruct (km_obj_alloc_spec _ _ _ _ _ _ (pi_mem _ _ _ _ _ (fi_pipes _ _ _ _ _ _ _ HI)) Ho)
    as [Ea|(f & m & Ea & Hfresh & Hf0 & HM)]; [left; apply bind_err; by apply kmem_err|right].
  mrun (kmem_ok _ _ _ _ Ea). unfold put_file_obj. erewrite (bind_ok (modify _)) by reflexivity.
  erewrite (bind_ok (upd_file_obj f _)); [|apply upd_file_obj_ok, lookup_insert_eq].
  cbn [k_files set_k_files set_k_mem]. rewrite insert_insert_eq.
  change (set_f_count 1 _) with (File FF_UNUSED 0 0 0 1).
  destruct (files_inv_new k C L U E (p_files <$> k_procs k) [] f m HI Hfresh Hf0) as [Hnone HI1].
  { rewrite map_size_fmap. simpl length. change MAX_FD_SIZE with 32 in *. lia. }
  { done. }
  set (k1 := set_k_files (<[f := File FF_UNUSED 0 0 0 1]> (k_files k)) (set_k_mem m k)) in HI1.
  change (set_k_files _ (set_k_files _ (set_k_mem m k))) with k1.
  pose proof (fd_of_in x i Hr (fo_length _ _ _ _ _ _ _ HO Hx)) as Hl. rewrite H0 in Hl.
  mrun (set_fd_ok k1 p x i f 0 Hx Hl).
  assert (Hset : set_p_files (<[Z.to_nat i := f]> (p_files x)) x = fd_set x i f (p_close_on_exec x))
    by (by destruct x).
  rewrite Hset. set (k2 := set_k_procs _ k1). eexists f, k2, _. split; [reflexivity|].
  assert (Hs : sched_only (<[p := fd_set x i f (p_close_on_exec x)]> (k_procs k)) (k_procs k2))
    by apply sched_only_refl.
  split; [|split; [|done]].
  - eapply files_ok_change; [done|done|exact Hs|exact (fo_sets _ _ _ _ _ HO p x Hx)|].
    apply files_inv_procs; [|intros q Hq; by apply is_Some_insert_proc].
    apply ghost_give; [exact HI1|by rewrite lookup_fmap, Hx|done].
  - eapply keeps_change; [exact Hx| |exact Hs| | |]; done.
Qed.

Lemma alloc_file_spec k C L U E p x :
  files_ok k C L U E -> k_procs k !! p = Some x ->
  (alloc_file p k = Ok (- EMFILE, k) /\ forall h, 0 <= h < MAX_FD_SIZE -> fd_of x h <> 0) \/
  exists i, first_free x 0 i /\ alloc_file p k = alloc_at p i k.
Proof.
  intros HO Hx. unfold alloc_file.
  apply (first_free_scan (fun n i => alloc_file_loop n p i k)); [done| |lia|by rewrite Z2Nat.id].
  intros n i Hi. cbn [alloc_file_loop].
  mrun (get_fd_ok _ _ _ _ _ Hx (fd_of_in x i Hi (fo_length _ _ _ _ _ _ _ HO Hx))).
  by destruct (fd_of x i =? 0).
Qed.

(** ** Pipes *)
Definition pipe_file (a : Z) (rd : bool) (flags : Z) : file :=
  File FF_PIPE a (Z.lor (Z.lor (side_mode rd) O_APPEND) (Z.land flags PIPE2_FLAGS)) 0 1.

Lemma pipe_file_mode a rd flags : access_mode (f_flags (pipe_file a rd flags)) = side_mode rd.
Proof.
  unfold access_mode, pipe_file. cbn [f_flags]. rewrite !Z.land_lor_distr_l, <- Z.land_assoc.
  change (Z.land PIPE2_FLAGS O_ACCMODE) with 0. rewrite Z.land_0_r, Z.lor_0_r. by destruct rd.
Qed.

Lemma pipe_file_delta a rd flags a' rd' :
  side_delta (pipe_file a rd flags) a' rd' = if decide (a' = a /\ rd' = rd) then 1 else 0.
Proof.
  unfold side_delta. destruct (decide (a' = a /\ rd' = rd)) as [[-> ->]|Hn].
  - rewrite decide_True; [done|]. split_and!; [done|done|apply pipe_file_mode].
  - rewrite decide_False; [done|]. intros (_ & <- & Hm). rewrite pipe_file_mode in Hm.
    apply side_mode_inj in Hm. by apply Hn.
Qed.

(** A file that was just made gets its type. *)
Lemma pipe_refs_typed fs f fl a rd :
  fs !! f = Some (File FF_UNUSED 0 0 0 1) -> f_count fl = 1 ->
  pipe_refs (<[f := fl]> fs) a rd = pipe_refs fs a rd + side_delta fl a rd.
Proof.
  intros Hf Hc. rewrite (pipe_refs_update _ _ _ _ _ _ Hf), decide_False by (by intros (? & _)).
  unfold side_delta. destruct (decide (on_side a rd fl)); lia.
Qed.

Lemma pipe_refs_none k C L U E T D a rd :
  files_inv k C L U E T D -> k_pipes k !! a = None -> pipe_refs (k_files k) a rd = 0.
Proof.
  intros HI Ha. unfold pipe_refs. rewrite (msum_ext _ (fun _ _ => 0)); [apply msum_zero|].
  intros f fl Hf. apply decide_False. intros (Ht & Hp & _).
  destruct (fi_pipe_file _ _ _ _ _ _ _ HI f fl Hf Ht) as (rd' & p & _ & H). congruence.
Qed.

Lemma files_inv_pipe k C L U E T D r w a p k' L' U' flags :
  files_inv k C L U E T D -> r <> w ->
  k_files k !! r = Some (File FF_UNUSED 0 0 0 1) -> k_files k !! w = Some (File FF_UNUSED 0 0 0 1) ->
  pipes_inv k' C L' U' E -> k_pipes k !! a = None -> k_pipes k' = <[a := p]> (k_pipes k) ->
  pp_readers p = 1 -> pp_writers p = 1 -> k_caches k' = k_caches k ->
  (forall c x, L' c x <-> L c x \/ (c = pipe_cache (k_caches k) /\ x = a)) ->
  files_inv (set_k_files (<[r := pipe_file a true flags]> (<[w := pipe_file a false flags]> (k_files k))) k')
    C L' U' E T D.
Proof.
  intros HI Hrw Hr Hw HI' Ha Hk' H1 H2 Hc HL.
  destruct (fi_cache _ _ _ _ _ _ _ HI) as (Hfc & Hn1 & _).
  assert (HLf : forall x, L' (file_cache (k_caches k)) x <-> L (file_cache (k_caches k)) x) by naive_solver.
  assert (Hget : forall g flg, <[r := pipe_file a true flags]> (<[w := pipe_file a false flags]> (k_files k)) !! g = Some flg ->
    exists flg', k_files k !! g = Some flg' /\ f_count flg' = f_count flg /\
      ((exists rd, flg = pipe_file a rd flags) \/ flg = flg')).
  { intros g flg. destruct (decide (r = g)) as [<-|].
    { rewrite lookup_insert_eq. intros [= <-]. eexists. split; [done|]. split; [done|left; by eexists]. }
    rewrite lookup_insert_ne by done. destruct (decide (w = g)) as [<-|].
    { rewrite lookup_insert_eq. intros [= <-]. eexists. split; [done|]. split; [done|left; by eexists]. }
    rewrite lookup_insert_ne by done. intros Hg. exists flg. split; [done|]. split; [done|by right]. }
  assert (Hsome : forall g, is_Some (k_files k !! g) ->
    is_Some (<[r := pipe_file a true flags]> (<[w := pipe_file a false flags]> (k_files k)) !! g)).
  { intros g Hg. rewrite !lookup_insert_is_Some'. tauto. }
  split.
  - by apply pipes_inv_files.
  - change (k_caches (set_k_files ?m k')) with (k_caches k'). rewrite Hc. apply HI.
  - apply HI.
  - intros g flg Hg. change (k_caches (set_k_files ?m k')) with (k_caches k'). rewrite Hc.
    destruct (Hget g flg Hg) as (flg' & Hg' & Hcnt & _). rewrite <- Hcnt, HLf.
    by apply (fi_count _ _ _ _ _ _ _ HI).
  - intros g Hg Hr'. apply Hsome. by apply (fi_valid _ _ _ _ _ _ _ HI).
  - apply HI.
  - intros g. change (k_caches (set_k_files ?m k')) with (k_caches k'). rewrite Hc. intros Hg.
    apply Hsome, (fi_live _ _ _ _ _ _ _ HI). by apply HLf.
  - intros g flg Hg Ht. change (k_pipes (set_k_files ?m k')) with (k_pipes k'). rewrite Hk'.
    destruct (Hget g flg Hg) as (flg' & Hg' & _ & [[rd ->]| ->]).
    + exists rd, p. split; [apply pipe_file_mode|apply lookup_insert_eq].
    + destruct (fi_pipe_file _ _ _ _ _ _ _ HI g flg' Hg' Ht) as (rd & q & Hm & Hq).
      exists rd, q. split; [done|]. rewrite lookup_insert_ne; [done|]. congruence.
  - intros a' q rd. change (k_pipes (set_k_files ?m k')) with (k_pipes k'). rewrite Hk'.
    cbn [k_files set_k_files]. rewrite pipe_refs_typed by (done || by rewrite lookup_insert_ne).
    rewrite pipe_refs_typed, !pipe_file_delta by done. destruct (decide (a = a')) as [<-|Hne].
    + rewrite lookup_insert_eq. intros [= <-]. rewrite (pipe_refs_none _ _ _ _ _ _ _ a rd HI Ha).
      destruct rd; destruct (decide (a = a /\ _)) as [[_ F1]|F1], (decide (a = a /\ _)) as [[_ F2]|F2];
        simpl; first [lia | discriminate | by destruct F1 | by destruct F2].
    + rewrite lookup_insert_ne by done. intros Hq. rewrite (fi_pipe_count _ _ _ _ _ _ _ HI a' q rd Hq).
      rewrite !decide_False by (by intros [-> _]). lia.
  - intros a' q. change (k_pipes (set_k_files ?m k')) with (k_pipes k'). rewrite Hk'.
    destruct (decide (a = a')) as [<-|Hne].
    + rewrite lookup_insert_eq. intros [= <-]. split; [|simpl; lia]. intros []; simpl; lia.
    + rewrite lookup_insert_ne by done. by apply (fi_pipe _ _ _ _ _ _ _ HI).
  - apply HI.
Qed.

(** Two files next to each other, written one at a time. *)
Lemma upd_file_first k r w fr fw fs g :
  r <> w -> upd_file_obj r g (set_k_files (<[r := fr]> (<[w := fw]> fs)) k) =
    Ok (tt, set_k_files (<[r := g fr]> (<[w := fw]> fs)) k).
Proof.
  intros Hne. erewrite upd_file_obj_ok by apply lookup_insert_eq. cbn [k_files set_k_files].
  by rewrite insert_insert_eq.
Qed.
Lemma upd_file_second k r w fr fw fs g :
  r <> w -> upd_file_obj w g (set_k_files (<[r := fr]> (<[w := fw]> fs)) k) =
    Ok (tt, set_k_files (<[r := fr]> (<[w := g fw]> fs)) k).
Proof.
  intros Hne. erewrite upd_file_obj_ok by (cbn [k_files set_k_files]; rewrite lookup_insert_ne by done; apply lookup_insert_eq).
  cbn [k_files set_k_files]. rewrite insert_insert_ne by done. by rewrite insert_insert_eq.
Qed.

(** The end of [process_pipe2], from [pipe_create] on. *)
Definition open_pipe (cur rfd wfd flags : Z) : M state (Z * option (Z * Z)) :=
  let* pipe := pipe_create in
  let* rfile := get_fd cur rfd in
  let* wfile := get_fd cur wfd in
  do* upd_file_obj wfile (set_f_type FF_PIPE) in
  do* upd_file_obj rfile (set_f_type FF_PIPE) in
  do* upd_file_obj wfile (set_f_ptr pipe) in
  do* upd_file_obj rfile (set_f_ptr pipe) in
  do* upd_file_obj rfile (set_f_flags (Z.lor (Z.lor O_RDONLY O_APPEND) (Z.land flags PIPE2_FLAGS))) in
  do* upd_file_obj wfile (set_f_flags (Z.lor (Z.lor O_WRONLY O_APPEND) (Z.land flags PIPE2_FLAGS))) in
  do* (if truthy (Z.land flags O_CLOEXEC)
       then do* cloexec_add cur rfd in cloexec_add cur wfd else ret tt) in
  ret (0, Some (rfd, wfd)).

(** Marking both ends. *)
Lemma mark_both_spec k p x rfd wfd (cloexec : bool) :
  k_procs k !! p = Some x -> bitset_wf MAX_FD_SIZE (p_close_on_exec x) ->
  0 <= rfd < MAX_FD_SIZE -> 0 <= wfd < MAX_FD_SIZE ->
  exists b, (if cloexec then do* cloexec_add p rfd in cloexec_add p wfd else ret tt) k =
      Ok (tt, set_k_procs (<[p := set_p_close_on_exec b x]> (k_procs k)) k) /\
    bitset_wf MAX_FD_SIZE b /\
    forall i, 0 <= i < MAX_FD_SIZE -> bitset_mem b i =
      (cloexec && ((i =? rfd) || (i =? wfd))) || bitset_mem (p_close_on_exec x) i.
Proof.
  intros Hx Hwf Hr Hw. destruct cloexec.
  - destruct (cloexec_add_ok k p x rfd Hx Hwf Hr) as (b1 & Hb1 & Hwf1 & E1).
    set (k1 := set_k_procs _ k) in E1.
    assert (Hx1 : k_procs k1 !! p = Some (set_p_close_on_exec b1 x)) by apply lookup_insert_eq.
    destruct (cloexec_add_ok k1 p _ wfd Hx1 Hwf1 Hw) as (b2 & Hb2 & Hwf2 & E2).
    exists b2. split; [|split; [done|]].
    + mrun E1. rewrite E2. unfold k1. cbn [k_procs set_k_procs]. by rewrite insert_insert_eq.
    + intros i Hi. destruct (bitset_spec MAX_FD_SIZE _ rfd ltac:(done) Hwf Hr) as [(c1 & Hc1 & _ & Hm1) _].
      destruct (bitset_spec MAX_FD_SIZE _ wfd ltac:(done) Hwf1 Hw) as [(c2 & Hc2 & _ & Hm2) _].
      replace c1 with b1 in * by congruence. cbn [p_close_on_exec set_p_close_on_exec] in Hb2.
      replace c2 with b2 in * by congruence. rewrite (Hm2 i Hi), (Hm1 i Hi). simpl.
      by destruct (i =? rfd), (i =? wfd).
  - exists (p_close_on_exec x). split; [|done].
    replace (set_p_close_on_exec (p_close_on_exec x) x) with x by (by destruct x).
    rewrite insert_id by done. by destruct k.
Qed.

Definition opened_pipe k k' cur (x : process) (rfd wfd r w flags : Z) : Prop :=
  exists a i b, k_pipes k !! a = None /\ holds k' a (Pipe i 0 0 1 1 [] []) [] /\
    k_files k' = <[r := pipe_file a true flags]> (<[w := pipe_file a false flags]> (k_files k)) /\
    k_procs k' = <[cur := set_p_close_on_exec b x]> (k_procs k) /\
    forall i, 0 <= i < MAX_FD_SIZE -> bitset_mem b i =
      (truthy (Z.land flags O_CLOEXEC) && ((i =? rfd) || (i =? wfd))) || bitset_mem (p_close_on_exec x) i.

Lemma open_pipe_spec k C L U E cur x rfd wfd r w flags :
  files_ok k C L U E -> k_procs k !! cur = Some x ->
  0 <= rfd < MAX_FD_SIZE -> 0 <= wfd < MAX_FD_SIZE -> fd_of x rfd = r -> fd_of x wfd = w -> r <> w ->
  k_files k !! r = Some (File FF_UNUSED 0 0 0 1) -> k_files k !! w = Some (File FF_UNUSED 0 0 0 1) ->
  open_pipe cur rfd wfd flags k = Err Halt \/
  exists k' L' U', open_pipe cur rfd wfd flags k = Ok ((0, Some (rfd, wfd)), k') /\
    files_ok k' C L' U' E /\ keeps k k' /\ opened_pipe k k' cur x rfd wfd r w flags.
Proof.
  intros HO Hx Hrr Hwr Hr Hw Hne Hfr Hfw. pose proof (fo_inv _ _ _ _ _ HO) as HI.
  pose proof (fo_length _ _ _ _ _ _ _ HO Hx) as Hlen. unfold open_pipe.
  destruct (pipe_create_spec k C L U E (fi_pipes _ _ _ _ _ _ _ HI))
    as [Er|(a & i & k1 & L1 & Er & Ha & Hi & Hp1 & Hh1 & HI1 & HL1 & (m & Hk1))]; [left; by apply bind_err|right].
  mrun Er.
  assert (Hx1 : k_procs k1 !! cur = Some x) by (by rewrite Hk1).
  pose proof (fd_of_in x rfd Hrr Hlen) as Hlr. rewrite Hr in Hlr.
  pose proof (fd_of_in x wfd Hwr Hlen) as Hlw. rewrite Hw in Hlw.
  mrun (get_fd_ok _ _ _ _ _ Hx1 Hlr). mrun (get_fd_ok _ _ _ _ _ Hx1 Hlw).
  assert (Hk1f : k1 = set_k_files (<[r := File FF_UNUSED 0 0 0 1]> (<[w := File FF_UNUSED 0 0 0 1]> (k_files k))) k1).
  { rewrite (insert_id (k_files k) w) by done. rewrite insert_id by done. by rewrite Hk1. }
  rewrite Hk1f.
  do 6 (erewrite (bind_ok (upd_file_obj _ _)); [|first [by apply upd_file_second | by apply upd_file_first]]).
  cbn [set_f_type set_f_ptr set_f_flags f_type f_ptr f_flags f_offset f_count].
  set (k2 := set_k_files _ k1).
  change k2 with (set_k_files (<[r := pipe_file a true flags]> (<[w := pipe_file a false flags]> (k_files k))) k1) in k2.
  assert (HI2 : files_inv k2 C L1 ({[i]} ∪ U) E (p_files <$> k_procs k) []).
  { eapply files_inv_pipe; [exact HI|done|done|done|exact HI1|exact Ha|exact Hp1|done|done|by rewrite Hk1|exact HL1]. }
  destruct (mark_both_spec k2 cur x rfd wfd (truthy (Z.land flags O_CLOEXEC)) Hx1) as (b & Eb & Hwb & Hm);
    [by apply (fo_sets _ _ _ _ _ HO cur)|done|done|]. mrun Eb.
  set (k3 := set_k_procs _ k2). exists k3, L1, ({[i]} ∪ U). split; [done|].
  assert (Hpr : k_procs k3 = <[cur := set_p_close_on_exec b x]> (k_procs k)) by (simpl; by rewrite Hk1).
  assert (Hs : sched_only (<[cur := set_p_close_on_exec b x]> (k_procs k)) (k_procs k3))
    by (rewrite Hpr; apply sched_only_refl).
  split; [|split].
  - eapply files_ok_change; [done|done|exact Hs|done|].
    apply files_inv_procs; [|intros q Hq; by apply is_Some_insert_proc].
    change (p_files (set_p_close_on_exec b x)) with (p_files x). rewrite insert_id; [done|].
    by rewrite lookup_fmap, Hx.
  - eapply keeps_change; [exact Hx| |exact Hs| | |]; try done; simpl; by rewrite Hk1.
  - exists a, i, b. split; [done|]. split; [exact Hh1|]. split; [done|]. split; [done|done].
Qed.

(** What [process_pipe2] does. *)
Definition pipe2_done k C k' (x : process) (rfd wfd flags : Z) : Prop :=
  exists L' U' E' a i r w b, files_ok k' C L' U' E' /\ keeps k k' /\
    first_free x 0 rfd /\ first_free x (rfd + 1) wfd /\
    r <> 0 /\ w <> 0 /\ r <> w /\ k_files k !! r = None /\ k_files k !! w = None /\
    k_pipes k !! a = None /\ holds k' a (Pipe i 0 0 1 1 [] []) [] /\
    k_files k' = <[r := pipe_file a true flags]> (<[w := pipe_file a false flags]> (k_files k)) /\
    k_procs k' = <[current_process k := fd_set (fd_set x rfd r b) wfd w b]> (k_procs k) /\
    (cloexec_open x -> forall i, 0 <= i < MAX_FD_SIZE -> bitset_mem b i =
      if decide (i = rfd \/ i = wfd) then truthy (Z.land flags O_CLOEXEC)
      else bitset_mem (p_close_on_exec x) i).

(** With one free descriptor it is taken and closed again. *)
Definition pipe2_undone k C k' (x : process) : Prop :=
  exists L' U' E' rfd b, files_ok k' C L' U' E' /\ keeps k k' /\ first_free x 0 rfd /\
    (forall h, rfd < h < MAX_FD_SIZE -> fd_of x h <> 0) /\ k_files k' = k_files k /\
    sched_only (<[current_process k := fd_set x rfd 0 b]> (k_procs k)) (k_procs k') /\
    (cloexec_open x -> forall i, 0 <= i < MAX_FD_SIZE ->
       bitset_mem b i = bitset_mem (p_close_on_exec x) i).

Definition pipe2_post k C (x : process) (flags : Z) (out : res ((Z * option (Z * Z)) * state)) : Prop :=
  if truthy (Z.land flags (not32 PIPE2_FLAGS)) then out = Ok ((- EINVAL, None), k)
  else (out = Ok ((- EMFILE, None), k) /\ forall h, 0 <= h < MAX_FD_SIZE -> fd_of x h <> 0) \/
    out = Err Halt \/
    (exists k', out = Ok ((- EMFILE, None), k') /\ pipe2_undone k C k' x) \/
    exists k' rfd wfd, out = Ok ((0, Some (rfd, wfd)), k') /\ pipe2_done k C k' x rfd wfd flags.

Lemma fd_set_twice x i f b j g b' :
  fd_set (fd_set x i f b) j g b' = fd_set (fd_set x i f b') j g b'.
Proof. reflexivity. Qed.

(** The second descriptor, seen from the table before the first one was taken. *)
Lemma first_free_second x rfd r b wfd :
  Z.of_nat (length (p_files x)) = MAX_FD_SIZE -> first_free x 0 rfd -> r <> 0 ->
  first_free (fd_set x rfd r b) 0 wfd -> first_free x (rfd + 1) wfd.
Proof.
  intros Hl (Hr & Hr0 & Hrall) Hne (Hw & Hw0 & Hwall).
  assert (Hfd : forall i, fd_of (fd_set x rfd r b) i = if decide (i = rfd) then r else fd_of x i)
    by (intros; apply fd_of_set; [lia|done]).
  rewrite Hfd in Hw0. destruct (decide (wfd = rfd)) as [|Hwr]; [done|].
  assert (rfd < wfd). { destruct (decide (rfd < wfd)); [done|]. destruct (Hrall wfd); [lia|done]. }
  split_and!; [lia|lia|done|]. intros h Hh. specialize (Hwall h ltac:(lia)). rewrite Hfd in Hwall.
  by rewrite decide_False in Hwall by lia.
Qed.

Lemma dropped_new fs f fl : fs !! f = None -> f_count fl = 1 -> drop_ref f (<[f := fl]> fs) = fs.
Proof.
  intros Hf Hc. unfold drop_ref, dropped. rewrite lookup_insert_eq, decide_True by done.
  by rewrite delete_insert_id.
Qed.

Lemma process_pipe2_spec k C L U E x flags :
  files_ok k C L U E -> k_procs k !! current_process k = Some x ->
  pipe2_post k C x flags (process_pipe2 flags k).
Proof.
  intros HO Hx. unfold pipe2_post, process_pipe2.
  destruct (truthy (Z.land flags (not32 PIPE2_FLAGS))); [done|].
  pose proof (fo_length _ _ _ _ _ _ _ HO Hx) as Hlen.
  erewrite (bind_ok (gets _)) by reflexivity. set (cur := current_process k) in *.
  destruct (alloc_file_spec _ _ _ _ _ _ _ HO Hx) as [[Er Hall]|(rfd & Hrfd & Er)].
  { left. mrun Er. done. }
  pose proof Hrfd as (Hr & Hr0 & _).
  destruct (alloc_at_spec _ _ _ _ _ _ _ rfd HO Hx ltac:(lia) Hr0)
    as [Ea|(r & k1 & L1 & Ea & HO1 & Hk1 & Hpr1 & Hrn & Hfr & Hfs1 & Hpp1)].
  { right; left. apply bind_err. by rewrite Er, Ea. }
  rewrite (bind_ok _ _ _ _ _ (eq_trans Er Ea)). rewrite (proj2 (Z.ltb_ge rfd 0)) by lia.
  set (x1 := fd_set x rfd r (p_close_on_exec x)) in Hpr1.
  assert (Hx1 : k_procs k1 !! cur = Some x1) by (rewrite Hpr1; apply lookup_insert_eq).
  assert (Hfd1 : forall i, fd_of x1 i = if decide (i = rfd) then r else fd_of x i)
    by (intros; apply fd_of_set; [lia|done]).
  destruct (kp_table _ _ Hk1) as (_ & Hcur1 & _).
  destruct (alloc_file_spec _ _ _ _ _ _ _ HO1 Hx1) as [[Er1 Hall1]|(wfd & Hwfd & Er1)].
  - right; right; left. mrun Er1. rewrite (proj2 (Z.ltb_lt (- EMFILE) 0)) by done.
    assert (Hx1' : k_procs k1 !! current_process k1 = Some x1) by (by rewrite Hcur1).
    pose proof (process_close_spec _ _ _ _ _ _ rfd HO1 Hx1') as Hcl.
    assert (Hr1 : fd_of x1 rfd = r) by (by rewrite Hfd1, decide_True).
    rewrite Hr1, decide_False in Hcl by done.
    destruct Hcl as (fl & k2 & L2 & U2 & E2 & b & _ & Ec & HO2 & Hk2 & Hb & Hs & Hfs2 & _).
    mrun Ec. exists k2. split; [done|]. exists L2, U2, E2, rfd, b. split; [done|].
    split; [by eapply keeps_trans|]. split; [done|]. split; [|split; [|split]].
    + intros h Hh. specialize (Hall1 h ltac:(lia)). rewrite Hfd1, decide_False in Hall1 by lia. done.
    + by rewrite Hfs2, Hfs1, dropped_new.
    + rewrite Hcur1, Hpr1, insert_insert_eq in Hs. unfold fd_set in Hs |- *.
      cbn [p_files set_p_files set_p_close_on_exec x1 fd_set] in Hs.
      rewrite list_insert_insert_eq in Hs. exact Hs.
    + intros Hco i Hi.
      destruct (bitset_spec MAX_FD_SIZE _ rfd ltac:(done) (fo_sets _ _ _ _ _ HO _ _ Hx) ltac:(lia)) as [_ (b' & Hb' & _ & Hm)].
      change (p_close_on_exec x1) with (p_close_on_exec x) in Hb. replace b with b' by congruence.
      rewrite (Hm i Hi). destruct (Z.eqb_spec i rfd) as [->|]; [|done]. simpl.
      destruct (bitset_mem (p_close_on_exec x) rfd) eqn:Hb1; [|done]. by destruct (Hco rfd Hi Hb1).
  - pose proof (first_free_second x rfd r (p_close_on_exec x) wfd Hlen Hrfd Hrn Hwfd) as Hwfd'.
    pose proof Hwfd as (Hw & Hw0 & _). pose proof Hwfd' as (Hw' & Hw0' & _).
    destruct (alloc_at_spec _ _ _ _ _ _ _ wfd HO1 Hx1 ltac:(lia) Hw0)
      as [Ea1|(w & k2 & L2 & Ea1 & HO2 & Hk2 & Hpr2 & Hwn & Hfw & Hfs2 & Hpp2)].
    { right; left. apply bind_err. by rewrite Er1, Ea1. }
    rewrite (bind_ok _ _ _ _ _ (eq_trans Er1 Ea1)). rewrite (proj2 (Z.ltb_ge wfd 0)) by lia.
    set (x2 := fd_set x1 wfd w (p_close_on_exec x1)) in Hpr2.
    assert (Hx2 : k_procs k2 !! cur = Some x2) by (rewrite Hpr2; apply lookup_insert_eq).
    assert (Hfd2 : forall i, fd_of x2 i = if decide (i = wfd) then w else fd_of x1 i).
    { intros. apply fd_of_set; [lia|]. exact (fo_length _ _ _ _ _ _ _ HO1 Hx1). }
    assert (Hrw : r <> w). { intros ->. rewrite Hfs1, lookup_insert_eq in Hfw. done. }
    assert (Hfr2 : k_files k2 !! r = Some (File FF_UNUSED 0 0 0 1))
      by (rewrite Hfs2, lookup_insert_ne, Hfs1 by done; apply lookup_insert_eq).
    assert (Hfw2 : k_files k2 !! w = Some (File FF_UNUSED 0 0 0 1)) by (rewrite Hfs2; apply lookup_insert_eq).
    destruct (open_pipe_spec k2 C L2 U E cur x2 rfd wfd r w flags HO2 Hx2)
      as [Eo|(k3 & L3 & U3 & Eo & HO3 & Hk3 & (a & i & b & Ha & Hh & Hfs3 & Hpr3 & Hm))];
      [lia|lia|by rewrite Hfd2, decide_False, Hfd1, decide_True by lia|by rewrite Hfd2, decide_True|done|done|done
      |by right; left|right; right; right].
    exists k3, rfd, wfd. split; [done|]. exists L3, U3, E, a, i, r, w, b.
    split; [done|]. split; [eapply keeps_trans; [|done]; by eapply keeps_trans|].
    split; [done|]. split; [done|]. split; [done|]. split; [done|]. split; [done|]. split; [done|].
    split; [|split; [by rewrite <- Hpp1, <- Hpp2|split; [done|split; [|split]]]].
    + rewrite Hfs1, lookup_insert_ne in Hfw by done. done.
    + rewrite Hfs3, Hfs2, Hfs1. rewrite (insert_insert_eq _ w).
      rewrite (insert_insert_ne _ w r) by done. by rewrite insert_insert_eq.
    + rewrite Hpr3, Hpr2, Hpr1, !insert_insert_eq. reflexivity.
    + intros Hco j Hj. rewrite (Hm j Hj). change (p_close_on_exec x2) with (p_close_on_exec x).
      assert (Hclear : j = rfd \/ j = wfd -> bitset_mem (p_close_on_exec x) j = false).
      { intros Hjw. destruct (bitset_mem (p_close_on_exec x) j) eqn:Hb1; [|done].
        destruct (Hco j Hj Hb1). by destruct Hjw as [->| ->]. }
      destruct (Z.eqb_spec j rfd), (Z.eqb_spec j wfd), (decide (j = rfd \/ j = wfd)); simpl; try tauto;
        rewrite ?andb_false_r, ?andb_true_r, ?Hclear, ?orb_false_r by tauto; done.
Qed.
End FileSpecs.
