(* ===== verification/FileTables.v ===== *)
(** * Open files: flags and whole tables

    [process_fcntl64], the loops of [process_fork], [process_exec] and
    [process_exit] over the descriptor table, and the properties of the open
    files: at every state the operations reach, each file is counted once per
    descriptor and each pipe once per file reference. *)

From stdpp Require Import base numbers list gmap.
From S2P Require Import Prelude Arith Signal Buddy BuddyProofs PageAlloc KernelMem Unix Kernel Pipe PipeProofs PipeSpecs Files FilesProofs FileSpecs.

#[local] Open Scope Z_scope.
#[local] Open Scope kernel_scope.

Section FileTables.
Context {S : Type} `{KM : KernelMem S}.
Notation state := (kernel S).
Implicit Types (k : state) (C : gmap Z Z) (L : Z -> Z -> Prop) (U : gset Z)
  (T : gmap Z (list Z)) (D : list Z).

(** ** Flags *)
Lemma cloexec_test_ok k p x i :
  k_procs k !! p = Some x -> bitset_wf MAX_FD_SIZE (p_close_on_exec x) -> 0 <= i < MAX_FD_SIZE ->
  exists w, cloexec_test p i k = Ok (w, k) /\ truthy w = bitset_mem (p_close_on_exec x) i.
Proof.
  intros Hx Hwf Hi. pose proof (bitset_slot_lt MAX_FD_SIZE _ i ltac:(done) Hwf Hi) as Hlt.
  destruct (lookup_lt_is_Some_2 _ _ Hlt) as [w Hw].
  exists (Z.land w (bitset_mask i)). unfold cloexec_test. mrun (get_proc_ok _ _ _ Hx).
  unfold bitset_mem, bitset_test. rewrite Hw. done.
Qed.

(** New status flags or a new offset, the same object, access mode and count. *)
Lemma files_ok_status k C L U E f fl fl' :
  files_ok k C L U E -> k_files k !! f = Some fl -> f_type fl' = f_type fl -> f_ptr fl' = f_ptr fl ->
  f_count fl' = f_count fl -> access_mode (f_flags fl') = access_mode (f_flags fl) ->
  files_ok (set_k_files (<[f := fl']> (k_files k)) k) C L U E.
Proof.
  intros HO Hf Ht Hp Hc Hm. pose proof (fo_inv _ _ _ _ _ HO) as HI.
  assert (Hget : forall g flg, <[f := fl']> (k_files k) !! g = Some flg ->
    exists flg', k_files k !! g = Some flg' /\ f_type flg = f_type flg' /\ f_ptr flg = f_ptr flg' /\
      access_mode (f_flags flg) = access_mode (f_flags flg') /\ f_count flg = f_count flg').
  { intros g flg. destruct (decide (f = g)) as [<-|].
    - rewrite lookup_insert_eq. intros [= <-]. by exists fl.
    - rewrite lookup_insert_ne by done. intros Hg. by exists flg. }
  assert (Hsome : forall g, is_Some (k_files k !! g) -> is_Some (<[f := fl']> (k_files k) !! g)).
  { intros g Hg. rewrite lookup_insert_is_Some'. by right. }
  split; [|apply HO|apply HO]. split; try apply HI.
  - by apply pipes_inv_files, HI.
  - intros g flg Hg. destruct (Hget g flg Hg) as (flg' & Hg' & _ & _ & _ & ->).
    by apply (fi_count _ _ _ _ _ _ _ HI).
  - intros g Hg Hr. by apply Hsome, (fi_valid _ _ _ _ _ _ _ HI).
  - intros g Hg. by apply Hsome, (fi_live _ _ _ _ _ _ _ HI).
  - intros g flg Hg. destruct (Hget g flg Hg) as (flg' & Hg' & -> & -> & -> & _).
    by apply (fi_pipe_file _ _ _ _ _ _ _ HI g).
  - intros a p rd Hp'. cbn [k_files set_k_files]. rewrite (fi_pipe_count _ _ _ _ _ _ _ HI a p rd Hp').
    rewrite (pipe_refs_update _ _ _ _ _ _ Hf), Hc.
    assert (Hiff : on_side a rd fl' <-> on_side a rd fl) by (unfold on_side; by rewrite Ht, Hp, Hm).
    destruct (decide (on_side a rd fl)), (decide (on_side a rd fl')); lia || tauto.
Qed.

Lemma setfl_mode arg flags :
  access_mode (Z.lor (Z.land arg FILE_STATUS_FLAGS) (Z.land flags O_ACCMODE)) = access_mode flags.
Proof.
  unfold access_mode. rewrite Z.land_lor_distr_l, <- !Z.land_assoc.
  change (Z.land FILE_STATUS_FLAGS O_ACCMODE) with 0. rewrite Z.land_0_r, Z.lor_0_l.
  by rewrite Z.land_diag.
Qed.

(** One process with a new close-on-exec set. *)
Lemma files_ok_marks k C L U E p x b :
  files_ok k C L U E -> k_procs k !! p = Some x -> bitset_wf MAX_FD_SIZE b ->
  files_ok (set_k_procs (<[p := set_p_close_on_exec b x]> (k_procs k)) k) C L U E.
Proof.
  intros HO Hx Hb. eapply (files_ok_change _ _ _ _ _ _ _ _ _ p x (set_p_close_on_exec b x));
    [done|done|apply sched_only_refl|done|].
  apply files_inv_procs; [|intros q Hq; by apply is_Some_insert_proc].
  change (p_files (set_p_close_on_exec b x)) with (p_files x).
  rewrite insert_id; [apply HO|by rewrite lookup_fmap, Hx].
Qed.

(** [process_fcntl64] on every command. *)
Definition fcntl_post k C (x : process) (fd cmd arg : Z) (out : res (Z * state)) : Prop :=
  let cur := current_process k in
  if decide (fd_of x fd = 0) then out = Ok (- EBADF, k)
  else exists fl, k_files k !! fd_of x fd = Some fl /\
    if cmd =? F_DUPFD then out = process_dupfd fd (s32 arg) 0 k
    else if cmd =? F_GETFD then
      out = Ok (if bitset_mem (p_close_on_exec x) fd then FD_CLOEXEC else 0, k)
    else if cmd =? F_SETFD then
      exists b k' L U E, out = Ok (0, k') /\ files_ok k' C L U E /\
        k' = set_k_procs (<[cur := set_p_close_on_exec b x]> (k_procs k)) k /\
        forall i, 0 <= i < MAX_FD_SIZE -> bitset_mem b i =
          if decide (i = fd) then truthy (Z.land arg FD_CLOEXEC) else bitset_mem (p_close_on_exec x) i
    else if cmd =? F_GETFL then
      out = Ok (Z.land (f_flags fl) (Z.lor FILE_STATUS_FLAGS O_ACCMODE), k)
    else if cmd =? F_SETFL then
      exists k' L U E, out = Ok (0, k') /\ files_ok k' C L U E /\
        k' = set_k_files (<[fd_of x fd := set_f_flags
               (Z.lor (Z.land arg FILE_STATUS_FLAGS) (access_mode (f_flags fl))) fl]> (k_files k)) k
    else out = Ok (- EINVAL, k).

Lemma process_fcntl64_spec k C L U E x fd cmd arg :
  files_ok k C L U E -> k_procs k !! current_process k = Some x ->
  fcntl_post k C x fd cmd arg (process_fcntl64 fd cmd arg k).
Proof.
  intros HO Hx. unfold fcntl_post, process_fcntl64. cbv zeta. mrun (get_file_ok _ _ _ _ _ _ fd HO Hx).
  destruct (decide (fd_of x fd = 0)) as [->|Hf]; [done|]. rewrite (proj2 (Z.eqb_neq (fd_of x fd) 0)) by done.
  destruct (fo_file _ _ _ _ _ _ _ _ _ HO Hx eq_refl Hf) as [fl Hfl]. exists fl. split; [done|].
  destruct (fd_of_lookup _ _ _ eq_refl Hf) as [Hr _].
  pose proof (fo_sets _ _ _ _ _ HO _ _ Hx) as Hwf.
  erewrite (bind_ok (gets _)) by reflexivity.
  destruct (cmd =? F_DUPFD); [done|]. destruct (cmd =? F_GETFD).
  { destruct (cloexec_test_ok k _ x fd Hx Hwf Hr) as (w & Ew & Hw). mrun Ew. by rewrite Hw. }
  destruct (cmd =? F_SETFD).
  { destruct (bitset_spec MAX_FD_SIZE _ fd ltac:(done) Hwf Hr) as [(ba & Hba & Hwa & Hma) (br & Hbr & Hwr & Hmr)].
    destruct (truthy (Z.land arg FD_CLOEXEC)).
    - destruct (cloexec_add_ok k _ x fd Hx Hwf Hr) as (b & Hb & Hwb & Eb). mrun Eb.
      eexists b, _, L, U, E. split; [reflexivity|]. split; [by apply files_ok_marks|]. split; [done|].
      intros i Hi. replace b with ba by congruence. rewrite (Hma i Hi).
      destruct (Z.eqb_spec i fd), (decide (i = fd)); done.
    - destruct (cloexec_remove_ok k _ x fd Hx Hwf Hr) as (b & Hb & Hwb & Eb). mrun Eb.
      eexists b, _, L, U, E. split; [reflexivity|]. split; [by apply files_ok_marks|]. split; [done|].
      intros i Hi. replace b with br by congruence. rewrite (Hmr i Hi).
      destruct (Z.eqb_spec i fd), (decide (i = fd)); done. }
  destruct (cmd =? F_GETFL); [by mrun (get_file_obj_ok _ _ _ Hfl)|].
  destruct (cmd =? F_SETFL); [|done].
  erewrite (bind_ok (upd_file_obj _ _)); [|by apply upd_file_obj_ok].
  eexists _, L, U, E. split; [reflexivity|]. split; [|done].
  eapply files_ok_status; try done. apply setfl_mode.
Qed.

(** ** Whole tables *)

(** [y] has the descriptors and marks of [x] where [keep] holds, none elsewhere,
    and is otherwise [x] up to scheduling. *)
Definition kept_fds (x y : process) (keep : Z -> bool) : Prop :=
  exists l b st sp, y = set_p_suspend sp (set_p_state st (set_p_close_on_exec b (set_p_files l x))) /\
    length l = length (p_files x) /\
    forall i, 0 <= i < MAX_FD_SIZE -> fd_of y i = if keep i then fd_of x i else 0.

Lemma kept_fds_refl x : kept_fds x x (fun _ => true).
Proof. exists (p_files x), (p_close_on_exec x), (p_state x), (p_suspend x). by destruct x. Qed.

Lemma kept_fds_trans x y z f g h :
  kept_fds x y f -> kept_fds y z g ->
  (forall i, 0 <= i < MAX_FD_SIZE -> fd_of x i <> 0 -> h i = f i && g i) -> kept_fds x z h.
Proof.
  intros (l & b & st & sp & -> & Hl & Hf) (l' & b' & st' & sp' & -> & Hl' & Hg) Hh.
  exists l', b', st', sp'. split; [done|]. split; [by rewrite Hl'|]. intros i Hi.
  rewrite (Hg i Hi), (Hf i Hi). destruct (decide (fd_of x i = 0)) as [->|Hn].
  - by destruct (g i), (f i), (h i).
  - rewrite (Hh i Hi Hn). by destruct (f i), (g i).
Qed.

(** The processes other than [p] change in scheduling only. *)
Definition others_sched p (m m' : gmap Z process) : Prop :=
  sched_only (delete p m) (delete p m').

Lemma others_sched_refl p m : others_sched p m m.
Proof. apply sched_only_refl. Qed.
Lemma others_sched_trans p m1 m2 m3 : others_sched p m1 m2 -> others_sched p m2 m3 -> others_sched p m1 m3.
Proof. apply sched_only_trans. Qed.
Lemma others_sched_insert p y m m' : sched_only (<[p := y]> m) m' -> others_sched p m m'.
Proof.
  intros H q. destruct (decide (p = q)) as [<-|Hne].
  - by rewrite !lookup_delete_eq.
  - rewrite !lookup_delete_ne by done. specialize (H q). by rewrite lookup_insert_ne in H.
Qed.

(** One turn of the loop of [process_exit]. *)
Lemma exit_turn_spec k C L U E p x i :
  files_ok k C L U E -> k_procs k !! p = Some x -> 0 <= i < MAX_FD_SIZE -> fd_of x i <> 0 ->
  exists k' L' U' E' y, (do* set_fd p i 0 in release_file (fd_of x i)) k = Ok (tt, k') /\
    files_ok k' C L' U' E' /\ keeps k k' /\ others_sched p (k_procs k) (k_procs k') /\
    k_procs k' !! p = Some y /\ kept_fds x y (fun j => negb (j =? i)).
Proof.
  intros HO Hx Hi Hf. pose proof (fo_length _ _ _ _ _ _ _ HO Hx) as Hlen.
  pose proof (fd_of_in x i Hi Hlen) as Hl. destruct (fo_file _ _ _ _ _ _ _ _ _ HO Hx eq_refl Hf) as [fl Hfl].
  pose proof (fo_room _ _ _ _ _ HO) as Hroom.
  mrun (set_fd_ok k p x i 0 _ Hx Hl). set (x1 := set_p_files _ x). set (k1 := set_k_procs _ k).
  destruct (release_file_spec k1 C L U E (<[p := p_files x1]> (p_files <$> k_procs k)) [] (fd_of x i) fl)
    as (k' & L' & U' & E' & Er & HI' & [Hkt Hc'] & Hso & _ & _).
  { apply files_inv_procs; [|intros q Hq; by apply is_Some_insert_proc].
    apply ghost_take; [apply HO|by rewrite lookup_fmap, Hx|done|done|]. rewrite map_size_fmap. simpl length.
    change MAX_FD_SIZE with 32 in *. lia. }
  { done. }
  change (k_procs k1) with (<[p := x1]> (k_procs k)) in Hso.
  destruct (sched_only_lookup _ _ _ _ Hso (lookup_insert_eq _ _ _)) as (st & sp & Hy).
  exists k', L', U', E', (set_p_suspend sp (set_p_state st x1)). split; [done|].
  split; [|split; [|split; [by eapply others_sched_insert|split; [done|]]]].
  - eapply (files_ok_change _ _ _ _ _ _ _ _ _ p x x1); [done|done|exact Hso| |done].
    exact (fo_sets _ _ _ _ _ HO p x Hx).
  - eapply keeps_change; [exact Hx| |exact Hso| | |]; [done|apply Hkt|apply Hkt|done].
  - exists (p_files x1), (p_close_on_exec x), st, sp. split; [by destruct x|].
    split; [apply length_insert|]. intros j Hj.
    change (fd_of (set_p_suspend sp (set_p_state st x1)) j) with (fd_of (fd_set x i 0 (p_close_on_exec x)) j).
    rewrite fd_of_set by done. destruct (decide (j = i)), (Z.eqb_spec j i); done.
Qed.

(** [process_exit] drops every descriptor. *)
Lemma exit_files_spec n : forall i k C L U E p x,
  files_ok k C L U E -> k_procs k !! p = Some x -> 0 <= i -> i + Z.of_nat n = MAX_FD_SIZE ->
  exists k' L' U' E' y, exit_files n p i k = Ok (tt, k') /\ files_ok k' C L' U' E' /\ keeps k k' /\
    others_sched p (k_procs k) (k_procs k') /\ k_procs k' !! p = Some y /\ kept_fds x y (fun j => j <? i).
Proof.
  induction n as [|n IH]; intros i k C L U E p x HO Hx Hi Hn; cbn [exit_files].
  { exists k, L, U, E, x. split; [done|]. split; [done|]. split; [apply keeps_refl|].
    split; [apply others_sched_refl|]. split; [done|]. eapply kept_fds_trans; [apply kept_fds_refl..|].
    intros j Hj _. apply Z.ltb_lt. lia. }
  mrun (get_fd_ok _ _ _ _ _ Hx (fd_of_in x i ltac:(lia) (fo_length _ _ _ _ _ _ _ HO Hx))).
  destruct (decide (fd_of x i = 0)) as [H0|H0].
  - rewrite (proj2 (truthy_false _) H0). erewrite (bind_ok (ret tt)) by reflexivity.
    destruct (IH (i + 1) k C L U E p x HO Hx ltac:(lia) ltac:(lia)) as (k' & L' & U' & E' & y & Er & HO' & Hk & Ho & Hy & Hky).
    exists k', L', U', E', y. do 5 (split; [done|]). eapply kept_fds_trans; [apply kept_fds_refl|exact Hky|].
    intros j Hj Hne. assert (j <> i) by congruence.
    destruct (Z.ltb_spec j i), (Z.ltb_spec j (i + 1)); simpl; done || lia.
  - rewrite (proj2 (truthy_true _) H0).
    destruct (exit_turn_spec _ _ _ _ _ _ _ i HO Hx ltac:(lia) H0)
      as (k1 & L1 & U1 & E1 & y1 & Er1 & HO1 & Hk1 & Ho1 & Hy1 & Hky1). mrun Er1.
    destruct (IH (i + 1) k1 C L1 U1 E1 p y1 HO1 Hy1 ltac:(lia) ltac:(lia)) as (k' & L' & U' & E' & y & Er & HO' & Hk & Ho & Hy & Hky).
    exists k', L', U', E', y. split; [done|]. split; [done|]. split; [by eapply keeps_trans|].
    split; [by eapply others_sched_trans|]. split; [done|].
    eapply kept_fds_trans; [exact Hky1|exact Hky|]. intros j Hj _.
    destruct (Z.ltb_spec j i), (Z.ltb_spec j (i + 1)), (Z.eqb_spec j i); simpl; done || lia.
Qed.

(** One turn of the loop of [process_exec]. *)
Lemma exec_turn_spec k C L U E p x i :
  files_ok k C L U E -> k_procs k !! p = Some x -> 0 <= i < MAX_FD_SIZE ->
  let gone := truthy (fd_of x i) && bitset_mem (p_close_on_exec x) i in
  exists k' L' U' E' y,
    (let* b := (if truthy (fd_of x i) then cloexec_test p i else ret 0) in
     if truthy (fd_of x i) && truthy b then
       do* release_file (fd_of x i) in do* set_fd p i 0 in cloexec_remove p i
     else ret tt) k = Ok (tt, k') /\
    files_ok k' C L' U' E' /\ keeps k k' /\ others_sched p (k_procs k) (k_procs k') /\
    k_procs k' !! p = Some y /\ kept_fds x y (fun j => negb (gone && (j =? i))) /\
    forall j, 0 <= j < MAX_FD_SIZE ->
      bitset_mem (p_close_on_exec y) j = negb (gone && (j =? i)) && bitset_mem (p_close_on_exec x) j.
Proof.
  intros HO Hx Hi gone. pose proof (fo_sets _ _ _ _ _ HO _ _ Hx) as Hwf.
  destruct (cloexec_test_ok k p x i Hx Hwf Hi) as (w & Ew & Hw).
  assert (Hb : exists b, (if truthy (fd_of x i) then cloexec_test p i else ret 0) k = Ok (b, k) /\
    truthy (fd_of x i) && truthy b = gone).
  { unfold gone. destruct (truthy (fd_of x i)); [exists w; rewrite Hw; done|by exists 0]. }
  destruct Hb as (b & Eb & Hg). mrun Eb. rewrite Hg. destruct gone eqn:Hgone.
  2: { exists k, L, U, E, x. split; [done|]. split; [done|]. split; [apply keeps_refl|].
       split; [apply others_sched_refl|]. split; [done|]. split; [apply kept_fds_refl|]. done. }
  assert (Hf : fd_of x i <> 0).
  { apply truthy_true. unfold gone in Hgone. by apply andb_true_iff in Hgone as [? _]. }
  destruct (fo_file _ _ _ _ _ _ _ _ _ HO Hx eq_refl Hf) as [fl Hfl].
  destruct (closes_spec _ _ _ _ _ _ _ _ _ _ HO Hx eq_refl Hf Hfl)
    as (k' & L' & U' & E' & c & (k1 & Er & _ & Er2) & HO' & Hk & Hc & Hs & _).
  destruct (sched_only_lookup _ _ _ _ Hs (lookup_insert_eq _ _ _)) as (st & sp & Hy).
  exists k', L', U', E', (set_p_suspend sp (set_p_state st (fd_set x i 0 c))).
  split; [by mrun Er|]. split; [done|]. split; [done|]. split; [by eapply others_sched_insert|]. split; [done|].
  split.
  - exists (<[Z.to_nat i := 0]> (p_files x)), c, st, sp. split; [done|]. split; [apply length_insert|].
    intros j Hj. change (fd_of (set_p_suspend sp (set_p_state st (fd_set x i 0 c))) j) with (fd_of (fd_set x i 0 c) j).
    rewrite fd_of_set by (done || exact (fo_length _ _ _ _ _ _ _ HO Hx)).
    destruct (decide (j = i)), (Z.eqb_spec j i); done.
  - intros j Hj. destruct (bitset_spec MAX_FD_SIZE _ i ltac:(done) Hwf Hi) as [_ (c' & Hc' & _ & Hm)].
    change (p_close_on_exec (set_p_suspend _ _)) with c. replace c with c' by congruence. by rewrite (Hm j Hj).
Qed.

(** [process_exec] drops the marked descriptors, and their marks. *)
Lemma exec_files_spec n : forall i k C L U E p x,
  files_ok k C L U E -> k_procs k !! p = Some x -> 0 <= i -> i + Z.of_nat n = MAX_FD_SIZE ->
  exists k' L' U' E' y, exec_files n p i k = Ok (tt, k') /\ files_ok k' C L' U' E' /\ keeps k k' /\
    others_sched p (k_procs k) (k_procs k') /\ k_procs k' !! p = Some y /\
    kept_fds x y (fun j => (j <? i) || negb (bitset_mem (p_close_on_exec x) j)) /\
    forall j, 0 <= j < MAX_FD_SIZE -> bitset_mem (p_close_on_exec y) j =
      ((j <? i) || negb (truthy (fd_of x j))) && bitset_mem (p_close_on_exec x) j.
Proof.
  induction n as [|n IH]; intros i k C L U E p x HO Hx Hi Hn; cbn [exec_files].
  { exists k, L, U, E, x. split; [done|]. split; [done|]. split; [apply keeps_refl|].
    split; [apply others_sched_refl|]. split; [done|].
    assert (Hlt : forall j, 0 <= j < MAX_FD_SIZE -> (j <? i) = true) by (intros; apply Z.ltb_lt; lia).
    split; [|intros j Hj; by rewrite Hlt].
    eapply kept_fds_trans; [apply kept_fds_refl..|]. intros j Hj _. by rewrite Hlt. }
  mrun (get_fd_ok _ _ _ _ _ Hx (fd_of_in x i ltac:(lia) (fo_length _ _ _ _ _ _ _ HO Hx))).
  destruct (exec_turn_spec _ _ _ _ _ _ _ i HO Hx ltac:(lia))
    as (k1 & L1 & U1 & E1 & y1 & Er1 & HO1 & Hk1 & Ho1 & Hy1 & Hky1 & Hb1).
  apply bind_inv in Er1 as (b & k0 & Eb & Er1). mrun Eb. mrun Er1.
  destruct (IH (i + 1) k1 C L1 U1 E1 p y1 HO1 Hy1 ltac:(lia) ltac:(lia))
    as (k' & L' & U' & E' & y & Er & HO' & Hk & Ho & Hy & Hky & Hb).
  exists k', L', U', E', y. split; [done|]. split; [done|]. split; [by eapply keeps_trans|].
  split; [by eapply others_sched_trans|]. split; [done|].
  assert (Hfd1 : forall j, 0 <= j < MAX_FD_SIZE -> fd_of y1 j =
    if negb (truthy (fd_of x i) && bitset_mem (p_close_on_exec x) i && (j =? i)) then fd_of x j else 0)
    by (destruct Hky1 as (? & ? & ? & ? & _ & _ & H); exact H).
  split.
  - eapply kept_fds_trans; [exact Hky1|exact Hky|]. intros j Hj Hne. cbv beta. rewrite (Hb1 j Hj).
    destruct (Z.eqb_spec j i) as [->|Hji].
    + rewrite (proj2 (truthy_true _) Hne). rewrite (proj2 (Z.ltb_ge i i)), (proj2 (Z.ltb_lt i (i + 1))) by lia.
      by destruct (bitset_mem _ i).
    + rewrite !andb_false_r. simpl.
      destruct (Z.ltb_spec j i), (Z.ltb_spec j (i + 1)); simpl; done || lia.
  - intros j Hj. rewrite (Hb j Hj), (Hb1 j Hj), (Hfd1 j Hj). destruct (Z.eqb_spec j i) as [->|Hji].
    + rewrite (proj2 (Z.ltb_ge i i)), (proj2 (Z.ltb_lt i (i + 1))) by lia. rewrite andb_true_r.
      by destruct (truthy (fd_of x i)), (bitset_mem (p_close_on_exec x) i).
    + rewrite !andb_false_r. simpl.
      destruct (Z.ltb_spec j i), (Z.ltb_spec j (i + 1)); simpl; done || lia.
Qed.

(** [process_fork] counts up every file of the copied table: the references are
    in hand until the table of the child is counted. *)
Definition nonzero (l : list Z) : list Z := filter (fun f => f <> 0) l.

Lemma fork_files_spec n : forall i k C L U E T D p x,
  files_inv k C L U E T D -> k_procs k !! p = Some x -> Z.of_nat (length (p_files x)) = MAX_FD_SIZE ->
  (forall f, f ∈ p_files x -> f <> 0 -> is_Some (k_files k !! f)) ->
  0 <= i -> i + Z.of_nat n = MAX_FD_SIZE ->
  MAX_FD_SIZE * Z.of_nat (size T) + Z.of_nat (length D) + Z.of_nat n < 2 ^ 31 ->
  exists k', fork_files n p i k = Ok (tt, k') /\
    files_inv k' C L U E T (rev (nonzero (drop (Z.to_nat i) (p_files x))) ++ D) /\
    keeps k k' /\ k_procs k' = k_procs k /\ (forall f, is_Some (k_files k !! f) -> is_Some (k_files k' !! f)).
Proof.
  induction n as [|n IH]; intros i k C L U E T D p x HI Hx Hlen Hval Hi Hn Hb; cbn [fork_files].
  { exists k. split; [done|]. rewrite drop_ge by lia. split; [done|]. split; [apply keeps_refl|]. done. }
  assert (Hr : 0 <= i < MAX_FD_SIZE) by lia. pose proof (fd_of_in x i Hr Hlen) as Hl.
  rewrite (drop_S _ _ _ Hl). replace (Datatypes.S (Z.to_nat i)) with (Z.to_nat (i + 1)) by lia.
  mrun (get_fd_ok _ _ _ _ _ Hx Hl). unfold nonzero at 1. rewrite filter_cons. fold (nonzero (drop (Z.to_nat (i + 1)) (p_files x))).
  destruct (decide (fd_of x i <> 0)) as [Hne|H0].
  - rewrite (proj2 (truthy_true _) Hne). destruct (Hval (fd_of x i) (list_elem_of_lookup_2 _ _ _ Hl) Hne) as [fl Hfl].
    destruct (countup_file_spec _ _ _ _ _ _ _ _ _ HI Hfl ltac:(lia)) as (k1 & Er1 & HI1 & Hk1 & Hpr1 & Hfs1 & _).
    mrun Er1. assert (Hkeep : forall f, is_Some (k_files k !! f) -> is_Some (k_files k1 !! f)).
    { intros f Hf. rewrite Hfs1, lookup_insert_is_Some'. by right. }
    destruct (IH (i + 1) k1 C L U E T (fd_of x i :: D) p x HI1) as (k' & Er & HI' & Hk & Hpr & Hkeep');
      [by rewrite Hpr1|done|naive_solver|lia|lia|simpl length; lia|].
    exists k'. split; [done|]. simpl rev. rewrite <- app_assoc. split; [done|].
    split; [by eapply keeps_trans|]. split; [congruence|]. auto.
  - assert (H0' : fd_of x i = 0) by (destruct (decide (fd_of x i = 0)); [done|by destruct H0]).
    rewrite (proj2 (truthy_false _) H0'). erewrite (bind_ok (ret tt)) by reflexivity.
    apply IH; done || lia.
Qed.

Lemma occ_nonzero f l : f <> 0 -> occ f (nonzero l) = occ f l.
Proof.
  intros Hf. induction l as [|a l IH]; [done|]. unfold nonzero. rewrite filter_cons. fold (nonzero l).
  rewrite (occ_cons f a l), <- IH. destruct (decide (a <> 0)) as [H|H]; [by rewrite occ_cons|].
  rewrite decide_False; [done|]. intros ->. by apply H.
Qed.

Lemma occ_rev f l : occ f (rev l) = occ f l.
Proof.
  induction l as [|a l IH]; [done|]. simpl rev. rewrite occ_app, IH, !occ_cons, occ_nil. lia.
Qed.

(** The child of a fork: its table counted. *)
Lemma fork_files_ok k C L U E p x :
  files_inv k C L U E (<[p := replicate (Z.to_nat MAX_FD_SIZE) 0]> (p_files <$> k_procs k)) [] ->
  (forall q z, k_procs k !! q = Some z -> bitset_wf MAX_FD_SIZE (p_close_on_exec z)) ->
  MAX_FD_SIZE * (Z.of_nat (size (k_procs k)) + 2) < 2 ^ 31 ->
  k_procs k !! p = Some x -> Z.of_nat (length (p_files x)) = MAX_FD_SIZE ->
  (forall f, f ∈ p_files x -> f <> 0 -> is_Some (k_files k !! f)) ->
  exists k', fork_files (Z.to_nat MAX_FD_SIZE) p 0 k = Ok (tt, k') /\ files_ok k' C L U E /\
    keeps k k' /\ k_procs k' = k_procs k.
Proof.
  intros HI Hsets Hroom Hx Hlen Hval. set (T := <[p := _]> _) in HI.
  assert (HTp : (p_files <$> k_procs k) !! p = Some (p_files x)) by (by rewrite lookup_fmap, Hx).
  assert (Hsz : size T = size (k_procs k)).
  { unfold T. rewrite map_size_insert_Some by eauto. apply map_size_fmap. }
  destruct (fork_files_spec (Z.to_nat MAX_FD_SIZE) 0 k C L U E T [] p x HI Hx Hlen Hval)
    as (k' & Er & HI' & Hk & Hpr & _).
  { lia. }
  { rewrite Z2Nat.id; done. }
  { rewrite Hsz. simpl length. rewrite Z2Nat.id by done. change MAX_FD_SIZE with 32 in *. lia. }
  change (drop (Z.to_nat 0) (p_files x)) with (p_files x) in HI'. rewrite app_nil_r in HI'.
  exists k'. split; [done|]. split; [|done]. rewrite <- Hpr in Hroom. split.
  - eapply files_inv_rebalance; [exact HI'| | | |].
    + intros f Hf. rewrite occ_nil, occ_rev, occ_nonzero by done. rewrite Hpr. unfold T, refs.
      rewrite (msum_update _ _ _ _ _ HTp).
      assert (occ f (replicate (Z.to_nat MAX_FD_SIZE) 0) = 0) as ->; [|lia].
      pose proof (occ_nonneg f (replicate (Z.to_nat MAX_FD_SIZE) 0)).
      destruct (decide (0 < occ f (replicate (Z.to_nat MAX_FD_SIZE) 0))) as [Hin|]; [|lia].
      apply occ_in, elem_of_replicate in Hin as [-> _]. done.
    + intros q l. rewrite Hpr. destruct (decide (q = p)) as [->|Hne].
      * rewrite HTp. by intros [= <-].
      * intros Hq. apply (fi_tables _ _ _ _ _ _ _ HI q). unfold T. by rewrite lookup_insert_ne.
    + by apply not_elem_of_nil.
    + rewrite map_size_fmap. simpl length. change MAX_FD_SIZE with 32 in *. lia.
  - rewrite Hpr. done.
  - done.
Qed.

(** ** The invariant at every reachable state *)

(** The steps of the processes on the open files; the child of a fork starts
    with the copied table of the running process. *)
Inductive file_step : state -> state -> Prop :=
| fs_close k fd r k' : process_close fd k = Ok (r, k') -> file_step k k'
| fs_dupfd k fd from flags r k' : process_dupfd fd from flags k = Ok (r, k') -> file_step k k'
| fs_dup2 k oldfd newfd r k' : process_dup2 oldfd newfd k = Ok (r, k') -> file_step k k'
| fs_dup3 k oldfd newfd flags r k' : process_dup3 oldfd newfd flags k = Ok (r, k') -> file_step k k'
| fs_pipe2 k flags r k' : process_pipe2 flags k = Ok (r, k') -> file_step k k'
| fs_fcntl k fd cmd arg r k' : process_fcntl64 fd cmd arg k = Ok (r, k') -> file_step k k'
| fs_exit k p k' : is_Some (k_procs k !! p) ->
    exit_files (Z.to_nat MAX_FD_SIZE) p 0 k = Ok (tt, k') -> file_step k k'
| fs_exec k p k' : is_Some (k_procs k !! p) ->
    exec_files (Z.to_nat MAX_FD_SIZE) p 0 k = Ok (tt, k') -> file_step k k'
| fs_fork k p child x k' : k_procs k !! p = None -> k_procs k !! current_process k = Some x ->
    bitset_wf MAX_FD_SIZE (p_close_on_exec child) ->
    MAX_FD_SIZE * (Z.of_nat (size (k_procs k)) + 3) < 2 ^ 31 ->
    fork_files (Z.to_nat MAX_FD_SIZE) p 0
      (set_k_procs (<[p := set_p_files (p_files x) child]> (k_procs k)) k) = Ok (tt, k') ->
    file_step k k'
| fs_switch k p : is_Some (k_procs k !! p) -> file_step k (set_current_process p k).

Definition files_wf k : Prop := exists C L U E, files_ok k C L U E.

Lemma dup_post_ok k C L U E x oldfd newfd same cloexec r k' :
  files_ok k C L U E -> dup_post k C x oldfd newfd same cloexec (Ok (r, k')) -> files_wf k'.
Proof.
  intros HO H. unfold dup_post in H.
  repeat (destruct (decide _); [by injection H as -> ->; exists C, L, U, E|] || destruct (decide _));
    try (injection H as -> ->; by exists C, L, U, E).
  destruct H as (k1 & [= -> ->] & (L' & U' & E' & b & HO' & _)). by exists C, L', U', E'.
Qed.

Lemma dupfd_ok k C L U E x fd from flags r k' :
  files_ok k C L U E -> k_procs k !! current_process k = Some x ->
  process_dupfd fd from flags k = Ok (r, k') -> files_wf k'.
Proof.
  intros HO Hx Er. pose proof (process_dupfd_spec _ _ _ _ _ _ fd from flags HO Hx) as H. rewrite Er in H.
  destruct (decide _); [injection H as -> ->; by exists C, L, U, E|].
  destruct (decide _); [|injection H as -> ->; by exists C, L, U, E].
  destruct H as [[[= -> ->] _]|(j & k1 & _ & [= -> ->] & (L' & U' & E' & b & HO' & _))];
    [by exists C, L, U, E|by exists C, L', U', E'].
Qed.

Lemma fcntl_ok k C L U E x fd cmd arg r k' :
  files_ok k C L U E -> k_procs k !! current_process k = Some x ->
  process_fcntl64 fd cmd arg k = Ok (r, k') -> files_wf k'.
Proof.
  intros HO Hx Er. pose proof (process_fcntl64_spec _ _ _ _ _ _ fd cmd arg HO Hx) as H. rewrite Er in H.
  unfold fcntl_post in H. destruct (decide _); [injection H as -> ->; by exists C, L, U, E|].
  destruct H as (fl & _ & H). destruct (cmd =? F_DUPFD); [symmetry in H; by eapply dupfd_ok|].
  destruct (cmd =? F_GETFD); [injection H as -> ->; by exists C, L, U, E|].
  destruct (cmd =? F_SETFD); [destruct H as (b & k1 & L' & U' & E' & [= -> ->] & HO' & _); by exists C, L', U', E'|].
  destruct (cmd =? F_GETFL); [injection H as -> ->; by exists C, L, U, E|].
  destruct (cmd =? F_SETFL); [destruct H as (k1 & L' & U' & E' & [= -> ->] & HO' & _); by exists C, L', U', E'|].
  injection H as -> ->. by exists C, L, U, E.
Qed.

Lemma pipe2_ok k C L U E x flags r k' :
  files_ok k C L U E -> k_procs k !! current_process k = Some x ->
  process_pipe2 flags k = Ok (r, k') -> files_wf k'.
Proof.
  intros HO Hx Er. pose proof (process_pipe2_spec _ _ _ _ _ _ flags HO Hx) as H. rewrite Er in H.
  unfold pipe2_post in H. destruct (truthy _); [injection H as -> ->; by exists C, L, U, E|].
  destruct H as [[[= -> ->] _]|[H|[(k1 & [= -> ->] & H)|(k1 & rfd & wfd & [= -> ->] & H)]]].
  - by exists C, L, U, E.
  - discriminate.
  - destruct H as (L' & U' & E' & rfd & b & HO' & _). by exists C, L', U', E'.
  - destruct H as (L' & U' & E' & a & i & r' & w & b & HO' & _). by exists C, L', U', E'.
Qed.

(** The fork, from the invariant of the parent. *)
Lemma fork_ok k C L U E p child x :
  files_ok k C L U E -> k_procs k !! p = None -> k_procs k !! current_process k = Some x ->
  bitset_wf MAX_FD_SIZE (p_close_on_exec child) ->
  MAX_FD_SIZE * (Z.of_nat (size (k_procs k)) + 3) < 2 ^ 31 ->
  let k1 := set_k_procs (<[p := set_p_files (p_files x) child]> (k_procs k)) k in
  exists k', fork_files (Z.to_nat MAX_FD_SIZE) p 0 k1 = Ok (tt, k') /\ files_ok k' C L U E /\
    keeps k1 k' /\ k_procs k' = k_procs k1.
Proof.
  intros HO Hp Hx Hwf Hroom k1.
  assert (HTp : (p_files <$> k_procs k) !! p = None) by (by rewrite lookup_fmap, Hp).
  assert (Hzero : forall f, f <> 0 -> occ f (replicate (Z.to_nat MAX_FD_SIZE) 0) = 0).
  { intros f Hf. pose proof (occ_nonneg f (replicate (Z.to_nat MAX_FD_SIZE) 0)).
    destruct (decide (0 < occ f (replicate (Z.to_nat MAX_FD_SIZE) 0))) as [Hin|]; [|lia].
    apply occ_in, elem_of_replicate in Hin as [-> _]. done. }
  apply (fork_files_ok k1 C L U E p (set_p_files (p_files x) child)).
  - apply files_inv_procs; [|intros q Hq; by apply is_Some_insert_proc].
    cbn [k_procs set_k_procs k1]. rewrite fmap_insert, insert_insert_eq.
    eapply files_inv_rebalance; [apply HO| | | |].
    + intros f Hf. unfold refs. rewrite msum_insert by done. rewrite Hzero by done. lia.
    + intros q l. destruct (decide (p = q)) as [<-|].
      * rewrite lookup_insert_eq. intros Hl.
        replace l with (replicate (Z.to_nat MAX_FD_SIZE) 0) by congruence. by rewrite length_replicate, Z2Nat.id.
      * rewrite lookup_insert_ne by done. apply (fi_tables _ _ _ _ _ _ _ (fo_inv _ _ _ _ _ HO)).
    + by apply not_elem_of_nil.
    + rewrite map_size_insert_None by done. rewrite map_size_fmap. simpl length.
      change MAX_FD_SIZE with 32 in *. lia.
  - intros q z. cbn [k_procs set_k_procs k1]. destruct (decide (p = q)) as [<-|].
    + rewrite lookup_insert_eq. by intros [= <-].
    + rewrite lookup_insert_ne by done. apply HO.
  - cbn [k_procs set_k_procs k1]. rewrite map_size_insert_None by done. lia.
  - apply lookup_insert_eq.
  - exact (fo_length _ _ _ _ _ _ _ HO Hx).
  - intros f Hin Hf. apply list_elem_of_lookup in Hin as (i & Hi).
    apply (fi_in_table k C L U E _ [] (current_process k) (p_files x) i f (fo_inv _ _ _ _ _ HO)); [|exact Hi|done].
    by rewrite lookup_fmap, Hx.
Qed.

Lemma file_step_ok k k' : files_wf k -> file_step k k' -> files_wf k'.
Proof.
  intros (C & L & U & E & HO) Hs. destruct (fo_current _ _ _ _ _ HO) as [x Hx].
  destruct Hs as [k fd r k' Er|k fd from flags r k' Er|k oldfd newfd r k' Er|k oldfd newfd flags r k' Er
    |k flags r k' Er|k fd cmd arg r k' Er|k p k' [y Hy] Er|k p k' [y Hy] Er|k p child z k' Hp Hz Hwf Hroom Er|k p Hp].
  - pose proof (process_close_spec _ _ _ _ _ _ fd HO Hx) as H. rewrite Er in H. destruct (decide _).
    + injection H as -> ->. by exists C, L, U, E.
    + destruct H as (fl & k1 & L' & U' & E' & b & _ & [= -> ->] & HO' & _). by exists C, L', U', E'.
  - by eapply dupfd_ok.
  - eapply dup_post_ok; [done|]. rewrite <- Er. by eapply process_dup2_spec.
  - eapply dup_post_ok; [done|]. rewrite <- Er. by eapply process_dup3_spec.
  - by eapply pipe2_ok.
  - by eapply fcntl_ok.
  - destruct (exit_files_spec (Z.to_nat MAX_FD_SIZE) 0 _ _ _ _ _ _ _ HO Hy) as (k1 & L' & U' & E' & w & Er' & HO' & _);
      [lia|by rewrite Z2Nat.id|]. replace k' with k1 by congruence. by exists C, L', U', E'.
  - destruct (exec_files_spec (Z.to_nat MAX_FD_SIZE) 0 _ _ _ _ _ _ _ HO Hy) as (k1 & L' & U' & E' & w & Er' & HO' & _);
      [lia|by rewrite Z2Nat.id|]. replace k' with k1 by congruence. by exists C, L', U', E'.
  - destruct (fork_ok _ _ _ _ _ _ child _ HO Hp Hz Hwf Hroom) as (k1 & Er' & HO' & _).
    replace k' with k1 by congruence. by exists C, L, U, E.
  - exists C, L, U, E. split; [|apply HO|apply HO]. pose proof (fo_inv _ _ _ _ _ HO) as HI.
    split; try apply HI. pose proof (fi_pipes _ _ _ _ _ _ _ HI) as HP. split; try apply HP. done.
Qed.

Lemma file_steps_ok k k' : rtc file_step k k' -> files_wf k -> files_wf k'.
Proof. induction 1 as [|k k1 k' Hs _ IH]; [done|]. intros H. apply IH. by eapply file_step_ok. Qed.

(** The counts, without the rest of the invariant. *)
Record counts_exact k : Prop := {
  ce_file : forall f fl, k_files k !! f = Some fl ->
    f_count fl = refs (p_files <$> k_procs k) f /\ 0 < f_count fl;
  ce_open : forall p x i f, k_procs k !! p = Some x -> p_files x !! i = Some f -> f <> 0 ->
    is_Some (k_files k !! f);
  ce_pipe : forall a p rd, k_pipes k !! a = Some p ->
    side_count rd p = pipe_refs (k_files k) a rd /\ 0 < side_count true p + side_count false p;
  ce_target : forall f fl, k_files k !! f = Some fl -> f_type fl = FF_PIPE ->
    exists rd p, on_side (f_ptr fl) rd fl /\ k_pipes k !! f_ptr fl = Some p /\ 0 < side_count rd p;
}.

Lemma files_wf_exact k : files_wf k -> counts_exact k.
Proof.
  intros (C & L & U & E & HO). pose proof (fo_inv _ _ _ _ _ HO) as HI. split.
  - intros f fl Hf. destruct (fi_count _ _ _ _ _ _ _ HI f fl Hf) as (_ & _ & H1 & H2).
    rewrite occ_nil in H1. split; [lia|done].
  - intros p x i f Hx Hi Hf. eapply (fi_in_table _ _ _ _ _ _ _ p (p_files x)); [exact HI| |exact Hi|done].
    by rewrite lookup_fmap, Hx.
  - intros a p rd Hp. split; [by apply (fi_pipe_count _ _ _ _ _ _ _ HI)|by apply (fi_pipe _ _ _ _ _ _ _ HI a)].
  - intros f fl Hf Ht. destruct (fi_pipe_file _ _ _ _ _ _ _ HI f fl Hf Ht) as (rd & p & Hm & Hp).
    exists rd, p. split; [done|]. split; [done|]. rewrite (fi_pipe_count _ _ _ _ _ _ _ HI _ p rd Hp).
    destruct (fi_count _ _ _ _ _ _ _ HI f fl Hf) as (_ & _ & _ & Hpos).
    eapply Z.lt_le_trans; [exact Hpos|]. apply (pipe_refs_in _ _ _ f); [|done|done].
    intros g flg. by apply (fi_count_nonneg _ _ _ _ _ _ _ _ _ HI).
Qed.
End FileTables.

(** ** A sample state

    One running process whose descriptors 0 and 1 are the two ends of a pipe;
    the second one is marked close-on-exec. *)
Definition sample_fd_proc : process :=
  Process 1 0x2000 [] STATE_READY 0 (Context 0 [] 0 0 0) 0 [] 0 0
    (0x4000 :: 0x4100 :: replicate 30 0) [2] (Sigset 0 0) (Sigset 0 0) [].
Definition sample_rfile : file := File FF_PIPE 0x3000 O_RDONLY 0 1.
Definition sample_wfile : file := File FF_PIPE 0x3000 O_WRONLY 0 1.
Definition sample_fd_kernel : kernel bump :=
  Kernel (Bump 0x10000 1) (KernelCaches 1 2 3 4 5) {[0x3000 := sample_pipe]} zero_pages
    {[0x4000 := sample_rfile; 0x4100 := sample_wfile]}
    {[0x2000 := sample_fd_proc]} [0x2000] [] [] 0x2000 2 [] [] [].
Definition sample_fd_live (c a : Z) : Prop := (c = 5 /\ a = 0x3000) \/ (c = 2 /\ (a = 0x4000 \/ a = 0x4100)).
Definition sample_fd_sizes : gmap Z Z := {[5 := 40; 3 := 12; 4 := 68; 2 := 24]}.

Lemma sample_fd_pipe a p :
  k_pipes sample_fd_kernel !! a = Some p -> a = 0x3000 /\ p = sample_pipe.
Proof.
  change (({[0x3000 := sample_pipe]} : gmap Z pipe) !! a = Some p -> a = 0x3000 /\ p = sample_pipe).
  by intros [<- <-]%lookup_singleton_Some.
Qed.

Lemma sample_fd_pipes : pipes_inv sample_fd_kernel sample_fd_sizes sample_fd_live {[0]} ∅.
Proof.
  split.
  - split_and!; try done.
    + intros c a [[_ ->]|[_ [->| ->]]]; done.
    + intros c c' a [[-> ->]|[-> H]] [[-> H']|[-> H']]; try done; lia.
    + by intros i ->%elem_of_singleton.
  - split_and!; [by eexists|by eexists|by eexists|done].
  - intros a p [-> ->]%sample_fd_pipe. split_and!; [by left|set_solver|]. exists (replicate 4096 0).
    split; [by apply zero_page|]. split_and!; done.
  - intros a a' p p' [-> _]%sample_fd_pipe [-> _]%sample_fd_pipe. done.
  - split; [|intros e q He; by rewrite lookup_empty in He].
    assert (Hnil : forall q l, waitq_of sample_fd_kernel q = Some l -> l = []).
    { intros [a|a| | |] l; simpl; [| |by intros [= <-]..];
        (destruct (decide (a = 0x3000)) as [->|]; [by intros [= <-]|by rewrite lookup_singleton_ne]). }
    intros q l ->%Hnil. split_and!; [constructor| |].
    + intros e. rewrite lookup_empty. split; [|done]. intros H. by apply not_elem_of_nil in H.
    + intros e p H. by apply not_elem_of_nil in H.
  - by eexists.
  - intros i Hi. eexists. split; [by apply zero_page|done].
Qed.

Lemma sample_files_get f fl :
  k_files sample_fd_kernel !! f = Some fl ->
  (f = 0x4000 /\ fl = sample_rfile) \/ (f = 0x4100 /\ fl = sample_wfile).
Proof.
  change (k_files sample_fd_kernel) with ({[0x4000 := sample_rfile; 0x4100 := sample_wfile]} : gmap Z file).
  intros [[<- <-]|[_ [<- <-]%lookup_singleton_Some]]%lookup_insert_Some; auto.
Qed.

Lemma sample_files_ok : files_ok sample_fd_kernel sample_fd_sizes sample_fd_live {[0]} ∅.
Proof.
  assert (HT : p_files <$> k_procs sample_fd_kernel = {[0x2000 := p_files sample_fd_proc]})
    by apply map_fmap_singleton.
  assert (Hrefs : forall f, refs {[0x2000 := p_files sample_fd_proc]} f = occ f (p_files sample_fd_proc)).
  { intros f. unfold refs. rewrite <- insert_empty, msum_insert, msum_empty by apply lookup_empty. lia. }
  split; [rewrite HT| |done].
  - split.
    + exact sample_fd_pipes.
    + split_and!; [by eexists|done..].
    + intros p l [_ <-]%lookup_singleton_Some. reflexivity.
    + intros f fl Hf. rewrite Hrefs, occ_nil.
      destruct (sample_files_get _ _ Hf) as [[-> ->]|[-> ->]]; split_and!; try done; right; auto.
    + intros f Hf. rewrite Hrefs, occ_nil, Z.add_0_r. intros Hin%occ_in.
      apply elem_of_cons in Hin as [->|Hin]; [by eexists|].
      apply elem_of_cons in Hin as [->|Hin]; [by eexists|]. by apply elem_of_replicate in Hin as [-> _].
    + by apply not_elem_of_nil.
    + intros f [[? _]|[_ [->| ->]]]; [discriminate|by eexists|by eexists].
    + intros f fl Hf _. destruct (sample_files_get _ _ Hf) as [[-> ->]|[-> ->]];
        [exists true, sample_pipe|exists false, sample_pipe]; done.
    + intros a p rd Hp. apply sample_fd_pipe in Hp as [-> ->]. by destruct rd.
    + intros a p Hp. apply sample_fd_pipe in Hp as [-> ->]. split; [|done]. by intros [] Hc.
    + done.
  - change (k_procs sample_fd_kernel) with ({[0x2000 := sample_fd_proc]} : gmap Z process).
    intros p x [_ <-]%lookup_singleton_Some. split; [done|]. constructor; [done|constructor].
Qed.

Lemma sample_fd_current : k_procs sample_fd_kernel !! current_process sample_fd_kernel = Some sample_fd_proc.
Proof. apply lookup_insert_eq. Qed.

(** ** Properties *)

(** C10: the reference counts are exact at every state reached by closing,
    duplicating, making pipes, changing flags, forking, executing and exiting:
    the count of an open file is the number of descriptors of all processes
    that refer to it and is positive, every descriptor in use refers to an open
    file, the readers and writers of a pipe are the references of its two kinds
    of files, and a pipe with no reference does not exist. *)
Theorem file_counts_exact {S : Type} `{KernelMem S} (k k' : kernel S) :
  files_wf k -> rtc file_step k k' -> counts_exact k'.
Proof. intros Hk Hs. apply files_wf_exact. by eapply file_steps_ok. Qed.

Theorem file_counts_exact_witness :
  exists k', process_dup2 0 5 sample_fd_kernel = Ok (5, k') /\ counts_exact k'.
Proof.
  pose proof (process_dup2_spec _ _ _ _ _ _ 0 5 sample_files_ok sample_fd_current) as Hd.
  destruct Hd as (k' & Er & _). exists k'. split; [exact Er|].
  apply (file_counts_exact sample_fd_kernel k').
  - exists sample_fd_sizes, sample_fd_live, {[0]}, ∅. exact sample_files_ok.
  - apply rtc_once. exact (fs_dup2 sample_fd_kernel 0 5 5 k' Er).
Defined.

(** C32: [process_close] returns [-EBADF] and changes nothing when the
    descriptor is out of range or not in use.  Otherwise it returns 0, never
    stopping the kernel: the descriptor and its close-on-exec mark are gone,
    the file has one reference less and is freed with its last one, the pipe
    behind it has one reference less on that side and is gone with its last
    one, and the other processes change in scheduling only. *)
Theorem process_close_correct {S : Type} `{KernelMem S} (k : kernel S) (C : gmap Z Z)
    (L : Z -> Z -> Prop) (U : gset Z) (E : gmap Z waitq) (x : process) (fd : Z) :
  files_ok k C L U E -> k_procs k !! current_process k = Some x ->
  if decide (fd_of x fd = 0) then process_close fd k = Ok (- EBADF, k)
  else exists fl k' L' U' E' b, k_files k !! fd_of x fd = Some fl /\
    process_close fd k = Ok (0, k') /\ files_ok k' C L' U' E' /\ keeps k k' /\
    bitset_remove (p_close_on_exec x) fd = Some b /\
    sched_only (<[current_process k := fd_set x fd 0 b]> (k_procs k)) (k_procs k') /\
    k_files k' = drop_ref (fd_of x fd) (k_files k) /\ pipes_shift fl (-1) k k'.
Proof. apply process_close_spec. Qed.

Theorem process_close_correct_witness :
  (exists k', process_close 1 sample_fd_kernel = Ok (0, k') /\ k_files k' = {[0x4000 := sample_rfile]}) /\
  process_close 7 sample_fd_kernel = Ok (- EBADF, sample_fd_kernel).
Proof.
  split.
  - pose proof (process_close_correct sample_fd_kernel _ _ _ _ sample_fd_proc 1 sample_files_ok sample_fd_current) as H.
    destruct H as (fl & k' & _ & _ & _ & _ & _ & Er & _ & _ & _ & _ & Hf & _). exists k'. split; [exact Er|].
    exact Hf.
  - exact (process_close_correct sample_fd_kernel _ _ _ _ sample_fd_proc 7 sample_files_ok sample_fd_current).
Defined.

(** C33: [process_dup2] and [process_dup3] on every branch: a bad old descriptor
    or a new one out of range is [-EBADF]; equal descriptors are returned by
    [process_dup2] and [-EINVAL] for [process_dup3]; otherwise the new descriptor
    is closed if it was in use, refers to the file of the old one, has the
    close-on-exec mark exactly when asked for, and is returned.  The file gains
    the reference, the replaced one loses it. *)
Theorem process_dup_correct {S : Type} `{KernelMem S} (k : kernel S) (C : gmap Z Z)
    (L : Z -> Z -> Prop) (U : gset Z) (E : gmap Z waitq) (x : process) (oldfd newfd flags : Z) :
  files_ok k C L U E -> k_procs k !! current_process k = Some x ->
  dup_post k C x oldfd newfd newfd false (process_dup2 oldfd newfd k) /\
  dup_post k C x oldfd newfd (- EINVAL) (truthy (Z.land flags O_CLOEXEC))
    (process_dup3 oldfd newfd flags k).
Proof. intros HO Hx. split; [by eapply process_dup2_spec|by eapply process_dup3_spec]. Qed.

Theorem process_dup_correct_witness :
  dup_post sample_fd_kernel sample_fd_sizes sample_fd_proc 0 1 1 false (process_dup2 0 1 sample_fd_kernel).
Proof.
  apply (process_dup_correct sample_fd_kernel sample_fd_sizes sample_fd_live {[0]} ∅ sample_fd_proc 0 1 0).
  - exact sample_files_ok.
  - exact sample_fd_current.
Defined.

(** [process_dupfd] takes the least free descriptor from [from] on, gives it
    the file and the mark asked for, and returns it; without a free one it
    returns [-EMFILE], with a bad [from] [-EINVAL], with a bad descriptor
    [-EBADF], and changes nothing. *)
Theorem process_dupfd_correct {S : Type} `{KernelMem S} (k : kernel S) (C : gmap Z Z)
    (L : Z -> Z -> Prop) (U : gset Z) (E : gmap Z waitq) (x : process) (fd from flags : Z) :
  files_ok k C L U E -> k_procs k !! current_process k = Some x ->
  if decide (fd_of x fd = 0) then process_dupfd fd from flags k = Ok (- EBADF, k)
  else if decide (0 <= from < MAX_FD_SIZE) then
    (process_dupfd fd from flags k = Ok (- EMFILE, k) /\ forall h, from <= h < MAX_FD_SIZE -> fd_of x h <> 0) \/
    exists j k', first_free x from j /\ process_dupfd fd from flags k = Ok (j, k') /\
      dup_done k C k' x j (fd_of x fd) (truthy (Z.land flags O_CLOEXEC))
  else process_dupfd fd from flags k = Ok (- EINVAL, k).
Proof. apply process_dupfd_spec. Qed.

Theorem process_dupfd_correct_witness :
  process_dupfd 0 40 0 sample_fd_kernel = Ok (- EINVAL, sample_fd_kernel).
Proof.
  exact (process_dupfd_correct sample_fd_kernel _ _ _ _ sample_fd_proc 0 40 0 sample_files_ok sample_fd_current).
Defined.

(** [process_pipe2] on every branch: unknown flags are [-EINVAL]; with no
    free descriptor it returns [-EMFILE]; with one it returns [-EMFILE] and the
    files are as before; otherwise the two least free descriptors are the read
    and the write end of a new, empty pipe with one reference each, marked
    close-on-exec when asked for.  It stops only when memory runs out. *)
Theorem process_pipe2_correct {S : Type} `{KernelMem S} (k : kernel S) (C : gmap Z Z)
    (L : Z -> Z -> Prop) (U : gset Z) (E : gmap Z waitq) (x : process) (flags : Z) :
  files_ok k C L U E -> k_procs k !! current_process k = Some x ->
  pipe2_post k C x flags (process_pipe2 flags k).
Proof. apply process_pipe2_spec. Qed.

Theorem process_pipe2_correct_witness :
  pipe2_post sample_fd_kernel sample_fd_sizes sample_fd_proc O_CLOEXEC (process_pipe2 O_CLOEXEC sample_fd_kernel).
Proof.
  apply (process_pipe2_correct sample_fd_kernel sample_fd_sizes sample_fd_live {[0]} ∅).
  - exact sample_files_ok.
  - exact sample_fd_current.
Defined.

(** C34: the loops over the table end and keep the counts right.  After the one
    of [process_exit] the process has no descriptor; after the one of
    [process_exec] it has exactly those that were not marked close-on-exec, and
    no mark on an open descriptor is left; after the one of [process_fork] the
    child has the descriptors of its parent, each counted. *)
Theorem file_tables_correct {S : Type} `{KernelMem S} (k : kernel S) (C : gmap Z Z)
    (L : Z -> Z -> Prop) (U : gset Z) (E : gmap Z waitq) (p : Z) (x : process) :
  files_ok k C L U E -> k_procs k !! p = Some x ->
  (exists k' L' U' E' y, exit_files (Z.to_nat MAX_FD_SIZE) p 0 k = Ok (tt, k') /\
     files_ok k' C L' U' E' /\ k_procs k' !! p = Some y /\
     forall i, 0 <= i < MAX_FD_SIZE -> fd_of y i = 0) /\
  (exists k' L' U' E' y, exec_files (Z.to_nat MAX_FD_SIZE) p 0 k = Ok (tt, k') /\
     files_ok k' C L' U' E' /\ k_procs k' !! p = Some y /\
     forall i, 0 <= i < MAX_FD_SIZE ->
       fd_of y i = (if bitset_mem (p_close_on_exec x) i then 0 else fd_of x i) /\
       (fd_of y i <> 0 -> bitset_mem (p_close_on_exec y) i = false)) /\
  (forall q child, p = current_process k -> k_procs k !! q = None ->
     bitset_wf MAX_FD_SIZE (p_close_on_exec child) ->
     MAX_FD_SIZE * (Z.of_nat (size (k_procs k)) + 3) < 2 ^ 31 ->
     let k1 := set_k_procs (<[q := set_p_files (p_files x) child]> (k_procs k)) k in
     exists k', fork_files (Z.to_nat MAX_FD_SIZE) q 0 k1 = Ok (tt, k') /\ files_ok k' C L U E /\
       k_procs k' = k_procs k1).
Proof.
  intros HO Hx. split; [|split].
  - destruct (exit_files_spec (Z.to_nat MAX_FD_SIZE) 0 _ _ _ _ _ _ _ HO Hx)
      as (k' & L' & U' & E' & y & Er & HO' & _ & _ & Hy & (l & b & st & sp & _ & _ & Hfd));
      [lia|by rewrite Z2Nat.id|]. exists k', L', U', E', y. do 3 (split; [done|]).
    intros i Hi. rewrite (Hfd i Hi). by rewrite (proj2 (Z.ltb_ge i 0)) by lia.
  - destruct (exec_files_spec (Z.to_nat MAX_FD_SIZE) 0 _ _ _ _ _ _ _ HO Hx)
      as (k' & L' & U' & E' & y & Er & HO' & _ & _ & Hy & (l & b & st & sp & _ & _ & Hfd) & Hm);
      [lia|by rewrite Z2Nat.id|]. exists k', L', U', E', y. do 3 (split; [done|]).
    intros i Hi. rewrite (Hfd i Hi), (Hm i Hi), (proj2 (Z.ltb_ge i 0)) by lia. simpl.
    destruct (bitset_mem (p_close_on_exec x) i); simpl; [done|]. split; [done|]. by rewrite andb_false_r.
  - intros q child -> Hq Hwf Hroom k1.
    destruct (fork_ok _ _ _ _ _ _ child _ HO Hq Hx Hwf Hroom) as (k' & Er & HO' & _ & Hpr). by exists k'.
Qed.

Theorem file_tables_correct_witness :
  exists k' y, exec_files (Z.to_nat MAX_FD_SIZE) 0x2000 0 sample_fd_kernel = Ok (tt, k') /\
    k_procs k' !! 0x2000 = Some y /\ fd_of y 0 = 0x4000 /\ fd_of y 1 = 0.
Proof.
  destruct (file_tables_correct sample_fd_kernel _ _ _ _ 0x2000 sample_fd_proc sample_files_ok sample_fd_current)
    as (_ & (k' & _ & _ & _ & y & Er & _ & Hy & Hfd) & _).
  exists k', y. split; [exact Er|]. split; [exact Hy|]. split.
  - exact (proj1 (Hfd 0 ltac:(done))).
  - exact (proj1 (Hfd 1 ltac:(done))).
Defined.
