(* ===== verification/Process.v ===== *)
(** * Processes: model

    The rest of [process.c] that concerns processes: their creation by
    [process_fork], their end and the wait for it, scheduling and dispatching,
    signals, and their memory segments.  The kernel is not preempted: each
    operation runs until it returns, sleeps, or leaves the kernel through
    [system_dispatch], [system_resume] or [system_idle] (asm/system.s), which do
    not return; how it leaves is the result [departure].

    The list through the [sibling] fields of the children of a process is the
    field [p_children] of the process; [list_remove(&p->sibling)] takes [p] out
    of whichever list it is in. *)

From stdpp Require Import base numbers list list_numbers gmap.
From S2P Require Import Prelude Bytes Arith Signal Buddy BuddyProofs KernelMem UserSpace Unix Kernel Pipe Files.

#[local] Open Scope Z_scope.
#[local] Open Scope kernel_scope.

Definition SEGMENT_TYPE_TEXT : Z := 0.
Definition SEGMENT_TYPE_DATA : Z := 1.
Definition SEGMENT_TYPE_STACK : Z := 2.
Definition SEGMENT_TYPE_HEAP : Z := 3.
Definition SEGMENT_FLAGS_GROWSUP : Z := 1.
Definition SEGMENT_FLAGS_GROWSDOWN : Z := 2.
Definition USER_ADDRESS_START : Z := 0x00010000.
Definition USER_ADDRESS_END : Z := 0x60000000.
Definition BRK_ADDRESS_END : Z := 0x10000000.
Definition STACK_START : Z := 0x58000000.
Definition STACK_END : Z := USER_ADDRESS_END.
Definition ARG_MAX : Z := 4 * 1024.
Definition INITIAL_STACK_SIZE : Z := ARG_MAX.
Definition KERNEL_STACK_SIZE : Z := PAGE_SIZE * 4.
Definition ALIGN (p n : Z) : Z :=
  Z.land (u32 (p + (Z.shiftl 1 n - 1))) (not32 (Z.shiftl 1 n - 1)).
Definition PAGE_ALIGN (addr : Z) : Z := Z.land (u32 (addr + PAGE_SIZE - 1)) (not32 (PAGE_SIZE - 1)).
Definition PAGE_MASK (addr : Z) : Z := Z.land addr (not32 (PAGE_SIZE - 1)).

Definition WAIT_EXIT_CODE (status : Z) : Z := Z.shiftl (Z.land status 0xff) 8.
Definition WAIT_SIGNAL (signal : Z) : Z := Z.land signal 0x7f.

Definition SIG_DFL : Z := 0.
Definition SIG_IGN : Z := 1.
Definition SIG_BLOCK : Z := 0.
Definition SIG_UNBLOCK : Z := 1.
Definition SIG_SETMASK : Z := 2.

(** ** The objects in memory *)

(** [memset] to 0 of a context and of a process. *)
Definition zero_context : process_context := Context 0 (replicate 13 0) 0 0 0.
Definition zero_action : k_sigaction := KSigaction 0 0 0 (Sigset 0 0).
Definition zero_process : process :=
  Process 0 0 [] STATE_READY 0 zero_context 0
    (replicate (Z.to_nat SEGMENT_TYPE_SIZE) (Segment 0 0 0 0)) 0 0
    (replicate (Z.to_nat MAX_FD_SIZE) 0)
    (replicate (Z.to_nat (bitset_nslots MAX_FD_SIZE)) 0)
    (Sigset 0 0) (Sigset 0 0) (replicate (Z.to_nat (NSIG - 1)) zero_action).

(** [struct process_context] and [sigset_t] as bytes. *)
Definition context_words (c : process_context) : list Z :=
  c_cpsr c :: c_r c ++ [c_sp c; c_lr c; c_pc c].
Definition context_bytes (c : process_context) : list Z := concat (map le32 (context_words c)).
Definition context_of_bytes (l : list Z) : process_context :=
  Context (get_word l 0) (map (fun i => get_word l (Z.of_nat i)) (seq 1 13))
    (get_word l 14) (get_word l 15) (get_word l 16).
Definition CONTEXT_SIZE : Z := 68.
Definition sigset_bytes (s : sigset) : list Z := le32 (fields0 s) ++ le32 (fields1 s).
Definition sigset_of_bytes (l : list Z) : sigset := Sigset (get_word l 0) (get_word l 1).
Definition SIGSET_SIZE : Z := 8.

Definition set_c_r (v : list Z) (x : process_context) : process_context :=
  Context (c_cpsr x) v (c_sp x) (c_lr x) (c_pc x).
Definition set_ksa_mask (v : sigset) (x : k_sigaction) : k_sigaction :=
  KSigaction (ksa_handler x) (ksa_flags x) (ksa_restorer x) v.

(** [list_remove] on the sequence that holds [p]. *)
Definition seq_remove (p : Z) (l : list Z) : list Z := filter (fun x => x <> p) l.

(** How the kernel is left: back to the user program, back to the system call
    that slept with the context at that address, or idle. *)
Inductive departure : Set :=
| Dispatched (context : process_context)
| Resumed (suspend : Z)
| Idle.

Section Process.
Context {S : Type} `{KM : KernelMem S} {US : UserSpace S}.
Notation state := (kernel S).

(** [system_shutdown] switches the machine off. *)
Definition system_shutdown : M state unit := fail Halt.

Definition mmu_set_ttb (pid : Z) : M state Z := kmem (us_set_ttb pid).
Definition mmu_alloc (pid addr size : Z) : M state Z := kmem (us_alloc pid addr size).
Definition mmu_destroy (pid : Z) : M state Z := kmem (us_destroy pid).

(** [&p->segments[i]]. *)
Definition get_segment (p i : Z) : M state segment :=
  let* x := get_proc p in opt Fault (p_segments x !! Z.to_nat i).
Definition upd_segment (p i : Z) (f : segment -> segment) : M state unit :=
  let* s := get_segment p i in
  upd_proc p (fun x => set_p_segments (<[Z.to_nat i := f s]> (p_segments x)) x).

(** ** Processes *)
Fixpoint find_toplevel_in (l : list Z) : M state Z :=
  match l with
  | [] => ret 0
  | p :: l =>
      let* x := get_proc p in
      if p_parent x =? p then ret p else find_toplevel_in l
  end.
Definition find_toplevel_process : M state Z :=
  let* l := gets all_processes in find_toplevel_in l.

(** [max_id] is an [int]: incrementing its greatest value is undefined. *)
Definition PID_MAX : Z := 2 ^ 31 - 1.
Definition process_alloc : M state Z :=
  let* pc := cache_of process_cache in
  let* p := kmem (km_obj_alloc pc) in
  do* put_proc p zero_process in
  let* id := gets max_id in
  do* upd_proc p (set_p_id id) in
  do* (if id =? PID_MAX then fail Fault else ret tt) in
  do* modify (set_max_id (id + 1)) in
  do* modify (fun k => set_all_processes (p :: all_processes k) k) in
  let* page := kmem (km_page_alloc KERNEL_STACK_SIZE) in
  do* upd_proc p (set_p_kernel_stack (PAGE_START + PAGE_SIZE * page)) in
  ret p.

(** The loops of [process_destroy] over the children. *)
Fixpoint adopt (l : list Z) (parent : Z -> Z) : M state unit :=
  match l with
  | [] => ret tt
  | child :: l => do* upd_proc child (set_p_parent (parent child)) in adopt l parent
  end.

Definition process_destroy (p : Z) : M state unit :=
  let* cur := gets current_process in
  let* c := get_proc cur in
  let* x := get_proc p in
  do* SYSTEM_BUG_ON (p_id c =? p_id x) in
  do* modify (fun k => set_run_queue (seq_remove p (run_queue k)) k) in
  do* modify (fun k => set_all_processes (seq_remove p (all_processes k)) k) in
  do* modify (fun k => set_k_procs
        ((fun y => set_p_children (seq_remove p (p_children y)) y) <$> k_procs k) k) in
  let* x := get_proc p in
  do* match p_children x with
      | [] => ret tt
      | children =>
          let* toplevel := find_toplevel_process in
          if truthy toplevel then
            do* adopt children (fun _ => toplevel) in
            do* upd_proc toplevel (fun t => set_p_children (children ++ p_children t) t) in
            upd_proc p (set_p_children [])
          else adopt children (fun child => child)
      end in
  let* x := get_proc p in
  let* page := opt Fault (page_find_by_address (p_kernel_stack x)) in
  do* kmem (km_page_free page) in
  let* _ := mmu_destroy (p_id x) in
  let* c := get_proc cur in
  let* _ := mmu_set_ttb (p_id c) in
  let* pc := cache_of process_cache in
  do* kmem (km_obj_free pc p) in
  modify (fun k => set_k_procs (delete p (k_procs k)) k).

Definition process_getpid : M state Z :=
  let* cur := gets current_process in let* c := get_proc cur in ret (p_id c).
Definition process_getppid : M state Z :=
  let* cur := gets current_process in
  let* c := get_proc cur in
  let* p := get_proc (p_parent c) in
  ret (p_id p).

(** ** Segments *)
Definition create_segments (p text_addr text_size data_addr data_size : Z) : M state unit :=
  let text_start := text_addr in
  let text_end := PAGE_ALIGN (u32 (text_addr + text_size)) in
  let data_start := PAGE_MASK data_addr in
  let data_end := PAGE_ALIGN (u32 (data_addr + data_size)) in
  do* upd_segment p SEGMENT_TYPE_TEXT
        (fun _ => Segment text_start text_end text_end SEGMENT_FLAGS_GROWSUP) in
  do* upd_segment p SEGMENT_TYPE_DATA
        (fun _ => Segment data_start data_end data_end SEGMENT_FLAGS_GROWSUP) in
  let heap := if truthy data_end then data_end else text_end in
  do* upd_segment p SEGMENT_TYPE_HEAP (fun _ => Segment heap heap heap SEGMENT_FLAGS_GROWSUP) in
  upd_segment p SEGMENT_TYPE_STACK (fun _ =>
    Segment STACK_START (STACK_END - INITIAL_STACK_SIZE) STACK_END SEGMENT_FLAGS_GROWSDOWN).

(** The loop of [find_segment]; the segment is given by its number. *)
Fixpoint find_segment_loop (n : nat) (address i : Z) : M state (option Z) :=
  match n with
  | O => ret None
  | Datatypes.S n =>
      let* cur := gets current_process in
      let* s := get_segment cur i in
      if (s_start s <=? address) && (address <? s_end s) then ret (Some i)
      else find_segment_loop n address (i + 1)
  end.
Definition find_segment (address : Z) : M state (option Z) :=
  find_segment_loop (Z.to_nat SEGMENT_TYPE_SIZE) address 0.

(** The part of a segment that is in use. *)
Definition segment_extent (s : segment) : option (Z * Z) :=
  if truthy (Z.land (s_flags s) SEGMENT_FLAGS_GROWSUP) then Some (s_start s, s_current s)
  else if truthy (Z.land (s_flags s) SEGMENT_FLAGS_GROWSDOWN) then Some (s_current s, s_end s)
  else None.

Fixpoint alloc_segments_loop (n : nat) (p i : Z) : M state unit :=
  match n with
  | O => ret tt
  | Datatypes.S n =>
      let* s := get_segment p i in
      let* extent := opt Halt (segment_extent s) in
      let '(start, end_) := extent in
      let* x := get_proc p in
      let* _ := mmu_alloc (p_id x) start (u32 (end_ - start)) in
      alloc_segments_loop n p (i + 1)
  end.
Definition alloc_segments (p : Z) : M state unit :=
  alloc_segments_loop (Z.to_nat SEGMENT_TYPE_SIZE) p 0.

(** The loop of [copy_segment]; the contents of [buf] are the bytes read. *)
Fixpoint copy_pages (fuel : nat) (pid cur end_ : Z) : M state unit :=
  if cur <? end_ then
    match fuel with
    | O => fail Fuel
    | Datatypes.S fuel =>
        let* buf := kmem (us_read (Z.to_nat PAGE_SIZE) cur) in
        let* _ := mmu_alloc pid cur PAGE_SIZE in
        let* _ := mmu_set_ttb pid in
        do* kmem (us_write cur buf) in
        let* c := gets current_process in
        let* c := get_proc c in
        let* _ := mmu_set_ttb (p_id c) in
        copy_pages fuel pid (u32 (cur + PAGE_SIZE)) end_
    end
  else ret tt.
(** As many turns as the extent has pages. *)
Definition copy_fuel (start end_ : Z) : nat := Z.to_nat ((end_ - start + PAGE_SIZE - 1) / PAGE_SIZE).
Definition copy_segment (pid : Z) (s : segment) : M state unit :=
  let* extent := opt Halt (segment_extent s) in
  let '(start, end_) := extent in
  let* page := kmem (km_page_alloc PAGE_SIZE) in
  do* copy_pages (copy_fuel start end_) pid start end_ in
  kmem (km_page_free page).
Fixpoint copy_segments_loop (n : nat) (p parent i : Z) : M state unit :=
  match n with
  | O => ret tt
  | Datatypes.S n =>
      let* x := get_proc p in
      let* s := get_segment parent i in
      do* copy_segment (p_id x) s in
      copy_segments_loop n p parent (i + 1)
  end.
Definition copy_segments (p parent : Z) : M state unit :=
  copy_segments_loop (Z.to_nat SEGMENT_TYPE_SIZE) p parent 0.

(** The loop of [process_brk]. *)
Fixpoint grow_heap (fuel : nat) (p pid : Z) : M state unit :=
  let* s := get_segment p SEGMENT_TYPE_HEAP in
  if s_current s <? s_end s then
    match fuel with
    | O => fail Fuel
    | Datatypes.S fuel =>
        let* _ := mmu_alloc pid (s_current s) PAGE_SIZE in
        do* upd_segment p SEGMENT_TYPE_HEAP (fun s => set_s_current (u32 (s_current s + PAGE_SIZE)) s) in
        grow_heap fuel p pid
    end
  else ret tt.
Definition process_brk (address : Z) : M state Z :=
  let* cur := gets current_process in
  let* c := get_proc cur in
  let current_brk := p_brk c in
  let pid := p_id c in
  if (address <? current_brk) || (BRK_ADDRESS_END <=? address) then ret current_brk
  else
    do* upd_proc cur (set_p_brk address) in
    let* s := get_segment cur SEGMENT_TYPE_HEAP in
    do* (if s_end s <? address then
           do* upd_segment cur SEGMENT_TYPE_HEAP (set_s_end (PAGE_ALIGN address)) in
           let* s := get_segment cur SEGMENT_TYPE_HEAP in
           grow_heap (copy_fuel (s_current s) (s_end s)) cur pid
         else ret tt) in
    ret address.

(** The loop of [process_demand_page]. *)
Fixpoint grow_stack (fuel : nat) (p i pid base : Z) : M state unit :=
  let* s := get_segment p i in
  if base <? s_current s then
    match fuel with
    | O => fail Fuel
    | Datatypes.S fuel =>
        do* upd_segment p i (fun s => set_s_current (u32 (s_current s - PAGE_SIZE)) s) in
        let* s := get_segment p i in
        let* _ := mmu_alloc pid (s_current s) PAGE_SIZE in
        grow_stack fuel p i pid base
    end
  else ret tt.
Definition process_demand_page (address : Z) : M state bool :=
  let* cur := gets current_process in
  let* c := get_proc cur in
  let pid := p_id c in
  let* found := find_segment address in
  match found with
  | None => ret false
  | Some i =>
      let* s := get_segment cur i in
      if truthy (Z.land (s_flags s) SEGMENT_FLAGS_GROWSDOWN) then
        let base := PAGE_MASK address in
        if (address <? s_start s) && (s_current s <=? address) then ret false
        else
          do* grow_stack (copy_fuel base (s_current s)) cur i pid base in
          ret true
      else ret false
  end.

(** ** Fork, exit and wait *)
Definition process_fork (context : process_context) : M state Z :=
  let* process := process_alloc in
  let* cur := gets current_process in
  do* upd_proc cur (fun c => set_p_children (process :: p_children c) c) in
  do* upd_proc process (set_p_parent cur) in
  do* upd_proc process (set_p_context context) in
  do* upd_proc process (fun p => set_p_context (set_c_r (<[0%nat := 0]> (c_r (p_context p))) (p_context p)) p) in
  let* c := get_proc cur in
  do* upd_proc process (set_p_brk (p_brk c)) in
  do* upd_proc process (set_p_segments (p_segments c)) in
  do* copy_segments process cur in
  let* c := get_proc cur in
  do* upd_proc process (set_p_files (p_files c)) in
  do* fork_files (Z.to_nat MAX_FD_SIZE) process 0 in
  let* c := get_proc cur in
  do* upd_proc process (fun p =>
        set_p_actions (p_actions c) (set_p_pending (p_pending c) (set_p_mask (p_mask c) p))) in
  let* p := get_proc process in
  ret (p_id p).

Definition process_exit (status : Z) : M state unit :=
  let* p := gets current_process in
  do* upd_proc p (set_p_state STATE_DEAD) in
  do* upd_proc p (set_p_exit_status status) in
  do* exit_files (Z.to_nat MAX_FD_SIZE) p 0 in
  let* l := gets all_processes in
  do* (if Z.of_nat (length l) =? 1 then system_shutdown else ret tt) in
  let* _ := process_wake ChildWaitq in
  ret tt.

(** The first dead process of a list. *)
Fixpoint find_dead (l : list Z) : M state (option Z) :=
  match l with
  | [] => ret None
  | p :: l =>
      let* x := get_proc p in
      if decide (p_state x = STATE_DEAD) then ret (Some p) else find_dead l
  end.

(** One turn of the loop of [process_wait], from its entry or from the return
    of [process_sleep] to the next sleep ([None]) or to the return, with what
    is stored through [status]. *)
Definition wait_turn : M state (option (Z * Z)) :=
  let* cur := gets current_process in
  let* c := get_proc cur in
  let* dead := find_dead (p_children c) in
  match dead with
  | Some p =>
      let* x := get_proc p in
      let child_pid := p_id x in
      let exit_status := p_exit_status x in
      do* process_destroy p in
      ret (Some (child_pid, exit_status))
  | None => do* process_sleep ChildWaitq in ret None
  end.
Definition process_wait : M state (option (Z * option Z)) :=
  let* cur := gets current_process in
  let* c := get_proc cur in
  match p_children c with
  | [] => ret (Some (- ECHILD, None))
  | _ =>
      let* r := wait_turn in
      ret (match r with Some (pid, status) => Some (pid, Some status) | None => None end)
  end.

(** ** Signals *)

(** The stack pointer below the pushed bytes, and the bytes popped. *)
Definition push_to_stack (sp : Z) (data : list Z) : M state Z :=
  let signal_sp := Z.land (u32 (sp - Z.of_nat (length data))) (not32 (Z.shiftl 1 3 - 1)) in
  do* kmem (us_write signal_sp data) in
  ret signal_sp.
Definition pop_from_stack (sp size : Z) : M state (list Z * Z) :=
  let* data := kmem (us_read (Z.to_nat size) sp) in
  ret (data, ALIGN (u32 (sp + size)) 3).

(** The arguments that are pointers are [None] for [NULL]; the second component
    of a result is what is stored through the last one. *)
Definition process_sigaction (sig : Z) (ksa : option k_sigaction) (want_old : bool) :
    M state (Z * option k_sigaction) :=
  if (sig <? 1) || (NSIG <=? sig) then ret (- EINVAL, None)
  else if (sig =? SIGKILL) || (sig =? SIGSTOP) then ret (- EINVAL, None)
  else
    let* cur := gets current_process in
    let* old := (if want_old then
                   let* c := get_proc cur in
                   let* a := opt Fault (p_actions c !! Z.to_nat sig) in ret (Some a)
                 else ret None) in
    do* match ksa with
        | None => ret tt
        | Some a =>
            let* c := get_proc cur in
            let* _ := opt Fault (p_actions c !! Z.to_nat sig) in
            let a := set_ksa_mask (snd (sigdelset (ksa_mask a) SIGKILL)) a in
            let a := set_ksa_mask (snd (sigdelset (ksa_mask a) SIGSTOP)) a in
            put_proc cur (set_p_actions (<[Z.to_nat sig := a]> (p_actions c)) c)
        end in
    ret (0, old).

Definition process_sigprocmask (how : Z) (set : option sigset) (want_old : bool) :
    M state (Z * option sigset) :=
  let* cur := gets current_process in
  let* c := get_proc cur in
  let old := p_mask c in
  let oldset := if want_old then Some old else None in
  let set_mask m := do* put_proc cur (set_p_mask m c) in ret (0, oldset) in
  match set with
  | None => ret (0, oldset)
  | Some set =>
      if how =? SIG_BLOCK then
        let m := snd (sigorset old set) in
        let m := snd (sigdelset m SIGKILL) in
        set_mask (snd (sigdelset m SIGSTOP))
      else if how =? SIG_UNBLOCK then set_mask (snd (sigandset old (snd (signotset set))))
      else if how =? SIG_SETMASK then
        let m := snd (sigdelset set SIGKILL) in
        set_mask (snd (sigdelset m SIGSTOP))
      else ret (- EINVAL, None)
  end.

Definition process_sigreturn (context : process_context) : M state unit :=
  let* cur := gets current_process in
  let* popped := pop_from_stack (c_sp context) SIGSET_SIZE in
  let '(m, signal_sp) := popped in
  do* upd_proc cur (set_p_mask (sigset_of_bytes m)) in
  let* popped := pop_from_stack signal_sp CONTEXT_SIZE in
  let '(c, _) := popped in
  upd_proc cur (set_p_context (context_of_bytes c)).

(** ** Scheduling *)

(** The ready processes, in the order of the walk, each put in front. *)
Fixpoint schedule_loop (l : list Z) : M state unit :=
  match l with
  | [] => ret tt
  | p :: l =>
      let* x := get_proc p in
      do* (if decide (p_state x = STATE_READY)
           then modify (fun k => set_run_queue (p :: run_queue k) k) else ret tt) in
      schedule_loop l
  end.
Definition process_schedule : M state unit :=
  let* l := gets all_processes in schedule_loop l.

Definition process_dequeue : M state Z :=
  let* l := gets run_queue in
  match l with
  | p :: l =>
      do* modify (set_run_queue l) in
      do* modify (set_current_process p) in
      ret 1
  | [] =>
      do* modify (set_current_process 0) in
      ret 0
  end.

(** The branch of [process_dispatch] that runs a handler. *)
Definition enter_handler (cur sig : Z) (ksa : k_sigaction) : M state unit :=
  let* c := get_proc cur in
  let* signal_sp := push_to_stack (c_sp (p_context c)) (context_bytes (p_context c)) in
  let* signal_sp := push_to_stack signal_sp (sigset_bytes (p_mask c)) in
  do* upd_proc cur (set_p_context
        (Context 0x00000010 (<[0%nat := sig]> (replicate 13 0)) signal_sp (ksa_restorer ksa) (ksa_handler ksa))) in
  do* upd_proc cur (fun c => set_p_mask (snd (sigorset (p_mask c) (ksa_mask ksa))) c) in
  upd_proc cur (fun c => set_p_mask (snd (sigaddset (p_mask c) sig)) c).

(** The default action of a signal is to do nothing. *)
Definition ignored_by_default (sig : Z) : bool :=
  (sig =? SIGCHLD) || (sig =? SIGURG) || (sig =? SIGWINCH).

(** [process_dispatch]; [switch] is the [process_switch] it calls when a signal
    has ended the process. *)
Definition process_dispatch (switch : M state departure) : M state departure :=
  let* cur := gets current_process in
  let* c := get_proc cur in
  let* _ := mmu_set_ttb (p_id c) in
  if truthy (p_suspend c) then
    let t_suspend := p_suspend c in
    do* upd_proc cur (set_p_suspend 0) in
    let* cc := cache_of context_cache in
    do* kmem (km_obj_free cc t_suspend) in
    ret (Resumed t_suspend)
  else
    let set := snd (signotset (p_mask c)) in
    let set := snd (sigandset (p_pending c) set) in
    let sig := sigpeekset set in
    let leave :=
      let* c := get_proc cur in ret (Dispatched (p_context c)) in
    let clear_and_leave :=
      do* upd_proc cur (fun c => set_p_pending (snd (sigdelset (p_pending c) sig)) c) in leave in
    if truthy sig then
      let* ksa := opt Fault (p_actions c !! Z.to_nat sig) in
      if ksa_handler ksa =? SIG_DFL then
        if ignored_by_default sig then clear_and_leave
        else
          do* process_exit (WAIT_SIGNAL sig) in
          switch
      else if negb (ksa_handler ksa =? SIG_IGN) then
        do* enter_handler cur sig ksa in
        clear_and_leave
      else clear_and_leave
    else leave.

(** Each turn of the recursion through [process_dispatch] ends a process. *)
Fixpoint process_switch (fuel : nat) : M state departure :=
  match fuel with
  | O => fail Fuel
  | Datatypes.S fuel =>
      let* l := gets run_queue in
      do* (match l with [] => process_schedule | _ => ret tt end) in
      let* r := process_dequeue in
      if truthy r then process_dispatch (process_switch fuel) else ret Idle
  end.
End Process.
