(* ===== verification/ProcessFrame.v ===== *)
(** * What the operations leave alone

    A relation [P] between the old and the new contents of a process that all
    small changes respect is respected by the operations of [pipe.c] and
    [process.c] as a whole.  [ProcRel c P] lists these changes: some of them
    any operation may make to any process, the others only to the process [c]
    that runs.  The scheduler, the process tree and the signals each choose
    their own [P]. *)

From stdpp Require Import base numbers list list_numbers gmap.
From S2P Require Import Prelude Bytes Hoare Arith Signal Buddy BuddyProofs KernelMem UserSpace Unix Kernel Pipe Files Process.

#[local] Open Scope Z_scope.
#[local] Open Scope kernel_scope.

Class ProcRel (c : Z) (P : Z -> process -> process -> Prop) : Prop := {
  pr_refl : forall p x, P p x x;
  pr_trans : forall p x y z, P p x y -> P p y z -> P p x z;
  pr_files : forall p v x, P p x (set_p_files v x);
  pr_cloexec : forall p v x, P p x (set_p_close_on_exec v x);
  pr_ready : forall p x, P p x (set_p_state STATE_READY x);
  pr_pending : forall p v x, P p x (set_p_pending v x);
  pr_state : forall v x, P c x (set_p_state v x);
  pr_suspend : forall v x, P c x (set_p_suspend v x);
  pr_exit_status : forall v x, P c x (set_p_exit_status v x);
  pr_context : forall v x, P c x (set_p_context v x);
  pr_brk : forall v x, P c x (set_p_brk v x);
  pr_segments : forall v x, P c x (set_p_segments v x);
}.

Create HintDb frame discriminated.
#[export] Hint Extern 0 (ProcRel _ _) => typeclasses eauto : frame.
Ltac small_change c P :=
  first [apply (pr_refl (c := c) (P := P))
        | apply (pr_files (c := c) (P := P))
        | apply (pr_cloexec (c := c) (P := P))
        | apply (pr_ready (c := c) (P := P))
        | apply (pr_pending (c := c) (P := P))
        | apply (pr_state (c := c) (P := P))
        | apply (pr_suspend (c := c) (P := P))
        | apply (pr_exit_status (c := c) (P := P))
        | apply (pr_context (c := c) (P := P))
        | apply (pr_brk (c := c) (P := P))
        | apply (pr_segments (c := c) (P := P))].

Section Frame.
Context {S : Type} `{KM : KernelMem S}.
Notation state := (kernel S).
Implicit Types (k : state).
Context (c : Z) (P : Z -> process -> process -> Prop) {PR : ProcRel c P}.

(** The processes are related; the tables of processes are the same. *)
Record krel k k' : Prop := {
  kr_all : all_processes k' = all_processes k;
  kr_queue : run_queue k' = run_queue k;
  kr_current : current_process k' = current_process k;
  kr_ids : max_id k' = max_id k;
  kr_caches : k_caches k' = k_caches k;
  kr_procs : forall p, option_Forall2 (P p) (k_procs k !! p) (k_procs k' !! p);
}.

Lemma krel_refl k : krel k k.
Proof. split; try done. intros p. destruct (k_procs k !! p); constructor. apply pr_refl. Qed.

Lemma krel_trans k1 k2 k3 : krel k1 k2 -> krel k2 k3 -> krel k1 k3.
Proof.
  intros [A1 A2 A3 A4 A5 A6] [B1 B2 B3 B4 B5 B6]. split; try congruence.
  intros p. specialize (A6 p). specialize (B6 p).
  destruct A6 as [x y Hxy|]; inversion B6; subst; constructor. by eapply pr_trans.
Qed.

(** [m], run by the process [c], relates the states before and after it. *)
Definition frame {A} (m : M state A) : Prop :=
  forall k a k', current_process k = c -> m k = Ok (a, k') -> krel k k'.

Lemma frame_ret {A} (a : A) : frame (ret a).
Proof. intros k b k' _ [= _ <-]. apply krel_refl. Qed.
Lemma frame_fail {A} r : frame (A := A) (fail r).
Proof. by intros k b k' _ E. Qed.
Lemma frame_opt {A} r (o : option A) : frame (opt r o).
Proof. destruct o; [apply frame_ret|apply frame_fail]. Qed.
Lemma frame_gets {A} (f : state -> A) : frame (gets f).
Proof. intros k b k' _ [= _ <-]. apply krel_refl. Qed.
Lemma frame_bind {A B} (m : M state A) (f : A -> M state B) :
  frame m -> (forall a, frame (f a)) -> frame (bind m f).
Proof.
  intros Hm Hf k b k' Hc (a & k1 & E1 & E2)%bind_inv. pose proof (Hm _ _ _ Hc E1) as H1.
  eapply krel_trans; [exact H1|]. eapply Hf; [|exact E2]. by rewrite (kr_current _ _ H1).
Qed.
(** What follows knows which process runs. *)
Lemma frame_current {B} (f : Z -> M state B) : frame (f c) -> frame (bind (gets current_process) f).
Proof. intros Hf k b k' Hc E. apply (Hf k b k' Hc). by rewrite <- E, <- Hc. Qed.

(** Changes of the rest of the state. *)
Lemma frame_modify (f : state -> state) :
  (forall k, all_processes (f k) = all_processes k /\ run_queue (f k) = run_queue k /\
     current_process (f k) = current_process k /\ max_id (f k) = max_id k /\ k_caches (f k) = k_caches k /\
     k_procs (f k) = k_procs k) -> frame (modify f).
Proof.
  intros Hf k a k' Hc [= _ <-]. destruct (Hf k) as (A1 & A2 & A3 & A4 & A5 & A6). split; try done.
  rewrite A6. apply (kr_procs _ _ (krel_refl k)).
Qed.
Lemma frame_kmem {A} (m : M S A) : frame (kmem m).
Proof.
  intros k a k' _. unfold kmem. destruct (m (k_mem k)) as [[b x]|]; [|done]. intros [= _ <-].
  split; try done. apply (kr_procs _ _ (krel_refl k)).
Qed.

(** One process changes. *)
Lemma krel_proc k p x y : k_procs k !! p = Some x -> P p x y ->
  krel k (set_k_procs (<[p := y]> (k_procs k)) k).
Proof.
  intros Hx Hy. split; try done. intros q. cbn [k_procs set_k_procs].
  destruct (decide (p = q)) as [<-|].
  - rewrite lookup_insert_eq, Hx. by constructor.
  - rewrite lookup_insert_ne by done. apply (kr_procs _ _ (krel_refl k)).
Qed.
Lemma frame_get_proc p : frame (get_proc p).
Proof. apply frame_bind; [apply frame_gets|intros; apply frame_opt]. Qed.
Lemma get_proc_inv k p x k' : get_proc p k = Ok (x, k') -> k' = k /\ k_procs k !! p = Some x.
Proof.
  unfold get_proc. intros (m & k1 & E1 & E2)%bind_inv. injection E1 as <- <-.
  destruct (k_procs k !! p); [|done]. by injection E2 as -> ->.
Qed.
Lemma frame_upd_proc p f : (forall x, P p x (f x)) -> frame (upd_proc p f).
Proof.
  intros Hf k a k' _ (x & k1 & [-> Hx]%get_proc_inv & E2)%bind_inv. injection E2 as _ <-. eapply krel_proc; [exact Hx|apply Hf].
Qed.
(** Read a process, then write it. *)
Lemma frame_put_proc {B} p (f : process -> M state B) (g : process -> B -> process) :
  (forall x b, P p x (g x b)) ->
  (forall x k b k', f x k = Ok (b, k') -> k' = k) ->
  frame (let* x := get_proc p in let* b := f x in put_proc p (g x b)).
Proof.
  intros Hg Hs k a k' Hc (x & k1 & [-> Hx]%get_proc_inv & E2)%bind_inv.
  apply bind_inv in E2 as (b & k2 & ->%Hs & E3). injection E3 as _ <-. eapply krel_proc; [exact Hx|apply Hg].
Qed.
(** A computation that respects [P] and then does [T]. *)
Definition frame_then {A} (T : state -> A -> state -> Prop) (m : M state A) : Prop :=
  forall k a k', current_process k = c -> m k = Ok (a, k') -> exists k1, krel k k1 /\ T k1 a k'.
Lemma then_here {A} (T : state -> A -> state -> Prop) (m : M state A) :
  (forall k a k', current_process k = c -> m k = Ok (a, k') -> T k a k') -> frame_then T m.
Proof. intros HT k a k' Hc E. exists k. split; [apply krel_refl|auto]. Qed.
Lemma then_bind {A B} (T : state -> B -> state -> Prop) (m : M state A) (f : A -> M state B) :
  frame m -> (forall a, frame_then T (f a)) -> frame_then T (bind m f).
Proof.
  intros Hm Hf k b k' Hc (a & k1 & E1 & E2)%bind_inv. pose proof (Hm _ _ _ Hc E1) as H1.
  destruct (Hf a k1 b k') as (k2 & H2 & HT); [by rewrite (kr_current _ _ H1)|done|].
  exists k2. split; [by eapply krel_trans|done].
Qed.
Lemma then_current {B} (T : state -> B -> state -> Prop) (f : Z -> M state B) :
  frame_then T (f c) -> frame_then T (bind (gets current_process) f).
Proof. intros Hf k b k' Hc E. apply (Hf k b k' Hc). by rewrite <- E, <- Hc. Qed.
Lemma opt_state {A} r (o : option A) k b k' : opt r o k = Ok (b, k') -> k' = k.
Proof. destruct o; [|done]. by intros [= _ <-]. Qed.
End Frame.

#[export] Hint Resolve frame_ret frame_fail frame_opt frame_gets frame_kmem frame_get_proc : frame.

(** Take a computation apart. *)
Ltac fr_step :=
  match goal with
  | |- frame _ _ (bind (gets current_process) _) => apply frame_current
  | |- frame _ _ (bind _ _) => apply frame_bind; [typeclasses eauto| |intros ?]
  | |- frame _ _ (modify _) => apply frame_modify; [typeclasses eauto|intros; split_and!; reflexivity]
  | |- frame ?c ?P (upd_proc _ _) => apply frame_upd_proc; [typeclasses eauto|intros; try small_change c P]
  | |- frame _ _ (if ?b then _ else _) => destruct b
  | |- frame _ _ (match ?x with _ => _ end) => destruct x
  | |- frame _ _ (let _ := _ in _) => cbv zeta
  end.
Ltac fr := repeat (fr_step || solve [eauto with frame]).

Section Operations.
Context {S : Type} `{KM : KernelMem S} {US : UserSpace S}.
Notation state := (kernel S).
Context (c : Z) (P : Z -> process -> process -> Prop) {PR : ProcRel c P}.
Notation frame := (frame (S := S) c P).

(** ** Pipes and wait queues *)
Lemma frame_BUG b : frame (SYSTEM_BUG_ON b).
Proof. unfold SYSTEM_BUG_ON. fr. Qed.
Lemma frame_cache f : frame (cache_of f).
Proof. unfold cache_of. fr. Qed.
Lemma frame_get_pipe a : frame (get_pipe a).
Proof. unfold get_pipe. fr. Qed.
Lemma frame_upd_pipe a f : frame (upd_pipe a f).
Proof. unfold upd_pipe, get_pipe, put_pipe. fr. Qed.
Lemma frame_get_file_obj a : frame (get_file_obj a).
Proof. unfold get_file_obj. fr. Qed.
Lemma frame_upd_file_obj a f : frame (upd_file_obj a f).
Proof. unfold upd_file_obj, get_file_obj, put_file_obj. fr. Qed.
Lemma frame_get_waitq q : frame (get_waitq q).
Proof. unfold get_waitq, get_pipe. fr. Qed.
Lemma frame_put_waitq q l : frame (put_waitq q l).
Proof. unfold put_waitq, upd_pipe, get_pipe, put_pipe. fr. Qed.
End Operations.
#[export] Hint Resolve frame_BUG frame_cache frame_get_pipe frame_upd_pipe frame_get_file_obj frame_upd_file_obj
  frame_get_waitq frame_put_waitq : frame.

Section Operations2.
Context {S : Type} `{KM : KernelMem S} {US : UserSpace S}.
Notation state := (kernel S).
Context (c : Z) (P : Z -> process -> process -> Prop) {PR : ProcRel c P}.
Notation frame := (frame (S := S) c P).

Lemma frame_process_wake q : frame (process_wake q).
Proof. unfold process_wake. fr. Qed.
Lemma frame_process_sleep q : frame (process_sleep q).
Proof. unfold process_sleep. fr. Qed.
#[local] Hint Resolve frame_process_wake frame_process_sleep : frame.
Lemma frame_wake_all fuel q : frame (wake_all fuel q).
Proof. induction fuel as [|fuel IH]; cbn [wake_all]; fr. Qed.
#[local] Hint Resolve frame_wake_all : frame.
Lemma frame_find_process_in l pid : frame (find_process_in l pid).
Proof. induction l as [|a l IH]; cbn [find_process_in]; fr. Qed.
#[local] Hint Resolve frame_find_process_in : frame.
Lemma frame_process_kill pid sig : frame (process_kill pid sig).
Proof. unfold process_kill, find_process. fr. Qed.
#[local] Hint Resolve frame_process_kill : frame.

Lemma frame_copy_from i off n : frame (copy_from i off n).
Proof. unfold copy_from, get_buf. fr. Qed.
Lemma frame_copy_to i off l : frame (copy_to i off l).
Proof. unfold copy_to, get_buf. fr. Qed.
#[local] Hint Resolve frame_copy_from frame_copy_to : frame.
Lemma frame_pipe_create : frame pipe_create.
Proof. unfold pipe_create, put_pipe. fr. Qed.
Lemma frame_pipe_read fuel pipe size got : frame (pipe_read_loop fuel pipe size got).
Proof. revert got. induction fuel as [|fuel IH]; intros got; cbn [pipe_read_loop]; fr. Qed.
Lemma frame_pipe_write fuel pipe data written : frame (pipe_write_loop fuel pipe data written).
Proof. revert written. induction fuel as [|fuel IH]; intros written; cbn [pipe_write_loop]; fr. Qed.
Lemma frame_pipe_countup pipe flags : frame (pipe_countup pipe flags).
Proof. unfold pipe_countup. fr. Qed.
Lemma frame_pipe_release pipe flags : frame (pipe_release pipe flags).
Proof. unfold pipe_release, wake_whole. fr. Qed.
#[local] Hint Resolve frame_pipe_create frame_pipe_countup frame_pipe_release : frame.

(** ** Open files *)
Lemma frame_get_fd p i : frame (get_fd p i).
Proof. unfold get_fd. fr. Qed.
#[local] Hint Resolve frame_get_fd : frame.
Lemma frame_set_fd p i f : frame (set_fd p i f).
Proof. unfold set_fd. fr. Qed.
Lemma frame_cloexec_add p i : frame (cloexec_add p i).
Proof.
  apply (frame_put_proc c P p (fun x => opt Fault (bitset_add (p_close_on_exec x) i))
           (fun x b => set_p_close_on_exec b x)); [intros; cbv beta; small_change c P|].
  intros x k b k'. apply opt_state.
Qed.
Lemma frame_cloexec_remove p i : frame (cloexec_remove p i).
Proof.
  apply (frame_put_proc c P p (fun x => opt Fault (bitset_remove (p_close_on_exec x) i))
           (fun x b => set_p_close_on_exec b x)); [intros; cbv beta; small_change c P|].
  intros x k b k'. apply opt_state.
Qed.
Lemma frame_cloexec_test p i : frame (cloexec_test p i).
Proof. unfold cloexec_test. fr. Qed.
#[local] Hint Resolve frame_set_fd frame_cloexec_add frame_cloexec_remove frame_cloexec_test : frame.
Lemma frame_alloc_file p : frame (alloc_file p).
Proof.
  unfold alloc_file. generalize (Z.to_nat MAX_FD_SIZE) as n. generalize 0 as i. intros i n. revert i.
  induction n as [|n IH]; intros i; cbn [alloc_file_loop]; unfold put_file_obj; fr.
Qed.
Lemma frame_release_file f : frame (release_file f).
Proof. unfold release_file. fr. Qed.
Lemma frame_countup_file f : frame (countup_file f).
Proof. unfold countup_file. fr. Qed.
#[local] Hint Resolve frame_alloc_file frame_release_file frame_countup_file : frame.
Lemma frame_get_file fd : frame (get_file fd).
Proof. unfold get_file. fr. Qed.
#[local] Hint Resolve frame_get_file : frame.
Lemma frame_process_close fd : frame (process_close fd).
Proof. unfold process_close. fr. Qed.
#[local] Hint Resolve frame_process_close : frame.
Lemma frame_dupfd fd from flags : frame (process_dupfd fd from flags).
Proof.
  unfold process_dupfd. fr. generalize (Z.to_nat (MAX_FD_SIZE - from)) as n. intros n. revert from.
  induction n as [|n IH]; intros from; cbn [dupfd_loop]; fr.
Qed.
#[local] Hint Resolve frame_dupfd : frame.
Lemma frame_dup2 oldfd newfd : frame (process_dup2 oldfd newfd).
Proof. unfold process_dup2. fr. Qed.
Lemma frame_dup3 oldfd newfd flags : frame (process_dup3 oldfd newfd flags).
Proof. unfold process_dup3. fr. Qed.
Lemma frame_pipe2 flags : frame (process_pipe2 flags).
Proof. unfold process_pipe2. fr. Qed.
Lemma frame_fcntl fd cmd arg : frame (process_fcntl64 fd cmd arg).
Proof. unfold process_fcntl64. fr. Qed.
Lemma frame_fork_files n p i : frame (fork_files n p i).
Proof. revert i. induction n as [|n IH]; intros i; cbn [fork_files]; fr. Qed.
Lemma frame_exit_files n p i : frame (exit_files n p i).
Proof. revert i. induction n as [|n IH]; intros i; cbn [exit_files]; fr. Qed.
#[local] Hint Resolve frame_fork_files frame_exit_files : frame.
Lemma frame_exec_files n p i : frame (exec_files n p i).
Proof. revert i. induction n as [|n IH]; intros i; cbn [exec_files]; fr. Qed.
End Operations2.
#[export] Hint Resolve frame_process_wake frame_process_sleep frame_process_kill frame_pipe_read frame_pipe_write
  frame_process_close frame_dupfd frame_dup2 frame_dup3 frame_pipe2 frame_fcntl frame_fork_files frame_exit_files
  frame_exec_files frame_get_fd frame_set_fd frame_cloexec_add frame_alloc_file frame_countup_file frame_get_file : frame.

(** Relations that also allow the changes made to a process while it is
    created, and to the family of one that is removed. *)
Class FamilyRel (c : Z) (P : Z -> process -> process -> Prop) : Prop := {
  fr_rel :: ProcRel c P;
  fr_id : forall p v x, P p x (set_p_id v x);
  fr_parent : forall p v x, P p x (set_p_parent v x);
  fr_children : forall p v x, P p x (set_p_children v x);
  fr_context : forall p v x, P p x (set_p_context v x);
  fr_brk : forall p v x, P p x (set_p_brk v x);
  fr_segments : forall p v x, P p x (set_p_segments v x);
  fr_stack : forall p v x, P p x (set_p_kernel_stack v x);
}.
Ltac family_change c P :=
  first [apply (fr_id (c := c) (P := P))
        | apply (fr_parent (c := c) (P := P))
        | apply (fr_children (c := c) (P := P))
        | apply (fr_context (c := c) (P := P))
        | apply (fr_brk (c := c) (P := P))
        | apply (fr_segments (c := c) (P := P))
        | apply (fr_stack (c := c) (P := P))].

Section Operations3.
Context {S : Type} `{KM : KernelMem S} {US : UserSpace S}.
Notation state := (kernel S).
Context (c : Z) (P : Z -> process -> process -> Prop) {PR : ProcRel c P}.
Notation frame := (frame (S := S) c P).

(** ** Memory *)
Lemma frame_set_ttb pid : frame (mmu_set_ttb pid).
Proof. apply frame_kmem, PR. Qed.
Lemma frame_mmu_alloc pid addr size : frame (mmu_alloc pid addr size).
Proof. apply frame_kmem, PR. Qed.
Lemma frame_mmu_destroy pid : frame (mmu_destroy pid).
Proof. apply frame_kmem, PR. Qed.
Lemma frame_get_segment p i : frame (get_segment p i).
Proof. unfold get_segment. fr. Qed.
#[local] Hint Resolve frame_set_ttb frame_mmu_alloc frame_mmu_destroy frame_get_segment : frame.
Lemma frame_upd_segment i f : frame (upd_segment c i f).
Proof. unfold upd_segment. fr. Qed.
#[local] Hint Resolve frame_upd_segment : frame.
Lemma frame_grow_heap fuel pid : frame (grow_heap fuel c pid).
Proof. induction fuel as [|fuel IH]; cbn [grow_heap]; fr. Qed.
#[local] Hint Resolve frame_grow_heap : frame.
Lemma frame_process_brk address : frame (process_brk address).
Proof. unfold process_brk. fr. Qed.
Lemma frame_grow_stack fuel i pid base : frame (grow_stack fuel c i pid base).
Proof. induction fuel as [|fuel IH]; cbn [grow_stack]; fr. Qed.
Lemma frame_find_segment n address i : frame (find_segment_loop n address i).
Proof. revert i. induction n as [|n IH]; intros i; cbn [find_segment_loop]; fr. Qed.
#[local] Hint Resolve frame_grow_stack frame_find_segment : frame.
Lemma frame_demand_page address : frame (process_demand_page address).
Proof. unfold process_demand_page, find_segment. fr. Qed.
Lemma frame_copy_pages fuel pid cur end_ : frame (copy_pages fuel pid cur end_).
Proof. revert cur. induction fuel as [|fuel IH]; intros cur; cbn [copy_pages]; fr. Qed.
#[local] Hint Resolve frame_copy_pages : frame.
Lemma frame_copy_segments n p parent i : frame (copy_segments_loop n p parent i).
Proof. revert i. unfold copy_segment. induction n as [|n IH]; intros i; cbn [copy_segments_loop]; unfold copy_segment; fr. Qed.

(** ** Exit and signals *)
Lemma frame_process_exit status : frame (process_exit status).
Proof. unfold process_exit, system_shutdown. fr. Qed.
Lemma frame_find_dead l : frame (find_dead l).
Proof. induction l as [|p l IH]; cbn [find_dead]; fr. Qed.
Lemma frame_push sp data : frame (push_to_stack sp data).
Proof. unfold push_to_stack. fr. Qed.
Lemma frame_pop sp size : frame (pop_from_stack sp size).
Proof. unfold pop_from_stack. fr. Qed.
#[local] Hint Resolve frame_process_exit frame_find_dead frame_push frame_pop : frame.

(** The operations that change the mask or the actions of the current process. *)
Context (pr_mask : forall v x, P c x (set_p_mask v x)).
Lemma frame_sigreturn context : frame (process_sigreturn context).
Proof. unfold process_sigreturn. fr. Qed.
Lemma frame_enter_handler sig ksa : frame (enter_handler c sig ksa).
Proof. unfold enter_handler. fr. Qed.
Lemma frame_sigprocmask how set want : frame (process_sigprocmask how set want).
Proof.
  intros k r k' Hc. unfold process_sigprocmask. erewrite (bind_ok (gets _)) by reflexivity. rewrite Hc.
  intros (x & k1 & [-> Hx]%get_proc_inv & E)%bind_inv. cbv zeta in E.
  assert (H0 : krel P k k) by apply (krel_refl c P k).
  assert (Hm : forall m r' k2, bind (put_proc c (set_p_mask m x)) (fun _ => ret r') k = Ok (r, k2) -> krel P k k2).
  { intros m r' k2 E'. injection E' as _ <-. eapply krel_proc; [done|done|apply pr_mask]. }
  destruct set as [set|]; [|by injection E as _ <-].
  destruct (how =? SIG_BLOCK); [by eapply Hm|]. destruct (how =? SIG_UNBLOCK); [by eapply Hm|].
  destruct (how =? SIG_SETMASK); [by eapply Hm|]. by injection E as _ <-.
Qed.
Context (pr_actions : forall v x, P c x (set_p_actions v x)).
Lemma frame_sigaction sig ksa want : frame (process_sigaction sig ksa want).
Proof.
  assert (Hput : forall a, frame (let* x := get_proc c in
    let* _ := opt Fault (p_actions x !! Z.to_nat sig) in
    put_proc c (set_p_actions (<[Z.to_nat sig := a]> (p_actions x)) x))).
  { intros a. apply (frame_put_proc c P c (fun x => opt Fault (p_actions x !! Z.to_nat sig))
      (fun x _ => set_p_actions (<[Z.to_nat sig := a]> (p_actions x)) x)); [intros; apply pr_actions|].
    intros x k b k'. apply opt_state. }
  unfold process_sigaction. do 2 (fr_step; [fr|]). apply frame_current. fr_step; [fr|]. fr_step; [|fr].
  destruct ksa; [apply Hput|fr].
Qed.
End Operations3.
#[export] Hint Resolve frame_set_ttb frame_mmu_alloc frame_mmu_destroy frame_get_segment frame_upd_segment frame_process_brk frame_demand_page
  frame_copy_segments frame_process_exit frame_find_dead frame_sigreturn frame_enter_handler frame_sigprocmask
  frame_sigaction : frame.

Section Family.
Context {S : Type} `{KM : KernelMem S} {US : UserSpace S}.
Notation state := (kernel S).
Implicit Types (k : state).
Context (c : Z) (P : Z -> process -> process -> Prop) {PR : FamilyRel c P}.
Notation frame := (frame (S := S) c P).

Lemma frame_adopt l parent : frame (adopt l parent).
Proof. induction l as [|p l IH]; cbn [adopt]; fr; family_change c P. Qed.
Lemma frame_find_toplevel l : frame (find_toplevel_in l).
Proof. induction l as [|p l IH]; cbn [find_toplevel_in]; fr. Qed.
#[local] Hint Extern 0 (FamilyRel _ _) => typeclasses eauto : frame.
#[local] Hint Resolve frame_adopt frame_find_toplevel : frame.

(** A new process; the others are as before. *)
Lemma process_alloc_inv k p k' : process_alloc k = Ok (p, k') ->
  (exists s, km_obj_alloc (process_cache (k_caches k)) (k_mem k) = Ok (p, s)) /\
  all_processes k' = p :: all_processes k /\ run_queue k' = run_queue k /\
  current_process k' = current_process k /\
  (exists sp, k_procs k' !! p = Some (set_p_kernel_stack sp (set_p_id (max_id k) zero_process))) /\
  (max_id k <> PID_MAX /\ max_id k' = max_id k + 1) /\
  forall q, q <> p -> k_procs k' !! q = k_procs k !! q.
Proof.
  unfold process_alloc, cache_of, upd_proc, put_proc, get_proc. intros E. cbn in E. unfold bind, gets, kmem in E.
  destruct (km_obj_alloc _ (k_mem k)) as [[a s]|] eqn:Ea; [|done]. cbn in E.
  rewrite lookup_insert_eq in E. cbn in E. destruct (Z.eqb_spec (max_id k) PID_MAX) as [|Hid]; [done|]. cbn in E.
  destruct (km_page_alloc _ _) as [[i s']|]; [|done]. cbn in E. rewrite lookup_insert_eq in E. cbn in E.
  injection E as <- <-. cbn. split; [by exists s|]. do 3 (split; [done|]). split; [|split; [done|]].
  - eexists. apply lookup_insert_eq.
  - intros q Hq. by rewrite !lookup_insert_ne by congruence.
Qed.

(** What [process_fork] does after [process_alloc], up to the copy of the signals. *)
Lemma fork_inv k context r k' : process_fork context k = Ok (r, k') -> current_process k = c ->
  exists p k1 k2 x y, process_alloc k = Ok (p, k1) /\ krel P k1 k2 /\
    k_procs k2 !! c = Some x /\ k_procs k2 !! p = Some y /\
    k' = set_k_procs (<[p := set_p_actions (p_actions x) (set_p_pending (p_pending x) (set_p_mask (p_mask x) y))]>
           (k_procs k2)) k2.
Proof.
  unfold process_fork. intros (p & k1 & E1 & E)%bind_inv Hc. exists p, k1.
  destruct (process_alloc_inv _ _ _ E1) as (_ & _ & _ & Hc1 & _). rewrite Hc in Hc1. revert E.
  match goal with |- ?m k1 = _ -> _ => assert (F : frame_then c P (fun k2 _ k' => exists x y,
    k_procs k2 !! c = Some x /\ k_procs k2 !! p = Some y /\
    k' = set_k_procs (<[p := set_p_actions (p_actions x) (set_p_pending (p_pending x) (set_p_mask (p_mask x) y))]>
           (k_procs k2)) k2) m) end.
  { apply then_current. unfold copy_segments.
    do 11 (apply then_bind; [typeclasses eauto|fr; family_change c P|intros ?]).
    apply then_here; [typeclasses eauto|]. intros j b j' _ (x & j1 & [-> Hx]%get_proc_inv & E)%bind_inv.
    apply bind_inv in E as ([] & j1 & E & E2). apply bind_inv in E as (y & j2 & [-> Hy]%get_proc_inv & E).
    injection E as <-. apply bind_inv in E2 as (z & j3 & [-> _]%get_proc_inv & E). injection E as _ <-. by exists x, y. }
  intros E. destruct (F _ _ _ Hc1 E) as (k2 & HK & x & y & H). by exists k2, x, y.
Qed.

(** The state once [p] is out of the lists. *)
Definition unlinked p k : state :=
  set_k_procs ((fun y => set_p_children (seq_remove p (p_children y)) y) <$> k_procs k)
    (set_all_processes (seq_remove p (all_processes k)) (set_run_queue (seq_remove p (run_queue k)) k)).

Lemma destroy_inv k p k' : process_destroy p k = Ok (tt, k') -> current_process k = c ->
  exists k2, krel P (unlinked p k) k2 /\
    k' = set_k_procs (delete p (k_procs k2)) k2.
Proof.
  unfold process_destroy. intros E Hc. erewrite (bind_ok (gets _)) in E by reflexivity.
  apply bind_inv in E as (x & k1 & [-> _]%get_proc_inv & E).
  apply bind_inv in E as (y & k1 & [-> _]%get_proc_inv & E).
  apply bind_inv in E as (u & k1 & Eb & E). assert (k1 = k) as ->.
  { unfold SYSTEM_BUG_ON in Eb. destruct (p_id x =? p_id y); [done|]. by injection Eb as _ <-. }
  do 3 erewrite (bind_ok (modify _)) in E by reflexivity. fold (unlinked p k) in E. revert E.
  match goal with |- ?m ?k0 = _ -> _ => assert (F : frame_then c P
    (fun k _ k' => k' = set_k_procs (delete p (k_procs k)) k) m) end.
  { unfold find_toplevel_process. rewrite Hc.
    repeat (apply then_bind; [typeclasses eauto|fr; family_change c P|intros ?]).
    apply then_here; [typeclasses eauto|]. by intros k0 [] k1 _ [= <-]. }
  intros E. destruct (F (unlinked p k) tt k') as (k2 & HK & ->); [exact Hc|exact E|]. by exists k2.
Qed.

Lemma find_dead_inv l : forall k p k', find_dead l k = Ok (Some p, k') ->
  k' = k /\ exists x, k_procs k !! p = Some x /\ p_state x = STATE_DEAD.
Proof.
  induction l as [|q l IH]; intros k p k'; cbn [find_dead]; [done|].
  intros (x & k1 & [-> Hx]%get_proc_inv & E)%bind_inv. destruct (decide (p_state x = STATE_DEAD)).
  - injection E as <- <-. split; [done|]. by exists x.
  - by apply IH.
Qed.

End Family.
#[export] Hint Extern 0 (FamilyRel _ _) => typeclasses eauto : frame.
#[export] Hint Resolve frame_adopt frame_find_toplevel : frame.

Section Dispatch.
Context {S : Type} `{KM : KernelMem S} {US : UserSpace S}.
Notation state := (kernel S).
Implicit Types (k : state).
Context (c : Z) (P : Z -> process -> process -> Prop) {PR : ProcRel c P}.
Context (pr_mask : forall v x, P c x (set_p_mask v x)).

(** ** Dispatching

    [D switch] is a computation that may go on with [switch]: whatever [switch]
    is, it leaves the kernel, or stops, or calls [switch] in one state. *)
Definition uniform (D : M state departure -> M state departure) : Prop :=
  forall k, current_process k = c ->
    (exists d k', (forall sw, D sw k = Ok (d, k')) /\ krel P k k') \/
    (exists k2, (forall sw, D sw k = sw k2) /\ krel P k k2) \/
    exists e, forall sw, D sw k = Err e.

Lemma uniform_const (m : M state departure) : frame c P m -> uniform (fun _ => m).
Proof.
  intros F k Hc. destruct (m k) as [[d k']|e] eqn:E; [left|by right; right; exists e].
  exists d, k'. split; [done|]. by eapply F.
Qed.
Lemma uniform_switch : uniform (fun sw => sw).
Proof. intros k Hc. right; left. exists k. split; [done|]. apply (krel_refl c). typeclasses eauto. Qed.
Lemma uniform_bind {A} (m : M state A) (D : A -> M state departure -> M state departure) :
  frame c P m -> (forall a, uniform (D a)) -> uniform (fun sw => bind m (fun a => D a sw)).
Proof.
  intros F HD k Hc. unfold bind. destruct (m k) as [[a k1]|e] eqn:E; [|by right; right; exists e].
  pose proof (F _ _ _ Hc E) as H1. assert (Hc1 : current_process k1 = c) by (by rewrite (kr_current _ _ _ H1)).
  assert (HT : forall k2, krel P k1 k2 -> krel P k k2)
    by (intros k2; apply (krel_trans c); [typeclasses eauto|done]).
  destruct (HD a k1 Hc1) as [(d & k' & E1 & H2)|[(k2 & E1 & H2)|(e & E1)]];
    [left; exists d, k'|right; left; exists k2|by right; right; exists e]; auto.
Qed.
Lemma uniform_current (D : Z -> M state departure -> M state departure) :
  uniform (D c) -> uniform (fun sw => bind (gets current_process) (fun a => D a sw)).
Proof. intros HD k Hc. unfold bind, gets. rewrite Hc. by apply HD. Qed.

Lemma dispatch_uniform : uniform process_dispatch.
Proof.
  unfold process_dispatch. apply uniform_current. apply uniform_bind; [fr|intros x].
  apply uniform_bind; [fr|intros _]. destruct (truthy (p_suspend x)); [apply uniform_const; fr|].
  cbv zeta. destruct (truthy _); [|apply uniform_const; fr].
  apply uniform_bind; [fr|intros ksa]. destruct (ksa_handler ksa =? SIG_DFL).
  - destruct (ignored_by_default _); [apply uniform_const; fr|]. apply uniform_bind; [fr|intros _]. apply uniform_switch.
  - destruct (negb _); apply uniform_const; fr.
Qed.
End Dispatch.
