(* ===== verification/ProcessSched.v ===== *)
(** * Scheduling: proofs

    The run queue holds ready processes, each once, and not the one that runs;
    no operation of a running process takes another out of it.  So every ready
    process has its turn: within twice as many calls of [process_switch] as
    there are processes it is dispatched. *)

From stdpp Require Import base numbers list list_numbers gmap.
From S2P Require Import Prelude Bytes Hoare Arith Signal Buddy BuddyProofs KernelMem UserSpace Unix Kernel Pipe PipeProofs Files Process ProcessFrame.

#[local] Open Scope Z_scope.
#[local] Open Scope kernel_scope.

(** Only the process that runs stops being ready. *)
Definition sched_rel (c p : Z) (x x' : process) : Prop :=
  p = c \/ (p_state x = STATE_READY -> p_state x' = STATE_READY).

#[export] Instance sched_family c : FamilyRel c (sched_rel c).
Proof. split; [split|..]; unfold sched_rel; tauto. Qed.

Section Sched.
Context {S : Type} `{KM : KernelMem S} {US : UserSpace S}.
Notation state := (kernel S).
Implicit Types (k : state).

Definition ready k (p : Z) : Prop :=
  exists x, k_procs k !! p = Some x /\ p_state x = STATE_READY.

Record sched_inv k : Prop := {
  sc_all : NoDup (all_processes k);
  sc_null : 0 ∉ all_processes k;
  sc_procs : forall p, p ∈ all_processes k -> is_Some (k_procs k !! p);
  sc_queue : NoDup (run_queue k);
  sc_ready : forall p, p ∈ run_queue k -> p ∈ all_processes k /\ ready k p;
  sc_current : current_process k ∉ run_queue k;
}.

(** What another process sees of an operation of the running one. *)
Record stays k k' : Prop := {
  st_queue : run_queue k' = run_queue k;
  st_current : current_process k' = current_process k;
  st_ready : forall p, p <> current_process k -> p ∈ all_processes k -> ready k p ->
    p ∈ all_processes k' /\ ready k' p;
}.

Lemma krel_ready k k' p : krel (sched_rel (current_process k)) k k' -> p <> current_process k ->
  ready k p -> ready k' p.
Proof.
  intros HK Hp (x & Hx & Hs). pose proof (kr_procs _ _ _ HK p) as H. rewrite Hx in H.
  inversion H as [? y Hxy E1 E2|]; subst. exists y. split; [done|]. destruct Hxy; tauto.
Qed.

Lemma krel_sched k k' : sched_inv k -> krel (sched_rel (current_process k)) k k' -> sched_inv k' /\ stays k k'.
Proof.
  intros [H1 H2 H3 H4 H5 H6] HK. pose proof HK as [K1 K2 K3 K4 K5 K6].
  assert (Hd : forall p, is_Some (k_procs k !! p) -> is_Some (k_procs k' !! p)).
  { intros p [x Hx]. specialize (K6 p). rewrite Hx in K6. inversion K6. by eexists. }
  split; split; rewrite ?K1, ?K2, ?K3; auto.
  - intros p Hp. destruct (H5 p Hp) as [Ha Hr]. split; [done|]. eapply krel_ready; [done| |done]. by intros ->.
  - intros p Hp Ha Hr. split; [done|]. by eapply krel_ready.
Qed.

Lemma stays_trans k1 k2 k3 : stays k1 k2 -> stays k2 k3 -> stays k1 k3.
Proof.
  intros [A1 A2 A3] [B1 B2 B3]. split; [congruence|congruence|]. intros p Hp Ha Hr.
  destruct (A3 p Hp Ha Hr). apply B3; [congruence|done|done].
Qed.

(** ** The operations of a running process *)

(** The memory is consistent, and the processes are objects in use of their
    cache: what the allocators promise each other (see [KernelMem]). *)
Definition procs_live k : Prop := exists C L U osz, km_inv (k_mem k) C L U /\
  C !! process_cache (k_caches k) = Some osz /\
  forall p, is_Some (k_procs k !! p) -> L (process_cache (k_caches k)) p.

(** So the object of a new process is not one of a process. *)
Lemma alloc_fresh k a s : procs_live k -> km_obj_alloc (process_cache (k_caches k)) (k_mem k) = Ok (a, s) ->
  a <> 0 /\ k_procs k !! a = None.
Proof.
  intros (C & L & U & osz & HI & Hc & Hl) E.
  destruct (km_obj_alloc_spec _ _ _ _ _ _ HI Hc) as [E'|(a' & s' & E' & Hn & H0 & _)]; rewrite E in E'; [done|].
  injection E' as <- <-. split; [done|]. destruct (k_procs k !! a) eqn:Ea; [|done].
  destruct (Hn (process_cache (k_caches k))). apply Hl. by rewrite Ea.
Qed.

Lemma fork_sched k context r k' : sched_inv k -> procs_live k -> is_Some (k_procs k !! current_process k) ->
  process_fork context k = Ok (r, k') ->
  sched_inv k' /\ stays k k'.
Proof.
  intros HI Hf Hcur E. set (c := current_process k).
  destruct (fork_inv c (sched_rel c) _ _ _ _ E eq_refl) as (p & k1 & k2 & x & y & E1 & HK & Hx & Hy & ->).
  assert (HK' : krel (sched_rel c) k1 (set_k_procs (<[p := set_p_actions (p_actions x) (set_p_pending (p_pending x)
    (set_p_mask (p_mask x) y))]> (k_procs k2)) k2)).
  { eapply (krel_trans c); [typeclasses eauto|exact HK|]. eapply krel_proc; [typeclasses eauto|exact Hy|by right]. }
  clear HK Hx Hy. set (k' := set_k_procs _ _) in *.
  destruct (process_alloc_inv _ _ _ E1) as ([s Ea] & A1 & A2 & A3 & (sp & Hx) & _ & A4).
  destruct (alloc_fresh _ _ _ Hf Ea) as (Hp0 & Hpn). destruct HI as [H1 H2 H3 H4 H5 H6].
  assert (Hpa : p ∉ all_processes k) by (intros Hp; destruct (H3 p Hp); congruence).
  assert (Hrd : forall q, ready k q -> ready k1 q).
  { intros q (z & Hy & Hs). exists z. rewrite A4; [done|]. intros ->. congruence. }
  assert (HI1 : sched_inv k1).
  { split; rewrite ?A1, ?A2, ?A3; auto.
    - by constructor.
    - rewrite not_elem_of_cons. auto.
    - intros q [->|Hq]%elem_of_cons; [by eexists|]. rewrite A4; [auto|]. by intros ->.
    - intros q Hq. destruct (H5 q Hq) as [Ha Hr']. split; [by apply elem_of_cons; right|auto]. }
  unfold c in HK'. rewrite <- A3 in HK'. destruct (krel_sched _ _ HI1 HK') as [HI' HS]. split; [done|].
  eapply stays_trans; [|exact HS]. split; [done|done|]. intros q Hq Ha Hr'. rewrite A1.
  split; [by apply elem_of_cons; right|auto].
Qed.

(** ** Removing a process *)
Lemma seq_remove_notin p l : p ∉ l -> seq_remove p l = l.
Proof.
  unfold seq_remove. intros Hp. induction l as [|q l IH]; [done|]. apply not_elem_of_cons in Hp as [H1 H2].
  rewrite filter_cons_True by congruence. by rewrite IH.
Qed.

Lemma destroy_sched k p x k' : sched_inv k -> k_procs k !! p = Some x -> p_state x = STATE_DEAD ->
  process_destroy p k = Ok (tt, k') -> sched_inv k' /\ stays k k'.
Proof.
  intros [H1 H2 H3 H4 H5 H6] Hx Hd E.
  destruct (destroy_inv (current_process k) (sched_rel (current_process k)) _ _ _ E eq_refl) as (k2 & HK & ->).
  assert (Hnr : ~ ready k p) by (intros (y & Hy & ?); congruence).
  assert (Hnq : p ∉ run_queue k) by (intros Hq; by apply Hnr, H5).
  assert (Hun : forall q, ready k q -> ready (unlinked p k) q).
  { intros q (y & Hy & Hs). eexists. split; [cbn; rewrite lookup_fmap, Hy; reflexivity|done]. }
  assert (Hin : forall q, q ∈ seq_remove p (all_processes k) <-> q ∈ all_processes k /\ q <> p).
  { intros q. unfold seq_remove. rewrite list_elem_of_filter. tauto. }
  assert (HI1 : sched_inv (unlinked p k)).
  { split; cbn; rewrite ?(seq_remove_notin p (run_queue k)) by done; auto.
    - by apply NoDup_filter.
    - rewrite Hin. tauto.
    - intros q [Hq _]%Hin. rewrite lookup_fmap. by apply fmap_is_Some, H3.
    - intros q Hq. destruct (H5 q Hq) as [Ha Hr]. rewrite Hin. split; [|auto]. split; [done|]. by intros ->. }
  destruct (krel_sched (unlinked p k) _ HI1 HK) as [[J1 J2 J3 J4 J5 J6] [S1 S2 S3]].
  cbn in S1, S2, S3. rewrite (seq_remove_notin p (run_queue k)) in S1 by done.
  assert (Hdel : forall q, q <> p -> ready k2 q -> ready (set_k_procs (delete p (k_procs k2)) k2) q).
  { intros q Hq (y & Hy & Hs). exists y. split; [|done]. cbn. by rewrite lookup_delete_ne by congruence. }
  assert (Hall : all_processes k2 = seq_remove p (all_processes k)) by apply (kr_all _ _ _ HK).
  split; split; cbn; auto.
  - intros q Hq. rewrite Hall in Hq. apply Hin in Hq as Hq'. rewrite lookup_delete_ne by (intros <-; tauto).
    apply J3. by rewrite Hall.
  - intros q Hq. destruct (J5 q Hq) as [Ha Hr]. split; [done|]. apply Hdel; [|done]. intros ->.
    rewrite Hall in Ha. apply Hin in Ha. tauto.
  - intros q Hq Ha Hr. assert (q <> p) by (intros ->; done).
    destruct (S3 q Hq) as [Ha' Hr']; [by apply Hin|by apply Hun|]. split; [done|]. by apply Hdel.
Qed.

Lemma wait_turn_sched k r k' : sched_inv k -> wait_turn k = Ok (r, k') -> sched_inv k' /\ stays k k'.
Proof.
  intros HI. unfold wait_turn. intros E. erewrite (bind_ok (gets _)) in E by reflexivity.
  apply bind_inv in E as (x & k1 & [-> _]%get_proc_inv & E). apply bind_inv in E as ([p|] & k1 & Ed & E).
  - apply find_dead_inv in Ed as [-> (y & Hy & Hd)].
    apply bind_inv in E as (y' & k1 & [-> _]%get_proc_inv & E). cbv zeta in E.
    apply bind_inv in E as ([] & k2 & Ek & E). injection E as _ <-. by eapply destroy_sched.
  - apply krel_sched; [done|].
    assert (H1 : krel (sched_rel (current_process k)) k k1)
      by (eapply (frame_find_dead (current_process k)); [typeclasses eauto|reflexivity|exact Ed]).
    apply bind_inv in E as ([] & k2 & Es & E). injection E as _ <-.
    eapply (krel_trans (current_process k)); [typeclasses eauto|exact H1|].
    eapply (frame_process_sleep (current_process k)); [typeclasses eauto| |exact Es]. apply (kr_current _ _ _ H1).
Qed.

(** ** Taking the next process *)

(** The part of [process_switch] before [process_dispatch]. *)
Definition switch_head : M state Z :=
  let* l := gets run_queue in
  do* (match l with [] => process_schedule | _ => ret tt end) in
  process_dequeue.

Lemma process_switch_unfold fuel k : process_switch (Datatypes.S fuel) k =
  (let* r := switch_head in if truthy r then process_dispatch (process_switch fuel) else ret Idle) k.
Proof.
  cbn [process_switch]. unfold switch_head, bind, gets. destruct (run_queue k).
  - destruct (process_schedule k) as [[[] k1]|]; [|done]. by destruct (process_dequeue k1) as [[? ?]|].
  - cbn [ret]. unfold ret. by destruct (process_dequeue k) as [[? ?]|].
Qed.

#[local] Instance ready_dec k p : Decision (ready k p).
Proof.
  unfold ready. destruct (k_procs k !! p) as [x|] eqn:E.
  - destruct (decide (p_state x = STATE_READY)); [left; by exists x|right; intros (y & Hy & ?); congruence].
  - right. intros (y & Hy & _). congruence.
Defined.

Lemma ready_queue k k' p : k_procs k' = k_procs k -> ready k' p <-> ready k p.
Proof. unfold ready. by intros ->. Qed.

Lemma schedule_loop_ok l : forall k, (forall p, p ∈ l -> is_Some (k_procs k !! p)) ->
  schedule_loop l k = Ok (tt, set_run_queue (reverse (filter (ready k) l) ++ run_queue k) k).
Proof.
  induction l as [|p l IH]; intros k Hl; cbn [schedule_loop]; [by destruct k|].
  destruct (Hl p) as [x Hx]; [by left|]. mrun (get_proc_ok _ _ _ Hx).
  rewrite filter_cons. destruct (decide (p_state x = STATE_READY)) as [Hs|Hs].
  - rewrite decide_True by (by exists x). erewrite (bind_ok (modify _)) by reflexivity.
    rewrite IH by (intros; apply Hl; by right). rewrite reverse_cons, <- app_assoc. done.
  - rewrite decide_False by (intros (y & Hy & ?); congruence). erewrite (bind_ok (ret tt)) by reflexivity.
    apply IH. intros; apply Hl; by right.
Qed.

(** The queue from which the next process is taken. *)
Definition next_queue k : list Z :=
  match run_queue k with [] => reverse (filter (ready k) (all_processes k)) | l => l end.

Lemma switch_head_ok k : sched_inv k ->
  switch_head k = match next_queue k with
                  | [] => Ok (0, set_current_process 0 (set_run_queue [] k))
                  | p :: l => Ok (1, set_current_process p (set_run_queue l k))
                  end.
Proof.
  intros HI. unfold switch_head, next_queue. erewrite (bind_ok (gets _)) by reflexivity.
  destruct (run_queue k) as [|p l] eqn:Eq.
  - assert (E : process_schedule k = Ok (tt, set_run_queue (reverse (filter (ready k) (all_processes k)) ++ []) k)).
    { unfold process_schedule. erewrite (bind_ok (gets _)) by reflexivity. rewrite schedule_loop_ok by apply HI.
      by rewrite Eq. }
    mrun E. rewrite app_nil_r. unfold process_dequeue. erewrite (bind_ok (gets _)) by reflexivity. cbn [run_queue set_run_queue].
    by destruct (reverse _).
  - erewrite (bind_ok (ret tt)) by reflexivity. unfold process_dequeue. erewrite (bind_ok (gets _)) by reflexivity.
    rewrite Eq. done.
Qed.

Lemma next_queue_ok k : sched_inv k ->
  NoDup (next_queue k) /\ forall p, p ∈ next_queue k -> p ∈ all_processes k /\ ready k p.
Proof.
  intros [H1 H2 H3 H4 H5 H6]. unfold next_queue. destruct (run_queue k) as [|q l].
  - split; [rewrite reverse_Permutation; by apply NoDup_filter|]. intros p. rewrite elem_of_reverse, list_elem_of_filter. tauto.
  - done.
Qed.

(** The state in which the next process is dispatched. *)
Lemma head_sched k p l : sched_inv k -> next_queue k = p :: l ->
  sched_inv (set_current_process p (set_run_queue l k)).
Proof.
  intros HI Hq. destruct (next_queue_ok k HI) as [Hn Hr]. rewrite Hq in Hn, Hr. destruct HI as [H1 H2 H3 H4 H5 H6].
  apply NoDup_cons in Hn as [Hp Hn]. split; cbn; auto. intros q Hql.
  destruct (Hr q) as [Ha Hrq]; [by right|]. by split.
Qed.

(** During [process_switch fuel], started in [k], it is the turn of [p]: [p] is
    taken from the queue and dispatched. *)
Inductive has_turn : nat -> state -> Z -> Prop :=
| turn_now fuel k p l : next_queue k = p :: l -> has_turn (Datatypes.S fuel) k p
| turn_later fuel k q l k2 p : next_queue k = q :: l ->
    (forall switch, process_dispatch switch (set_current_process q (set_run_queue l k)) = switch k2) ->
    has_turn fuel k2 p -> has_turn (Datatypes.S fuel) k p.

(** How many more switches [p] may have to wait, with [N] processes at most. *)
Definition waits (N : nat) k (p : Z) (n : nat) : Prop :=
  run_queue k !! n = Some p \/ (p ∉ run_queue k /\ (length (run_queue k) + N)%nat = n).

(** One process is taken and dispatched; [p] is not it. *)
Lemma taken_waits N k p q l k2 n : sched_inv k -> (length (all_processes k) <= N)%nat ->
  p ∈ all_processes k -> ready k p -> waits N k p n -> next_queue k = q :: l -> q <> p ->
  krel (sched_rel q) (set_current_process q (set_run_queue l k)) k2 ->
  sched_inv k2 /\ all_processes k2 = all_processes k /\ ready k2 p /\ current_process k2 = q /\
  exists n', waits N k2 p n' /\ (n' < n)%nat.
Proof.
  intros HI HN Ha Hr Hw Hq Hne HK. set (k1 := set_current_process q (set_run_queue l k)) in *.
  destruct (krel_sched k1 k2 (head_sched _ _ _ HI Hq) HK) as [HI2 [S1 S2 S3]].
  cbn in S1, S2. split; [done|]. split; [apply (kr_all _ _ _ HK)|]. split.
  { apply S3; [by apply not_eq_sym|done|done]. }
  split; [done|]. unfold waits. rewrite S1. unfold next_queue in Hq. destruct (run_queue k) as [|q0 l0] eqn:Eq.
  - assert (Hp : p ∈ q :: l) by (rewrite <- Hq; rewrite elem_of_reverse, list_elem_of_filter; done).
    apply elem_of_cons in Hp as [->|Hp]; [done|]. apply list_elem_of_lookup in Hp as [i Hi].
    exists i. split; [by left|]. destruct Hw as [Hw|[_ <-]]; [by rewrite Eq in Hw|].
    apply lookup_lt_Some in Hi. assert (length (q :: l) <= N)%nat; [|rewrite Eq; simpl in *; lia].
    rewrite <- Hq, length_reverse. etransitivity; [apply length_filter|done].
  - injection Hq as -> ->. destruct Hw as [Hw|[Hw <-]].
    + rewrite Eq in Hw. destruct n as [|n]; [by injection Hw as ->|]. exists n. split; [by left|lia].
    + rewrite Eq in *. apply not_elem_of_cons in Hw as [_ Hw]. exists (length l + N)%nat. split; [by right|]. simpl. lia.
Qed.

Lemma switch_progress N p : forall fuel k d k' n, sched_inv k -> (length (all_processes k) <= N)%nat ->
  p ∈ all_processes k -> ready k p -> waits N k p n -> process_switch fuel k = Ok (d, k') ->
  has_turn fuel k p \/
  (sched_inv k' /\ p ∈ all_processes k' /\ ready k' p /\ p <> current_process k' /\
   exists n', waits N k' p n' /\ (n' < n)%nat).
Proof.
  induction fuel as [|fuel IH]; intros k d k' n HI HN Ha Hr Hw; [done|]. rewrite process_switch_unfold.
  pose proof (switch_head_ok k HI) as Eh. destruct (next_queue k) as [|q l] eqn:Hq.
  { (* an empty queue holds every ready process *)
    exfalso. unfold next_queue in Hq. destruct (run_queue k); [|done].
    apply (f_equal reverse) in Hq. rewrite reverse_involutive in Hq.
    assert (Hp : p ∈ filter (ready k) (all_processes k)) by (by apply list_elem_of_filter).
    rewrite Hq in Hp. by apply not_elem_of_nil in Hp. }
  mrun Eh. change (truthy 1) with true. cbn iota.
  destruct (decide (q = p)) as [->|Hne]; [left; by eapply turn_now|].
  intros E. destruct (dispatch_uniform q (sched_rel q) ltac:(by left) (set_current_process q (set_run_queue l k)) eq_refl)
    as [(d' & k1 & Ed & HK)|[(k2 & Ed & HK)|(e & Ed)]].
  - rewrite Ed in E. injection E as <- <-. right.
    destruct (taken_waits _ _ _ _ _ _ _ HI HN Ha Hr Hw Hq Hne HK) as (H1 & H2 & H3 & H4 & H5).
    rewrite H2, H4. split_and!; auto.
  - rewrite Ed in E. destruct (taken_waits _ _ _ _ _ _ _ HI HN Ha Hr Hw Hq Hne HK) as (H1 & H2 & H3 & H4 & n' & H5 & H6).
    destruct (IH k2 d k' n' H1) as [Ht|(J1 & J2 & J3 & J4 & n2 & J5 & J6)];
      [by rewrite H2|by rewrite H2|done|done|done|left; by eapply turn_later|right].
    split_and!; auto. exists n2. split; [done|lia].
  - by rewrite Ed in E.
Qed.

Lemma queue_bound k : sched_inv k -> (length (run_queue k) <= length (all_processes k))%nat.
Proof.
  intros [H1 H2 H3 H4 H5 H6]. apply submseteq_length, NoDup_submseteq; [done|]. intros q Hq. by apply H5.
Qed.

Lemma waits_bound N k p : sched_inv k -> (length (all_processes k) <= N)%nat ->
  exists n, waits N k p n /\ (n <= 2 * N)%nat.
Proof.
  intros HI HN. pose proof (queue_bound k HI). destruct (decide (p ∈ run_queue k)) as [Hp|Hp].
  - apply list_elem_of_lookup in Hp as [i Hi]. exists i. split; [by left|]. apply lookup_lt_Some in Hi. lia.
  - exists (length (run_queue k) + N)%nat. split; [by right|lia].
Qed.
End Sched.

(** ** An example: two processes take turns *)
Definition sample_task (id : Z) : process := set_p_id id (set_p_parent 0x2000 zero_process).
Definition sample_tasks : kernel (spaces bump) :=
  Kernel (Spaces (Bump 0x10000 1) ∅ 1) (KernelCaches 1 2 3 4 5) ∅ ∅ ∅
    {[0x2000 := sample_task 1; 0x3000 := sample_task 2]} [0x3000; 0x2000] [] [] 0x2000 3 [] [] [].
Lemma sample_tasks_sched : sched_inv sample_tasks.
Proof.
  split; cbn.
  - apply NoDup_cons. split; [by rewrite list_elem_of_singleton|apply NoDup_singleton].
  - rewrite !not_elem_of_cons. split_and!; [done|done|apply not_elem_of_nil].
  - intros p Hp. rewrite !elem_of_cons in Hp. destruct Hp as [Hp|[Hp|Hp]];
      [subst; exists (sample_task 2); reflexivity|subst; exists (sample_task 1); reflexivity|by apply not_elem_of_nil in Hp].
  - constructor.
  - intros p Hp. by apply not_elem_of_nil in Hp.
  - apply not_elem_of_nil.
Qed.
