(* ===== verification/ProcessSignals.v ===== *)
(** * Signals of processes: proofs

    A handler is entered with the interrupted context and the signal mask on
    the user stack, and [process_sigreturn] takes them back; the signals that
    cannot be caught cannot be masked either. *)

From stdpp Require Import base numbers list list_numbers gmap.
From S2P Require Import Prelude Bytes Hoare Arith Signal Buddy BuddyProofs KernelMem UserSpace Unix Kernel Pipe PipeProofs Files Process ProcessFrame ProcessSched.

#[local] Open Scope Z_scope.
#[local] Open Scope kernel_scope.

(** ** The objects as bytes *)
Record context_wf (c : process_context) : Prop := {
  cw_regs : length (c_r c) = 13%nat;
  cw_words : Forall is_u32 (context_words c);
}.

Lemma context_words_length c : length (c_r c) = 13%nat -> length (context_words c) = 17%nat.
Proof. intros H. unfold context_words. cbn [length]. rewrite length_app, H. done. Qed.

Lemma le32s_length ws : length (concat (map le32 ws)) = (4 * length ws)%nat.
Proof.
  induction ws as [|w ws IH]; [done|]. cbn [map concat length]. rewrite length_app, IH.
  unfold le32. rewrite le_length by lia. lia.
Qed.

Lemma context_bytes_length c : context_wf c -> length (context_bytes c) = 68%nat.
Proof. intros H. unfold context_bytes. by rewrite le32s_length, context_words_length by apply H. Qed.

Lemma context_roundtrip c : context_wf c -> context_of_bytes (context_bytes c) = c.
Proof.
  intros [Hl Hw]. pose proof (words_decode (context_words c) [] Hw 0) as Hd.
  rewrite app_nil_r, context_words_length in Hd by done.
  destruct c as [cpsr r sp lr pc]. cbn [c_r] in Hl.
  do 14 (destruct r as [|? r]; try discriminate). clear Hw.
  unfold context_words in Hd. cbn [c_cpsr c_r c_sp c_lr c_pc app seq map] in Hd.
  unfold context_of_bytes, context_bytes, context_words.
  cbn [c_cpsr c_r c_sp c_lr c_pc app seq map] in *.
  set (l := concat _) in *. repeat rewrite Z.sub_0_r in Hd.
  injection Hd. intros. change (Z.of_nat 0) with 0 in *. change (Z.of_nat 14) with 14 in *.
  change (Z.of_nat 15) with 15 in *. change (Z.of_nat 16) with 16 in *. congruence.
Qed.

Lemma sigset_roundtrip m : sigset_wf m -> sigset_of_bytes (sigset_bytes m) = m.
Proof.
  intros [H0 H1]. destruct m as [a b]. cbn [fields0 fields1] in *.
  assert (Hw : Forall is_u32 [a; b]) by (constructor; [done|constructor; [done|constructor]]).
  pose proof (words_decode [a; b] [] Hw 0) as Hd. cbn [map concat length seq] in Hd.
  rewrite !app_nil_r, !Z.sub_0_r in Hd. unfold sigset_of_bytes, sigset_bytes. cbn [fields0 fields1].
  injection Hd as Ha Hb. change (Z.of_nat 0) with 0 in *. change (Z.of_nat 1) with 1 in *. by f_equal.
Qed.

Lemma le_u8 n v : 0 <= n -> Forall is_u8 (Z_to_little_endian n 8 v).
Proof. intros Hn. apply (Z_to_little_endian_bound n 8 v); lia. Qed.

Lemma context_bytes_u8 c : Forall is_u8 (context_bytes c).
Proof.
  unfold context_bytes. induction (context_words c) as [|w ws IH]; [constructor|].
  cbn [map concat]. apply Forall_app. split; [by apply le_u8|done].
Qed.

Lemma sigset_bytes_u8 m : Forall is_u8 (sigset_bytes m).
Proof. apply Forall_app. split; by apply le_u8. Qed.

(** ** Alignment *)
Lemma land_not7 x : is_u32 x -> Z.land x (not32 (Z.shiftl 1 3 - 1)) = x - x mod 8.
Proof.
  intros Hx. change (Z.shiftl 1 3 - 1) with (Z.ones 3).
  assert (E : Z.land x (not32 (Z.ones 3)) = Z.ldiff x (Z.ones 3)).
  { apply Z.bits_inj'. intros i Hi. rewrite Z.land_spec, Z.ldiff_spec, testbit_not32 by done.
    destruct (Z.ltb_spec i 32); [done|]. by rewrite (u32_testbit_high x i Hx). }
  rewrite E, Z.ldiff_ones_r by lia. rewrite Z.shiftl_mul_pow2, Z.shiftr_div_pow2 by lia.
  change (2 ^ 3) with 8. pose proof (Z.div_mod x 8 ltac:(lia)). lia.
Qed.

Lemma align8_small x : 0 <= x -> x + 8 <= 2 ^ 32 -> x mod 8 = 0 -> ALIGN x 3 = x.
Proof.
  intros H0 H1 H8. unfold ALIGN. change (Z.shiftl 1 3 - 1) with 7.
  rewrite (u32_small (x + 7)) by (unfold is_u32; lia).
  change (not32 7) with (not32 (Z.shiftl 1 3 - 1)). rewrite land_not7 by (unfold is_u32; lia).
  pose proof (Z.div_mod x 8 ltac:(lia)) as E. rewrite H8 in E.
  assert ((x + 7) mod 8 = 7); [|lia]. rewrite E. replace (8 * (x / 8) + 0 + 7) with (7 + (x / 8) * 8) by lia.
  by rewrite Z_mod_plus_full.
Qed.

(** ** The user stack *)
Section Stack.
Context {S : Type} `{KM : KernelMem S} {US : UserSpace S}.
Notation state := (kernel S).
Implicit Types (k : state) (s : S) (c : process) (ksa : k_sigaction).

(** Where [n] bytes pushed on [sp] are put. *)
Definition pushed (sp n : Z) : Z := (sp - n) - (sp - n) mod 8.

Lemma pushed_bounds sp n : pushed sp n <= sp - n < pushed sp n + 8.
Proof. unfold pushed. pose proof (Z.mod_pos_bound (sp - n) 8 ltac:(lia)). lia. Qed.

Lemma pushed_aligned sp n : pushed sp n mod 8 = 0.
Proof.
  unfold pushed. pose proof (Z.div_mod (sp - n) 8 ltac:(lia)) as E.
  replace (sp - n - (sp - n) mod 8) with (((sp - n) / 8) * 8) by lia. apply Z_mod_mult.
Qed.

Lemma pushed_nonneg sp n : n <= sp -> 0 <= pushed sp n.
Proof.
  intros H. pose proof (pushed_bounds sp n). pose proof (pushed_aligned sp n) as Ha.
  pose proof (Z.div_mod (pushed sp n) 8 ltac:(lia)) as E. rewrite Ha in E. lia.
Qed.

Lemma push_ok k C L U sp data : km_inv (k_mem k) C L U -> is_u32 sp -> Z.of_nat (length data) <= sp -> Forall is_u8 data ->
  mapped_at (k_mem k) (pushed sp (Z.of_nat (length data))) (Z.of_nat (length data)) ->
  exists s', push_to_stack sp data k = Ok (pushed sp (Z.of_nat (length data)), set_k_mem s' k) /\
    writes_only (k_mem k) s' (pushed sp (Z.of_nat (length data))) (Z.of_nat (length data)) /\
    bytes_at s' (pushed sp (Z.of_nat (length data))) data.
Proof.
  intros HI Hsp Hl Hu Hm. set (n := Z.of_nat (length data)) in *. unfold is_u32 in Hsp.
  pose proof (pushed_bounds sp n). pose proof (pushed_nonneg sp n Hl).
  destruct (us_write_ok C L U data (k_mem k) (pushed sp n) HI) as (s' & E & W & Hh); [lia|lia|done|done|].
  exists s'. split; [|done]. unfold push_to_stack. fold n. cbv zeta.
  rewrite (u32_small (sp - n)), land_not7 by (unfold is_u32; lia).
  change (sp - n - (sp - n) mod 8) with (pushed sp n). mrun (kmem_ok _ _ _ _ E). done.
Qed.

Lemma pop_ok k C L U sp data : km_inv (k_mem k) C L U -> 0 <= sp -> sp + Z.of_nat (length data) <= 2 ^ 32 -> bytes_at (k_mem k) sp data ->
  pop_from_stack sp (Z.of_nat (length data)) k =
    Ok ((data, ALIGN (u32 (sp + Z.of_nat (length data))) 3), k).
Proof.
  intros HI H0 H1 Hh. unfold pop_from_stack. rewrite Nat2Z.id.
  mrun (kmem_ok _ _ _ _ (us_read_ok _ _ _ _ _ HI _ H0 H1 Hh)). by destruct k.
Qed.

(** ** Entering a handler *)

(** The frame of a handler entered at the stack pointer [sp]: the context, and
    the mask below it. *)
Definition frame_context (sp : Z) : Z := pushed sp CONTEXT_SIZE.
Definition frame_mask (sp : Z) : Z := frame_context sp - SIGSET_SIZE.

Lemma frame_mask_pushed sp : pushed (frame_context sp) SIGSET_SIZE = frame_mask sp.
Proof.
  unfold frame_mask. pose proof (pushed_aligned sp CONTEXT_SIZE) as Ha. fold (frame_context sp) in Ha.
  unfold pushed at 1. unfold SIGSET_SIZE.
  assert ((frame_context sp - 8) mod 8 = 0); [|lia].
  replace (frame_context sp - 8) with (frame_context sp + (-1) * 8) by lia. by rewrite Z_mod_plus_full.
Qed.

Definition handler_context (sig sp : Z) ksa : process_context :=
  Context 0x10 (<[0%nat := sig]> (replicate 13 0)) sp (ksa_restorer ksa) (ksa_handler ksa).
Definition in_handler (sig : Z) ksa c : process :=
  set_p_mask (snd (sigaddset (snd (sigorset (p_mask c) (ksa_mask ksa))) sig))
    (set_p_context (handler_context sig (frame_mask (c_sp (p_context c))) ksa) c).

(** The process [c] can take a frame on its stack. *)
Record stack_room s c : Prop := {
  sr_context : context_wf (p_context c);
  sr_mask : sigset_wf (p_mask c);
  sr_low : 96 <= c_sp (p_context c);
  sr_mapped : mapped_at s (c_sp (p_context c) - 96) 96;
}.

Lemma sr_sp s c : stack_room s c -> 96 <= c_sp (p_context c) < 2 ^ 32.
Proof.
  intros [[_ Hw] _ Hl _]. unfold context_words in Hw. apply Forall_cons in Hw as [_ Hw].
  apply Forall_app in Hw as [_ Hw]. apply Forall_cons in Hw as [Hw _]. unfold is_u32 in Hw. lia.
Qed.

Lemma frame_bounds sp : frame_context sp + 68 <= sp < frame_context sp + 76.
Proof. pose proof (pushed_bounds sp CONTEXT_SIZE). unfold frame_context, CONTEXT_SIZE in *. lia. Qed.

(** What is on the stack in a handler. *)
Definition frame_of s c : Prop :=
  bytes_at s (frame_context (c_sp (p_context c))) (context_bytes (p_context c)) /\
  bytes_at s (frame_mask (c_sp (p_context c))) (sigset_bytes (p_mask c)).

Lemma mapped_sub s a n b m : mapped_at s a n -> a <= b -> b + m <= a + n -> mapped_at s b m.
Proof. intros H H1 H2 x Hx. apply H. lia. Qed.

Lemma procs_twice k cur x y (m : gmap Z process) :
  set_k_procs (<[cur := y]> (k_procs (set_k_procs (<[cur := x]> m) k))) (set_k_procs (<[cur := x]> m) k) =
  set_k_procs (<[cur := y]> m) k.
Proof. unfold set_k_procs. cbn. by rewrite insert_insert_eq. Qed.

Lemma enter_handler_ok k C L U cur c sig ksa :
  km_inv (k_mem k) C L U -> k_procs k !! cur = Some c -> stack_room (k_mem k) c ->
  exists s', enter_handler cur sig ksa k =
      Ok (tt, set_k_procs (<[cur := in_handler sig ksa c]> (k_procs k)) (set_k_mem s' k)) /\
    frame_of s' c /\ writes_only (k_mem k) s' (frame_mask (c_sp (p_context c))) 76.
Proof.
  intros HI Hc HR. pose proof (sr_sp _ _ HR) as Hsp. destruct HR as [Hw Hm Hl Hr].
  set (sp := c_sp (p_context c)) in *.
  pose proof (frame_bounds sp) as Hf. assert (Hfm : frame_mask sp = frame_context sp - 8) by done.
  pose proof (context_bytes_length _ Hw) as Hn. unfold enter_handler. mrun (get_proc_ok _ _ _ Hc).
  destruct (push_ok k C L U sp (context_bytes (p_context c)) HI) as (s1 & E1 & W1 & H1);
    [unfold is_u32; lia|rewrite Hn; lia|apply context_bytes_u8| |].
  { rewrite Hn. change (pushed sp (Z.of_nat 68)) with (frame_context sp). eapply mapped_sub; [done|lia|lia]. }
  rewrite Hn in *. change (pushed sp (Z.of_nat 68)) with (frame_context sp) in *. mrun E1.
  destruct (push_ok (set_k_mem s1 k) C L U (frame_context sp) (sigset_bytes (p_mask c)) (wo_inv _ _ _ _ W1 _ _ _ HI)) as (s2 & E2 & W2 & H2);
    [unfold is_u32; lia|change (Z.of_nat (length (sigset_bytes (p_mask c)))) with 8; lia|apply sigset_bytes_u8| |].
  { change (Z.of_nat (length (sigset_bytes (p_mask c)))) with SIGSET_SIZE. rewrite frame_mask_pushed.
    change (k_mem (set_k_mem s1 k)) with s1. unfold SIGSET_SIZE.
    eapply writes_only_mapped; [done|]. eapply mapped_sub; [done|lia|lia]. }
  change (Z.of_nat (length (sigset_bytes (p_mask c)))) with SIGSET_SIZE in *. rewrite frame_mask_pushed in *.
  mrun E2. change (k_mem (set_k_mem s1 k)) with s1 in W2.
  exists s2. split; [|split].
  - change (set_k_mem s2 (set_k_mem s1 k)) with (set_k_mem s2 k).
    erewrite (bind_ok (upd_proc cur _)) by (apply upd_proc_ok; exact Hc).
    erewrite (bind_ok (upd_proc cur _)) by (apply upd_proc_ok; apply lookup_insert_eq).
    rewrite procs_twice.
    erewrite upd_proc_ok by apply lookup_insert_eq. rewrite procs_twice. reflexivity.
  - unfold frame_of. fold sp. split; [|done]. eapply writes_only_bytes; [exact W2| |done]. rewrite Hn. unfold SIGSET_SIZE. lia.
  - destruct W1 as [A1 A2 A3 A4 A5], W2 as [B1 B2 B3 B4 B5]. unfold SIGSET_SIZE in *. rewrite A1 in *.
    split; [congruence| | | |auto].
    + intros q x Hx. rewrite B2, A2; [done| |]; (destruct Hx as [?|Hx]; [by left|right; lia]).
    + intros x Hx. by apply B3, A3.
    + intros q. by rewrite B4, A4.
Qed.

(** ** Leaving it *)
Lemma sigreturn_ok k C L U c c2 context :
  km_inv (k_mem k) C L U -> context_wf (p_context c) -> sigset_wf (p_mask c) -> 96 <= c_sp (p_context c) < 2 ^ 32 ->
  k_procs k !! current_process k = Some c2 -> frame_of (k_mem k) c ->
  c_sp context = frame_mask (c_sp (p_context c)) ->
  process_sigreturn context k = Ok (tt, set_k_procs
    (<[current_process k := set_p_context (p_context c) (set_p_mask (p_mask c) c2)]> (k_procs k)) k).
Proof.
  intros HI Hw Hm Hsp Hc2 [H1 H2] Hctx. set (sp := c_sp (p_context c)) in *.
  pose proof (frame_bounds sp) as Hf. assert (Hfm : frame_mask sp = frame_context sp - 8) by done.
  pose proof (context_bytes_length _ Hw) as Hn.
  unfold process_sigreturn. erewrite (bind_ok (gets _)) by reflexivity. rewrite Hctx.
  assert (E1 : pop_from_stack (frame_mask sp) SIGSET_SIZE k =
    Ok ((sigset_bytes (p_mask c), frame_context sp), k)).
  { change SIGSET_SIZE with (Z.of_nat (length (sigset_bytes (p_mask c)))).
    rewrite (pop_ok k _ _ _ _ _ HI) by (done || change (Z.of_nat (length (sigset_bytes (p_mask c)))) with 8; lia).
    change (Z.of_nat (length (sigset_bytes (p_mask c)))) with 8.
    replace (frame_mask sp + 8) with (frame_context sp) by lia. rewrite u32_small by (unfold is_u32; lia).
    by rewrite align8_small by (lia || apply pushed_aligned). }
  mrun E1. rewrite (sigset_roundtrip _ Hm).
  erewrite (bind_ok (upd_proc _ _)) by (apply upd_proc_ok; exact Hc2).
  set (k1 := set_k_procs _ k).
  assert (E2 : pop_from_stack (frame_context sp) CONTEXT_SIZE k1 =
    Ok ((context_bytes (p_context c), ALIGN (u32 (frame_context sp + 68)) 3), k1)).
  { pose proof (pop_ok k1 C L U (frame_context sp) (context_bytes (p_context c)) HI) as E. rewrite Hn in E.
    apply E; [lia|lia|done]. }
  mrun E2. rewrite (context_roundtrip _ Hw). unfold k1.
  erewrite upd_proc_ok by apply lookup_insert_eq. by rewrite procs_twice.
Qed.

(** ** Dispatching *)

(** The signal [process_dispatch] looks at: the least that is pending and not
    masked, or 0. *)
Definition next_signal c : Z :=
  sigpeekset (snd (sigandset (p_pending c) (snd (signotset (p_mask c))))).

Lemma next_signal_spec c :
  (next_signal c = 0 /\ forall i, valid_sig i -> sig_in i (p_pending c) && negb (sig_in i (p_mask c)) = false) \/
  (valid_sig (next_signal c) /\
   sig_in (next_signal c) (p_pending c) = true /\ sig_in (next_signal c) (p_mask c) = false /\
   forall i, valid_sig i -> sig_in i (p_pending c) = true -> sig_in i (p_mask c) = false -> next_signal c <= i).
Proof.
  unfold next_signal. set (s := snd (sigandset _ _)).
  assert (Hs : forall i, valid_sig i -> sig_in i s = sig_in i (p_pending c) && negb (sig_in i (p_mask c))).
  { intros i Hi. unfold s. rewrite !sig_in_bit by done. by rewrite sig_bit_and, sig_bit_not. }
  destruct (sigpeekset_spec s) as [[-> H]|(Hv & Hin & Hl)]; [left|right].
  - split; [done|]. intros i Hi. rewrite <- Hs by done. by apply H.
  - rewrite Hs in Hin by done. apply andb_true_iff in Hin as [Hp Hm%negb_true_iff].
    split_and!; [done..|]. intros i Hi Hp' Hm'. apply Hl; [done|]. rewrite Hs by done. by rewrite Hp', Hm'.
Qed.

Definition signal_done (sig : Z) c : process := set_p_pending (snd (sigdelset (p_pending c) sig)) c.

Lemma runs_kmem {A} (m : M S A) k (Q : A -> state -> Prop) :
  runs m (k_mem k) (fun a s => Q a (set_k_mem s k)) -> runs (kmem m) k Q.
Proof. apply (runs_within k_mem set_k_mem). Qed.

Lemma set_ttb_runs k C L U pid :
  km_inv (k_mem k) C L U ->
  runs (mmu_set_ttb pid) k (fun _ k' => exists s, k' = set_k_mem s k /\ km_inv s C L U /\ us_current s = pid /\
    (forall q x, us_byte s q x = us_byte (k_mem k) q x) /\
    (forall q, us_known s q <-> q = pid \/ us_known (k_mem k) q)).
Proof.
  intros HI. apply runs_kmem, runs_inv.
  destruct (us_set_ttb_spec _ _ _ _ pid HI) as [E|(s & E & Hc & Hb & Hk & HI')]; [by left|right].
  exists (us_current (k_mem k)), s. split; [done|]. exists s. by split_and!.
Qed.

(** A handler is entered from [process_dispatch]. *)
Lemma dispatch_handler k C L U switch c sig ksa :
  km_inv (k_mem k) C L U -> k_procs k !! current_process k = Some c -> p_suspend c = 0 ->
  next_signal c = sig -> sig <> 0 -> p_actions c !! Z.to_nat sig = Some ksa ->
  ksa_handler ksa <> SIG_DFL -> ksa_handler ksa <> SIG_IGN ->
  context_wf (p_context c) -> sigset_wf (p_mask c) -> 96 <= c_sp (p_context c) ->
  (forall x, c_sp (p_context c) - 96 <= x < c_sp (p_context c) -> is_Some (us_byte (k_mem k) (p_id c) x)) ->
  runs (process_dispatch switch) k (fun out k1 =>
    out = Dispatched (handler_context sig (frame_mask (c_sp (p_context c))) ksa) /\
    exists s, k1 = set_k_procs (<[current_process k := signal_done sig (in_handler sig ksa c)]> (k_procs k))
                     (set_k_mem s k) /\
      us_current s = p_id c /\ km_inv s C L U /\ frame_of s c /\
      forall q x, q <> p_id c \/ x < frame_mask (c_sp (p_context c)) \/ c_sp (p_context c) <= x ->
        us_byte s q x = us_byte (k_mem k) q x).
Proof.
  intros HI Hc Hs Hn Hn0 Ha Hd Hg Hw Hm Hl Hst. unfold process_dispatch. rgets.
  apply runs_bind. eapply runs_ok; [by apply get_proc_ok|].
  rstep (set_ttb_runs _ _ _ _ (p_id c) HI) as ? ? (s & -> & HI' & Hcur & Hby & _).
  rewrite Hs. cbn [truthy]. change (truthy 0) with false. cbn iota. cbv zeta.
  change (sigpeekset _) with (next_signal c). rewrite Hn.
  rewrite (proj2 (truthy_true sig)) by done.
  apply runs_bind. eapply runs_opt; [done|].
  rewrite (proj2 (Z.eqb_neq (ksa_handler ksa) SIG_DFL)) by done.
  rewrite (proj2 (Z.eqb_neq (ksa_handler ksa) SIG_IGN)) by done. cbn [negb].
  assert (HR : stack_room (k_mem (set_k_mem s k)) c).
  { split; [done|done|done|]. intros x Hx. cbn [k_mem set_k_mem]. rewrite Hcur, Hby. apply Hst. lia. }
  pose proof (frame_bounds (c_sp (p_context c))) as Hf. assert (Hfm : frame_mask (c_sp (p_context c)) = frame_context (c_sp (p_context c)) - 8) by done.
  destruct (enter_handler_ok (set_k_mem s k) C L U (current_process k) c sig ksa HI' Hc HR) as (s' & E & HF & W).
  apply runs_bind. eapply runs_ok; [exact E|].
  apply runs_bind. eapply runs_ok; [apply upd_proc_ok, lookup_insert_eq|].
  rewrite procs_twice. apply runs_bind. eapply runs_ok; [apply get_proc_ok, lookup_insert_eq|].
  apply runs_ret. split; [done|]. exists s'. destruct W as [W1 W2 W3 W4 W5].
  cbn [k_mem set_k_mem] in *. rewrite Hcur in *.
  split_and!; [done|done|auto|done|]. intros q x Hx. rewrite <- Hby. apply W2.
  destruct Hx as [?|[?|?]]; [by left|right; lia|right; lia].
Qed.

Lemma frame_agree s s' c : us_current s' = us_current s -> context_wf (p_context c) ->
  (forall x, frame_mask (c_sp (p_context c)) <= x < c_sp (p_context c) ->
     us_byte s' (us_current s) x = us_byte s (us_current s) x) ->
  frame_of s c -> frame_of s' c.
Proof.
  intros Hcur Hw Hb [H1 H2]. pose proof (frame_bounds (c_sp (p_context c))) as Hf.
  assert (Hfm : frame_mask (c_sp (p_context c)) = frame_context (c_sp (p_context c)) - 8) by done.
  split; intros i b Hi; pose proof (lookup_lt_Some _ _ _ Hi) as Hlt; rewrite Hcur, Hb; [by apply H1| |by apply H2|].
  - rewrite (context_bytes_length _ Hw) in Hlt. lia.
  - change (length (sigset_bytes (p_mask c))) with 8%nat in Hlt. lia.
Qed.
End Stack.

(** ** The signals that cannot be caught *)

Definition kill_open (m : sigset) : Prop := sig_in SIGKILL m = false /\ sig_in SIGSTOP m = false.

(** [SIGKILL] and [SIGSTOP] are not masked, will not be masked by a handler,
    and have the default action. *)
Record uncatchable (x : process) : Prop := {
  uc_mask : kill_open (p_mask x);
  uc_actions : forall i a, p_actions x !! i = Some a -> kill_open (ksa_mask a);
  uc_default : forall sig a, sig = SIGKILL \/ sig = SIGSTOP -> p_actions x !! Z.to_nat sig = Some a ->
    ksa_handler a = SIG_DFL;
}.

Lemma valid_kill : valid_sig SIGKILL.
Proof. unfold valid_sig, SIGKILL, NSIG. lia. Qed.
Lemma valid_stop : valid_sig SIGSTOP.
Proof. unfold valid_sig, SIGSTOP, NSIG. lia. Qed.
#[local] Hint Resolve valid_kill valid_stop : kernel.

Lemma kill_open_bits m : kill_open m <-> sig_bit SIGKILL m = false /\ sig_bit SIGSTOP m = false.
Proof. unfold kill_open. by rewrite !sig_in_bit by auto with kernel. Qed.

Lemma kill_open_del m : kill_open (snd (sigdelset (snd (sigdelset m SIGKILL)) SIGSTOP)).
Proof. apply kill_open_bits. rewrite !sig_bit_del by auto with kernel. by split. Qed.

Lemma kill_open_or a b : kill_open a -> kill_open b -> kill_open (snd (sigorset a b)).
Proof. rewrite !kill_open_bits, !sig_bit_or. intros [-> ->] [-> ->]. done. Qed.

Lemma kill_open_and a b : kill_open a -> kill_open (snd (sigandset a b)).
Proof. rewrite !kill_open_bits, !sig_bit_and. intros [-> ->]. done. Qed.

Lemma kill_open_add m sig : kill_open m -> valid_sig sig -> sig <> SIGKILL -> sig <> SIGSTOP ->
  kill_open (snd (sigaddset m sig)).
Proof.
  rewrite !kill_open_bits. intros [H1 H2] Hv Hk Hs. rewrite !sig_bit_add by auto with kernel. rewrite H1, H2.
  rewrite (proj2 (Z.eqb_neq SIGKILL sig)), (proj2 (Z.eqb_neq SIGSTOP sig)) by congruence. done.
Qed.

Lemma uncatchable_mask m x : kill_open m -> uncatchable x -> uncatchable (set_p_mask m x).
Proof. intros Hm [H1 H2 H3]. by split. Qed.

Lemma uncatchable_same x y : p_mask y = p_mask x -> p_actions y = p_actions x -> uncatchable x -> uncatchable y.
Proof. intros E1 E2 [H1 H2 H3]. split; rewrite ?E1, ?E2; done. Qed.

(** The relation for [ProcessFrame]. *)
Definition keeps_signals (p : Z) (x y : process) : Prop := uncatchable x -> uncatchable y.
#[export] Instance keeps_signals_family c : FamilyRel c keeps_signals.
Proof.
  split; [split|..]; unfold keeps_signals; try tauto; intros;
    match goal with H : uncatchable ?x |- _ => by apply (uncatchable_same x) end.
Qed.

Section Uncatchable.
Context {S : Type} `{KM : KernelMem S} {US : UserSpace S}.
Notation state := (kernel S).
Implicit Types (k : state).

Definition all_uncatchable k : Prop := forall p x, k_procs k !! p = Some x -> uncatchable x.

Lemma krel_uncatchable k k' : all_uncatchable k -> krel keeps_signals k k' -> all_uncatchable k'.
Proof.
  intros HU HK p y Hy. pose proof (kr_procs _ _ _ HK p) as H. rewrite Hy in H.
  inversion H as [x ? Hxy E1 E2|]; subst. apply Hxy. by eapply HU.
Qed.

Lemma frame_uncatchable {A} (m : M state A) k r k' :
  frame (current_process k) keeps_signals m -> all_uncatchable k -> m k = Ok (r, k') -> all_uncatchable k'.
Proof. intros F HU E. eapply krel_uncatchable; [done|]. by eapply F. Qed.

Lemma put_uncatchable k p x : all_uncatchable k -> uncatchable x ->
  all_uncatchable (set_k_procs (<[p := x]> (k_procs k)) k).
Proof.
  intros HU Hx q y. cbn. destruct (decide (p = q)) as [<-|].
  - rewrite lookup_insert_eq. by intros [= <-].
  - rewrite lookup_insert_ne by done. apply HU.
Qed.

Lemma alloc_uncatchable k p k' : all_uncatchable k -> process_alloc k = Ok (p, k') -> all_uncatchable k'.
Proof.
  intros HU E q x Hx. destruct (process_alloc_inv _ _ _ E) as (_ & _ & _ & _ & (sp & Hp) & _ & Ho).
  destruct (decide (q = p)) as [->|Hq]; [|rewrite Ho in Hx by done; by eapply HU].
  rewrite Hp in Hx. injection Hx as <-. split; cbn.
  - done.
  - intros i a [-> _]%lookup_replicate. done.
  - intros sig a _ [-> _]%lookup_replicate. done.
Qed.

(** Dispatching keeps it: a handler is never entered for these signals. *)
Lemma enter_handler_frame c sig ksa : kill_open (ksa_mask ksa) -> valid_sig sig -> sig <> SIGKILL -> sig <> SIGSTOP ->
  frame c keeps_signals (enter_handler c sig ksa).
Proof.
  intros Ho Hv Hk Hs. unfold enter_handler, push_to_stack. fr.
  - intros Hx. apply uncatchable_mask; [|done]. by apply kill_open_or; [apply Hx|].
  - intros Hx. apply uncatchable_mask; [|done]. by apply kill_open_add; [apply Hx|..].
Qed.

Lemma next_signal_valid x : next_signal x <> 0 -> valid_sig (next_signal x).
Proof. intros H. by destruct (next_signal_spec x) as [[? _]|[? _]]. Qed.

Lemma dispatch_uncatchable (sw : M state departure) k d k' :
  (forall j r j', all_uncatchable j -> sw j = Ok (r, j') -> all_uncatchable j') ->
  all_uncatchable k -> process_dispatch sw k = Ok (d, k') -> all_uncatchable k'.
Proof.
  intros Hsw HU. unfold process_dispatch. erewrite (bind_ok (gets _)) by reflexivity.
  intros (x & k1 & [-> Hx]%get_proc_inv & E)%bind_inv. apply bind_inv in E as (old & k1 & Et & E).
  assert (F1 : krel keeps_signals k k1)
    by (eapply (frame_set_ttb (current_process k)); [typeclasses eauto|reflexivity|exact Et]).
  pose proof (krel_uncatchable _ _ HU F1) as HU1. pose proof (kr_current _ _ _ F1) as Hc1. cbv zeta in E.
  assert (HF : forall m : M state departure, frame (current_process k) keeps_signals m -> m k1 = Ok (d, k') ->
    all_uncatchable k') by (intros m F Em; rewrite <- Hc1 in F; by eapply frame_uncatchable).
  destruct (truthy (p_suspend x)); [refine (HF _ _ E); fr|].
  change (sigpeekset _) with (next_signal x) in E.
  destruct (truthy (next_signal x)) eqn:Hn; [|refine (HF _ _ E); fr]. apply truthy_true in Hn.
  apply bind_inv in E as (ksa & k2 & Ea & E). apply opt_state in Ea as Ek. subst k2.
  assert (Ha : p_actions x !! Z.to_nat (next_signal x) = Some ksa).
  { destruct (p_actions x !! Z.to_nat (next_signal x)); [|done]. by injection Ea as ->. }
  destruct (ksa_handler ksa =? SIG_DFL) eqn:Hd.
  - destruct (ignored_by_default (next_signal x)); [refine (HF _ _ E); fr|].
    apply bind_inv in E as ([] & k2 & Ex & E). eapply Hsw; [|exact E].
    eapply (frame_uncatchable (process_exit _)); [apply frame_process_exit; typeclasses eauto|exact HU1|exact Ex].
  - apply Z.eqb_neq in Hd. destruct (HU _ _ Hx) as [U1 U2 U3]. destruct (negb _); [|refine (HF _ _ E); fr].
    refine (HF _ _ E). apply frame_bind; [typeclasses eauto| |intros []; fr].
    apply enter_handler_frame; [by eapply U2|by apply next_signal_valid| |]; intros Hs; apply Hd, (U3 (next_signal x)); auto.
Qed.

Lemma schedule_loop_procs l : forall k k', schedule_loop l k = Ok (tt, k') -> k_procs k' = k_procs k.
Proof.
  induction l as [|p l IH]; intros k k'; cbn [schedule_loop]; [by intros [= <-]|].
  intros (x & k1 & [-> _]%get_proc_inv & E)%bind_inv. apply bind_inv in E as ([] & k2 & E1 & E).
  apply IH in E as ->. destruct (decide _); by injection E1 as <-.
Qed.

Lemma switch_head_procs k r k' : switch_head k = Ok (r, k') -> k_procs k' = k_procs k.
Proof.
  unfold switch_head. erewrite (bind_ok (gets _)) by reflexivity. intros ([] & k1 & E1 & E)%bind_inv.
  assert (H1 : k_procs k1 = k_procs k).
  { destruct (run_queue k); [|by injection E1 as <-]. unfold process_schedule in E1.
    erewrite (bind_ok (gets _)) in E1 by reflexivity. by eapply schedule_loop_procs. }
  rewrite <- H1. unfold process_dequeue in E. erewrite (bind_ok (gets _)) in E by reflexivity.
  destruct (run_queue k1); by injection E as _ <-.
Qed.

Lemma switch_uncatchable fuel : forall k d k',
  all_uncatchable k -> process_switch fuel k = Ok (d, k') -> all_uncatchable k'.
Proof.
  induction fuel as [|fuel IH]; intros k d k' HU; [done|]. rewrite process_switch_unfold.
  intros (r & k1 & Eh%switch_head_procs & E)%bind_inv.
  assert (HU1 : all_uncatchable k1) by (intros p x; rewrite Eh; apply HU).
  destruct (truthy r); [by eapply dispatch_uncatchable|by injection E as _ <-].
Qed.

(** [SIGKILL] ends the process that is dispatched with it. *)
Lemma dispatch_kill k x (sw : M state departure) :
  uncatchable x -> length (p_actions x) = Z.to_nat (NSIG - 1) ->
  k_procs k !! current_process k = Some x -> p_suspend x = 0 -> next_signal x = SIGKILL ->
  process_dispatch sw k =
    (let* _ := mmu_set_ttb (p_id x) in do* process_exit (WAIT_SIGNAL SIGKILL) in sw) k.
Proof.
  intros [U1 U2 U3] Hl Hx Hs Hn. unfold process_dispatch. erewrite (bind_ok (gets _)) by reflexivity.
  mrun (get_proc_ok _ _ _ Hx). rewrite Hs. change (truthy 0) with false. cbn iota. cbv zeta.
  change (sigpeekset _) with (next_signal x). rewrite Hn. change (truthy SIGKILL) with true. cbn iota.
  destruct (lookup_lt_is_Some_2 (p_actions x) (Z.to_nat SIGKILL)) as [ksa Ha]; [rewrite Hl; unfold SIGKILL, NSIG; lia|].
  rewrite Ha. pose proof (U3 SIGKILL ksa (or_introl eq_refl) Ha) as Hd.
  destruct (mmu_set_ttb (p_id x) k) as [[o k1]|e] eqn:Et.
  - do 2 mrun Et. cbn [opt]. erewrite (bind_ok (ret ksa)) by reflexivity. by rewrite Hd.
  - by rewrite !(bind_err _ _ _ _ Et).
Qed.

Lemma next_kill x : kill_open (p_mask x) -> sig_in SIGKILL (p_pending x) = true ->
  (forall i, 1 <= i < SIGKILL -> sig_in i (p_pending x) = true -> sig_in i (p_mask x) = true) ->
  next_signal x = SIGKILL.
Proof.
  intros [Hm _] Hp Hlt. destruct (next_signal_spec x) as [[_ H]|(Hv & H1 & H2 & H3)].
  - specialize (H SIGKILL valid_kill). by rewrite Hp, Hm in H.
  - specialize (H3 SIGKILL valid_kill Hp Hm). destruct (Z.eq_dec (next_signal x) SIGKILL) as [|Hne]; [done|].
    unfold valid_sig in Hv. rewrite (Hlt (next_signal x)) in H2 by (done || lia). done.
Qed.
End Uncatchable.

(** ** Examples *)
Definition sample_handler : k_sigaction := KSigaction 0x8000 0 0x9000 (Sigset 0 0).
Definition sample_signalled : process :=
  set_p_context (Context 0x10 (replicate 13 7) 0x1000 0x20 0x30)
    (set_p_actions (<[10%nat := sample_handler]> (p_actions (sample_task 1)))
       (set_p_pending (Sigset 0x200 0) (sample_task 1))).
Definition sample_signal_kernel : kernel (spaces bump) :=
  set_k_procs {[0x2000 := sample_signalled]}
    (set_k_mem (Spaces (Bump 0x10000 1) {[1 := zeros_at 0xf00 0x100]} 1) sample_tasks).

Lemma sample_signal_inv : km_inv (k_mem sample_signal_kernel) ∅ (fun _ _ => False) ∅.
Proof. split_and!; cbn; try done; try lia. Qed.

Lemma sample_context_wf : context_wf (p_context sample_signalled).
Proof. split; [done|]. repeat (constructor; [unfold is_u32; cbn; lia|]). constructor. Qed.

Lemma sample_stack x : 0x1000 - 96 <= x < 0x1000 -> is_Some (us_byte (k_mem sample_signal_kernel) 1 x).
Proof.
  intros Hx. cbn. unfold sp_byte, sp_space. cbn [sp_bytes]. rewrite lookup_singleton_eq. cbn [default].
  apply fmap_is_Some. cbn [from_option]. unfold id. rewrite zeros_at_lookup, decide_True by lia. by eexists.
Qed.

(** [process_sigreturn] takes the mask from the user stack as it is: after it
    [SIGKILL] can be masked. *)
Definition sample_sigreturn_kernel : kernel (spaces bump) :=
  set_k_mem (Spaces (Bump 0x10000 1) {[1 := (fun _ => 255) <$> zeros_at 0xf00 0x100]} 1) sample_signal_kernel.
Theorem sigreturn_masks_kill :
  exists k x, process_sigreturn (Context 0x10 [] 0xf00 0 0) sample_sigreturn_kernel = Ok (tt, k) /\
    k_procs k !! 0x2000 = Some x /\ sig_in SIGKILL (p_mask x) = true.
Proof. eexists _, _. split; [vm_compute; reflexivity|]. by split. Qed.

(** ** Properties *)

(** C12: entering a handler and returning from it.  When the process to run has
    a signal that is pending and not masked and a handler for the least such
    signal, and room on its stack, [process_dispatch] leaves to the handler
    with the signal as argument and the restorer as return address, the
    signal no longer pending, and the signal and those of the handler's mask
    added to the mask; no other memory than the frame changes.  From any later
    state that has the frame still on the stack, [process_sigreturn] at the
    handler's stack pointer restores the interrupted context and the mask
    exactly. *)
Theorem signal_roundtrip {S : Type} `{KM : KernelMem S} {US : UserSpace S} (k : kernel S) (C : gmap Z Z)
    (L : Z -> Z -> Prop) (U : gset Z) (switch : M (kernel S) departure) (c : process) (sig : Z) (ksa : k_sigaction) :
  let cur := current_process k in
  let sp := c_sp (p_context c) in
  km_inv (k_mem k) C L U -> k_procs k !! cur = Some c -> p_suspend c = 0 ->
  next_signal c = sig -> sig <> 0 -> p_actions c !! Z.to_nat sig = Some ksa ->
  ksa_handler ksa <> SIG_DFL -> ksa_handler ksa <> SIG_IGN ->
  context_wf (p_context c) -> sigset_wf (p_mask c) -> 96 <= sp ->
  (forall x, sp - 96 <= x < sp -> is_Some (us_byte (k_mem k) (p_id c) x)) ->
  (sig_in sig (p_pending c) = true /\ sig_in sig (p_mask c) = false /\
   forall i, valid_sig i -> sig_in i (p_pending c) = true -> sig_in i (p_mask c) = false -> sig <= i) /\
  runs (process_dispatch switch) k (fun out k1 =>
    out = Dispatched (handler_context sig (frame_mask sp) ksa) /\
    k_procs k1 = <[cur := signal_done sig (in_handler sig ksa c)]> (k_procs k) /\ current_process k1 = cur /\
    us_current (k_mem k1) = p_id c /\
    (forall q x, q <> p_id c \/ x < frame_mask sp \/ sp <= x -> us_byte (k_mem k1) q x = us_byte (k_mem k) q x) /\
    forall k2 C2 L2 U2 c2 context, km_inv (k_mem k2) C2 L2 U2 -> current_process k2 = cur -> k_procs k2 !! cur = Some c2 ->
      us_current (k_mem k2) = p_id c -> c_sp context = frame_mask sp ->
      (forall x, frame_mask sp <= x < sp -> us_byte (k_mem k2) (p_id c) x = us_byte (k_mem k1) (p_id c) x) ->
      process_sigreturn context k2 = Ok (tt, set_k_procs
        (<[cur := set_p_context (p_context c) (set_p_mask (p_mask c) c2)]> (k_procs k2)) k2)).
Proof.
  intros cur sp HI Hc Hs Hn Hn0 Ha Hd Hg Hw Hm Hl Hst. split.
  { subst sig. destruct (next_signal_spec c) as [[? _]|(_ & H)]; [done|exact H]. }
  eapply runs_mono; [by eapply (dispatch_handler k C L U switch c sig ksa)|].
  intros out k1 (-> & s & -> & Hcur & _ & HF & Hby). split_and!; try done.
  intros k2 C2 L2 U2 c2 context HI2 Hk2 Hc2 Hu2 Hctx Hagree. rewrite <- Hk2.
  apply (sigreturn_ok k2 C2 L2 U2); [done|done|done| |by rewrite Hk2| |done].
  - destruct Hw as [_ Hw]. unfold context_words in Hw. apply Forall_cons in Hw as [_ Hw].
    apply Forall_app in Hw as [_ Hw]. apply Forall_cons in Hw as [Hw _]. unfold is_u32 in Hw. lia.
  - eapply (frame_agree s); [congruence|done| |done]. rewrite Hcur. exact Hagree.
Qed.

Theorem signal_roundtrip_witness :
  runs (process_dispatch (ret Idle)) sample_signal_kernel (fun out _ =>
    out = Dispatched (handler_context 10 (frame_mask 0x1000) sample_handler)).
Proof.
  destruct (signal_roundtrip sample_signal_kernel ∅ (fun _ _ => False) ∅ (ret Idle) sample_signalled 10 sample_handler)
    as [_ H].
  - exact sample_signal_inv.
  - reflexivity.
  - reflexivity.
  - reflexivity.
  - discriminate.
  - reflexivity.
  - discriminate.
  - discriminate.
  - exact sample_context_wf.
  - split; unfold is_u32; cbn; lia.
  - discriminate.
  - exact sample_stack.
  - eapply runs_mono; [exact H|]. intros out k1 H1. exact (proj1 H1).
Defined.
