(* ===== verification/ProcessTree.v ===== *)
(** * The tree of processes: proofs

    The parents and children of the processes, seen as a map of nodes; what
    [process_fork] and [process_destroy] do to it; and the invariant that it is
    a consistent family: every parent exists, the list of children of a process
    holds exactly the processes with that parent, and there is always a
    top-level process to take over the children of one that is removed. *)

From stdpp Require Import base numbers list list_numbers gmap.
From S2P Require Import Prelude Bytes Hoare Arith Signal Buddy BuddyProofs KernelMem UserSpace Unix Kernel Pipe PipeProofs Files Process ProcessFrame ProcessSched.

#[local] Open Scope Z_scope.
#[local] Open Scope kernel_scope.

(** ** The abstract tree *)
Record node : Set := Node { n_id : Z; n_parent : Z; n_children : list Z }.
Implicit Types (m : gmap Z node) (l : list Z).

(** [l] lists the processes, [next] is the next identifier. *)
Record tree_ok l m (next : Z) : Prop := {
  to_nodup : NoDup l;
  to_null : 0 ∉ l;
  to_dom : forall p, p ∈ l <-> is_Some (m !! p);
  to_parent : forall p x, m !! p = Some x -> is_Some (m !! n_parent x);
  to_children_nodup : forall p x, m !! p = Some x -> NoDup (n_children x);
  to_children : forall p x, m !! p = Some x ->
    forall q, q ∈ n_children x <-> q <> p /\ exists y, m !! q = Some y /\ n_parent y = p;
  to_root : exists t x, m !! t = Some x /\ n_parent x = t;
  to_range : 0 < next <= PID_MAX;
  to_next : forall p x, m !! p = Some x -> 0 < n_id x < next;
  to_ids : forall p q x y, m !! p = Some x -> m !! q = Some y -> n_id x = n_id y -> p = q;
}.

(** A new child [p] of [cur]. *)
Definition fork_tree (cur p id : Z) m : gmap Z node :=
  <[p := Node id cur []]> (alter (fun x => Node (n_id x) (n_parent x) (p :: n_children x)) cur m).

Lemma fork_tree_lookup cur p id m q : m !! p = None ->
  fork_tree cur p id m !! q =
    if decide (q = p) then Some (Node id cur [])
    else if decide (q = cur) then (fun x => Node (n_id x) (n_parent x) (p :: n_children x)) <$> m !! q else m !! q.
Proof.
  intros Hp. unfold fork_tree. case_decide as H1; [by rewrite H1, lookup_insert_eq|].
  rewrite lookup_insert_ne by congruence. case_decide as H2; [by rewrite H2, lookup_alter_eq|].
  by rewrite lookup_alter_ne by congruence.
Qed.

Lemma fork_tree_ok l m next cur p : tree_ok l m next -> next <> PID_MAX -> m !! p = None -> p <> 0 -> is_Some (m !! cur) ->
  tree_ok (p :: l) (fork_tree cur p next m) (next + 1).
Proof.
  intros [H1 H2 H3 H4 H5 H6 H7 Hrange H8 H9] Hmax Hp Hp0 [xc Hxc].
  assert (Hcp : cur <> p) by congruence.
  assert (Hsome : forall q, is_Some (m !! q) -> is_Some (fork_tree cur p next m !! q)).
  { intros q Hq. rewrite fork_tree_lookup by done. repeat case_decide; by rewrite ?fmap_is_Some. }
  (* an entry is the new one or an old one with its parent and identifier *)
  assert (Hold : forall q y, fork_tree cur p next m !! q = Some y ->
    (q = p /\ y = Node next cur []) \/
    (q <> p /\ exists z, m !! q = Some z /\ n_parent y = n_parent z /\ n_id y = n_id z /\
       n_children y = (if decide (q = cur) then p :: n_children z else n_children z))).
  { intros q y. rewrite fork_tree_lookup by done. case_decide; [by intros [= <-]; left|].
    case_decide; [|intros Hy; right; split; [done|by exists y]].
    intros (z & Hz & ->)%fmap_Some. right. split; [done|]. by exists z. }
  assert (Hp' : fork_tree cur p next m !! p = Some (Node next cur []))
    by (rewrite fork_tree_lookup, decide_True by done; done).
  split.
  - constructor; [|done]. rewrite H3, Hp. by intros [? ?].
  - rewrite not_elem_of_cons. auto.
  - intros q. rewrite elem_of_cons, H3. split.
    + intros [->|Hq]; [by rewrite Hp'|auto].
    + intros [y [[-> _]|(_ & z & Hz & _)]%Hold]; [by left|right; by eexists].
  - intros q y [[-> ->]|(_ & z & Hz & -> & _)]%Hold; apply Hsome; [by eexists|by eapply H4].
  - intros q y [[-> ->]|(_ & z & Hz & _ & _ & ->)]%Hold; [constructor|]. case_decide; [|by eapply H5].
    constructor; [|by eapply H5]. rewrite (H6 _ _ Hz). intros (_ & w & Hw & _). congruence.
  - intros q y [[-> ->]|(Hq & z & Hz & _ & _ & ->)]%Hold r; cbn [n_children].
    + split; [intros Hr; by apply not_elem_of_nil in Hr|]. intros (Hr & w & [[-> _]|(_ & v & Hv & E & _)]%Hold & Hw); [done|].
      rewrite E in Hw. destruct (H4 _ _ Hv) as [u Hu]. congruence.
    + assert (Hiff : r <> p -> r ∈ n_children z <->
        r <> q /\ exists w, fork_tree cur p next m !! r = Some w /\ n_parent w = q).
      { intros Hr. rewrite (H6 _ _ Hz). split; intros (Hrq & w & Hw & E); (split; [done|]).
        - destruct (Hsome r) as [v Hv]; [by eexists|]. exists v. split; [done|].
          destruct (Hold _ _ Hv) as [[-> _]|(_ & w' & Hw' & -> & _)]; [done|]. congruence.
        - destruct (Hold _ _ Hw) as [[-> _]|(_ & w' & Hw' & E' & _)]; [done|]. exists w'. split; [done|]. congruence. }
      destruct (decide (r = p)) as [->|Hr].
      * assert (Hnz : p ∉ n_children z) by (rewrite (H6 _ _ Hz); intros (_ & w & Hw & _); congruence).
        case_decide as Hqc; [subst q|].
        { split; [intros _; split; [by apply not_eq_sym|by eexists]|by left]. }
        split; [done|]. intros (_ & w & Hw & E). rewrite Hp' in Hw. injection Hw as <-. cbn in E. congruence.
      * rewrite <- Hiff by done. case_decide; [rewrite elem_of_cons; naive_solver|done].
  - destruct H7 as (t & x & Ht & Hrt). destruct (Hsome t) as [v Hv]; [by eexists|]. exists t, v. split; [done|].
    destruct (Hold _ _ Hv) as [[-> _]|(_ & w' & Hw' & -> & _)]; congruence.
  - lia.
  - intros q y [[-> ->]|(_ & z & Hz & _ & -> & _)]%Hold; [cbn; lia|]. specialize (H8 _ _ Hz). lia.
  - intros q r y w Hy Hw E.
    destruct (Hold _ _ Hy) as [[-> ->]|(_ & z & Hz & _ & E1 & _)], (Hold _ _ Hw) as [[-> ->]|(_ & v & Hv & _ & E2 & _)].
    + done.
    + specialize (H8 _ _ Hv). cbn in *. lia.
    + specialize (H8 _ _ Hz). cbn in *. lia.
    + eapply H9; [done|done|]. congruence.
Qed.

(** [p], with the children [ch], is removed; [t] takes them over. *)
Definition reap_node (t p : Z) (ch : list Z) (q : Z) (x : node) : node :=
  Node (n_id x) (if decide (q ∈ ch) then t else n_parent x)
    ((if decide (q = t) then ch else []) ++ seq_remove p (n_children x)).
Definition reap_tree (t p : Z) (ch : list Z) m : gmap Z node :=
  delete p (map_imap (fun q x => Some (reap_node t p ch q x)) m).

Lemma reap_tree_lookup t p ch m q y : reap_tree t p ch m !! q = Some y <->
  q <> p /\ exists x, m !! q = Some x /\ y = reap_node t p ch q x.
Proof.
  unfold reap_tree. rewrite lookup_delete_Some, map_lookup_imap. split.
  - intros [Hq (x & Hx & [= <-])%bind_Some]. split; [congruence|]. eauto.
  - intros [Hq (x & -> & ->)]. split; [congruence|done].
Qed.

Lemma elem_of_seq_remove p l q : q ∈ seq_remove p l <-> q ∈ l /\ q <> p.
Proof. unfold seq_remove. rewrite list_elem_of_filter. tauto. Qed.

Lemma reap_tree_ok l m next p x t y : tree_ok l m next ->
  m !! p = Some x -> n_parent x <> p -> m !! t = Some y -> n_parent y = t ->
  tree_ok (seq_remove p l) (reap_tree t p (n_children x) m) next.
Proof.
  intros [H1 H2 H3 H4 H5 H6 H7 Hrg H8 H9] Hp Hpp Ht Htt. set (ch := n_children x).
  assert (Htp : t <> p) by (intros ->; congruence).
  assert (Hch : forall q, q ∈ ch <-> q <> p /\ exists z, m !! q = Some z /\ n_parent z = p) by apply (H6 _ _ Hp).
  assert (Htch : t ∉ ch) by (rewrite Hch; intros (_ & z & Hz & E); congruence).
  assert (Hsome : forall q, q <> p -> is_Some (m !! q) -> is_Some (reap_tree t p ch m !! q)).
  { intros q Hq [z Hz]. exists (reap_node t p ch q z). apply reap_tree_lookup. eauto. }
  (* the parent of a process that stays *)
  assert (Hpar : forall q z, q <> p -> m !! q = Some z ->
    n_parent (reap_node t p ch q z) = if decide (n_parent z = p) then t else n_parent z).
  { intros q z Hq Hz. cbn. case_decide as Hc; case_decide as Hn; try done.
    - apply Hch in Hc as (_ & w & Hw & E). congruence.
    - destruct Hc. apply Hch. eauto. }
  split.
  - by apply NoDup_filter.
  - rewrite elem_of_seq_remove. tauto.
  - intros q. rewrite elem_of_seq_remove, H3. split; [intros [? ?]; auto|].
    intros [z (Hq & w & Hw & _)%reap_tree_lookup]. split; [by eexists|done].
  - intros q z (Hq & w & Hw & ->)%reap_tree_lookup. rewrite (Hpar _ _ Hq Hw).
    case_decide; apply Hsome; [done|by eexists|done|by eapply H4].
  - intros q z (Hq & w & Hw & ->)%reap_tree_lookup. cbn. apply NoDup_app.
    pose proof (H5 _ _ Hw) as Hnw. case_decide as Hqt.
    + split_and!; [by eapply H5| |by apply NoDup_filter]. intros r (_ & v & Hv & E)%Hch [Hr _]%elem_of_seq_remove.
      apply (H6 _ _ Hw) in Hr as (_ & v' & Hv' & E'). congruence.
    + split_and!; [constructor| |by apply NoDup_filter]. intros r Hr. by apply not_elem_of_nil in Hr.
  - intros q z (Hq & w & Hw & ->)%reap_tree_lookup r. cbn [n_children reap_node].
    rewrite elem_of_app, elem_of_seq_remove, (H6 _ _ Hw).
    assert (Hnew : (exists v, reap_tree t p ch m !! r = Some v /\ n_parent v = q) <->
      r <> p /\ exists u, m !! r = Some u /\ (if decide (n_parent u = p) then t else n_parent u) = q).
    { split.
      - intros (v & (Hr & u & Hu & ->)%reap_tree_lookup & E). rewrite (Hpar _ _ Hr Hu) in E. eauto.
      - intros (Hr & u & Hu & E). exists (reap_node t p ch r u). split; [apply reap_tree_lookup; eauto|].
        by rewrite (Hpar _ _ Hr Hu). }
    rewrite Hnew. split.
    + intros [Hr|((Hrq & u & Hu & E) & Hrp)].
      * destruct (decide (q = t)) as [->|]; [|by apply not_elem_of_nil in Hr]. apply Hch in Hr as Hr'.
        destruct Hr' as (Hrp & u & Hu & E). split; [intros ->; done|]. split; [done|].
        exists u. split; [done|]. by rewrite decide_True.
      * split; [done|]. split; [done|]. exists u. split; [done|]. rewrite decide_False; [done|]. congruence.
    + intros (Hrq & Hrp & u & Hu & E). case_decide as Hup.
      * left. rewrite decide_True by congruence. apply Hch. eauto.
      * right. split; [|done]. split; [done|]. eauto.
  - exists t, (reap_node t p ch t y). split; [apply reap_tree_lookup; eauto|]. cbn. by rewrite decide_False.
  - done.
  - intros q z (_ & w & Hw & ->)%reap_tree_lookup. exact (H8 _ _ Hw).
  - intros q r z v (_ & w & Hw & ->)%reap_tree_lookup (_ & u & Hu & ->)%reap_tree_lookup. cbn [n_id reap_node]. by eapply H9.
Qed.

(** ** The tree of the kernel's processes *)
Definition node_of (x : process) : node := Node (p_id x) (p_parent x) (p_children x).
Definition tree_rel (p : Z) (x y : process) : Prop := node_of y = node_of x.
#[export] Instance tree_proc_rel c : ProcRel c tree_rel.
Proof. split; unfold tree_rel; try done. intros p x y z H1 H2. congruence. Qed.

Section Tree.
Context {S : Type} `{KM : KernelMem S} {US : UserSpace S}.
Notation state := (kernel S).
Implicit Types (k : state).

Definition forest k : gmap Z node := node_of <$> k_procs k.
Definition tree_wf k : Prop := tree_ok (all_processes k) (forest k) (max_id k).

Lemma forest_lookup k p x : k_procs k !! p = Some x -> forest k !! p = Some (node_of x).
Proof. intros H. unfold forest. by rewrite lookup_fmap, H. Qed.

Lemma krel_forest k k' : krel tree_rel k k' -> forest k' = forest k.
Proof.
  intros HK. apply map_eq. intros p. unfold forest. rewrite !lookup_fmap.
  destruct (kr_procs _ _ _ HK p) as [x y Hxy|]; [|done]. cbn. by rewrite Hxy.
Qed.

Lemma krel_tree k k' : tree_wf k -> krel tree_rel k k' -> tree_wf k'.
Proof.
  unfold tree_wf. intros HT HK. by rewrite (krel_forest _ _ HK), (kr_all _ _ _ HK), (kr_ids _ _ _ HK).
Qed.

Lemma forest_insert k p x : forest (set_k_procs (<[p := x]> (k_procs k)) k) = <[p := node_of x]> (forest k).
Proof. unfold forest. cbn. apply fmap_insert. Qed.

(** Writing one process. *)
Lemma upd_proc_inv k p f k' : upd_proc p f k = Ok (tt, k') ->
  exists x, k_procs k !! p = Some x /\ k' = set_k_procs (<[p := f x]> (k_procs k)) k.
Proof. intros (x & k1 & [-> Hx]%get_proc_inv & E)%bind_inv. injection E as <-. by exists x. Qed.

Lemma fork_tree_wf k context r k' : tree_wf k -> procs_live k ->
  is_Some (k_procs k !! current_process k) -> process_fork context k = Ok (r, k') -> tree_wf k'.
Proof.
  intros HT Hf [xcur Hcur]. unfold process_fork. intros (p & k1 & E1 & E)%bind_inv.
  destruct (process_alloc_inv _ _ _ E1) as ((s & Ea) & A1 & _ & A3 & (sp & Hp) & [Hlim Hmax] & A4).
  destruct (alloc_fresh _ _ _ Hf Ea) as (Hp0 & Hpn). assert (Hpc : p <> current_process k) by congruence.
  erewrite (bind_ok (gets _)) in E by reflexivity. rewrite A3 in E.
  apply bind_inv in E as ([] & k2 & (xc & Hxc & ->)%upd_proc_inv & E).
  apply bind_inv in E as ([] & k3 & (xp & Hxp & ->)%upd_proc_inv & E).
  cbn in Hxp. rewrite lookup_insert_ne in Hxp by congruence. rewrite Hp in Hxp. injection Hxp as <-.
  rewrite A4 in Hxc by congruence. set (cur := current_process k) in *.
  match type of E with _ ?k0 = _ => set (k3 := k0) in * end.
  assert (HT3 : tree_wf k3).
  { unfold tree_wf. cbn [all_processes max_id k3 set_k_procs]. rewrite A1, Hmax.
    assert (HF : forest k3 = fork_tree cur p (max_id k) (forest k)).
    { apply map_eq. intros q. unfold k3. rewrite !forest_insert, fork_tree_lookup
        by (unfold forest; by rewrite lookup_fmap, Hpn).
      case_decide as H1; [by rewrite H1, lookup_insert_eq|]. rewrite lookup_insert_ne by congruence.
      case_decide as H2; [rewrite H2, lookup_insert_eq; unfold forest; by rewrite lookup_fmap, Hxc|].
      rewrite lookup_insert_ne by congruence. unfold forest. by rewrite !lookup_fmap, A4 by done. }
    rewrite HF. apply fork_tree_ok; [done|done| |done|].
    - unfold forest. by rewrite lookup_fmap, Hpn.
    - exists (node_of xc). by apply forest_lookup. }
  eapply krel_tree; [exact HT3|]. revert E.
  match goal with |- ?m _ = _ -> _ => assert (F : frame cur tree_rel m) end.
  { unfold copy_segments. fr; reflexivity. }
  intros E. eapply F; [|exact E]. exact A3.
Qed.

(** ** Removing a process *)
Lemma find_toplevel_inv l0 : forall k t k', find_toplevel_in l0 k = Ok (t, k') ->
  k' = k /\ ((t = 0 /\ forall p x, p ∈ l0 -> k_procs k !! p = Some x -> p_parent x <> p) \/
             (t ∈ l0 /\ exists x, k_procs k !! t = Some x /\ p_parent x = t)).
Proof.
  induction l0 as [|p l0 IH]; intros k t k'; cbn [find_toplevel_in].
  { intros [= <- <-]. split; [done|]. left. split; [done|]. intros p x Hp. by apply not_elem_of_nil in Hp. }
  intros (x & k1 & [-> Hx]%get_proc_inv & E)%bind_inv. destruct (Z.eqb_spec (p_parent x) p) as [Hpx|Hpx].
  - injection E as <- <-. split; [done|]. right. split; [by left|]. eauto.
  - apply IH in E as [-> [[-> H]|[Ht H]]]; (split; [done|]); [left|right].
    + split; [done|]. intros q y [->|Hq]%elem_of_cons Hy; [congruence|eauto].
    + split; [by right|done].
Qed.

Lemma adopt_inv parent l0 : forall k k', adopt l0 parent k = Ok (tt, k') ->
  all_processes k' = all_processes k /\ current_process k' = current_process k /\ max_id k' = max_id k /\
  forall q, k_procs k' !! q =
    (fun x => if decide (q ∈ l0) then set_p_parent (parent q) x else x) <$> k_procs k !! q.
Proof.
  induction l0 as [|p l0 IH]; intros k k'; cbn [adopt].
  - intros [= <-]. split_and!; try done. intros q. destruct (k_procs k !! q); [|done]. cbn.
    rewrite decide_False; [done|apply not_elem_of_nil].
  - intros ([] & k1 & (x & Hx & ->)%upd_proc_inv & E)%bind_inv. apply IH in E as (-> & -> & -> & H).
    split_and!; try done. intros q. rewrite H. cbn. destruct (decide (q = p)) as [->|Hq].
    + rewrite lookup_insert_eq, Hx. cbn. rewrite (decide_True (P := p ∈ p :: l0)) by (by left). by case_decide.
    + rewrite lookup_insert_ne by congruence. destruct (k_procs k !! q) as [y|]; [|done]. cbn. f_equal.
      assert (Hi : q ∈ p :: l0 <-> q ∈ l0) by (rewrite elem_of_cons; naive_solver).
      repeat case_decide; try done; tauto.
Qed.

(** The part of [process_destroy] that gives the children to the top-level
    process, from the state in which [p] is out of the lists. *)
Definition hand_over (p : Z) (children : list Z) : M state unit :=
  match children with
  | [] => ret tt
  | child0 :: rest =>
      let children := child0 :: rest in
      let* toplevel := find_toplevel_process in
      if truthy toplevel then
        do* adopt children (fun _ => toplevel) in
        do* upd_proc toplevel (fun t => set_p_children (children ++ p_children t) t) in
        upd_proc p (set_p_children [])
      else adopt children (fun child => child)
  end.

Lemma reap_childless t p m : reap_tree t p [] m =
  delete p ((fun x => Node (n_id x) (n_parent x) (seq_remove p (n_children x))) <$> m).
Proof.
  apply map_eq. intros q. unfold reap_tree. destruct (decide (q = p)) as [->|Hq]; [by rewrite !lookup_delete_eq|].
  rewrite !lookup_delete_ne, map_lookup_imap, lookup_fmap by congruence. destruct (m !! q) as [x|]; [|done].
  cbn. unfold reap_node. rewrite decide_False by apply not_elem_of_nil. by destruct (decide (q = t)).
Qed.

Lemma hand_over_forest k p ch k' t : hand_over p ch k = Ok (tt, k') -> ch <> [] -> p ∉ all_processes k ->
  0 ∉ all_processes k -> t ∈ all_processes k -> (exists y, k_procs k !! t = Some y /\ p_parent y = t) ->
  exists t' y, t' ∈ all_processes k /\ k_procs k !! t' = Some y /\ p_parent y = t' /\
    all_processes k' = all_processes k /\ current_process k' = current_process k /\ max_id k' = max_id k /\
    forall q, q <> p -> forest k' !! q =
      (fun x => Node (n_id x) (if decide (q ∈ ch) then t' else n_parent x)
                  ((if decide (q = t') then ch else []) ++ n_children x)) <$> forest k !! q.
Proof.
  intros E Hch Hpa H0 Hta (yt & Hyt & Hroot). unfold hand_over in E. destruct ch as [|c0 ch0]; [done|].
  set (ch := c0 :: ch0) in *. apply bind_inv in E as (t' & k1 & Et & E). unfold find_toplevel_process in Et.
  erewrite (bind_ok (gets _)) in Et by reflexivity. apply find_toplevel_inv in Et as [-> [[-> Hno]|[Ht' (y & Hy & Hr)]]].
  { destruct (Hno t yt Hta Hyt). done. }
  rewrite (proj2 (truthy_true t')) in E by (intros ->; done).
  apply bind_inv in E as ([] & k2 & Ead & E). apply adopt_inv in Ead as (B1 & B2 & B3 & B4).
  apply bind_inv in E as ([] & k3 & (z & Hz & ->)%upd_proc_inv & E). apply upd_proc_inv in E as (w & Hw & ->).
  exists t', y. split_and!; try done. intros q Hq. rewrite !forest_insert. rewrite lookup_insert_ne by congruence.
  destruct (decide (q = t')) as [->|Hqt].
  - rewrite lookup_insert_eq. rewrite B4, Hy in Hz. cbn in Hz. injection Hz as <-.
    rewrite (forest_lookup _ _ _ Hy). cbn. case_decide; done.
  - rewrite lookup_insert_ne by congruence. unfold forest. rewrite !lookup_fmap, B4.
    destruct (k_procs k !! q) as [v|]; [|done]. cbn. by case_decide.
Qed.

Lemma destroy_forest k p x k' : tree_wf k -> k_procs k !! p = Some x -> p_parent x <> p ->
  process_destroy p k = Ok (tt, k') ->
  exists t y, forest k !! t = Some y /\ n_parent y = t /\ max_id k' = max_id k /\
    all_processes k' = seq_remove p (all_processes k) /\ forest k' = reap_tree t p (p_children x) (forest k).
Proof.
  intros HT Hx Hpp. unfold process_destroy. intros E. erewrite (bind_ok (gets _)) in E by reflexivity.
  apply bind_inv in E as (xc & k1 & [-> _]%get_proc_inv & E).
  apply bind_inv in E as (x' & k1 & [-> _]%get_proc_inv & E).
  apply bind_inv in E as (u & k1 & Eb & E). assert (k1 = k) as ->.
  { unfold SYSTEM_BUG_ON in Eb. destruct (p_id xc =? p_id x'); [done|]. by injection Eb as _ <-. }
  do 3 erewrite (bind_ok (modify _)) in E by reflexivity.
  match type of E with _ ?k0 = _ => change k0 with (unlinked p k) in E end.
  apply bind_inv in E as (x1 & k1 & [-> Hx1]%get_proc_inv & E).
  cbn in Hx1. rewrite lookup_fmap, Hx in Hx1. injection Hx1 as <-.
  assert (Hnp : p ∉ p_children x).
  { pose proof (to_children _ _ _ HT p _ (forest_lookup _ _ _ Hx) p) as Hc. cbn in Hc. rewrite Hc. tauto. }
  change (p_children (set_p_children _ x)) with (seq_remove p (p_children x)) in E.
  rewrite (seq_remove_notin p _ Hnp) in E. set (ch := p_children x) in *.
  apply bind_inv in E as ([] & k3 & Eh & E). change (hand_over p ch (unlinked p k) = Ok (tt, k3)) in Eh.
  assert (Hfu : forall q, forest (unlinked p k) !! q =
    (fun z => Node (n_id z) (n_parent z) (seq_remove p (n_children z))) <$> forest k !! q).
  { intros q. unfold forest. cbn. rewrite !lookup_fmap. by destruct (k_procs k !! q). }
  assert (Htail : current_process k3 = current_process k -> max_id k' = max_id k3 /\
    all_processes k' = all_processes k3 /\ forest k' = delete p (forest k3)).
  { intros Hc3. revert E.
    match goal with |- ?m ?k0 = _ -> _ => assert (F : frame_then (current_process k) tree_rel
      (fun k _ k' => k' = set_k_procs (delete p (k_procs k)) k) m) end.
    { repeat (apply then_bind; [typeclasses eauto|fr|intros ?]). apply then_here; [typeclasses eauto|].
      by intros k0 [] k1 _ [= <-]. }
    intros E. destruct (F _ _ _ Hc3 E) as (k4 & HK & ->). split_and!; [apply (kr_ids _ _ _ HK)|apply (kr_all _ _ _ HK)|].
    rewrite <- (krel_forest _ _ HK). unfold forest. cbn. apply fmap_delete. }
  clear E. destruct (to_root _ _ _ HT) as (t & yt & Hyt & Hroot).
  destruct (decide (ch = [])) as [Hch|Hch].
  - rewrite Hch in *. cbn [hand_over] in Eh. injection Eh as <-. destruct (Htail eq_refl) as (-> & -> & ->).
    exists t, yt. split_and!; try done. rewrite reap_childless. f_equal. apply map_eq. intros q.
    by rewrite Hfu, lookup_fmap.
  - assert (Htp : t <> p).
    { intros ->. rewrite (forest_lookup _ _ _ Hx) in Hyt. injection Hyt as <-. done. }
    assert (Hyk : exists y, k_procs (unlinked p k) !! t = Some y /\ p_parent y = t).
    { unfold forest in Hyt. rewrite lookup_fmap in Hyt. apply fmap_Some in Hyt as (y & Hy & ->). cbn in Hroot |- *.
      rewrite lookup_fmap, Hy. by eexists. }
    assert (Htall : t ∈ all_processes (unlinked p k)).
    { apply elem_of_seq_remove. split; [|done]. apply (to_dom _ _ _ HT). by eexists. }
    destruct (hand_over_forest _ _ _ _ t Eh Hch) as (t' & y & Ht' & Hy & Hr & C1 & C2 & C3 & C4);
      [intros Hp; apply elem_of_seq_remove in Hp; tauto|
       intros H0; apply elem_of_seq_remove in H0 as [H0 _]; by apply (to_null _ _ _ HT)|done|done|].
    destruct (Htail C2) as (-> & -> & ->). rewrite C1, C3.
    cbn in Hy. rewrite lookup_fmap in Hy. apply fmap_Some in Hy as (y0 & Hy0 & ->).
    exists t', (node_of y0). split_and!; [by apply forest_lookup|done|done|done|].
    apply map_eq. intros q. destruct (decide (q = p)) as [->|Hq].
    { unfold reap_tree. by rewrite !lookup_delete_eq. }
    unfold reap_tree. rewrite !lookup_delete_ne by congruence. rewrite C4, Hfu, map_lookup_imap by done.
    by destruct (forest k !! q).
Qed.

(** ** Waiting *)
Definition dead k (p : Z) : Prop := exists x, k_procs k !! p = Some x /\ p_state x = STATE_DEAD.

Lemma find_dead_first l0 : forall k p k', find_dead l0 k = Ok (Some p, k') ->
  k' = k /\ exists l1 l2, l0 = l1 ++ p :: l2 /\ (forall q, q ∈ l1 -> ~ dead k q) /\ dead k p.
Proof.
  induction l0 as [|q l0 IH]; intros k p k'; cbn [find_dead]; [done|].
  intros (x & k1 & [-> Hx]%get_proc_inv & E)%bind_inv. destruct (decide (p_state x = STATE_DEAD)) as [Hd|Hd].
  - injection E as <- <-. split; [done|]. exists [], l0. split; [done|]. split; [|by exists x].
    intros r Hr. by apply not_elem_of_nil in Hr.
  - apply IH in E as [-> (l1 & l2 & -> & H1 & H2)]. split; [done|]. exists (q :: l1), l2. split_and!; try done.
    intros r [->|Hr]%elem_of_cons; [|auto]. intros (y & Hy & ?). congruence.
Qed.

(** What a wait that finds a dead child does. *)
Definition reaped k k' (pid status : Z) : Prop :=
  exists c l1 p l2 x t y,
    k_procs k !! current_process k = Some c /\ p_children c = l1 ++ p :: l2 /\
    (forall q, q ∈ l1 -> ~ dead k q) /\ k_procs k !! p = Some x /\ p_state x = STATE_DEAD /\
    pid = p_id x /\ status = p_exit_status x /\ forest k !! t = Some y /\ n_parent y = t /\
    all_processes k' = seq_remove p (all_processes k) /\ max_id k' = max_id k /\
    n_parent (node_of x) <> p /\ forest k' = reap_tree t p (p_children x) (forest k).

Lemma wait_turn_reaped k pid status k' :
  tree_wf k -> wait_turn k = Ok (Some (pid, status), k') -> reaped k k' pid status.
Proof.
  intros HT. unfold wait_turn. intros E. erewrite (bind_ok (gets _)) in E by reflexivity.
  apply bind_inv in E as (c & k1 & [-> Hc]%get_proc_inv & E). apply bind_inv in E as ([p|] & k1 & Ed & E).
  - apply find_dead_first in Ed as [-> (l1 & l2 & Hl & Hfirst & (x0 & Hx0 & Hd))].
    apply bind_inv in E as (x & k1 & [-> Hx]%get_proc_inv & E). cbv zeta in E. rewrite Hx in Hx0. injection Hx0 as <-.
    apply bind_inv in E as ([] & k2 & Ek & E). injection E as <- <- <-.
    assert (Hpp : p_parent x <> p).
    { pose proof (to_children _ _ _ HT _ _ (forest_lookup _ _ _ Hc) p) as Hin. cbn [n_children node_of] in Hin.
      destruct (proj1 Hin) as (Hpc & z & Hz & Hzp); [rewrite Hl, elem_of_app, elem_of_cons; auto|].
      rewrite (forest_lookup _ _ _ Hx) in Hz. injection Hz as <-. cbn in Hzp. congruence. }
    destruct (destroy_forest _ _ _ _ HT Hx Hpp Ek) as (t & y & Ht & Hr & Hm & Ha & Hf).
    exists c, l1, p, l2, x, t, y. split_and!; done.
  - apply bind_inv in E as ([] & k2 & Es & E). done.
Qed.

Lemma reaped_tree k k' pid status : tree_wf k -> reaped k k' pid status -> tree_wf k'.
Proof.
  intros HT (c & l1 & p & l2 & x & t & y & _ & _ & _ & Hx & _ & _ & _ & Ht & Hr & Ha & Hm & Hp & Hf).
  unfold tree_wf. rewrite Ha, Hm, Hf. eapply (reap_tree_ok _ _ _ p (node_of x)); [done|by apply forest_lookup|done|done|done].
Qed.

Lemma wait_turn_tree k r k' : tree_wf k -> wait_turn k = Ok (r, k') -> tree_wf k'.
Proof.
  intros HT E. destruct r as [[pid status]|].
  - eapply reaped_tree; [done|]. by apply wait_turn_reaped.
  - unfold wait_turn in E. erewrite (bind_ok (gets _)) in E by reflexivity.
    apply bind_inv in E as (c & k1 & [-> Hc]%get_proc_inv & E). apply bind_inv in E as ([p|] & k1 & Ed & E).
    { apply bind_inv in E as (x & k2 & _ & E). cbv zeta in E. apply bind_inv in E as ([] & k3 & _ & E). done. }
    apply bind_inv in E as ([] & k2 & Es & E). injection E as <-.
    assert (H1 : krel tree_rel k k1)
      by (eapply (frame_find_dead (current_process k)); [typeclasses eauto|reflexivity|exact Ed]).
    eapply krel_tree; [by eapply krel_tree|].
    eapply (frame_process_sleep (current_process k)); [typeclasses eauto|apply (kr_current _ _ _ H1)|exact Es].
Qed.

Lemma schedule_loop_table l0 : forall k k', schedule_loop l0 k = Ok (tt, k') ->
  forest k' = forest k /\ all_processes k' = all_processes k /\ max_id k' = max_id k.
Proof.
  induction l0 as [|p l0 IH]; intros k k'; cbn [schedule_loop]; [by intros [= <-]|].
  intros (x & k1 & [-> _]%get_proc_inv & E)%bind_inv. apply bind_inv in E as ([] & k2 & E1 & E).
  apply IH in E as (-> & -> & ->). destruct (decide _); by injection E1 as <-.
Qed.

Lemma switch_head_tree k r k' : tree_wf k -> switch_head k = Ok (r, k') -> tree_wf k'.
Proof.
  intros HT. unfold switch_head. erewrite (bind_ok (gets _)) by reflexivity. intros ([] & k1 & E1 & E)%bind_inv.
  assert (HT1 : tree_wf k1).
  { destruct (run_queue k); [|by injection E1 as <-]. unfold process_schedule in E1.
    erewrite (bind_ok (gets _)) in E1 by reflexivity. apply schedule_loop_table in E1 as (Hf & Ha & Hm).
    unfold tree_wf. by rewrite Hf, Ha, Hm. }
  unfold process_dequeue in E. erewrite (bind_ok (gets _)) in E by reflexivity.
  destruct (run_queue k1); by injection E as _ <-.
Qed.

Lemma switch_tree fuel : forall k d k', tree_wf k -> process_switch fuel k = Ok (d, k') -> tree_wf k'.
Proof.
  induction fuel as [|fuel IH]; intros k d k' HT; [done|]. rewrite process_switch_unfold.
  intros (r & k1 & Eh & E)%bind_inv. pose proof (switch_head_tree _ _ _ HT Eh) as HT1.
  destruct (truthy r); [|by injection E as _ <-].
  destruct (dispatch_uniform (current_process k1) tree_rel ltac:(done) k1 eq_refl)
    as [(d' & k2 & Ed & HK)|[(k2 & Ed & HK)|(e & Ed)]]; rewrite Ed in E.
  - injection E as _ <-. by eapply krel_tree.
  - eapply IH; [|exact E]. by eapply krel_tree.
  - done.
Qed.

Lemma process_wait_childless k c : k_procs k !! current_process k = Some c -> p_children c = [] ->
  process_wait k = Ok (Some (- ECHILD, None), k).
Proof.
  intros Hc Hch. unfold process_wait. erewrite (bind_ok (gets _)) by reflexivity. mrun (get_proc_ok _ _ _ Hc).
  by rewrite Hch.
Qed.
End Tree.

(** ** An example: a parent and its dead child *)
Definition sample_parent : process := set_p_children [0x3000] (sample_task 1).
Definition sample_child : process :=
  set_p_kernel_stack PAGE_START (set_p_exit_status 0x700 (set_p_state STATE_DEAD (sample_task 2))).
Definition sample_family : kernel (spaces bump) :=
  set_k_procs {[0x2000 := sample_parent; 0x3000 := sample_child]} sample_tasks.

Lemma sample_family_nodes p x : forest sample_family !! p = Some x ->
  (p = 0x2000 /\ x = Node 1 0x2000 [0x3000]) \/ (p = 0x3000 /\ x = Node 2 0x2000 []).
Proof.
  unfold forest. cbn [k_procs sample_family set_k_procs]. rewrite fmap_insert, map_fmap_singleton.
  intros [[<- <-]|[_ [<- <-]%lookup_singleton_Some]]%lookup_insert_Some; auto.
Qed.

Lemma sample_family_tree : tree_wf sample_family.
Proof.
  split.
  - exact (sc_all _ sample_tasks_sched).
  - exact (sc_null _ sample_tasks_sched).
  - intros p. cbn [all_processes sample_family set_k_procs sample_tasks]. rewrite !elem_of_cons. split.
    + intros [->|[->|Hp]]; [by eexists|by eexists|by apply not_elem_of_nil in Hp].
    + intros [x [[-> _]|[-> _]]%sample_family_nodes]; auto.
  - intros p x [[-> ->]|[-> ->]]%sample_family_nodes; by eexists.
  - intros p x [[-> ->]|[-> ->]]%sample_family_nodes; cbn; [apply NoDup_singleton|constructor].
  - intros p x [[-> ->]|[-> ->]]%sample_family_nodes q; cbn [n_children].
    + rewrite list_elem_of_singleton. split; [intros ->; split; [done|by eexists]|].
      intros (Hq & y & [[-> _]|[-> _]]%sample_family_nodes & _); done.
    + split; [intros Hq; by apply not_elem_of_nil in Hq|].
      intros (Hq & y & [[-> ->]|[-> ->]]%sample_family_nodes & E); done.
  - exists 0x2000, (Node 1 0x2000 [0x3000]). done.
  - cbn. unfold PID_MAX. lia.
  - intros p x [[-> ->]|[-> ->]]%sample_family_nodes; cbn; lia.
  - intros p q x y [[-> ->]|[-> ->]]%sample_family_nodes [[-> ->]|[-> ->]]%sample_family_nodes; done.
Qed.
