(* ===== verification/Tty.v ===== *)
(** * tty.c: model

    The terminal.  A system call runs until it returns or sleeps; the point where
    it sleeps and its locals are the value it leaves ([inr]), with which it is
    resumed.  The bytes go to and come from user memory one by one. *)

From stdpp Require Import base numbers list gmap.
From S2P Require Import Prelude Bytes Signal Buddy BuddyProofs KernelMem Unix UserSpace Devices Kernel.

#[local] Open Scope Z_scope.
#[local] Open Scope kernel_scope.

(** Where [tty_read] sleeps: for a character, or to echo [ch]. *)
Inductive tty_point : Set := AtGet | AtPut (ch : Z).

Section Tty.
Context {S : Type} `{KM : KernelMem S} {US : UserSpace S} {IO : Mmio S}.
Context (polls : nat).
Notation state := (kernel S).

(** One turn of the loop, after the return of [process_sleep] if [resumed]. *)
Definition tty_getc (resumed : bool) : M state (option Z) :=
  do* (if resumed then kmem (uart_clear_interrupt O_RDONLY) else ret tt) in
  let* ready := kmem uart_can_recv in
  if ready then let* c := kmem (uart_getc polls) in ret (Some c)
  else
    do* kmem (uart_set_interrupt O_RDONLY) in
    do* process_sleep TtyReadWaitq in
    ret None.
Definition tty_putc (resumed : bool) (c : Z) : M state bool :=
  do* (if resumed then kmem (uart_clear_interrupt O_WRONLY) else ret tt) in
  let* ready := kmem uart_can_send in
  if ready then do* kmem (uart_putc polls c) in ret true
  else
    do* kmem (uart_set_interrupt O_WRONLY) in
    do* process_sleep TtyWriteWaitq in
    ret false.

Definition wake_next : M state unit :=
  let* _ := process_wake TtyReadWaitq in
  let* _ := process_wake TtyWriteWaitq in
  ret tt.

Definition tty_init : M state unit :=
  do* kmem (gic_enable_irq IRQ_UART0) in
  do* modify (set_tty_read_waitq []) in
  modify (set_tty_write_waitq []).

Definition tty_resume : M state unit :=
  let* r := kmem uart_can_recv in
  do* (if r then let* _ := process_wake TtyReadWaitq in ret tt else ret tt) in
  let* r := kmem uart_can_send in
  if r then let* _ := process_wake TtyWriteWaitq in ret tt else ret tt.

(** [n] turns are left, so [i = size - n]. *)
Fixpoint tty_read_loop (n : nat) (data size : Z) (at_ : option tty_point) : M state (Z + Z * tty_point) :=
  match n with
  | O => do* wake_next in ret (inl size)
  | Datatypes.S n' =>
      let i := size - Z.of_nat n in
      let* got := match at_ with
                  | Some (AtPut ch) => ret (Some ch)
                  | Some AtGet => tty_getc true
                  | None => tty_getc false
                  end in
      match got with
      | None => ret (inr (i, AtGet))
      | Some ch =>
          let ch := u8 ch in
          let* sent := tty_putc (match at_ with Some (AtPut _) => true | _ => false end) ch in
          if sent then
            do* kmem (us_store (u32 (data + i)) ch) in
            if ch =? 10 then do* wake_next in ret (inl (i + 1))
            else tty_read_loop n' data size None
          else ret (inr (i, AtPut ch))
      end
  end.
Definition tty_read (data size i : Z) (at_ : option tty_point) : M state (Z + Z * tty_point) :=
  tty_read_loop (Z.to_nat (size - i)) data size at_.

(** [c]: the character it sleeps with. *)
Fixpoint tty_write_loop (n : nat) (data size : Z) (at_ : option Z) : M state (Z + Z * Z) :=
  match n with
  | O => do* wake_next in ret (inl size)
  | Datatypes.S n' =>
      let i := size - Z.of_nat n in
      let* c := match at_ with Some c => ret c | None => kmem (us_load (u32 (data + i))) end in
      let* sent := tty_putc (bool_decide (is_Some at_)) c in
      if sent then tty_write_loop n' data size None
      else ret (inr (i, c))
  end.
Definition tty_write (data size i : Z) (at_ : option Z) : M state (Z + Z * Z) :=
  tty_write_loop (Z.to_nat (size - i)) data size at_.
End Tty.
