(* ===== verification/CString.v ===== *)
(** * lib/string.c and lib/libgen.c: model

    The string functions on a byte-addressed memory: a map from addresses to
    bytes, in which an access to an address that is not mapped stops with
    [Fault].  A pointer is its address; [char] is unsigned on the target.  The
    loops that stop at a terminating 0 are bounded by the number of mapped
    addresses, which they cannot exceed because each turn reads another one.
    The proofs are in [CStringProofs]. *)

From stdpp Require Import base numbers list gmap.
From S2P Require Import Prelude.

#[local] Open Scope Z_scope.
#[local] Open Scope kernel_scope.

Notation memory := (gmap Z Z).

Definition load (p : Z) : M memory Z := let* m := gets id in opt Fault (m !! p).
Definition store (p v : Z) : M memory unit :=
  let* _ := load p in modify (fun m => <[p := u8 v]> m).
(** The bound of the loops. *)
Definition bound : M memory nat := gets (fun m => S (size m)).

Fixpoint strlen_loop (fuel : nat) (s : Z) : M memory Z :=
  match fuel with
  | O => fail Fuel
  | S fuel =>
      let* c := load s in
      if truthy c then strlen_loop fuel (s + 1) else ret (s + 1)
  end.
Definition strlen (str : Z) : M memory Z :=
  let* n := bound in
  let* s := strlen_loop n str in
  ret (u32 (s - str - 1)).

Fixpoint strnlen_loop (fuel : nat) (str i maxlen : Z) : M memory Z :=
  match fuel with
  | O => fail Fuel
  | S fuel =>
      let* c := load (str + i) in
      if truthy c && (i <? maxlen) then strnlen_loop fuel str (i + 1) maxlen else ret i
  end.
Definition strnlen (str maxlen : Z) : M memory Z :=
  let* n := bound in strnlen_loop n str 0 maxlen.

(** The copying loop: up to and with the terminating 0. *)
Fixpoint strcpy_loop (fuel : nat) (dest src : Z) : M memory unit :=
  match fuel with
  | O => fail Fuel
  | S fuel =>
      let* c := load src in
      do* store dest c in
      if truthy c then strcpy_loop fuel (dest + 1) (src + 1) else ret tt
  end.
Definition strcpy (dest src : Z) : M memory Z :=
  let* n := bound in do* strcpy_loop n dest src in ret dest.

(** The two loops of [strncpy]; [n] is [size - i]. *)
Fixpoint strncpy_fill (n : nat) (dest i : Z) : M memory unit :=
  match n with
  | O => ret tt
  | S n => do* store (dest + i) 0 in strncpy_fill n dest (i + 1)
  end.
Fixpoint strncpy_loop (n : nat) (dest src i : Z) : M memory unit :=
  match n with
  | O => ret tt
  | S n' =>
      let* c := load (src + i) in
      if c =? 0 then strncpy_fill n dest i
      else do* store (dest + i) c in strncpy_loop n' dest src (i + 1)
  end.
Definition strncpy (dest src size : Z) : M memory Z :=
  do* strncpy_loop (Z.to_nat size) dest src 0 in ret dest.

Fixpoint strcmp_loop (fuel : nat) (s1 s2 : Z) : M memory Z :=
  match fuel with
  | O => fail Fuel
  | S fuel =>
      let* a := load s1 in
      let* b := (if truthy a then ret a else load s2) in
      if truthy b then
        let* b := load s2 in
        if a =? b then strcmp_loop fuel (s1 + 1) (s2 + 1) else ret (s32 (a - b))
      else ret 0
  end.
Definition strcmp (s1 s2 : Z) : M memory Z :=
  let* n := bound in strcmp_loop n s1 s2.

Fixpoint strncmp_loop (size : nat) (s1 s2 : Z) : M memory Z :=
  match size with
  | O => ret 0
  | S size =>
      let* a := load s1 in
      let* b := (if truthy a then ret a else load s2) in
      if truthy b then
        let* b := load s2 in
        if a =? b then strncmp_loop size (s1 + 1) (s2 + 1) else ret (s32 (a - b))
      else ret 0
  end.
Definition strncmp (s1 s2 size : Z) : M memory Z := strncmp_loop (Z.to_nat size) s1 s2.

Fixpoint memcpy_loop (size : nat) (d s : Z) : M memory unit :=
  match size with
  | O => ret tt
  | S size =>
      let* c := load s in do* store d c in memcpy_loop size (d + 1) (s + 1)
  end.
Definition memcpy (dest src size : Z) : M memory Z :=
  do* memcpy_loop (Z.to_nat size) dest src in ret dest.

Fixpoint memset_loop (size : nat) (b c : Z) : M memory unit :=
  match size with
  | O => ret tt
  | S size => do* store b c in memset_loop size (b + 1) c
  end.
Definition memset (buf c size : Z) : M memory Z :=
  do* memset_loop (Z.to_nat size) buf c in ret buf.

Fixpoint memcmp_loop (n : nat) (s1 s2 : Z) : M memory Z :=
  match n with
  | O => ret 0
  | S n =>
      let* a := load s1 in
      let* b := load s2 in
      if a =? b then memcmp_loop n (s1 + 1) (s2 + 1) else ret (s32 (a - b))
  end.
Definition memcmp (buf1 buf2 n : Z) : M memory Z := memcmp_loop (Z.to_nat n) buf1 buf2.

(** To the terminating 0. *)
Fixpoint skip_loop (fuel : nat) (dest : Z) : M memory Z :=
  match fuel with
  | O => fail Fuel
  | S fuel =>
      let* c := load dest in
      if truthy c then skip_loop fuel (dest + 1) else ret dest
  end.
Definition strcat (dest src : Z) : M memory Z :=
  let* n := bound in
  let* d := skip_loop n dest in
  do* strcpy_loop n d src in
  ret dest.

Fixpoint strncat_loop (size : nat) (dest src : Z) : M memory Z :=
  match size with
  | O => ret dest
  | S size =>
      let* c := load src in
      if c =? 0 then ret dest
      else do* store dest c in strncat_loop size (dest + 1) (src + 1)
  end.
Definition strncat (dest src size : Z) : M memory Z :=
  let* n := bound in
  let* d := skip_loop n dest in
  let* d := strncat_loop (Z.to_nat size) d src in
  do* store d 0 in
  ret dest.

Fixpoint strchrnul_loop (fuel : nat) (r a : Z) : M memory Z :=
  match fuel with
  | O => fail Fuel
  | S fuel =>
      let* c := load r in
      if truthy c then if c =? a then ret r else strchrnul_loop fuel (r + 1) a
      else ret r
  end.
Definition strchrnul (s c : Z) : M memory Z :=
  let* n := bound in strchrnul_loop n s (u8 c).

Definition strchr (s c : Z) : M memory Z :=
  let* r := strchrnul s c in
  let* a := load r in
  ret (if a =? u8 c then r else 0).

(** [n] is [i + 1]. *)
Fixpoint strrchr_loop (n : nat) (r a : Z) : M memory Z :=
  match n with
  | O => ret 0
  | S i =>
      let* c := load (r + Z.of_nat i) in
      if c =? a then ret (r + Z.of_nat i) else strrchr_loop i r a
  end.
Definition strrchr (s c : Z) : M memory Z :=
  let* i := strlen s in strrchr_loop (S (Z.to_nat i)) s (u8 c).

(** ** lib/libgen.c

    The result is a pointer into the path or one of the string literals. *)
Definition SLASH : Z := 47.
Inductive path_ptr : Set := InPath (p : Z) | LitDot | LitSlash.

(** The scans of [dirname]: [n] is [i + 1], and [None] is the end of the path
    reached. *)
Fixpoint back_while_slash (n : nat) (path : Z) : M memory (option nat) :=
  match n with
  | O => ret None
  | S i =>
      let* c := load (path + Z.of_nat i) in
      if c =? SLASH then back_while_slash i path else ret (Some n)
  end.
Fixpoint back_until_slash (n : nat) (path : Z) : M memory (option nat) :=
  match n with
  | O => ret None
  | S i =>
      let* c := load (path + Z.of_nat i) in
      if c =? SLASH then ret (Some n) else back_until_slash i path
  end.
Definition dirname (path : Z) : M memory path_ptr :=
  if path =? 0 then ret LitDot
  else
    let* c := load path in
    if c =? 0 then ret LitDot
    else
      let* len := strlen path in
      let* n := back_while_slash (Z.to_nat len) path in
      match n with
      | None => ret LitSlash
      | Some n =>
          let* n := back_until_slash n path in
          match n with
          | None => ret LitDot
          | Some n =>
              let* n := back_while_slash n path in
              match n with
              | None => ret LitSlash
              | Some n => do* store (path + Z.of_nat n) 0 in ret (InPath path)
              end
          end
      end.

(** The two loops of [basename], from the index [i] down. *)
Fixpoint trim_slashes (i : nat) (path : Z) : M memory nat :=
  match i with
  | O => ret O
  | S i' =>
      let* c := load (path + Z.of_nat i) in
      if c =? SLASH then do* store (path + Z.of_nat i) 0 in trim_slashes i' path else ret i
  end.
Fixpoint back_to_slash (i : nat) (path : Z) : M memory nat :=
  match i with
  | O => ret O
  | S i' =>
      let* c := load (path + Z.of_nat i') in
      if c =? SLASH then ret i else back_to_slash i' path
  end.
Definition basename (path : Z) : M memory path_ptr :=
  if path =? 0 then ret LitDot
  else
    let* c := load path in
    if c =? 0 then ret LitDot
    else
      let* len := strlen path in
      let* i := trim_slashes (Z.to_nat (len - 1)) path in
      let* i := back_to_slash i path in
      ret (InPath (path + Z.of_nat i)).

(** ** aeabi.c: the helpers the compiler calls *)
Definition aeabi_memset (buf size c : Z) : M memory unit := let* _ := memset buf c size in ret tt.
Definition aeabi_memcpy (dest src size : Z) : M memory unit := let* _ := memcpy dest src size in ret tt.
Definition aeabi_memclr (dest n : Z) : M memory unit := let* _ := memset dest 0 n in ret tt.
Definition aeabi_memclr8 (dest n : Z) : M memory unit := let* _ := memset dest 0 n in ret tt.
(** A division by zero ends in [system_halt]. *)
Definition aeabi_idiv0 : M memory unit := fail Halt.
Definition aeabi_ldiv0 : M memory unit := fail Halt.
