(* ===== verification/CStringProofs.v ===== *)
(** * lib/string.c and lib/libgen.c: proofs

    The string functions compute what their names say on the lists of bytes the
    pointers refer to, write only where they should, and end. *)

From stdpp Require Import base numbers list gmap sets fin_maps fin_map_dom.
From S2P Require Import Prelude CString.

#[local] Open Scope Z_scope.
#[local] Open Scope kernel_scope.

Implicit Types (m : memory) (l : list Z).

(** ** Bytes in memory *)

(** The bytes [l] are at the address [p]. *)
Fixpoint bytes_at m (p : Z) l : Prop :=
  match l with
  | [] => True
  | b :: l => m !! p = Some b /\ bytes_at m (p + 1) l
  end.
(** The string [l] is at [p], with its terminating 0. *)
Fixpoint cstr m (p : Z) l : Prop :=
  match l with
  | [] => m !! p = Some 0
  | b :: l => m !! p = Some b /\ 0 < b < 256 /\ cstr m (p + 1) l
  end.
Definition mapped m (p n : Z) : Prop := forall a, p <= a < p + n -> is_Some (m !! a).
Definition apart (p n q k : Z) : Prop := p + n <= q \/ q + k <= p.

(** The memory after writing the bytes [l] from [p] on. *)
Fixpoint write_at m (p : Z) l : memory :=
  match l with
  | [] => m
  | b :: l => write_at (<[p := b]> m) (p + 1) l
  end.

Notation len l := (Z.of_nat (length l)) (only parsing).

Lemma bytes_at_agree m m' l : forall p,
  (forall a, p <= a < p + len l -> m' !! a = m !! a) -> bytes_at m p l -> bytes_at m' p l.
Proof.
  induction l as [|b l IH]; [done|]. intros p Ha [Hb Hl]. cbn [length] in Ha. split.
  - rewrite Ha; [done|lia].
  - apply IH; [|done]. intros a Hr. apply Ha. lia.
Qed.

Lemma cstr_agree m m' l : forall p,
  (forall a, p <= a <= p + len l -> m' !! a = m !! a) -> cstr m p l -> cstr m' p l.
Proof.
  induction l as [|b l IH]; intros p Ha; cbn [cstr length] in *.
  - intros H. rewrite Ha; [done|lia].
  - intros (Hb & Hc & Hl). split; [rewrite Ha; [done|lia]|]. split; [done|].
    apply IH; [|done]. intros a Hr. apply Ha. lia.
Qed.

Lemma cstr_bytes m l : forall p, cstr m p l -> bytes_at m p (l ++ [0]).
Proof. induction l as [|b l IH]; intros p; simpl; [done|]. intros (H & _ & Hl). auto. Qed.

Lemma bytes_cstr m l : forall p, Forall (fun b => 0 < b < 256) l -> bytes_at m p (l ++ [0]) -> cstr m p l.
Proof.
  induction l as [|b l IH]; intros p; simpl; [by intros _ [? _]|].
  intros [Hb Hl]%Forall_cons [H1 H2]. auto.
Qed.

Lemma bytes_at_app m l1 l2 : forall p,
  bytes_at m p (l1 ++ l2) <-> bytes_at m p l1 /\ bytes_at m (p + len l1) l2.
Proof.
  induction l1 as [|b l1 IH]; intros p; cbn [bytes_at app length].
  - rewrite Z.add_0_r. tauto.
  - rewrite IH. replace (p + 1 + len l1) with (p + Z.of_nat (S (length l1))) by lia. tauto.
Qed.

Lemma bytes_at_lookup m l : forall p i b, bytes_at m p l -> l !! i = Some b -> m !! (p + Z.of_nat i) = Some b.
Proof.
  induction l as [|c l IH]; intros p i b; [done|]. intros [Hc Hl]. destruct i as [|i]; cbn [lookup list_lookup].
  - intros [= <-]. by rewrite Z.add_0_r.
  - intros Hi. replace (p + Z.of_nat (S i)) with (p + 1 + Z.of_nat i) by lia. by apply IH.
Qed.

Lemma cstr_lookup m p l i b : cstr m p l -> l !! i = Some b -> m !! (p + Z.of_nat i) = Some b.
Proof.
  intros H Hi. eapply bytes_at_lookup; [by apply cstr_bytes|]. by apply lookup_app_l_Some.
Qed.

Lemma cstr_end m p l : cstr m p l -> m !! (p + len l) = Some 0.
Proof.
  intros H%cstr_bytes. eapply bytes_at_lookup; [done|]. rewrite lookup_app_r by lia.
  by rewrite Nat.sub_diag.
Qed.

(** A string is shorter than the memory. *)
Lemma bytes_at_size m l : forall p, bytes_at m p l -> (length l <= size m)%nat.
Proof.
  intros p H. rewrite <- (size_dom (D := gset Z) m).
  transitivity (size (list_to_set (seqZ p (len l)) : gset Z)).
  - rewrite size_list_to_set by apply NoDup_seqZ. by rewrite length_seqZ, Nat2Z.id.
  - apply subseteq_size. intros a Ha. apply elem_of_list_to_set, elem_of_seqZ in Ha.
    apply elem_of_dom. destruct (lookup_lt_is_Some_2 l (Z.to_nat (a - p))) as [b Hb]; [lia|].
    exists b. replace a with (p + Z.of_nat (Z.to_nat (a - p))) by lia. by eapply bytes_at_lookup.
Qed.

Lemma cstr_size m p l : cstr m p l -> (length l < S (size m))%nat.
Proof. intros H%cstr_bytes%bytes_at_size. rewrite length_app in H. simpl in H. lia. Qed.

Lemma write_at_out m l : forall p a, a < p \/ p + len l <= a -> write_at m p l !! a = m !! a.
Proof.
  revert m. induction l as [|b l IH]; intros m p a Ha; cbn [write_at length] in *; [done|].
  rewrite IH by lia. apply lookup_insert_ne. lia.
Qed.

Lemma write_at_bytes m l : forall p, bytes_at (write_at m p l) p l.
Proof.
  revert m. induction l as [|b l IH]; intros m p; cbn [write_at bytes_at]; [done|]. split; [|apply IH].
  rewrite write_at_out by lia. apply lookup_insert_eq.
Qed.

Lemma write_at_app m l1 l2 : forall p, write_at m p (l1 ++ l2) = write_at (write_at m p l1) (p + len l1) l2.
Proof.
  revert m. induction l1 as [|b l1 IH]; intros m p; cbn [write_at app length]; [by rewrite Z.add_0_r|].
  rewrite IH. f_equal. lia.
Qed.

Lemma write_at_size m l : forall p, mapped m p (len l) -> size (write_at m p l) = size m.
Proof.
  revert m. induction l as [|b l IH]; intros m p Hm; cbn [write_at length] in *; [done|].
  rewrite IH.
  - apply map_size_insert_Some. apply Hm. lia.
  - intros a Ha. rewrite lookup_insert_is_Some'. right. apply Hm. lia.
Qed.

Lemma mapped_insert m p n a b : mapped m p n -> mapped (<[a := b]> m) p n.
Proof. intros H c Hc. rewrite lookup_insert_is_Some'. right. by apply H. Qed.

Lemma load_ok m p b : m !! p = Some b -> load p m = Ok (b, m).
Proof. intros H. unfold load. mred. unfold id. by rewrite H. Qed.

Lemma store_ok m p v : is_Some (m !! p) -> store p v m = Ok (tt, <[p := u8 v]> m).
Proof. intros [b Hb]. unfold store. by mrun (load_ok _ _ _ Hb). Qed.

Lemma u8_small z : 0 <= z < 256 -> u8 z = z.
Proof. intros H. unfold u8. apply Z.mod_small. lia. Qed.

(** A character of a string is not the end. *)
Lemma char_truthy b : 0 < b < 256 -> truthy b = true.
Proof. intros H. apply truthy_true. lia. Qed.

(** ** Reading *)
Lemma strlen_loop_ok m l : forall p fuel, cstr m p l -> (length l < fuel)%nat ->
  strlen_loop fuel p m = Ok (p + len l + 1, m).
Proof.
  induction l as [|b l IH]; intros p fuel Hc Hf; (destruct fuel as [|fuel]; [simpl in Hf; lia|]);
    cbn [strlen_loop length cstr] in *.
  - mrun (load_ok _ _ _ Hc). by rewrite Z.add_0_r.
  - destruct Hc as (Hb & Hr & Hc). mrun (load_ok _ _ _ Hb). rewrite char_truthy by done.
    rewrite IH by (done || lia). do 2 f_equal. lia.
Qed.

Lemma strlen_ok m p l : cstr m p l -> len l < 2 ^ 32 -> strlen p m = Ok (len l, m).
Proof.
  intros Hc Hl. unfold strlen, bound. erewrite (bind_ok (gets _)) by reflexivity.
  mrun (strlen_loop_ok _ _ _ _ Hc (cstr_size _ _ _ Hc)). unfold ret. rewrite u32_small; [|unfold is_u32; lia].
  do 2 f_equal. lia.
Qed.

Lemma strnlen_loop_ok m n l : forall p i fuel, cstr m (p + i) l -> (length l < fuel)%nat -> i <= n ->
  strnlen_loop fuel p i n m = Ok (Z.min n (i + len l), m).
Proof.
  induction l as [|b l IH]; intros p i fuel Hc Hf Hi; (destruct fuel as [|fuel]; [simpl in Hf; lia|]);
    cbn [strnlen_loop length cstr] in *.
  - mrun (load_ok _ _ _ Hc). change (truthy 0) with false. cbn [andb]. unfold ret. do 2 f_equal. lia.
  - destruct Hc as (Hb & Hr & Hc). mrun (load_ok _ _ _ Hb). rewrite char_truthy by done. cbn [andb].
    destruct (Z.ltb_spec i n).
    + rewrite IH; [do 2 f_equal; lia| |lia|lia]. by rewrite Z.add_assoc.
    + unfold ret. do 2 f_equal. lia.
Qed.

Lemma strnlen_ok m p l n : cstr m p l -> 0 <= n -> strnlen p n m = Ok (Z.min n (len l), m).
Proof.
  intros Hc Hn. unfold strnlen, bound. erewrite (bind_ok (gets _)) by reflexivity.
  rewrite (strnlen_loop_ok m n l) by (rewrite ?Z.add_0_r; done || by eapply cstr_size). done.
Qed.

(** The first difference of two byte sequences, as C computes it. *)
Fixpoint first_diff (l1 l2 : list Z) : Z :=
  match l1, l2 with
  | a :: l1, b :: l2 => if a =? b then first_diff l1 l2 else a - b
  | _, _ => 0
  end.

Lemma s32_diff a b : 0 <= a < 256 -> 0 <= b < 256 -> s32 (a - b) = a - b.
Proof. intros. apply s32_small. unfold is_s32. lia. Qed.

(** One turn of the comparing loops. *)
Lemma compare_turn m s1 s2 a b (next : M memory Z) :
  m !! s1 = Some a -> m !! s2 = Some b -> 0 <= a < 256 -> 0 <= b < 256 ->
  (let* a := load s1 in
   let* b := (if truthy a then ret a else load s2) in
   if truthy b then let* b := load s2 in if a =? b then next else ret (s32 (a - b)) else ret 0) m =
  (if (a =? 0) && (b =? 0) then Ok (0, m) else if a =? b then next m else Ok (a - b, m)).
Proof.
  intros Ha Hb Hra Hrb. rewrite <- (s32_diff a b) by done. mrun (load_ok _ _ _ Ha).
  destruct (Z.eqb_spec a 0) as [->|Hna].
  - cbn [truthy]. change (truthy 0) with false. cbv iota. mrun (load_ok _ _ _ Hb).
    destruct (Z.eqb_spec b 0) as [->|Hnb]; [done|].
    rewrite (proj2 (truthy_true _) Hnb). mrun (load_ok _ _ _ Hb).
    destruct (Z.eqb_spec 0 b); [congruence|done].
  - rewrite (proj2 (truthy_true _) Hna). erewrite (bind_ok (ret a)) by reflexivity.
    rewrite (proj2 (truthy_true _) Hna). mrun (load_ok _ _ _ Hb). cbn [andb].
    by destruct (a =? b).
Qed.

Lemma strcmp_loop_ok m l1 : forall l2 s1 s2 fuel,
  cstr m s1 l1 -> cstr m s2 l2 -> (length l1 < fuel)%nat ->
  strcmp_loop fuel s1 s2 m = Ok (first_diff (l1 ++ [0]) (l2 ++ [0]), m).
Proof.
  induction l1 as [|a l1 IH]; intros l2 s1 s2 fuel H1 H2 Hf; (destruct fuel as [|fuel]; [simpl in Hf; lia|]);
    cbn [strcmp_loop cstr] in *; destruct l2 as [|b l2]; cbn [cstr app first_diff] in *.
  - by rewrite (compare_turn m s1 s2 0 0) by (done || lia).
  - destruct H2 as (Hb & Hr & _). rewrite (compare_turn m s1 s2 0 b) by (done || lia).
    rewrite (proj2 (Z.eqb_neq b 0)), (proj2 (Z.eqb_neq 0 b)) by lia. done.
  - destruct H1 as (Ha & Hr & _). rewrite (compare_turn m s1 s2 a 0) by (done || lia).
    rewrite (proj2 (Z.eqb_neq a 0)) by lia. done.
  - destruct H1 as (Ha & Hra & H1), H2 as (Hb & Hrb & H2). rewrite (compare_turn m s1 s2 a b) by (done || lia).
    rewrite (proj2 (Z.eqb_neq a 0)) by lia. cbn [andb]. destruct (a =? b).
    + apply IH; [done|done|simpl in Hf; lia].
    + done.
Qed.

Lemma strcmp_ok m s1 s2 l1 l2 :
  cstr m s1 l1 -> cstr m s2 l2 -> strcmp s1 s2 m = Ok (first_diff (l1 ++ [0]) (l2 ++ [0]), m).
Proof.
  intros H1 H2. unfold strcmp, bound. erewrite (bind_ok (gets _)) by reflexivity.
  apply strcmp_loop_ok; [done|done|]. by eapply cstr_size.
Qed.

Lemma strncmp_loop_ok m l1 : forall l2 s1 s2 n,
  cstr m s1 l1 -> cstr m s2 l2 ->
  strncmp_loop n s1 s2 m = Ok (first_diff (take n (l1 ++ [0])) (take n (l2 ++ [0])), m).
Proof.
  induction l1 as [|a l1 IH]; intros l2 s1 s2 [|n] H1 H2; cbn [strncmp_loop]; try done;
    destruct l2 as [|b l2]; cbn [cstr app first_diff take] in *.
  - rewrite (compare_turn m s1 s2 0 0) by (done || lia). by rewrite !take_nil.
  - destruct H2 as (Hb & Hr & _). rewrite (compare_turn m s1 s2 0 b) by (done || lia).
    rewrite (proj2 (Z.eqb_neq b 0)), (proj2 (Z.eqb_neq 0 b)) by lia. done.
  - destruct H1 as (Ha & Hr & _). rewrite (compare_turn m s1 s2 a 0) by (done || lia).
    rewrite (proj2 (Z.eqb_neq a 0)) by lia. done.
  - destruct H1 as (Ha & Hra & H1), H2 as (Hb & Hrb & H2). rewrite (compare_turn m s1 s2 a b) by (done || lia).
    rewrite (proj2 (Z.eqb_neq a 0)) by lia. cbn [andb]. by destruct (a =? b); [apply IH|].
Qed.

(** [strcmp] tells equal strings from different ones. *)
Lemma first_diff_eq l1 : forall l2, Forall (fun b => 0 < b < 256) l1 -> Forall (fun b => 0 < b < 256) l2 ->
  first_diff (l1 ++ [0]) (l2 ++ [0]) = 0 <-> l1 = l2.
Proof.
  induction l1 as [|a l1 IH]; intros [|b l2]; cbn [app first_diff]; try tauto.
  - intros _ [Hb _]%Forall_cons. rewrite (proj2 (Z.eqb_neq 0 b)) by lia. split; [lia|done].
  - intros [Ha _]%Forall_cons _. rewrite (proj2 (Z.eqb_neq a 0)) by lia. split; [lia|done].
  - intros [Ha H1]%Forall_cons [Hb H2]%Forall_cons. destruct (Z.eqb_spec a b) as [->|].
    + rewrite IH by done. split; [by intros ->|by intros [= ->]].
    + split; [lia|]. by intros [= ? ?].
Qed.

Lemma memcmp_loop_ok m l1 : forall l2 s1 s2,
  bytes_at m s1 l1 -> bytes_at m s2 l2 -> length l1 = length l2 ->
  Forall (fun b => 0 <= b < 256) l1 -> Forall (fun b => 0 <= b < 256) l2 ->
  memcmp_loop (length l1) s1 s2 m = Ok (first_diff l1 l2, m).
Proof.
  induction l1 as [|a l1 IH]; intros [|b l2] s1 s2; try done. cbn [memcmp_loop length bytes_at first_diff].
  intros [Ha H1] [Hb H2] [= Hl] [Hra Hr1]%Forall_cons [Hrb Hr2]%Forall_cons.
  mrun (load_ok _ _ _ Ha). mrun (load_ok _ _ _ Hb). destruct (a =? b); [by apply IH|].
  unfold ret. by rewrite s32_diff.
Qed.

(** ** Searching *)

(** The position of the first [c] in [l], or the length. *)
Fixpoint index_of (c : Z) l : nat :=
  match l with
  | [] => O
  | b :: l => if b =? c then O else S (index_of c l)
  end.
(** The position of the last [c] in [l]. *)
Fixpoint last_index (c : Z) l : option nat :=
  match l with
  | [] => None
  | b :: l => match last_index c l with
              | Some i => Some (S i)
              | None => if b =? c then Some O else None
              end
  end.

Lemma strchrnul_loop_ok m c l : forall p fuel, cstr m p l -> (length l < fuel)%nat ->
  strchrnul_loop fuel p c m = Ok (p + Z.of_nat (index_of c l), m).
Proof.
  induction l as [|b l IH]; intros p fuel Hc Hf; (destruct fuel as [|fuel]; [simpl in Hf; lia|]);
    cbn [strchrnul_loop length cstr index_of] in *.
  - mrun (load_ok _ _ _ Hc). by rewrite Z.add_0_r.
  - destruct Hc as (Hb & Hr & Hc). mrun (load_ok _ _ _ Hb). rewrite char_truthy by done.
    destruct (b =? c); [by rewrite Z.add_0_r|]. rewrite IH by (done || lia). do 2 f_equal. lia.
Qed.

Lemma strchrnul_ok m p l c : cstr m p l -> strchrnul p c m = Ok (p + Z.of_nat (index_of (u8 c) l), m).
Proof.
  intros Hc. unfold strchrnul, bound. erewrite (bind_ok (gets _)) by reflexivity.
  apply strchrnul_loop_ok; [done|by eapply cstr_size].
Qed.

Lemma index_of_lookup c l : (index_of c l < length l)%nat -> l !! index_of c l = Some c.
Proof.
  induction l as [|b l IH]; cbn [index_of length]; [lia|]. destruct (Z.eqb_spec b c) as [->|]; [done|].
  intros H. cbn [lookup list_lookup]. apply IH. lia.
Qed.
Lemma index_of_le c l : (index_of c l <= length l)%nat.
Proof. induction l as [|b l IH]; cbn [index_of length]; [lia|]. destruct (b =? c); lia. Qed.

Lemma strchr_ok m p l c :
  cstr m p l -> strchr p c m =
    Ok (if decide (index_of (u8 c) l < length l)%nat then p + Z.of_nat (index_of (u8 c) l)
        else if decide (u8 c = 0) then p + len l else 0, m).
Proof.
  intros Hc. unfold strchr. mrun (strchrnul_ok _ _ _ c Hc).
  destruct (decide (index_of (u8 c) l < length l)%nat) as [Hlt|Hge].
  - mrun (load_ok _ _ _ (cstr_lookup _ _ _ _ _ Hc (index_of_lookup _ _ Hlt))). by rewrite Z.eqb_refl.
  - pose proof (index_of_le (u8 c) l). replace (index_of (u8 c) l) with (length l) by lia.
    mrun (load_ok _ _ _ (cstr_end _ _ _ Hc)). unfold ret.
    destruct (Z.eqb_spec 0 (u8 c)), (decide (u8 c = 0)); done || lia.
Qed.

Lemma last_index_app c l x :
  last_index c (l ++ [x]) = if x =? c then Some (length l) else last_index c l.
Proof.
  induction l as [|b l IH]; cbn [app last_index length]; [by destruct (x =? c)|]. rewrite IH.
  by destruct (x =? c).
Qed.

Lemma strrchr_loop_ok m p c : forall l, bytes_at m p l ->
  strrchr_loop (length l) p c m =
    Ok (match last_index c l with Some i => p + Z.of_nat i | None => 0 end, m).
Proof.
  intros l. induction l as [|x l IH] using rev_ind; [done|]. intros [Hl Hx]%bytes_at_app.
  rewrite length_app. cbn [length]. rewrite Nat.add_1_r. cbn [strrchr_loop].
  mrun (load_ok _ _ _ (proj1 Hx)). rewrite last_index_app. destruct (x =? c); [done|]. by apply IH.
Qed.

Lemma strrchr_ok m p l c :
  cstr m p l -> len l < 2 ^ 32 ->
  strrchr p c m = Ok (match last_index (u8 c) (l ++ [0]) with Some i => p + Z.of_nat i | None => 0 end, m).
Proof.
  intros Hc Hl. unfold strrchr. mrun (strlen_ok _ _ _ Hc Hl).
  rewrite Nat2Z.id, <- (strrchr_loop_ok m p (u8 c) (l ++ [0])) by (by apply cstr_bytes).
  rewrite length_app. cbn [length]. by rewrite Nat.add_1_r.
Qed.

(** ** Writing *)
Lemma strcpy_loop_ok l : forall m d s fuel,
  cstr m s l -> mapped m d (len l + 1) -> apart d (len l + 1) s (len l + 1) -> (length l < fuel)%nat ->
  strcpy_loop fuel d s m = Ok (tt, write_at m d (l ++ [0])).
Proof.
  induction l as [|b l IH]; intros m d s fuel Hc Hm Ha Hf; (destruct fuel as [|fuel]; [simpl in Hf; lia|]);
    cbn [strcpy_loop length cstr app write_at] in *.
  - mrun (load_ok _ _ _ Hc). mrun (store_ok m d 0 (Hm d ltac:(lia))). done.
  - destruct Hc as (Hb & Hr & Hc). mrun (load_ok _ _ _ Hb). mrun (store_ok m d b (Hm d ltac:(lia))).
    rewrite char_truthy, u8_small by lia. apply IH; [| | |lia].
    + eapply cstr_agree; [|exact Hc]. intros a Hra. apply lookup_insert_ne. unfold apart in Ha. lia.
    + apply mapped_insert. intros a Hra. apply Hm. lia.
    + unfold apart in *. lia.
Qed.

Lemma memcpy_loop_ok l : forall m d s,
  bytes_at m s l -> Forall (fun b => 0 <= b < 256) l -> mapped m d (len l) -> apart d (len l) s (len l) ->
  memcpy_loop (length l) d s m = Ok (tt, write_at m d l).
Proof.
  induction l as [|b l IH]; intros m d s; [done|]. cbn [memcpy_loop length bytes_at write_at].
  intros [Hb Hl] [Hr Hrl]%Forall_cons Hm Ha. mrun (load_ok _ _ _ Hb). mrun (store_ok m d b (Hm d ltac:(lia))).
  rewrite u8_small by lia. apply IH; [|done| |].
  - eapply bytes_at_agree; [|exact Hl]. intros a Hra. apply lookup_insert_ne. unfold apart in Ha. lia.
  - apply mapped_insert. intros a Hra. apply Hm. lia.
  - unfold apart in *. lia.
Qed.

Lemma memset_loop_ok c n : forall m b, mapped m b (Z.of_nat n) ->
  memset_loop n b c m = Ok (tt, write_at m b (replicate n (u8 c))).
Proof.
  induction n as [|n IH]; intros m b Hm; [done|]. cbn [memset_loop replicate write_at].
  mrun (store_ok m b c (Hm b ltac:(lia))). apply IH. apply mapped_insert. intros a Ha. apply Hm. lia.
Qed.

Lemma strncpy_fill_ok n : forall m d i, mapped m (d + i) (Z.of_nat n) ->
  strncpy_fill n d i m = Ok (tt, write_at m (d + i) (replicate n 0)).
Proof.
  induction n as [|n IH]; intros m d i Hm; [done|]. cbn [strncpy_fill replicate write_at].
  mrun (store_ok m (d + i) 0 (Hm (d + i) ltac:(lia))). change (u8 0) with 0. rewrite IH.
  - by rewrite Z.add_assoc.
  - apply mapped_insert. intros a Ha. apply Hm. lia.
Qed.

Lemma strncpy_loop_ok l : forall n m d s i,
  cstr m (s + i) l -> mapped m (d + i) (Z.of_nat n) -> apart (d + i) (Z.of_nat n) (s + i) (len l + 1) ->
  strncpy_loop n d s i m = Ok (tt, write_at m (d + i) (take n l ++ replicate (n - length l) 0)).
Proof.
  induction l as [|b l IH]; intros [|n] m d s i Hc Hm Ha; try done; cbn [strncpy_loop length cstr] in *.
  - mrun (load_ok _ _ _ Hc). rewrite Z.eqb_refl, strncpy_fill_ok by done. done.
  - destruct Hc as (Hb & Hr & Hc). mrun (load_ok _ _ _ Hb). rewrite (proj2 (Z.eqb_neq b 0)) by lia.
    mrun (store_ok m (d + i) b (Hm (d + i) ltac:(lia))). rewrite u8_small by lia.
    cbn [take app write_at Nat.sub]. rewrite <- !Z.add_assoc in *. apply IH.
    + eapply cstr_agree; [|exact Hc]. intros a Hra. apply lookup_insert_ne. unfold apart in Ha. lia.
    + apply mapped_insert. intros a Hra. apply Hm. lia.
    + unfold apart in *. lia.
Qed.

Lemma skip_loop_ok m l : forall p fuel, cstr m p l -> (length l < fuel)%nat ->
  skip_loop fuel p m = Ok (p + len l, m).
Proof.
  induction l as [|b l IH]; intros p fuel Hc Hf; (destruct fuel as [|fuel]; [simpl in Hf; lia|]);
    cbn [skip_loop length cstr] in *.
  - mrun (load_ok _ _ _ Hc). by rewrite Z.add_0_r.
  - destruct Hc as (Hb & Hr & Hc). mrun (load_ok _ _ _ Hb). rewrite char_truthy by done.
    rewrite IH by (done || lia). do 2 f_equal. lia.
Qed.

Lemma strncat_loop_ok l : forall n m d s,
  cstr m s l -> mapped m d (Z.of_nat (Nat.min n (length l))) ->
  apart d (Z.of_nat (Nat.min n (length l))) s (len l + 1) ->
  strncat_loop n d s m = Ok (d + Z.of_nat (Nat.min n (length l)), write_at m d (take n l)).
Proof.
  induction l as [|b l IH]; intros [|n] m d s Hc Hm Ha; cbn [strncat_loop cstr] in *.
  - by rewrite Z.add_0_r.
  - mrun (load_ok _ _ _ Hc). cbn [Nat.min length]. by rewrite Z.add_0_r.
  - by rewrite Z.add_0_r.
  - destruct Hc as (Hb & Hr & Hc). cbn [length Nat.min take write_at] in *.
    mrun (load_ok _ _ _ Hb). rewrite (proj2 (Z.eqb_neq b 0)) by lia.
    mrun (store_ok m d b (Hm d ltac:(lia))). rewrite u8_small by lia. rewrite IH.
    + do 2 f_equal. lia.
    + eapply cstr_agree; [|exact Hc]. intros a Hra. apply lookup_insert_ne. unfold apart in Ha. lia.
    + apply mapped_insert. intros a Hra. apply Hm. lia.
    + unfold apart in *. lia.
Qed.

(** ** Paths *)
Notation slashes k := (replicate k SLASH) (only parsing).

(** A name: not empty, without a slash. *)
Definition is_name l : Prop := l <> [] /\ SLASH ∉ l.
(** Not ending with a slash. *)
Definition no_tail_slash l : Prop := last l <> Some SLASH.

Lemma back_while_slash_ok m p l k :
  bytes_at m p (l ++ slashes k) -> no_tail_slash l ->
  back_while_slash (length l + k) p m = Ok (if decide (l = []) then None else Some (length l), m).
Proof.
  induction k as [|k IH]; intros Hb Hl.
  - rewrite Nat.add_0_r. destruct l as [|x l _] using rev_ind; [done|].
    rewrite length_app. cbn [length]. rewrite Nat.add_1_r. cbn [back_while_slash].
    rewrite app_nil_r in Hb. apply bytes_at_app in Hb as [_ [Hx _]]. mrun (load_ok _ _ _ Hx).
    unfold no_tail_slash in Hl. rewrite last_snoc in Hl.
    rewrite (proj2 (Z.eqb_neq x SLASH)) by congruence.
    rewrite decide_False by (by destruct l). done.
  - rewrite replicate_S_end, app_assoc in Hb. apply bytes_at_app in Hb as [Hb [Hx _]].
    rewrite Nat.add_succ_r. cbn [back_while_slash]. rewrite length_app, length_replicate in Hx.
    mrun (load_ok _ _ _ Hx). rewrite Z.eqb_refl. by apply IH.
Qed.

Lemma back_until_slash_ok m p l b :
  bytes_at m p (l ++ b) -> SLASH ∉ b -> l = [] \/ last l = Some SLASH ->
  back_until_slash (length l + length b) p m = Ok (if decide (l = []) then None else Some (length l), m).
Proof.
  revert l. induction b as [|x b IH] using rev_ind; intros l Hb Hn Hl.
  - rewrite Nat.add_0_r. destruct Hl as [->|Hl]; [done|]. apply last_Some in Hl as [l' ->].
    rewrite length_app. cbn [length]. rewrite Nat.add_1_r. cbn [back_until_slash].
    rewrite app_nil_r in Hb. apply bytes_at_app in Hb as [_ [Hx _]]. mrun (load_ok _ _ _ Hx).
    rewrite Z.eqb_refl, decide_False by (by destruct l'). done.
  - rewrite app_assoc in Hb. apply bytes_at_app in Hb as [Hb [Hx _]].
    rewrite length_app. cbn [length]. rewrite Nat.add_1_r, Nat.add_succ_r. cbn [back_until_slash].
    rewrite length_app in Hx. mrun (load_ok _ _ _ Hx). rewrite (proj2 (Z.eqb_neq x SLASH)) by set_solver.
    apply IH; [done|set_solver|done].
Qed.

Lemma last_slashes l k : last (l ++ slashes (S k)) = Some SLASH.
Proof. rewrite replicate_S_end, app_assoc. apply last_snoc. Qed.

Lemma name_no_tail b : is_name b -> no_tail_slash b.
Proof.
  intros [Hne Hn] Hl. apply Hn. by apply last_Some_elem_of.
Qed.

Lemma no_tail_app l b : is_name b -> no_tail_slash (l ++ b).
Proof.
  intros Hb. pose proof (name_no_tail b Hb) as H. unfold no_tail_slash in *. rewrite last_app.
  destruct (last b) as [x|] eqn:E; [done|]. apply last_None in E. by destruct Hb.
Qed.

(** The shapes of a path. *)
Inductive path_shape : list Z -> Prop :=
| shape_empty : path_shape []
| shape_root k : path_shape (slashes (S k))
| shape_name b j : is_name b -> path_shape (b ++ slashes j)
| shape_under k b j : is_name b -> path_shape (slashes (S k) ++ b ++ slashes j)
| shape_deep d k b j : d <> [] -> no_tail_slash d -> is_name b ->
    path_shape (d ++ slashes (S k) ++ b ++ slashes j).

(** Splitting off the slashes at the end. *)
Lemma split_tail_slashes l : exists r k, l = r ++ slashes k /\ no_tail_slash r.
Proof.
  induction l as [|x l (r & k & -> & Hr)] using rev_ind; [by exists [], 0%nat|].
  destruct (decide (x = SLASH)) as [->|Hx].
  - exists r, (S k). split; [|done]. by rewrite replicate_S_end, app_assoc.
  - exists ((r ++ slashes k) ++ [x]), 0%nat. split; [by rewrite app_nil_r|].
    unfold no_tail_slash. rewrite last_snoc. congruence.
Qed.

(** Splitting off the name at the end. *)
Lemma split_tail_name l : exists r b, l = r ++ b /\ SLASH ∉ b /\ (r = [] \/ last r = Some SLASH).
Proof.
  induction l as [|x l (r & b & -> & Hb & Hr)] using rev_ind; [exists [], []; split_and!; [done|set_solver|by left]|].
  destruct (decide (x = SLASH)) as [->|Hx].
  - exists ((r ++ b) ++ [SLASH]), []. split; [by rewrite app_nil_r|]. split; [set_solver|]. right. apply last_snoc.
  - exists r, (b ++ [x]). split; [by rewrite app_assoc|]. split; [set_solver|done].
Qed.

Lemma path_shapes l : path_shape l.
Proof.
  destruct (split_tail_slashes l) as (r & j & -> & Hr). destruct (decide (r = [])) as [->|Hne].
  { destruct j as [|j]; [exact shape_empty|exact (shape_root j)]. }
  destruct (split_tail_name r) as (q & b & -> & Hb & Hq).
  assert (Hname : is_name b).
  { split; [|done]. intros ->. rewrite app_nil_r in *. by destruct Hq. }
  destruct Hq as [->|Hq]; [by apply shape_name|].
  destruct (split_tail_slashes q) as (d & k & -> & Hd).
  destruct k as [|k]; [rewrite app_nil_r in Hq; by destruct Hd|]. rewrite <- !app_assoc.
  destruct (decide (d = [])) as [->|Hdn]; [by apply shape_under|by apply shape_deep].
Qed.

(** What [dirname] answers: the result, and the byte it cuts the path at. *)
Definition dirname_post m p l (out : res (path_ptr * memory)) : Prop :=
  (l = [] -> out = Ok (LitDot, m)) /\
  (forall k, l = slashes (S k) -> out = Ok (LitSlash, m)) /\
  (forall b j, is_name b -> l = b ++ slashes j -> out = Ok (LitDot, m)) /\
  (forall k b j, is_name b -> l = slashes (S k) ++ b ++ slashes j -> out = Ok (LitSlash, m)) /\
  (forall d k b j, d <> [] -> no_tail_slash d -> is_name b -> l = d ++ slashes (S k) ++ b ++ slashes j ->
     out = Ok (InPath p, <[p + len d := 0]> m)).

Lemma dirname_start m p l : p <> 0 -> cstr m p l -> l <> [] -> len l < 2 ^ 32 ->
  dirname p m =
    (let* n := back_while_slash (length l) p in
      match n with
      | None => ret LitSlash
      | Some n =>
          let* n := back_until_slash n p in
          match n with
          | None => ret LitDot
          | Some n =>
              let* n := back_while_slash n p in
              match n with
              | None => ret LitSlash
              | Some n => do* store (p + Z.of_nat n) 0 in ret (InPath p)
              end
          end
      end) m.
Proof.
  intros Hp Hc Hne Hl. unfold dirname. rewrite (proj2 (Z.eqb_neq p 0)) by done.
  destruct l as [|b l]; [done|]. pose proof Hc as (Hb & Hr & _). mrun (load_ok _ _ _ Hb).
  rewrite (proj2 (Z.eqb_neq b 0)) by lia. mrun (strlen_ok _ _ _ Hc Hl). by rewrite Nat2Z.id.
Qed.

Lemma dirname_name m p l b j :
  p <> 0 -> cstr m p l -> len l < 2 ^ 32 -> is_name b -> l = b ++ slashes j -> dirname p m = Ok (LitDot, m).
Proof.
  intros Hp Hc Hl Hb El. assert (l <> []). { rewrite El. destruct Hb. by destruct b. }
  rewrite (dirname_start m p l) by done. pose proof (cstr_bytes _ _ _ Hc) as [Hy _]%bytes_at_app.
  subst l. rewrite length_app, length_replicate.
  mrun (back_while_slash_ok _ _ _ _ Hy (name_no_tail _ Hb)). rewrite decide_False by apply Hb.
  apply bytes_at_app in Hy as [Hy _].
  mrun (back_until_slash_ok m p [] b Hy (proj2 Hb) (or_introl eq_refl)). done.
Qed.

Lemma dirname_split m p d k b j :
  p <> 0 -> cstr m p (d ++ slashes (S k) ++ b ++ slashes j) ->
  len (d ++ slashes (S k) ++ b ++ slashes j) < 2 ^ 32 -> no_tail_slash d -> is_name b ->
  dirname p m = if decide (d = []) then Ok (LitSlash, m) else Ok (InPath p, <[p + len d := 0]> m).
Proof.
  intros Hp Hc Hl Hd Hb. rewrite (dirname_start m p _ Hp Hc) by (done || by destruct d).
  pose proof (cstr_bytes _ _ _ Hc) as [Hy _]%bytes_at_app.
  assert (Hname : no_tail_slash ((d ++ slashes (S k)) ++ b)) by (by apply no_tail_app).
  rewrite !app_assoc in Hy |- *. rewrite length_app, length_replicate.
  mrun (back_while_slash_ok _ _ _ _ Hy Hname).
  rewrite decide_False by (destruct Hb; by destruct b, d). apply bytes_at_app in Hy as [Hy _].
  rewrite length_app.
  mrun (back_until_slash_ok _ _ _ _ Hy (proj2 Hb) (or_intror (last_slashes d k))).
  rewrite decide_False by (by destruct d). apply bytes_at_app in Hy as [Hy _].
  rewrite length_app, length_replicate. mrun (back_while_slash_ok _ _ _ _ Hy Hd).
  destruct (decide (d = [])); [done|]. apply bytes_at_app in Hy as [_ [Hs _]].
  mrun (store_ok m (p + len d) 0 (mk_is_Some _ _ Hs)). done.
Qed.

Lemma dirname_ok m p l : p <> 0 -> cstr m p l -> len l < 2 ^ 32 -> dirname_post m p l (dirname p m).
Proof.
  intros Hp Hc Hl. split_and!.
  - intros ->. unfold dirname. rewrite (proj2 (Z.eqb_neq p 0)) by done. by mrun (load_ok _ _ _ Hc).
  - intros k ->. rewrite (dirname_start m p _ Hp Hc) by done. rewrite length_replicate.
    pose proof (cstr_bytes _ _ _ Hc) as [Hy _]%bytes_at_app.
    mrun (back_while_slash_ok m p [] (S k) Hy ltac:(done)). done.
  - intros b j Hb El. by eapply dirname_name.
  - intros k b j Hb ->. by rewrite (dirname_split m p [] k b j) by done.
  - intros d k b j Hne Hd Hb ->. rewrite (dirname_split m p d k b j) by done. by rewrite decide_False.
Qed.

Lemma write_at_insert m l a b : forall p, a < p \/ p + len l <= a ->
  write_at (<[a := b]> m) p l = <[a := b]> (write_at m p l).
Proof.
  revert m. induction l as [|c l IH]; intros m p Ha; cbn [write_at length] in *; [done|].
  rewrite insert_insert_ne by lia. apply IH. lia.
Qed.

Lemma trim_slashes_ok p r j : forall m,
  r <> [] -> bytes_at m p (r ++ slashes j) -> length r = 1%nat \/ no_tail_slash r ->
  trim_slashes (length r - 1 + j) p m = Ok ((length r - 1)%nat, write_at m (p + len r) (replicate j 0)).
Proof.
  induction j as [|j IH]; intros m Hne Hb Hr.
  - rewrite Nat.add_0_r. cbn [replicate write_at]. destruct r as [|x r _] using rev_ind; [done|].
    rewrite app_nil_r in Hb. rewrite length_app in *. cbn [length] in *. rewrite Nat.add_sub.
    destruct r as [|y r]; [done|]. destruct Hr as [Hr|Hr]; [cbn [length] in Hr; lia|].
    cbn [length trim_slashes]. apply bytes_at_app in Hb as [_ [Hx _]]. mrun (load_ok _ _ _ Hx).
    unfold no_tail_slash in Hr. rewrite last_snoc in Hr.
    by rewrite (proj2 (Z.eqb_neq x SLASH)) by congruence.
  - rewrite Nat.add_succ_r. cbn [trim_slashes]. rewrite replicate_S_end, app_assoc in Hb.
    apply bytes_at_app in Hb as [Hb [Hx _]]. rewrite length_app, length_replicate in Hx.
    assert (Hpos : (0 < length r)%nat) by (destruct r; [done|simpl; lia]).
    replace (S (length r - 1 + j)) with (length r + j)%nat by lia.
    mrun (load_ok _ _ _ Hx). rewrite Z.eqb_refl. mrun (store_ok m _ 0 (mk_is_Some _ _ Hx)).
    change (u8 0) with 0. rewrite IH; [|done| |done].
    + rewrite replicate_S_end, write_at_app. cbn [write_at]. rewrite length_replicate.
      rewrite write_at_insert by (rewrite length_replicate; lia).
      replace (p + Z.of_nat (length r + j)) with (p + len r + Z.of_nat j) by lia. done.
    + eapply bytes_at_agree; [|exact Hb]. intros a Ha. apply lookup_insert_ne.
      rewrite length_app, length_replicate in Ha. lia.
Qed.

Lemma back_to_slash_ok m p l b :
  bytes_at m p (l ++ b) -> SLASH ∉ b -> l = [] \/ last l = Some SLASH ->
  forall i, (i <= length b)%nat -> back_to_slash (length l + i) p m = Ok (length l, m).
Proof.
  intros Hb Hn Hl i. induction i as [|i IH]; intros Hi.
  - rewrite Nat.add_0_r. destruct Hl as [->|Hl]; [done|]. apply last_Some in Hl as [l' ->].
    rewrite length_app. cbn [length]. rewrite Nat.add_1_r. cbn [back_to_slash].
    apply bytes_at_app in Hb as [Hb _]. apply bytes_at_app in Hb as [_ [Hx _]].
    mrun (load_ok _ _ _ Hx). by rewrite Z.eqb_refl.
  - rewrite Nat.add_succ_r. cbn [back_to_slash]. destruct (lookup_lt_is_Some_2 b i) as [x Hx]; [lia|].
    assert (Hx' : (l ++ b) !! (length l + i)%nat = Some x) by (rewrite lookup_app_r by lia; rewrite <- Hx; f_equal; lia).
    mrun (load_ok _ _ _ (bytes_at_lookup _ _ _ _ _ Hb Hx')).
    rewrite (proj2 (Z.eqb_neq x SLASH)); [apply IH; lia|]. intros ->. apply Hn. by eapply list_elem_of_lookup_2.
Qed.

(** What [basename] answers; the slashes at the end of the path are gone. *)
Definition basename_post m p l (out : res (path_ptr * memory)) : Prop :=
  (l = [] -> out = Ok (LitDot, m)) /\
  (forall k, l = slashes (S k) -> exists m', out = Ok (InPath p, m') /\ cstr m' p [SLASH]) /\
  (forall q b j, q = [] \/ last q = Some SLASH -> is_name b -> l = q ++ b ++ slashes j ->
     exists m', out = Ok (InPath (p + len q), m') /\ cstr m' (p + len q) b /\
       forall a, a < p + len q + len b \/ p + len l <= a -> m' !! a = m !! a).

Lemma cstr_chars m l : forall p, cstr m p l -> Forall (fun b => 0 < b < 256) l.
Proof. induction l as [|b l IH]; intros p; [constructor|]. intros (_ & Hb & Hl). constructor; [done|by eapply IH]. Qed.

Lemma basename_start m p r j : p <> 0 -> cstr m p (r ++ slashes j) -> r <> [] -> len (r ++ slashes j) < 2 ^ 32 ->
  length r = 1%nat \/ no_tail_slash r ->
  basename p m = (let* i := back_to_slash (length r - 1) p in ret (InPath (p + Z.of_nat i)))
                   (write_at m (p + len r) (replicate j 0)).
Proof.
  intros Hp Hc Hne Hl Hr. unfold basename. rewrite (proj2 (Z.eqb_neq p 0)) by done.
  destruct r as [|b r]; [done|]. pose proof Hc as (Hb & Hrb & _). mrun (load_ok _ _ _ Hb).
  rewrite (proj2 (Z.eqb_neq b 0)) by lia. mrun (strlen_ok _ _ _ Hc Hl).
  replace (Z.to_nat (len ((b :: r) ++ slashes j) - 1)) with (length (b :: r) - 1 + j)%nat
    by (rewrite length_app, length_replicate; cbn [length]; lia).
  pose proof (cstr_bytes _ _ _ Hc) as [Hy _]%bytes_at_app.
  by mrun (trim_slashes_ok p (b :: r) j m ltac:(done) Hy Hr).
Qed.

(** The string in front of the slashes that were removed. *)
Lemma trimmed_cstr m p q b j :
  cstr m p (q ++ b ++ slashes j) ->
  cstr (write_at m (p + len q + len b) (replicate j 0)) (p + len q) b.
Proof.
  intros Hc. pose proof (cstr_chars _ _ _ Hc) as Hf. apply cstr_bytes in Hc.
  rewrite !Forall_app in Hf. destruct Hf as (_ & Hfb & _).
  rewrite <- !app_assoc in Hc. apply bytes_at_app in Hc as [_ Hc]. apply bytes_at_app in Hc as [Hb Hc].
  apply bytes_cstr; [done|]. apply bytes_at_app. split.
  - eapply bytes_at_agree; [|exact Hb]. intros a Ha. apply write_at_out. lia.
  - split; [|done]. destruct j as [|j].
    + destruct Hc as [Hc _]. exact Hc.
    + exact (proj1 (write_at_bytes m (replicate (S j) 0) (p + len q + len b))).
Qed.

Lemma basename_ok m p l : p <> 0 -> cstr m p l -> len l < 2 ^ 32 -> basename_post m p l (basename p m).
Proof.
  intros Hp Hc Hl. split_and!.
  - intros ->. unfold basename. rewrite (proj2 (Z.eqb_neq p 0)) by done. by mrun (load_ok _ _ _ Hc).
  - intros k ->. rewrite (basename_start m p [SLASH] k Hp Hc ltac:(done) Hl (or_introl eq_refl)).
    cbn [length Nat.sub back_to_slash]. erewrite (bind_ok (ret _)) by reflexivity. rewrite Z.add_0_r.
    eexists. split; [reflexivity|].
    pose proof (trimmed_cstr m p [] [SLASH] k Hc) as H. cbn [length] in H. rewrite Z.add_0_r in H. exact H.
  - intros q b j Hq Hb ->.
    assert (Hr : length (q ++ b) = 1%nat \/ no_tail_slash (q ++ b)) by (right; by apply no_tail_app).
    pose proof (trimmed_cstr _ _ _ _ _ Hc) as Hct. pose proof Hb as [Hbne Hbs].
    rewrite app_assoc in Hc, Hl. rewrite (basename_start m p _ j Hp Hc) by (done || by destruct q, b).
    rewrite length_app. set (m' := write_at _ _ _).
    assert (Em : m' = write_at m (p + len q + len b) (replicate j 0)) by (unfold m'; f_equal; lia).
    assert (Hpos : (0 < length b)%nat) by (destruct b; [done|simpl; lia]).
    replace (length q + length b - 1)%nat with (length q + (length b - 1))%nat by lia.
    assert (Hy : bytes_at m' p (q ++ b)).
    { pose proof (cstr_bytes _ _ _ Hc) as Hy. rewrite <- app_assoc in Hy. apply bytes_at_app in Hy as [Hy _].
      eapply bytes_at_agree; [|exact Hy]. intros a Ha. rewrite Em. apply write_at_out.
      rewrite length_app in Ha. lia. }
    mrun (back_to_slash_ok m' p q b Hy Hbs Hq (length b - 1)%nat ltac:(lia)).
    exists m'. split; [done|]. split; [by rewrite Em|]. intros a Ha. rewrite Em. apply write_at_out.
    rewrite length_replicate. rewrite !length_app, length_replicate in Ha. lia.
Qed.

(** ** A sample memory

    The path "/a/b//" at 100 and the name "b" at 200, with room at 300. *)
Definition sample_memory : memory :=
  write_at (write_at (write_at ∅ 100 [47; 97; 47; 98; 47; 47; 0]) 200 [98; 0]) 300 (replicate 8 1).

Lemma sample_strings : cstr sample_memory 100 [47; 97; 47; 98; 47; 47] /\ cstr sample_memory 200 [98].
Proof. split; cbn [cstr]; split_and!; (vm_compute; reflexivity) || lia. Qed.

Lemma sample_room : mapped sample_memory 300 8.
Proof.
  intros a Ha. unfold sample_memory. destruct (lookup_lt_is_Some_2 (replicate 8 1) (Z.to_nat (a - 300))) as [b Hb];
    [rewrite length_replicate; lia|].
  exists b. replace a with (300 + Z.of_nat (Z.to_nat (a - 300))) by lia.
  eapply bytes_at_lookup; [apply write_at_bytes|exact Hb].
Qed.

(** ** Properties *)

(** The functions that read strings: on strings in memory they end without
    a fault, change nothing, and return the length, the length up to a bound,
    the first difference (0 exactly for equal strings), the first difference
    within the bound, and the first and last position of a character. *)
Theorem string_reads_correct (m : memory) (s1 s2 : Z) (l1 l2 : list Z) (n c : Z) :
  cstr m s1 l1 -> cstr m s2 l2 -> Z.of_nat (length l1) < 2 ^ 32 -> is_u32 n ->
  strlen s1 m = Ok (Z.of_nat (length l1), m) /\
  strnlen s1 n m = Ok (Z.min n (Z.of_nat (length l1)), m) /\
  (exists d, strcmp s1 s2 m = Ok (d, m) /\ d = first_diff (l1 ++ [0]) (l2 ++ [0]) /\ (d = 0 <-> l1 = l2)) /\
  strncmp s1 s2 n m =
    Ok (first_diff (take (Z.to_nat n) (l1 ++ [0])) (take (Z.to_nat n) (l2 ++ [0])), m) /\
  strchrnul s1 c m = Ok (s1 + Z.of_nat (index_of (u8 c) l1), m) /\
  strchr s1 c m =
    Ok (if decide (index_of (u8 c) l1 < length l1)%nat then s1 + Z.of_nat (index_of (u8 c) l1)
        else if decide (u8 c = 0) then s1 + Z.of_nat (length l1) else 0, m) /\
  strrchr s1 c m =
    Ok (match last_index (u8 c) (l1 ++ [0]) with Some i => s1 + Z.of_nat i | None => 0 end, m).
Proof.
  intros H1 H2 Hl Hn. split; [by apply strlen_ok|]. split; [apply strnlen_ok; [done|apply Hn]|].
  split; [|split; [by apply strncmp_loop_ok|split; [by apply strchrnul_ok|split; [by apply strchr_ok|by apply strrchr_ok]]]].
  eexists. split; [by apply strcmp_ok|]. split; [done|].
  apply first_diff_eq; by eapply cstr_chars.
Qed.

Theorem string_reads_correct_witness :
  strlen 100 sample_memory = Ok (6, sample_memory) /\ strrchr 100 47 sample_memory = Ok (105, sample_memory).
Proof.
  destruct sample_strings as [H1 H2].
  destruct (string_reads_correct sample_memory 100 200 [47; 97; 47; 98; 47; 47] [98] 3 47 H1 H2
    ltac:(cbn; lia) ltac:(unfold is_u32; lia)) as (A & _ & _ & _ & _ & _ & B).
  split; [exact A|exact B].
Defined.

(** The functions that write strings: with mapped destinations apart from
    the sources they write exactly the bytes they should, from the destination
    on, and nothing else; [strncpy] pads with zeros and [strncat] ends with one. *)
Theorem string_writes_correct (m : memory) (d s : Z) (l r : list Z) (n c : Z) :
  cstr m s l -> 0 <= n -> apart d (n + Z.of_nat (length l) + Z.of_nat (length r) + 1) s (Z.of_nat (length l) + 1) ->
  mapped m d (n + Z.of_nat (length l) + Z.of_nat (length r) + 1) ->
  strcpy d s m = Ok (d, write_at m d (l ++ [0])) /\
  strncpy d s n m = Ok (d, write_at m d (take (Z.to_nat n) l ++ replicate (Z.to_nat n - length l) 0)) /\
  memcpy d s (Z.of_nat (length l)) m = Ok (d, write_at m d l) /\
  memset d c n m = Ok (d, write_at m d (replicate (Z.to_nat n) (u8 c))) /\
  (cstr m d r ->
     strcat d s m = Ok (d, write_at m (d + Z.of_nat (length r)) (l ++ [0])) /\
     strncat d s n m = Ok (d, write_at m (d + Z.of_nat (length r)) (take (Z.to_nat n) l ++ [0]))).
Proof.
  intros Hc Hn Ha Hm. pose proof (cstr_size _ _ _ Hc) as Hf.
  assert (Hr : Forall (fun b => 0 <= b < 256) l).
  { eapply Forall_impl; [by eapply cstr_chars|]. intros; simpl in *; lia. }
  assert (Hap : forall a k k', d <= a -> a + k <= d + n + Z.of_nat (length l) + Z.of_nat (length r) + 1 ->
    k' <= Z.of_nat (length l) + 1 -> 0 <= k -> apart a k s k') by (unfold apart in *; lia).
  assert (Hmp : forall a k, d <= a -> a + k <= d + n + Z.of_nat (length l) + Z.of_nat (length r) + 1 -> mapped m a k)
    by (intros a k H1 H2 b Hb; apply Hm; lia).
  split; [|split; [|split; [|split]]].
  - unfold strcpy, bound. erewrite (bind_ok (gets _)) by reflexivity.
    rewrite (bind_ok _ _ _ _ _ (strcpy_loop_ok l m d s _ Hc ltac:(apply Hmp; lia) ltac:(apply Hap; lia) Hf)). done.
  - unfold strncpy. pose proof (strncpy_loop_ok l (Z.to_nat n) m d s 0) as H. rewrite !Z.add_0_r in H.
    mrun (H Hc ltac:(apply Hmp; lia) ltac:(apply Hap; lia)). done.
  - unfold memcpy. rewrite Nat2Z.id. pose proof (cstr_bytes _ _ _ Hc) as [Hb _]%bytes_at_app.
    mrun (memcpy_loop_ok l m d s Hb Hr ltac:(apply Hmp; lia) ltac:(apply Hap; lia)). done.
  - unfold memset. mrun (memset_loop_ok c (Z.to_nat n) m d ltac:(apply Hmp; lia)). done.
  - intros Hd. pose proof (cstr_size _ _ _ Hd) as Hfd. split.
    + unfold strcat, bound. erewrite (bind_ok (gets _)) by reflexivity.
      mrun (skip_loop_ok m r d _ Hd Hfd).
      mrun (strcpy_loop_ok l m (d + Z.of_nat (length r)) s _ Hc ltac:(apply Hmp; lia) ltac:(apply Hap; lia) Hf). done.
    + unfold strncat, bound. erewrite (bind_ok (gets _)) by reflexivity. mrun (skip_loop_ok m r d _ Hd Hfd).
      mrun (strncat_loop_ok l (Z.to_nat n) m (d + Z.of_nat (length r)) s Hc ltac:(apply Hmp; lia) ltac:(apply Hap; lia)).
      set (m1 := write_at m _ _). set (e := d + _ + _).
      assert (He : is_Some (m1 !! e)).
      { unfold m1. rewrite write_at_out by (rewrite length_take; lia). apply Hm. lia. }
      mrun (store_ok m1 e 0 He). change (u8 0) with 0. unfold ret. rewrite write_at_app. cbn [write_at].
      rewrite length_take. done.
Qed.

Theorem string_writes_correct_witness :
  strncpy 300 200 3 sample_memory = Ok (300, write_at sample_memory 300 [98; 0; 0]).
Proof.
  apply (string_writes_correct sample_memory 300 200 [98] [] 3 0).
  - exact (proj2 sample_strings).
  - lia.
  - right. simpl. lia.
  - intros a Ha. apply sample_room. simpl in Ha. lia.
Defined.

(** Every path is empty, slashes only, a name, a name under the root, or a
    name under a directory (each with slashes at its end), and for each shape
    [dirname] and [basename] end with the answer POSIX asks for: the directory
    without its trailing slashes, and the last name, both as strings. *)
Theorem path_split_correct (m : memory) (p : Z) (l : list Z) :
  p <> 0 -> cstr m p l -> Z.of_nat (length l) < 2 ^ 32 ->
  path_shape l /\ dirname_post m p l (dirname p m) /\ basename_post m p l (basename p m).
Proof. intros Hp Hc Hl. split; [apply path_shapes|]. split; [by apply dirname_ok|by apply basename_ok]. Qed.

Theorem path_split_correct_witness :
  dirname 100 sample_memory = Ok (InPath 100, <[102 := 0]> sample_memory) /\
  exists m', basename 100 sample_memory = Ok (InPath 103, m') /\ cstr m' 103 [98].
Proof.
  destruct (path_split_correct sample_memory 100 [47; 97; 47; 98; 47; 47] ltac:(lia) (proj1 sample_strings)
    ltac:(cbn; lia)) as (_ & Hd & Hb).
  split.
  - destruct Hd as (_ & _ & _ & _ & Hd). apply (Hd [47; 97] 0%nat [98] 2%nat); [done|done| |done].
    split; [done|]. intros H. apply list_elem_of_singleton in H. discriminate H.
  - destruct Hb as (_ & _ & Hb). destruct (Hb [47; 97; 47] [98] 2%nat) as (m' & E & H & _); [by right| |done|].
    + split; [done|]. intros H. apply list_elem_of_singleton in H. discriminate H.
    + exists m'. split; [exact E|exact H].
Defined.
