(* ===== verification/Format.v ===== *)
(** * lib/stdarg.c: model

    [vsnprintf] and its helpers on the byte memory of [CString].  The variable
    arguments are the list of the words [va_arg] takes in turn; taking one more
    than there are stops with [Fault].  The state machine of the format has one
    step per character.  The proofs are in [FormatProofs]. *)

From stdpp Require Import base numbers list gmap.
From S2P Require Import Prelude CString.

#[local] Open Scope Z_scope.
#[local] Open Scope kernel_scope.

Definition EOF : Z := -1.
Definition INT_MAX : Z := 2 ^ 31 - 1.
Definition PLACEHOLDER_FLAG_ZERO : Z := 1.

Record placeholder : Set := Placeholder { ph_width : Z; ph_flags : Z }.
Record buffer : Set := Buffer { b_data : Z; b_size : Z }.
Inductive fmt_state : Set := FMT_STRING | FMT_FLAG | FMT_WIDTH | FMT_TYPE.

Definition assign (buf : buffer) (index c : Z) : M memory bool :=
  if index <? b_size buf then do* store (b_data buf + index) c in ret true else ret false.

(** The [do]-[while] loops that divide by the base; 32 turns are enough for a
    word.  The hexadecimal ones shift by 4 and mask with 0xf: on an unsigned word
    that is the quotient and the remainder by 16. *)
Fixpoint width_loop (fuel : nat) (base value width : Z) : option Z :=
  match fuel with
  | O => None
  | S fuel =>
      let width := width + 1 in
      let value := Z.quot value base in
      if truthy value then width_loop fuel base value width else Some width
  end.
Definition compute_hex_width (value : Z) : option Z := width_loop 32 16 value 0.
Definition compute_signed_dec_width (value : Z) : option Z :=
  width_loop 32 10 value (if value <? 0 then 1 else 0).
Definition compute_unsigned_dec_width (value : Z) : option Z := width_loop 32 10 value 0.

(** The string literal of the digits; an index outside of it is a fault. *)
Definition digit_char (d : Z) : option Z :=
  if (0 <=? d) && (d <? 10) then Some (48 + d)
  else if (10 <=? d) && (d <? 16) then Some (87 + d) else None.

(** [assign(buf, index++, c)], [n] times. *)
Fixpoint pad_loop (n : nat) (index : Z) (buf : buffer) (c : Z) : M memory Z :=
  match n with
  | O => ret index
  | S n => let* _ := assign buf index c in pad_loop n (u32 (index + 1)) buf c
  end.
(** The digits, from the last one. *)
Fixpoint digits_loop (fuel : nat) (base : Z) (buf : buffer) (rindex value : Z) : M memory unit :=
  match fuel with
  | O => fail Fuel
  | S fuel =>
      let* c := opt Fault (digit_char (Z.rem value base)) in
      let* _ := assign buf rindex c in
      let value := Z.quot value base in
      if truthy value then digits_loop fuel base buf (u32 (rindex - 1)) value else ret tt
  end.

Definition pad_char (ph : placeholder) : Z :=
  if truthy (Z.land (ph_flags ph) PLACEHOLDER_FLAG_ZERO) then 48 else 32.

Definition format_hex (index : Z) (buf : buffer) (ph : placeholder) (value : Z) : M memory Z :=
  let* width := opt Fuel (compute_hex_width value) in
  let* index := (if width <? ph_width ph
                 then pad_loop (Z.to_nat (ph_width ph - width)) index buf (pad_char ph)
                 else ret index) in
  do* digits_loop 32 16 buf (u32 (index + (width - 1))) value in
  ret (u32 (index + width)).

Definition format_signed_dec (index : Z) (buf : buffer) (ph : placeholder) (value : Z) : M memory Z :=
  let* width := opt Fuel (compute_signed_dec_width value) in
  let pad index c := if width <? ph_width ph
                     then pad_loop (Z.to_nat (ph_width ph - width)) index buf c else ret index in
  let sign index := if value <? 0
                    then let* _ := assign buf index 45 in ret (u32 (index + 1)) else ret index in
  let* index := (if truthy (Z.land (ph_flags ph) PLACEHOLDER_FLAG_ZERO)
                 then let* index := sign index in pad index 48
                 else let* index := pad index 32 in sign index) in
  let width := if value <? 0 then width - 1 else width in
  let value := if value <? 0 then s32 (value * -1) else value in
  do* digits_loop 32 10 buf (u32 (index + (width - 1))) value in
  ret (u32 (index + width)).

Definition format_unsigned_dec (index : Z) (buf : buffer) (ph : placeholder) (value : Z) : M memory Z :=
  let* width := opt Fuel (compute_unsigned_dec_width value) in
  let* index := (if width <? ph_width ph
                 then pad_loop (Z.to_nat (ph_width ph - width)) index buf (pad_char ph)
                 else ret index) in
  do* digits_loop 32 10 buf (u32 (index + (width - 1))) value in
  ret (u32 (index + width)).

(** What a character of the format leads to. *)
Inductive fmt_next : Set :=
| FmtNext (st : fmt_state) (ph : placeholder) (index : Z) (ap : list Z)
| FmtEof.

(** The string of a [%s], character by character. *)
Fixpoint copy_loop (n : nat) (index : Z) (buf : buffer) (s : Z) : M memory Z :=
  match n with
  | O => ret index
  | S n =>
      let* c := load s in
      let* _ := assign buf index c in
      copy_loop n (u32 (index + 1)) buf (s + 1)
  end.

Definition no_placeholder : placeholder := Placeholder 0 0.

(** The character of a placeholder that is neither a flag nor a digit. *)
Definition step_type (buf : buffer) (ph : placeholder) (index : Z) (ap : list Z) (c : Z) : M memory fmt_next :=
  let zero := truthy (Z.land (ph_flags ph) PLACEHOLDER_FLAG_ZERO) in
  let word := opt Fault (head ap) in
  let done index := ret (FmtNext FMT_STRING no_placeholder index (tail ap)) in
  if c =? 37 then
    if truthy (ph_flags ph) || truthy (ph_width ph) then ret FmtEof
    else let* _ := assign buf index c in ret (FmtNext FMT_STRING ph (u32 (index + 1)) ap)
  else if c =? 99 then
    if zero then ret FmtEof
    else
      let* index := (if 1 <? ph_width ph then pad_loop (Z.to_nat (ph_width ph - 1)) index buf 32
                     else ret index) in
      let* v := word in
      let* _ := assign buf index (u8 v) in
      done (u32 (index + 1))
  else if c =? 115 then
    if zero then ret FmtEof
    else
      let* s := word in
      let* len := strlen s in
      let len := s32 len in
      let* index := (if len <? ph_width ph then pad_loop (Z.to_nat (ph_width ph - len)) index buf 32
                     else ret index) in
      let* index := copy_loop (Z.to_nat len) index buf s in
      done index
  else if c =? 120 then
    if zero && (ph_width ph =? 0) then ret FmtEof
    else let* v := word in let* index := format_hex index buf ph v in done index
  else if c =? 100 then
    if zero && (ph_width ph =? 0) then ret FmtEof
    else let* v := word in let* index := format_signed_dec index buf ph (s32 v) in done index
  else if c =? 117 then
    if zero && (ph_width ph =? 0) then ret FmtEof
    else let* v := word in let* index := format_unsigned_dec index buf ph v in done index
  else ret FmtEof.

Definition is_digit (c : Z) : bool := (48 <=? c) && (c <=? 57).

Definition step_width (buf : buffer) (ph : placeholder) (index : Z) (ap : list Z) (c : Z) : M memory fmt_next :=
  if is_digit c then
    let ph := Placeholder (s32 (ph_width ph * 10 + (c - 48))) (ph_flags ph) in
    if ph_width ph =? 0 then ret FmtEof else ret (FmtNext FMT_WIDTH ph index ap)
  else step_type buf ph index ap c.

(** The outer [switch]; the cases fall through. *)
Definition step_char (buf : buffer) (st : fmt_state) (ph : placeholder) (index : Z) (ap : list Z) (c : Z)
    : M memory fmt_next :=
  match st with
  | FMT_STRING =>
      if c =? 37 then ret (FmtNext FMT_FLAG ph index ap)
      else let* _ := assign buf index c in ret (FmtNext FMT_STRING ph (u32 (index + 1)) ap)
  | FMT_FLAG =>
      if c =? 48 then
        if truthy (Z.land (ph_flags ph) PLACEHOLDER_FLAG_ZERO) then ret FmtEof
        else ret (FmtNext FMT_FLAG
                    (Placeholder (ph_width ph) (Z.lor (ph_flags ph) PLACEHOLDER_FLAG_ZERO)) index ap)
      else step_width buf ph index ap c
  | FMT_WIDTH => step_width buf ph index ap c
  | FMT_TYPE => step_type buf ph index ap c
  end.

(** [None] is the early return of [EOF]. *)
Fixpoint format_loop (fuel : nat) (buf : buffer) (format : Z) (st : fmt_state) (ph : placeholder)
    (index : Z) (ap : list Z) : M memory (option (fmt_state * Z)) :=
  match fuel with
  | O => fail Fuel
  | S fuel =>
      let* c := load format in
      if truthy c then
        let* r := step_char buf st ph index ap c in
        match r with
        | FmtNext st ph index ap => format_loop fuel buf (format + 1) st ph index ap
        | FmtEof => ret None
        end
      else ret (Some (st, index))
  end.

Definition vsnprintf (str size format : Z) (ap : list Z) : M memory Z :=
  let buf := Buffer str size in
  if INT_MAX <? size then ret EOF
  else
    let* n := bound in
    let* r := format_loop n buf format FMT_STRING no_placeholder 0 ap in
    match r with
    | None => ret EOF
    | Some (FMT_STRING, index) =>
        let* ok := assign buf index 0 in
        let index := u32 (index + 1) in
        let* _ := (if ok then ret true else assign buf (u32 (size - 1)) 0) in
        ret (s32 (index - 1))
    | Some _ => ret EOF
    end.

Definition snprintf (str size format : Z) (ap : list Z) : M memory Z := vsnprintf str size format ap.
Definition vsprintf (str format : Z) (ap : list Z) : M memory Z := vsnprintf str INT_MAX format ap.
Definition sprintf (str format : Z) (ap : list Z) : M memory Z := vsprintf str format ap.
