(* ===== verification/FormatProofs.v ===== *)
(** * lib/stdarg.c: proofs

    [vsnprintf] is equivalent to a reference formatter that splits the format
    into directives and renders each to a list of characters: it returns the
    length of the rendered text, writes as much of it as fits with a terminating
    0, and returns [EOF] exactly for the formats the reference refuses. *)

From stdpp Require Import base numbers list gmap.
From S2P Require Import Prelude CString CStringProofs Format.

#[local] Open Scope Z_scope.
#[local] Open Scope kernel_scope.

Implicit Types (m : memory) (l : list Z) (buf : buffer).
Notation len l := (Z.of_nat (length l)) (only parsing).

(** ** The reference formatter *)
Fixpoint digits_fuel (n : nat) (base v : Z) : list Z :=
  match n with
  | O => []
  | S n => if v <? base then [v] else digits_fuel n base (v / base) ++ [v mod base]
  end.
(** The digits of a word, the most significant first. *)
Definition digits (base v : Z) : list Z := digits_fuel 32 base v.
Definition value_of (base : Z) (ds : list Z) : Z := fold_left (fun a d => a * base + d) ds 0.
Definition char_of (d : Z) : Z := if d <? 10 then 48 + d else 87 + d.
Definition text_of (base v : Z) : list Z := map char_of (digits base v).
Definition fill (width : Z) (c : Z) (l : list Z) : list Z :=
  replicate (Z.to_nat (width - len l)) c ++ l.

Inductive rendered : Type :=
| Text (l : list Z) (ap : list Z)   (* the characters, and the arguments left *)
| Refused (n : nat)                  (* after [n] characters *)
| Undefined.

Section Reference.
(** The strings the arguments point to. *)
Context (strings : Z -> option (list Z)).

Definition render_int (zero : bool) (width v : Z) : list Z :=
  if v <? 0 then
    let t := text_of 10 (- v) in
    if zero then 45 :: fill (width - 1) 48 t else fill width 32 (45 :: t)
  else fill width (if zero then 48 else 32) (text_of 10 v).

Definition render_conv (zero : bool) (width ty : Z) (ap : list Z) : rendered :=
  if ty =? 37 then if zero || truthy width then Refused 0 else Text [37] ap
  else if (ty =? 99) || (ty =? 115) then
    if zero then Refused 0
    else match ap with
         | [] => Undefined
         | v :: ap =>
             if ty =? 99 then Text (fill width 32 [u8 v]) ap
             else match strings v with
                  | Some l => Text (fill width 32 l) ap
                  | None => Undefined
                  end
         end
  else if (ty =? 120) || (ty =? 100) || (ty =? 117) then
    if zero && (width =? 0) then Refused 0
    else match ap with
         | [] => Undefined
         | v :: ap =>
             if ty =? 120 then Text (fill width (if zero then 48 else 32) (text_of 16 v)) ap
             else if ty =? 117 then Text (fill width (if zero then 48 else 32) (text_of 10 v)) ap
             else if s32 v =? - 2 ^ 31 then Undefined
             else Text (render_int zero width (s32 v)) ap
         end
  else Refused 0.

(** The digits of a width, and what follows them. *)
Fixpoint split_width (acc : Z) (l : list Z) : Z * list Z :=
  match l with
  | c :: l' => if is_digit c then split_width (acc * 10 + (c - 48)) l' else (acc, l)
  | [] => (acc, [])
  end.
Definition starts_zero (l : list Z) : bool := match l with c :: _ => c =? 48 | [] => false end.
(** One directive after its [%]: the text, and the rest of the format. *)
Definition render_directive (l : list Z) (ap : list Z) : rendered * list Z :=
  let zero := starts_zero l in
  let l1 := if zero then tail l else l in
  if starts_zero l1 then (Refused 0, [])
  else
    let '(width, l2) := split_width 0 l1 in
    match l2 with
    | [] => (if width <? 2 ^ 31 then Refused 0 else Undefined, [])
    | ty :: l3 => (if width <? 2 ^ 31 then render_conv zero width ty ap else Undefined, l3)
    end.
(** The characters [t], then the rest. *)
Definition after (t : list Z) (r : rendered) : rendered :=
  match r with
  | Text l ap => Text (t ++ l) ap
  | Refused n => Refused (length t + n)
  | Undefined => Undefined
  end.
Fixpoint render (fuel : nat) (l : list Z) (ap : list Z) : rendered :=
  match fuel with
  | O => Undefined
  | S fuel =>
      match l with
      | [] => Text [] ap
      | c :: l =>
          if c =? 37 then
            match render_directive l ap with
            | (Text t ap, l) =>
                after t (render fuel l ap)
            | (o, _) => o
            end
          else after [c] (render fuel l ap)
      end
  end.
End Reference.

(** ** Digits *)
Lemma digits_fuel_app n base v : 2 <= base -> base <= v ->
  digits_fuel (S n) base v = digits_fuel n base (v / base) ++ [v mod base].
Proof. intros Hb Hv. cbn [digits_fuel]. by rewrite (proj2 (Z.ltb_ge v base)) by lia. Qed.

Lemma digits_fuel_range n base v : 2 <= base -> 0 <= v -> Forall (fun d => 0 <= d < base) (digits_fuel n base v).
Proof.
  intros Hb. revert v. induction n as [|n IH]; intros v Hv; cbn [digits_fuel]; [constructor|].
  destruct (Z.ltb_spec v base); [constructor; [lia|constructor]|]. apply Forall_app. split.
  - apply IH. apply Z.div_pos; lia.
  - constructor; [apply Z.mod_pos_bound; lia|constructor].
Qed.

Lemma value_of_snoc base ds d : value_of base (ds ++ [d]) = value_of base ds * base + d.
Proof. unfold value_of. by rewrite fold_left_app. Qed.

(** A number below [base ^ n] needs at most [n] digits. *)
Lemma digits_fuel_value n base v : 2 <= base -> 0 <= v < base ^ Z.of_nat n -> 0 < Z.of_nat n ->
  value_of base (digits_fuel n base v) = v.
Proof.
  intros Hb. revert v. induction n as [|n IH]; intros v Hv Hn; [lia|]. cbn [digits_fuel].
  destruct (Z.ltb_spec v base) as [|Hge]; [unfold value_of; cbn [fold_left]; lia|]. rewrite value_of_snoc.
  destruct n as [|n]; [rewrite Z.pow_1_r in Hv; lia|].
  rewrite IH; [|split|lia].
  - rewrite (Z.div_mod v base) at 3 by lia. lia.
  - apply Z.div_pos; lia.
  - apply Z.div_lt_upper_bound; [lia|]. rewrite <- Z.pow_succ_r by lia. rewrite <- Nat2Z.inj_succ. lia.
Qed.

Lemma pow_mono_word base : 2 <= base -> 2 ^ 32 <= base ^ Z.of_nat 32.
Proof. intros H. apply Z.pow_le_mono_l. lia. Qed.

Lemma digits_value base v : 2 <= base -> is_u32 v -> value_of base (digits base v) = v.
Proof.
  intros Hb Hv. pose proof (pow_mono_word base Hb). apply digits_fuel_value; [done| |lia].
  unfold is_u32 in Hv. lia.
Qed.

(** The loops count and write the digits. *)
Lemma width_loop_ok base n : 2 <= base -> forall v w, Z.abs v < base ^ Z.of_nat n -> (0 < n)%nat ->
  width_loop n base v w = Some (w + len (digits_fuel n base (Z.abs v))).
Proof.
  intros Hb. induction n as [|n IH]; intros v w Hv Hn; [lia|]. cbn [width_loop digits_fuel].
  assert (Hq : Z.abs (Z.quot v base) = Z.abs v / base).
  { rewrite <- Z.quot_abs by lia. rewrite (Z.abs_eq base) by lia. apply Z.quot_div_nonneg; lia. }
  destruct (Z.ltb_spec (Z.abs v) base) as [Hlt|Hge].
  - assert (Z.quot v base = 0) as ->; [|done]. apply Z.abs_0_iff. rewrite Hq. apply Z.div_small. lia.
  - assert (0 < Z.abs v / base) by (apply Z.div_str_pos; lia).
    rewrite (proj2 (truthy_true _)) by lia.
    destruct n as [|n]; [rewrite Z.pow_1_r in Hv; lia|]. rewrite IH; [|rewrite Hq|lia].
    + rewrite Hq, length_app. cbn [length]. f_equal. lia.
    + apply Z.div_lt_upper_bound; [lia|]. rewrite <- Z.pow_succ_r by lia. rewrite <- Nat2Z.inj_succ. lia.
Qed.

(** ** Writing to the buffer *)
Definition put m buf (i c : Z) : memory :=
  if i <? b_size buf then <[b_data buf + i := u8 c]> m else m.
Fixpoint puts m buf (i : Z) l : memory :=
  match l with
  | [] => m
  | c :: l => puts (put m buf i c) buf (i + 1) l
  end.
Definition buf_ok m buf : Prop := mapped m (b_data buf) (b_size buf).

Lemma buf_ok_put m buf i c : buf_ok m buf -> buf_ok (put m buf i c) buf.
Proof. intros H. unfold put. destruct (_ <? _); [by apply mapped_insert|done]. Qed.
Lemma buf_ok_puts buf l : forall m i, buf_ok m buf -> buf_ok (puts m buf i l) buf.
Proof. induction l as [|c l IH]; intros m i H; [done|]. cbn [puts]. by apply IH, buf_ok_put. Qed.

Lemma assign_ok m buf i c : buf_ok m buf -> 0 <= i -> assign buf i c m = Ok (i <? b_size buf, put m buf i c).
Proof.
  intros Hb Hi. unfold assign, put. destruct (Z.ltb_spec i (b_size buf)); [|done].
  mrun (store_ok m (b_data buf + i) c (Hb (b_data buf + i) ltac:(lia))). done.
Qed.

Lemma put_comm m buf i j c d : i <> j -> put (put m buf i c) buf j d = put (put m buf j d) buf i c.
Proof.
  intros Hne. unfold put. destruct (i <? b_size buf), (j <? b_size buf); try done.
  apply insert_insert_ne. lia.
Qed.
Lemma puts_put buf l : forall m i j c, j < i \/ i + len l <= j ->
  puts (put m buf j c) buf i l = put (puts m buf i l) buf j c.
Proof.
  induction l as [|d l IH]; intros m i j c Hj; [done|]. cbn [puts length] in *.
  rewrite put_comm by lia. apply IH. lia.
Qed.
Lemma puts_app buf l1 l2 : forall m i, puts m buf i (l1 ++ l2) = puts (puts m buf i l1) buf (i + len l1) l2.
Proof.
  induction l1 as [|c l1 IH]; intros m i; cbn [puts app length]; [by rewrite Z.add_0_r|].
  rewrite IH. f_equal. lia.
Qed.

(** What is outside of the buffer stays. *)
Lemma put_out m buf i c a : 0 <= i -> a < b_data buf \/ b_data buf + b_size buf <= a -> put m buf i c !! a = m !! a.
Proof.
  intros Hi Ha. unfold put. destruct (Z.ltb_spec i (b_size buf)); [|done]. apply lookup_insert_ne. lia.
Qed.
Lemma puts_out buf l a : a < b_data buf \/ b_data buf + b_size buf <= a ->
  forall m i, 0 <= i -> puts m buf i l !! a = m !! a.
Proof.
  intros Ha. induction l as [|c l IH]; intros m i Hi; [done|]. cbn [puts]. rewrite IH by lia.
  by apply put_out.
Qed.
Lemma cstr_puts m buf i l p s :
  0 <= i -> apart (b_data buf) (b_size buf) p (len s + 1) -> cstr m p s -> cstr (puts m buf i l) p s.
Proof.
  intros Hi Ha. apply cstr_agree. intros a Hr. apply puts_out; [|done]. unfold apart in Ha. lia.
Qed.

(** The part that fits, as one write. *)
Lemma puts_write buf l : forall m i, 0 <= i -> Forall (fun c => 0 <= c < 256) l ->
  puts m buf i l = write_at m (b_data buf + i) (take (Z.to_nat (b_size buf - i)) l).
Proof.
  induction l as [|c l IH]; intros m i Hi Hf; [by rewrite take_nil|]. apply Forall_cons in Hf as [Hc Hf].
  cbn [puts]. rewrite IH by (done || lia). unfold put. destruct (Z.ltb_spec i (b_size buf)).
  - replace (Z.to_nat (b_size buf - i)) with (S (Z.to_nat (b_size buf - (i + 1)))) by lia.
    cbn [take write_at]. rewrite u8_small by lia. by rewrite Z.add_assoc.
  - replace (Z.to_nat (b_size buf - (i + 1))) with O by lia.
    by replace (Z.to_nat (b_size buf - i)) with O by lia.
Qed.

Lemma u32_id z : 0 <= z < 2 ^ 32 -> u32 z = z.
Proof. intros. apply u32_small. done. Qed.

Lemma pad_loop_ok buf c n : forall m i, buf_ok m buf -> 0 <= i -> i + Z.of_nat n < 2 ^ 32 ->
  pad_loop n i buf c m = Ok (i + Z.of_nat n, puts m buf i (replicate n c)).
Proof.
  induction n as [|n IH]; intros m i Hb Hi Hn; cbn [pad_loop replicate puts]; [by rewrite Z.add_0_r|].
  mrun (assign_ok m buf i c Hb Hi). rewrite u32_id by lia. rewrite IH by (lia || by apply buf_ok_put).
  do 2 f_equal. lia.
Qed.

(** Padding up to a width. *)
Lemma pad_ok m buf i c w n : buf_ok m buf -> 0 <= i -> 0 <= n -> i + Z.max 0 (w - n) < 2 ^ 32 ->
  (if n <? w then pad_loop (Z.to_nat (w - n)) i buf c else ret i) m =
    Ok (i + Z.of_nat (Z.to_nat (w - n)), puts m buf i (replicate (Z.to_nat (w - n)) c)).
Proof.
  intros Hb Hi Hn Hw. destruct (Z.ltb_spec n w).
  - apply pad_loop_ok; [done|done|lia].
  - replace (Z.to_nat (w - n)) with O by lia. cbn [replicate puts]. by rewrite Z.add_0_r.
Qed.

Lemma digit_char_ok d : 0 <= d < 16 -> digit_char d = Some (char_of d).
Proof.
  intros H. unfold digit_char, char_of. destruct (Z.ltb_spec d 10).
  - by rewrite (proj2 (Z.leb_le 0 d)) by lia.
  - rewrite andb_false_r, (proj2 (Z.leb_le 10 d)), (proj2 (Z.ltb_lt d 16)) by lia. done.
Qed.

Lemma digits_fuel_nonempty n base v : (0 < n)%nat -> (0 < length (digits_fuel n base v))%nat.
Proof.
  destruct n as [|n]; [lia|]. intros _. cbn [digits_fuel]. destruct (_ <? _); [simpl; lia|].
  rewrite length_app. simpl. lia.
Qed.

Lemma digits_loop_ok base buf n : 2 <= base <= 16 -> forall m i v,
  buf_ok m buf -> 0 <= i -> 0 <= v < base ^ Z.of_nat n -> (0 < n)%nat ->
  i + len (digits_fuel n base v) < 2 ^ 32 ->
  digits_loop n base buf (i + len (digits_fuel n base v) - 1) v m =
    Ok (tt, puts m buf i (map char_of (digits_fuel n base v))).
Proof.
  intros Hbase. induction n as [|n IH]; intros m i v Hb Hi Hv Hn Hl; [lia|]. cbn [digits_loop].
  rewrite Z.rem_mod_nonneg, Z.quot_div_nonneg by lia.
  assert (Hr : 0 <= v mod base < base) by (apply Z.mod_pos_bound; lia).
  rewrite (digit_char_ok (v mod base)) by lia. erewrite (bind_ok (opt Fault (Some _))) by reflexivity.
  destruct (Z.ltb_spec v base) as [Hlt|Hge].
  - assert (Ed : digits_fuel (S n) base v = [v]) by (cbn [digits_fuel]; by rewrite (proj2 (Z.ltb_lt _ _))).
    rewrite Ed in *. cbn [length map puts] in *. replace (i + Z.of_nat 1 - 1) with i by lia.
    mrun (assign_ok m buf i (char_of (v mod base)) Hb Hi).
    rewrite Z.div_small, Z.mod_small by lia. done.
  - rewrite digits_fuel_app in * by lia. rewrite length_app in *. cbn [length] in *.
    destruct n as [|n]; [rewrite Z.pow_1_r in Hv; lia|].
    assert (Hv' : 0 <= v / base < base ^ Z.of_nat (S n)).
    { split; [apply Z.div_pos; lia|]. apply Z.div_lt_upper_bound; [lia|].
      rewrite <- Z.pow_succ_r by lia. rewrite <- Nat2Z.inj_succ. lia. }
    pose proof (digits_fuel_nonempty (S n) base (v / base) ltac:(lia)) as Hpos.
    assert (0 < v / base) by (apply Z.div_str_pos; lia).
    set (ds := digits_fuel (S n) base (v / base)) in *.
    replace (i + Z.of_nat (length ds + 1) - 1) with (i + len ds) by lia.
    mrun (assign_ok m buf (i + len ds) (char_of (v mod base)) Hb ltac:(lia)).
    rewrite (proj2 (truthy_true _)) by lia. rewrite u32_id by lia. unfold ds in *.
    rewrite IH by (done || lia || by apply buf_ok_put).
    rewrite map_app, puts_app, length_map. cbn [map puts]. rewrite puts_put; [done|].
    rewrite length_map. lia.
Qed.

(** ** The conversions *)
Lemma pad_char_eq ph : pad_char ph = if truthy (Z.land (ph_flags ph) PLACEHOLDER_FLAG_ZERO) then 48 else 32.
Proof. reflexivity. Qed.

(** A padded number, for the two unsigned conversions. *)
Lemma format_number_ok base m buf i v w c : 2 <= base <= 16 -> is_u32 v -> buf_ok m buf -> 0 <= i ->
  i + len (fill w c (text_of base v)) < 2 ^ 32 ->
  (let* width := opt Fuel (width_loop 32 base v 0) in
   let* index := (if width <? w then pad_loop (Z.to_nat (w - width)) i buf c else ret i) in
   do* digits_loop 32 base buf (u32 (index + (width - 1))) v in
   ret (u32 (index + width))) m =
  Ok (i + len (fill w c (text_of base v)), puts m buf i (fill w c (text_of base v))).
Proof.
  intros Hbase Hv Hb Hi Hl. unfold fill, text_of in *. rewrite length_app, length_replicate, length_map in *.
  pose proof (pow_mono_word base ltac:(lia)) as Hpow. unfold is_u32 in Hv.
  pose proof (digits_fuel_nonempty 32 base v ltac:(lia)) as Hpos.
  rewrite (width_loop_ok base 32) by lia. rewrite Z.abs_eq, Z.add_0_l by lia. fold (digits base v) in *.
  erewrite (bind_ok (opt Fuel (Some _))) by reflexivity.
  mrun (pad_ok m buf i c w (len (digits base v)) Hb Hi ltac:(lia) ltac:(lia)).
  set (j := i + Z.of_nat (Z.to_nat (w - len (digits base v)))).
  rewrite (u32_id (j + _)) by lia. rewrite Z.add_sub_assoc.
  mrun (digits_loop_ok base buf 32 Hbase (puts m buf i (replicate (Z.to_nat (w - len (digits base v))) c)) j v
          (buf_ok_puts _ _ _ _ Hb) ltac:(lia) ltac:(lia) ltac:(lia) ltac:(unfold digits in *; lia)).
  unfold ret. rewrite (u32_id (j + _)) by lia. fold (digits base v). rewrite puts_app, length_replicate.
  fold j. do 2 f_equal. lia.
Qed.

(** The digits at the end of a conversion. *)
Lemma digits_end m buf j v n : buf_ok m buf -> 0 <= j -> 0 <= v < 2 ^ 32 -> len (text_of 10 v) = n ->
  j + n < 2 ^ 32 ->
  (do* digits_loop 32 10 buf (u32 (j + (n - 1))) v in ret (u32 (j + n))) m =
  Ok (j + n, puts m buf j (text_of 10 v)).
Proof.
  intros Hb Hj Hv <- Hl. unfold text_of in *. rewrite length_map in *.
  pose proof (digits_fuel_nonempty 32 10 v ltac:(lia)) as Hpos. fold (digits 10 v) in Hpos.
  rewrite (u32_id (j + (_ - 1))) by lia. rewrite Z.add_sub_assoc.
  mrun (digits_loop_ok 10 buf 32 ltac:(lia) m j v Hb Hj ltac:(lia) ltac:(lia) ltac:(unfold digits in *; lia)).
  unfold ret. rewrite (u32_id (j + _)) by lia. done.
Qed.

Lemma format_signed_ok m buf i ph v (zero : bool) :
  - 2 ^ 31 < v < 2 ^ 31 -> buf_ok m buf -> 0 <= i ->
  truthy (Z.land (ph_flags ph) PLACEHOLDER_FLAG_ZERO) = zero ->
  i + len (render_int zero (ph_width ph) v) < 2 ^ 32 ->
  format_signed_dec i buf ph v m =
    Ok (i + len (render_int zero (ph_width ph) v), puts m buf i (render_int zero (ph_width ph) v)).
Proof.
  intros Hv Hb Hi Hz Hl. set (w := ph_width ph) in *. unfold format_signed_dec, compute_signed_dec_width.
  fold w. rewrite Hz, (width_loop_ok 10 32) by (change (10 ^ Z.of_nat 32) with (10 ^ 32); lia).
  fold (digits 10 (Z.abs v)). set (n := len (digits 10 (Z.abs v))).
  erewrite (bind_ok (opt Fuel (Some _))) by reflexivity. cbv zeta.
  unfold render_int in *. destruct (Z.ltb_spec v 0) as [Hneg|Hpos].
  - replace (s32 (v * -1)) with (- v) by (rewrite s32_small; unfold is_s32; lia).
    assert (Ht : len (text_of 10 (- v)) = n).
    { unfold text_of, n. rewrite length_map. by replace (Z.abs v) with (- v) by lia. }
    replace (1 + n - 1) with n by lia. destruct zero.
    + cbn [length] in Hl. unfold fill in *. rewrite length_app, length_replicate, Ht in Hl.
      rewrite (bind_ok _ _ m (i + 1 + Z.of_nat (Z.to_nat (w - (1 + n))))
        (puts m buf i (45 :: replicate (Z.to_nat (w - (1 + n))) 48))).
      2: { erewrite (bind_ok (let* _ := _ in _)).
           2: { mrun (assign_ok m buf i 45 Hb Hi). rewrite u32_id by lia. reflexivity. }
           cbn [puts]. apply pad_ok; [by apply buf_ok_put|lia|lia|lia]. }
      rewrite digits_end by (done || lia || by apply buf_ok_puts).
      cbn [length]. rewrite length_app, length_replicate, Ht.
      replace (w - 1 - n) with (w - (1 + n)) by lia.
      rewrite app_comm_cons, puts_app. cbn [length]. rewrite length_replicate. f_equal. f_equal; [lia|]. f_equal. lia.
    + unfold fill in *. rewrite length_app, length_replicate in Hl. cbn [length] in *. rewrite Nat2Z.inj_succ, Ht in *.
      rewrite (bind_ok _ _ m (i + Z.of_nat (Z.to_nat (w - (1 + n))) + 1)
        (puts m buf i (replicate (Z.to_nat (w - (1 + n))) 32 ++ [45]))).
      2: { mrun (pad_ok m buf i 32 w (1 + n) Hb Hi ltac:(lia) ltac:(lia)).
           mrun (assign_ok (puts m buf i (replicate (Z.to_nat (w - (1 + n))) 32)) buf
             (i + Z.of_nat (Z.to_nat (w - (1 + n)))) 45 (buf_ok_puts _ _ _ _ Hb) ltac:(lia)).
           unfold ret. rewrite u32_id by lia. rewrite puts_app, length_replicate. done. }
      rewrite digits_end by (done || lia || by apply buf_ok_puts).
      rewrite length_app, length_replicate. cbn [length].
      replace (Z.succ n) with (1 + n) by lia.
      replace (replicate (Z.to_nat (w - (1 + n))) 32 ++ 45 :: text_of 10 (- v))
        with ((replicate (Z.to_nat (w - (1 + n))) 32 ++ [45]) ++ text_of 10 (- v)) by (by rewrite <- app_assoc).
      rewrite (puts_app buf (_ ++ [45])). rewrite length_app, length_replicate. cbn [length].
      f_equal. f_equal; [lia|]. f_equal. lia.
  - rewrite Z.add_0_l. assert (Ht : len (text_of 10 v) = n).
    { unfold text_of, n. rewrite length_map. by replace (Z.abs v) with v by lia. }
    unfold fill in *. rewrite length_app, length_replicate, Ht in Hl.
    rewrite (bind_ok _ _ m (i + Z.of_nat (Z.to_nat (w - n)))
      (puts m buf i (replicate (Z.to_nat (w - n)) (if zero then 48 else 32)))).
    2: { destruct zero.
         - erewrite (bind_ok (ret i)) by reflexivity. apply pad_ok; [done|lia|lia|lia].
         - mrun (pad_ok m buf i 32 w n Hb Hi ltac:(lia) ltac:(lia)). done. }
    rewrite digits_end by (done || lia || by apply buf_ok_puts).
    rewrite length_app, length_replicate, Ht, puts_app, length_replicate. f_equal. f_equal. lia.
Qed.

(** ** The steps *)
Section Steps.
Context (strings : Z -> option (list Z)).

Definition strings_ok m buf : Prop := forall s l, strings s = Some l ->
  cstr m s l /\ apart (b_data buf) (b_size buf) s (len l + 1) /\ len l < 2 ^ 31.

Lemma strings_ok_puts m buf i l : 0 <= i -> strings_ok m buf -> strings_ok (puts m buf i l) buf.
Proof.
  intros Hi H s t Hs. destruct (H s t Hs) as (Hc & Ha & Hl). split_and!; [by apply cstr_puts|done|done].
Qed.

Lemma copy_loop_ok buf l : forall m i s, buf_ok m buf -> 0 <= i -> cstr m s l ->
  apart (b_data buf) (b_size buf) s (len l + 1) -> i + len l < 2 ^ 32 ->
  copy_loop (length l) i buf s m = Ok (i + len l, puts m buf i l).
Proof.
  induction l as [|c l IH]; intros m i s Hb Hi Hc Ha Hl; cbn [copy_loop puts length cstr] in *; [by rewrite Z.add_0_r|].
  destruct Hc as (Hx & Hr & Hc). mrun (load_ok _ _ _ Hx). mrun (assign_ok m buf i c Hb Hi). rewrite u32_id by lia.
  rewrite IH; [do 2 f_equal; lia|by apply buf_ok_put|lia| |unfold apart in *; lia|lia].
  eapply cstr_agree; [|exact Hc]. intros a Hra. apply put_out; [lia|]. unfold apart in Ha. lia.
Qed.

(** The placeholder of a directive. *)
Definition holder (zero : bool) (w : Z) : placeholder := Placeholder w (if zero then 1 else 0).

Lemma holder_zero zero w : truthy (Z.land (ph_flags (holder zero w)) PLACEHOLDER_FLAG_ZERO) = zero.
Proof. by destruct zero. Qed.

(** What a step must do for what the reference renders. *)
Definition step_post m buf i (r : rendered) (out : res (fmt_next * memory)) : Prop :=
  match r with
  | Text t ap => i + len t < 2 ^ 31 ->
      out = Ok (FmtNext FMT_STRING no_placeholder (i + len t) ap, puts m buf i t)
  | Refused _ => out = Ok (FmtEof, m)
  | Undefined => True
  end.

Lemma fill_length w c l : len (fill w c l) = Z.max w (len l).
Proof. unfold fill. rewrite length_app, length_replicate. lia. Qed.

Lemma step_type_ok m buf i zero w ap ty :
  buf_ok m buf -> strings_ok m buf -> Forall is_u32 ap -> 0 <= i -> 0 <= w < 2 ^ 31 ->
  step_post m buf i (render_conv strings zero w ty ap) (step_type buf (holder zero w) i ap ty m).
Proof.
  intros Hb Hs Hap Hi Hw. unfold step_post, render_conv, step_type. rewrite holder_zero.
  change (ph_width (holder zero w)) with w.
  destruct (Z.eqb_spec ty 37) as [->|H37].
  { replace (truthy (ph_flags (holder zero w))) with zero by (by destruct zero).
    destruct zero; [done|]. destruct (truthy w) eqn:Ew; [done|]. cbn [orb]. intros Hl. cbn [length] in *.
    mrun (assign_ok m buf i 37 Hb Hi). unfold ret. rewrite u32_id by lia.
    apply truthy_false in Ew. by subst w. }
  destruct (Z.eqb_spec ty 99) as [->|H99]; cbn [orb].
  { destruct zero; [done|]. destruct ap as [|v ap]; [done|]. cbn [Z.eqb Pos.eqb head tail]. intros Hl.
    rewrite fill_length in *. cbn [length] in *.
    mrun (pad_ok m buf i 32 w 1 Hb Hi ltac:(lia) ltac:(lia)).
    erewrite (bind_ok (opt Fault (Some v))) by reflexivity.
    mrun (assign_ok (puts m buf i (replicate (Z.to_nat (w - 1)) 32)) buf (i + Z.of_nat (Z.to_nat (w - 1))) (u8 v)
      (buf_ok_puts _ _ _ _ Hb) ltac:(lia)).
    unfold ret. rewrite u32_id by lia. unfold fill. cbn [length]. rewrite puts_app, length_replicate. cbn [puts].
    do 3 f_equal. lia. }
  destruct (Z.eqb_spec ty 115) as [->|H115].
  { destruct zero; [done|]. destruct ap as [|s ap]; [done|]. cbn [Z.eqb Pos.eqb head tail].
    destruct (strings s) as [l|] eqn:Es; [|done]. destruct (Hs s l Es) as (Hc & Ha & Hll). intros Hl.
    rewrite fill_length in *. erewrite (bind_ok (opt Fault (Some s))) by reflexivity.
    mrun (strlen_ok m s l Hc ltac:(lia)). rewrite s32_small by (unfold is_s32; lia).
    mrun (pad_ok m buf i 32 w (len l) Hb Hi ltac:(lia) ltac:(lia)). rewrite Nat2Z.id.
    mrun (copy_loop_ok buf l (puts m buf i (replicate (Z.to_nat (w - len l)) 32))
      (i + Z.of_nat (Z.to_nat (w - len l))) s (buf_ok_puts _ _ _ _ Hb) ltac:(lia)
      (cstr_puts _ _ _ _ _ _ Hi Ha Hc) Ha ltac:(lia)).
    unfold ret, fill. rewrite puts_app, length_replicate. f_equal. f_equal. f_equal. lia. }
  destruct (Z.eqb_spec ty 120) as [->|H120]; cbn [orb].
  { destruct (zero && (w =? 0)); [done|]. destruct ap as [|v ap]; [done|]. cbn [Z.eqb Pos.eqb head tail].
    apply Forall_cons in Hap as [Hv _]. intros Hl. erewrite (bind_ok (opt Fault (Some v))) by reflexivity.
    unfold format_hex, compute_hex_width. rewrite pad_char_eq, holder_zero. change (ph_width (holder zero w)) with w.
    rewrite (bind_ok _ _ _ _ _ (format_number_ok 16 m buf i v w (if zero then 48 else 32) ltac:(lia) Hv Hb Hi ltac:(lia))).
    done. }
  destruct (Z.eqb_spec ty 100) as [->|H100]; cbn [orb].
  { destruct (zero && (w =? 0)); [done|]. destruct ap as [|v ap]; [done|]. cbn [Z.eqb Pos.eqb head tail].
    destruct (Z.eqb_spec (s32 v) (- 2 ^ 31)) as [|Hmin]; [done|]. intros Hl.
    erewrite (bind_ok (opt Fault (Some v))) by reflexivity.
    assert (Hv : - 2 ^ 31 < s32 v < 2 ^ 31).
    { unfold s32 in *. pose proof (Z.mod_pos_bound (v + 2 ^ 31) (2 ^ 32) ltac:(lia)). lia. }
    rewrite (bind_ok _ _ _ _ _ (format_signed_ok m buf i (holder zero w) (s32 v) zero Hv Hb Hi (holder_zero zero w) ltac:(simpl ph_width; lia))).
    done. }
  destruct (Z.eqb_spec ty 117) as [->|H117]; [|done].
  destruct (zero && (w =? 0)); [done|]. destruct ap as [|v ap]; [done|]. cbn [Z.eqb Pos.eqb head tail].
  apply Forall_cons in Hap as [Hv _]. intros Hl. erewrite (bind_ok (opt Fault (Some v))) by reflexivity.
  unfold format_unsigned_dec, compute_unsigned_dec_width. rewrite pad_char_eq, holder_zero.
  change (ph_width (holder zero w)) with w.
  rewrite (bind_ok _ _ _ _ _ (format_number_ok 10 m buf i v w (if zero then 48 else 32) ltac:(lia) Hv Hb Hi ltac:(lia))).
  done.
Qed.

(** ** The loop *)
Definition next_step (fuel : nat) buf (p : Z) (r : fmt_next) : M memory (option (fmt_state * Z)) :=
  match r with
  | FmtNext st ph index ap => format_loop fuel buf p st ph index ap
  | FmtEof => ret None
  end.

Lemma format_loop_cons m fuel buf p c st ph i ap :
  m !! p = Some c -> 0 < c < 256 ->
  format_loop (S fuel) buf p st ph i ap m =
    (let* r := step_char buf st ph i ap c in next_step fuel buf (p + 1) r) m.
Proof. intros Hp Hc. cbn [format_loop]. mrun (load_ok _ _ _ Hp). by rewrite char_truthy. Qed.

Lemma format_loop_end m fuel buf p st ph i ap :
  m !! p = Some 0 -> format_loop (S fuel) buf p st ph i ap m = Ok (Some (st, i), m).
Proof. intros Hp. cbn [format_loop]. by mrun (load_ok _ _ _ Hp). Qed.

Lemma split_width_ge l : forall acc w r, 0 <= acc -> split_width acc l = (w, r) -> acc <= w.
Proof.
  induction l as [|c l IH]; intros acc w r Ha; cbn [split_width]; [by intros [= <- _]|].
  destruct (is_digit c) eqn:Hd; [|by intros [= <- _]]. intros H.
  unfold is_digit in Hd. zbool. specialize (IH (acc * 10 + (c - 48)) w r ltac:(lia) H). lia.
Qed.

(** The digits of a width, up to the character of the conversion. *)
Lemma width_phase m buf i ap zero l : forall fuel p w st w' l2,
  cstr m p l -> (length l < fuel)%nat -> 0 <= w -> split_width w l = (w', l2) -> w' < 2 ^ 31 ->
  (st = FMT_WIDTH /\ 0 < w) \/ (st = FMT_FLAG /\ w = 0 /\ head l <> Some 48) ->
  match l2 with
  | [] => exists st', st' <> FMT_STRING /\
      format_loop fuel buf p st (holder zero w) i ap m = Ok (Some (st', i), m)
  | ty :: l3 => exists fuel' q, (length l3 < fuel')%nat /\ cstr m q l3 /\ p < q /\ q + len l3 = p + len l /\
      format_loop fuel buf p st (holder zero w) i ap m =
        (let* r := step_type buf (holder zero w') i ap ty in next_step fuel' buf q r) m
  end.
Proof.
  induction l as [|c l IH]; intros fuel p w st w' l2 Hc Hf Hw Hs Hw' Hst;
    (destruct fuel as [|fuel]; [simpl in Hf; lia|]); cbn [split_width cstr length] in *.
  - injection Hs as <- <-. exists st. split; [destruct Hst as [[-> _]|[-> _]]; done|]. by apply format_loop_end.
  - destruct Hc as (Hx & Hr & Hc). rewrite (format_loop_cons _ _ _ _ _ _ _ _ _ Hx Hr).
    assert (Hstep : step_char buf st (holder zero w) i ap c = step_width buf (holder zero w) i ap c).
    { destruct Hst as [[-> _]|(-> & _ & Hh)]; [done|]. cbn [step_char head] in *.
      by rewrite (proj2 (Z.eqb_neq c 48)) by congruence. }
    rewrite Hstep. unfold step_width. destruct (is_digit c) eqn:Hd.
    + assert (Hacc : 0 <= w * 10 + (c - 48)) by (unfold is_digit in Hd; zbool; lia).
      pose proof (split_width_ge _ _ _ _ Hacc Hs) as Hge.
      assert (Hpos : 0 < w * 10 + (c - 48)).
      { unfold is_digit in Hd. zbool. destruct Hst as [[_ Hw0]|(_ & -> & Hh)]; [lia|].
        assert (c <> 48) by (intros ->; done). lia. }
      cbn [ph_width ph_flags holder]. rewrite s32_small by (unfold is_s32; lia).
      rewrite (proj2 (Z.eqb_neq (w * 10 + (c - 48)) 0)) by lia.
      erewrite (bind_ok (ret _)) by reflexivity. cbn [next_step].
      specialize (IH fuel (p + 1) (w * 10 + (c - 48)) FMT_WIDTH w' l2 Hc ltac:(lia) ltac:(lia) Hs Hw' (or_introl (conj eq_refl Hpos))).
      destruct l2 as [|ty l3]; [exact IH|]. destruct IH as (f & q & H1 & H2 & H3 & H4 & H5).
      exists f, q. split_and!; [done|done|lia|lia|exact H5].
    + injection Hs as <- <-. exists fuel, (p + 1). split_and!; [lia|done|lia|lia|done].
Qed.

(** What the loop must return for what the reference renders. *)
Definition loop_post m buf i (r : rendered) (out : res (option (fmt_state * Z) * memory)) : Prop :=
  match r with
  | Text t _ => i + len t < 2 ^ 31 -> out = Ok (Some (FMT_STRING, i + len t), puts m buf i t)
  | Refused n => i + Z.of_nat n < 2 ^ 31 ->
      exists o m', out = Ok (o, m') /\ (forall j, o <> Some (FMT_STRING, j)) /\
        forall a, a < b_data buf \/ b_data buf + b_size buf <= a -> m' !! a = m !! a
  | Undefined => True
  end.

Lemma loop_post_after m buf i t r out : 0 <= i ->
  loop_post (puts m buf i t) buf (i + len t) r out -> loop_post m buf i (after t r) out.
Proof.
  intros Hi. destruct r as [l ap|n|]; cbn [loop_post after]; [| |done].
  - intros H Hl. rewrite length_app, Nat2Z.inj_add in *. rewrite H by lia. rewrite puts_app. by rewrite Z.add_assoc.
  - intros H Hn. destruct (H ltac:(lia)) as (o & m' & E & Ho & Hm). exists o, m'. split_and!; [done|done|].
    intros a Ha. rewrite (Hm a Ha). by apply puts_out.
Qed.

(** One directive. *)
Definition directive_post m buf i (p : Z) (l l3 : list Z) (r : rendered)
    (out : res (option (fmt_state * Z) * memory)) : Prop :=
  match r with
  | Text t ap => i + len t < 2 ^ 31 -> exists fuel q, (length l3 < fuel)%nat /\ cstr m q l3 /\
      p < q /\ q + len l3 = p + len l /\ (length l3 < length l)%nat /\
      out = format_loop fuel buf q FMT_STRING no_placeholder (i + len t) ap (puts m buf i t)
  | Refused _ => exists o, out = Ok (o, m) /\ forall j, o <> Some (FMT_STRING, j)
  | Undefined => True
  end.

Lemma directive_end m buf i ap zero l fuel p :
  buf_ok m buf -> strings_ok m buf -> Forall is_u32 ap -> 0 <= i ->
  cstr m p l -> (length l < fuel)%nat -> starts_zero l = false ->
  let '(width, l2) := split_width 0 l in
  match l2 with
  | [] => directive_post m buf i p l [] (if width <? 2 ^ 31 then Refused 0 else Undefined)
            (format_loop fuel buf p FMT_FLAG (holder zero 0) i ap m)
  | ty :: l3 => directive_post m buf i p l l3
            (if width <? 2 ^ 31 then render_conv strings zero width ty ap else Undefined)
            (format_loop fuel buf p FMT_FLAG (holder zero 0) i ap m)
  end.
Proof.
  intros Hb Hs Hap Hi Hc Hf Hz. destruct (split_width 0 l) as [w l2] eqn:Hsw.
  pose proof (split_width_ge _ _ _ _ (Z.le_refl 0) Hsw) as Hw.
  assert (Hh : head l <> Some 48).
  { destruct l as [|c l]; [done|]. cbn [starts_zero head] in *. intros [= ->]. discriminate. }
  destruct (Z.ltb_spec w (2 ^ 31)) as [Hlt|]; [|by destruct l2].
  pose proof (width_phase m buf i ap zero l fuel p 0 FMT_FLAG w l2 Hc Hf (Z.le_refl 0) Hsw Hlt
    (or_intror (conj eq_refl (conj eq_refl Hh)))) as Hph.
  destruct l2 as [|ty l3].
  { destruct Hph as (st' & Hne & ->). cbn [directive_post]. eexists. split; [done|]. intros j [= -> _]. done. }
  destruct Hph as (f & q & Hq1 & Hq2 & Hq3 & Hq4 & ->).
  pose proof (step_type_ok m buf i zero w ap ty Hb Hs Hap Hi (conj Hw Hlt)) as Hst.
  destruct (render_conv strings zero w ty ap) as [t ap'|n|]; cbn [directive_post step_post] in *; [| |done].
  - intros Hl. exists f, q. split_and!; [done|done|done|done|lia|]. by mrun (Hst Hl).
  - mrun Hst. exists None. done.
Qed.

Lemma directive_ok m buf i ap l fuel p :
  buf_ok m buf -> strings_ok m buf -> Forall is_u32 ap -> 0 <= i ->
  cstr m p l -> (length l < fuel)%nat ->
  let '(r, l3) := render_directive strings l ap in
  directive_post m buf i p l l3 r (format_loop fuel buf p FMT_FLAG no_placeholder i ap m).
Proof.
  intros Hb Hs Hap Hi Hc Hf. unfold render_directive. destruct (starts_zero l) eqn:Hz.
  2: { rewrite Hz. pose proof (directive_end m buf i ap false l fuel p Hb Hs Hap Hi Hc Hf Hz) as H.
       destruct (split_width 0 l) as [w [|ty l3]]; exact H. }
  destruct l as [|c l]; [done|]. cbn [starts_zero] in Hz. apply Z.eqb_eq in Hz as ->. cbn [tail].
  destruct Hc as (Hx & Hr & Hc). destruct fuel as [|fuel]; [cbn [length] in Hf; lia|].
  rewrite (format_loop_cons _ _ _ _ _ _ _ _ _ Hx Hr).
  change (step_char buf FMT_FLAG no_placeholder i ap 48) with (@ret memory _ (FmtNext FMT_FLAG (holder true 0) i ap)).
  erewrite (bind_ok (ret _)) by reflexivity. cbn [next_step]. cbn [length] in Hf.
  destruct (starts_zero l) eqn:Hz.
  - destruct l as [|c l]; [done|]. cbn [starts_zero] in Hz. apply Z.eqb_eq in Hz as ->.
    destruct Hc as (Hy & Hry & _). destruct fuel as [|fuel]; [cbn [length] in Hf; lia|].
    rewrite (format_loop_cons _ _ _ _ _ _ _ _ _ Hy Hry).
    change (step_char buf FMT_FLAG (holder true 0) i ap 48) with (@ret memory _ FmtEof).
    cbn [directive_post]. exists None. done.
  - pose proof (directive_end m buf i ap true l fuel (p + 1) Hb Hs Hap Hi Hc ltac:(lia) Hz) as H.
    destruct (split_width 0 l) as [w [|ty l3]]; [by destruct (w <? 2 ^ 31)|].
    destruct (if w <? 2 ^ 31 then _ else _) as [t ap'|n|]; cbn [directive_post] in *; [|done|done].
    intros Hl. destruct (H Hl) as (f & q & H1 & H2 & H3 & H4 & H5 & H6). cbn [length].
    exists f, q. split_and!; [done|done|lia|lia|lia|done].
Qed.

(** The arguments left are words too. *)
Lemma render_conv_args zero w ty ap t ap' :
  Forall is_u32 ap -> render_conv strings zero w ty ap = Text t ap' -> Forall is_u32 ap'.
Proof.
  intros Hap. unfold render_conv.
  repeat case_match; intros; simplify_eq; try done; by apply Forall_cons in Hap as [_ ?].
Qed.

Lemma render_directive_args l ap t ap' l3 :
  Forall is_u32 ap -> render_directive strings l ap = (Text t ap', l3) -> Forall is_u32 ap'.
Proof.
  intros Hap. unfold render_directive. destruct (starts_zero (if starts_zero l then tail l else l)); [done|].
  destruct (split_width _ _) as [w [|ty r]]; destruct (w <? 2 ^ 31); try done.
  intros [= H _]. by eapply render_conv_args.
Qed.

Lemma loop_ok buf rf : forall l fuel p m i ap,
  (length l < rf)%nat -> (length l < fuel)%nat -> cstr m p l ->
  apart (b_data buf) (b_size buf) p (len l + 1) -> buf_ok m buf -> strings_ok m buf ->
  Forall is_u32 ap -> 0 <= i ->
  loop_post m buf i (render strings rf l ap) (format_loop fuel buf p FMT_STRING no_placeholder i ap m).
Proof.
  induction rf as [|rf IH]; intros l fuel p m i ap Hrf Hf Hc Ha Hb Hs Hap Hi; [lia|].
  destruct fuel as [|fuel]; [lia|]. destruct l as [|c l]; cbn [render cstr length] in *.
  { cbn [loop_post length puts]. intros _. rewrite Z.add_0_r. by apply format_loop_end. }
  destruct Hc as (Hx & Hr & Hc). rewrite (format_loop_cons _ _ _ _ _ _ _ _ _ Hx Hr). cbn [step_char].
  destruct (c =? 37).
  - erewrite (bind_ok (ret _)) by reflexivity. cbn [next_step].
    pose proof (directive_ok m buf i ap l fuel (p + 1) Hb Hs Hap Hi Hc ltac:(lia)) as Hd.
    destruct (render_directive strings l ap) as [r l3] eqn:Er.
    destruct r as [t ap'|n|]; cbn [directive_post] in Hd.
    + assert (Htail : forall fuel' q, (length l3 < fuel')%nat -> cstr m q l3 -> p + 1 < q ->
        q + len l3 = p + 1 + len l -> (length l3 < length l)%nat -> i + len t < 2 ^ 31 ->
        loop_post m buf i (after t (render strings rf l3 ap'))
          (format_loop fuel' buf q FMT_STRING no_placeholder (i + len t) ap' (puts m buf i t))).
      { intros fuel' q H1 H2 H3 H4 H5 Hl. apply loop_post_after; [done|].
        assert (Haq : apart (b_data buf) (b_size buf) q (len l3 + 1)) by (unfold apart in *; lia).
        apply IH; [lia|lia|by apply cstr_puts|done|by apply buf_ok_puts|by apply strings_ok_puts| |lia].
        by eapply render_directive_args. }
      destruct (decide (i + len t < 2 ^ 31)) as [Hl|Hl].
      * destruct (Hd Hl) as (f & q & H1 & H2 & H3 & H4 & H5 & ->). by apply Htail.
      * destruct (render strings rf l3 ap') as [t' ap''|n|]; cbn [after loop_post]; [| |done].
        -- rewrite length_app. lia.
        -- lia.
    + destruct Hd as (o & -> & Ho). cbn [loop_post]. intros _. exists o, m. done.
    + done.
  - destruct (decide (i + 1 < 2 ^ 31)) as [Hl|Hl].
    + erewrite bind_ok by (rewrite (bind_ok _ _ _ _ _ (assign_ok m buf i c Hb Hi)); reflexivity). cbn [next_step]. rewrite u32_id by lia.
      apply (loop_post_after m buf i [c]); [done|]. cbn [length puts]. change (Z.of_nat 1) with 1.
      apply IH; [lia|lia| |unfold apart in *; lia|by apply buf_ok_put| |done|lia].
      * change (put m buf i c) with (puts m buf i [c]). apply cstr_puts; [done| |done]. unfold apart in *. lia.
      * change (put m buf i c) with (puts m buf i [c]). by apply strings_ok_puts.
    + destruct (render strings rf l ap) as [t' ap''|n|]; cbn [after loop_post length app]; [lia|lia|done].
Qed.

(** [vsnprintf], from the loop. *)
Definition vsnprintf_post m (str size : Z) (r : rendered) (out : res (Z * memory)) : Prop :=
  match r with
  | Text t _ => len t < 2 ^ 31 -> Forall (fun c => 0 <= c < 256) t ->
      out = Ok (len t, if size =? 0 then m
                       else write_at m str (take (Z.to_nat (size - 1)) t ++ [0]))
  | Refused n => Z.of_nat n < 2 ^ 31 -> exists m', out = Ok (EOF, m') /\
      forall a, a < str \/ str + size <= a -> m' !! a = m !! a
  | Undefined => True
  end.

(** The terminating 0. *)
Lemma terminate_ok m str size t :
  0 <= size <= INT_MAX -> mapped m str size -> Forall (fun c => 0 <= c < 256) t ->
  (let* ok := assign (Buffer str size) (len t) 0 in
   (if ok then ret true else assign (Buffer str size) (u32 (size - 1)) 0)) (puts m (Buffer str size) 0 t) =
  Ok ((len t <? size) || (u32 (size - 1) <? size),
      if size =? 0 then m else write_at m str (take (Z.to_nat (size - 1)) t ++ [0])).
Proof.
  intros Hsz Hm Ht. set (buf := Buffer str size). assert (Hb : buf_ok m buf) by done.
  mrun (assign_ok (puts m buf 0 t) buf (len t) 0 (buf_ok_puts _ _ _ _ Hb) ltac:(lia)).
  change (b_size buf) with size.
  assert (Hw : puts m buf 0 t = write_at m str (take (Z.to_nat size) t)).
  { rewrite puts_write by (done || lia). change (b_data buf) with str. change (b_size buf) with size.
    by rewrite Z.add_0_r, Z.sub_0_r. }
  unfold put at 1. change (b_size buf) with size. destruct (Z.ltb_spec (len t) size) as [Hlt|Hge].
  - rewrite (proj2 (Z.eqb_neq size 0)) by lia. unfold ret. cbn [orb]. rewrite Hw, !take_ge by lia.
    change (u8 0) with 0. change (b_data buf) with str. by rewrite write_at_app.
  - rewrite assign_ok by (apply buf_ok_puts || apply u32_range; done). change (b_size buf) with size. cbn [orb].
    f_equal. f_equal. unfold put. change (b_size buf) with size. rewrite Hw.
    destruct (Z.eqb_spec size 0) as [->|Hne]; [done|].
    rewrite u32_id by (unfold INT_MAX in *; lia). rewrite (proj2 (Z.ltb_lt (size - 1) size)) by lia.
    change (b_data buf) with str. change (u8 0) with 0.
    replace (Z.to_nat size) with (S (Z.to_nat (size - 1))) by lia.
    destruct (lookup_lt_is_Some_2 t (Z.to_nat (size - 1))) as [c Hc]; [lia|].
    rewrite (take_S_r _ _ _ Hc), !write_at_app. cbn [write_at]. rewrite length_take_le by lia.
    rewrite Z2Nat.id by lia. by rewrite insert_insert_eq.
Qed.

Lemma vsnprintf_ok m str size format fmt ap :
  0 <= size <= INT_MAX -> mapped m str size -> cstr m format fmt ->
  apart str size format (len fmt + 1) -> strings_ok m (Buffer str size) -> Forall is_u32 ap ->
  vsnprintf_post m str size (render strings (S (length fmt)) fmt ap) (vsnprintf str size format ap m).
Proof.
  intros Hsz Hm Hc Ha Hs Hap. unfold vsnprintf. rewrite (proj2 (Z.ltb_ge INT_MAX size)) by lia.
  unfold bound. erewrite (bind_ok (gets _)) by reflexivity.
  pose proof (loop_ok (Buffer str size) (S (length fmt)) fmt (S (base.size m)) format m 0 ap
    ltac:(lia) (cstr_size _ _ _ Hc) Hc Ha Hm Hs Hap ltac:(lia)) as Hl.
  destruct (render strings (S (length fmt)) fmt ap) as [t ap'|n|]; cbn [loop_post vsnprintf_post] in *; [| |done].
  - intros Ht Hf. specialize (Hl ltac:(lia)). rewrite Z.add_0_l in Hl. mrun Hl.
    pose proof (terminate_ok m str size t Hsz Hm Hf) as Hterm. apply bind_inv in Hterm as (ok & m1 & E1 & E2).
    mrun E1. mrun E2. unfold ret. rewrite (u32_id (len t + 1)) by lia.
    rewrite Z.add_simpl_r, s32_small by (unfold is_s32; lia). done.
  - intros Hn. destruct (Hl ltac:(lia)) as (o & m' & E & Ho & Hout). mrun E. exists m'. split; [|done].
    destruct o as [[[] j]|]; try done. by destruct (Ho j).
Qed.
(** The text of a directive is made of bytes. *)
Definition byte_list l : Prop := Forall (fun c => 0 <= c < 256) l.

Lemma text_of_bytes base v : 2 <= base <= 16 -> 0 <= v -> byte_list (text_of base v).
Proof.
  intros Hb Hv. apply Forall_map. eapply Forall_impl; [by apply (digits_fuel_range 32 base v); lia|].
  intros d Hd. unfold char_of. cbn beta in *. destruct (Z.ltb_spec d 10); cbn; lia.
Qed.

Lemma fill_bytes w c l : 0 <= c < 256 -> byte_list l -> byte_list (fill w c l).
Proof. intros Hc Hl. apply Forall_app. split; [by apply Forall_replicate|done]. Qed.

Lemma render_conv_bytes m buf zero w ty ap t ap' : strings_ok m buf -> Forall is_u32 ap ->
  render_conv strings zero w ty ap = Text t ap' -> byte_list t.
Proof.
  intros Hs Hap. unfold render_conv. destruct ap as [|v ap]; [repeat case_match; intros; simplify_eq; apply Forall_singleton; simpl; lia|].
  apply Forall_cons in Hap as [Hv _]. unfold is_u32 in Hv.
  assert (Hz : 0 <= (if zero then 48 else 32) < 256) by (destruct zero; lia).
  destruct (ty =? 37); [destruct (zero || truthy w); [done|]; intros [= <- _]; apply Forall_singleton; lia|].
  destruct ((ty =? 99) || (ty =? 115)).
  - destruct zero; [done|]. destruct (ty =? 99).
    + intros [= <- _]. apply fill_bytes; [lia|]. constructor; [apply (Z.mod_pos_bound v 256); lia|constructor].
    + destruct (strings v) as [l|] eqn:E; [|done]. intros [= <- _]. apply fill_bytes; [lia|].
      destruct (Hs _ _ E) as (Hc & _ & _). eapply Forall_impl; [by eapply cstr_chars|]. intros; simpl in *; lia.
  - destruct (_ || _); [|done]. destruct (zero && _); [done|]. destruct (ty =? 120); [|destruct (ty =? 117)].
    + intros [= <- _]. apply fill_bytes; [done|]. apply text_of_bytes; lia.
    + intros [= <- _]. apply fill_bytes; [done|]. apply text_of_bytes; lia.
    + destruct (s32 v =? _); [done|]. intros [= <- _]. unfold render_int. destruct (Z.ltb_spec (s32 v) 0).
      * assert (byte_list (text_of 10 (- s32 v))) by (apply text_of_bytes; lia).
        destruct zero; [constructor; [lia|]; by apply fill_bytes; [lia|]|].
        apply fill_bytes; [lia|]. constructor; [lia|done].
      * apply fill_bytes; [done|]. apply text_of_bytes; lia.
Qed.

Lemma split_width_suffix l : forall acc w r, split_width acc l = (w, r) -> byte_list l -> byte_list r.
Proof.
  induction l as [|c l IH]; intros acc w r; cbn [split_width]; [by intros [= _ <-]|].
  destruct (is_digit c); [|by intros [= _ <-]]. intros H Hl. apply Forall_cons in Hl as [_ Hl]. by eapply IH.
Qed.

Lemma render_directive_bytes m buf l ap t ap' l3 : strings_ok m buf -> Forall is_u32 ap -> byte_list l ->
  render_directive strings l ap = (Text t ap', l3) -> byte_list t /\ byte_list l3.
Proof.
  intros Hs Hap Hl. unfold render_directive. set (l1 := if starts_zero l then tail l else l).
  assert (Hl1 : byte_list l1) by (subst l1; destruct (starts_zero l); [destruct Hl; [constructor|done]|done]).
  destruct (starts_zero l1); [done|]. destruct (split_width 0 l1) as [w r] eqn:E.
  pose proof (split_width_suffix _ _ _ _ E Hl1) as Hr.
  destruct r as [|ty r]; destruct (w <? 2 ^ 31); try done. intros [= H <-].
  split; [by eapply render_conv_bytes|]. by apply Forall_cons in Hr as [_ ?].
Qed.

Lemma render_bytes m buf fuel : strings_ok m buf -> forall l ap t ap', Forall is_u32 ap -> byte_list l ->
  render strings fuel l ap = Text t ap' -> byte_list t.
Proof.
  intros Hs. induction fuel as [|fuel IH]; intros l ap t ap' Hap Hl; [done|]. cbn [render].
  destruct l as [|c l]; [intros [= <- _]; constructor|]. apply Forall_cons in Hl as [Hc Hl].
  destruct (c =? 37).
  - destruct (render_directive strings l ap) as [[t1 ap1|n|] l3] eqn:E; [|done|done].
    destruct (render_directive_bytes _ _ _ _ _ _ _ Hs Hap Hl E) as [H1 H3].
    pose proof (render_directive_args _ _ _ _ _ Hap E) as Hap1.
    destruct (render strings fuel l3 ap1) as [t2 ap2|n|] eqn:E2; cbn [after]; [|done|done].
    intros [= <- _]. apply Forall_app. split; [done|]. by eapply IH.
  - destruct (render strings fuel l ap) as [t2 ap2|n|] eqn:E2; cbn [after]; [|done|done].
    intros [= <- _]. constructor; [done|]. by eapply IH.
Qed.
End Steps.

(** ** Properties *)

(** C39: [vsnprintf] agrees with the reference formatter, for any format, any
    argument words and any buffer apart from the format and the strings: when
    the reference renders a text of less than 2^31 characters, [vsnprintf]
    returns its length and writes the first [size - 1] characters and a 0 (and
    nothing when [size] is 0); when the reference refuses the format, it returns
    [EOF] and writes nothing outside the buffer.  Reading the digits of a
    rendered number back gives the number. *)
Theorem vsnprintf_correct (strings : Z -> option (list Z)) (m : memory) (str size format : Z) (fmt ap : list Z) :
  0 <= size <= INT_MAX -> mapped m str size -> cstr m format fmt ->
  apart str size format (Z.of_nat (length fmt) + 1) -> strings_ok strings m (Buffer str size) -> Forall is_u32 ap ->
  match render strings (S (length fmt)) fmt ap with
  | Text t _ => Z.of_nat (length t) < 2 ^ 31 ->
      vsnprintf str size format ap m =
        Ok (Z.of_nat (length t),
            if size =? 0 then m else write_at m str (take (Z.to_nat (size - 1)) t ++ [0]))
  | Refused n => Z.of_nat n < 2 ^ 31 -> exists m', vsnprintf str size format ap m = Ok (EOF, m') /\
      forall a, a < str \/ str + size <= a -> m' !! a = m !! a
  | Undefined => True
  end /\
  forall v, In v ap -> value_of 16 (digits 16 v) = v /\ value_of 10 (digits 10 v) = v.
Proof.
  intros Hsz Hm Hc Ha Hs Hap. split.
  - pose proof (vsnprintf_ok strings m str size format fmt ap Hsz Hm Hc Ha Hs Hap) as H.
    destruct (render strings _ fmt ap) as [t ap'|n|] eqn:E; cbn [vsnprintf_post] in H; [|done|done].
    intros Hl. apply H; [done|]. eapply render_bytes; [exact Hs|exact Hap| |exact E].
    eapply Forall_impl; [by eapply cstr_chars|]. intros; simpl in *; lia.
  - intros v Hv. rewrite Forall_forall in Hap.
    split; apply digits_value; try lia; apply Hap; by apply list_elem_of_In.
Qed.

(** A format [%03d:%x] and its room. *)
Definition sample_format : list Z := [37; 48; 51; 100; 58; 37; 120].
Definition sample_fmt_memory : memory :=
  write_at (write_at ∅ 100 (sample_format ++ [0])) 300 (replicate 8 1).

Theorem vsnprintf_correct_witness :
  vsnprintf 300 8 100 [2 ^ 32 - 7; 255] sample_fmt_memory =
    Ok (6, write_at sample_fmt_memory 300 [45; 48; 55; 58; 102; 102; 0]).
Proof.
  apply (vsnprintf_correct (fun _ => None) sample_fmt_memory 300 8 100 sample_format [2 ^ 32 - 7; 255]).
  - unfold INT_MAX. lia.
  - intros a Ha. unfold sample_fmt_memory.
    destruct (lookup_lt_is_Some_2 (replicate 8 1) (Z.to_nat (a - 300))) as [b Hb]; [rewrite length_replicate; lia|].
    exists b. replace a with (300 + Z.of_nat (Z.to_nat (a - 300))) by lia.
    eapply bytes_at_lookup; [apply write_at_bytes|exact Hb].
  - cbn [cstr sample_format]. split_and!; (vm_compute; reflexivity) || lia.
  - right. cbn. lia.
  - intros s l [=].
  - repeat constructor; unfold is_u32; lia.
  - vm_compute. reflexivity.
Defined.

(** The signed conversion of the least [int] negates it, which wraps back to
    it, and then looks up a negative digit: a fault, with any buffer. *)
Theorem format_int_min_faults (m : memory) (str size : Z) (zero : bool) :
  0 <= size <= INT_MAX -> mapped m str size ->
  format_signed_dec 0 (Buffer str size) (holder zero 0) (- 2 ^ 31) m = Err Fault.
Proof.
  intros Hsz Hm. unfold format_signed_dec.
  change (compute_signed_dec_width (- 2 ^ 31)) with (Some 11). unfold opt.
  erewrite (bind_ok (ret 11)) by reflexivity. cbn beta iota.
  change (11 <? ph_width (holder zero 0)) with false. change (- 2 ^ 31 <? 0) with true. cbn iota.
  erewrite bind_ok.
  2: { rewrite holder_zero. destruct zero.
       - erewrite bind_ok by (erewrite bind_ok by (apply assign_ok; [exact Hm|lia]); reflexivity). reflexivity.
       - erewrite (bind_ok (ret 0)) by reflexivity. erewrite bind_ok by (apply assign_ok; [exact Hm|lia]). reflexivity. }
  cbn [digits_loop]. reflexivity.
Qed.

Theorem format_int_min_faults_witness :
  format_signed_dec 0 (Buffer 300 8) (holder false 0) (- 2 ^ 31) sample_memory = Err Fault.
Proof. apply (format_int_min_faults sample_memory 300 8 false); [unfold INT_MAX; lia|exact sample_room]. Defined.
