(* ===== verification/Logger.v ===== *)
(** * logger.c

    Messages of the kernel: formatted into a buffer on the stack, ended by a
    newline and sent through the serial port.  The state is the memory and the
    device; the address of the buffer [str] and of the string literal with the
    newline, and the configured level, are arguments. *)

From stdpp Require Import base numbers list gmap.
From S2P Require Import Prelude CString CStringProofs Format FormatProofs Devices Uart.

#[local] Open Scope Z_scope.
#[local] Open Scope kernel_scope.

Inductive level : Set :=
| LOGGER_LEVEL_DEBUG
| LOGGER_LEVEL_INFO
| LOGGER_LEVEL_WARN
| LOGGER_LEVEL_ERROR
| LOGGER_LEVEL_FATAL.
Definition level_number (l : level) : Z :=
  match l with
  | LOGGER_LEVEL_DEBUG => 0
  | LOGGER_LEVEL_INFO => 1
  | LOGGER_LEVEL_WARN => 2
  | LOGGER_LEVEL_ERROR => 3
  | LOGGER_LEVEL_FATAL => 4
  end.

Record console (D : Type) : Type := Console { cn_memory : memory; cn_device : D }.
Arguments Console {D}.
Arguments cn_memory {D}.
Arguments cn_device {D}.

(** [char str[128]]. *)
Definition MESSAGE_SIZE : Z := 128.

Section Logger.
Context {D : Type} {IO : Mmio D}.
Context (polls : nat) (logger_level : level) (str newline : Z).

Definition in_memory {A} (m : M memory A) : M (console D) A := fun s =>
  match m (cn_memory s) with
  | Ok (a, x) => Ok (a, Console x (cn_device s))
  | Err r => Err r
  end.
Definition on_device {A} (m : M D A) : M (console D) A := fun s =>
  match m (cn_device s) with
  | Ok (a, x) => Ok (a, Console (cn_memory s) x)
  | Err r => Err r
  end.

(** The bytes [uart_write] takes from [data] on. *)
Fixpoint load_bytes (n : nat) (data : Z) : M memory (list Z) :=
  match n with
  | O => ret []
  | S n => let* c := load data in let* l := load_bytes n (data + 1) in ret (c :: l)
  end.

Definition logger_write (lv : level) (format : Z) (ap : list Z) : M (console D) Z :=
  if level_number lv <? level_number logger_level then ret 0
  else
    let* r := in_memory (vsnprintf str (MESSAGE_SIZE - 1) format ap) in
    if r =? EOF then ret (-1)
    else
      let* _ := in_memory (strcat str newline) in
      let* n := in_memory (strlen str) in
      let* data := in_memory (load_bytes (Z.to_nat n) str) in
      on_device (uart_write polls data).

Definition logger_debug (format : Z) (ap : list Z) : M (console D) Z := logger_write LOGGER_LEVEL_DEBUG format ap.
Definition logger_info (format : Z) (ap : list Z) : M (console D) Z := logger_write LOGGER_LEVEL_INFO format ap.
Definition logger_warn (format : Z) (ap : list Z) : M (console D) Z := logger_write LOGGER_LEVEL_WARN format ap.
Definition logger_error (format : Z) (ap : list Z) : M (console D) Z := logger_write LOGGER_LEVEL_ERROR format ap.
Definition logger_fatal (format : Z) (ap : list Z) : M (console D) Z := logger_write LOGGER_LEVEL_FATAL format ap.
End Logger.

(** ** Proofs *)

(** A string in a buffer ends at its first 0. *)
Fixpoint cut_zero (l : list Z) : list Z :=
  match l with
  | [] => []
  | c :: l => if c =? 0 then [] else c :: cut_zero l
  end.

(** The line that is sent for a text. *)
Definition message (t : list Z) : list Z := cut_zero (take (Z.to_nat (MESSAGE_SIZE - 2)) t) ++ [10].

Lemma cut_zero_le l : (length (cut_zero l) <= length l)%nat.
Proof. induction l as [|c l IH]; cbn; [done|]. destruct (c =? 0); cbn; lia. Qed.

Lemma buffer_cstr m l : forall p, Forall (fun c => 0 <= c < 256) l -> bytes_at m p (l ++ [0]) -> cstr m p (cut_zero l).
Proof.
  induction l as [|c l IH]; intros p Hl; [intros H; apply H|]. apply Forall_cons in Hl as [Hc Hl].
  cbn [app bytes_at cut_zero]. intros [H1 H2]. destruct (Z.eqb_spec c 0) as [->|Hn]; [done|].
  cbn [cstr]. split_and!; [done|lia|lia|by apply IH].
Qed.

Lemma mapped_write p n l : forall m q, mapped m p n -> mapped (write_at m q l) p n.
Proof. induction l as [|c l IH]; intros m q H; [done|]. by apply IH, mapped_insert. Qed.

Lemma load_bytes_ok m l : forall p, bytes_at m p l -> load_bytes (length l) p m = Ok (l, m).
Proof.
  induction l as [|c l IH]; intros p H; [done|]. destruct H as [H1 H2]. cbn [length load_bytes].
  mrun (load_ok _ _ _ H1). by mrun (IH _ H2).
Qed.

Section LoggerProofs.
Context {D : Type} {IO : Mmio D} {UL : UartLaws D}.
Context (polls : nat) (logger_level : level) (str newline : Z) (Hpolls : (uart_slow < polls)%nat).
Context (strings : Z -> option (list Z)).
Implicit Types (m : memory) (d : D).

(** The buffer is apart from the literal, the format and the strings. *)
Record log_room m (format : Z) (fmt : list Z) : Prop := {
  lr_mapped : mapped m str MESSAGE_SIZE;
  lr_newline : cstr m newline [10];
  lr_apart : CStringProofs.apart str MESSAGE_SIZE newline 2;
  lr_format : cstr m format fmt;
  lr_format_apart : CStringProofs.apart str MESSAGE_SIZE format (Z.of_nat (length fmt) + 1);
  lr_strings : strings_ok strings m (Buffer str MESSAGE_SIZE);
}.

(** Nothing outside of the buffer has changed. *)
Definition log_only m m' : Prop := forall a, a < str \/ str + MESSAGE_SIZE <= a -> m' !! a = m !! a.

(** The newline after the text [c] in the buffer. *)
Lemma newline_ok m c : cstr m str c -> (length c <= 126)%nat -> mapped m str MESSAGE_SIZE -> cstr m newline [10] ->
  CStringProofs.apart str MESSAGE_SIZE newline 2 ->
  exists m', strcat str newline m = Ok (str, m') /\ cstr m' str (c ++ [10]) /\ log_only m m'.
Proof.
  intros Hc Hl Hm Hn Ha. exists (write_at m (str + Z.of_nat (length c)) [10; 0]). unfold MESSAGE_SIZE in *. split_and!.
  - unfold strcat, bound. erewrite (bind_ok (gets _)) by reflexivity. mrun (skip_loop_ok m c str _ Hc (cstr_size _ _ _ Hc)).
    assert (Hm' : mapped m (str + Z.of_nat (length c)) 2) by (intros a Hb; apply Hm; lia).
    assert (Ha' : CStringProofs.apart (str + Z.of_nat (length c)) 2 newline 2) by (unfold CStringProofs.apart in *; lia).
    mrun (strcpy_loop_ok [10] m (str + Z.of_nat (length c)) newline _ Hn Hm' Ha' (cstr_size _ _ _ Hn)). done.
  - apply bytes_cstr.
    + apply Forall_app. split; [by eapply cstr_chars|]. by repeat constructor.
    + rewrite <- app_assoc. apply bytes_at_app. split; [|apply write_at_bytes].
      apply cstr_bytes, bytes_at_app in Hc as [Hc _]. eapply bytes_at_agree; [|exact Hc].
      intros a Hb. apply write_at_out. lia.
  - intros a Hb. unfold MESSAGE_SIZE in Hb. apply write_at_out. cbn [length]. lia.
Qed.

(** What [logger_write] leaves, by the reference formatter. *)
Definition logged (s : console D) (r : rendered) (n : Z) (s' : console D) : Prop :=
  log_only (cn_memory s) (cn_memory s') /\
  match r with
  | Text t _ => n = Z.of_nat (length (message t)) /\
      uart_sent (cn_device s') = uart_sent (cn_device s) ++ wires (message t)
  | _ => n = -1 /\ cn_device s' = cn_device s
  end.

Lemma write_message m d c : cstr m str c -> (length c <= 127)%nat -> (uart_busy d <= uart_slow)%nat ->
  exists d', (let* n := in_memory (strlen str) in
              let* data := in_memory (load_bytes (Z.to_nat n) str) in
              on_device (uart_write polls data)) (Console m d) = Ok (Z.of_nat (length c), Console m d') /\
    uart_sent d' = uart_sent d ++ wires c.
Proof.
  intros Hc Hl Hb. destruct (uart_write_ok polls Hpolls d c Hb) as (d' & E & H & _). exists d'. split; [|done].
  assert (E1 : in_memory (strlen str) (Console m d) = Ok (Z.of_nat (length c), Console m d)).
  { unfold in_memory. cbn [cn_memory]. rewrite (strlen_ok m str c) by (done || lia). done. }
  mrun E1. rewrite Nat2Z.id.
  assert (E2 : in_memory (load_bytes (length c) str) (Console m d) = Ok (c, Console m d)).
  { unfold in_memory. cbn [cn_memory]. apply cstr_bytes, bytes_at_app in Hc as [Hc _]. by rewrite (load_bytes_ok m c). }
  mrun E2. unfold on_device. cbn [cn_device cn_memory]. by rewrite E.
Qed.

Lemma logger_write_ok lv m d format fmt ap : log_room m format fmt -> Forall is_u32 ap -> (uart_busy d <= uart_slow)%nat ->
  level_number logger_level <= level_number lv ->
  match render strings (S (length fmt)) fmt ap with
  | Text t _ => Z.of_nat (length t) < 2 ^ 31
  | Refused n => Z.of_nat n < 2 ^ 31
  | Undefined => False
  end ->
  exists n s', logger_write polls logger_level str newline lv format ap (Console m d) = Ok (n, s') /\
    logged (Console m d) (render strings (S (length fmt)) fmt ap) n s'.
Proof.
  intros [Hm Hnl Hap Hf Hfa Hs] Ha Hb Hlv Hr. unfold logger_write. rewrite (proj2 (Z.ltb_ge _ _)) by done.
  assert (Hfit : CStringProofs.apart str (MESSAGE_SIZE - 1) format (Z.of_nat (length fmt) + 1)) by (unfold CStringProofs.apart, MESSAGE_SIZE in *; lia).
  assert (Hs' : strings_ok strings m (Buffer str (MESSAGE_SIZE - 1))).
  { intros q l Hq. destruct (Hs q l Hq) as (H1 & H2 & H3). split_and!; [done| |done].
    unfold CStringProofs.apart, MESSAGE_SIZE in *. cbn [b_data b_size] in *. lia. }
  pose proof (vsnprintf_ok strings m str (MESSAGE_SIZE - 1) format fmt ap ltac:(done)
    ltac:(intros a Hx; apply Hm; unfold MESSAGE_SIZE in *; lia) Hf Hfit Hs' Ha) as H.
  destruct (render strings (S (length fmt)) fmt ap) as [t ap'|n|] eqn:E; cbn [vsnprintf_post] in H; [| |done].
  - assert (Hbt : Forall (fun c => 0 <= c < 256) t).
    { eapply render_bytes; [exact Hs|exact Ha| |exact E]. eapply Forall_impl; [by eapply cstr_chars|]. intros; simpl in *; lia. }
    specialize (H Hr Hbt). change (MESSAGE_SIZE - 1 =? 0) with false in H. cbn iota in H.
    change (MESSAGE_SIZE - 1 - 1) with (MESSAGE_SIZE - 2) in H. set (t1 := take (Z.to_nat (MESSAGE_SIZE - 2)) t) in *.
    assert (Ht1 : (length t1 <= 126)%nat) by (unfold t1; rewrite length_take; change (Z.to_nat (MESSAGE_SIZE - 2)) with 126%nat; lia).
    set (m1 := write_at m str (t1 ++ [0])) in *.
    assert (Hout : log_only m m1) by (intros a Hx; apply write_at_out; rewrite length_app; unfold MESSAGE_SIZE in Hx; cbn; lia).
    assert (E1 : in_memory (vsnprintf str (MESSAGE_SIZE - 1) format ap) (Console m d) = Ok (Z.of_nat (length t), Console m1 d)).
    { unfold in_memory. cbn [cn_memory]. by rewrite H. }
    mrun E1. unfold EOF. rewrite (proj2 (Z.eqb_neq _ _)) by lia.
    assert (Hc : cstr m1 str (cut_zero t1)).
    { apply buffer_cstr; [by apply Forall_take|apply write_at_bytes]. }
    pose proof (cut_zero_le t1) as Hle.
    destruct (newline_ok m1 (cut_zero t1)) as (m2 & E2 & Hc2 & Hout2); [done|lia|by apply mapped_write| |done|].
    { eapply cstr_agree; [|exact Hnl]. intros a Hx. apply Hout. unfold CStringProofs.apart in Hap. cbn in Hx. lia. }
    assert (E3 : in_memory (strcat str newline) (Console m1 d) = Ok (str, Console m2 d)).
    { unfold in_memory. cbn [cn_memory]. by rewrite E2. }
    mrun E3. destruct (write_message m2 d (message t)) as (d' & E4 & Hsent); [done| |done|].
    { unfold message. fold t1. rewrite length_app. cbn. lia. }
    eexists _, _. split; [exact E4|]. split; [|done]. intros a Hx. cbn [cn_memory]. by rewrite Hout2, Hout.
  - destruct (H Hr) as (m' & E1 & Hout).
    assert (E2 : in_memory (vsnprintf str (MESSAGE_SIZE - 1) format ap) (Console m d) = Ok (EOF, Console m' d)).
    { unfold in_memory. cbn [cn_memory]. by rewrite E1. }
    mrun E2. eexists _, _. split; [reflexivity|]. split; [|done]. intros a Hx. apply Hout. unfold MESSAGE_SIZE in *. lia.
Qed.
End LoggerProofs.

(** ** A sample

    The format "%x" at 500, a newline at 510, and the buffer at 1000. *)
Definition sample_log_memory : memory :=
  write_at (write_at (write_at ∅ 500 [37; 120; 0]) 510 [10; 0]) 1000 (replicate 128 1).
Lemma sample_log_room : log_room 1000 510 (fun _ => None) sample_log_memory 500 [37; 120].
Proof.
  split.
  - intros a Ha. unfold MESSAGE_SIZE in Ha. destruct (lookup_lt_is_Some_2 (replicate 128 1) (Z.to_nat (a - 1000))) as [b Hb]; [rewrite length_replicate; lia|].
    exists b. replace a with (1000 + Z.of_nat (Z.to_nat (a - 1000))) by lia.
    eapply bytes_at_lookup; [apply write_at_bytes|exact Hb].
  - cbn [cstr]. split_and!; (vm_compute; reflexivity) || lia.
  - right. cbn. lia.
  - cbn [cstr]. split_and!; (vm_compute; reflexivity) || lia.
  - right. cbn. lia.
  - intros s l [=].
Qed.

(** ** Properties *)

(** C40: a message of the kernel.  Below the configured level nothing happens.
    Otherwise the text that the reference formatter gives, cut after 126
    characters (and at a 0 in it), and a newline go to the serial port, a carriage
    return before every newline; the result is the number of characters, or -1
    without output for a format that is refused.  Nothing outside the buffer of
    128 bytes is written, however long the text; all loops end when the port
    takes a byte within the given number of polls. *)
Theorem logger_write_correct {D : Type} {IO : Mmio D} {UL : UartLaws D} polls logger_level str newline strings
  lv (m : memory) (d : D) format fmt ap :
  (uart_slow < polls)%nat -> (uart_busy d <= uart_slow)%nat -> log_room str newline strings m format fmt -> Forall is_u32 ap ->
  (level_number lv < level_number logger_level ->
     logger_write polls logger_level str newline lv format ap (Console m d) = Ok (0, Console m d)) /\
  (level_number logger_level <= level_number lv ->
     match render strings (S (length fmt)) fmt ap with
     | Text t _ => Z.of_nat (length t) < 2 ^ 31
     | Refused n => Z.of_nat n < 2 ^ 31
     | Undefined => False
     end ->
     exists n s', logger_write polls logger_level str newline lv format ap (Console m d) = Ok (n, s') /\
       logged str (Console m d) (render strings (S (length fmt)) fmt ap) n s').
Proof.
  intros Hp Hb Hr Ha. split.
  - intros Hl. unfold logger_write. by rewrite (proj2 (Z.ltb_lt _ _)).
  - by apply logger_write_ok.
Qed.

Theorem logger_write_correct_witness :
  exists n s', logger_write 2 LOGGER_LEVEL_INFO 1000 510 LOGGER_LEVEL_FATAL 500 [255] (Console sample_log_memory (SimUart [] [] 0 0)) =
    Ok (n, s') /\ n = 3 /\ su_sent (cn_device s') = [102; 102; 13; 10].
Proof.
  destruct (logger_write_correct 2 LOGGER_LEVEL_INFO 1000 510 (fun _ => None) LOGGER_LEVEL_FATAL sample_log_memory
    (SimUart [] [] 0 0) 500 [37; 120] [255]) as [_ H]; [cbn; lia|cbn; lia|exact sample_log_room|by repeat constructor|].
  destruct (H ltac:(cbn; lia) ltac:(vm_compute; reflexivity)) as (n & s' & E & _ & Hn & Hs).
  exists n, s'. split; [exact E|]. split; [rewrite Hn; reflexivity|exact Hs].
Defined.
