(* ===== verification/LibTests.v ===== *)
(** * The tests of the library

    The tests of [test-kernel/lib], run on the models: one definition per test, in
    which every assertion of the test is a conjunct, and the proof that all of
    them hold.  A string literal is placed in the memory of the test; [char] arrays
    of the test have their own addresses. *)

From Stdlib Require Import Ascii String.
From stdpp Require Import base numbers list gmap.
From S2P Require Import Prelude Arith Signal LinkedList CString Format.

#[local] Open Scope Z_scope.
#[local] Open Scope kernel_scope.

(** The bytes of a literal, with the final 0. *)
Definition chars (s : string) : list Z := map (fun c => Z.of_nat (nat_of_ascii c)) (list_ascii_of_string s).
Definition literal (s : string) : list Z := chars s ++ [0].
Definition code (c : ascii) : Z := Z.of_nat (nat_of_ascii c).

(** Objects in the memory of a test, by address; the result of a function there. *)
Definition place (m : memory) (x : Z * list Z) : memory :=
  list_to_map (imap (fun i b => (fst x + Z.of_nat i, b)) (snd x)) ∪ m.
Definition objects (l : list (Z * list Z)) : memory := foldl place ∅ l.
Definition eval {S A} (m : M S A) (s : S) : option A := match m s with Ok (a, _) => Some a | Err _ => None end.

(** The value of an expression, when there is one, and a condition on it. *)
Definition holds {A} (o : option A) (f : A -> bool) : bool := match o with Some a => f a | None => false end.
Definition equals (o : option Z) (v : Z) : bool := holds o (Z.eqb v).

(** ** lib/arithmetic.c *)
Definition test_add_overflow_unsigned_long : bool :=
  negb (add_overflow_unsigned_long 0x00000000 0x00000000) &&
  negb (add_overflow_unsigned_long 0xffff0000 0x0000ffff) &&
  negb (add_overflow_unsigned_long 0xfffffffe 0x00000001) &&
  add_overflow_unsigned_long 0xffffffff 0x00000001 &&
  add_overflow_unsigned_long 0xffff0000 0x0001ffff &&
  add_overflow_unsigned_long 0xffffffff 0xffffffff.
Definition test_add_overflow_long_long : bool :=
  add_overflow_long_long LLONG_MAX 1 && negb (add_overflow_long_long LLONG_MAX 0) &&
  add_overflow_long_long 1 LLONG_MAX && negb (add_overflow_long_long 0 LLONG_MAX) &&
  add_overflow_long_long LLONG_MIN (-1) && negb (add_overflow_long_long LLONG_MIN 0) &&
  add_overflow_long_long (-1) LLONG_MIN && negb (add_overflow_long_long 0 LLONG_MIN) &&
  add_overflow_long_long LLONG_MAX LLONG_MAX && add_overflow_long_long LLONG_MIN LLONG_MIN &&
  negb (add_overflow_long_long LLONG_MAX LLONG_MIN) &&
  negb (add_overflow_long_long 1 1) && negb (add_overflow_long_long 1 (-1)) && negb (add_overflow_long_long (-1) (-1)).

(** ** lib/bitset.c *)
Definition BITSET_NBITS : Z := 32.
Definition range (n : nat) : list Z := map Z.of_nat (seq 0 n).
Definition below (f : Z -> bool) : bool := forallb f (range (Z.to_nat BITSET_NBITS)).
Definition test_bitset_mask : bool :=
  below (fun i => bitset_mask i =? u32 (Z.shiftl 1 i)) && below (fun i => bitset_mask (BITSET_NBITS + i) =? u32 (Z.shiftl 1 i)).
Definition test_bitset_slot : bool :=
  below (fun i => Nat.eqb (bitset_slot i) 0) && below (fun i => Nat.eqb (bitset_slot (BITSET_NBITS + i)) 1).
Definition test_bitset_nslots : bool :=
  (bitset_nslots 0 =? 0) && below (fun i => bitset_nslots (i + 1) =? 1) && below (fun i => bitset_nslots (i + BITSET_NBITS + 1) =? 2).
Definition each (f : list Z -> Z -> option (list Z)) (s : list Z) (l : list Z) : option (list Z) :=
  foldl (fun o n => o ≫= fun s => f s n) (Some s) l.
Definition test_bitset_add : bool :=
  holds (each bitset_add [0; 0] [0; 31; 32; 63]) (fun s => bool_decide (s = [0x80000001; 0x80000001])).
Definition test_bitset_remove : bool :=
  holds (each bitset_remove [0xffffffff; 0xffffffff] [0; 31; 32; 63]) (fun s => bool_decide (s = [0x7ffffffe; 0x7ffffffe])).
Definition test_bitset_test : bool :=
  let t n := holds (bitset_test [0x00000001; 0x00000001] n) truthy in
  t 0 && t 32 && negb (t 1) && negb (t 33).

(** ** lib/signal.c *)
Definition fields (s : sigset) (a b : Z) : bool := (fields0 s =? a) && (fields1 s =? b).
Definition test_sigemptyset : bool := let '(r, set) := sigemptyset in (r =? 0) && fields set 0 0.
Definition test_sigfillset : bool := let '(r, set) := sigfillset in (r =? 0) && fields set 0xffffffff 0xffffffff.
Definition test_sigaddset : bool :=
  let '(_, set) := sigemptyset in
  let '(r1, set) := sigaddset set 0 in
  let '(r2, set) := sigaddset set 8192 in
  let '(r3, set) := sigaddset set 1 in
  let '(r4, set) := sigaddset set 32 in
  let '(r5, set) := sigaddset set 33 in
  let '(r6, set) := sigaddset set 64 in
  (r1 =? -1) && (r2 =? -1) && (r3 =? 0) && (r4 =? 0) && (r5 =? 0) && (r6 =? 0) &&
  fields set (Z.lor (Z.shiftl 1 0) (Z.shiftl 1 31)) (Z.lor (Z.shiftl 1 0) (Z.shiftl 1 31)).
Definition test_sigdelset : bool :=
  let '(_, set) := sigfillset in
  let '(r1, set) := sigdelset set 0 in
  let '(r2, set) := sigdelset set 8192 in
  let '(r3, set) := sigdelset set 1 in
  let '(r4, set) := sigdelset set 32 in
  let '(r5, set) := sigdelset set 33 in
  let '(r6, set) := sigdelset set 64 in
  let rest := Z.land 0xffffffff (not32 (Z.lor (Z.shiftl 1 0) (Z.shiftl 1 31))) in
  (r1 =? -1) && (r2 =? -1) && (r3 =? 0) && (r4 =? 0) && (r5 =? 0) && (r6 =? 0) && fields set rest rest.
Definition test_sigismember : bool :=
  let '(_, set) := sigemptyset in
  let '(r1, set) := sigdelset set 0 in
  let '(r2, set) := sigdelset set 8192 in
  let r3 := sigismember set 1 in
  let '(_, set) := sigaddset set 1 in
  let r4 := sigismember set 1 in
  let r5 := sigismember set 33 in
  let '(_, set) := sigaddset set 33 in
  (r1 =? -1) && (r2 =? -1) && (r3 =? 0) && (r4 =? 1) && (r5 =? 0) && (sigismember set 33 =? 1).
Definition test_sigisemptyset : bool :=
  let '(_, set) := sigemptyset in
  let r1 := sigisemptyset set in
  let '(_, set) := sigaddset set 1 in
  let r2 := sigisemptyset set in
  let '(r3, set) := sigdelset set 1 in
  let '(r4, set) := sigdelset set 32 in
  let '(r5, set) := sigdelset set 33 in
  let '(r6, set) := sigdelset set 64 in
  (r1 =? 1) && (r2 =? 0) && (r3 =? 0) && (r4 =? 0) && (r5 =? 0) && (r6 =? 0).
Definition test_signotset : bool :=
  let a := foldl (fun s n => snd (sigaddset s n)) (snd sigemptyset) [1; 32; 33; 64] in
  let '(r, b) := signotset a in (r =? 0) && fields b 0x7ffffffe 0x7ffffffe.
Definition test_sigorset : bool := fields (snd (sigorset (snd sigemptyset) (snd sigfillset))) 0xffffffff 0xffffffff.
Definition test_sigandset : bool := fields (snd (sigandset (snd sigemptyset) (snd sigfillset))) 0 0.
Definition test_sigpeekset : bool :=
  let '(_, set) := sigemptyset in
  let r0 := sigpeekset set in
  let '(_, set) := sigaddset set 64 in
  let r1 := sigpeekset set in
  let '(_, set) := sigaddset set 33 in
  let r2 := sigpeekset set in
  let '(_, set) := sigaddset set 32 in
  let r3 := sigpeekset set in
  let '(_, set) := sigaddset set 1 in
  (r0 =? 0) && (r1 =? 64) && (r2 =? 33) && (r3 =? 32) && (sigpeekset set =? 1).

(** A failed assertion ends a test. *)
Definition assert {S} (b : bool) : M S unit := if b then ret tt else fail Halt.
Definition passes {S A} (m : M S A) (s : S) : bool := match m s with Ok _ => true | Err _ => false end.

(** ** lib/list.c

    The nodes: the head of the test file, a head on the stack of a test, and the
    [next] members of the three entries. *)
Definition head : Z := 0x100.
Definition other_head : Z := 0x200.
Definition entries : list (Z * string) := [(0x300, "one"%string); (0x400, "two"%string); (0x500, "three"%string)].
Definition entry (i : nat) : Z := nth i (map fst entries) 0.
Definition entry_name (p : Z) : option string := list_to_map (M := gmap Z string) entries !! p.
Definition test_heap : heap :=
  let zero := list_to_map (map (fun p => (p, 0)) (head :: other_head :: map fst entries)) in Heap zero zero.

Fixpoint count_loop (get : Z -> M heap Z) (fuel : nat) (head item c : Z) : M heap Z :=
  if item =? head then ret c
  else match fuel with
       | O => fail Fuel
       | S fuel => let* n := get item in count_loop get fuel head n (c + 1)
       end.
Definition count (head : Z) : M heap Z := let* n := get_next head in count_loop get_next 8 head n 0.
Definition count_reverse (head : Z) : M heap Z := let* n := get_prev head in count_loop get_prev 8 head n 0.
Definition assert_count (n : Z) : M heap unit :=
  let* a := count head in
  do* assert (a =? n) in
  let* b := count_reverse head in
  assert (b =? n).

Definition test_list_init : M heap unit :=
  do* list_init head in
  let* n := get_next head in
  do* assert (n =? head) in
  let* p := get_prev head in
  assert (p =? head).
Definition test_list_add : M heap unit :=
  do* list_init head in
  do* assert_count 0 in
  do* list_add head (entry 0) in
  do* assert_count 1 in
  do* list_add head (entry 1) in
  do* assert_count 2 in
  do* list_add head (entry 2) in
  assert_count 3.
Definition test_list_concat_0 : M heap unit :=
  do* list_init head in
  do* list_init other_head in
  do* list_add head (entry 0) in
  do* list_concat head other_head in
  do* assert_count 1 in
  let* e := list_empty other_head in
  assert e.
Definition test_list_concat_1 : M heap unit :=
  do* list_init head in
  do* list_init other_head in
  do* list_add head (entry 0) in
  do* list_add other_head (entry 1) in
  do* list_add other_head (entry 2) in
  do* list_concat head other_head in
  do* assert_count 3 in
  let* e := list_empty other_head in
  assert e.
Definition test_list_remove : M heap unit :=
  do* list_init head in
  do* list_add head (entry 0) in
  do* list_add head (entry 1) in
  do* list_add head (entry 2) in
  do* assert_count 3 in
  do* list_remove (entry 1) in
  do* assert_count 2 in
  do* list_remove (entry 0) in
  do* assert_count 1 in
  do* list_remove (entry 2) in
  assert_count 0.
Definition test_list_empty : M heap unit :=
  do* list_init head in
  let* e := list_empty head in
  do* assert e in
  do* list_add head (entry 0) in
  let* e := list_empty head in
  do* assert (negb e) in
  do* list_remove (entry 0) in
  let* e := list_empty head in
  assert e.
Definition assert_length (n : Z) : M heap unit := let* l := list_length head in assert (l =? n).
Definition test_list_length : M heap unit :=
  do* list_init head in
  do* assert_length 0 in
  do* list_add head (entry 0) in
  do* assert_length 1 in
  do* list_add head (entry 1) in
  do* assert_length 2 in
  do* list_add head (entry 2) in
  assert_length 3.
(** The names of the entries visited are those of the first entries, in order. *)
Definition in_order (l : list Z) : bool := bool_decide (map entry_name l = map (fun x => Some (snd x)) (take (length l) entries)).
Definition test_list_foreach : M heap unit :=
  do* list_init head in
  do* list_add head (entry 2) in
  do* list_add head (entry 1) in
  do* list_add head (entry 0) in
  let* l := list_foreach head in
  assert (in_order l).
Definition test_list_foreach_safe : M heap unit :=
  do* list_init head in
  do* list_add head (entry 2) in
  do* list_add head (entry 1) in
  do* list_add head (entry 0) in
  let* l := list_foreach_safe head (fun e => do* set_prev e 0 in set_next e 0) in
  assert (in_order l).

(** ** lib/string.c

    The literals and arrays of a test and their addresses. *)
Definition A1 : Z := 0x1000.
Definition A2 : Z := 0x2000.
Definition BUF : Z := 0x3000.
Definition with_literals {A} (f : Z -> Z -> M memory A) (a b : string) : option A :=
  eval (f A1 A2) (objects [(A1, literal a); (A2, literal b)]).
Definition one {A} (f : Z -> M memory A) (a : string) : option A := with_literals (fun x _ => f x) a EmptyString.

Definition test_strlen : bool := equals (one strlen EmptyString) 0 && equals (one strlen "M1") 2 && equals (one strlen "M17") 3.
Definition test_strnlen : bool :=
  let n s k := one (fun x => strnlen x k) s in
  equals (n EmptyString 50) 0 && equals (n "M1"%string 50) 2 && equals (n "M17"%string 50) 3 &&
  equals (n "M17"%string 0) 0 && equals (n "M17"%string 1) 1 && equals (n "M17"%string 2) 2 && equals (n "M17"%string 3) 3 && equals (n "M17"%string 4) 3.
Definition positive (o : option Z) : bool := holds o (fun v => 0 <? v).
Definition negative (o : option Z) : bool := holds o (fun v => v <? 0).
Definition test_strcmp : bool :=
  equals (with_literals strcmp "M17" "M17") 0 && positive (with_literals strcmp "M17" "M16") && negative (with_literals strcmp "M16" "M17").
Definition test_strncmp : bool :=
  let c k a b := with_literals (fun x y => strncmp x y k) a b in
  equals (c 10 "M17" "M17")%string 0 && positive (c 10 "M17" "M16")%string && negative (c 10 "M16" "M17")%string &&
  equals (c 2 "M17" "M1")%string 0 && positive (c 3 "M17" "M1")%string && negative (c 3 "M1" "M17")%string.

(** The first bytes of the array of a test. *)
Fixpoint assert_bytes (p : Z) (l : list Z) : M memory unit :=
  match l with
  | [] => ret tt
  | b :: l => let* c := load p in do* assert (c =? b) in assert_bytes (p + 1) l
  end.
(** [!strcmp (buf, s)], the literal at [a]. *)
Definition assert_equal (buf a : Z) : M memory unit := let* r := strcmp buf a in assert (r =? 0).

Definition test_strcpy : bool :=
  passes (let* _ := strcpy BUF A1 in assert_bytes BUF [code "M"; code "1"; code "7"; 0])
    (objects [(A1, literal "M17"); (BUF, replicate 32 0xaa)]).
Definition test_strncpy : bool :=
  passes
    (let* _ := strncpy BUF A1 1 in
     do* assert_bytes BUF [code "M"; 0] in
     let* _ := strncpy BUF A1 10 in
     assert_bytes BUF [code "M"; code "1"; code "7"; 0])
    (objects [(A1, literal "M17"); (BUF, replicate 32 0)]).
Definition test_memcpy : bool :=
  passes
    (let* _ := memcpy A1 A2 0 in
     do* assert_bytes A1 [0] in
     let* _ := memcpy A1 A2 3 in
     assert_bytes A1 [1; 2; 3; 0])
    (objects [(A1, [0; 0; 0; 0]); (A2, [1; 2; 3; 4])]).
Definition test_memset : bool :=
  passes
    (let* _ := memset BUF 10 0 in
     do* assert_bytes BUF [0] in
     let* _ := memset BUF 10 1 in
     assert_bytes BUF [10; 0])
    (objects [(BUF, replicate 8 0)]).
Definition test_memcmp : bool :=
  let c a b n := eval (memcmp a b n) (objects [(A1, [10; 10]); (A2, [10; 20])]) in
  equals (c A1 A2 0) 0 && equals (c A1 A2 1) 0 && negative (c A1 A2 2) && positive (c A2 A1 2).
Definition test_strcat : bool :=
  passes
    (let* _ := strcat BUF 0x10 in
     do* assert_equal BUF 0x10 in
     let* _ := strcat BUF 0x20 in
     do* assert_equal BUF 0x20 in
     let* _ := strcat BUF 0x30 in
     assert_equal BUF 0x40)
    (objects [(0x10, literal EmptyString); (0x20, literal "M1"); (0x30, literal "7"); (0x40, literal "M17"); (BUF, replicate 16 0)]).
Definition test_strncat : bool :=
  passes
    (let* _ := strncat BUF 0x10 16 in
     do* assert_equal BUF 0x10 in
     let* _ := strncat BUF 0x40 2 in
     do* assert_equal BUF 0x20 in
     let* _ := strncat BUF 0x30 16 in
     assert_equal BUF 0x40)
    (objects [(0x10, literal EmptyString); (0x20, literal "M1"); (0x30, literal "7"); (0x40, literal "M17"); (BUF, replicate 16 0)]).
(** A search from the start of a literal: the results for four characters. *)
Definition found (f : Z -> Z -> M memory Z) (s : string) (c : Z) (r : Z) : bool := equals (one (fun x => f x c) s) r.
Definition test_strchr : bool :=
  found strchr EmptyString (code "A") 0 && found strchr EmptyString 0 A1 &&
  found strchr "M17M17" (code "A") 0 && found strchr "M17M17" (code "M") A1 &&
  found strchr "M17M17" (code "7") (A1 + 2) && found strchr "M17M17" 0 (A1 + 6).
Definition test_strrchr : bool :=
  found strrchr EmptyString (code "A") 0 && found strrchr EmptyString 0 A1 &&
  found strrchr "M17M17" (code "A") 0 && found strrchr "M17M17" (code "M") (A1 + 3) &&
  found strrchr "M17M17" (code "7") (A1 + 5) && found strrchr "M17M17" 0 (A1 + 6).
Definition test_strchrnul : bool :=
  found strchrnul EmptyString (code "A") A1 && found strchrnul EmptyString 0 A1 &&
  found strchrnul "M17M17" (code "A") (A1 + 6) && found strchrnul "M17M17" (code "M") A1 &&
  found strchrnul "M17M17" (code "7") (A1 + 2) && found strchrnul "M17M17" 0 (A1 + 6).

(** ** lib/libgen.c *)
Fixpoint read_string (fuel : nat) (p : Z) : M memory (list Z) :=
  match fuel with
  | O => fail Fuel
  | S fuel => let* c := load p in if c =? 0 then ret [] else let* l := read_string fuel (p + 1) in ret (c :: l)
  end.
(** The string of a result: in the array, or one of the two literals. *)
Definition path_string (p : path_ptr) : M memory (list Z) :=
  match p with
  | InPath a => read_string 16 a
  | LitDot => ret (chars ".")
  | LitSlash => ret (chars "/")
  end.
Definition splits (f : Z -> M memory path_ptr) (path expected : string) : bool :=
  passes
    (let* _ := strcpy BUF A1 in
     let* p := f BUF in
     let* l := path_string p in
     assert (bool_decide (l = chars expected)))
    (objects [(A1, literal path); (BUF, replicate 16 0xaa)]).
Definition test_dirname : bool :=
  splits dirname "/usr/local" "/usr" && splits dirname "/usr/" "/" && splits dirname "usr" "." &&
  splits dirname "/" "/" && splits dirname "." "." && splits dirname ".." "." && splits dirname EmptyString ".".
Definition test_basename : bool :=
  splits basename "/usr/local" "local" && splits basename "/usr/" "usr" && splits basename "usr" "usr" &&
  splits basename "/" "/" && splits basename "." "." && splits basename ".." ".." && splits basename EmptyString ".".

(** ** lib/stdarg.c *)
Definition test_memory (format : string) (strings : list (Z * string)) : memory :=
  objects ((A1, literal format) :: (BUF, replicate 1024 0xaa) :: map (fun x => (fst x, literal (snd x))) strings).
(** [snprintf] into the whole array: more than 0, and the text. *)
Definition prints (format : string) (args : list Z) (strings : list (Z * string)) (expected : string) : bool :=
  passes
    (let* r := snprintf BUF 1024 A1 args in
     do* assert (0 <? r) in
     assert_equal BUF A2)
    (test_memory format ((A2, expected) :: strings)).
Definition test_stdarg_snprintf_0 : bool :=
  prints "aiueo%%" [] [] "aiueo%" &&
  prints "char: '%c' '%1c' '%4c'" [code "a"; code "b"; code "c"] [] "char: 'a' 'b' '   c'" &&
  prints "str: '%s' '%1s' '%4s'" [0x10; 0x20; 0x30] [(0x10, "ka"%string); (0x20, "ki"%string); (0x30, "ku"%string)]
    "str: 'ka' 'ki' '  ku'" &&
  prints "hex: '%x' '%6x' '%06x'" [0xffffffff; 0xb2; 0xc3] [] "hex: 'ffffffff' '    b2' '0000c3'" &&
  prints "signed dec: '%d' '%4d' '%04d'" [10; u32 (-1); u32 (-2)] [] "signed dec: '10' '  -1' '-002'" &&
  prints "unsigned dec: '%u' '%4u' '%04u'" [0xffffffff; 1; 2] [] "unsigned dec: '4294967295' '   1' '0002'".
(** A size of [i] bytes: the result, and the length of the text. *)
Definition assert_size (i len : Z) : M memory unit :=
  let* x := snprintf BUF i A1 [] in
  do* assert (x =? 5) in
  let* n := strlen BUF in
  assert (n =? len).
Fixpoint assert_sizes (i : nat) : M memory unit :=
  match i with
  | O => ret tt
  | S j => do* assert_size (Z.of_nat i) (Z.of_nat j) in assert_sizes j
  end.
Definition test_stdarg_snprintf_1 : bool :=
  passes
    (let* x := snprintf BUF (INT_MAX + 1) A1 [] in
     do* assert (x =? EOF) in
     do* assert_size 1024 5 in
     do* assert_sizes 6 in
     let* x := snprintf BUF 0 A1 [] in
     assert (x =? 5))
    (test_memory "aiueo" []).

(** ** All of them *)
Definition arithmetic_tests : list bool := [test_add_overflow_unsigned_long; test_add_overflow_long_long].
Definition bitset_tests : list bool :=
  [test_bitset_mask; test_bitset_slot; test_bitset_nslots; test_bitset_add; test_bitset_remove; test_bitset_test].
Definition signal_tests : list bool :=
  [test_sigemptyset; test_sigfillset; test_sigaddset; test_sigdelset; test_sigismember; test_sigisemptyset; test_signotset;
   test_sigorset; test_sigandset; test_sigpeekset].
Definition list_tests : list bool :=
  map (fun t => passes t test_heap)
    [test_list_init; test_list_add; test_list_concat_0; test_list_concat_1; test_list_remove; test_list_empty;
     test_list_length; test_list_foreach; test_list_foreach_safe].
Definition string_tests : list bool :=
  [test_strlen; test_strnlen; test_strcmp; test_strncmp; test_strcpy; test_strncpy; test_memcpy; test_memset; test_memcmp;
   test_strcat; test_strncat; test_strchr; test_strrchr; test_strchrnul].
Definition libgen_tests : list bool := [test_dirname; test_basename].
Definition stdarg_tests : list bool := [test_stdarg_snprintf_0; test_stdarg_snprintf_1].

Lemma library_tests_pass :
  forallb id (arithmetic_tests ++ bitset_tests ++ signal_tests ++ list_tests ++ string_tests ++ libgen_tests ++ stdarg_tests) = true.
Proof. vm_compute. reflexivity. Qed.
