(* ===== verification/Block.v ===== *)
(** * mmc.c and block.c: model

    The card is read and written in sectors of 512 bytes through the registers
    of its controller; what one sector command does is the interface [Card], and
    [mmc_read] and [mmc_write] are loops over it.  The block cache keeps blocks
    of 4096 bytes: [struct block] objects by address, the contents of their data
    areas by address, and the lists [used_blocks] and [free_blocks] as sequences
    of object addresses ([list_add] inserts at the front, [list_foreach] walks
    from the front).  The proofs are in [BlockProofs]. *)

From stdpp Require Import base numbers list gmap.
From S2P Require Import Prelude Buddy KernelMem Hoare.

#[local] Open Scope Z_scope.
#[local] Open Scope kernel_scope.

(** ** The card *)
Definition MMC_BLOCK_SIZE : Z := 0x200.

(** The bytes of a buffer. *)
Definition byte_ok (b : Z) : bool := (0 <=? b) && (b <? 256).
Definition sector_ok (l : list Z) : Prop := length l = Z.to_nat MMC_BLOCK_SIZE /\ forallb byte_ok l = true.

(** The addresses of sectors the driver can reach: an address is sent in a word. *)
Definition is_sector (a : Z) : Prop := is_u32 a /\ a mod MMC_BLOCK_SIZE = 0.

(** [card_sector d a] are the bytes of the sector at the address [a].
    [card_read] and [card_write] are [mmc_read_block] and [mmc_write_block]: the
    registers, the command and the transfer of the words through the FIFO.
    [card_ready]: no transfer is under way. *)
Class Card (D : Type) := {
  card_read : Z -> M D (Z * list Z);
  card_write : Z -> list Z -> M D Z;
  card_ready : D -> Prop;
  card_sector : D -> Z -> list Z;
  card_sector_bytes : forall d a, sector_ok (card_sector d a);
  card_read_spec : forall d a, card_ready d -> is_sector a ->
    exists d', card_read a d = Ok ((0, card_sector d a), d') /\ card_ready d' /\
      forall b, is_sector b -> card_sector d' b = card_sector d b;
  card_write_spec : forall d a l, card_ready d -> is_sector a -> sector_ok l ->
    exists d', card_write a l d = Ok (0, d') /\ card_ready d' /\ card_sector d' a = l /\
      forall b, is_sector b -> b <> a -> card_sector d' b = card_sector d b;
}.

(** A card that keeps the sectors written to it. *)
Notation sector_map := (gmap Z (list Z)).
Definition read_sector (d : sector_map) (a : Z) : list Z :=
  match d !! a with
  | Some l => if (length l =? Z.to_nat MMC_BLOCK_SIZE)%nat && forallb byte_ok l then l
              else replicate (Z.to_nat MMC_BLOCK_SIZE) 0
  | None => replicate (Z.to_nat MMC_BLOCK_SIZE) 0
  end.
#[export] Program Instance map_card : Card sector_map := {|
  card_read a d := Ok ((0, read_sector d a), d);
  card_write a l d := Ok (0, <[a := l]> d);
  card_ready _ := True;
  card_sector := read_sector;
|}.
Next Obligation.
  intros d a. unfold read_sector. destruct (d !! a) as [l|]; [|by split].
  destruct (Nat.eqb_spec (length l) (Z.to_nat MMC_BLOCK_SIZE)); [|by split].
  destruct (forallb byte_ok l) eqn:E; by split.
Qed.
Next Obligation. intros d a _ _. by exists d. Qed.
Next Obligation.
  intros d a l _ _ [Hl Hb]. exists (<[a := l]> d). split; [done|]. split; [done|]. split.
  - unfold read_sector. rewrite lookup_insert_eq, Hb. by rewrite (proj2 (Nat.eqb_eq _ _) Hl).
  - intros b _ Hne. unfold read_sector. by rewrite lookup_insert_ne.
Qed.

Section Mmc.
Context {D : Type} `{CD : Card D}.

(** The loops over the sectors: the result and the bytes read. *)
Fixpoint mmc_read_loop (n : nat) (address : Z) : M D (Z * list Z) :=
  match n with
  | O => ret (0, [])
  | S n =>
      let* x := card_read address in
      if fst x <? 0 then ret (-1, snd x)
      else
        let* y := mmc_read_loop n (u64 (address + MMC_BLOCK_SIZE)) in
        ret (fst y, snd x ++ snd y)
  end.
Definition mmc_read (address size : Z) : M D (Z * list Z) :=
  if truthy (size mod MMC_BLOCK_SIZE) then ret (-1, [])
  else mmc_read_loop (Z.to_nat (size / MMC_BLOCK_SIZE)) address.

Fixpoint mmc_write_loop (n : nat) (address : Z) (buf : list Z) : M D Z :=
  match n with
  | O => ret 0
  | S n =>
      let* r := card_write address (take (Z.to_nat MMC_BLOCK_SIZE) buf) in
      if r <? 0 then ret (-1)
      else mmc_write_loop n (u64 (address + MMC_BLOCK_SIZE)) (drop (Z.to_nat MMC_BLOCK_SIZE) buf)
  end.
Definition mmc_write (address size : Z) (data : list Z) : M D Z :=
  if truthy (size mod MMC_BLOCK_SIZE) then ret (-1)
  else mmc_write_loop (Z.to_nat (size / MMC_BLOCK_SIZE)) address data.
End Mmc.

(** ** The block cache *)
Definition BLOCK_SIZE : Z := 1024 * 4.
Definition BLOCKS_PER_PAGE : Z := PAGE_SIZE / BLOCK_SIZE.

(** [struct block], without its list link. *)
Record block : Set := Block { bl_index : Z; bl_page : Z; bl_data : Z }.

Record blocks (S D : Type) : Type := Blocks {
  bk_mem : S;
  bk_card : D;
  block_cache : Z;
  bk_objs : gmap Z block;
  bk_data : gmap Z (list Z);
  used_blocks : list Z;
  free_blocks : list Z;
}.
Arguments Blocks {S D}.
Arguments bk_mem {S D}.
Arguments bk_card {S D}.
Arguments block_cache {S D}.
Arguments bk_objs {S D}.
Arguments bk_data {S D}.
Arguments used_blocks {S D}.
Arguments free_blocks {S D}.

Definition set_bk_mem {S D} (v : S) (x : blocks S D) : blocks S D :=
  Blocks v (bk_card x) (block_cache x) (bk_objs x) (bk_data x) (used_blocks x) (free_blocks x).
Definition set_bk_card {S D} (v : D) (x : blocks S D) : blocks S D :=
  Blocks (bk_mem x) v (block_cache x) (bk_objs x) (bk_data x) (used_blocks x) (free_blocks x).
Definition set_bk_objs {S D} (v : gmap Z block) (x : blocks S D) : blocks S D :=
  Blocks (bk_mem x) (bk_card x) (block_cache x) v (bk_data x) (used_blocks x) (free_blocks x).
Definition set_bk_data {S D} (v : gmap Z (list Z)) (x : blocks S D) : blocks S D :=
  Blocks (bk_mem x) (bk_card x) (block_cache x) (bk_objs x) v (used_blocks x) (free_blocks x).
Definition set_used_blocks {S D} (v : list Z) (x : blocks S D) : blocks S D :=
  Blocks (bk_mem x) (bk_card x) (block_cache x) (bk_objs x) (bk_data x) v (free_blocks x).
Definition set_free_blocks {S D} (v : list Z) (x : blocks S D) : blocks S D :=
  Blocks (bk_mem x) (bk_card x) (block_cache x) (bk_objs x) (bk_data x) (used_blocks x) v.

Section BlockCache.
Context {S D : Type} `{KM : KernelMem S} `{CD : Card D}.
Notation state := (blocks S D).

Definition bk_kmem {A} (m : M S A) : M state A := within bk_mem set_bk_mem m.
Definition on_card {A} (m : M D A) : M state A := within bk_card set_bk_card m.
Definition get_block_obj (a : Z) : M state block :=
  let* objs := gets bk_objs in opt Fault (objs !! a).
Definition put_block_obj (a : Z) (x : block) : M state unit :=
  modify (fun s => set_bk_objs (<[a := x]> (bk_objs s)) s).

(** [page_address] of the page with the index [page]. *)
Definition page_bytes (page : Z) : Z := PAGE_START + PAGE_SIZE * page.

(** The loop of [prepare_blocks] from [i] on, [n] times. *)
Fixpoint prepare_loop (n : nat) (i page : Z) : M state unit :=
  match n with
  | O => ret tt
  | Datatypes.S n =>
      let* c := gets block_cache in
      let* b := bk_kmem (km_obj_alloc c) in
      do* put_block_obj b (Block 0 page (page_bytes page + i * BLOCK_SIZE)) in
      do* modify (fun s => set_free_blocks (b :: free_blocks s) s) in
      prepare_loop n (i + 1) page
  end.
Definition prepare_blocks : M state unit :=
  let* page := bk_kmem (km_page_alloc PAGE_SIZE) in
  prepare_loop (Z.to_nat BLOCKS_PER_PAGE) 0 page.

(** The walk over [used_blocks]. *)
Fixpoint find_block (l : list Z) (index : Z) : M state (option Z) :=
  match l with
  | [] => ret None
  | b :: l =>
      let* x := get_block_obj b in
      if bl_index x =? index then ret (Some b) else find_block l index
  end.

(** [get_block] of block.c. *)
Definition cache_get_block (index : Z) : M state Z :=
  let* used := gets used_blocks in
  let* found := find_block used index in
  match found with
  | Some b => ret b
  | None =>
      let* free := gets free_blocks in
      do* (match free with [] => prepare_blocks | _ => ret tt end) in
      let* free := gets free_blocks in
      match free with
      | [] => fail Fault     (* the address of the list head is no block *)
      | b :: free =>
          do* modify (set_free_blocks free) in
          let* x := get_block_obj b in
          do* put_block_obj b (Block index (bl_page x) (bl_data x)) in
          do* modify (fun s => set_used_blocks (b :: used_blocks s) s) in
          let* r := on_card (mmc_read (index * BLOCK_SIZE) BLOCK_SIZE) in
          do* modify (fun s => set_bk_data (<[bl_data x := snd r]> (bk_data s)) s) in
          ret b
      end
  end.

(** The bytes copied out of the cache. *)
Definition block_read (index : Z) : M state (list Z) :=
  let* b := cache_get_block index in
  let* x := get_block_obj b in
  let* data := gets bk_data in
  opt Fault (data !! bl_data x).

(** [data] are the [BLOCK_SIZE] bytes at the pointer. *)
Definition block_write (index : Z) (data : list Z) : M state unit :=
  let* b := cache_get_block index in
  let* x := get_block_obj b in
  do* modify (fun s => set_bk_data (<[bl_data x := data]> (bk_data s)) s) in
  let* _ := on_card (mmc_write (index * BLOCK_SIZE) BLOCK_SIZE data) in
  ret tt.

(** [block_init] after the cache with the identity [c] has been created. *)
Definition block_init (c : Z) (mem : S) (card : D) : state := Blocks mem card c ∅ ∅ [] [].
End BlockCache.
