(* ===== verification/BlockProofs.v ===== *)
(** * mmc.c and block.c: proofs

    The block cache with the card behind it is an array of blocks: the class
    [BlockStore], which the file system is proved against.  Reads return what was
    written last, and every write is on the card when it returns. *)

From stdpp Require Import base numbers list gmap sets.
From S2P Require Import Prelude Buddy BuddyProofs PageAlloc KernelMem Hoare Block.

#[local] Open Scope Z_scope.
#[local] Open Scope kernel_scope.

(** ** The interface

    [bs_inv s C L U d]: the caches of [C] exist, [L] are the objects in use by the
    client of the store and [U] its pages; the block [i] holds the bytes [d i]. *)
Notation contents := (Z -> list Z).
Definition is_block (i : Z) : Prop := 0 <= i < 2 ^ 16.
Definition block_bytes_ok (l : list Z) : Prop := length l = Z.to_nat BLOCK_SIZE /\ forallb byte_ok l = true.
Definition upd_block (i : Z) (l : list Z) (d : contents) : contents :=
  fun j => if decide (j = i) then l else d j.

Class BlockStore (S : Type) := {
  bs_obj_alloc : Z -> M S Z;
  bs_obj_free : Z -> Z -> M S unit;
  bs_page_alloc : Z -> M S Z;
  bs_page_free : Z -> M S unit;
  bs_read : Z -> M S (list Z);
  bs_write : Z -> list Z -> M S unit;
  bs_inv : S -> gmap Z Z -> (Z -> Z -> Prop) -> gset Z -> contents -> Prop;
  bs_obj_alloc_spec : forall s C L U d c osz, bs_inv s C L U d -> C !! c = Some osz ->
    runs (bs_obj_alloc c) s (fun a s' => (forall c', ~ L c' a) /\ a <> 0 /\
      bs_inv s' C (fun c' x => L c' x \/ (c' = c /\ x = a)) U d);
  bs_obj_free_spec : forall s C L U d c a, bs_inv s C L U d -> L c a ->
    runs (bs_obj_free c a) s (fun _ s' => bs_inv s' C (fun c' x => L c' x /\ x <> a) U d);
  bs_page_alloc_spec : forall s C L U d size k, bs_inv s C L U d -> order_for size k ->
    runs (bs_page_alloc size) s (fun i s' => i ∉ U /\ bs_inv s' C L ({[i]} ∪ U) d);
  bs_page_free_spec : forall s C L U d i, bs_inv s C L U d -> i ∈ U ->
    runs (bs_page_free i) s (fun _ s' => bs_inv s' C L (U ∖ {[i]}) d);
  bs_read_spec : forall s C L U d i, bs_inv s C L U d -> is_block i ->
    runs (bs_read i) s (fun l s' => l = d i /\ bs_inv s' C L U d);
  bs_write_spec : forall s C L U d i l, bs_inv s C L U d -> is_block i -> block_bytes_ok l ->
    runs (bs_write i l) s (fun _ s' => bs_inv s' C L U (upd_block i l d));
  bs_length : forall s C L U d i, bs_inv s C L U d -> is_block i -> block_bytes_ok (d i);
  bs_disk : S -> contents;
  bs_disk_spec : forall s C L U d i, bs_inv s C L U d -> is_block i -> bs_disk s i = d i;
  bs_obj_alloc_disk : forall s c a s', bs_obj_alloc c s = Ok (a, s') -> bs_disk s' = bs_disk s;
  bs_obj_free_disk : forall s c a s', bs_obj_free c a s = Ok (tt, s') -> bs_disk s' = bs_disk s;
  bs_page_alloc_disk : forall s size i s', bs_page_alloc size s = Ok (i, s') -> bs_disk s' = bs_disk s;
  bs_page_free_disk : forall s i s', bs_page_free i s = Ok (tt, s') -> bs_disk s' = bs_disk s;
  bs_obj_free_ok : forall s C L U d c a, bs_inv s C L U d -> L c a -> bs_obj_free c a s <> Err Halt;
  bs_page_free_ok : forall s C L U d i, bs_inv s C L U d -> i ∈ U -> bs_page_free i s <> Err Halt;
  bs_page_range : forall s C L U d size k i s', bs_inv s C L U d -> order_for size k ->
    bs_page_alloc size s = Ok (i, s') -> 0 <= i < PAGE_NUM /\ (2 ^ k | i);
  bs_too_big : forall s size, 2 ^ PAGE_MAX_ORDER * PAGE_SIZE < size -> bs_page_alloc size s = Err Halt;
  bs_unique : forall s C L U d c c' a, bs_inv s C L U d -> L c a -> L c' a -> c = c';
  bs_ext : forall s C L L' U d d', (forall c x, L c x <-> L' c x) -> (forall i, is_block i -> d i = d' i) ->
    bs_inv s C L U d -> bs_inv s C L' U d';
}.

(** A page more or less changes nothing in the end. *)
Lemma page_back (U : gset Z) i : i ∉ U -> ({[i]} ∪ U) ∖ {[i]} = U.
Proof. intros. set_solver. Qed.

(** ** The card in blocks *)
Section Card.
Context {D : Type} `{CD : Card D}.
Implicit Types (d : D).

Fixpoint card_bytes (n : nat) d (a : Z) : list Z :=
  match n with
  | O => []
  | S n => card_sector d a ++ card_bytes n d (a + MMC_BLOCK_SIZE)
  end.
Definition card_block d (i : Z) : list Z := card_bytes 8 d (i * BLOCK_SIZE).
#[local] Arguments card_block : simpl never.

Lemma card_bytes_length n d a : length (card_bytes n d a) = (n * Z.to_nat MMC_BLOCK_SIZE)%nat.
Proof.
  revert a. induction n as [|n IH]; intros a; [done|]. cbn [card_bytes].
  rewrite length_app, (proj1 (card_sector_bytes d a)), IH. lia.
Qed.

Lemma card_block_length d i : block_bytes_ok (card_block d i).
Proof.
  split; [unfold card_block; by rewrite card_bytes_length|]. unfold card_block.
  generalize 8%nat as n. intros n. generalize (i * BLOCK_SIZE) as a. induction n as [|n IH]; intros a; [done|]. cbn [card_bytes].
  by rewrite forallb_app, (proj2 (card_sector_bytes d a)), IH.
Qed.

Lemma card_bytes_ext n d d' a :
  (forall k, 0 <= k < Z.of_nat n -> card_sector d' (a + k * MMC_BLOCK_SIZE) = card_sector d (a + k * MMC_BLOCK_SIZE)) ->
  card_bytes n d' a = card_bytes n d a.
Proof.
  revert a. induction n as [|n IH]; intros a H; [done|]. cbn [card_bytes]. f_equal.
  - specialize (H 0 ltac:(lia)). by rewrite Z.mul_0_l, Z.add_0_r in H.
  - apply IH. intros k Hk. specialize (H (k + 1) ltac:(lia)).
    by replace (a + MMC_BLOCK_SIZE + k * MMC_BLOCK_SIZE) with (a + (k + 1) * MMC_BLOCK_SIZE) by lia.
Qed.

(** [n] sectors in a row. *)
Definition sectors (n : nat) (a : Z) : Prop := forall k, 0 <= k < Z.of_nat n -> is_sector (a + k * MMC_BLOCK_SIZE).
Lemma sectors_cons n a : sectors (S n) a -> is_sector a /\ u64 (a + MMC_BLOCK_SIZE) = a + MMC_BLOCK_SIZE /\ sectors n (a + MMC_BLOCK_SIZE).
Proof.
  intros H. pose proof (H 0 ltac:(lia)) as H0. rewrite Z.mul_0_l, Z.add_0_r in H0. split; [done|]. split.
  - destruct H0 as [H0 _]. unfold is_u32 in H0. apply Z.mod_small. unfold MMC_BLOCK_SIZE. lia.
  - intros k Hk. specialize (H (k + 1) ltac:(lia)).
    by replace (a + MMC_BLOCK_SIZE + k * MMC_BLOCK_SIZE) with (a + (k + 1) * MMC_BLOCK_SIZE) by lia.
Qed.
Lemma block_sectors i : is_block i -> sectors 8 (i * BLOCK_SIZE).
Proof.
  unfold sectors, is_block, is_sector, is_u32, BLOCK_SIZE, MMC_BLOCK_SIZE. intros Hi k Hk. split; [lia|].
  replace (i * (1024 * 4) + k * 512) with ((i * 8 + k) * 512) by lia. apply Z.mod_mul. lia.
Qed.

(** The same sectors; the card is ready again. *)
Definition same_card d d' : Prop := card_ready d' /\ forall a, is_sector a -> card_sector d' a = card_sector d a.

Lemma same_card_bytes n d d' a : sectors n a -> same_card d d' -> card_bytes n d' a = card_bytes n d a.
Proof. intros Ha [_ H]. apply card_bytes_ext. intros k Hk. by apply H, Ha. Qed.
Lemma same_card_block d d' i : is_block i -> same_card d d' -> card_block d' i = card_block d i.
Proof. intros Hi. by apply same_card_bytes, block_sectors. Qed.

Lemma mmc_read_loop_ok n : forall d a, card_ready d -> sectors n a ->
  exists d', mmc_read_loop n a d = Ok ((0, card_bytes n d a), d') /\ same_card d d'.
Proof.
  induction n as [|n IH]; intros d a Hr Ha; [by exists d|]. cbn [mmc_read_loop card_bytes].
  destruct (sectors_cons _ _ Ha) as (H0 & -> & Hn).
  destruct (card_read_spec d a Hr H0) as (d1 & E1 & H1 & H2). mrun E1. cbn [Z.ltb Z.compare fst snd].
  destruct (IH d1 _ H1 Hn) as (d2 & E2 & H3 & H4). mrun E2. exists d2. split.
  - unfold ret. do 4 f_equal. by apply same_card_bytes.
  - split; [done|]. intros b Hb. by rewrite H4, H2.
Qed.

Lemma mmc_read_ok d i : card_ready d -> is_block i ->
  exists d', mmc_read (i * BLOCK_SIZE) BLOCK_SIZE d = Ok ((0, card_block d i), d') /\ same_card d d'.
Proof. intros Hr Hi. exact (mmc_read_loop_ok 8 d _ Hr (block_sectors i Hi)). Qed.

Lemma mmc_write_loop_ok n : forall d a l, card_ready d -> sectors n a ->
  length l = (n * Z.to_nat MMC_BLOCK_SIZE)%nat -> forallb byte_ok l = true ->
  exists d', mmc_write_loop n a l d = Ok (0, d') /\ card_ready d' /\ card_bytes n d' a = l /\
    forall b, is_sector b -> b < a \/ a + Z.of_nat n * MMC_BLOCK_SIZE <= b -> card_sector d' b = card_sector d b.
Proof.
  induction n as [|n IH]; intros d a l Hr Ha Hl Hy.
  { exists d. split; [done|]. split; [done|]. split; [|done]. by destruct l. }
  cbn [mmc_write_loop card_bytes]. destruct (sectors_cons _ _ Ha) as (H0 & -> & Hn).
  assert (Hs : 0 < MMC_BLOCK_SIZE) by done.
  rewrite <- (take_drop (Z.to_nat MMC_BLOCK_SIZE) l), forallb_app in Hy. apply andb_prop in Hy as [Hy1 Hy2].
  destruct (card_write_spec d a (take (Z.to_nat MMC_BLOCK_SIZE) l) Hr H0) as (d1 & E1 & R1 & H1 & H2);
    [split; [rewrite length_take; lia|done]|]. mrun E1. cbn [Z.ltb Z.compare fst snd].
  destruct (IH d1 (a + MMC_BLOCK_SIZE) (drop (Z.to_nat MMC_BLOCK_SIZE) l) R1 Hn) as (d' & E & R & H3 & H4);
    [rewrite length_drop; lia|done|].
  exists d'. split; [done|]. split; [done|]. split.
  - rewrite H3, H4 by (try done; lia). rewrite H1. apply take_drop.
  - intros b Hb Hd. rewrite H4 by (try done; lia). apply H2; [done|lia].
Qed.

Lemma mmc_write_ok d i l : card_ready d -> is_block i -> block_bytes_ok l ->
  exists d', mmc_write (i * BLOCK_SIZE) BLOCK_SIZE l d = Ok (0, d') /\ card_ready d' /\ card_block d' i = l /\
    forall j, is_block j -> j <> i -> card_block d' j = card_block d j.
Proof.
  intros Hr Hi [Hl Hy]. destruct (mmc_write_loop_ok 8 d (i * BLOCK_SIZE) l Hr (block_sectors i Hi)) as (d' & E & R & H1 & H2);
    [by rewrite Hl|done|].
  exists d'. split; [exact E|]. split; [done|]. split; [done|]. intros j Hj Hne. apply card_bytes_ext. intros k Hk.
  apply H2; [by apply block_sectors|]. unfold is_block, BLOCK_SIZE, MMC_BLOCK_SIZE in *. lia.
Qed.
End Card.

(** ** The cache *)
Section Cache.
#[local] Arguments card_block {D CD} d i : simpl never.
Context {S D : Type} `{KM : KernelMem S} `{CD : Card D}.
Implicit Types (s : blocks S D) (U : gset Z) (d : contents).

Definition own_obj s (c a : Z) : Prop := c = block_cache s /\ is_Some (bk_objs s !! a).
Definition own_pages s : gset Z := list_to_set (bl_page <$> (map_to_list (bk_objs s)).*2).

Record cache_inv s (C : gmap Z Z) (L : Z -> Z -> Prop) U d : Prop := {
  ci_cache : is_Some (C !! block_cache s);
  ci_mem : km_inv (bk_mem s) C (fun c a => L c a \/ own_obj s c a) (U ∪ own_pages s);
  ci_apart : forall a, is_Some (bk_objs s !! a) -> forall c, ~ L c a;
  ci_pages : U ## own_pages s;
  ci_lists : forall a, is_Some (bk_objs s !! a) <-> a ∈ used_blocks s ++ free_blocks s;
  ci_nodup : NoDup (used_blocks s ++ free_blocks s);
  ci_data : forall a x, bk_objs s !! a = Some x -> bl_data x = page_bytes (bl_page x);
  ci_inj : forall a b x y, bk_objs s !! a = Some x -> bk_objs s !! b = Some y -> bl_page x = bl_page y -> a = b;
  ci_used : forall a x, a ∈ used_blocks s -> bk_objs s !! a = Some x -> is_block (bl_index x) /\
    bk_data s !! bl_data x = Some (card_block (bk_card s) (bl_index x));
  ci_index : forall a b x y, a ∈ used_blocks s -> b ∈ used_blocks s -> bk_objs s !! a = Some x ->
    bk_objs s !! b = Some y -> bl_index x = bl_index y -> a = b;
  ci_card : forall i, is_block i -> d i = card_block (bk_card s) i;
  ci_ready : card_ready (bk_card s);
}.

Lemma own_pages_spec s p : p ∈ own_pages s <-> exists a x, bk_objs s !! a = Some x /\ bl_page x = p.
Proof.
  unfold own_pages. rewrite elem_of_list_to_set, list_elem_of_fmap. split.
  - intros (x & -> & Hx). apply list_elem_of_fmap in Hx as ([a y] & -> & Hy).
    apply elem_of_map_to_list in Hy. by exists a, y.
  - intros (a & x & Ha & <-). exists x. split; [done|]. apply list_elem_of_fmap. exists (a, x).
    split; [done|]. by apply elem_of_map_to_list.
Qed.
Lemma km_ext_pages m C L U U' : U = U' -> km_inv m C L U -> km_inv m C L U'.
Proof. by intros ->. Qed.

(** A fresh block object on a page of its own. *)
Lemma prepare_ok s C L U d : cache_inv s C L U d -> free_blocks s = [] ->
  runs prepare_blocks s (fun _ s' => cache_inv s' C L U d /\ (exists b, free_blocks s' = [b]) /\
    used_blocks s' = used_blocks s /\ forall a, a ∈ used_blocks s -> bk_objs s' !! a = bk_objs s !! a).
Proof.
  intros HI Hf. unfold prepare_blocks. apply runs_bind, runs_within. apply runs_inv.
  destruct (km_page_alloc_spec _ _ _ _ _ _ (ci_mem _ _ _ _ _ HI) order_for_page) as [E|(p & m1 & E & Hp & _ & H1)];
    [by left|right]. eexists _, _. split; [exact E|].
  change (Z.to_nat BLOCKS_PER_PAGE) with 1%nat. cbn [prepare_loop]. rgets.
  change (block_cache (set_bk_mem m1 s)) with (block_cache s). destruct (ci_cache _ _ _ _ _ HI) as [osz Hc].
  apply runs_bind, runs_within. apply runs_inv. change (bk_mem (set_bk_mem m1 s)) with m1.
  destruct (km_obj_alloc_spec _ _ _ _ _ _ H1 Hc) as [E2|(a & m2 & E2 & Ha & Hn & H2)]; [by left|right].
  eexists _, _. split; [exact E2|]. rmodify. rmodify. rret. cbn.
  assert (Hao : bk_objs s !! a = None).
  { destruct (bk_objs s !! a) eqn:E'; [|done]. destruct (Ha (block_cache s)). right. split; [done|]. by rewrite E'. }
  assert (Hpo : forall b x, bk_objs s !! b = Some x -> bl_page x <> p).
  { intros b x Hb Hpx. apply Hp. apply elem_of_union_r. apply own_pages_spec. by exists b, x. }
  split; [|split; [by exists a; rewrite Hf|split; [done|]]].
  2: { intros b Hb. rewrite lookup_insert_ne; [done|]. intros ->.
       assert (Hs : is_Some (bk_objs s !! b)) by (apply (ci_lists _ _ _ _ _ HI); set_solver).
       rewrite Hao in Hs. by destruct Hs. }
  assert (Hown : own_pages (Blocks m2 (bk_card s) (block_cache s) (<[a := Block 0 p (page_bytes p + 0 * BLOCK_SIZE)]> (bk_objs s))
    (bk_data s) (used_blocks s) (a :: free_blocks s)) = {[p]} ∪ own_pages s).
  { apply set_eq. intros q. rewrite elem_of_union, elem_of_singleton, !own_pages_spec. cbn. split.
    - intros (b & x & Hb & <-). destruct (decide (a = b)) as [<-|Hne].
      + rewrite lookup_insert_eq in Hb. injection Hb as <-. by left.
      + rewrite lookup_insert_ne in Hb by done. right. by exists b, x.
    - intros [->|(b & x & Hb & <-)].
      + eexists a, _. by rewrite lookup_insert_eq.
      + exists b, x. rewrite lookup_insert_ne by congruence. done. }
  destruct HI as [I1 I2 I3 I4 I5 I6 I7 I8 I9 I10 I11 I12]. rewrite Hf in *. rewrite app_nil_r in I5, I6.
  unfold set_bk_mem, set_bk_objs, set_free_blocks. cbn. split; cbn in *; try done.
  - eapply km_ext_pages; [|eapply km_ext; [|exact H2]].
    + rewrite Hown. set_solver.
    + intros c x. unfold own_obj. cbn. destruct (decide (a = x)) as [<-|Hne].
      * rewrite lookup_insert_eq, Hao. split; [intros [[?|[_ [? [=]]]]|[-> _]]; [by left|by right]|].
        intros [?|[-> _]]; [by left; left|by right].
      * rewrite lookup_insert_ne by done. split; [intros [?|[_ ->]]; done|by left].
  - intros b Hb c. destruct (decide (a = b)) as [<-|Hne]; [|rewrite lookup_insert_ne in Hb by done; by apply I3].
    intros HL. apply (Ha c). by left.
  - rewrite Hown. set_solver.
  - intros b. rewrite elem_of_app, list_elem_of_singleton. destruct (decide (a = b)) as [<-|Hne].
    + rewrite lookup_insert_eq. split; [by right|done].
    + rewrite lookup_insert_ne by done. rewrite I5. split; [by left|intros [?|?]; congruence].
  - apply NoDup_app. split_and!; [done| |apply NoDup_singleton]. intros b Hb ->%list_elem_of_singleton.
    apply I5 in Hb. rewrite Hao in Hb. by destruct Hb.
  - intros b x. destruct (decide (a = b)) as [<-|Hne].
    + rewrite lookup_insert_eq. intros [= <-]. cbn. lia.
    + rewrite lookup_insert_ne by done. apply I7.
  - intros b1 b2 x y. destruct (decide (a = b1)) as [<-|H1'], (decide (a = b2)) as [<-|H2'];
      rewrite ?lookup_insert_eq, ?lookup_insert_ne by done; [done| | |by apply I8].
    + intros [= <-] Hy. cbn. intros Hpp. destruct (Hpo _ _ Hy). done.
    + intros Hx [= <-]. cbn. intros Hpp. by destruct (Hpo _ _ Hx).
  - intros b x Hb. assert (a <> b) by (intros ->; apply I5 in Hb; rewrite Hao in Hb; by destruct Hb).
    rewrite lookup_insert_ne by done. by apply I9.
  - intros b1 b2 x y Hb1 Hb2. assert (a <> b1) by (intros ->; apply I5 in Hb1; rewrite Hao in Hb1; by destruct Hb1).
    assert (a <> b2) by (intros ->; apply I5 in Hb2; rewrite Hao in Hb2; by destruct Hb2).
    rewrite !lookup_insert_ne by done. by apply I10.
Qed.
Lemma find_block_ok s l i : (forall a, a ∈ l -> is_Some (bk_objs s !! a)) ->
  exists o, find_block l i s = Ok (o, s) /\
    match o with
    | Some b => exists x, b ∈ l /\ bk_objs s !! b = Some x /\ bl_index x = i
    | None => forall a x, a ∈ l -> bk_objs s !! a = Some x -> bl_index x <> i
    end.
Proof.
  induction l as [|b l IH]; intros Hl; [exists None; split; [done|]; intros a x Ha; by apply not_elem_of_nil in Ha|].
  destruct (Hl b ltac:(by left)) as [x Hx]. cbn [find_block].
  erewrite bind_ok by (unfold get_block_obj; erewrite (bind_ok (gets _)) by reflexivity; by rewrite Hx).
  destruct (Z.eqb_spec (bl_index x) i) as [Hi|Hi].
  - exists (Some b). split; [done|]. exists x. split; [by left|done].
  - destruct IH as (o & E & Ho); [intros a Ha; apply Hl; by right|]. exists o. split; [done|]. destruct o as [c|].
    + destruct Ho as (y & Hy & H). exists y. split; [by right|done].
    + intros a y [->|Ha]%elem_of_cons Hy; [congruence|]. by eapply Ho.
Qed.

(** The first free block is given to the block [i] of the card. *)
Definition take_free (i b : Z) (free : list Z) : M (blocks S D) Z :=
  do* modify (set_free_blocks free) in
  let* x := get_block_obj b in
  do* put_block_obj b (Block i (bl_page x) (bl_data x)) in
  do* modify (fun s => set_used_blocks (b :: used_blocks s) s) in
  let* r := on_card (mmc_read (i * BLOCK_SIZE) BLOCK_SIZE) in
  do* modify (fun s => set_bk_data (<[bl_data x := snd r]> (bk_data s)) s) in
  ret b.

Lemma page_bytes_inj p q : page_bytes p = page_bytes q -> p = q.
Proof. unfold page_bytes, PAGE_SIZE. lia. Qed.

(** Objects that keep their pages keep the set of the pages. *)
Lemma own_pages_insert s s' b x i : bk_objs s !! b = Some x ->
  bk_objs s' = <[b := Block i (bl_page x) (bl_data x)]> (bk_objs s) -> own_pages s' = own_pages s.
Proof.
  intros Hx Ho. apply set_eq. intros q. rewrite !own_pages_spec, Ho. split.
  - intros (a & y & Ha & <-). destruct (decide (b = a)) as [<-|Hne].
    + rewrite lookup_insert_eq in Ha. injection Ha as <-. by exists b, x.
    + rewrite lookup_insert_ne in Ha by done. by exists a, y.
  - intros (a & y & Ha & <-). destruct (decide (b = a)) as [<-|Hne].
    + exists b, (Block i (bl_page x) (bl_data x)). rewrite lookup_insert_eq. split; [done|]. cbn. congruence.
    + exists a, y. by rewrite lookup_insert_ne.
Qed.

Lemma take_free_ok s C L U d i b free : cache_inv s C L U d -> is_block i -> free_blocks s = b :: free ->
  (forall a x, a ∈ used_blocks s -> bk_objs s !! a = Some x -> bl_index x <> i) ->
  runs (take_free i b free) s (fun r s' => r = b /\ cache_inv s' C L U d /\ b ∈ used_blocks s' /\
    exists x, bk_objs s' !! b = Some x /\ bl_index x = i).
Proof.
  intros HI Hi Hf Hnew. destruct HI as [I1 I2 I3 I4 I5 I6 I7 I8 I9 I10 I11 I12]. rewrite Hf in I5, I6.
  destruct (proj2 (I5 b) ltac:(set_solver)) as [x Hx]. unfold take_free. rmodify.
  apply runs_bind. eapply runs_ok; [unfold get_block_obj; erewrite (bind_ok (gets _)) by reflexivity; cbn; by rewrite Hx|].
  rmodify. rmodify. apply runs_bind, runs_within.
  destruct (mmc_read_ok (bk_card s) i I12 Hi) as (cd & E & Hcd). eapply runs_ok; [exact E|]. rmodify. rret. cbn.
  apply NoDup_app in I6 as (N1 & N2 & [N3 N4]%NoDup_cons).
  assert (Hbu : b ∉ used_blocks s) by (intros H; by apply (N2 b H); left).
  assert (Hdata : forall a y, a <> b -> bk_objs s !! a = Some y -> bl_data y <> bl_data x).
  { intros a y Hne Hy Hd. rewrite (I7 _ _ Hy), (I7 _ _ Hx) in Hd. apply page_bytes_inj in Hd. by eapply Hne, I8. }
  assert (Hlook : forall a y, a ∈ used_blocks s ->
    <[b := Block i (bl_page x) (bl_data x)]> (bk_objs s) !! a = Some y -> bk_objs s !! a = Some y).
  { intros a y Ha. by rewrite lookup_insert_ne by congruence. }
  split; [done|]. split; [|split; [by left|eexists; by rewrite lookup_insert_eq]].
  assert (Hown : own_pages (Blocks (bk_mem s) cd (block_cache s) (<[b := Block i (bl_page x) (bl_data x)]> (bk_objs s))
    (<[bl_data x := card_block (bk_card s) i]> (bk_data s)) (b :: used_blocks s) free) = own_pages s)
    by (eapply own_pages_insert; [exact Hx|reflexivity]).
  assert (Hsome : forall a, is_Some (<[b := Block i (bl_page x) (bl_data x)]> (bk_objs s) !! a) <-> is_Some (bk_objs s !! a)).
  { intros a. destruct (decide (b = a)) as [<-|]; [by rewrite lookup_insert_eq, Hx|by rewrite lookup_insert_ne]. }
  unfold set_bk_data, set_bk_card, set_used_blocks, set_bk_objs, set_free_blocks; cbn.
  split; cbn in *; rewrite ?Hown; try done.
  - eapply km_ext; [|exact I2]. intros c a. unfold own_obj. cbn. by rewrite Hsome.
  - intros a Ha. apply I3. by apply Hsome.
  - intros a. rewrite Hsome, I5. set_solver.
  - constructor; [set_solver|]. apply NoDup_app. split_and!; [done| |done]. intros a Ha Hfa. by apply (N2 a Ha); right.
  - intros a y. destruct (decide (b = a)) as [<-|Hne]; [|rewrite lookup_insert_ne by done; apply I7].
    rewrite lookup_insert_eq. intros [= <-]. cbn. by apply (I7 b).
  - intros a1 a2 y1 y2. destruct (decide (b = a1)) as [<-|H1], (decide (b = a2)) as [<-|H2];
      rewrite ?lookup_insert_eq, ?lookup_insert_ne by done; [done| | |by apply I8].
    + intros [= <-] Hy. cbn. by apply I8.
    + intros Hy [= <-]. cbn. by apply I8.
  - intros a y Ha Hy. destruct (decide (b = a)) as [<-|Hne].
    + rewrite lookup_insert_eq in Hy. injection Hy as <-. cbn. rewrite lookup_insert_eq.
      split; [done|]. by rewrite (same_card_block _ _ _ Hi Hcd).
    + rewrite lookup_insert_ne in Hy by done. apply elem_of_cons in Ha as [|Ha]; [congruence|].
      destruct (I9 _ _ Ha Hy) as [H1 H2]. split; [done|].
      rewrite lookup_insert_ne by (apply not_eq_sym; by eapply Hdata). by rewrite (same_card_block _ _ _ H1 Hcd).
  - intros a1 a2 y1 y2 [->|H1]%elem_of_cons [->|H2]%elem_of_cons; rewrite ?lookup_insert_eq; [done| | |].
    + intros [= <-] Hy%(Hlook _ _ H2). cbn. intros Hd. by destruct (Hnew _ _ H2 Hy).
    + intros Hy%(Hlook _ _ H1) [= <-]. cbn. intros Hd. by destruct (Hnew _ _ H1 Hy).
    + intros Hy1%(Hlook _ _ H1) Hy2%(Hlook _ _ H2). by eapply I10.
  - intros j Hj. rewrite (same_card_block _ _ _ Hj Hcd). by apply I11.
  - apply Hcd.
Qed.

Lemma cache_get_block_ok s C L U d i : cache_inv s C L U d -> is_block i ->
  runs (cache_get_block i) s (fun b s' => cache_inv s' C L U d /\ b ∈ used_blocks s' /\
    exists x, bk_objs s' !! b = Some x /\ bl_index x = i).
Proof.
  intros HI Hi. unfold cache_get_block. rgets.
  destruct (find_block_ok s (used_blocks s) i) as (o & E & Ho).
  { intros a Ha. apply (ci_lists _ _ _ _ _ HI). set_solver. }
  apply runs_bind. eapply runs_ok; [exact E|]. destruct o as [b|].
  { destruct Ho as (x & Hb & Hx & Hxi). rret. split; [done|]. split; [done|]. by exists x. }
  rgets. destruct (free_blocks s) as [|b0 free0] eqn:Hf.
  - (* the list of free blocks is filled first *)
    eapply runs_step; [apply (prepare_ok _ _ _ _ _ HI Hf)|].
    intros _ s' (HI' & [b Hb] & Hus & Hobj). cbn beta. rgets. rewrite Hb.
    eapply runs_mono; [apply (take_free_ok s' C L U d i b [] HI' Hi Hb)|].
    + intros a x. rewrite Hus. intros Ha. rewrite (Hobj a Ha). by apply Ho.
    + intros r s2 (-> & H). done.
  - apply runs_bind, runs_ret. rgets. rewrite Hf.
    eapply runs_mono; [apply (take_free_ok s C L U d i b0 free0 HI Hi Hf); exact Ho|].
    intros r s2 (-> & H). done.
Qed.
Lemma get_block_obj_ok s a x : bk_objs s !! a = Some x -> get_block_obj a s = Ok (x, s).
Proof. intros H. unfold get_block_obj. erewrite (bind_ok (gets _)) by reflexivity. by rewrite H. Qed.

Lemma block_read_ok s C L U d i : cache_inv s C L U d -> is_block i ->
  runs (block_read i) s (fun l s' => l = d i /\ cache_inv s' C L U d).
Proof.
  intros HI Hi. unfold block_read. eapply runs_step; [by apply (cache_get_block_ok _ _ _ _ _ _ HI)|].
  intros b s' (HI' & Hb & x & Hx & <-). cbn beta. apply runs_bind. eapply runs_ok; [by apply get_block_obj_ok|].
  rgets. destruct (ci_used _ _ _ _ _ HI' _ _ Hb Hx) as [Hix Hd]. eapply runs_opt; [exact Hd|].
  split; [|done]. symmetry. by apply (ci_card _ _ _ _ _ HI').
Qed.

Lemma block_write_ok s C L U d i l : cache_inv s C L U d -> is_block i -> block_bytes_ok l ->
  runs (block_write i l) s (fun _ s' => cache_inv s' C L U (upd_block i l d)).
Proof.
  intros HI Hi Hl. unfold block_write. eapply runs_step; [by apply (cache_get_block_ok _ _ _ _ _ _ HI)|].
  intros b s' (HI' & Hb & x & Hx & Hxi). cbn beta. apply runs_bind. eapply runs_ok; [by apply get_block_obj_ok|].
  rmodify. apply runs_bind, runs_within. destruct (mmc_write_ok (bk_card s') i l (ci_ready _ _ _ _ _ HI') Hi Hl) as (cd & E & Hcd & H1 & H2).
  eapply runs_ok; [exact E|]. rret. destruct HI' as [I1 I2 I3 I4 I5 I6 I7 I8 I9 I10 I11 I12].
  unfold set_bk_data, set_bk_card. split; cbn in *; try done.
  - intros a y Ha Hy. destruct (I9 _ _ Ha Hy) as [Hiy Hd]. split; [done|].
    destruct (decide (a = b)) as [->|Hne].
    + assert (y = x) as -> by congruence. by rewrite lookup_insert_eq, Hxi, H1.
    + rewrite lookup_insert_ne, H2; [done|done| |].
      * intros Hxy. by eapply Hne, I10; [| |done|done|congruence].
      * rewrite (I7 _ _ Hx), (I7 _ _ Hy). intros Hp%page_bytes_inj. by eapply Hne, I8.
  - intros j Hj. unfold upd_block. destruct (decide (j = i)) as [->|Hne]; [by rewrite H1|].
    rewrite H2 by done. by apply I11.
Qed.

(** The memory of the client. *)
Lemma cache_obj_alloc_ok s C L U d c osz : cache_inv s C L U d -> C !! c = Some osz ->
  runs (bk_kmem (km_obj_alloc c)) s (fun a s' => (forall c', ~ L c' a) /\ a <> 0 /\
    cache_inv s' C (fun c' x => L c' x \/ (c' = c /\ x = a)) U d).
Proof.
  intros HI Hc. apply runs_within, runs_inv.
  destruct (km_obj_alloc_spec _ _ _ _ _ _ (ci_mem _ _ _ _ _ HI) Hc) as [E|(a & m & E & Ha & Hn & H)]; [by left|right].
  eexists _, _. split; [exact E|]. split; [intros c' HL; by apply (Ha c'); left|]. split; [done|].
  destruct HI as [I1 I2 I3 I4 I5 I6 I7 I8 I9 I10 I11 I12]. split; cbn; try done.
  - eapply km_ext; [|exact H]. intros c' x. unfold own_obj. cbn. tauto.
  - intros b Hb c' [HL|[-> ->]]; [by eapply I3|]. apply (Ha (block_cache s)). by right.
Qed.

Lemma cache_obj_free_ok s C L U d c a : cache_inv s C L U d -> L c a ->
  runs (bk_kmem (km_obj_free c a)) s (fun _ s' => cache_inv s' C (fun c' x => L c' x /\ x <> a) U d).
Proof.
  intros HI HL. apply runs_within, runs_inv.
  destruct (km_obj_free_spec _ _ _ _ c a (ci_mem _ _ _ _ _ HI) (or_introl HL)) as (m & E & H). right.
  eexists _, _. split; [exact E|]. destruct HI as [I1 I2 I3 I4 I5 I6 I7 I8 I9 I10 I11 I12]. split; cbn; try done.
  - eapply km_ext; [|exact H]. intros c' x. unfold own_obj. cbn. split; [tauto|].
    intros [[? ?]|[-> Hx]]; [tauto|]. split; [tauto|]. intros ->. by eapply I3.
  - intros b Hb c' [HL' _]. by eapply I3.
Qed.

Lemma cache_page_alloc_ok s C L U d size k : cache_inv s C L U d -> order_for size k ->
  runs (bk_kmem (km_page_alloc size)) s (fun i s' => i ∉ U /\ cache_inv s' C L ({[i]} ∪ U) d).
Proof.
  intros HI Hk. apply runs_within, runs_inv.
  destruct (km_page_alloc_spec _ _ _ _ _ _ (ci_mem _ _ _ _ _ HI) Hk) as [E|(i & m & E & Hi & _ & H)]; [by left|right].
  eexists _, _. split; [exact E|]. split; [set_solver|].
  destruct HI as [I1 I2 I3 I4 I5 I6 I7 I8 I9 I10 I11 I12]. split; cbn; try done.
  - eapply km_ext_pages; [|exact H]. change (own_pages (set_bk_mem m s)) with (own_pages s). set_solver.
  - change (own_pages (set_bk_mem m s)) with (own_pages s). set_solver.
Qed.

Lemma cache_page_free_ok s C L U d i : cache_inv s C L U d -> i ∈ U ->
  runs (bk_kmem (km_page_free i)) s (fun _ s' => cache_inv s' C L (U ∖ {[i]}) d).
Proof.
  intros HI Hi. apply runs_within, runs_inv.
  destruct (km_page_free_spec _ _ _ _ i (ci_mem _ _ _ _ _ HI) ltac:(set_solver)) as (m & E & H). right.
  eexists _, _. split; [exact E|].
  destruct HI as [I1 I2 I3 I4 I5 I6 I7 I8 I9 I10 I11 I12]. split; cbn; try done.
  - eapply km_ext_pages; [|exact H]. change (own_pages (set_bk_mem m s)) with (own_pages s). set_solver.
  - change (own_pages (set_bk_mem m s)) with (own_pages s). set_solver.
Qed.

Lemma kmem_card {A} (m : M S A) s a s' : bk_kmem m s = Ok (a, s') -> bk_card s' = bk_card s.
Proof. unfold bk_kmem, within. destruct (m (bk_mem s)) as [[b x]|]; [|done]. by intros [= _ <-]. Qed.

(** The cache of [block_init] satisfies the invariant. *)
Lemma block_init_ok c mem card C L U : card_ready card -> is_Some (C !! c) -> km_inv mem C L U ->
  cache_inv (block_init c mem card) C L U (card_block card).
Proof.
  intros Hr Hc Hm. unfold block_init. split; cbn; try done.
  - eapply km_ext_pages; [|eapply km_ext; [|exact Hm]].
    + symmetry. apply union_empty_r_L.
    + intros c' x. unfold own_obj. cbn. split; [by left|]. intros [?|[_ [? [=]]]]; done.
  - intros a [? [=]].
  - intros a. split; [intros [? [=]]|intros H; by apply not_elem_of_nil in H].
  - constructor.
Qed.
End Cache.

#[export] Program Instance cache_block_store {S D} `{KM : KernelMem S} `{CD : Card D} : BlockStore (blocks S D) := {|
  bs_obj_alloc c := bk_kmem (km_obj_alloc c);
  bs_obj_free c a := bk_kmem (km_obj_free c a);
  bs_page_alloc size := bk_kmem (km_page_alloc size);
  bs_page_free i := bk_kmem (km_page_free i);
  bs_read := block_read;
  bs_write := block_write;
  bs_inv := cache_inv;
  bs_disk s := card_block (bk_card s);
|}.
Next Obligation. intros; cbv beta; by eapply cache_obj_alloc_ok. Qed.
Next Obligation. intros; cbv beta; by eapply cache_obj_free_ok. Qed.
Next Obligation. intros; cbv beta; by eapply cache_page_alloc_ok. Qed.
Next Obligation. intros; cbv beta; by eapply cache_page_free_ok. Qed.
Next Obligation. intros; by apply block_read_ok. Qed.
Next Obligation. intros; by apply block_write_ok. Qed.
Next Obligation.
  intros S D KM CD s C L U d i HI Hi. rewrite (ci_card _ _ _ _ _ HI i Hi). apply card_block_length.
Qed.
Next Obligation. intros S D KM CD s C L U d i HI Hi. cbv beta. by rewrite (ci_card _ _ _ _ _ HI i Hi). Qed.
Next Obligation. intros S D KM CD s c a s' E. cbv beta. by apply kmem_card in E as ->. Qed.
Next Obligation. intros S D KM CD s c a s' E. cbv beta. by apply kmem_card in E as ->. Qed.
Next Obligation. intros S D KM CD s size i s' E. cbv beta. by apply kmem_card in E as ->. Qed.
Next Obligation. intros S D KM CD s i s' E. cbv beta. by apply kmem_card in E as ->. Qed.
Next Obligation.
  intros S D KM CD s C L U d c a HI HL. unfold bk_kmem, within.
  by destruct (km_obj_free_spec _ _ _ _ c a (ci_mem _ _ _ _ _ HI) (or_introl HL)) as (m & -> & _).
Qed.
Next Obligation.
  intros S D KM CD s C L U d i HI Hi. unfold bk_kmem, within.
  by destruct (km_page_free_spec _ _ _ _ i (ci_mem _ _ _ _ _ HI) ltac:(set_solver)) as (m & -> & _).
Qed.
Next Obligation.
  intros S D KM CD s C L U d size k i s' HI Hk. unfold bk_kmem, within.
  destruct (km_page_alloc size (bk_mem s)) as [[j x]|] eqn:E; [|done]. intros [= <- _].
  split; [|exact (km_page_aligned _ _ _ _ _ _ _ _ (ci_mem _ _ _ _ _ HI) Hk E)].
  destruct (km_page_alloc_spec _ _ _ _ _ _ (ci_mem _ _ _ _ _ HI) Hk) as [E'|(i' & m & E' & _ & Hi & _)]; congruence.
Qed.
Next Obligation. intros S D KM CD s size Hs. unfold bk_kmem, within. by rewrite km_too_big. Qed.
Next Obligation.
  intros S D KM CD s C L U d c c' a HI H1 H2. eapply (km_unique _ _ _ _ c c' a (ci_mem _ _ _ _ _ HI)); by left.
Qed.
Next Obligation.
  intros S D KM CD s C L L' U d d' HL Hd [I1 I2 I3 I4 I5 I6 I7 I8 I9 I10 I11 I12]. split; try done.
  - eapply km_ext; [|exact I2]. intros c x. cbv beta. specialize (HL c x). tauto.
  - intros a Ha c. rewrite <- HL. by apply I3.
  - intros i Hi. rewrite <- Hd by done. by apply I11.
Qed.

(** ** Properties *)

(** C28: the block cache refines an array of blocks with write-through: from any
    state of the cache whose invariant gives the block [i] the bytes [d i], a read
    returns them and changes none; after a write, a read of any block gives the
    bytes written or, for another block, the old ones, and the card itself holds
    the new contents.  Unless memory runs out both end, without a fault. *)
Theorem block_cache_correct {S D} `{KM : KernelMem S} `{CD : Card D} (s : blocks S D) C L U (d : contents) i j l :
  cache_inv s C L U d -> is_block i -> is_block j -> block_bytes_ok l ->
  runs (block_read i) s (fun b s' => b = d i /\ cache_inv s' C L U d) /\
  runs (do* block_write i l in block_read j) s (fun b s' =>
    b = (if decide (j = i) then l else d j) /\ cache_inv s' C L U (upd_block i l d) /\
    forall k, is_block k -> card_block (bk_card s') k = if decide (k = i) then l else d k).
Proof.
  intros HI Hi Hj Hl. split; [by apply block_read_ok|].
  eapply runs_step; [by apply (block_write_ok s C L U d i l)|]. intros [] s1 H1. cbn beta.
  eapply runs_mono; [by apply (block_read_ok s1 C L U _ j H1)|]. intros b s2 [-> H2].
  split; [done|]. split; [done|]. intros k Hk. symmetry. apply (ci_card _ _ _ _ _ H2 k Hk).
Qed.

Definition sample_blocks : blocks bump (gmap Z (list Z)) := block_init 1 (Bump 2 0) ∅.

Lemma sample_blocks_ok : cache_inv sample_blocks {[1 := 20]} (fun _ _ => False) ∅ (card_block (∅ : gmap Z (list Z))).
Proof.
  apply block_init_ok; [done|by exists 20|]. unfold km_inv. cbn. split_and!; cbn; try done; try lia.
Qed.

Theorem block_cache_correct_witness :
  runs (do* block_write 7 (replicate 4096 5) in block_read 7) sample_blocks (fun b _ => b = replicate 4096 5).
Proof.
  eapply runs_mono.
  - apply (block_cache_correct sample_blocks _ _ _ _ 7 7 (replicate 4096 5) sample_blocks_ok);
      [unfold is_block; lia|unfold is_block; lia|split; vm_compute; reflexivity].
  - intros b s' (-> & _ & _). rewrite decide_True by reflexivity. reflexivity.
Defined.
