(* ===== verification/Mmc.v ===== *)
(** * mmc.c: properties

    What the controller of the card does when its registers are read and written
    ([reg_write], [MmcLaws]), with a simulated controller as an instance, and the
    proof that the driver of mmc.c on such a controller is a [Card], so that the
    block cache and the file system on it stand on the registers. *)

From stdpp Require Import base numbers list list_numbers gmap.
From S2P Require Import Prelude Bytes Hoare Unix Devices KernelMem Block BlockProofs.

#[local] Open Scope Z_scope.
#[local] Open Scope kernel_scope.

(** ** The controller

    What is under way on the data lines: nothing, a sector of which these words
    have not been read yet, or a sector of which these words have arrived. *)
Inductive transfer : Set :=
| Idle
| Reading (words : list Z)
| Writing (address : Z) (words : list Z).

Record controller : Set := Controller {
  ct_length : Z;
  ct_control : Z;
  ct_argument : Z;
  ct_transfer : transfer;
  ct_sectors : sector_map;
}.
Definition set_transfer (t : transfer) (c : controller) : controller :=
  Controller (ct_length c) (ct_control c) (ct_argument c) t (ct_sectors c).

Definition SECTOR_WORDS : nat := Z.to_nat (SECTOR_SIZE / 4).
Definition bytes_of (words : list Z) : list Z := concat (map le32 words).
Definition reading (words : list Z) : transfer := match words with [] => Idle | _ => Reading words end.

Definition READ_COMMAND : Z := Z.lor (Z.lor MMC_CMD_READ_SINGLE_BLOCK MMC_CMD_RESPONSE) MMC_CMD_ENABLE.
Definition WRITE_COMMAND : Z := Z.lor (Z.lor MMC_CMD_WRITE_SINGLE_BLOCK MMC_CMD_RESPONSE) MMC_CMD_ENABLE.

(** A command with the registers as they are: a transfer of one sector, in the
    direction the control register was set for; the commands of the
    identification of a card start none. *)
Definition start_command (cmd : Z) (c : controller) : option controller :=
  match ct_transfer c with
  | Idle =>
      let ready ctrl := (ct_length c =? SECTOR_SIZE) && (ct_control c =? ctrl) && (ct_argument c mod MMC_BLOCK_SIZE =? 0) in
      if cmd =? READ_COMMAND then
        if ready 0x93 then Some (set_transfer (Reading (words_of (read_sector (ct_sectors c) (ct_argument c)))) c) else None
      else if cmd =? WRITE_COMMAND then
        if ready 0x91 then Some (set_transfer (Writing (ct_argument c) []) c) else None
      else Some c
  | _ => None
  end.
Definition fifo_put (v : Z) (c : controller) : option controller :=
  match ct_transfer c with
  | Writing a ws =>
      if decide (length (ws ++ [v]) = SECTOR_WORDS)
      then Some (Controller (ct_length c) (ct_control c) (ct_argument c) Idle (<[a := bytes_of (ws ++ [v])]> (ct_sectors c)))
      else Some (set_transfer (Writing a (ws ++ [v])) c)
  | _ => None
  end.
(** A write of a register; [None]: nothing is known. *)
Definition reg_write (r v : Z) (c : controller) : option controller :=
  if r =? MMC_ARGUMENT then Some (Controller (ct_length c) (ct_control c) v (ct_transfer c) (ct_sectors c))
  else if r =? MMC_DATA_LENGTH then Some (Controller v (ct_control c) (ct_argument c) (ct_transfer c) (ct_sectors c))
  else if r =? MMC_DATA_CTRL then Some (Controller (ct_length c) v (ct_argument c) (ct_transfer c) (ct_sectors c))
  else if r =? MMC_COMMAND then start_command v c
  else if r =? MMC_FIFO then fifo_put v c
  else if decide (r ∈ [MMC_POWER; MMC_CLOCK; MMC_DATA_TIMER; MMC_CLEAR; MMC_MASK0]) then Some c
  else None.

(** The registers that can be read at any time, without effect. *)
Definition status_registers : list Z :=
  [MMC_STATUS; MMC_MASK0; MMC_RESPONSE0; MMC_RESPONSE1; MMC_RESPONSE2; MMC_RESPONSE3].

(** A device that has such a controller.  The driver waits for nothing: the
    controller takes and gives a word whenever it is asked for one. *)
Class MmcLaws (D : Type) {IO : Mmio D} := {
  mmc_view : D -> controller;
  mmc_write_law : forall d r v c, reg_write r v (mmc_view d) = Some c ->
    exists d', io_write32 (MMC_BASE + r) v d = Ok (tt, d') /\ mmc_view d' = c;
  mmc_read_law : forall d r, r ∈ status_registers ->
    exists v d', io_read32 (MMC_BASE + r) d = Ok (v, d') /\ mmc_view d' = mmc_view d;
  mmc_fifo_law : forall d w ws, ct_transfer (mmc_view d) = Reading (w :: ws) ->
    exists d', io_read32 (MMC_BASE + MMC_FIFO) d = Ok (w, d') /\ mmc_view d' = set_transfer (reading ws) (mmc_view d);
}.

(** The controller itself is one. *)
#[export] Instance sim_mmc : Mmio controller := {|
  io_read32 a c :=
    if decide (a - MMC_BASE ∈ status_registers) then Ok (0, c)
    else match ct_transfer c with
         | Reading (w :: ws) => if a - MMC_BASE =? MMC_FIFO then Ok (w, set_transfer (reading ws) c) else Err Fault
         | _ => Err Fault
         end;
  io_write32 a v c := match reg_write (a - MMC_BASE) v c with Some c => Ok (tt, c) | None => Err Fault end;
|}.
#[export] Program Instance sim_mmc_laws : MmcLaws controller := {| mmc_view c := c |}.
Next Obligation. intros d r v c E. exists c. cbn [io_write32 sim_mmc]. by rewrite Z.add_simpl_l, E. Qed.
Next Obligation.
  intros d r Hr. exists 0, d. cbn [io_read32 sim_mmc]. rewrite Z.add_simpl_l, decide_True by done. done.
Qed.
Next Obligation.
  intros d w ws E. exists (set_transfer (reading ws) d). cbn [io_read32 sim_mmc]. rewrite Z.add_simpl_l.
  rewrite decide_False by exact (bool_decide_eq_false_1 (MMC_FIFO ∈ status_registers) eq_refl). by rewrite E.
Qed.

(** ** Words and bytes *)
Lemma get_word_bytes l i : forallb byte_ok l = true -> (4 * i + 4 <= length l)%nat ->
  le32 (get_word l (Z.of_nat i)) = take 4 (drop (4 * i) l).
Proof.
  intros Hb Hl. unfold get_word, get_le, le32. replace (Z.to_nat (4 * Z.of_nat i)) with (4 * i)%nat by lia.
  change (Z.to_nat 4) with 4%nat. set (k := take 4 (drop (4 * i) l)).
  assert (Hk : length k = 4%nat) by (unfold k; rewrite length_take, length_drop; lia).
  apply Z_to_little_endian_to_Z; [lia|lia|].
  apply Forall_take, Forall_drop. apply Is_true_true in Hb. apply forallb_True in Hb.
  eapply Forall_impl; [exact Hb|]. intros b Hi%Is_true_true. unfold byte_ok in Hi. lia.
Qed.
Lemma words_bytes l : forallb byte_ok l = true -> forall n k, (4 * (k + n) <= length l)%nat ->
  bytes_of (map (fun i => get_word l (Z.of_nat i)) (seq k n)) = take (4 * n) (drop (4 * k) l).
Proof.
  intros Hb. unfold bytes_of. induction n as [|n IH]; intros k Hl; [done|]. cbn [seq map concat].
  rewrite get_word_bytes by (try done; lia). rewrite IH by lia.
  replace (4 * Datatypes.S n)%nat with (4 + 4 * n)%nat by lia. rewrite <- take_take_drop, drop_drop. do 3 f_equal. lia.
Qed.
Lemma sector_words l : sector_ok l -> bytes_of (words_of l) = l.
Proof.
  intros [Hl Hb]. unfold words_of. rewrite words_bytes by (try done; rewrite Hl; vm_compute; lia).
  rewrite drop_0. apply take_ge. by rewrite Hl.
Qed.
Lemma words_of_length l : length (words_of l) = SECTOR_WORDS.
Proof. unfold words_of. by rewrite length_map, length_seq. Qed.

(** ** The driver *)
Section Driver.
Context {D : Type} {IO : Mmio D} {ML : MmcLaws D}.
Implicit Types (d : D) (c : controller).

Lemma write_run {A} d r v c (f : unit -> M D A) (Q : A -> D -> Prop) :
  reg_write r v (mmc_view d) = Some c -> (forall d', mmc_view d' = c -> exists a d2, f tt d' = Ok (a, d2) /\ Q a d2) ->
  exists a d2, bind (io_write32 (MMC_BASE + r) v) f d = Ok (a, d2) /\ Q a d2.
Proof. intros Hw Hf. destruct (mmc_write_law d r v c Hw) as (d' & E & Hv). mrun E. by apply Hf. Qed.
Lemma read_run {A} d r (f : Z -> M D A) (Q : A -> D -> Prop) :
  r ∈ status_registers -> (forall v d', mmc_view d' = mmc_view d -> exists a d2, f v d' = Ok (a, d2) /\ Q a d2) ->
  exists a d2, bind (io_read32 (MMC_BASE + r)) f d = Ok (a, d2) /\ Q a d2.
Proof. intros Hw Hf. destruct (mmc_read_law d r Hw) as (v & d' & E & Hv). mrun E. by apply Hf. Qed.

(** The command, after which the transfer is under way. *)
Lemma send_command_ok d cmd arg c :
  (let s := mmc_view d in start_command cmd (Controller (ct_length s) (ct_control s) arg (ct_transfer s) (ct_sectors s))) = Some c ->
  exists r d', mmc_send_command cmd arg d = Ok (r, d') /\ mmc_view d' = c /\
    (truthy (Z.land cmd MMC_CMD_RESPONSE) = true -> is_Some (cr_resp r !! 0%nat)).
Proof.
  intros Hc. unfold mmc_send_command. eapply write_run; [reflexivity|]. intros d1 H1.
  eapply write_run; [rewrite H1; exact Hc|]. intros d2 H2.
  apply read_run; [set_solver|]. intros status d3 H3. apply read_run; [set_solver|]. intros mask d4 H4.
  eapply write_run; [reflexivity|]. intros d5 H5.
  destruct (truthy _); [|by eexists _, d5; split_and!; [reflexivity|congruence|]].
  do 4 (apply read_run; [set_solver|]; intros ? ? ?). eexists _, _. split_and!; [reflexivity|congruence|by eexists].
Qed.

Lemma set_transfer_id c t : ct_transfer c = t -> set_transfer t c = c.
Proof. intros <-. by destruct c. Qed.
Lemma fifo_read_ok ws : forall d rest, ct_transfer (mmc_view d) = reading (ws ++ rest) ->
  exists d', mmc_fifo_read (length ws) d = Ok (ws, d') /\ mmc_view d' = set_transfer (reading rest) (mmc_view d).
Proof.
  induction ws as [|w ws IH]; intros d rest Ht.
  - exists d. split; [done|]. symmetry. by apply set_transfer_id.
  - cbn [length mmc_fifo_read]. destruct (mmc_fifo_law d w (ws ++ rest) Ht) as (d1 & E1 & H1). mrun E1.
    destruct (IH d1 rest) as (d2 & E2 & H2); [by rewrite H1|]. mrun E2. exists d2. split; [done|]. by rewrite H2, H1.
Qed.
Lemma fifo_read_blocks_ok n : forall d ws, ct_transfer (mmc_view d) = reading ws -> length ws = (n * Z.to_nat MMC_FIFO_SIZE)%nat ->
  exists d', mmc_fifo_read_blocks n d = Ok (ws, d') /\ mmc_view d' = set_transfer Idle (mmc_view d).
Proof.
  induction n as [|n IH]; intros d ws Ht Hl.
  - destruct ws; [|done]. exists d. split; [done|]. symmetry. by apply set_transfer_id.
  - cbn [mmc_fifo_read_blocks]. destruct (mmc_read_law d MMC_STATUS) as (v & d1 & E1 & H1); [set_solver|]. mrun E1.
    rewrite <- (take_drop (Z.to_nat MMC_FIFO_SIZE) ws) in Ht |- *. set (a := take _ ws) in *. set (b := drop _ ws) in *.
    assert (Ha : length a = Z.to_nat MMC_FIFO_SIZE) by (unfold a; rewrite length_take; lia). rewrite <- Ha.
    destruct (fifo_read_ok a d1 b) as (d2 & E2 & H2); [by rewrite H1|]. mrun E2.
    destruct (IH d2 b) as (d3 & E3 & H3); [by rewrite H2|unfold b; rewrite length_drop; lia|]. mrun E3.
    exists d3. split; [done|]. by rewrite H3, H2, H1.
Qed.
Lemma fifo_write_ok ws : forall d a l, ct_transfer (mmc_view d) = Writing a l -> ws <> [] -> length (l ++ ws) = SECTOR_WORDS ->
  exists d', mmc_fifo_write ws d = Ok (tt, d') /\ ct_transfer (mmc_view d') = Idle /\
    ct_sectors (mmc_view d') = <[a := bytes_of (l ++ ws)]> (ct_sectors (mmc_view d)).
Proof.
  induction ws as [|w ws IH]; intros d a l Ht Hn Hl; [done|]. cbn [mmc_fifo_write].
  assert (Hp : reg_write MMC_FIFO w (mmc_view d) = fifo_put w (mmc_view d)) by reflexivity. unfold fifo_put in Hp. rewrite Ht in Hp.
  rewrite length_app in Hl. cbn [length] in Hl. rewrite length_app in Hp. cbn [length] in Hp. destruct ws as [|w' ws].
  - rewrite decide_True in Hp by (cbn in Hl; lia). destruct (mmc_write_law _ _ _ _ Hp) as (d' & E & H). mrun E.
    exists d'. by rewrite H.
  - rewrite decide_False in Hp by (cbn in Hl; lia). destruct (mmc_write_law _ _ _ _ Hp) as (d1 & E & H). mrun E.
    destruct (IH d1 a (l ++ [w])) as (d' & E' & H1 & H2); [by rewrite H|done|rewrite !length_app; cbn in *; lia|].
    exists d'. rewrite H in H2. rewrite <- app_assoc in H2. done.
Qed.

(** A sector: the set-up of the transfer, the command, the words. *)
Definition mmc_ready d : Prop := ct_transfer (mmc_view d) = Idle.
Definition mmc_sector d (a : Z) : list Z := read_sector (ct_sectors (mmc_view d)) a.

Lemma transfer_run {A} d ctrl (f : M D A) (Q : A -> D -> Prop) : mmc_ready d ->
  (forall d', mmc_view d' = Controller SECTOR_SIZE ctrl (ct_argument (mmc_view d)) Idle (ct_sectors (mmc_view d)) ->
     exists a d2, f d' = Ok (a, d2) /\ Q a d2) ->
  exists a d2, (do* io_write32 (MMC_BASE + MMC_DATA_TIMER) 0xa000 in
                do* io_write32 (MMC_BASE + MMC_DATA_LENGTH) 0x200 in
                do* io_write32 (MMC_BASE + MMC_DATA_CTRL) ctrl in f) d = Ok (a, d2) /\ Q a d2.
Proof.
  intros Hr Hf. eapply write_run; [reflexivity|]. intros d1 H1. eapply write_run; [reflexivity|]. intros d2 H2.
  eapply write_run; [reflexivity|]. intros d3 H3. apply Hf. by rewrite H3, H2, H1, <- Hr.
Qed.

Lemma mmc_read_block_ok d a : mmc_ready d -> is_sector a ->
  exists d', mmc_read_block a d = Ok ((0, mmc_sector d a), d') /\ mmc_ready d' /\ ct_sectors (mmc_view d') = ct_sectors (mmc_view d).
Proof.
  intros Hr [Hu Hm].
  assert (H : exists r d', mmc_read_block a d = Ok (r, d') /\ r = (0, mmc_sector d a) /\ mmc_ready d' /\
    ct_sectors (mmc_view d') = ct_sectors (mmc_view d)).
  { apply transfer_run; [done|]. intros d1 H1. rewrite u32_small by done.
    set (ws := words_of (mmc_sector d a)).
    destruct (send_command_ok d1 READ_COMMAND a (Controller SECTOR_SIZE 0x93 a (Reading ws) (ct_sectors (mmc_view d))))
      as (r & d2 & E2 & H2 & _); [rewrite H1; unfold start_command; cbn -[words_of]; by rewrite Hm|].
    mrun E2. destruct (fifo_read_blocks_ok (Z.to_nat (SECTOR_SIZE / 4 / MMC_FIFO_SIZE)) d2 ws) as (d3 & E3 & H3).
    - rewrite H2. cbn [ct_transfer]. unfold ws. by pose proof (words_of_length (mmc_sector d a)); destruct (words_of _).
    - unfold ws. by rewrite words_of_length.
    - mrun E3. eexists _, d3. split; [reflexivity|]. split.
      + f_equal. apply sector_words, (card_sector_bytes (Card := map_card)).
      + unfold mmc_ready. by rewrite H3, H2. }
  destruct H as (r & d' & E & -> & H). by exists d'.
Qed.
Lemma mmc_write_block_ok d a l : mmc_ready d -> is_sector a -> sector_ok l ->
  exists d', mmc_write_block a l d = Ok (0, d') /\ mmc_ready d' /\ ct_sectors (mmc_view d') = <[a := l]> (ct_sectors (mmc_view d)).
Proof.
  intros Hr [Hu Hm] Hl.
  assert (H : exists r d', mmc_write_block a l d = Ok (r, d') /\ r = 0 /\ mmc_ready d' /\
    ct_sectors (mmc_view d') = <[a := l]> (ct_sectors (mmc_view d))).
  { apply transfer_run; [done|]. intros d1 H1. rewrite u32_small by done.
    destruct (send_command_ok d1 WRITE_COMMAND a (Controller SECTOR_SIZE 0x91 a (Writing a []) (ct_sectors (mmc_view d))))
      as (r & d2 & E2 & H2 & _); [rewrite H1; unfold start_command; cbn; by rewrite Hm|].
    mrun E2. pose proof (words_of_length l) as Hw.
    destruct (fifo_write_ok (words_of l) d2 a []) as (d3 & E3 & H3 & H4); [by rewrite H2|by intros Hn; rewrite Hn in Hw|done|].
    mrun E3. exists 0, d3. split_and!; [done|done|done|]. rewrite H4, H2. cbn [ct_sectors app]. by rewrite sector_words. }
  destruct H as (r & d' & E & -> & H). by exists d'.
Qed.

(** [mmc_init] starts no transfer. *)
Lemma mmc_init_ok d : mmc_ready d ->
  exists d', mmc_init d = Ok (tt, d') /\ mmc_ready d' /\ ct_sectors (mmc_view d') = ct_sectors (mmc_view d).
Proof.
  intros Hr. set (same d' := mmc_ready d' /\ ct_sectors (mmc_view d') = ct_sectors (mmc_view d)).
  assert (Hcmd : forall d1 cmd arg, same d1 -> cmd <> READ_COMMAND -> cmd <> WRITE_COMMAND ->
    exists r d2, mmc_send_command cmd arg d1 = Ok (r, d2) /\ same d2 /\ (truthy (Z.land cmd MMC_CMD_RESPONSE) = true -> is_Some (cr_resp r !! 0%nat))).
  { intros d1 cmd arg [H1 H2] N1 N2. unfold mmc_ready in H1.
    edestruct (send_command_ok d1 cmd arg) as (r & d2 & E & H3 & H4).
    - unfold start_command. cbn [ct_transfer]. rewrite H1. rewrite (proj2 (Z.eqb_neq cmd _) N1), (proj2 (Z.eqb_neq cmd _) N2). reflexivity.
    - exists r, d2. split; [exact E|]. split; [|exact H4]. split; [unfold mmc_ready|]; by rewrite H3. }
  enough (H : exists a d', mmc_init d = Ok (a, d') /\ same d') by (destruct H as ([] & d' & E & H); by exists d').
  unfold mmc_init. do 5 (eapply write_run; [reflexivity|]; intros ? ?).
  match goal with |- exists a d2, bind _ _ ?d5 = _ /\ _ => assert (Hs : same d5) by (split; [unfold mmc_ready in *|]; congruence) end.
  do 6 (try clear Hresp; match goal with Hs : same ?d1 |- exists a d2, bind (mmc_send_command ?cmd ?arg) _ ?d1 = _ /\ _ =>
    let E := fresh in edestruct (Hcmd d1 cmd arg Hs) as (? & ? & E & ? & Hresp); [done|done|]; mrun E; clear Hs E end).
  destruct (Hresp eq_refl) as [w Hw]. rewrite Hw. erewrite bind_ok by reflexivity.
  do 2 (match goal with Hs : same ?d1 |- exists a d2, bind (mmc_send_command ?cmd ?arg) _ ?d1 = _ /\ _ =>
    let E := fresh in edestruct (Hcmd d1 cmd arg Hs) as (? & ? & E & ? & _); [done|done|]; mrun E; clear Hs E end).
  eexists _, _. by split.
Qed.
End Driver.

(** The driver on such a controller is a card. *)
#[export] Program Instance mmc_card {D} {IO : Mmio D} {ML : MmcLaws D} : Card D := {|
  card_read := mmc_read_block;
  card_write := mmc_write_block;
  card_ready := mmc_ready;
  card_sector := mmc_sector;
|}.
Next Obligation. intros D IO ML d a. apply (card_sector_bytes (Card := map_card)). Qed.
Next Obligation.
  intros D IO ML d a Hr Ha. destruct (mmc_read_block_ok d a Hr Ha) as (d' & E & R & H). exists d'.
  split_and!; [done|done|]. intros b _. unfold mmc_sector. by rewrite H.
Qed.
Next Obligation.
  intros D IO ML d a l Hr Ha Hl. destruct (mmc_write_block_ok d a l Hr Ha Hl) as (d' & E & R & H). exists d'.
  destruct (card_write_spec (Card := map_card) (ct_sectors (mmc_view d)) a l I Ha Hl) as (x & [= <-] & _ & H1 & H2).
  unfold mmc_sector. rewrite H. by split_and!.
Qed.

(** ** Properties *)

(** C29: mmc.c on the registers of the controller.  [mmc_init] leaves the sectors
    of the card as they are.  A block of 4096 bytes is read with one command and
    128 words of the FIFO for each of its eight sectors, and the bytes are those
    of the card; a block that was written, and every other block, is read back
    unchanged.  Each call ends with no transfer under way, so that the next one
    can start.  The block cache over this driver writes through to the sectors. *)
Theorem mmc_driver_correct {S D : Type} `{KM : KernelMem S} {IO : Mmio D} {ML : MmcLaws D} (d : D) i j l :
  mmc_ready d -> is_block i -> is_block j -> block_bytes_ok l ->
  (exists d', mmc_init d = Ok (tt, d') /\ mmc_ready d' /\ forall a, mmc_sector d' a = mmc_sector d a) /\
  (exists d', mmc_read (i * BLOCK_SIZE) BLOCK_SIZE d = Ok ((0, card_block d i), d') /\ mmc_ready d' /\
     forall k, is_block k -> card_block d' k = card_block d k) /\
  (exists d', (let* r := mmc_write (i * BLOCK_SIZE) BLOCK_SIZE l in mmc_read (j * BLOCK_SIZE) BLOCK_SIZE) d =
     Ok ((0, if decide (j = i) then l else card_block d j), d') /\ mmc_ready d') /\
  forall (mem : S) C L U c, is_Some (C !! c) -> km_inv mem C L U ->
    runs (do* block_write i l in block_read j) (block_init c mem d) (fun b s' =>
      b = (if decide (j = i) then l else card_block d j) /\ card_block (bk_card s') i = l).
Proof.
  intros Hr Hi Hj Hl. assert (Hd : card_ready d) by exact Hr. split; [|split; [|split]].
  - destruct (mmc_init_ok d Hr) as (d' & E & R & H). exists d'. split_and!; [done|done|]. intros a. unfold mmc_sector. by rewrite H.
  - destruct (mmc_read_ok d i Hd Hi) as (d' & E & Hs). exists d'. split_and!; [done|apply Hs|].
    intros k Hk. by apply same_card_block.
  - destruct (mmc_write_ok d i l Hd Hi Hl) as (d1 & E1 & R1 & H1 & H2). mrun E1.
    destruct (mmc_read_ok d1 j R1 Hj) as (d' & E & Hs). exists d'. split; [|apply Hs]. rewrite E. do 3 f_equal.
    case_decide as He; [by rewrite He|by apply H2].
  - intros mem C L U c Hc Hm. pose proof (block_init_ok c mem d C L U Hd Hc Hm) as HI.
    eapply runs_step; [by apply (block_write_ok _ C L U _ i l HI)|]. intros [] s1 H1. cbn beta.
    eapply runs_mono; [by apply (block_read_ok s1 C L U _ j H1)|]. intros b s2 [-> H2]. split; [done|].
    rewrite <- (ci_card _ _ _ _ _ H2 i Hi). unfold upd_block. by rewrite decide_True.
Qed.

Definition sample_controller : controller := Controller 0 0 0 Idle ∅.

Theorem mmc_driver_correct_witness :
  exists d', (let* r := mmc_write (3 * BLOCK_SIZE) BLOCK_SIZE (replicate 4096 7) in mmc_read (3 * BLOCK_SIZE) BLOCK_SIZE)
    sample_controller = Ok ((0, replicate 4096 7), d') /\ mmc_ready d'.
Proof.
  destruct (mmc_driver_correct (S := bump) sample_controller 3 3 (replicate 4096 7)) as (_ & _ & H & _).
  - reflexivity.
  - unfold is_block. lia.
  - unfold is_block. lia.
  - split; vm_compute; reflexivity.
  - rewrite decide_True in H by reflexivity. exact H.
Defined.
