(* ===== verification/Minix.v ===== *)
(** * minix.h and superblock.c: the formats on the disk

    Blocks are lists of bytes; the structures of [minix.h] are read out of them
    and written into them at their C offsets, little endian ([Bytes]). *)

From stdpp Require Import base numbers list list_numbers gmap.
From S2P Require Import Prelude Bytes Buddy BuddyProofs Hoare Block BlockProofs.

#[local] Open Scope Z_scope.
#[local] Open Scope kernel_scope.

Definition NAME_MAX : Z := 60.
Definition SUPER_MAGIC_V3 : Z := 0x4d5a.
Definition SUPERBLOCK_ADDRESS : Z := 0x400.

(** ** The structures *)
Record minix3_superblock : Set := Superblock {
  s_ninodes : Z;
  s_imap_blocks : Z;
  s_zmap_blocks : Z;
  s_firstdatazone : Z;
  s_log_zone_size : Z;
  s_max_size : Z;
  s_zones : Z;
  s_magic : Z;
  s_blocksize : Z;
  s_disk_version : Z;
}.
Definition decode_superblock (l : list Z) : minix3_superblock :=
  Superblock (get_le 4 l 0) (get_le 2 l 6) (get_le 2 l 8) (get_le 2 l 10) (get_le 2 l 12)
             (get_le 4 l 16) (get_le 4 l 20) (get_le 2 l 24) (get_le 2 l 28) (get_le 1 l 30).
Definition SUPERBLOCK_BYTES : Z := 32.

Record minix2_inode : Set := MinixInode {
  i_mode : Z;
  i_nlinks : Z;
  i_uid : Z;
  i_gid : Z;
  i_size : Z;
  i_atime : Z;
  i_mtime : Z;
  i_ctime : Z;
  i_zone : list Z;
}.
Definition set_i_mode (v : Z) (x : minix2_inode) : minix2_inode :=
  MinixInode v (i_nlinks x) (i_uid x) (i_gid x) (i_size x) (i_atime x) (i_mtime x) (i_ctime x) (i_zone x).
Definition set_i_nlinks (v : Z) (x : minix2_inode) : minix2_inode :=
  MinixInode (i_mode x) v (i_uid x) (i_gid x) (i_size x) (i_atime x) (i_mtime x) (i_ctime x) (i_zone x).
Definition set_i_size (v : Z) (x : minix2_inode) : minix2_inode :=
  MinixInode (i_mode x) (i_nlinks x) (i_uid x) (i_gid x) v (i_atime x) (i_mtime x) (i_ctime x) (i_zone x).
Definition set_i_zone (v : list Z) (x : minix2_inode) : minix2_inode :=
  MinixInode (i_mode x) (i_nlinks x) (i_uid x) (i_gid x) (i_size x) (i_atime x) (i_mtime x) (i_ctime x) v.
(** The inode of [memset(&minix_inode, 0, ...)]. *)
Definition zero_inode : minix2_inode := MinixInode 0 0 0 0 0 0 0 0 (replicate 10 0).

Definition INODE_BYTES : Z := 64.
Definition decode_inode (l : list Z) : minix2_inode :=
  MinixInode (get_le 2 l 0) (get_le 2 l 2) (get_le 2 l 4) (get_le 2 l 6) (get_le 4 l 8)
             (get_le 4 l 12) (get_le 4 l 16) (get_le 4 l 20)
             (map (fun i => get_word (drop 24 l) (Z.of_nat i)) (seq 0 10)).
Definition encode_inode (x : minix2_inode) : list Z :=
  le16 (i_mode x) ++ le16 (i_nlinks x) ++ le16 (i_uid x) ++ le16 (i_gid x) ++ le32 (i_size x) ++
  le32 (i_atime x) ++ le32 (i_mtime x) ++ le32 (i_ctime x) ++ concat (map le32 (i_zone x)).

Record minix3_dirent : Set := Dirent { d_ino : Z; d_name : list Z }.
Definition DIRENT_SIZE : Z := 64.
Definition decode_dirent (l : list Z) : minix3_dirent :=
  Dirent (get_le 4 l 0) (take (Z.to_nat NAME_MAX) (drop 4 l)).
Definition encode_dirent (x : minix3_dirent) : list Z := le32 (d_ino x) ++ d_name x.

(** ** superblock.c *)
Section Superblock.
Context {S : Type} `{BS : BlockStore S}.

(** A scratch page for the time of a block of code: [_page_cleanup_]. *)
Definition with_page {A} (size : Z) (body : M S A) : M S A :=
  let* page := bs_page_alloc size in
  let* r := body in
  do* bs_page_free page in
  ret r.

Definition superblock_init : M S minix3_superblock :=
  with_page BLOCK_SIZE
    (do* (if BLOCK_SIZE <? SUPERBLOCK_ADDRESS + SUPERBLOCK_BYTES then fail Halt else ret tt) in
     let* buf := bs_read 0 in
     let* bytes := opt Fault (slice buf SUPERBLOCK_ADDRESS SUPERBLOCK_BYTES) in
     let superblock := decode_superblock bytes in
     if negb (s_magic superblock =? SUPER_MAGIC_V3) then fail Halt
     else if truthy (s_log_zone_size superblock) then fail Halt
     else if negb (s_blocksize superblock =? BLOCK_SIZE) then fail Halt
     else ret superblock).
End Superblock.

(** ** Lemmas on the formats *)
(** The fields of an inode are in their ranges. *)
Record inode_wf (x : minix2_inode) : Prop := {
  wf_mode : 0 <= i_mode x < 2 ^ 16;
  wf_nlinks : 0 <= i_nlinks x < 2 ^ 16;
  wf_uid : 0 <= i_uid x < 2 ^ 16;
  wf_gid : 0 <= i_gid x < 2 ^ 16;
  wf_size : is_u32 (i_size x);
  wf_atime : is_u32 (i_atime x);
  wf_mtime : is_u32 (i_mtime x);
  wf_ctime : is_u32 (i_ctime x);
  wf_zones : length (i_zone x) = 10%nat;
  wf_zone : Forall is_u32 (i_zone x);
}.

Lemma encode_inode_length x : length (i_zone x) = 10%nat -> length (encode_inode x) = 64%nat.
Proof.
  intros H. destruct x as [a b c d e f g h z]. cbn [i_zone] in H. do 11 (destruct z as [|? z]; try discriminate).
  reflexivity.
Qed.

(** What is written as an inode is read back as it. *)
Lemma decode_encode_inode x rest : inode_wf x -> decode_inode (encode_inode x ++ rest) = x.
Proof.
  intros [H1 H2 H3 H4 H5 H6 H7 H8 H9 H10]. destruct x as [a b c d e f g h z]. unfold decode_inode, encode_inode in *.
  cbn [i_mode i_nlinks i_uid i_gid i_size i_atime i_mtime i_ctime i_zone] in *.
  unfold is_u32 in *. rewrite <- !app_assoc.
  assert (Hd : drop 24 (le16 a ++ le16 b ++ le16 c ++ le16 d ++ le32 e ++ le32 f ++ le32 g ++ le32 h ++
    concat (map le32 z) ++ rest) = concat (map le32 z) ++ rest) by reflexivity.
  rewrite Hd. f_equal.
  9: { etransitivity; [|exact (words_decode z rest H10 0)]. rewrite H9. apply map_ext. intros i. by rewrite Z.sub_0_r. }
  all: unfold le16, le32; repeat rewrite get_le_skip by lia; rewrite get_le_head by lia; done.
Qed.
