(* ===== verification/Inode.v ===== *)
(** * inode.c: model

    Inodes and directory entries are objects kept by address; the list of the
    inodes in memory is the sequence of their addresses.  The disk is reached
    through [BlockStore].  A buffer of a scratch page is a local list of bytes:
    every function fills it from a block before it looks at it.  Where C converts
    a number to [block_index], the model applies [u16].  The proofs are in
    [InodeProofs] and [InodeSpecs]. *)

From stdpp Require Import base numbers list list_numbers gmap.
From S2P Require Import Prelude Bytes Buddy BuddyProofs Unix Hoare Block BlockProofs Minix.

#[local] Open Scope Z_scope.
#[local] Open Scope kernel_scope.

(** [struct inode], without its list link. *)
Record inode : Set := Inode { n_index : Z; n_mode : Z; n_nlinks : Z; n_size : Z }.
Definition set_n_mode (v : Z) (x : inode) : inode := Inode (n_index x) v (n_nlinks x) (n_size x).
Definition set_n_nlinks (v : Z) (x : inode) : inode := Inode (n_index x) (n_mode x) v (n_size x).
Definition set_n_size (v : Z) (x : inode) : inode := Inode (n_index x) (n_mode x) (n_nlinks x) v.

(** [struct dentry]: pointers are addresses, the list of the children is the
    sequence of their addresses. *)
Record dentry : Set := Dentry {
  de_name : list Z;
  de_flags : Z;
  de_nentries : Z;
  de_inode : Z;
  de_parent : Z;
  de_children : list Z;
}.

(** The file system: the store below it, and the static variables of
    superblock.c, inode.c and dentry.c. *)
Record fsys (S : Type) : Type := Fsys {
  fs_store : S;
  superblock : minix3_superblock;
  inode_cache : Z;
  fs_inodes : gmap Z inode;
  inodes : list Z;
  dentry_cache : Z;
  fs_dentries : gmap Z dentry;
  root_dentry : Z;
}.
Arguments Fsys {S}.
Arguments fs_store {S}.
Arguments superblock {S}.
Arguments inode_cache {S}.
Arguments fs_inodes {S}.
Arguments inodes {S}.
Arguments dentry_cache {S}.
Arguments fs_dentries {S}.
Arguments root_dentry {S}.
Definition set_fs_store {S} (v : S) (x : fsys S) : fsys S :=
  Fsys v (superblock x) (inode_cache x) (fs_inodes x) (inodes x) (dentry_cache x) (fs_dentries x) (root_dentry x).
Definition set_fs_inodes {S} (v : gmap Z inode) (x : fsys S) : fsys S :=
  Fsys (fs_store x) (superblock x) (inode_cache x) v (inodes x) (dentry_cache x) (fs_dentries x) (root_dentry x).
Definition set_inodes {S} (v : list Z) (x : fsys S) : fsys S :=
  Fsys (fs_store x) (superblock x) (inode_cache x) (fs_inodes x) v (dentry_cache x) (fs_dentries x) (root_dentry x).
Definition set_fs_dentries {S} (v : gmap Z dentry) (x : fsys S) : fsys S :=
  Fsys (fs_store x) (superblock x) (inode_cache x) (fs_inodes x) (inodes x) (dentry_cache x) v (root_dentry x).
Definition set_root_dentry {S} (v : Z) (x : fsys S) : fsys S :=
  Fsys (fs_store x) (superblock x) (inode_cache x) (fs_inodes x) (inodes x) (dentry_cache x) (fs_dentries x) v.

Section Inode.
Context {S : Type} `{BS : BlockStore S}.
Notation state := (fsys S).

(** ** Access *)
Definition store {A} (m : M S A) : M state A := within fs_store set_fs_store m.
(** [block_index] arguments are converted to 16 bits. *)
Definition blk_read (i : Z) : M state (list Z) := store (bs_read (u16 i)).
Definition blk_write (i : Z) (l : list Z) : M state unit := store (bs_write (u16 i) l).
Definition get_inode_obj (a : Z) : M state inode :=
  let* m := gets fs_inodes in opt Fault (m !! a).
Definition put_inode_obj (a : Z) (x : inode) : M state unit :=
  modify (fun s => set_fs_inodes (<[a := x]> (fs_inodes s)) s).
Definition upd_inode_obj (a : Z) (f : inode -> inode) : M state unit :=
  let* x := get_inode_obj a in put_inode_obj a (f x).
(** A scratch page: [_page_cleanup_ struct page *page = buddy_alloc(size)]. *)
Definition scratch {A} (size : Z) (body : M state A) : M state A :=
  let* page := store (bs_page_alloc size) in
  let* r := body in
  do* store (bs_page_free page) in
  ret r.

Definition IMAP_BLOCKS : M state Z := gets (fun s => s_imap_blocks (superblock s)).
Definition IMAP_LIMITS : M state Z := gets (fun s => s_ninodes (superblock s)).
Definition ZMAP_BLOCKS : M state Z := gets (fun s => s_zmap_blocks (superblock s)).
Definition ZMAP_LIMITS : M state Z :=
  gets (fun s => u32 (s_zones (superblock s) - s_firstdatazone (superblock s))).
Definition FIRST_DATA_ZONE : M state Z := gets (fun s => s_firstdatazone (superblock s)).
Definition IMAP_ZONE_INDEX : Z := 2.
Definition INODE_ZONE_INDEX : M state Z :=
  let* i := IMAP_BLOCKS in let* z := ZMAP_BLOCKS in ret (IMAP_ZONE_INDEX + i + z).
Definition INODES_PER_BLOCK : Z := BLOCK_SIZE / INODE_BYTES.
Definition ZONES_PER_BLOCK : Z := BLOCK_SIZE / 4.

(** ** Inodes in memory *)
Fixpoint find_inode (l : list Z) (index : Z) : M state (option Z) :=
  match l with
  | [] => ret None
  | a :: l =>
      let* x := get_inode_obj a in
      if n_index x =? index then ret (Some a) else find_inode l index
  end.
Definition get_inode (index : Z) : M state Z :=
  let* l := gets inodes in
  let* found := find_inode l index in
  match found with
  | Some a => ret a
  | None =>
      let* c := gets inode_cache in
      let* a := store (bs_obj_alloc c) in
      do* put_inode_obj a (Inode index 0 0 0) in
      do* modify (fun s => set_inodes (a :: inodes s) s) in
      ret a
  end.
Definition release_inode (a : Z) : M state unit :=
  do* modify (fun s => set_inodes (filter (fun b => b <> a) (inodes s)) s) in
  do* modify (fun s => set_fs_inodes (delete a (fs_inodes s)) s) in
  let* c := gets inode_cache in
  store (bs_obj_free c a).

(** ** Bit maps *)
Inductive marked : Set :=
| NoBit                 (* the loop over the bits ends *)
| LimitReached          (* return 0 *)
| Bit (b : Z).          (* a clear bit *)
(** The bits of one byte from [b] on, [n] of them. *)
Fixpoint mark_bits (n : nat) (b index limit byte : Z) : marked :=
  match n with
  | O => NoBit
  | Datatypes.S n =>
      if limit <=? u32 (index + b) then LimitReached
      else if truthy (Z.land (Z.lnot byte) (Z.shiftl 1 b)) then Bit b
      else mark_bits n (b + 1) index limit byte
  end.
(** The bytes of a block from [i] on: the index after them, or the result. *)
Fixpoint mark_bytes (n : nat) (i index limit block : Z) (buf : list Z) : M state (Z + Z) :=
  match n with
  | O => ret (inl index)
  | Datatypes.S n =>
      let* byte := opt Fault (buf !! Z.to_nat i) in
      if byte =? 0xff then mark_bytes n (i + 1) (u32 (index + 8)) limit block buf
      else
        match mark_bits 8 0 index limit byte with
        | NoBit => mark_bytes n (i + 1) index limit block buf
        | LimitReached => ret (inr 0)
        | Bit b =>
            do* blk_write block (<[Z.to_nat i := Z.lor byte (Z.shiftl 1 b)]> buf) in
            ret (inr (u32 (index + b)))
        end
  end.
Fixpoint mark_blocks (n : nat) (block index limit : Z) : M state Z :=
  match n with
  | O => ret 0
  | Datatypes.S n =>
      let* buf := blk_read block in
      let* r := mark_bytes (Z.to_nat BLOCK_SIZE) 0 index limit block buf in
      match r with
      | inl index => mark_blocks n (u16 (block + 1)) index limit
      | inr r => ret r
      end
  end.
Definition mark_map (start end_ limit : Z) : M state Z :=
  scratch BLOCK_SIZE (mark_blocks (Z.to_nat (end_ - start)) start 0 limit).

Definition unmark_map (index start : Z) : M state unit :=
  let block := u16 (start + index / 8 / BLOCK_SIZE) in
  scratch BLOCK_SIZE
    (let* buf := blk_read block in
     let i := Z.to_nat ((index / 8) mod BLOCK_SIZE) in
     let* byte := opt Fault (buf !! i) in
     blk_write block (<[i := Z.land byte (Z.lnot (Z.shiftl 1 (index mod 8)))]> buf)).

Definition mark_imap : M state Z :=
  let start := IMAP_ZONE_INDEX in
  let* n := IMAP_BLOCKS in
  let* limit := IMAP_LIMITS in
  mark_map start (u16 (start + n)) limit.
Definition unmark_imap (index : Z) : M state unit := unmark_map index IMAP_ZONE_INDEX.
Definition mark_zmap : M state Z :=
  let* i := IMAP_BLOCKS in
  let start := u16 (IMAP_ZONE_INDEX + i) in
  let* z := ZMAP_BLOCKS in
  let* limit := ZMAP_LIMITS in
  let* index := mark_map start (u16 (start + z)) limit in
  let index := u16 index in
  if index =? 0 then ret 0
  else let* first := FIRST_DATA_ZONE in ret (u16 (index + first - 1)).
Definition unmark_zmap (index : Z) : M state unit :=
  let index := u16 index in
  let* i := IMAP_BLOCKS in
  let start := u16 (IMAP_ZONE_INDEX + i) in
  let* first := FIRST_DATA_ZONE in
  if index <? first then ret tt else unmark_map (index - first + 1) start.

(** ** Inodes on the disk *)
Definition read_inode (index : Z) : M state minix2_inode :=
  scratch BLOCK_SIZE
    (let index := u32 (index - 1) in
     let inode_block := u16 (index / INODES_PER_BLOCK) in
     let* base := INODE_ZONE_INDEX in
     let* buf := blk_read (base + inode_block) in
     let* bytes := opt Fault (slice buf (index mod INODES_PER_BLOCK * INODE_BYTES) INODE_BYTES) in
     ret (decode_inode bytes)).
Definition write_inode (index : Z) (x : minix2_inode) : M state unit :=
  scratch BLOCK_SIZE
    (let index := u32 (index - 1) in
     let inode_block := u16 (index / INODES_PER_BLOCK) in
     let* base := INODE_ZONE_INDEX in
     let* buf := blk_read (base + inode_block) in
     let* buf := opt Fault (patch buf (index mod INODES_PER_BLOCK * INODE_BYTES) (encode_inode x)) in
     blk_write (base + inode_block) buf).

(** ** Zones *)

(** The slot of [i_zone] for a block of the file. *)
Definition zone_slot (block : Z) : Z :=
  if block <=? 6 then block else if block <? 7 + ZONES_PER_BLOCK then 7 else 8.
Definition zone_at (x : minix2_inode) (z0 : Z) : Z := nth (Z.to_nat z0) (i_zone x) 0.
Definition set_zone_at (z0 v : Z) (x : minix2_inode) : minix2_inode :=
  set_i_zone (<[Z.to_nat z0 := v]> (i_zone x)) x.

(** A slot of an indirect block: its zone, marked if there was none; [None] when
    no zone is left. *)
Definition extend_slot (z1 z2 : Z) : M state (option Z) :=
  let* zones := blk_read z1 in
  if truthy (get_word zones z2) then ret (Some (get_word zones z2))
  else
    let* z := mark_zmap in
    if truthy z then do* blk_write z1 (put_word zones z2 z) in ret (Some z) else ret None.

(** One turn of the loop of [extend_zone]: the inode, and whether it succeeded. *)
Definition extend_block (x : minix2_inode) (block : Z) : M state (minix2_inode * bool) :=
  let z0 := zone_slot block in
  let* x := (if truthy (zone_at x z0) then ret x
             else let* z := mark_zmap in ret (set_zone_at z0 z x)) in
  if negb (truthy (zone_at x z0)) then ret (x, false)
  else if z0 =? 7 then
    let* o := extend_slot (zone_at x z0) (block - 7) in
    ret (x, match o with Some _ => true | None => false end)
  else if z0 =? 8 then
    let* o := extend_slot (zone_at x z0) ((block - (7 + ZONES_PER_BLOCK)) / ZONES_PER_BLOCK) in
    match o with
    | None => ret (x, false)
    | Some z =>
        let* o := extend_slot z ((block - (7 + ZONES_PER_BLOCK)) mod ZONES_PER_BLOCK) in
        ret (x, match o with Some _ => true | None => false end)
    end
  else ret (x, true).
Fixpoint extend_loop (n : nat) (block : Z) (x : minix2_inode) : M state (minix2_inode * option Z) :=
  match n with
  | O => ret (x, None)
  | Datatypes.S n =>
      let* r := extend_block x block in
      let '(x, ok) := r in
      if ok then extend_loop n (u16 (block + 1)) x else ret (x, Some block)
  end.
(** The inode after the call, and the result. *)
Definition extend_zone (x : minix2_inode) (size : Z) : M state (minix2_inode * Z) :=
  scratch BLOCK_SIZE
    (let start := u16 (i_size x / BLOCK_SIZE + 1) in
     let end_ := u16 (size / BLOCK_SIZE + 1) in
     if end_ <? start then ret (x, 0)
     else
       let* r := extend_loop (Z.to_nat (end_ - start)) start x in
       match r with
       | (x, None) => ret (set_i_size size x, 0)
       | (x, Some block) => ret (set_i_size (block * BLOCK_SIZE) x, - ENOSPC)
       end).

(** One turn of the loop of [shrink_zone]. *)
Definition shrink_block (x : minix2_inode) (block : Z) : M state minix2_inode :=
  let z0 := zone_slot block in
  let drop_slot := (do* unmark_zmap (zone_at x z0) in ret (set_zone_at z0 0 x)) in
  if negb (truthy (zone_at x z0)) then ret x
  else if z0 =? 7 then
    let z1 := zone_at x z0 in
    let z2 := block - 7 in
    let* zones0 := blk_read z1 in
    if negb (truthy (get_word zones0 z2)) then ret x
    else
      do* unmark_zmap (get_word zones0 z2) in
      do* blk_write z1 (put_word zones0 z2 0) in
      if negb (truthy z2) then drop_slot else ret x
  else if z0 =? 8 then
    let z1 := zone_at x z0 in
    let z2 := (block - (7 + ZONES_PER_BLOCK)) / ZONES_PER_BLOCK in
    let* zones0 := blk_read z1 in
    if negb (truthy (get_word zones0 z2)) then ret x
    else
      let z3 := u16 (get_word zones0 z2) in
      let z4 := (block - (7 + ZONES_PER_BLOCK)) mod ZONES_PER_BLOCK in
      let* zones1 := blk_read z3 in
      if negb (truthy (get_word zones1 z4)) then ret x
      else
        do* unmark_zmap (get_word zones1 z4) in
        do* blk_write z3 (put_word zones1 z4 0) in
        if negb (truthy z4) then
          do* unmark_zmap (get_word zones0 z2) in
          do* blk_write z1 (put_word zones0 z2 0) in
          if negb (truthy z2) then drop_slot else ret x
        else ret x
  else drop_slot.
Fixpoint shrink_loop (n : nat) (block : Z) (x : minix2_inode) : M state minix2_inode :=
  match n with
  | O => ret x
  | Datatypes.S n => let* x := shrink_block x block in shrink_loop n (block - 1) x
  end.
Definition shrink_zone (x : minix2_inode) (size : Z) : M state minix2_inode :=
  scratch BLOCK_SIZE (scratch BLOCK_SIZE
    (let start := u16 (i_size x / BLOCK_SIZE) in
     let end_ := u16 (size / BLOCK_SIZE) in
     let* x := shrink_loop (Z.to_nat (start - end_)) start x in
     ret (set_i_size size x))).

(** [get_block] of inode.c: the zone of a block of the file, or 0. *)
Definition get_block (a block : Z) : M state Z :=
  scratch BLOCK_SIZE
    (let* n := get_inode_obj a in
     let* x := read_inode (n_index n) in
     let z0 := zone_slot block in
     if negb (truthy (zone_at x z0)) then ret 0
     else if z0 =? 7 then
       let* zones := blk_read (zone_at x z0) in
       ret (u16 (get_word zones (block - 7)))
     else if z0 =? 8 then
       let* zones := blk_read (zone_at x z0) in
       let z := get_word zones ((block - (7 + ZONES_PER_BLOCK)) / ZONES_PER_BLOCK) in
       if negb (truthy z) then ret 0
       else
         let* zones := blk_read z in
         ret (u16 (get_word zones ((block - (7 + ZONES_PER_BLOCK)) mod ZONES_PER_BLOCK)))
     else ret (u16 (zone_at x z0))).
(** ** Operations on inodes *)
Definition calculate_block_offset (start : Z) : Z := start mod BLOCK_SIZE.
Definition calculate_block_copy_size (start size : Z) : Z :=
  let offset := calculate_block_offset start in
  if BLOCK_SIZE <? u32 (offset + size) then BLOCK_SIZE - offset else size.

(** The address of the new inode, or 0. *)
Definition inode_create (mode : Z) : M state Z :=
  let* index := mark_imap in
  if index =? 0 then ret 0
  else
    let* z := mark_zmap in
    let x := set_zone_at 0 z (set_i_mode (u16 mode) zero_inode) in
    if z =? 0 then do* unmark_imap index in ret 0
    else
      do* write_inode index x in
      let* a := get_inode index in
      do* upd_inode_obj a (set_n_mode mode) in
      ret a.

(** The loop of [inode_truncate] that clears the new bytes: [None] when a block is
    missing.  Each turn but the first and the last clears a whole block. *)
Fixpoint clear_loop (fuel : nat) (a tstart tsize size : Z) : M state bool :=
  match fuel with
  | O => fail Fuel
  | Datatypes.S fuel =>
      if tsize <=? 0 then ret true
      else
        let toffset := calculate_block_offset tstart in
        let tcopy := calculate_block_copy_size tstart tsize in
        let* ind_block := get_block a (u16 (tstart / BLOCK_SIZE)) in
        if ind_block =? 0 then ret false
        else
          let* buf := blk_read ind_block in
          let* buf := opt Fault (patch buf toffset (replicate (Z.to_nat tcopy) 0)) in
          do* blk_write ind_block buf in
          let tstart := u32 (tstart + tcopy) in
          let tsize := u32 (tsize - tcopy) in
          if negb (u32 (tstart + tsize) =? size) then fail Halt
          else clear_loop fuel a tstart tsize size
  end.

Definition inode_truncate (a size : Z) : M state Z :=
  scratch BLOCK_SIZE
    (let* n := get_inode_obj a in
     if size =? n_size n then ret 0
     else
       let* x := read_inode (n_index n) in
       let finish x :=
         do* upd_inode_obj a (set_n_size (i_size x)) in
         do* write_inode (n_index n) x in
         ret 0 in
       if n_size n <? size then
         let tstart := n_size n in
         let tsize := size - n_size n in
         let* r := extend_zone x size in
         let '(x, r) := r in
         if r <? 0 then ret r
         else
           let* ok := clear_loop (Z.to_nat (tsize / BLOCK_SIZE) + 3) a tstart tsize size in
           if ok then finish x else ret (- ENOSPC)
       else let* x := shrink_zone x size in finish x).

Definition inode_destroy (a : Z) : M state Z :=
  let* _ := inode_truncate a 0 in
  let* n := get_inode_obj a in
  let* x := read_inode (n_index n) in
  do* unmark_zmap (zone_at x 0) in
  do* write_inode (n_index n) zero_inode in
  do* unmark_imap (n_index n) in
  do* release_inode a in
  ret 0.

Definition inode_get (index : Z) : M state Z :=
  let* x := read_inode index in
  let* a := get_inode index in
  do* upd_inode_obj a (fun n => Inode (n_index n) (i_mode x) (i_nlinks x) (i_size x)) in
  ret a.

Definition inode_set (a : Z) : M state unit :=
  let* n := get_inode_obj a in
  let* x := read_inode (n_index n) in
  write_inode (n_index n)
    (set_i_nlinks (u16 (n_nlinks n)) (set_i_size (n_size n) (set_i_mode (u16 (n_mode n)) x))).

(** The loop of [inode_write]; [data] is what is left at [cur_data].  The result
    is the negative [errno] of the failure, with the size left then. *)
Fixpoint write_loop (fuel : nat) (a ind_zone ind_end cur_start cur_size : Z) (data : list Z)
    : M state (option (Z * Z)) :=
  match fuel with
  | O => fail Fuel
  | Datatypes.S fuel =>
      if ind_end <? ind_zone then ret None
      else
        let offset := calculate_block_offset cur_start in
        let copy := calculate_block_copy_size cur_start cur_size in
        let* n := get_inode_obj a in
        let* r := (if n_size n <? u32 (cur_start + copy)
                   then inode_truncate a (u32 (cur_start + copy)) else ret 0) in
        if r <? 0 then ret (Some (r, cur_size))
        else
          let* ind_block := get_block a ind_zone in
          if ind_block =? 0 then ret (Some (- EINVAL, cur_size))
          else
            let* buf := blk_read ind_block in
            let* bytes := opt Fault (slice data 0 copy) in
            let* buf := opt Fault (patch buf offset bytes) in
            do* blk_write ind_block buf in
            write_loop fuel a (u16 (ind_zone + 1)) ind_end (u32 (cur_start + copy)) (u32 (cur_size - copy))
              (drop (Z.to_nat copy) data)
  end.
(** With [ind_end = 65535] the counter wraps and the loop of the source does not
    end; otherwise it makes [ind_end - ind_start + 1] turns. *)
Definition inode_write (a size start : Z) (data : list Z) : M state Z :=
  scratch BLOCK_SIZE
    (let ind_start := u16 (start / BLOCK_SIZE) in
     let ind_end := u16 (u32 (start + size) / BLOCK_SIZE) in
     if ind_end <? ind_start then ret (-1)
     else
       let* r := write_loop (Z.to_nat (ind_end - ind_start) + 2) a ind_start ind_end start size data in
       match r with
       | None => ret (s32 size)
       | Some (errno, cur_size) => ret (if size =? cur_size then errno else s32 (size - cur_size))
       end).

(** The bytes copied to [cur_data]. *)
Fixpoint read_loop (fuel : nat) (a ind_zone ind_end cur_start cur_size : Z) : M state (list Z) :=
  match fuel with
  | O => fail Fuel
  | Datatypes.S fuel =>
      if ind_end <? ind_zone then ret []
      else
        let offset := calculate_block_offset cur_start in
        let copy := calculate_block_copy_size cur_start cur_size in
        let* ind_block := get_block a ind_zone in
        let* buf := (if truthy ind_block then blk_read ind_block
                     else ret (replicate (Z.to_nat BLOCK_SIZE) 0)) in
        let* bytes := opt Fault (slice buf offset copy) in
        let* rest := read_loop fuel a (u16 (ind_zone + 1)) ind_end (u32 (cur_start + copy)) (u32 (cur_size - copy)) in
        ret (bytes ++ rest)
  end.
(** The result, and the bytes written to [data]. *)
Definition inode_read (a size start : Z) : M state (Z * list Z) :=
  scratch BLOCK_SIZE
    (let* n := get_inode_obj a in
     if n_size n <=? start then ret (0, [])
     else
       let size := if n_size n <? u32 (start + size) then n_size n - start else size in
       let ind_start := u16 (start / BLOCK_SIZE) in
       let ind_end := u16 (u32 (start + size) / BLOCK_SIZE) in
       let* bytes := read_loop (Z.to_nat (ind_end - ind_start) + 2) a ind_start ind_end start size in
       ret (s32 size, bytes)).
End Inode.
