(* ===== verification/InodeProofs.v ===== *)
(** * inode.c: proofs about the disk

    A triple [fruns m s d Q] for computations of the file system: [s] stands for
    the state but for the store, [d] for the contents of the blocks.  With it: the
    bit maps, the inodes on the disk, the zones of a file. *)

From stdpp Require Import base numbers list list_numbers gmap.
From S2P Require Import Prelude Bytes Buddy BuddyProofs Unix Hoare Block BlockProofs Minix Inode.

#[local] Open Scope Z_scope.
#[local] Open Scope kernel_scope.

Section Triple.
Context {S : Type} `{BS : BlockStore S}.
Implicit Types (s : fsys S) (d : contents) (U : gset Z) (C : gmap Z Z).

(** The objects of the file system. *)
Definition own_objs s (c a : Z) : Prop :=
  (c = inode_cache s /\ is_Some (fs_inodes s !! a)) \/ (c = dentry_cache s /\ is_Some (fs_dentries s !! a)).

(** Next to those of its clients. *)
Definition fs_objs (L : Z -> Z -> Prop) s (c a : Z) : Prop := L c a \/ own_objs s c a.

Record at_disk s C (L : Z -> Z -> Prop) U d : Prop := {
  ad_store : bs_inv (fs_store s) C (fs_objs L s) U d;
  ad_inodes : is_Some (C !! inode_cache s);
  ad_dentries : is_Some (C !! dentry_cache s);
}.

Definition fruns {A} (m : M (fsys S) A) s d (Q : A -> fsys S -> contents -> Prop) : Prop :=
  forall C L U x, at_disk (set_fs_store x s) C L U d ->
    runs m (set_fs_store x s) (fun a s' => exists x' s1 d', s' = set_fs_store x' s1 /\ at_disk s' C L U d' /\ Q a s1 d').
(** A computation that changes the disk only. *)
Definition druns {A} (m : M (fsys S) A) s d (Q : A -> contents -> Prop) : Prop :=
  fruns m s d (fun a s1 d' => s1 = s /\ Q a d').

Lemma fruns_ret {A} (a : A) s d (Q : A -> fsys S -> contents -> Prop) : Q a s d -> fruns (ret a) s d Q.
Proof. intros HQ C L U x H. apply runs_ret. by exists x, s, d. Qed.

Lemma fruns_step {A B} (m : M (fsys S) A) (k : A -> M (fsys S) B) s d P Q :
  fruns m s d P -> (forall a s1 d1, P a s1 d1 -> fruns (k a) s1 d1 Q) -> fruns (bind m k) s d Q.
Proof.
  intros Hm Hk C L U x H. eapply runs_step; [by apply Hm|]. intros a s' (x' & s1 & d1 & -> & H1 & HP).
  by apply (Hk a s1 d1 HP).
Qed.

Lemma fruns_mono {A} (m : M (fsys S) A) s d (P Q : A -> fsys S -> contents -> Prop) :
  fruns m s d P -> (forall a s1 d1, P a s1 d1 -> Q a s1 d1) -> fruns m s d Q.
Proof.
  intros Hm HQ C L U x H. eapply runs_mono; [by apply Hm|].
  intros a s' (x' & s1 & d1 & -> & H1 & HP). exists x', s1, d1. auto.
Qed.

Lemma druns_ret {A} (a : A) s d (Q : A -> contents -> Prop) : Q a d -> druns (ret a) s d Q.
Proof. intros. by apply fruns_ret. Qed.

Lemma druns_step {A B} (m : M (fsys S) A) (k : A -> M (fsys S) B) s d P Q :
  druns m s d P -> (forall a d1, P a d1 -> druns (k a) s d1 Q) -> druns (bind m k) s d Q.
Proof. intros Hm Hk. eapply fruns_step; [exact Hm|]. intros a s1 d1 [-> HP]. by apply Hk. Qed.

Lemma druns_mono {A} (m : M (fsys S) A) s d (P Q : A -> contents -> Prop) :
  druns m s d P -> (forall a d1, P a d1 -> Q a d1) -> druns m s d Q.
Proof. intros Hm HQ. eapply fruns_mono; [exact Hm|]. intros a s1 d1 [-> HP]. auto. Qed.

Lemma druns_gets {A} (f : fsys S -> A) s d (Q : A -> contents -> Prop) :
  (forall x, f (set_fs_store x s) = f s) -> Q (f s) d -> druns (gets f) s d Q.
Proof. intros Hf HQ C L U x H. apply runs_gets. exists x, s, d. by rewrite Hf. Qed.

Lemma druns_opt {A} r (o : option A) a s d (Q : A -> contents -> Prop) : o = Some a -> Q a d -> druns (opt r o) s d Q.
Proof. intros ->. apply druns_ret. Qed.

Lemma druns_halt {A} s d (Q : A -> contents -> Prop) : druns (fail Halt) s d Q.
Proof. intros C L U x H. apply runs_halt. Qed.

Lemma set_store_twice x y s : set_fs_store x (set_fs_store y s) = set_fs_store x s.
Proof. done. Qed.

Lemma set_store_id s : set_fs_store (fs_store s) s = s.
Proof. by destruct s. Qed.

(** The contents matter on the blocks of the card only. *)
Definition same_blocks d d' : Prop := forall i, is_block i -> d i = d' i.
Lemma at_disk_ext s C L U d d' : same_blocks d d' -> at_disk s C L U d -> at_disk s C L U d'.
Proof. intros Hd [H1 H2 H3]. split; [|done|done]. by eapply bs_ext. Qed.

Lemma u16_block i : is_block (u16 i).
Proof. unfold is_block, u16. apply Z.mod_pos_bound. lia. Qed.

Lemma u16_id i : is_block i -> u16 i = i.
Proof. unfold is_block, u16. apply Z.mod_small. Qed.

(** A call of the store. *)
Lemma store_runs {A} (m : M S A) s d (Q : A -> contents -> Prop) :
  (forall C L U x, at_disk (set_fs_store x s) C L U d ->
     runs m x (fun a x' => exists d', at_disk (set_fs_store x' s) C L U d' /\ Q a d')) ->
  druns (store m) s d Q.
Proof.
  intros H C L U x Hx. apply runs_within. eapply runs_mono; [by apply H|].
  intros a x' (d' & Hd & HQ). by exists x', s, d'.
Qed.

Lemma blk_read_ok i s d : druns (blk_read i) s d (fun l d' => d' = d /\ l = d (u16 i) /\ block_bytes_ok l).
Proof.
  apply store_runs. intros C L U x [H1 H2 H3]. eapply runs_mono; [apply (bs_read_spec _ _ _ _ _ _ H1 (u16_block i))|].
  intros l x' [-> Hx']. exists d. split; [by split|]. split; [done|]. split; [done|].
  exact (bs_length _ _ _ _ _ _ H1 (u16_block i)).
Qed.

Lemma blk_write_ok i l s d : block_bytes_ok l ->
  druns (blk_write i l) s d (fun _ d' => d' = upd_block (u16 i) l d).
Proof.
  intros Hl. apply store_runs. intros C L U x [H1 H2 H3].
  eapply runs_mono; [apply (bs_write_spec _ _ _ _ _ _ l H1 (u16_block i) Hl)|].
  intros [] x' Hx'. exists (upd_block (u16 i) l d). split; [by split|done].
Qed.

Lemma get_inode_obj_ok a n s d : fs_inodes s !! a = Some n ->
  druns (get_inode_obj a) s d (fun x d' => x = n /\ d' = d).
Proof.
  intros Hn. eapply druns_step; [by apply (druns_gets fs_inodes s d (fun x d' => x = fs_inodes s /\ d' = d))|].
  intros m d1 [-> ->]. by eapply druns_opt.
Qed.

Lemma order_for_small size : 0 < size <= PAGE_SIZE -> order_for size 0.
Proof. intros H. unfold order_for, PAGE_SIZE in *. bconst. split; [lia|]. split; [lia|]. intros l Hl. lia. Qed.

(** A scratch page does not show in the result. *)
Lemma scratch_ok {A} (body : M (fsys S) A) s d Q size : 0 < size <= PAGE_SIZE ->
  fruns body s d Q -> fruns (scratch size body) s d Q.
Proof.
  intros Hs Hb C L U x [H1 H2 H3]. unfold scratch. apply runs_bind, runs_within.
  eapply runs_mono; [apply (bs_page_alloc_spec _ _ _ _ _ _ _ H1 (order_for_small _ Hs))|].
  intros p x1 [Hp Hx1]. cbn beta. rewrite set_store_twice.
  eapply runs_step; [apply (Hb C L ({[p]} ∪ U) x1); by split|]. intros r s' (x2 & s1 & d1 & -> & [A1 A2 A3] & HQ).
  cbn beta. apply runs_bind, runs_within.
  eapply runs_mono; [apply (bs_page_free_spec _ _ _ _ _ p A1); set_solver|].
  intros [] x3 Hx3. rewrite (page_back _ _ Hp) in Hx3. cbn beta. apply runs_ret. rewrite set_store_twice.
  exists x3, s1, d1. split; [done|]. split; [by split|done].
Qed.

Lemma scratch_druns {A} (body : M (fsys S) A) s d Q : druns body s d Q -> druns (scratch BLOCK_SIZE body) s d Q.
Proof. apply scratch_ok. unfold BLOCK_SIZE, PAGE_SIZE. lia. Qed.

Lemma druns_gets_bind {A B} (f : fsys S -> A) (k : A -> M (fsys S) B) s d Q :
  (forall x, f (set_fs_store x s) = f s) -> druns (k (f s)) s d Q -> druns (bind (gets f) k) s d Q.
Proof.
  intros Hf Hk. eapply druns_step; [apply (druns_gets f s d (fun a d1 => a = f s /\ d1 = d) Hf); done|].
  by intros a d1 [-> ->].
Qed.

Lemma druns_opt_bind {A B} r (o : option A) a (k : A -> M (fsys S) B) s d Q :
  o = Some a -> druns (k a) s d Q -> druns (bind (opt r o) k) s d Q.
Proof. intros -> Hk. exact Hk. Qed.
End Triple.

(** Use the specification [H] of the head of a computation on the disk. *)
Tactic Notation "dstep" uconstr(H) "as" simple_intropattern(a) simple_intropattern(d) simple_intropattern(P) :=
  eapply druns_step; [apply H|intros a d P; cbn beta iota].
Ltac dgets := apply druns_gets_bind; [reflexivity|]; cbn beta iota.
Ltac dopt H := eapply druns_opt_bind; [exact H|]; cbn beta iota.
Ltac dread := eapply druns_step; [apply blk_read_ok|];
  let l := fresh "buf" in let d := fresh "d" in let Hl := fresh "Hl" in
  intros l d (-> & -> & Hl); cbn beta iota.

(** ** Bytes *)
Lemma forallb_bytes (l : list Z) : forallb byte_ok l = true <-> Forall (fun b => 0 <= b < 256) l.
Proof.
  induction l as [|b l IH]; cbn [forallb]; [by split|]. rewrite andb_true_iff, IH, Forall_cons. unfold byte_ok.
  rewrite andb_true_iff, Z.leb_le, Z.ltb_lt. done.
Qed.

Lemma block_ok_lookup l i : block_bytes_ok l -> 0 <= i < BLOCK_SIZE ->
  exists b, l !! Z.to_nat i = Some b /\ nth (Z.to_nat i) l 0 = b /\ 0 <= b < 256.
Proof.
  intros [Hl Hb%forallb_bytes] Hi. destruct (lookup_lt_is_Some_2 l (Z.to_nat i)) as [b Hx]; [lia|].
  exists b. split; [done|]. split; [|by eapply Forall_lookup_1 in Hb]. by apply nth_lookup_Some.
Qed.

Lemma block_ok_insert l i b : block_bytes_ok l -> 0 <= b < 256 -> block_bytes_ok (<[i := b]> l).
Proof.
  intros [Hl Hb%forallb_bytes] Hr. split; [by rewrite length_insert|]. apply forallb_bytes. by apply Forall_insert.
Qed.

Lemma block_ok_inserts l off k : block_bytes_ok l -> Forall (fun b => 0 <= b < 256) k ->
  block_bytes_ok (list_inserts off k l).
Proof.
  intros [Hl Hb%forallb_bytes] Hr. split; [by rewrite length_inserts|]. apply forallb_bytes. by apply Forall_inserts.
Qed.

(** ** Bit maps *)
Definition buf_bit (buf : list Z) (j : Z) : bool := Z.testbit (nth (Z.to_nat (j / 8)) buf 0) (j mod 8).
Definition bits_per_block : Z := 8 * BLOCK_SIZE.
(** The bit [k] of the map that starts at the block [start]. *)
Definition map_bit (d : contents) (start k : Z) : bool :=
  buf_bit (d (start + k / bits_per_block)) (k mod bits_per_block).
Definition put_bit (buf : list Z) (j : Z) (v : bool) : list Z :=
  <[Z.to_nat (j / 8) := (if v then Z.lor (nth (Z.to_nat (j / 8)) buf 0) (2 ^ (j mod 8))
                         else Z.land (nth (Z.to_nat (j / 8)) buf 0) (Z.lnot (2 ^ (j mod 8))))]> buf.
Definition put_map_bit (d : contents) (start k : Z) (v : bool) : contents :=
  upd_block (start + k / bits_per_block)
    (put_bit (d (start + k / bits_per_block)) (k mod bits_per_block) v) d.

Lemma byte_range_bits b : 0 <= b -> (b < 256 <-> forall j, 8 <= j -> Z.testbit b j = false).
Proof. intros Hb. apply (Z.bounded_iff_bits_nonneg 8 b); lia. Qed.

Lemma byte_bits b j : 0 <= b < 256 -> 8 <= j -> Z.testbit b j = false.
Proof. intros [H0 Hb] Hj. by apply (byte_range_bits b H0). Qed.

Lemma byte_full b : 0 <= b < 256 -> (forall j, 0 <= j < 8 -> Z.testbit b j = true) -> b = 255.
Proof.
  intros Hb H. apply Z.bits_inj'. intros j Hj. destruct (Z.lt_ge_cases j 8) as [Hlt|Hge].
  - rewrite H by lia. symmetry. assert (j = 0 \/ j = 1 \/ j = 2 \/ j = 3 \/ j = 4 \/ j = 5 \/ j = 6 \/ j = 7) as Hc by lia.
    destruct Hc as [->|[->|[->|[->|[->|[->|[->| ->]]]]]]]; reflexivity.
  - rewrite !byte_bits by lia. done.
Qed.

Lemma byte_255 j : 0 <= j < 8 -> Z.testbit 255 j = true.
Proof.
  intros Hj. assert (j = 0 \/ j = 1 \/ j = 2 \/ j = 3 \/ j = 4 \/ j = 5 \/ j = 6 \/ j = 7) as Hc by lia.
  destruct Hc as [->|[->|[->|[->|[->|[->|[->| ->]]]]]]]; reflexivity.
Qed.

Lemma byte_lor_range b j : 0 <= b < 256 -> 0 <= j < 8 -> 0 <= Z.lor b (2 ^ j) < 256.
Proof.
  intros Hb Hj. assert (Hn : 0 <= Z.lor b (2 ^ j)) by (apply Z.lor_nonneg; split; [lia|apply Z.pow_nonneg; lia]).
  split; [done|]. apply byte_range_bits; [done|]. intros i Hi.
  rewrite Z.lor_spec, (byte_bits b), Z.pow2_bits_false by lia. done.
Qed.

Lemma byte_clear_range b j : 0 <= b < 256 -> 0 <= Z.land b (Z.lnot (2 ^ j)) < 256.
Proof.
  intros Hb. assert (Hn : 0 <= Z.land b (Z.lnot (2 ^ j))) by (apply Z.land_nonneg; lia).
  split; [done|]. apply byte_range_bits; [done|]. intros i Hi. by rewrite Z.land_spec, (byte_bits b) by lia.
Qed.

(** What the loop over the bits of a byte finds. *)
Lemma mark_bits_ok n : forall b index limit byte, 0 <= b -> b + Z.of_nat n = 8 -> 0 <= index -> index + 8 <= 2 ^ 32 ->
  match mark_bits n b index limit byte with
  | NoBit => forall j, b <= j < 8 -> Z.testbit byte j = true
  | LimitReached => exists k, b <= k < 8 /\ limit <= index + k /\ forall j, b <= j < k -> Z.testbit byte j = true
  | Bit k => b <= k < 8 /\ index + k < limit /\ Z.testbit byte k = false /\
      forall j, b <= j < k -> Z.testbit byte j = true
  end.
Proof.
  induction n as [|n IH]; intros b index limit byte Hb Hn Hi Hi2; cbn [mark_bits]; [intros j Hj; lia|].
  rewrite u32_small by (unfold is_u32; lia).
  destruct (Z.leb_spec limit (index + b)) as [Hl|Hl].
  { exists b. split_and!; [lia|lia|done|]. intros j Hj. lia. }
  rewrite Z.shiftl_1_l, truthy_land_pow2, Z.lnot_spec by lia.
  destruct (Z.testbit byte b) eqn:Hbit; cbn [negb].
  - specialize (IH (b + 1) index limit byte ltac:(lia) ltac:(lia) Hi Hi2).
    assert (Hext : forall k, (forall j, b + 1 <= j < k -> Z.testbit byte j = true) ->
      forall j, b <= j < k -> Z.testbit byte j = true).
    { intros k H j Hj. destruct (Z.eq_dec j b) as [->|]; [done|]. apply H. lia. }
    destruct (mark_bits n (b + 1) index limit byte) as [| |k].
    + by apply Hext.
    + destruct IH as (k & H1 & H2 & H3). exists k. split_and!; [lia|lia|done|by apply Hext].
    + destruct IH as (H1 & H2 & H3 & H4). split_and!; [lia|lia|done|done|by apply Hext].
  - split_and!; [lia|lia|lia|done|]. intros j Hj. lia.
Qed.

Lemma bit_index i b : 0 <= i -> 0 <= b < 8 -> (8 * i + b) / 8 = i /\ (8 * i + b) mod 8 = b.
Proof.
  intros Hi Hb. split.
  - rewrite Z.mul_comm, Z.add_comm, Z.div_add, Z.div_small by lia. lia.
  - rewrite Z.mul_comm, Z.add_comm, Z.mod_add, Z.mod_small by lia. lia.
Qed.

Lemma buf_bit_at buf i b byte : 0 <= i -> 0 <= b < 8 -> nth (Z.to_nat i) buf 0 = byte ->
  buf_bit buf (8 * i + b) = Z.testbit byte b.
Proof. intros Hi Hb <-. unfold buf_bit. by destruct (bit_index i b Hi Hb) as [-> ->]. Qed.

(** Bits below [k] from those of a byte and those after it. *)
Lemma bits_step buf i k byte : 0 <= i -> nth (Z.to_nat i) buf 0 = byte ->
  (forall b, 0 <= b < 8 -> Z.testbit byte b = true) -> (forall j, 8 * (i + 1) <= j < k -> buf_bit buf j = true) ->
  forall j, 8 * i <= j < k -> buf_bit buf j = true.
Proof.
  intros Hi Hb H1 H2 j Hj. destruct (Z.lt_ge_cases j (8 * (i + 1))) as [Hlt|]; [|apply H2; lia].
  replace j with (8 * i + (j - 8 * i)) by lia. rewrite (buf_bit_at buf i _ byte) by lia. apply H1. lia.
Qed.

Ltac bpb := change bits_per_block with 32768 in *; lia.

Section Disk.
Context {S : Type} `{BS : BlockStore S}.
Implicit Types (s : fsys S) (d : contents) (U : gset Z) (C : gmap Z Z).

Definition bytes_post base limit block buf i d (r : Z + Z) d' : Prop :=
  match r with
  | inl index => index = base + bits_per_block /\ d' = d /\
      forall j, 8 * i <= j < bits_per_block -> buf_bit buf j = true
  | inr r => exists k, 8 * i <= k < bits_per_block /\ (forall j, 8 * i <= j < k -> buf_bit buf j = true) /\
      ((limit <= base + k /\ r = 0 /\ d' = d) \/
       (base + k < limit /\ buf_bit buf k = false /\ r = base + k /\ d' = upd_block (u16 block) (put_bit buf k true) d))
  end.

Lemma mark_bytes_ok n : forall i base limit block buf s d,
  0 <= i -> i + Z.of_nat n = BLOCK_SIZE -> block_bytes_ok buf -> 0 <= base -> base + bits_per_block < 2 ^ 32 ->
  druns (mark_bytes n i (base + 8 * i) limit block buf) s d (bytes_post base limit block buf i d).
Proof.
  unfold bits_per_block. induction n as [|n IH]; intros i base limit block buf s d Hi Hn Hb H0 H1; cbn [mark_bytes].
  { apply druns_ret. cbn. split; [unfold bits_per_block; lia|]. split; [done|].
    intros j Hj. unfold bits_per_block in Hj. lia. }
  destruct (block_ok_lookup buf i Hb ltac:(lia)) as (byte & Hl & Hnth & Hr). dopt Hl.
  assert (Hnext : (forall b, 0 <= b < 8 -> Z.testbit byte b = true) ->
    druns (mark_bytes n (i + 1) (u32 (base + 8 * i + 8)) limit block buf) s d (bytes_post base limit block buf i d)).
  { intros Hall. rewrite u32_small by (unfold is_u32; lia).
    replace (base + 8 * i + 8) with (base + 8 * (i + 1)) by lia.
    eapply druns_mono; [apply IH; [lia|lia|done|done|done]|]. intros r d1. unfold bytes_post. destruct r as [x|x].
    - intros (-> & -> & H). split_and!; [done|done|]. by eapply bits_step.
    - intros (k & Hk & Hbits & H). exists k. split; [lia|]. split; [by eapply bits_step|done]. }
  destruct (Z.eqb_spec byte 0xff) as [E|E].
  { apply Hnext. rewrite E. apply byte_255. }
  pose proof (mark_bits_ok 8 0 (base + 8 * i) limit byte ltac:(lia) ltac:(lia) ltac:(lia) ltac:(lia)) as Hm.
  destruct (mark_bits 8 0 (base + 8 * i) limit byte) as [| |b].
  - destruct E. by apply byte_full.
  - destruct Hm as (k & Hk & Hlim & Hset). apply druns_ret. exists (8 * i + k). unfold bits_per_block.
    split; [lia|]. split.
    + intros j Hj. replace j with (8 * i + (j - 8 * i)) by lia. rewrite (buf_bit_at buf i _ byte) by lia. apply Hset. lia.
    + left. split_and!; [lia|done|done].
  - destruct Hm as (Hk & Hlim & Hclear & Hset). destruct (bit_index i b Hi Hk) as [E1 E2].
    assert (Hput : put_bit buf (8 * i + b) true = <[Z.to_nat i := Z.lor byte (Z.shiftl 1 b)]> buf).
    { unfold put_bit. by rewrite E1, E2, Hnth, Z.shiftl_1_l. }
    eapply druns_step; [apply blk_write_ok; rewrite Z.shiftl_1_l; by apply block_ok_insert, byte_lor_range|].
    intros [] d1 ->. cbn beta. apply druns_ret. exists (8 * i + b). unfold bits_per_block. split; [lia|]. split.
    + intros j Hj. replace j with (8 * i + (j - 8 * i)) by lia. rewrite (buf_bit_at buf i _ byte) by lia. apply Hset. lia.
    + right. split_and!; [lia| | |by rewrite Hput].
      * by rewrite (buf_bit_at buf i b byte).
      * rewrite u32_small by (unfold is_u32; lia). lia.
Qed.

(** The blocks of a map from [q] on. *)
Definition blocks_post d start limit (q total : Z) (r : Z) d' : Prop :=
  (exists k, bits_per_block * q <= k < bits_per_block * total /\ k < limit /\ map_bit d start k = false /\
     (forall j, bits_per_block * q <= j < k -> map_bit d start j = true) /\ r = k /\
     d' = put_map_bit d start k true) \/
  ((forall j, bits_per_block * q <= j < bits_per_block * total -> j < limit -> map_bit d start j = true) /\ r = 0 /\ d' = d).

Lemma block_bit d start q j : 0 <= q -> 0 <= j < bits_per_block ->
  map_bit d start (bits_per_block * q + j) = buf_bit (d (start + q)) j /\
  (bits_per_block * q + j) / bits_per_block = q /\ (bits_per_block * q + j) mod bits_per_block = j.
Proof.
  intros Hq Hj. unfold map_bit. assert (Hb : bits_per_block = 32768) by done. rewrite Hb in *.
  assert (E1 : (32768 * q + j) / 32768 = q) by (rewrite Z.mul_comm, Z.add_comm, Z.div_add, Z.div_small by lia; lia).
  assert (E2 : (32768 * q + j) mod 32768 = j) by (rewrite Z.mul_comm, Z.add_comm, Z.mod_add, Z.mod_small by lia; lia).
  by rewrite E1, E2.
Qed.

Lemma map_bit_buf d start q j : 0 <= q -> bits_per_block * q <= j < bits_per_block * (q + 1) ->
  map_bit d start j = buf_bit (d (start + q)) (j - bits_per_block * q).
Proof.
  intros Hq Hj. rewrite <- (proj1 (block_bit d start q (j - bits_per_block * q) Hq ltac:(bpb))). f_equal. bpb.
Qed.

Lemma mark_blocks_ok n : forall q start limit s d, 0 <= q -> 0 <= start -> start + q + Z.of_nat n <= 2 ^ 16 ->
  bits_per_block * (q + Z.of_nat n) < 2 ^ 32 ->
  druns (mark_blocks n (start + q) (bits_per_block * q) limit) s d (blocks_post d start limit q (q + Z.of_nat n)).
Proof.
  induction n as [|n IH]; intros q start limit s d Hq Hs Hsum Hbits; cbn [mark_blocks].
  { apply druns_ret. right. split_and!; [|done|done]. intros j Hj. bpb. }
  assert (Hbpb : bits_per_block = 32768) by done.
  assert (Hblk : is_block (start + q)) by (unfold is_block; bpb).
  dread. rewrite (u16_id _ Hblk) in *.
  eapply druns_step.
  { replace (bits_per_block * q) with (bits_per_block * q + 8 * 0) by bpb.
    apply mark_bytes_ok; [bpb|done|done|bpb|bpb]. }
  intros r d1. unfold bytes_post. rewrite (u16_id _ Hblk). destruct r as [x|x].
  - intros (-> & -> & Hall). cbn beta iota. destruct n as [|n].
    { cbn [mark_blocks]. apply druns_ret. right. split_and!; [|done|done]. intros j Hj _.
      rewrite (map_bit_buf d start q j) by bpb. apply Hall. bpb. }
    rewrite (u16_id (start + q + 1)) by (unfold is_block; bpb).
    replace (start + q + 1) with (start + (q + 1)) by bpb.
    replace (bits_per_block * q + bits_per_block) with (bits_per_block * (q + 1)) by bpb.
    eapply druns_mono; [apply IH; bpb|]. intros r d2.
    replace (q + 1 + Z.of_nat (Datatypes.S n)) with (q + Z.of_nat (Datatypes.S (Datatypes.S n))) by bpb.
    assert (Hext : forall k, (forall j, bits_per_block * (q + 1) <= j < k -> map_bit d start j = true) ->
      forall j, bits_per_block * q <= j < k -> map_bit d start j = true).
    { intros k H j Hj. destruct (Z.lt_ge_cases j (bits_per_block * (q + 1))); [|apply H; bpb].
      rewrite (map_bit_buf d start q j) by bpb. apply Hall. bpb. }
    intros [(k & H1 & H2 & H3 & H4 & -> & ->)|(H1 & -> & ->)]; [left|right].
    + exists k. split_and!; [bpb|bpb|done|done|by apply Hext|done|done].
    + split_and!; [|done|done]. intros j Hj Hlim. destruct (Z.lt_ge_cases j (bits_per_block * (q + 1))); [|apply H1; bpb].
      rewrite (map_bit_buf d start q j) by bpb. apply Hall. bpb.
  - intros (k & Hk & Hbelow & H). cbn beta iota. apply druns_ret.
    assert (Hb : forall j, bits_per_block * q <= j < bits_per_block * q + k -> map_bit d start j = true).
    { intros j Hj. rewrite (map_bit_buf d start q j) by bpb. apply Hbelow. bpb. }
    destruct H as [(H1 & -> & ->)|(H1 & H2 & -> & ->)]; [right|left].
    + split_and!; [|done|done]. intros j Hj Hlim. apply Hb. bpb.
    + exists (bits_per_block * q + k). destruct (block_bit d start q k Hq ltac:(bpb)) as (E1 & E2 & E3).
      split_and!; [bpb|bpb|bpb|by rewrite E1|done|done|]. unfold put_map_bit. by rewrite E2, E3.
Qed.
(** Setting and clearing bits. *)
Lemma put_bit_same buf j v : block_bytes_ok buf -> 0 <= j < bits_per_block -> buf_bit (put_bit buf j v) j = v.
Proof.
  intros [Hl _] Hj. unfold buf_bit, put_bit. assert (0 <= j / 8 < BLOCK_SIZE).
  { split; [apply Z.div_pos; lia|]. apply Z.div_lt_upper_bound; [lia|]. unfold bits_per_block in Hj. lia. }
  pose proof (Z.mod_pos_bound j 8 ltac:(lia)) as Hm.
  rewrite nth_lookup, list_lookup_insert_eq by lia. cbn [default from_option id]. destruct v.
  - rewrite Z.lor_spec, Z.pow2_bits_true by lia. apply orb_true_r.
  - rewrite testbit_clear_pow2 by lia. by rewrite Z.eqb_refl.
Qed.

Lemma put_bit_other buf j i v : 0 <= j -> 0 <= i -> i <> j -> buf_bit (put_bit buf j v) i = buf_bit buf i.
Proof.
  intros Hj Hi Hne. unfold buf_bit, put_bit. rewrite !nth_lookup.
  pose proof (Z.mod_pos_bound j 8 ltac:(lia)). pose proof (Z.mod_pos_bound i 8 ltac:(lia)).
  pose proof (Z.div_mod i 8 ltac:(lia)). pose proof (Z.div_mod j 8 ltac:(lia)).
  pose proof (Z.div_pos i 8 ltac:(lia) ltac:(lia)). pose proof (Z.div_pos j 8 ltac:(lia) ltac:(lia)).
  destruct (decide (Z.to_nat (i / 8) = Z.to_nat (j / 8))) as [E|E]; [|by rewrite list_lookup_insert_ne].
  rewrite E. destruct (buf !! Z.to_nat (j / 8)) as [b|] eqn:Hb.
  2: { rewrite list_insert_ge; [by rewrite Hb|]. by apply lookup_ge_None. }
  rewrite list_lookup_insert_eq by (by eapply lookup_lt_Some). cbn [default from_option id].
  destruct v; [rewrite testbit_lor_pow2 by lia|rewrite testbit_clear_pow2 by lia];
    rewrite (proj2 (Z.eqb_neq (j mod 8) (i mod 8))) by lia; done.
Qed.

Lemma put_bit_ok buf j v : block_bytes_ok buf -> 0 <= j < bits_per_block -> block_bytes_ok (put_bit buf j v).
Proof.
  intros Hb Hj. assert (Hi : 0 <= j / 8 < BLOCK_SIZE).
  { split; [apply Z.div_pos; lia|]. apply Z.div_lt_upper_bound; [lia|]. unfold bits_per_block in Hj. lia. }
  destruct (block_ok_lookup buf _ Hb Hi) as (b & _ & Hn & Hr). pose proof (Z.mod_pos_bound j 8 ltac:(lia)).
  unfold put_bit. rewrite Hn. apply block_ok_insert; [done|].
  destruct v; [by apply byte_lor_range|by apply byte_clear_range].
Qed.

Lemma put_bit_undo buf j v w : block_bytes_ok buf -> 0 <= j < bits_per_block -> buf_bit buf j = w ->
  put_bit (put_bit buf j v) j w = buf.
Proof.
  intros Hb Hj Hw. assert (Hi : 0 <= j / 8 < BLOCK_SIZE).
  { split; [apply Z.div_pos; lia|]. apply Z.div_lt_upper_bound; [lia|]. unfold bits_per_block in Hj. lia. }
  destruct (block_ok_lookup buf _ Hb Hi) as (b & Hx & Hn & Hr). pose proof (Z.mod_pos_bound j 8 ltac:(lia)) as Hm.
  unfold buf_bit in Hw. rewrite Hn in Hw. unfold put_bit at 1. unfold put_bit. rewrite Hn.
  rewrite nth_lookup, list_lookup_insert_eq by (by eapply lookup_lt_Some). cbn [default from_option id].
  rewrite list_insert_insert_eq. rewrite <- (list_insert_id buf (Z.to_nat (j / 8)) b Hx) at 2. f_equal.
  apply Z.bits_inj'. intros i Hi'. subst w.
  destruct (Z.testbit b (j mod 8)) eqn:Hbit, v;
    rewrite ?testbit_lor_pow2, ?testbit_clear_pow2, ?testbit_lor_pow2, ?testbit_clear_pow2 by lia;
    destruct (Z.eqb_spec (j mod 8) i) as [<-|]; cbn; rewrite ?Hbit; done.
Qed.

(** A block of a map. *)
Definition map_block (start k : Z) : Z := start + k / bits_per_block.

Lemma map_bit_put d start k j v : is_block (map_block start k) -> block_bytes_ok (d (map_block start k)) ->
  0 <= k -> 0 <= j -> map_bit (put_map_bit d start k v) start j = if decide (j = k) then v else map_bit d start j.
Proof.
  intros Hk Hb H0 Hj. unfold map_bit, put_map_bit, upd_block, map_block in *.
  pose proof (Z.mod_pos_bound k bits_per_block ltac:(bpb)). pose proof (Z.mod_pos_bound j bits_per_block ltac:(bpb)).
  destruct (decide (j = k)) as [->|Hne]; [by rewrite decide_True, put_bit_same|].
  destruct (decide (start + j / bits_per_block = start + k / bits_per_block)) as [E|E]; [|done].
  rewrite E. apply put_bit_other; [lia|lia|]. intros Hm. apply Hne.
  pose proof (Z.div_mod j bits_per_block ltac:(bpb)). pose proof (Z.div_mod k bits_per_block ltac:(bpb)).
  replace (j / bits_per_block) with (k / bits_per_block) in * by lia. lia.
Qed.

Lemma mark_map_ok start end_ limit s d : 0 <= start <= end_ -> end_ < 2 ^ 16 ->
  druns (mark_map start end_ limit) s d (blocks_post d start limit 0 (end_ - start)).
Proof.
  intros Hs He. apply scratch_druns. pose proof (mark_blocks_ok (Z.to_nat (end_ - start)) 0 start limit s d) as H.
  rewrite Z.add_0_r, Z.mul_0_r, Z.add_0_l, Z2Nat.id in H by lia. apply H; bpb.
Qed.

Lemma div_8_block index : 0 <= index -> index / 8 / BLOCK_SIZE = index / bits_per_block /\
  (index / 8) mod BLOCK_SIZE = (index mod bits_per_block) / 8 /\ (index mod bits_per_block) mod 8 = index mod 8.
Proof.
  intros Hi. change BLOCK_SIZE with 4096. change bits_per_block with (8 * 4096). split; [by rewrite Z.div_div by lia|].
  rewrite (Z.rem_mul_r index 8 4096) by lia. split.
  - rewrite Z.add_comm, Z.mul_comm, Z.div_add_l by lia. pose proof (Z.mod_pos_bound index 8 ltac:(lia)).
    rewrite (Z.div_small (index mod 8)) by lia. lia.
  - rewrite Z.mul_comm, Z.mod_add by lia. apply Z.mod_mod. lia.
Qed.

Lemma unmark_map_ok index start s d : 0 <= index -> 0 <= start -> is_block (map_block start index) ->
  druns (unmark_map index start) s d (fun _ d' => d' = put_map_bit d start index false).
Proof.
  intros Hi Hs Hb. apply scratch_druns. destruct (div_8_block index Hi) as (E1 & E2 & E3). rewrite E1, E2.
  unfold map_block in Hb. rewrite (u16_id _ Hb). dread. rewrite (u16_id _ Hb) in *.
  assert (Hr : 0 <= (index mod bits_per_block) / 8 < BLOCK_SIZE).
  { pose proof (Z.mod_pos_bound index bits_per_block ltac:(bpb)). split; [apply Z.div_pos; lia|].
    apply Z.div_lt_upper_bound; [lia|]. unfold bits_per_block in *. lia. }
  destruct (block_ok_lookup _ _ Hl Hr) as (b & Hx & Hn & Hrb). dopt Hx.
  eapply druns_mono; [apply blk_write_ok; apply block_ok_insert; [done|]; rewrite Z.shiftl_1_l; by apply byte_clear_range|].
  intros [] d' ->. rewrite (u16_id _ Hb). unfold put_map_bit, put_bit. by rewrite Hn, E3, Z.shiftl_1_l.
Qed.

End Disk.

(** ** The layout of the disk *)
Record geometry (sb : minix3_superblock) : Prop := {
  g_imap : 0 <= s_imap_blocks sb;
  g_zmap : 0 <= s_zmap_blocks sb;
  g_ninodes : 1 <= s_ninodes sb;
  g_first : 2 + s_imap_blocks sb + s_zmap_blocks sb + (s_ninodes sb - 1) / 64 < s_firstdatazone sb;
  g_zones : s_firstdatazone sb <= s_zones sb <= 2 ^ 16;
  g_ibits : s_ninodes sb < bits_per_block * s_imap_blocks sb;
  g_zbits : s_zones sb - s_firstdatazone sb < bits_per_block * s_zmap_blocks sb;
}.
Implicit Types (sb : minix3_superblock) (d : contents).

Definition zmap_start sb : Z := 2 + s_imap_blocks sb.
Definition inode_used d (i : Z) : bool := map_bit d 2 i.
Definition zone_bit sb (z : Z) : Z := z - s_firstdatazone sb + 1.
Definition zone_used sb d (z : Z) : bool := map_bit d (zmap_start sb) (zone_bit sb z).
Definition put_inode_used d i v : contents := put_map_bit d 2 i v.
Definition put_zone_used sb d z v : contents := put_map_bit d (zmap_start sb) (zone_bit sb z) v.
(** The bits 0 of the two maps stand for nothing and are set when the file system
    is made. *)
Definition maps_ok sb d : Prop := map_bit d 2 0 = true /\ map_bit d (zmap_start sb) 0 = true.
Definition valid_inode sb (i : Z) : Prop := 1 <= i <= s_ninodes sb.
Definition data_zone sb (z : Z) : Prop := s_firstdatazone sb <= z < s_zones sb.

Lemma inode_blocks_nonneg sb : geometry sb -> 0 <= (s_ninodes sb - 1) / 64.
Proof. intros G. apply Z.div_pos; [pose proof (g_ninodes _ G); lia|lia]. Qed.

Ltac geo G :=
  let g1 := fresh "G1" in let g2 := fresh "G2" in let g3 := fresh "G3" in let g4 := fresh "G4" in
  let g5 := fresh "G5" in let g6 := fresh "G6" in let g7 := fresh "G7" in let g8 := fresh "G8" in
  pose proof (g_imap _ G) as g1; pose proof (g_zmap _ G) as g2; pose proof (g_ninodes _ G) as g3;
  pose proof (g_first _ G) as g4; pose proof (g_zones _ G) as g5; pose proof (inode_blocks_nonneg _ G) as g6;
  pose proof (g_ibits _ G) as g7; pose proof (g_zbits _ G) as g8.

(** The two maps lie before the inodes. *)
Lemma map_block_imap sb k : geometry sb -> 0 <= k < bits_per_block * s_imap_blocks sb ->
  2 <= map_block 2 k < zmap_start sb.
Proof.
  intros G Hk. unfold map_block, zmap_start. assert (0 <= k / bits_per_block) by (apply Z.div_pos; bpb).
  assert (k / bits_per_block < s_imap_blocks sb) by (apply Z.div_lt_upper_bound; bpb). lia.
Qed.

Lemma map_block_zmap sb k : geometry sb -> 0 <= k < bits_per_block * s_zmap_blocks sb ->
  zmap_start sb <= map_block (zmap_start sb) k < zmap_start sb + s_zmap_blocks sb.
Proof.
  intros G Hk. unfold map_block. assert (0 <= k / bits_per_block) by (apply Z.div_pos; bpb).
  assert (k / bits_per_block < s_zmap_blocks sb) by (apply Z.div_lt_upper_bound; bpb). lia.
Qed.

Section Layout.
Context {S : Type} `{BS : BlockStore S}.
Implicit Types (s : fsys S) (U : gset Z) (C : gmap Z Z).

Lemma mark_imap_ok s d : geometry (superblock s) -> maps_ok (superblock s) d ->
  druns mark_imap s d (fun i d' =>
    (i = 0 /\ d' = d /\ forall j, valid_inode (superblock s) j -> j < s_ninodes (superblock s) -> inode_used d j = true) \/
    (1 <= i < s_ninodes (superblock s) /\ inode_used d i = false /\ d' = put_inode_used d i true)).
Proof.
  intros G [M1 M2]. geo G. unfold mark_imap, IMAP_BLOCKS, IMAP_LIMITS. dgets. dgets.
  rewrite u16_id by (unfold is_block, IMAP_ZONE_INDEX; lia).
  eapply druns_mono; [apply mark_map_ok; unfold IMAP_ZONE_INDEX; lia|]. unfold IMAP_ZONE_INDEX in *.
  intros i d' [(k & H1 & H2 & H3 & H4 & -> & ->)|(H1 & -> & ->)].
  - right. assert (k <> 0) by (intros ->; congruence). split_and!; [bpb|bpb|done|done].
  - left. split_and!; [done|done|]. intros j Hj Hlt. unfold valid_inode in Hj. apply H1; [|lia].
    bpb.
Qed.

Lemma unmark_imap_ok s d i : geometry (superblock s) -> valid_inode (superblock s) i ->
  druns (unmark_imap i) s d (fun _ d' => d' = put_inode_used d i false).
Proof.
  unfold valid_inode. intros G Hi. geo G. apply unmark_map_ok; [lia|done|].
  pose proof (map_block_imap _ i G ltac:(bpb)). unfold is_block, IMAP_ZONE_INDEX, zmap_start in *. lia.
Qed.

Lemma mark_zmap_ok s d : geometry (superblock s) -> maps_ok (superblock s) d ->
  druns mark_zmap s d (fun z d' =>
    (z = 0 /\ d' = d /\ forall y, data_zone (superblock s) y -> y < s_zones (superblock s) - 1 ->
       zone_used (superblock s) d y = true) \/
    (data_zone (superblock s) z /\ 0 < z < s_zones (superblock s) - 1 /\ zone_used (superblock s) d z = false /\
     d' = put_zone_used (superblock s) d z true)).
Proof.
  intros G [M1 M2]. geo G. unfold mark_zmap, IMAP_BLOCKS, ZMAP_BLOCKS, ZMAP_LIMITS, FIRST_DATA_ZONE. dgets. dgets. dgets.
  rewrite (u16_id (IMAP_ZONE_INDEX + _)) by (unfold is_block, IMAP_ZONE_INDEX; lia).
  rewrite (u16_id (_ + s_zmap_blocks _)) by (unfold is_block, IMAP_ZONE_INDEX; lia).
  rewrite u32_small by (unfold is_u32; lia). unfold zmap_start in *.
  eapply druns_step; [apply mark_map_ok; unfold IMAP_ZONE_INDEX; lia|]. unfold IMAP_ZONE_INDEX.
  intros k d' [(k' & H1 & H2 & H3 & H4 & -> & ->)|(H1 & -> & ->)]; cbn beta.
  - assert (k' <> 0) by (intros ->; congruence). rewrite (u16_id k') by (unfold is_block; bpb).
    rewrite (proj2 (Z.eqb_neq k' 0)) by done. dgets. rewrite u16_id by (unfold is_block; bpb). apply druns_ret. right.
    unfold data_zone, zone_used, put_zone_used, zone_bit, zmap_start.
    replace (k' + s_firstdatazone (superblock s) - 1 - s_firstdatazone (superblock s) + 1) with k' by lia.
    split_and!; bpb || done.
  - change (u16 0) with 0. apply druns_ret. left. split_and!; [done|done|]. intros y Hy Hlt.
    unfold data_zone in Hy. apply H1; unfold zone_bit; bpb.
Qed.

Lemma unmark_zmap_ok s d z : geometry (superblock s) -> data_zone (superblock s) z ->
  druns (unmark_zmap z) s d (fun _ d' => d' = put_zone_used (superblock s) d z false).
Proof.
  intros G Hz. geo G. unfold data_zone in Hz. unfold unmark_zmap, IMAP_BLOCKS, FIRST_DATA_ZONE.
  rewrite (u16_id z) by (unfold is_block; lia). dgets. dgets. rewrite u16_id by (unfold is_block, IMAP_ZONE_INDEX; lia).
  rewrite (proj2 (Z.ltb_ge z _)) by lia. unfold put_zone_used, zone_bit, zmap_start, IMAP_ZONE_INDEX.
  apply unmark_map_ok; [lia|lia|].
  pose proof (map_block_zmap _ (z - s_firstdatazone (superblock s) + 1) G ltac:(bpb)).
  unfold is_block, zmap_start in *. lia.
Qed.

(** ** Inodes on the disk *)
Definition inode_block sb (i : Z) : Z := 2 + s_imap_blocks sb + s_zmap_blocks sb + (i - 1) / 64.
Definition inode_offset (i : Z) : Z := (i - 1) mod 64 * 64.
Definition disk_inode sb d (i : Z) : minix2_inode :=
  decode_inode (take 64 (drop (Z.to_nat (inode_offset i)) (d (inode_block sb i)))).
Definition put_disk_inode sb d (i : Z) (x : minix2_inode) : contents :=
  upd_block (inode_block sb i)
    (list_inserts (Z.to_nat (inode_offset i)) (encode_inode x) (d (inode_block sb i))) d.

Lemma inode_block_range sb i : geometry sb -> valid_inode sb i ->
  zmap_start sb + s_zmap_blocks sb <= inode_block sb i < s_firstdatazone sb /\ is_block (inode_block sb i) /\
  0 <= inode_offset i <= BLOCK_SIZE - 64.
Proof.
  unfold valid_inode. intros G Hi. geo G. unfold inode_block, inode_offset, zmap_start, is_block, BLOCK_SIZE.
  assert (0 <= (i - 1) / 64) by (apply Z.div_pos; lia).
  assert ((i - 1) / 64 <= (s_ninodes sb - 1) / 64) by (apply Z.div_le_mono; lia).
  pose proof (Z.mod_pos_bound (i - 1) 64 ltac:(lia)). lia.
Qed.

(** The numbers of [read_inode] and [write_inode]. *)
Lemma inode_location sb i : geometry sb -> valid_inode sb i ->
  u16 (IMAP_ZONE_INDEX + s_imap_blocks sb + s_zmap_blocks sb + u16 (u32 (i - 1) / INODES_PER_BLOCK)) = inode_block sb i /\
  u32 (i - 1) mod INODES_PER_BLOCK * INODE_BYTES = inode_offset i.
Proof.
  intros G Hi. destruct (inode_block_range sb i G Hi) as (H1 & H2 & H3). geo G.
  unfold valid_inode in Hi. unfold inode_block, is_block in *.
  change INODES_PER_BLOCK with 64. change INODE_BYTES with 64. unfold IMAP_ZONE_INDEX.
  assert (0 <= (i - 1) / 64) by (apply Z.div_pos; lia).
  assert (Hn : s_ninodes sb < 2 ^ 32).
  { unfold zmap_start in *. pose proof (Z.div_mod (s_ninodes sb - 1) 64 ltac:(lia)).
    pose proof (Z.mod_pos_bound (s_ninodes sb - 1) 64 ltac:(lia)). lia. }
  rewrite (u32_small (i - 1)) by (unfold is_u32; lia).
  rewrite (u16_id ((i - 1) / 64)) by (unfold is_block; lia). split; [|done]. by apply u16_id.
Qed.

Lemma slice_ok l off n : block_bytes_ok l -> 0 <= off -> 0 <= n -> off + n <= BLOCK_SIZE ->
  slice l off n = Some (take (Z.to_nat n) (drop (Z.to_nat off) l)).
Proof.
  intros [Hl _] Ho Hn Hs. unfold slice. rewrite Hl.
  rewrite (proj2 (Z.leb_le 0 off) Ho), (proj2 (Z.leb_le 0 n) Hn). cbn [andb].
  rewrite (proj2 (Z.leb_le _ _)) by lia. done.
Qed.

Lemma patch_ok l off k : block_bytes_ok l -> 0 <= off -> off + Z.of_nat (length k) <= BLOCK_SIZE ->
  patch l off k = Some (list_inserts (Z.to_nat off) k l).
Proof.
  intros [Hl _] Ho Hs. unfold patch. rewrite Hl, (proj2 (Z.leb_le 0 off) Ho). cbn [andb].
  rewrite (proj2 (Z.leb_le _ _)) by lia. done.
Qed.

Lemma read_inode_ok s d i : geometry (superblock s) -> valid_inode (superblock s) i ->
  druns (read_inode i) s d (fun x d' => x = disk_inode (superblock s) d i /\ d' = d).
Proof.
  intros G Hi. destruct (inode_block_range _ i G Hi) as (H1 & H2 & H3). destruct (inode_location _ i G Hi) as [E1 E2].
  apply scratch_druns. unfold INODE_ZONE_INDEX, IMAP_BLOCKS, ZMAP_BLOCKS. rewrite E2.
  eapply druns_step; [dgets; dgets; by apply (druns_ret _ s d (fun x d' => x = IMAP_ZONE_INDEX + s_imap_blocks (superblock s) + s_zmap_blocks (superblock s) /\ d' = d))|].
  intros base d1 [-> ->]. cbn beta. dread. rewrite E1 in *.
  dopt (slice_ok _ (inode_offset i) INODE_BYTES Hl ltac:(lia) ltac:(done) ltac:(unfold INODE_BYTES; lia)).
  by apply druns_ret.
Qed.

Lemma encode_inode_bytes x : Forall (fun b => 0 <= b < 256) (encode_inode x).
Proof.
  unfold encode_inode, le16, le32. rewrite !Forall_app.
  repeat (split; [apply (Z_to_little_endian_bound _ 8); lia|]).
  apply Forall_concat, Forall_map, Forall_true. intros v. apply (Z_to_little_endian_bound _ 8); lia.
Qed.

Lemma write_inode_ok s d i x : geometry (superblock s) -> valid_inode (superblock s) i -> length (i_zone x) = 10%nat ->
  druns (write_inode i x) s d (fun _ d' => d' = put_disk_inode (superblock s) d i x).
Proof.
  intros G Hi Hx. destruct (inode_block_range _ i G Hi) as (H1 & H2 & H3). destruct (inode_location _ i G Hi) as [E1 E2].
  apply scratch_druns. unfold INODE_ZONE_INDEX, IMAP_BLOCKS, ZMAP_BLOCKS. rewrite E2.
  eapply druns_step; [dgets; dgets; by apply (druns_ret _ s d (fun x d' => x = IMAP_ZONE_INDEX + s_imap_blocks (superblock s) + s_zmap_blocks (superblock s) /\ d' = d))|].
  intros base d1 [-> ->]. cbn beta. dread. rewrite E1 in *.
  dopt (patch_ok _ (inode_offset i) (encode_inode x) Hl ltac:(lia) ltac:(rewrite encode_inode_length by done; lia)).
  eapply druns_mono; [apply blk_write_ok, block_ok_inserts; [done|apply encode_inode_bytes]|].
  intros [] d' ->. by rewrite E1.
Qed.

(** An inode written is read back; the others do not change. *)
Lemma disk_inode_put sb d i j x : geometry sb -> valid_inode sb i -> valid_inode sb j -> inode_wf x ->
  block_bytes_ok (d (inode_block sb i)) ->
  disk_inode sb (put_disk_inode sb d i x) j = if decide (j = i) then x else disk_inode sb d j.
Proof.
  intros G Hi Hj Hx [Hl _]. destruct (inode_block_range sb i G Hi) as (_ & _ & Hoi).
  destruct (inode_block_range sb j G Hj) as (_ & _ & Hoj). pose proof (encode_inode_length x (wf_zones _ Hx)) as He.
  unfold disk_inode, put_disk_inode, upd_block. destruct (decide (j = i)) as [->|Hne].
  - rewrite decide_True by done. rewrite <- He. rewrite inserts_same by (rewrite Hl, He; lia).
    rewrite <- (app_nil_r (encode_inode x)). by apply decode_encode_inode.
  - destruct (decide (inode_block sb j = inode_block sb i)) as [Eb|]; [|done]. rewrite Eb, inserts_other; [done|].
    rewrite He. unfold inode_block, inode_offset in *.
    pose proof (Z.div_mod (i - 1) 64 ltac:(lia)). pose proof (Z.div_mod (j - 1) 64 ltac:(lia)).
    assert ((i - 1) / 64 = (j - 1) / 64) by lia. lia.
Qed.
End Layout.
