(* ===== verification/InodeSpecs.v ===== *)
(** * inode.c: files

    A file is the sequence of the bytes of its blocks, found through its zones.
    [inode_read] returns the bytes of the file; [inode_write] inside the file
    replaces them and nothing else. *)

From stdpp Require Import base numbers list list_numbers gmap.
From S2P Require Import Prelude Bytes Buddy BuddyProofs KernelMem Unix Hoare Block BlockProofs Minix Inode InodeProofs.

#[local] Open Scope Z_scope.
#[local] Open Scope kernel_scope.

Implicit Types (x : minix2_inode) (d : contents) (sb : minix3_superblock).

(** ** The zones of a file *)
Definition file_zone x d (block : Z) : Z :=
  let z0 := zone_slot block in
  if zone_at x z0 =? 0 then 0
  else if z0 =? 7 then u16 (get_word (d (u16 (zone_at x z0))) (block - 7))
  else if z0 =? 8 then
    let z := get_word (d (u16 (zone_at x z0))) ((block - (7 + ZONES_PER_BLOCK)) / ZONES_PER_BLOCK) in
    if z =? 0 then 0
    else u16 (get_word (d (u16 z)) ((block - (7 + ZONES_PER_BLOCK)) mod ZONES_PER_BLOCK))
  else u16 (zone_at x z0).

Definition zero_block : list Z := replicate (Z.to_nat BLOCK_SIZE) 0.
Definition file_block x d (b : Z) : list Z :=
  if file_zone x d b =? 0 then zero_block else d (file_zone x d b).
Definition file_byte x d (p : Z) : Z := nth (Z.to_nat (p mod BLOCK_SIZE)) (file_block x d (p / BLOCK_SIZE)) 0.
Definition file_bytes x d (start n : Z) : list Z := file_byte x d <$> seqZ start n.

Lemma file_bytes_app x d start n m : 0 <= n -> 0 <= m ->
  file_bytes x d start (n + m) = file_bytes x d start n ++ file_bytes x d (start + n) m.
Proof. intros Hn Hm. unfold file_bytes. by rewrite seqZ_app, fmap_app. Qed.

Lemma file_bytes_length x d start n : length (file_bytes x d start n) = Z.to_nat n.
Proof. unfold file_bytes. by rewrite length_fmap, length_seqZ. Qed.

Lemma file_bytes_lookup x d start n i : 0 <= i < n -> file_bytes x d start n !! Z.to_nat i = Some (file_byte x d (start + i)).
Proof.
  intros Hi. unfold file_bytes. rewrite list_lookup_fmap, lookup_seqZ_lt by lia. cbn. f_equal. f_equal. lia.
Qed.

(** A part of a block of a file. *)
Lemma file_chunk x d b off n : length (file_block x d b) = Z.to_nat BLOCK_SIZE -> 0 <= off -> 0 <= n ->
  off + n <= BLOCK_SIZE -> take (Z.to_nat n) (drop (Z.to_nat off) (file_block x d b)) = file_bytes x d (b * BLOCK_SIZE + off) n.
Proof.
  intros Hl Ho Hn Hs. apply list_eq. intros i. destruct (decide (i < Z.to_nat n)%nat) as [Hi|Hi].
  - rewrite lookup_take_lt, lookup_drop by done. rewrite <- (Nat2Z.id i) at 2. rewrite file_bytes_lookup by lia.
    unfold file_byte. rewrite <- Z.add_assoc.
    assert (E1 : (b * BLOCK_SIZE + (off + Z.of_nat i)) mod BLOCK_SIZE = off + Z.of_nat i)
      by (rewrite Z.add_comm, Z.mod_add, Z.mod_small; unfold BLOCK_SIZE in *; lia).
    assert (E2 : (b * BLOCK_SIZE + (off + Z.of_nat i)) / BLOCK_SIZE = b)
      by (rewrite Z.add_comm, Z.div_add, Z.div_small; unfold BLOCK_SIZE in *; lia).
    rewrite E1, E2. replace (Z.to_nat (off + Z.of_nat i)) with (Z.to_nat off + i)%nat by lia.
    destruct (lookup_lt_is_Some_2 (file_block x d b) (Z.to_nat off + i)) as [v Hv]; [lia|].
    rewrite Hv. f_equal. symmetry. by apply nth_lookup_Some.
  - rewrite lookup_take_ge by lia. symmetry. apply lookup_ge_None. rewrite file_bytes_length. lia.
Qed.

(** How much of a block is copied. *)
Lemma copy_size_min start size : 0 <= size -> start mod BLOCK_SIZE + size < 2 ^ 32 ->
  calculate_block_copy_size start size = Z.min size (BLOCK_SIZE - start mod BLOCK_SIZE).
Proof.
  intros Hs Hl. unfold calculate_block_copy_size, calculate_block_offset.
  pose proof (Z.mod_pos_bound start BLOCK_SIZE ltac:(done)). rewrite u32_small by (unfold is_u32; lia).
  destruct (Z.ltb_spec BLOCK_SIZE (start mod BLOCK_SIZE + size)); lia.
Qed.

(** The block index [block_index] cannot count past this. *)
Definition FILE_LIMIT : Z := 65535 * BLOCK_SIZE.

Section Files.
Context {S : Type} `{BS : BlockStore S}.
Implicit Types (s : fsys S) (U : gset Z) (C : gmap Z Z).

Lemma get_block_ok s d a n b : geometry (superblock s) -> fs_inodes s !! a = Some n ->
  valid_inode (superblock s) (n_index n) ->
  druns (get_block a b) s d (fun z d' => z = file_zone (disk_inode (superblock s) d (n_index n)) d b /\ d' = d).
Proof.
  intros G Ha Hi. apply scratch_druns. dstep (get_inode_obj_ok a n s d Ha) as n' d0 [-> ->].
  dstep (read_inode_ok s d (n_index n) G Hi) as x d0 [-> ->]. set (x := disk_inode _ _ _).
  unfold file_zone. cbn zeta. unfold truthy. rewrite negb_involutive.
  destruct (zone_at x (zone_slot b) =? 0); [by apply druns_ret|].
  destruct (zone_slot b =? 7); [dread; by apply druns_ret|].
  destruct (zone_slot b =? 8); [|by apply druns_ret]. dread. rewrite negb_involutive.
  destruct (get_word _ _ =? 0); [by apply druns_ret|]. dread. by apply druns_ret.
Qed.

(** Every block of the card has its size. *)
Definition blocks_ok d : Prop := forall i, is_block i -> block_bytes_ok (d i).

Lemma file_zone_block x d b : is_block (file_zone x d b).
Proof.
  assert (is_block 0) by (unfold is_block; lia). pose proof u16_block. unfold file_zone. repeat case_match; auto.
Qed.

Lemma file_block_ok x d b : blocks_ok d -> block_bytes_ok (file_block x d b).
Proof.
  intros H. unfold file_block. case_match; [split; vm_compute; reflexivity|]. apply H, file_zone_block.
Qed.

Lemma load_block_ok s x d b : blocks_ok d ->
  druns (if truthy (file_zone x d b) then blk_read (file_zone x d b) else ret (replicate (Z.to_nat BLOCK_SIZE) 0))
    s d (fun l d' => l = file_block x d b /\ d' = d).
Proof.
  intros Hd. unfold file_block, truthy. destruct (file_zone x d b =? 0); cbn [negb]; [by apply druns_ret|].
  eapply druns_mono; [apply blk_read_ok|]. intros l d' (-> & -> & _). by rewrite (u16_id _ (file_zone_block _ _ _)).
Qed.

(** The positions of one turn: how much is copied, and where the next one is. *)
Lemma turn_numbers cs sz : 0 <= cs -> 0 <= sz -> cs + sz < FILE_LIMIT ->
  let copy := calculate_block_copy_size cs sz in
  0 <= copy <= sz /\ cs mod BLOCK_SIZE + copy <= BLOCK_SIZE /\
  u32 (cs + copy) = cs + copy /\ u32 (sz - copy) = sz - copy /\ cs / BLOCK_SIZE * BLOCK_SIZE + cs mod BLOCK_SIZE = cs /\
  0 <= cs / BLOCK_SIZE <= (cs + sz) / BLOCK_SIZE /\ (cs + sz) / BLOCK_SIZE < 65535 /\
  ((cs + sz) / BLOCK_SIZE = cs / BLOCK_SIZE -> copy = sz) /\
  (cs / BLOCK_SIZE < (cs + sz) / BLOCK_SIZE -> (cs + copy) / BLOCK_SIZE = cs / BLOCK_SIZE + 1).
Proof.
  intros H1 H2 H3. unfold FILE_LIMIT in H3. cbn zeta. rewrite copy_size_min.
  2: done.
  2: { pose proof (Z.mod_pos_bound cs BLOCK_SIZE ltac:(done)). change BLOCK_SIZE with 4096 in *. lia. }
  change BLOCK_SIZE with 4096 in *.
  pose proof (Z.mod_pos_bound cs 4096 ltac:(lia)). pose proof (Z.div_mod cs 4096 ltac:(lia)).
  pose proof (Z.mod_pos_bound (cs + sz) 4096 ltac:(lia)). pose proof (Z.div_mod (cs + sz) 4096 ltac:(lia)).
  pose proof (Z.div_pos cs 4096 ltac:(lia) ltac:(lia)).
  pose proof (Z.div_le_mono cs (cs + sz) 4096 ltac:(lia) ltac:(lia)).
  assert ((cs + sz) / 4096 < 65535) by (apply Z.div_lt_upper_bound; lia).
  rewrite !u32_small by (unfold is_u32; lia). split_and!; try lia.
  intros Hlt. rewrite Z.min_r by lia. symmetry. apply (Z.div_unique _ _ _ 0); lia.
Qed.

Lemma read_loop_ok s d a n k : geometry (superblock s) -> fs_inodes s !! a = Some n ->
  valid_inode (superblock s) (n_index n) -> blocks_ok d -> forall fuel cs sz,
  0 <= cs -> 0 <= sz -> cs + sz < FILE_LIMIT -> Z.of_nat k = (cs + sz) / BLOCK_SIZE - cs / BLOCK_SIZE ->
  (k + 2 <= fuel)%nat ->
  druns (read_loop fuel a (cs / BLOCK_SIZE) ((cs + sz) / BLOCK_SIZE) cs sz) s d (fun l d' =>
    l = file_bytes (disk_inode (superblock s) d (n_index n)) d cs sz /\ d' = d).
Proof.
  intros G Ha Hi Hd. set (x := disk_inode _ _ _).
  induction k as [|k IH]; intros fuel cs sz H1 H2 H3 Hk Hf; (destruct fuel as [|fuel]; [lia|]); cbn [read_loop];
    destruct (turn_numbers cs sz H1 H2 H3) as (T1 & T2 & T3 & T4 & T5 & T6 & T7 & T8 & T9);
    rewrite (proj2 (Z.ltb_ge _ _)) by lia; set (copy := calculate_block_copy_size cs sz) in *;
    (dstep (get_block_ok s d a n (cs / BLOCK_SIZE) G Ha Hi) as z d' [-> ->]); fold x;
    (dstep (load_block_ok s x d (cs / BLOCK_SIZE) Hd) as l d' [-> ->]);
    pose proof (file_block_ok x d (cs / BLOCK_SIZE) Hd) as Hb;
    dopt (slice_ok _ (cs mod BLOCK_SIZE) copy Hb (proj1 (Z.mod_pos_bound cs BLOCK_SIZE ltac:(done))) (proj1 T1) T2);
    rewrite (file_chunk x d _ _ copy (proj1 Hb)) by (pose proof (Z.mod_pos_bound cs BLOCK_SIZE ltac:(done)); lia);
    rewrite T3, T4, T5, (u16_id (cs / BLOCK_SIZE + 1)) by (unfold is_block; lia).
  - destruct fuel as [|fuel]; [lia|]. cbn [read_loop]. rewrite (proj2 (Z.ltb_lt _ _)) by lia.
    eapply (druns_step (ret [])); [by apply (druns_ret [] s d (fun l d' => l = [] /\ d' = d))|]. intros l d' [-> ->].
    apply druns_ret. rewrite app_nil_r. by rewrite T8 by lia.
  - rewrite <- T9 by lia. replace (cs + sz) with (cs + copy + (sz - copy)) in * by lia.
    eapply druns_step; [apply IH; rewrite ?T9; lia|]. intros l d' [-> ->]. cbn beta. apply druns_ret. split; [|done].
    rewrite <- file_bytes_app by lia. f_equal. lia.
Qed.

Lemma u16_div p : 0 <= p < FILE_LIMIT -> u16 (p / BLOCK_SIZE) = p / BLOCK_SIZE.
Proof.
  intros Hp. apply u16_id. unfold is_block, FILE_LIMIT in *. change BLOCK_SIZE with 4096 in *.
  split; [apply Z.div_pos; lia|]. apply Z.div_lt_upper_bound; lia.
Qed.

(** What a read of [size] bytes at [start] gives of a file of [total] bytes. *)
Definition read_size (total start size : Z) : Z := Z.max 0 (Z.min size (total - start)).

Lemma inode_read_ok s d a n size start : geometry (superblock s) -> fs_inodes s !! a = Some n ->
  valid_inode (superblock s) (n_index n) -> blocks_ok d -> 0 <= size -> 0 <= start -> (start < n_size n -> start + size < 2 ^ 32) ->
  n_size n < FILE_LIMIT ->
  druns (inode_read a size start) s d (fun r d' =>
    r = (read_size (n_size n) start size,
         file_bytes (disk_inode (superblock s) d (n_index n)) d start (read_size (n_size n) start size)) /\ d' = d).
Proof.
  intros G Ha Hi Hd H1 H2 H3 Hn. unfold inode_read. apply scratch_druns.
  dstep (get_inode_obj_ok a n s d Ha) as n' d0 [-> ->]. unfold read_size.
  destruct (Z.leb_spec (n_size n) start) as [Hle|Hlt].
  { apply druns_ret. rewrite (Z.max_l 0) by lia. done. }
  rewrite (u32_small (start + size)) by (unfold is_u32; lia).
  set (size' := if n_size n <? start + size then n_size n - start else size).
  assert (Hs : size' = Z.max 0 (Z.min size (n_size n - start))).
  { unfold size'. destruct (Z.ltb_spec (n_size n) (start + size)); lia. }
  rewrite <- Hs. assert (Hr : 0 <= size' /\ start + size' <= n_size n) by (rewrite Hs; lia). unfold FILE_LIMIT, BLOCK_SIZE in Hn.
  rewrite (u32_small (start + size')) by (unfold is_u32; lia). rewrite !u16_div by (unfold FILE_LIMIT, BLOCK_SIZE; lia).
  eapply druns_step.
  - apply (read_loop_ok s d a n (Z.to_nat ((start + size') / BLOCK_SIZE - start / BLOCK_SIZE)) G Ha Hi Hd);
      try (unfold FILE_LIMIT, BLOCK_SIZE; lia).
    pose proof (Z.div_le_mono start (start + size') BLOCK_SIZE ltac:(done) ltac:(lia)). lia.
  - intros l d' [-> ->]. cbn beta. apply druns_ret. split; [|done]. rewrite s32_small; [done|]. unfold is_s32. lia.
Qed.

(** ** Writing inside a file

    [file_ok]: the blocks of the file up to the one its size lies in are on zones
    of their own, apart from the indirect zones that lead to them. *)
Definition index_zones x d (block : Z) : list Z :=
  let z0 := zone_slot block in
  if z0 =? 7 then [u16 (zone_at x z0)]
  else if z0 =? 8 then
    [u16 (zone_at x z0);
     u16 (get_word (d (u16 (zone_at x z0))) ((block - (7 + ZONES_PER_BLOCK)) / ZONES_PER_BLOCK))]
  else [].

Record file_ok sb d x (size : Z) : Prop := {
  fo_zone : forall b, 0 <= b <= size / BLOCK_SIZE -> data_zone sb (file_zone x d b) /\ file_zone x d b <> 0;
  fo_inj : forall b c, 0 <= b <= size / BLOCK_SIZE -> 0 <= c <= size / BLOCK_SIZE ->
    file_zone x d b = file_zone x d c -> b = c;
  fo_index : forall b c, 0 <= b <= size / BLOCK_SIZE -> 0 <= c <= size / BLOCK_SIZE ->
    file_zone x d b ∉ index_zones x d c;
}.

(** Zones and indirect zones do not change with blocks apart from the latter. *)
Lemma file_zone_frame x d d' b : (forall z, z ∈ index_zones x d b -> d' z = d z) ->
  file_zone x d' b = file_zone x d b /\ index_zones x d' b = index_zones x d b.
Proof.
  unfold file_zone, index_zones. intros H. destruct (zone_slot b =? 7) eqn:E7.
  - rewrite (H (u16 (zone_at x (zone_slot b)))) by (by left). done.
  - destruct (zone_slot b =? 8) eqn:E8; [|done].
    rewrite (H (u16 (zone_at x (zone_slot b)))) by (by left). split; [|done].
    destruct (_ =? 0); [done|]. destruct (_ =? 0); [done|]. by rewrite H by (right; left).
Qed.

(** A block of the file is overwritten. *)
Lemma file_ok_write sb d x size b l : file_ok sb d x size -> 0 <= b <= size / BLOCK_SIZE ->
  let d' := upd_block (file_zone x d b) l d in
  (forall c, 0 <= c <= size / BLOCK_SIZE -> file_zone x d' c = file_zone x d c /\
     file_block x d' c = if decide (c = b) then l else file_block x d c) /\ file_ok sb d' x size.
Proof.
  intros F Hb d'.
  assert (Hz : forall c, 0 <= c <= size / BLOCK_SIZE -> file_zone x d' c = file_zone x d c /\ index_zones x d' c = index_zones x d c).
  { intros c Hc. apply file_zone_frame. intros z Hin. unfold d', upd_block. rewrite decide_False; [done|].
    intros ->. by eapply (fo_index _ _ _ _ F b c). }
  split.
  - intros c Hc. destruct (Hz c Hc) as [E _]. split; [done|]. unfold file_block. rewrite E.
    rewrite (proj2 (Z.eqb_neq _ 0)) by (apply (fo_zone _ _ _ _ F c Hc)). unfold d', upd_block.
    destruct (decide (c = b)) as [->|Hne]; [by rewrite decide_True|]. rewrite decide_False; [done|].
    intros E'. apply Hne. by apply (fo_inj _ _ _ _ F).
  - split.
    + intros c Hc. destruct (Hz c Hc) as [-> _]. by apply F.
    + intros c e Hc He. destruct (Hz c Hc) as [-> _], (Hz e He) as [-> _]. by apply F.
    + intros c e Hc He. destruct (Hz c Hc) as [-> _], (Hz e He) as [_ ->]. by apply F.
Qed.

Lemma disk_inode_upd sb d i z l : geometry sb -> valid_inode sb i -> data_zone sb z ->
  disk_inode sb (upd_block z l d) i = disk_inode sb d i.
Proof.
  intros G Hi Hz. destruct (inode_block_range sb i G Hi) as (H & _). unfold disk_inode, upd_block, data_zone in *.
  by rewrite decide_False by lia.
Qed.

Lemma blocks_ok_upd d z l : blocks_ok d -> block_bytes_ok l -> blocks_ok (upd_block z l d).
Proof. intros Hd Hl i Hi. unfold upd_block. case_decide; [done|by apply Hd]. Qed.

(** A byte of a block after a part of it has been overwritten. *)
Lemma patched_byte (l k : list Z) off p : block_bytes_ok l -> 0 <= off -> off + Z.of_nat (length k) <= BLOCK_SIZE ->
  0 <= p < BLOCK_SIZE ->
  nth (Z.to_nat p) (list_inserts (Z.to_nat off) k l) 0 =
    if decide (off <= p < off + Z.of_nat (length k)) then nth (Z.to_nat (p - off)) k 0 else nth (Z.to_nat p) l 0.
Proof.
  intros [Hl _] Ho Hk Hp. rewrite !nth_lookup. case_decide as Hin.
  - rewrite list_lookup_inserts by lia. do 2 f_equal. lia.
  - destruct (Z.lt_ge_cases p off).
    + by rewrite list_lookup_inserts_lt by lia.
    + rewrite list_lookup_inserts_ge by lia. done.
Qed.

(** What a write of the first [sz] bytes of [data] at [cs] makes of the disk. *)
Record written sb d d' x size cs sz (data : list Z) : Prop := {
  w_file : file_ok sb d' x size;
  w_blocks : blocks_ok d';
  w_zone : forall b, 0 <= b <= size / BLOCK_SIZE -> file_zone x d' b = file_zone x d b;
  w_bytes : forall p, 0 <= p -> p / BLOCK_SIZE <= size / BLOCK_SIZE ->
    file_byte x d' p = if decide (cs <= p < cs + sz) then nth (Z.to_nat (p - cs)) data 0 else file_byte x d p;
  w_frame : forall i, (forall b, 0 <= b <= size / BLOCK_SIZE -> i <> file_zone x d b) -> d' i = d i;
}.

(** One turn of the loop, and the ones after it. *)
Lemma written_turn sb d d' x size cs copy sz data l :
  file_ok sb d x size -> blocks_ok d -> 0 <= cs -> 0 <= copy <= sz -> cs / BLOCK_SIZE <= size / BLOCK_SIZE ->
  cs mod BLOCK_SIZE + copy <= BLOCK_SIZE -> sz <= Z.of_nat (length data) -> Forall (fun b => 0 <= b < 256) data ->
  l = list_inserts (Z.to_nat (cs mod BLOCK_SIZE)) (take (Z.to_nat copy) data) (file_block x d (cs / BLOCK_SIZE)) ->
  written sb (upd_block (file_zone x d (cs / BLOCK_SIZE)) l d) d' x size (cs + copy) (sz - copy) (drop (Z.to_nat copy) data) ->
  written sb d d' x size cs sz data.
Proof.
  intros F Hd Hcs Hcopy Hblk Hoff Hdata Hbytes -> [W1 W2 W3 W4 W5].
  pose proof (Z.mod_pos_bound cs BLOCK_SIZE ltac:(done)) as Hm. pose proof (Z.div_mod cs BLOCK_SIZE ltac:(done)) as Hdm.
  assert (Hb : 0 <= cs / BLOCK_SIZE <= size / BLOCK_SIZE) by (split; [apply Z.div_pos; [lia|done]|done]).
  set (l := list_inserts _ _ _) in *. destruct (file_ok_write sb d x size _ l F Hb) as [H1 H2].
  set (d1 := upd_block _ l d) in *.
  assert (Hlen : Z.of_nat (length (take (Z.to_nat copy) data)) = copy) by (rewrite length_take; lia).
  split; [done|done| | |].
  - intros b Hb'. rewrite W3 by done. by apply H1.
  - intros p Hp Hpb. rewrite W4 by done. assert (Hpb' : 0 <= p / BLOCK_SIZE <= size / BLOCK_SIZE) by (split; [apply Z.div_pos; [lia|done]|done]).
    pose proof (Z.mod_pos_bound p BLOCK_SIZE ltac:(done)) as Hpm. pose proof (Z.div_mod p BLOCK_SIZE ltac:(done)) as Hpd.
    assert (Hin : file_byte x d1 p = if decide (cs <= p < cs + copy) then nth (Z.to_nat (p - cs)) data 0 else file_byte x d p).
    { unfold file_byte. destruct (H1 _ Hpb') as [_ ->]. destruct (decide (p / BLOCK_SIZE = cs / BLOCK_SIZE)) as [E|E].
      - unfold l. rewrite patched_byte by (try apply file_block_ok; done || lia). rewrite Hlen, E.
        destruct (decide (cs mod BLOCK_SIZE <= p mod BLOCK_SIZE < cs mod BLOCK_SIZE + copy)) as [Hi|Hi],
          (decide (cs <= p < cs + copy)) as [Hj|Hj]; try lia; try done.
        replace (p mod BLOCK_SIZE - cs mod BLOCK_SIZE) with (p - cs) by lia. rewrite !nth_lookup. f_equal.
        apply lookup_take_lt. lia.
      - rewrite decide_False; [done|]. intros Hi. apply E. change BLOCK_SIZE with 4096 in *.
        assert (p / 4096 >= cs / 4096) by (apply Z.le_ge, Z.div_le_mono; lia).
        assert (p / 4096 < cs / 4096 + 1) by (apply Z.div_lt_upper_bound; lia). lia. }
    rewrite Hin. destruct (decide (cs + copy <= p < cs + copy + (sz - copy))) as [Hi|Hi],
      (decide (cs <= p < cs + copy)) as [Hj|Hj], (decide (cs <= p < cs + sz)) as [Hk|Hk]; try lia; try done.
    rewrite !nth_lookup, lookup_drop. do 2 f_equal. lia.
  - intros i Hi. rewrite W5.
    + unfold d1, upd_block. rewrite decide_False; [done|]. by apply Hi.
    + intros b Hb'. destruct (H1 b Hb') as [-> _]. by apply Hi.
Qed.

Lemma written_refl sb d x size cs data : file_ok sb d x size -> blocks_ok d -> written sb d d x size cs 0 data.
Proof. intros F Hd. split; try done. intros p Hp _. by rewrite decide_False by lia. Qed.

Lemma write_loop_ok s a n k : geometry (superblock s) -> fs_inodes s !! a = Some n ->
  valid_inode (superblock s) (n_index n) -> n_size n < FILE_LIMIT -> forall fuel cs sz data d x,
  x = disk_inode (superblock s) d (n_index n) -> file_ok (superblock s) d x (n_size n) -> blocks_ok d ->
  0 <= cs -> 0 <= sz -> cs + sz <= n_size n -> sz <= Z.of_nat (length data) -> Forall (fun b => 0 <= b < 256) data ->
  Z.of_nat k = (cs + sz) / BLOCK_SIZE - cs / BLOCK_SIZE -> (k + 2 <= fuel)%nat ->
  druns (write_loop fuel a (cs / BLOCK_SIZE) ((cs + sz) / BLOCK_SIZE) cs sz data) s d (fun r d' =>
    r = None /\ x = disk_inode (superblock s) d' (n_index n) /\ written (superblock s) d d' x (n_size n) cs sz data).
Proof.
  intros G Ha Hi Hlim. set (sb := superblock s).
  induction k as [|k IH]; intros fuel cs sz data d x Hx F Hd H1 H2 H3 Hdata Hbytes Hk Hf;
    (destruct fuel as [|fuel]; [lia|]); cbn [write_loop];
    destruct (turn_numbers cs sz H1 H2 ltac:(lia)) as (T1 & T2 & T3 & T4 & T5 & T6 & T7 & T8 & T9);
    rewrite (proj2 (Z.ltb_ge _ _)) by lia; set (copy := calculate_block_copy_size cs sz) in *;
    (dstep (get_inode_obj_ok a n s d Ha) as n' d' [-> ->]); rewrite T3, T4;
    rewrite (proj2 (Z.ltb_ge (n_size n) (cs + copy))) by lia;
    (eapply (druns_step (ret 0)); [by apply (druns_ret 0 s d (fun r d' => r = 0 /\ d' = d))|]; intros r d' [-> ->]; cbn beta iota);
    change (0 <? 0) with false; cbn iota;
    (dstep (get_block_ok s d a n (cs / BLOCK_SIZE) G Ha Hi) as z d' [-> ->]); fold sb; rewrite <- Hx;
    (assert (Hb : 0 <= cs / BLOCK_SIZE <= n_size n / BLOCK_SIZE) by (split; [lia|apply Z.div_le_mono; [done|lia]]));
    destruct (fo_zone _ _ _ _ F _ Hb) as [Hz Hz0]; rewrite (proj2 (Z.eqb_neq _ 0) Hz0);
    (dstep blk_read_ok as buf d' (-> & -> & Hbuf)); rewrite (u16_id _ (file_zone_block x d _)) in *;
    (assert (Hfb : d (file_zone x d (cs / BLOCK_SIZE)) = file_block x d (cs / BLOCK_SIZE))
      by (unfold file_block; by rewrite (proj2 (Z.eqb_neq _ 0) Hz0))); rewrite Hfb in *;
    (assert (Hslice : slice data 0 copy = Some (take (Z.to_nat copy) data))
      by (unfold slice; rewrite (proj2 (Z.leb_le 0 copy)), (proj2 (Z.leb_le (0 + copy) _)) by lia; done)); dopt Hslice;
    (assert (Hlen : Z.of_nat (length (take (Z.to_nat copy) data)) = copy) by (rewrite length_take; lia));
    dopt (patch_ok _ (cs mod BLOCK_SIZE) (take (Z.to_nat copy) data) Hbuf (proj1 (Z.mod_pos_bound cs BLOCK_SIZE ltac:(done))) ltac:(rewrite Hlen; lia));
    set (l := list_inserts _ _ _);
    (assert (Hl : block_bytes_ok l) by (apply block_ok_inserts; [done|by apply Forall_take]));
    (eapply druns_step; [by apply (blk_write_ok (file_zone x d (cs / BLOCK_SIZE)) l s d)|]; intros [] d' ->; cbn beta iota);
    rewrite (u16_id _ (file_zone_block x d _)), (u16_id (cs / BLOCK_SIZE + 1)) by (unfold is_block; lia);
    destruct (file_ok_write sb d x (n_size n) _ l F Hb) as [_ F1]; set (d1 := upd_block _ l d) in *;
    (assert (Hx1 : x = disk_inode sb d1 (n_index n)) by (unfold d1; by rewrite disk_inode_upd));
    pose proof (blocks_ok_upd d (file_zone x d (cs / BLOCK_SIZE)) l Hd Hl) as Hd1; fold d1 in Hd1.
  - destruct fuel as [|fuel]; [lia|]. cbn [write_loop]. rewrite (proj2 (Z.ltb_lt _ _)) by lia.
    apply druns_ret. split; [done|]. split; [done|].
    eapply (written_turn sb d d1 x _ cs copy sz data l); try done; [lia|]. fold d1.
    replace (sz - copy) with 0 by (rewrite T8 by lia; lia). by apply written_refl.
  - rewrite <- T9 by lia. replace (cs + sz) with (cs + copy + (sz - copy)) in * by lia.
    eapply druns_mono.
    + apply (IH fuel (cs + copy) (sz - copy) (drop (Z.to_nat copy) data) d1 x Hx1 F1 Hd1);
        rewrite ?T9, ?length_drop; try lia. by apply Forall_drop.
    + intros r d2 (-> & Hx2 & W). split; [done|]. split; [done|].
      eapply (written_turn sb d d2 x _ cs copy sz data l); try done; lia.
Qed.

Lemma inode_write_ok s d a n size start data : geometry (superblock s) -> fs_inodes s !! a = Some n ->
  valid_inode (superblock s) (n_index n) -> blocks_ok d -> 0 <= size <= Z.of_nat (length data) -> 0 <= start ->
  start + size <= n_size n < FILE_LIMIT -> Forall (fun b => 0 <= b < 256) data ->
  let x := disk_inode (superblock s) d (n_index n) in
  file_ok (superblock s) d x (n_size n) ->
  druns (inode_write a size start data) s d (fun r d' =>
    r = size /\ disk_inode (superblock s) d' (n_index n) = x /\ written (superblock s) d d' x (n_size n) start size data).
Proof.
  intros G Ha Hi Hd Hs Hst Hsz Hbytes x F. unfold inode_write. apply scratch_druns.
  assert (Hlim : FILE_LIMIT < 2 ^ 31) by done.
  rewrite (u32_small (start + size)) by (unfold is_u32; lia). rewrite !u16_div by lia.
  pose proof (Z.div_le_mono start (start + size) BLOCK_SIZE ltac:(done) ltac:(lia)).
  rewrite (proj2 (Z.ltb_ge _ _)) by lia.
  eapply druns_step.
  - apply (write_loop_ok s a n (Z.to_nat ((start + size) / BLOCK_SIZE - start / BLOCK_SIZE)) G Ha Hi ltac:(lia)
      _ start size data d x eq_refl F Hd); try done; lia.
  - intros r d' (-> & Hx & W). apply druns_ret. rewrite s32_small by (unfold is_s32; lia). done.
Qed.

(** ** Inodes in memory *)
Definition inode_list_ok s : Prop := forall a, a ∈ inodes s -> is_Some (fs_inodes s !! a).

Lemma find_inode_ok s d l i : (forall a, a ∈ l -> is_Some (fs_inodes s !! a)) ->
  druns (find_inode l i) s d (fun o d' => d' = d /\
    match o with
    | Some a => a ∈ l /\ exists n, fs_inodes s !! a = Some n /\ n_index n = i
    | None => forall a n, a ∈ l -> fs_inodes s !! a = Some n -> n_index n <> i
    end).
Proof.
  induction l as [|b l IH]; intros Hl; cbn [find_inode].
  { apply druns_ret. split; [done|]. intros a n Ha. by apply not_elem_of_nil in Ha. }
  destruct (Hl b ltac:(by left)) as [n Hn]. dstep (get_inode_obj_ok b n s d Hn) as n' d' [-> ->].
  destruct (Z.eqb_spec (n_index n) i) as [E|E].
  { apply druns_ret. split; [done|]. split; [by left|]. by exists n. }
  eapply druns_mono; [apply IH; intros a Ha; apply Hl; by right|]. intros o d' [-> Ho]. split; [done|].
  destruct o as [a|]; [destruct Ho; split; [by right|done]|]. intros a m [->|Ha]%elem_of_cons Hm; [congruence|by eapply Ho].
Qed.

(** The state with a new inode object. *)
Definition with_inode s a n : fsys S := set_inodes (a :: inodes s) (set_fs_inodes (<[a := n]> (fs_inodes s)) s).

Lemma alloc_inode_ok s d i : fruns
  (let* c := gets inode_cache in
   let* a := store (bs_obj_alloc c) in
   do* put_inode_obj a (Inode i 0 0 0) in
   do* modify (fun s => set_inodes (a :: inodes s) s) in
   ret a) s d
  (fun a s1 d' => d' = d /\ a <> 0 /\ fs_inodes s !! a = None /\ s1 = with_inode s a (Inode i 0 0 0)).
Proof.
  intros C L U x [H1 H2 H3]. destruct H2 as [osz Hc]. rgets. apply runs_bind, runs_within.
  eapply runs_mono; [apply (bs_obj_alloc_spec _ _ _ _ _ _ _ H1 Hc)|]. intros a x1 (Ha & Hn & Hx1). cbn beta.
  rmodify. rmodify. rret.
  assert (Hnone : fs_inodes s !! a = None).
  { destruct (fs_inodes s !! a) eqn:E; [|done]. destruct (Ha (inode_cache s)). right. left. split; [done|]. cbn. by rewrite E. }
  exists x1, (with_inode s a (Inode i 0 0 0)), d. split; [done|]. split; [|done]. split; [|by exists osz|done].
  eapply bs_ext; [|done|exact Hx1]. intros c y. unfold fs_objs, own_objs. cbn. destruct (decide (y = a)) as [->|Hne].
  - rewrite lookup_insert_eq. split.
    + intros [[?|[[-> _]|[-> ?]]]|[-> _]]; [by left|by right; left; eauto|by right; right|by right; left; eauto].
    + intros [?|[[-> _]|[-> ?]]]; [by left; left|by right|by left; right; right].
  - rewrite lookup_insert_ne by done. split; [intros [?|[_ ?]]; done|by left].
Qed.

Lemma get_inode_ok s d i : inode_list_ok s -> fruns (get_inode i) s d (fun a s1 d' => d' = d /\
  ((s1 = s /\ a ∈ inodes s /\ exists n, fs_inodes s !! a = Some n /\ n_index n = i) \/
   ((forall b n, b ∈ inodes s -> fs_inodes s !! b = Some n -> n_index n <> i) /\
    a <> 0 /\ fs_inodes s !! a = None /\ s1 = with_inode s a (Inode i 0 0 0)))).
Proof.
  intros Hl. unfold get_inode. eapply fruns_step;
    [apply (druns_gets inodes s d (fun l d' => l = inodes s /\ d' = d)); done|]. intros l s1 d1 (-> & -> & ->). cbn beta.
  eapply fruns_step; [by apply (find_inode_ok s d (inodes s) i)|]. intros o s1 d1 (-> & -> & Ho). cbn beta.
  destruct o as [a|].
  - apply fruns_ret. split; [done|]. by left.
  - eapply fruns_mono; [apply alloc_inode_ok|]. intros a s1 d1 (-> & H1 & H2 & ->). split; [done|]. by right.
Qed.

Lemma upd_inode_obj_ok s d a n f : fs_inodes s !! a = Some n ->
  fruns (upd_inode_obj a f) s d (fun _ s1 d' => d' = d /\ s1 = set_fs_inodes (<[a := f n]> (fs_inodes s)) s).
Proof.
  intros Ha. unfold upd_inode_obj. eapply fruns_step; [by apply get_inode_obj_ok|]. intros m s1 d1 (-> & -> & ->). cbn beta.
  intros C L U x [H1 H2 H3]. apply runs_modify. exists x, (set_fs_inodes (<[a := f n]> (fs_inodes s)) s), d.
  split; [done|]. split; [|done]. split; [|done|done]. eapply bs_ext; [|done|exact H1].
  intros c y. unfold fs_objs, own_objs. cbn. destruct (decide (a = y)) as [<-|Hne]; [|by rewrite lookup_insert_ne].
  rewrite lookup_insert_eq, Ha; split; (intros [?|[[? _]|?]]; [by left|right; left; eauto|by right; right]).
Qed.

(** ** Creating an inode *)

(** The map of the zones does not see the map of the inodes, nor the inodes. *)
Lemma zmap_of_imap sb d i v k : geometry sb -> 0 <= i <= s_ninodes sb -> 0 <= k < bits_per_block * s_zmap_blocks sb ->
  map_bit (put_inode_used d i v) (zmap_start sb) k = map_bit d (zmap_start sb) k.
Proof.
  intros G Hi Hk. pose proof (map_block_zmap sb k G Hk). geo G.
  pose proof (map_block_imap sb i G ltac:(lia)). unfold map_block in *.
  unfold map_bit, put_inode_used, put_map_bit, upd_block. by rewrite decide_False by lia.
Qed.

Lemma maps_ok_mark_inode sb d i v : geometry sb -> maps_ok sb d -> blocks_ok d -> 1 <= i <= s_ninodes sb ->
  maps_ok sb (put_inode_used d i v).
Proof.
  intros G [M1 M2] Hd Hi. geo G. pose proof (map_block_imap sb i G ltac:(lia)) as Hb.
  assert (0 < s_zmap_blocks sb) by (change bits_per_block with 32768 in *; lia).
  assert (Hblk : is_block (map_block 2 i)) by (unfold is_block, zmap_start in *; lia). split.
  - unfold put_inode_used. rewrite map_bit_put by (try apply Hd; done || lia). by rewrite decide_False by lia.
  - rewrite zmap_of_imap by (done || bpb). done.
Qed.

Lemma mark_unmark_inode sb d i : geometry sb -> blocks_ok d -> 1 <= i <= s_ninodes sb -> inode_used d i = false ->
  forall j, put_inode_used (put_inode_used d i true) i false j = d j.
Proof.
  intros G Hd Hi Hu j. geo G. pose proof (map_block_imap sb i G ltac:(lia)) as Hb. unfold map_block, zmap_start in Hb.
  pose proof (Z.mod_pos_bound i bits_per_block ltac:(done)). unfold put_inode_used, put_map_bit, upd_block.
  destruct (decide (j = 2 + i / bits_per_block)) as [->|]; [|done]. rewrite decide_True by done.
  apply put_bit_undo; [|lia|done].
  apply Hd. unfold is_block. lia.
Qed.

Lemma zero_inode_wf mode z : is_u32 z -> inode_wf (set_zone_at 0 z (set_i_mode (u16 mode) zero_inode)).
Proof.
  intros Hz. pose proof (u16_block mode) as Hm. unfold is_block in Hm. split; cbn; unfold is_u32 in *; try lia; try done.
  constructor; [done|]. repeat constructor; lia.
Qed.

Lemma blocks_ok_put_map d start k v : blocks_ok d -> is_block (map_block start k) -> 0 <= k ->
  blocks_ok (put_map_bit d start k v).
Proof.
  intros Hd Hb Hk. apply blocks_ok_upd; [done|]. apply put_bit_ok; [by apply Hd|].
  apply Z.mod_pos_bound. done.
Qed.

(** The disk after a new inode [i] on the zone [z]. *)
Definition created sb d mode i z : contents :=
  put_disk_inode sb (put_zone_used sb (put_inode_used d i true) z true) i
    (set_zone_at 0 z (set_i_mode (u16 mode) zero_inode)).

(** No inode, or no zone, that may be given out is free. *)
Definition exhausted sb d : Prop :=
  (forall j, 1 <= j < s_ninodes sb -> inode_used d j = true) \/
  (forall y, s_firstdatazone sb <= y < s_zones sb - 1 -> zone_used sb d y = true).

Lemma inode_create_ok s d mode : geometry (superblock s) -> maps_ok (superblock s) d -> blocks_ok d -> inode_list_ok s ->
  (forall a n, a ∈ inodes s -> fs_inodes s !! a = Some n -> inode_used d (n_index n) = true) ->
  fruns (inode_create mode) s d (fun a s1 d' =>
    (a = 0 /\ s1 = s /\ (forall j, d' j = d j) /\ exhausted (superblock s) d) \/
    (exists i z, a <> 0 /\ fs_inodes s !! a = None /\ s1 = with_inode s a (Inode i mode 0 0) /\
       1 <= i < s_ninodes (superblock s) /\ data_zone (superblock s) z /\ z <> 0 /\
       inode_used d i = false /\ zone_used (superblock s) d z = false /\ d' = created (superblock s) d mode i z)).
Proof.
  intros G HM Hd Hl Hused. geo G. unfold inode_create.
  eapply fruns_step; [by apply mark_imap_ok|]. intros i s1 d1 (-> & [(-> & -> & Hfull)|(Hi & Hui & ->)]); cbn beta.
  { apply fruns_ret. left. split_and!; try done. left. intros j Hj. apply Hfull; unfold valid_inode; lia. }
  rewrite (proj2 (Z.eqb_neq i 0)) by lia.
  assert (HM1 : maps_ok (superblock s) (put_inode_used d i true)) by (apply maps_ok_mark_inode; done || lia).
  eapply fruns_step; [by apply mark_zmap_ok|].
  intros z s1 d1 (-> & [(-> & -> & Hfull)|(Hz & Hz0 & Huz & ->)]); cbn beta.
  { change (0 =? 0) with true. cbn iota. eapply fruns_step; [apply unmark_imap_ok; [done|unfold valid_inode; lia]|].
    intros [] s1 d1 [-> ->]. cbn beta. apply fruns_ret. left. split; [done|]. split; [done|].
    split; [apply (mark_unmark_inode (superblock s)); done || lia|]. right. intros y Hy.
    specialize (Hfull y ltac:(unfold data_zone; lia) ltac:(lia)). rewrite <- Hfull. unfold zone_used. symmetry.
    apply zmap_of_imap; [done|lia|]. unfold zone_bit. bpb. }
  rewrite (proj2 (Z.eqb_neq z 0)) by lia. unfold data_zone in Hz.
  eapply fruns_step; [apply write_inode_ok; [done|unfold valid_inode; lia|done]|].
  intros [] s1 d1 [-> ->]. cbn beta. eapply fruns_step; [by apply get_inode_ok|].
  intros a s1 d1 (-> & [(-> & Hin & n & Hn & Hni)|(_ & Ha & Hnone & ->)]); cbn beta.
  { specialize (Hused a n Hin Hn). rewrite Hni in Hused. congruence. }
  eapply fruns_step; [apply (upd_inode_obj_ok _ _ a (Inode i 0 0 0)); cbn; apply lookup_insert_eq|].
  intros [] s1 d1 [-> ->]. cbn beta. apply fruns_ret. right. exists i, z. split_and!; try done; try lia.
  - unfold with_inode, set_inodes, set_fs_inodes. cbn. by rewrite insert_insert_eq.
  - rewrite <- Huz. unfold zone_used. symmetry. apply zmap_of_imap; [done|lia|]. unfold zone_bit. bpb.
Qed.

(** The zone map and the inodes are apart from the data. *)
Lemma put_zone_block sb d z v i : geometry sb -> data_zone sb z -> zmap_start sb + s_zmap_blocks sb <= i ->
  put_zone_used sb d z v i = d i.
Proof.
  intros G Hz Hi. geo G. unfold data_zone in Hz. unfold put_zone_used, put_map_bit, upd_block.
  pose proof (map_block_zmap sb (zone_bit sb z) G ltac:(unfold zone_bit; bpb)) as H. unfold map_block in H.
  by rewrite decide_False by lia.
Qed.

Lemma put_inode_used_block sb d i v j : geometry sb -> 0 <= i <= s_ninodes sb -> zmap_start sb <= j ->
  put_inode_used d i v j = d j.
Proof.
  intros G Hi Hj. geo G. unfold put_inode_used, put_map_bit, upd_block.
  pose proof (map_block_imap sb i G ltac:(lia)) as H. unfold map_block in H. by rewrite decide_False by lia.
Qed.

Lemma created_blocks_ok sb d i z : geometry sb -> blocks_ok d -> valid_inode sb i -> data_zone sb z ->
  blocks_ok (put_zone_used sb (put_inode_used d i true) z true).
Proof.
  intros G Hd Hi Hz. geo G. unfold valid_inode, data_zone in *.
  pose proof (map_block_imap sb i G ltac:(lia)). pose proof (map_block_zmap sb (zone_bit sb z) G ltac:(unfold zone_bit; bpb)).
  unfold zmap_start in *. apply blocks_ok_put_map; [apply blocks_ok_put_map|..]; try done; unfold is_block, zmap_start, zone_bit in *; lia.
Qed.

(** The inode is on the disk, with the file of its size; the other inodes are as
    before. *)
Lemma created_inode sb d mode i z : geometry sb -> blocks_ok d -> valid_inode sb i -> data_zone sb z -> z <> 0 ->
  let x := set_zone_at 0 z (set_i_mode (u16 mode) zero_inode) in
  disk_inode sb (created sb d mode i z) i = x /\ file_ok sb (created sb d mode i z) x 0 /\
  forall j, valid_inode sb j -> j <> i -> disk_inode sb (created sb d mode i z) j = disk_inode sb d j.
Proof.
  intros G Hd Hi Hz Hz0 x. geo G. pose proof (created_blocks_ok sb d i z G Hd Hi Hz) as Hd2.
  destruct (inode_block_range sb i G Hi) as (H1 & H2 & _).
  assert (Hzu : is_block z) by (unfold is_block, data_zone, zmap_start in *; lia).
  assert (Hwf : inode_wf x) by (apply zero_inode_wf; unfold is_u32, is_block in *; lia).
  pose proof (fun j Hj => disk_inode_put sb _ i j x G Hi Hj Hwf (Hd2 _ H2)) as Hput.
  split; [|split].
  - unfold created. rewrite Hput by done. by rewrite decide_True.
  - assert (Hfz : forall b, 0 <= b <= 0 / BLOCK_SIZE -> b = 0) by (change (0 / BLOCK_SIZE) with 0; lia).
    assert (Hz0' : file_zone x (created sb d mode i z) 0 = z).
    { unfold file_zone. change (zone_slot 0) with 0. change (zone_at x 0) with z. rewrite (proj2 (Z.eqb_neq z 0) Hz0).
      by apply u16_id. }
    split.
    + intros b ->%Hfz. by rewrite Hz0'.
    + intros b c ->%Hfz ->%Hfz. done.
    + intros b c ->%Hfz ->%Hfz. apply not_elem_of_nil.
  - intros j Hj Hne. unfold created. rewrite Hput by done. rewrite decide_False by done.
    destruct (inode_block_range sb j G Hj) as (Hj1 & _). unfold disk_inode.
    rewrite put_zone_block by (done || lia). by rewrite (put_inode_used_block sb) by (done || unfold valid_inode in *; lia).
Qed.

(** Exactly these two bits are set, and no data is touched. *)
Lemma created_maps sb d mode i z : geometry sb -> blocks_ok d -> valid_inode sb i -> data_zone sb z ->
  (forall j, valid_inode sb j -> inode_used (created sb d mode i z) j = if decide (j = i) then true else inode_used d j) /\
  (forall y, data_zone sb y -> zone_used sb (created sb d mode i z) y = if decide (y = z) then true else zone_used sb d y) /\
  (forall b, s_firstdatazone sb <= b -> created sb d mode i z b = d b).
Proof.
  intros G Hd Hi Hz. geo G. destruct (inode_block_range sb i G Hi) as (H1 & H2 & H3).
  unfold valid_inode, data_zone in *.
  assert (Hic : forall k, 0 <= k <= s_ninodes sb -> 2 <= map_block 2 k < zmap_start sb) by (intros k Hk; apply map_block_imap; [done|lia]).
  assert (Hzc : forall y, s_firstdatazone sb <= y < s_zones sb -> zmap_start sb <= map_block (zmap_start sb) (zone_bit sb y) < zmap_start sb + s_zmap_blocks sb)
    by (intros y Hy; apply map_block_zmap; [done|unfold zone_bit; bpb]).
  assert (Hd1 : blocks_ok (put_inode_used d i true)).
  { apply blocks_ok_put_map; [done| |lia]. pose proof (Hic i ltac:(lia)). unfold is_block, zmap_start in *. lia. }
  split; [|split].
  - intros j Hj. pose proof (Hic j ltac:(lia)) as Hb. unfold inode_used, map_bit, created, put_disk_inode, upd_block, map_block in *.
    rewrite decide_False by (unfold inode_block, zmap_start in *; lia). pose proof (Hzc z Hz) as Hb'.
    unfold put_zone_used, put_map_bit, upd_block, map_block in *. rewrite decide_False by lia.
    pose proof (Hic i ltac:(lia)) as Hb2. apply (map_bit_put d 2 i j true); [|apply Hd|lia|lia]; unfold is_block, map_block, zmap_start in *; lia.
  - intros y Hy. pose proof (Hzc y Hy) as Hb. pose proof (Hzc z Hz) as Hb'.
    transitivity (map_bit (put_zone_used sb (put_inode_used d i true) z true) (zmap_start sb) (zone_bit sb y)).
    { unfold zone_used, map_bit, created, put_disk_inode, upd_block, map_block in *. by rewrite decide_False by lia. }
    unfold put_zone_used. assert (Hbz : is_block (map_block (zmap_start sb) (zone_bit sb z))) by (unfold is_block, zmap_start in *; lia).
    rewrite map_bit_put by (try (apply Hd1; done); try done; unfold zone_bit; lia).
    destruct (decide (y = z)) as [->|Hne]; [by rewrite decide_True|]. rewrite decide_False by (unfold zone_bit; lia).
    unfold zone_used. apply zmap_of_imap; [done|lia|unfold zone_bit; bpb].
  - intros b Hb. unfold created, put_disk_inode, upd_block. rewrite decide_False by (unfold inode_block in *; lia).
    rewrite put_zone_block by (try done; unfold zmap_start, data_zone in *; lia). rewrite (put_inode_used_block sb) by (done || unfold zmap_start; lia). done.
Qed.

(** From a triple to a state with its store. *)
Lemma fruns_runs {A} (m : M (fsys S) A) s d C L U Q : at_disk s C L U d -> fruns m s d Q ->
  runs m s (fun a s' => exists s1 d', s' = set_fs_store (fs_store s') s1 /\ at_disk s' C L U d' /\ Q a s1 d').
Proof.
  intros H Hf. rewrite <- (set_store_id s) in H. pose proof (Hf C L U _ H) as Hr. rewrite set_store_id in Hr.
  eapply runs_mono; [exact Hr|]. intros a s' (x & s1 & d' & -> & H' & HQ). exists s1, d'. done.
Qed.

Lemma druns_runs {A} (m : M (fsys S) A) s d C L U Q : at_disk s C L U d -> druns m s d Q ->
  runs m s (fun a s' => exists d', s' = set_fs_store (fs_store s') s /\ at_disk s' C L U d' /\ Q a d').
Proof.
  intros H Hf. eapply runs_mono; [by apply (fruns_runs _ _ _ _ _ _ _ H Hf)|].
  intros a s' (s1 & d' & E & H' & -> & HQ). by exists d'.
Qed.

Lemma at_disk_blocks s C L U d : at_disk s C L U d -> blocks_ok d.
Proof. intros [H _ _] i Hi. by eapply bs_length. Qed.
End Files.

(** ** Properties *)

(** [mark_map] finds the least clear bit below the limit in the blocks of a
    bit map, sets exactly that bit and returns its number, and [unmark_map] then
    gives back the disk as it was; when every bit below the limit is set it
    returns 0 and changes nothing. *)
Theorem bitmap_correct {S} `{BS : BlockStore S} (s : fsys S) C L U d start n limit :
  at_disk s C L U d -> 0 <= start -> 0 <= n -> start + n < 2 ^ 16 ->
  runs (mark_map start (start + n) limit) s (fun k s' => exists d', at_disk s' C L U d' /\
    ((0 <= k < bits_per_block * n /\ k < limit /\ map_bit d start k = false /\
      (forall j, 0 <= j < k -> map_bit d start j = true) /\
      (forall j, 0 <= j -> map_bit d' start j = if decide (j = k) then true else map_bit d start j) /\
      (forall i, i < start \/ start + n <= i -> d' i = d i) /\
      runs (unmark_map k start) s' (fun _ s'' => at_disk s'' C L U d)) \/
     ((forall j, 0 <= j < bits_per_block * n -> j < limit -> map_bit d start j = true) /\ k = 0 /\ d' = d))).
Proof.
  intros Had Hs Hn Hsum. pose proof (at_disk_blocks _ _ _ _ _ Had) as Hd.
  eapply runs_mono; [apply (druns_runs _ _ _ _ _ _ _ Had (mark_map_ok start (start + n) limit s d ltac:(lia) ltac:(lia)))|].
  intros k s' (d' & Hs' & Had' & Hp). exists d'. split; [done|]. unfold blocks_post in Hp.
  rewrite Z.mul_0_r in Hp. replace (start + n - start) with n in Hp by lia.
  destruct Hp as [(k' & H1 & H2 & H3 & H4 & -> & ->)|H]; [left|by right].
  assert (Hq : 0 <= k' / bits_per_block < n) by (split; [apply Z.div_pos; bpb|apply Z.div_lt_upper_bound; bpb]).
  assert (Hb : is_block (map_block start k')) by (unfold is_block, map_block; lia).
  split_and!; [lia|lia|done|done|done| | |].
  - intros j Hj. apply map_bit_put; [done|by apply Hd|lia|done].
  - intros i Hi. unfold put_map_bit, upd_block. by rewrite decide_False by lia.
  - eapply runs_mono; [apply (druns_runs _ _ _ _ _ _ _ Had' (unmark_map_ok k' start s' _ ltac:(lia) Hs Hb))|].
    intros _ s'' (d'' & _ & Had'' & ->). eapply at_disk_ext; [|exact Had'']. intros i Hi.
    unfold put_map_bit, upd_block, map_block in *. destruct (decide (i = start + k' / bits_per_block)) as [->|]; [|done].
    rewrite decide_True by done. apply put_bit_undo; [by apply Hd|by apply Z.mod_pos_bound|done].
Qed.

(** An inode written to the disk is read back as it was, with all its fields
    and zones; every other inode is read as before. *)
Theorem inode_disk_roundtrip {S} `{BS : BlockStore S} (s : fsys S) C L U d i j x :
  at_disk s C L U d -> geometry (superblock s) -> valid_inode (superblock s) i -> valid_inode (superblock s) j -> inode_wf x ->
  runs (do* write_inode i x in read_inode j) s (fun y _ =>
    y = if decide (j = i) then x else disk_inode (superblock s) d j).
Proof.
  intros Had G Hi Hj Hx. pose proof (at_disk_blocks _ _ _ _ _ Had) as Hd.
  eapply runs_mono; [apply (druns_runs _ _ _ _ _ _ (fun y _ => y = if decide (j = i) then x else disk_inode (superblock s) d j) Had)|].
  - eapply druns_step; [apply (write_inode_ok s d i x G Hi (wf_zones _ Hx))|]. intros [] d1 ->. cbn beta.
    eapply druns_mono; [apply (read_inode_ok s _ j G Hj)|]. intros y d2 [-> ->].
    apply disk_inode_put; try done. apply Hd. by apply inode_block_range.
  - intros y s' (d' & _ & _ & ->). done.
Qed.

(** C26: [inode_read] returns the bytes of the file between [start] and the end of
    the request or of the file, whichever is first, through direct, indirect and
    doubly indirect zones and with zeros for missing ones; it changes neither the
    disk nor the inodes. *)
Theorem inode_read_correct {S} `{BS : BlockStore S} (s : fsys S) C L U d a n size start :
  at_disk s C L U d -> geometry (superblock s) -> fs_inodes s !! a = Some n -> valid_inode (superblock s) (n_index n) ->
  0 <= size -> 0 <= start -> (start < n_size n -> start + size < 2 ^ 32) -> n_size n < FILE_LIMIT ->
  runs (inode_read a size start) s (fun r s' =>
    r = (read_size (n_size n) start size,
         file_bytes (disk_inode (superblock s) d (n_index n)) d start (read_size (n_size n) start size)) /\
    s' = set_fs_store (fs_store s') s /\ at_disk s' C L U d).
Proof.
  intros Had G Ha Hi H1 H2 H3 H4. pose proof (at_disk_blocks _ _ _ _ _ Had) as Hd.
  eapply runs_mono; [apply (druns_runs _ _ _ _ _ _ _ Had (inode_read_ok s d a n size start G Ha Hi Hd H1 H2 H3 H4))|].
  intros r s' (d' & Es & Had' & -> & ->). done.
Qed.

(** C25: bytes written inside a file are read back: [inode_write] of [data] at
    [start] accepts all of them, [inode_read] of the same place returns them, every
    other byte of the file is as before and so is every block outside of the
    file's data. *)
Theorem inode_write_read {S} `{BS : BlockStore S} (s : fsys S) C L U d a n size start data :
  at_disk s C L U d -> geometry (superblock s) -> fs_inodes s !! a = Some n -> valid_inode (superblock s) (n_index n) ->
  0 <= start -> size = Z.of_nat (length data) -> start + size <= n_size n < FILE_LIMIT ->
  Forall (fun b => 0 <= b < 256) data ->
  let x := disk_inode (superblock s) d (n_index n) in
  file_ok (superblock s) d x (n_size n) ->
  runs (let* r := inode_write a size start data in let* l := inode_read a size start in ret (r, l)) s (fun r s' =>
    r = (size, (size, data)) /\ exists d', at_disk s' C L U d' /\ file_ok (superblock s) d' x (n_size n) /\
      (forall p, 0 <= p < n_size n -> ~ start <= p < start + size -> file_byte x d' p = file_byte x d p) /\
      (forall i, (forall b, 0 <= b <= n_size n / BLOCK_SIZE -> i <> file_zone x d b) -> d' i = d i)).
Proof.
  intros Had G Ha Hi Hst Hsz Hrange Hbytes x F. pose proof (at_disk_blocks _ _ _ _ _ Had) as Hd.
  assert (Hlim : FILE_LIMIT < 2 ^ 31) by done.
  eapply runs_mono; [apply (druns_runs _ _ _ _ _ _ (fun r d' => r = (size, (size, data)) /\
    written (superblock s) d d' x (n_size n) start size data) Had)|].
  - eapply druns_step; [apply (inode_write_ok s d a n size start data); try done; lia|].
    intros r d1 (-> & Hx1 & W). cbn beta.
    eapply druns_step; [apply (inode_read_ok s d1 a n size start G Ha Hi (w_blocks _ _ _ _ _ _ _ _ W)); lia|].
    intros l d2 [-> ->]. cbn beta. apply druns_ret. split; [|done]. fold x in Hx1. rewrite Hx1.
    assert (Hrs : read_size (n_size n) start size = size) by (unfold read_size; lia). rewrite Hrs. do 2 f_equal.
    apply list_eq. intros i. destruct (decide (i < length data)%nat) as [Hlt|Hge].
    + rewrite <- (Nat2Z.id i) at 1. rewrite file_bytes_lookup by lia. rewrite (w_bytes _ _ _ _ _ _ _ _ W); [|lia|].
      * rewrite decide_True by lia. rewrite nth_lookup. replace (Z.to_nat _) with i by lia.
        destruct (lookup_lt_is_Some_2 data i Hlt) as [v ->]. done.
      * apply Z.div_le_mono; [done|lia].
    + rewrite !lookup_ge_None_2; [done|lia|rewrite file_bytes_length; lia].
  - intros r s' (d' & _ & Had' & -> & [W1 W2 W3 W4 W5]). split; [done|]. exists d'. split_and!; [done|done| |done].
    intros p Hp Hout. rewrite W4; [by rewrite decide_False|lia|]. apply Z.div_le_mono; [done|lia].
Qed.

(** C27: [inode_create] takes a free inode and a free zone, marks both, writes an
    empty inode with the mode on that zone, and enters it among the inodes in
    memory: afterwards exactly these two bits are set besides those that were (so
    neither is given out again), every other inode on the disk and every block of
    data is as before.  It returns a null pointer only when no inode below the last
    or no zone below the last is free (these two the search never gives out), and
    the disk is then as before, an inode it had marked free again. *)
Theorem inode_create_correct {S} `{BS : BlockStore S} (s : fsys S) C L U d mode :
  let sb := superblock s in
  at_disk s C L U d -> geometry sb -> maps_ok sb d -> inode_list_ok s ->
  (forall a n, a ∈ inodes s -> fs_inodes s !! a = Some n -> inode_used d (n_index n) = true) ->
  runs (inode_create mode) s (fun a s' => exists d', at_disk s' C L U d' /\
    ((a = 0 /\ s' = set_fs_store (fs_store s') s /\ (forall i, is_block i -> d' i = d i) /\
        ((forall j, 1 <= j < s_ninodes sb -> inode_used d j = true) \/
         (forall y, s_firstdatazone sb <= y < s_zones sb - 1 -> zone_used sb d y = true))) \/
     (exists i z, a <> 0 /\ fs_inodes s !! a = None /\ fs_inodes s' !! a = Some (Inode i mode 0 0) /\
        inodes s' = a :: inodes s /\ valid_inode sb i /\ data_zone sb z /\
        inode_used d i = false /\ zone_used sb d z = false /\
        (forall j, valid_inode sb j -> inode_used d' j = if decide (j = i) then true else inode_used d j) /\
        (forall y, data_zone sb y -> zone_used sb d' y = if decide (y = z) then true else zone_used sb d y) /\
        disk_inode sb d' i = set_zone_at 0 z (set_i_mode (u16 mode) zero_inode) /\
        file_ok sb d' (disk_inode sb d' i) 0 /\
        (forall j, valid_inode sb j -> j <> i -> disk_inode sb d' j = disk_inode sb d j) /\
        forall b, s_firstdatazone sb <= b -> d' b = d b))).
Proof.
  intros sb Had G HM Hl Hu. pose proof (at_disk_blocks _ _ _ _ _ Had) as Hd.
  eapply runs_mono; [apply (fruns_runs _ _ _ _ _ _ _ Had (inode_create_ok s d mode G HM Hd Hl Hu))|].
  intros a s' (s1 & d' & Es & Had' & H). exists d'. split; [done|]. destruct H as [(-> & -> & H & Hx)|H]; [left; by split_and!|right].
  destruct H as (i & z & Ha & Hnone & -> & Hi & Hz & Hz0 & Hui & Huz & ->).
  assert (Hv : valid_inode (superblock s) i) by (unfold valid_inode; lia).
  destruct (created_inode (superblock s) d mode i z G Hd Hv Hz Hz0) as (H1 & H2 & H3).
  destruct (created_maps (superblock s) d mode i z G Hd Hv Hz) as (H4 & H5 & H6).
  exists i, z. rewrite Es. cbn. unfold sb. split_and!; try done; [by rewrite lookup_insert_eq|by rewrite H1].
Qed.

(** ** A small file system for the examples

    Blocks 2 and 3 are the bit maps, block 4 the inodes, the data starts at 5.
    The inode 1 has 100 bytes on the zone 6. *)
Definition sample_superblock : minix3_superblock := Superblock 64 1 1 5 0 0 20 SUPER_MAGIC_V3 BLOCK_SIZE 3.
Definition sample_inode : minix2_inode := set_zone_at 0 6 (set_i_size 100 (set_i_mode 0x8000 zero_inode)).
Definition sample_card : gmap Z (list Z) :=
  <[2 * BLOCK_SIZE := 3 :: replicate 511 0]> (<[3 * BLOCK_SIZE := 7 :: replicate 511 0]>
    {[4 * BLOCK_SIZE := encode_inode sample_inode ++ replicate 448 0]}).
Definition sample_contents : contents := card_block sample_card.
Definition sample_caches : gmap Z Z := <[1 := 20]> (<[2 := 28]> {[3 := 96]}).
Definition sample_fs : fsys (blocks bump (gmap Z (list Z))) :=
  Fsys (block_init 1 (Bump 10 0) sample_card) sample_superblock 2 {[5 := Inode 1 0x8000 1 100]} [5] 3 ∅ 0.

Lemma sample_fs_ok : at_disk sample_fs sample_caches (fun _ _ => False) ∅ sample_contents.
Proof.
  split; [|by exists 28|by exists 96]. apply block_init_ok; [done|by exists 20|].
  assert (Hobj : forall c a, fs_objs (fun _ _ => False) sample_fs c a -> c = 2 /\ a = 5).
  { intros c a [[]|[[-> [n Hn]]|[_ [n Hn]]]]; cbn in Hn; [|done]. by apply lookup_singleton_Some in Hn as [<- _]. }
  split_and!; cbn; try lia.
  - intros c a [_ ->]%Hobj. lia.
  - intros c c' a [-> _]%Hobj [-> _]%Hobj. done.
  - intros i Hi. by apply not_elem_of_empty in Hi.
Qed.

Lemma sample_geometry : geometry sample_superblock.
Proof. split; cbn; unfold bits_per_block, BLOCK_SIZE; vm_compute; intuition discriminate. Qed.

Lemma sample_disk_inode : disk_inode sample_superblock sample_contents 1 = sample_inode.
Proof. vm_compute. reflexivity. Qed.

Lemma sample_inode_valid : valid_inode sample_superblock 1.
Proof. split; vm_compute; discriminate. Qed.

Lemma sample_inode_wf : inode_wf sample_inode.
Proof. split; cbn; unfold is_u32; first [lia|reflexivity|repeat constructor; lia]. Qed.

Lemma sample_file_ok : file_ok sample_superblock sample_contents sample_inode 100.
Proof.
  assert (H0 : forall b, 0 <= b <= 100 / BLOCK_SIZE -> b = 0) by (change (100 / BLOCK_SIZE) with 0; lia). split.
  - intros b ->%H0. vm_compute. intuition discriminate.
  - by intros b c ->%H0 ->%H0.
  - intros b c ->%H0 ->%H0. apply not_elem_of_nil.
Qed.

Theorem bitmap_correct_witness : runs (mark_map 2 3 64) sample_fs (fun k _ => k = 2).
Proof.
  eapply runs_mono; [apply (bitmap_correct sample_fs _ _ _ _ 2 1 64 sample_fs_ok); lia|].
  assert (B0 : map_bit sample_contents 2 0 = true) by (vm_compute; reflexivity).
  assert (B1 : map_bit sample_contents 2 1 = true) by (vm_compute; reflexivity).
  assert (B2 : map_bit sample_contents 2 2 = false) by (vm_compute; reflexivity).
  intros k s' (d' & _ & [(H1 & _ & H2 & H3 & _)|(H & _)]).
  - destruct (Z.lt_trichotomy k 2) as [Hlt|[->|Hgt]]; [|done|].
    + assert (k = 0 \/ k = 1) as [->| ->] by lia; congruence.
    + specialize (H3 2 ltac:(lia)). congruence.
  - specialize (H 2 ltac:(vm_compute; intuition discriminate) ltac:(lia)). congruence.
Defined.

Theorem inode_disk_roundtrip_witness : runs (do* write_inode 2 sample_inode in read_inode 2) sample_fs (fun y _ => y = sample_inode).
Proof.
  eapply runs_mono; [apply (inode_disk_roundtrip sample_fs _ _ _ _ 2 2 sample_inode sample_fs_ok sample_geometry)|].
  - split; vm_compute; discriminate.
  - split; vm_compute; discriminate.
  - exact sample_inode_wf.
  - intros y s' ->. rewrite decide_True by reflexivity. reflexivity.
Defined.

Theorem inode_read_correct_witness : runs (inode_read 5 10 95) sample_fs (fun r _ => r = (5, [0; 0; 0; 0; 0])).
Proof.
  eapply runs_mono; [apply (inode_read_correct sample_fs _ _ _ _ 5 (Inode 1 0x8000 1 100) 10 95 sample_fs_ok sample_geometry
    eq_refl sample_inode_valid); first [lia|done]|].
  intros r s' (-> & _). vm_compute. reflexivity.
Defined.

Theorem inode_write_read_witness :
  runs (let* r := inode_write 5 3 50 [7; 8; 9] in let* l := inode_read 5 3 50 in ret (r, l)) sample_fs
    (fun r _ => r = (3, (3, [7; 8; 9]))).
Proof.
  eapply runs_mono; [apply (inode_write_read sample_fs _ _ _ _ 5 (Inode 1 0x8000 1 100) 3 50 [7; 8; 9] sample_fs_ok sample_geometry
    eq_refl sample_inode_valid)|].
  - lia.
  - reflexivity.
  - cbn. unfold FILE_LIMIT, BLOCK_SIZE. lia.
  - repeat constructor; lia.
  - change (n_index _) with 1. change (superblock sample_fs) with sample_superblock. rewrite sample_disk_inode. exact sample_file_ok.
  - intros r s' (-> & _). reflexivity.
Defined.

Theorem inode_create_correct_witness : runs (inode_create 0x4000) sample_fs (fun a s' =>
  a <> 0 /\ exists i, fs_inodes s' !! a = Some (Inode i 0x4000 0 0) /\ inode_used sample_contents i = false).
Proof.
  eapply runs_mono; [apply (inode_create_correct sample_fs _ _ _ _ 0x4000 sample_fs_ok sample_geometry)|].
  - split; vm_compute; reflexivity.
  - intros a Ha. apply list_elem_of_singleton in Ha as ->. exists (Inode 1 0x8000 1 100). apply lookup_singleton_eq.
  - intros a n _ Hn. cbn [fs_inodes sample_fs] in Hn. apply lookup_singleton_Some in Hn as [_ <-]. vm_compute. reflexivity.
  - intros a s' (d' & _ & [(_ & _ & _ & [H|H])|(i & z & H0 & _ & H & _ & _ & _ & Hu & _)]).
    + specialize (H 2 ltac:(cbn; lia)). vm_compute in H. discriminate H.
    + specialize (H 7 ltac:(cbn; lia)). vm_compute in H. discriminate H.
    + split; [exact H0|]. exists i. split; [exact H|exact Hu].
Defined.
