(* ===== verification/Dentry.v ===== *)
(** * dentry.c and fs.c: model

    The tree of directory entries in memory, loaded from the directories on the
    disk, and the file system calls.  A path or a name is the list of the
    characters of the C string; the fixed array [name] of a dentry is padded with
    zeros.  [dirname] and [basename] are the functions of [CString], run on a
    buffer that holds a copy of the path.  The proofs are in [DentryProofs]. *)

From stdpp Require Import base numbers list gmap.
From S2P Require Import Prelude Bytes Signal Buddy BuddyProofs Unix Kernel CString Hoare Block BlockProofs Minix Inode.

#[local] Open Scope Z_scope.
#[local] Open Scope kernel_scope.

Definition PATH_MAX : Z := 1024.
Definition DF_FLAGS_LOAD : Z := 1.
Definition ENAMETOOLONG : Z := 36.
Definition S_IFREG : Z := 0x8000.
Definition S_IFDIR : Z := 0x4000.
Definition S_IFCHR : Z := 0x2000.
Definition S_IRUSR : Z := 0x100.
Definition S_IWUSR : Z := 0x80.
Definition S_ISDIR (mode : Z) : bool := truthy (Z.land mode S_IFDIR).

Definition set_de_flags (v : Z) (x : dentry) : dentry :=
  Dentry (de_name x) v (de_nentries x) (de_inode x) (de_parent x) (de_children x).
Definition set_de_nentries (v : Z) (x : dentry) : dentry :=
  Dentry (de_name x) (de_flags x) v (de_inode x) (de_parent x) (de_children x).
Definition set_de_children (v : list Z) (x : dentry) : dentry :=
  Dentry (de_name x) (de_flags x) (de_nentries x) (de_inode x) (de_parent x) v.

(** ** Names *)

(** The characters of an array before its first 0. *)
Fixpoint until_zero (l : list Z) : list Z :=
  match l with
  | c :: l => if c =? 0 then [] else c :: until_zero l
  | [] => []
  end.
Definition cname (l : list Z) : list Z := until_zero (take (Z.to_nat NAME_MAX) l).
(** [strncmp(a, b, NAME_MAX) == 0]. *)
Definition same_name (a b : list Z) : bool := bool_decide (cname a = cname b).
(** The array after [memset(dest, 0, NAME_MAX)] and [strncpy(dest, name, n)]. *)
Definition name_array (n : Z) (name : list Z) : list Z :=
  let l := until_zero (take (Z.to_nat n) name) in
  l ++ replicate (Z.to_nat NAME_MAX - length l) 0.

Fixpoint until_slash (l : list Z) : list Z :=
  match l with
  | c :: l => if c =? SLASH then [] else c :: until_slash l
  | [] => []
  end.

(** ** Paths in a buffer *)
Definition PATH_BUFFER : Z := 0x1000.
Fixpoint read_string (fuel : nat) (m : memory) (p : Z) : option (list Z) :=
  match fuel with
  | O => None
  | S fuel =>
      match m !! p with
      | None => None
      | Some c => if c =? 0 then Some [] else
          match read_string fuel m (p + 1) with Some l => Some (c :: l) | None => None end
      end
  end.
Fixpoint write_bytes (m : memory) (p : Z) (l : list Z) : memory :=
  match l with [] => m | c :: l => write_bytes (<[p := c]> m) (p + 1) l end.
(** The string a function of libgen.c returns for a copy of [path]. *)
Definition in_buffer (f : Z -> M memory path_ptr) (path : list Z) : option (list Z) :=
  match f PATH_BUFFER (write_bytes ∅ PATH_BUFFER (path ++ [0])) with
  | Ok (InPath p, m) => read_string (S (length path)) m p
  | Ok (LitDot, _) => Some [46]
  | Ok (LitSlash, _) => Some [SLASH]
  | Err _ => None
  end.

Section Dentry.
Context {S : Type} `{BS : BlockStore S}.
Notation state := (fsys S).

Definition get_dentry (a : Z) : M state dentry :=
  let* m := gets fs_dentries in opt Fault (m !! a).
Definition put_dentry (a : Z) (x : dentry) : M state unit :=
  modify (fun s => set_fs_dentries (<[a := x]> (fs_dentries s)) s).
Definition upd_dentry (a : Z) (f : dentry -> dentry) : M state unit :=
  let* x := get_dentry a in put_dentry a (f x).

(** [alloc_dentry]; [parent] is 0 for the root. *)
Definition alloc_dentry (parent inode : Z) (name : list Z) : M state Z :=
  let* c := gets dentry_cache in
  let* new := store (bs_obj_alloc c) in
  do* put_dentry new (Dentry (name_array NAME_MAX name) 0 0 inode (if parent =? 0 then new else parent) []) in
  ret new.
Definition free_dentry (a : Z) : M state unit :=
  do* modify (fun s => set_fs_dentries (delete a (fs_dentries s)) s) in
  let* c := gets dentry_cache in
  store (bs_obj_free c a).

(** The entries of one block of a directory, from the number [i] on. *)
Fixpoint add_children (n : nat) (i dentry : Z) (bytes : list Z) (children : list Z) : M state (list Z) :=
  match n with
  | O => ret children
  | Datatypes.S n =>
      let* b := opt Fault (slice bytes (i * DIRENT_SIZE) DIRENT_SIZE) in
      let dirent := decode_dirent b in
      if truthy (d_ino dirent) then
        let* inode := inode_get (d_ino dirent) in
        let* child := alloc_dentry dentry inode (d_name dirent) in
        add_children n (i + 1) dentry bytes (child :: children)
      else add_children n (i + 1) dentry bytes children
  end.
(** The loop over the blocks: the children, and whether it succeeded. *)
Fixpoint read_entries (fuel : nat) (dentry inode offset : Z) (children : list Z) : M state (list Z * bool) :=
  match fuel with
  | O => fail Fuel
  | Datatypes.S fuel =>
      let* r := inode_read inode BLOCK_SIZE offset in
      let '(rs, bytes) := r in
      if rs <? 0 then ret (children, false)
      else if truthy (Z.land rs (DIRENT_SIZE - 1)) then ret (children, false)
      else if rs =? 0 then ret (children, true)
      else
        let* children := add_children (Z.to_nat (rs / DIRENT_SIZE)) 0 dentry bytes children in
        read_entries fuel dentry inode (u32 (offset + rs)) children
  end.
Fixpoint free_children (l : list Z) : M state unit :=
  match l with [] => ret tt | a :: l => do* free_dentry a in free_children l end.

(** A directory of [size] bytes is read in [size / BLOCK_SIZE + 2] turns at most. *)
Definition read_children (dentry : Z) : M state Z :=
  scratch BLOCK_SIZE
    (let* x := get_dentry dentry in
     if truthy (Z.land (de_flags x) DF_FLAGS_LOAD) then ret 0
     else
       let* n := get_inode_obj (de_inode x) in
       if negb (S_ISDIR (n_mode n)) then
         do* upd_dentry dentry (fun x => set_de_flags (Z.lor (de_flags x) DF_FLAGS_LOAD) x) in ret 0
       else
         let* r := read_entries (Z.to_nat (n_size n / BLOCK_SIZE) + 3) dentry (de_inode x) 0 [] in
         let '(children, ok) := r in
         if ok then
           do* upd_dentry dentry (fun x =>
             set_de_flags (Z.lor (de_flags x) DF_FLAGS_LOAD)
               (set_de_children (children ++ de_children x)
                  (set_de_nentries (u32 (de_nentries x + Z.of_nat (length children))) x))) in
           ret 0
         else do* free_children children in ret (-1)).

(** [strcpy] of a name without a 0 in its array runs past the array. *)
Definition write_child (dentry : Z) : M state Z :=
  let* x := get_dentry dentry in
  let* p := get_dentry (de_parent x) in
  let* n := get_inode_obj (de_inode x) in
  let name := until_zero (de_name x) in
  if NAME_MAX <=? Z.of_nat (length name) then fail Fault
  else
    let dirent := Dirent (n_index n) (name_array NAME_MAX name) in
    let* pn := get_inode_obj (de_inode p) in
    let* r := inode_write (de_inode p) DIRENT_SIZE (n_size pn) (encode_dirent dirent) in
    ret (if r <? 0 then -1 else 0).

(** The entry with the name among the [n] of a block from [i] on. *)
Fixpoint find_entry (n : nat) (i : Z) (bytes name : list Z) : option (option (Z * minix3_dirent)) :=
  match n with
  | O => Some None
  | Datatypes.S n =>
      match slice bytes (i * DIRENT_SIZE) DIRENT_SIZE with
      | None => None
      | Some b =>
          let dirent := decode_dirent b in
          if truthy (d_ino dirent) && same_name (d_name dirent) name then Some (Some (i, dirent))
          else find_entry n (i + 1) bytes name
      end
  end.
Fixpoint remove_loop (fuel : nat) (inode offset : Z) (name : list Z) : M state Z :=
  match fuel with
  | O => fail Fuel
  | Datatypes.S fuel =>
      let* r := inode_read inode BLOCK_SIZE offset in
      let '(rs, bytes) := r in
      if rs <? 0 then ret (-1)
      else if (rs =? 0) || truthy (Z.land rs (DIRENT_SIZE - 1)) then ret (-1)
      else
        let* found := opt Fault (find_entry (Z.to_nat (rs / DIRENT_SIZE)) 0 bytes name) in
        match found with
        | Some (i, dirent) =>
            let* w := inode_write inode DIRENT_SIZE (u32 (offset + i * DIRENT_SIZE))
                        (encode_dirent (Dirent 0 (d_name dirent))) in
            ret (if w =? DIRENT_SIZE then 0 else -1)
        | None => remove_loop fuel inode (u32 (offset + rs)) name
        end
  end.
Definition remove_child (dentry : Z) (name : list Z) : M state Z :=
  scratch BLOCK_SIZE
    (let* x := get_dentry dentry in
     let* n := get_inode_obj (de_inode x) in
     remove_loop (Z.to_nat (n_size n / BLOCK_SIZE) + 3) (de_inode x) 0 name).

(** The first child with the name. *)
Fixpoint find_child (l : list Z) (name : list Z) : M state (option Z) :=
  match l with
  | [] => ret None
  | a :: l =>
      let* x := get_dentry a in
      if same_name (de_name x) name then ret (Some a) else find_child l name
  end.

(** The loop of [lookup_dentry]; [rest] are the characters from [p] on. *)
Fixpoint lookup_loop (fuel : nat) (rest : list Z) (current : Z) : M state Z :=
  match fuel with
  | O => fail Fuel
  | Datatypes.S fuel =>
      match rest with
      | [] => let* _ := read_children current in ret current
      | _ :: rest =>
          let* _ := read_children current in
          let name := until_slash rest in
          let len := Z.of_nat (length name) in
          if len =? 0 then lookup_loop fuel rest current
          else if NAME_MAX <? len then ret 0
          else
            let* x := get_dentry current in
            let* child := find_child (de_children x) (name_array len name) in
            match child with
            | None => ret 0
            | Some child => lookup_loop fuel (drop (length name) rest) child
            end
      end
  end.
Definition lookup_dentry (path : list Z) : M state Z :=
  match path with
  | c :: _ => if c =? SLASH then let* root := gets root_dentry in lookup_loop (Datatypes.S (length path)) path root
              else ret 0
  | [] => ret 0
  end.

Definition create_dentry (dentry : Z) (name : list Z) (inode : Z) : M state Z :=
  if NAME_MAX <? Z.of_nat (length name) then ret (-1)
  else
    let* _ := read_children dentry in
    let* x := get_dentry dentry in
    let* found := find_child (de_children x) name in
    match found with
    | Some _ => ret (-1)
    | None =>
        let* new := alloc_dentry dentry inode name in
        do* upd_dentry dentry (fun x => set_de_children (new :: de_children x) x) in
        let* _ := write_child new in
        do* upd_dentry dentry (fun x => set_de_nentries (u32 (de_nentries x + 1)) x) in
        do* upd_inode_obj inode (fun n => set_n_nlinks (u32 (n_nlinks n + 1)) n) in
        do* inode_set inode in
        ret 0
    end.

(** [list_remove(&dentry->sibling)]: out of the list of the parent. *)
Definition remove_sibling (dentry parent : Z) : M state unit :=
  let* p := get_dentry parent in
  if bool_decide (dentry ∈ de_children p)
  then put_dentry parent (set_de_children (filter (fun a => a <> dentry) (de_children p)) p)
  else fail Fault.
Definition destroy_dentry (dentry : Z) : M state Z :=
  let* x := get_dentry dentry in
  let parent := de_parent x in
  let* r := remove_child parent (de_name x) in
  if r <? 0 then ret (-1)
  else
    do* upd_dentry parent (fun p => set_de_nentries (u32 (de_nentries p - 1)) p) in
    do* upd_inode_obj (de_inode x) (fun n => set_n_nlinks (u32 (n_nlinks n - 1)) n) in
    do* inode_set (de_inode x) in
    do* remove_sibling dentry parent in
    do* free_dentry dentry in
    ret 0.

(** [dentry_init], after its cache has been created. *)
Definition dentry_init : M state unit :=
  let* inode := inode_get 1 in
  let* root := alloc_dentry 0 inode [] in
  modify (set_root_dentry root).
Definition dentry_lookup (path : list Z) : M state Z :=
  if PATH_MAX <=? Z.of_nat (length path) then ret 0 else lookup_dentry path.
Definition dentry_link (dentry : Z) (path : list Z) (inode : Z) : M state Z := create_dentry dentry path inode.
Definition dentry_unlink (dentry : Z) : M state Z := destroy_dentry dentry.
End Dentry.
