(* ===== verification/Fs.v ===== *)
(** * fs.c: model

    The file system calls on paths, and the start of the file system. *)

From stdpp Require Import base numbers list gmap.
From S2P Require Import Prelude Bytes Signal Buddy BuddyProofs KernelMem Unix Kernel CString Hoare Block BlockProofs Minix Inode Dentry.

#[local] Open Scope Z_scope.
#[local] Open Scope kernel_scope.

(** The fields of [struct stat64] the kernel fills; the others are 0. *)
Record stat64 : Set := Stat64 {
  st_ino : Z;
  st_mode : Z;
  st_size : Z;
  st_nlink : Z;
  st_blocks : Z;
  st_blksize : Z;
}.

Section Fs.
Context {S : Type} `{BS : BlockStore S}.
Notation state := (fsys S).

Definition dirname_of (path : list Z) : M state (list Z) := opt Fault (in_buffer dirname path).
Definition basename_of (path : list Z) : M state (list Z) := opt Fault (in_buffer basename path).

Fixpoint unlink_all (l : list Z) : M state unit :=
  match l with [] => ret tt | a :: l => let* _ := dentry_unlink a in unlink_all l end.
Definition remove_dentry_and_children (dentry : Z) : M state unit :=
  let* x := get_dentry dentry in
  do* unlink_all (de_children x) in
  let* _ := dentry_unlink dentry in
  ret tt.

Definition too_long (path : list Z) : bool := PATH_MAX <=? Z.of_nat (length path).

Definition fs_create (path : list Z) (flags mode : Z) : M state Z :=
  scratch PATH_MAX
    (if too_long path then ret (- ENAMETOOLONG)
     else
       let* dentry := dentry_lookup path in
       if truthy dentry then ret (if truthy (Z.land flags O_EXCL) then - EEXIST else 0)
       else
         let* dir := dirname_of path in
         let* dentry := dentry_lookup dir in
         if dentry =? 0 then ret (- EEXIST)
         else
           let* inode := inode_create (Z.lor (Z.land mode 0x1ff) S_IFREG) in
           if inode =? 0 then ret (- ENOSPC)
           else
             let* base := basename_of path in
             let* errno := dentry_link dentry base inode in
             if errno <? 0 then let* _ := inode_destroy inode in ret errno else ret 0).

Definition fs_unlink (path : list Z) : M state Z :=
  if too_long path then ret (- ENAMETOOLONG)
  else
    let* dentry := dentry_lookup path in
    if dentry =? 0 then ret (- ENOENT)
    else
      let* x := get_dentry dentry in
      let inode := de_inode x in
      let* n := get_inode_obj inode in
      if S_ISDIR (n_mode n) then ret (- EISDIR)
      else
        let* r := dentry_unlink dentry in
        if r <? 0 then ret r
        else
          let* n := get_inode_obj inode in
          do* (if n_nlinks n =? 0 then let* _ := inode_destroy inode in ret tt else ret tt) in
          ret 0.

(** The label [fail] of [fs_mkdir]. *)
Definition mkdir_fail (dentry inode errno : Z) : M state Z :=
  do* (if truthy dentry then remove_dentry_and_children dentry else ret tt) in
  do* (if truthy inode then let* _ := inode_destroy inode in ret tt else ret tt) in
  ret errno.
Definition fs_mkdir (path : list Z) (mode : Z) : M state Z :=
  scratch PATH_MAX
    (if too_long path then ret (- ENAMETOOLONG)
     else
       let* dentry := dentry_lookup path in
       if truthy dentry then ret (- EEXIST)
       else
         let* dir := dirname_of path in
         let* parent_dentry := dentry_lookup dir in
         if parent_dentry =? 0 then ret (- ENOENT)
         else
           let* inode := inode_create (Z.lor (Z.land mode 0x1ff) S_IFDIR) in
           if inode =? 0 then mkdir_fail 0 0 (- ENOSPC)
           else
             let* base := basename_of path in
             let* errno := dentry_link parent_dentry base inode in
             if errno <? 0 then mkdir_fail 0 inode errno
             else
               let* dentry := dentry_lookup path in
               if dentry =? 0 then mkdir_fail 0 inode errno
               else
                 let* errno := dentry_link dentry [46] inode in
                 if errno <? 0 then mkdir_fail dentry inode errno
                 else
                   let* x := get_dentry dentry in
                   let* p := get_dentry (de_parent x) in
                   let* errno := dentry_link dentry [46; 46] (de_inode p) in
                   if errno <? 0 then mkdir_fail dentry inode errno else ret 0).

(** The loop of [fs_rmdir]: whether every child is [.] or [..]. *)
Fixpoint only_dots (l : list Z) : M state bool :=
  match l with
  | [] => ret true
  | a :: l =>
      let* x := get_dentry a in
      if same_name [46] (de_name x) || same_name [46; 46] (de_name x) then only_dots l else ret false
  end.
Definition fs_rmdir (path : list Z) : M state Z :=
  if too_long path then ret (- ENAMETOOLONG)
  else
    let* dentry := dentry_lookup path in
    if dentry =? 0 then ret (- ENOENT)
    else
      let* x := get_dentry dentry in
      let* n := get_inode_obj (de_inode x) in
      if negb (S_ISDIR (n_mode n)) then ret (- ENOTDIR)
      else if negb (de_nentries x =? 2) then ret (- ENOTEMPTY)
      else
        let* ok := only_dots (de_children x) in
        if negb ok then ret (- EINVAL)
        else
          let inode := de_inode x in
          do* remove_dentry_and_children dentry in
          let* _ := inode_destroy inode in
          ret 0.

Definition stat_of (n : inode) : stat64 :=
  Stat64 (n_index n) (n_mode n) (n_size n) (n_nlinks n) (n_size n / BLOCK_SIZE) BLOCK_SIZE.
(** The result, and what is stored in [buf]. *)
Definition fs_lstat64 (path : list Z) : M state (Z * option stat64) :=
  let* dentry := dentry_lookup path in
  if dentry =? 0 then ret (- ENOENT, None)
  else
    let* x := get_dentry dentry in
    let* n := get_inode_obj (de_inode x) in
    ret (0, Some (stat_of n)).
Definition fs_fstat64 (f : file) : M state (Z * option stat64) :=
  match f_type f with
  | FF_TTY | FF_PIPE =>
      ret (0, Some (Stat64 0 (Z.lor (Z.lor S_IFCHR S_IRUSR) S_IWUSR) 0 1 0 BLOCK_SIZE))
  | FF_INODE =>
      let* x := get_dentry (f_ptr f) in
      let* n := get_inode_obj (de_inode x) in
      ret (0, Some (stat_of n))
  | FF_UNUSED => ret (- EINVAL, None)
  end.
End Fs.

(** [fs_init] with the caches [bc], [ic] and [dc] that block.c, inode.c and
    dentry.c create. *)
Definition fs_init {S D} `{KM : KernelMem S} `{CD : Card D} (bc ic dc : Z) (mem : S) (card : D)
    : res (unit * fsys (blocks S D)) :=
  match superblock_init (block_init bc mem card) with
  | Ok (sb, st) => dentry_init (Fsys st sb ic ∅ [] dc ∅ 0)
  | Err r => Err r
  end.
