(* ===== verification/DentryProofs.v ===== *)
(** * dentry.c: proofs

    Names and paths, the directories as they are on the disk, and the loading of
    one: a child for every entry in use.  Looking paths up is in [Lookup]. *)

From stdpp Require Import base numbers list list_numbers gmap.
From S2P Require Import Prelude Bytes Signal Buddy BuddyProofs KernelMem Unix Kernel CString Hoare Block BlockProofs Minix Inode InodeProofs InodeSpecs Dentry Fs.

#[local] Open Scope Z_scope.
#[local] Open Scope kernel_scope.

(** ** Paths *)
Fixpoint split_slash (l : list Z) : list (list Z) :=
  match l with
  | [] => [[]]
  | c :: l =>
      if c =? SLASH then [] :: split_slash l
      else match split_slash l with w :: ws => (c :: w) :: ws | [] => [[c]] end
  end.
Definition components (path : list Z) : list (list Z) := filter (fun w => w <> []) (split_slash path).

Lemma split_slash_head l :
  split_slash l = until_slash l :: match drop (length (until_slash l)) l with [] => [] | _ :: r => split_slash r end.
Proof.
  induction l as [|c l IH]; [done|]. cbn [split_slash until_slash]. destruct (c =? SLASH) eqn:E; [done|].
  rewrite IH at 1. done.
Qed.

Lemma until_slash_prefix l : exists r, l = until_slash l ++ r.
Proof.
  induction l as [|c l [r IH]]; [by exists []|]. cbn [until_slash]. destruct (c =? SLASH); [by exists (c :: l)|].
  exists r. cbn. by rewrite <- IH.
Qed.

Lemma until_zero_id l : Forall (fun c => c <> 0) l -> until_zero l = l.
Proof. induction 1 as [|c l Hc _ IH]; [done|]. cbn [until_zero]. by rewrite (proj2 (Z.eqb_neq c 0) Hc), IH. Qed.

Lemma until_zero_pad l n : Forall (fun c => c <> 0) l -> until_zero (l ++ replicate n 0) = l.
Proof.
  induction 1 as [|c l Hc _ IH]; [by destruct n|]. cbn [until_zero app]. by rewrite (proj2 (Z.eqb_neq c 0) Hc), IH.
Qed.

(** A name padded with zeros reads as the name. *)
Lemma cname_array n name : Forall (fun c => c <> 0) name -> Z.of_nat (length name) <= n -> Z.of_nat (length name) <= NAME_MAX ->
  cname (name_array n name) = name.
Proof.
  intros Hz Hn Hm. unfold cname, name_array. rewrite (take_ge name) by lia. rewrite (until_zero_id name) by done.
  rewrite take_ge by (rewrite length_app, length_replicate; unfold NAME_MAX in *; lia). by apply until_zero_pad.
Qed.

(** ** Walking the tree *)
Fixpoint find_name (D : gmap Z dentry) (l : list Z) (name : list Z) : option Z :=
  match l with
  | [] => None
  | a :: l =>
      match D !! a with
      | Some x => if bool_decide (cname (de_name x) = name) then Some a else find_name D l name
      | None => None
      end
  end.
Section Lookup.
Context {S : Type} `{BS : BlockStore S}.
Implicit Types (s : fsys S) (d : contents) (U : gset Z) (C : gmap Z Z).

Lemma get_dentry_ok a x s d : fs_dentries s !! a = Some x -> druns (get_dentry a) s d (fun y d' => y = x /\ d' = d).
Proof. intros Ha. unfold get_dentry. dgets. by eapply druns_opt. Qed.

Lemma read_loaded_ok a x s d : fs_dentries s !! a = Some x -> truthy (Z.land (de_flags x) DF_FLAGS_LOAD) = true ->
  druns (read_children a) s d (fun r d' => r = 0 /\ d' = d).
Proof.
  intros Ha Hf. unfold read_children. apply scratch_druns. dstep (get_dentry_ok a x s d Ha) as y d' [-> ->].
  rewrite Hf. by apply druns_ret.
Qed.

Lemma find_child_ok s d l name : (forall c, c ∈ l -> is_Some (fs_dentries s !! c)) ->
  druns (find_child l name) s d (fun o d' => o = find_name (fs_dentries s) l (cname name) /\ d' = d).
Proof.
  induction l as [|a l IH]; intros Hl; cbn [find_child find_name]; [by apply druns_ret|].
  destruct (Hl a ltac:(by left)) as [x Hx]. dstep (get_dentry_ok a x s d Hx) as y d' [-> ->]. rewrite Hx.
  unfold same_name. destruct (bool_decide _); [by apply druns_ret|]. apply IH. intros c Hc. apply Hl. by right.
Qed.

Lemma find_name_in D l name a : find_name D l name = Some a -> a ∈ l.
Proof.
  induction l as [|b l IH]; [done|]. cbn [find_name]. destruct (D !! b); [|done].
  case_bool_decide; [intros [= <-]; by left|]. intros E. right. by apply IH.
Qed.

End Lookup.

(** ** Directories on the disk *)
Fixpoint entries_of (n : nat) (bytes : list Z) : list minix3_dirent :=
  match n with
  | O => []
  | S n => decode_dirent (take 64 bytes) :: entries_of n (drop 64 bytes)
  end.
Definition used_entry (e : minix3_dirent) : Prop := d_ino e <> 0.
#[export] Instance used_entry_dec e : Decision (used_entry e).
Proof. unfold used_entry. apply _. Defined.
(** The entries in use of the directory [x] with [size] bytes, from [off] on. *)
Definition dir_entries (x : minix2_inode) (d : contents) (off size : Z) : list minix3_dirent :=
  filter used_entry (entries_of (Z.to_nat (size / DIRENT_SIZE)) (file_bytes x d off size)).

Lemma entries_of_app n m bytes rest : length bytes = (64 * n)%nat ->
  entries_of (n + m) (bytes ++ rest) = entries_of n bytes ++ entries_of m rest.
Proof.
  revert bytes. induction n as [|n IH]; intros bytes Hl; [by destruct bytes|]. cbn [entries_of Nat.add app].
  rewrite take_app_le, drop_app_le by lia. f_equal. apply IH. rewrite length_drop. lia.
Qed.

Lemma dir_entries_app x d off a b : 0 <= a -> 0 <= b -> a mod 64 = 0 ->
  dir_entries x d off (a + b) = dir_entries x d off a ++ dir_entries x d (off + a) b.
Proof.
  intros Ha Hb Hm. unfold dir_entries. rewrite file_bytes_app by done. change DIRENT_SIZE with 64.
  pose proof (Z.div_mod a 64 ltac:(lia)) as Hd. assert (E : (a + b) / 64 = a / 64 + b / 64).
  { replace (a + b) with (b + a / 64 * 64) by lia. rewrite Z.div_add by lia. lia. }
  pose proof (Z.div_pos a 64 Ha ltac:(lia)). pose proof (Z.div_pos b 64 Hb ltac:(lia)).
  rewrite E, Z2Nat.inj_add, entries_of_app, filter_app by (rewrite ?file_bytes_length; lia). done.
Qed.

Section Load.
Context {S : Type} `{BS : BlockStore S}.
Implicit Types (s : fsys S) (d : contents) (U : gset Z) (C : gmap Z Z).

(** The inode in memory for the inode [i] on the disk. *)
Definition inode_of (i : Z) (x : minix2_inode) : inode := Inode i (i_mode x) (i_nlinks x) (i_size x).
(** The inodes in memory are those on the disk. *)
Definition inodes_sync s d : Prop :=
  (forall a, a ∈ inodes s <-> is_Some (fs_inodes s !! a)) /\
  forall a n, fs_inodes s !! a = Some n -> valid_inode (superblock s) (n_index n) /\
    n = inode_of (n_index n) (disk_inode (superblock s) d (n_index n)).
(** Objects have been added, nothing else. *)
Record grows s s1 : Prop := {
  gr_dentries : fs_dentries s ⊆ fs_dentries s1;
  gr_inodes : fs_inodes s ⊆ fs_inodes s1;
  gr_super : superblock s1 = superblock s;
  gr_root : root_dentry s1 = root_dentry s;
  gr_icache : inode_cache s1 = inode_cache s;
  gr_dcache : dentry_cache s1 = dentry_cache s;
}.

Lemma grows_refl s : grows s s.
Proof. done. Qed.

Lemma grows_trans s s1 s2 : grows s s1 -> grows s1 s2 -> grows s s2.
Proof. intros [A1 A2 A3 A4 A5 A6] [B1 B2 B3 B4 B5 B6]. split; [by etrans|by etrans|congruence..]. Qed.

Lemma inode_get_ok s d i : geometry (superblock s) -> valid_inode (superblock s) i -> inodes_sync s d ->
  fruns (inode_get i) s d (fun a s1 d' => d' = d /\ grows s s1 /\ inodes_sync s1 d /\
    fs_inodes s1 !! a = Some (inode_of i (disk_inode (superblock s) d i)) /\ fs_dentries s1 = fs_dentries s).
Proof.
  intros G Hi [H1 H2]. unfold inode_get. eapply fruns_step; [by apply read_inode_ok|]. intros x s1 d1 (-> & -> & ->). cbn beta.
  set (x := disk_inode _ _ _). eapply fruns_step; [apply get_inode_ok; intros a Ha; by apply H1|].
  intros a s1 d1 (-> & [(-> & Hin & n & Hn & <-)|(Hnew & Ha & Hnone & ->)]); cbn beta.
  - destruct (H2 a n Hn) as [_ Hsync]. eapply fruns_step; [by apply upd_inode_obj_ok|].
    intros [] s1 d1 [-> ->]. cbn beta. apply fruns_ret.
    assert (Hsame : set_fs_inodes (<[a := Inode (n_index n) (i_mode x) (i_nlinks x) (i_size x)]> (fs_inodes s)) s = s).
    { rewrite insert_id by (rewrite Hn; by f_equal). by destruct s. }
    rewrite Hsame. split_and!; [done|done|by split|by rewrite Hn; f_equal|done].
  - eapply fruns_step; [apply (upd_inode_obj_ok _ _ a (Inode i 0 0 0)); cbn; apply lookup_insert_eq|].
    intros [] s1 d1 [-> ->]. cbn beta. apply fruns_ret. unfold with_inode, set_inodes, set_fs_inodes. cbn.
    rewrite insert_insert_eq. split; [done|]. split; [split; cbn; [done|by apply insert_subseteq|done..]|].
    split; [|split; [apply lookup_insert_eq|done]]. split; cbn.
    + intros b. rewrite elem_of_cons, H1. destruct (decide (a = b)) as [<-|Hne].
      * rewrite lookup_insert_eq. split; [done|by left].
      * rewrite lookup_insert_ne by done. split; [intros [?|?]; congruence|by right].
    + intros b n. destruct (decide (a = b)) as [<-|Hne]; [|rewrite lookup_insert_ne by done; apply H2].
      rewrite lookup_insert_eq. intros [= <-]. done.
Qed.

Lemma alloc_dentry_ok s d parent inode name :
  fruns (alloc_dentry parent inode name) s d (fun a s1 d' => d' = d /\ a <> 0 /\ fs_dentries s !! a = None /\
    s1 = set_fs_dentries (<[a := Dentry (name_array NAME_MAX name) 0 0 inode (if parent =? 0 then a else parent) []]> (fs_dentries s)) s).
Proof.
  intros C L U x [H1 H2 H3]. destruct H3 as [osz Hc]. unfold alloc_dentry. rgets. apply runs_bind, runs_within.
  eapply runs_mono; [apply (bs_obj_alloc_spec _ _ _ _ _ _ _ H1 Hc)|]. intros a x1 (Ha & Hn & Hx1). cbn beta.
  rmodify. rret.
  assert (Hnone : fs_dentries s !! a = None).
  { destruct (fs_dentries s !! a) eqn:E; [|done]. destruct (Ha (dentry_cache s)). right. right. split; [done|]. cbn. by rewrite E. }
  exists x1, (set_fs_dentries (<[a := Dentry (name_array NAME_MAX name) 0 0 inode (if parent =? 0 then a else parent) []]> (fs_dentries s)) s), d.
  split; [done|]. split; [|done]. split; [|done|by exists osz].
  eapply bs_ext; [|done|exact Hx1]. intros c y. unfold fs_objs, own_objs. cbn. destruct (decide (y = a)) as [->|Hne].
  - rewrite lookup_insert_eq. split.
    + intros [[?|[[-> ?]|[-> _]]]|[-> _]]; [by left|by right; left|by right; right; eauto|by right; right; eauto].
    + intros [?|[[-> ?]|[-> _]]]; [by left; left|by left; right; left|by right].
  - rewrite lookup_insert_ne by done. split; [intros [?|[_ ?]]; done|by left].
Qed.

(** The child [k] of [parent] stands for the entry [e]. *)
Definition kid_ok s d (parent k : Z) (e : minix3_dirent) : Prop :=
  k <> 0 /\ exists ia, fs_dentries s !! k = Some (Dentry (name_array NAME_MAX (d_name e)) 0 0 ia parent []) /\
    fs_inodes s !! ia = Some (inode_of (d_ino e) (disk_inode (superblock s) d (d_ino e))).

Lemma kid_grows s s1 d p k e : grows s s1 -> kid_ok s d p k e -> kid_ok s1 d p k e.
Proof.
  intros [G1 G2 G3 _] (H0 & ia & H1 & H2). split; [done|]. exists ia. rewrite G3. split; by eapply lookup_weaken.
Qed.

Definition kids_post s d parent (children : list Z) (es : list minix3_dirent) (l : list Z) s1 : Prop :=
  grows s s1 /\ inodes_sync s1 d /\
  exists ks, l = ks ++ children /\ Forall2 (kid_ok s1 d parent) ks (reverse es) /\
    Forall (fun k => fs_dentries s !! k = None) ks /\
    forall k, is_Some (fs_dentries s1 !! k) -> is_Some (fs_dentries s !! k) \/ k ∈ ks.

Lemma kids_post_trans s s1 s2 d p children es1 es2 l1 l2 :
  kids_post s d p children es1 l1 s1 -> kids_post s1 d p l1 es2 l2 s2 -> kids_post s d p children (es1 ++ es2) l2 s2.
Proof.
  intros (G1 & _ & k1 & -> & F1 & N1 & D1) (G2 & Y2 & k2 & -> & F2 & N2 & D2). split; [by eapply grows_trans|]. split; [done|].
  exists (k2 ++ k1). rewrite <- app_assoc, reverse_app. split; [done|]. split; [|split].
  - apply Forall2_app; [done|]. eapply Forall2_impl; [exact F1|]. intros. by eapply kid_grows.
  - apply Forall_app. split; [|done]. eapply Forall_impl; [exact N2|]. intros k Hk. cbn beta in *.
    destruct (fs_dentries s !! k) eqn:E; [|done]. eapply lookup_weaken in E; [|apply (gr_dentries _ _ G1)]. congruence.
  - intros k Hk. rewrite elem_of_app. destruct (D2 k Hk) as [Hk1|]; [|tauto]. destruct (D1 k Hk1); tauto.
Qed.
Lemma kids_post_nil s d parent children : inodes_sync s d -> kids_post s d parent children [] children s.
Proof. intros Y. split; [done|]. split; [done|]. exists []. split_and!; [done|constructor|constructor|by left]. Qed.

Lemma add_children_ok n : forall i s d parent bytes children, geometry (superblock s) -> inodes_sync s d -> parent <> 0 ->
  0 <= i -> (i + Z.of_nat n) * 64 = Z.of_nat (length bytes) ->
  let es := filter used_entry (entries_of n (drop (Z.to_nat (i * 64)) bytes)) in
  Forall (fun e => valid_inode (superblock s) (d_ino e)) es ->
  fruns (add_children n i parent bytes children) s d (fun l s1 d' => d' = d /\ kids_post s d parent children es l s1).
Proof.
  induction n as [|n IH]; intros i s d parent bytes children G Hsync Hp Hi Hlen; cbn [add_children entries_of]; cbn zeta.
  { intros _. apply fruns_ret. split; [done|]. by apply kids_post_nil. }
  assert (Hslice : slice bytes (i * DIRENT_SIZE) DIRENT_SIZE = Some (take 64 (drop (Z.to_nat (i * 64)) bytes))).
  { unfold slice. change DIRENT_SIZE with 64. rewrite (proj2 (Z.leb_le 0 (i * 64))), (proj2 (Z.leb_le (i * 64 + 64) _)) by lia. done. }
  rewrite Hslice. set (e := decode_dirent _). cbn [opt]. intros Hvalid.
  apply (fruns_step (ret _) _ _ _ (fun b s1 d1 => b = take 64 (drop (Z.to_nat (i * 64)) bytes) /\ s1 = s /\ d1 = d));
    [by apply fruns_ret|]. intros b s1 d1 (-> & -> & ->). cbn beta. fold e.
  rewrite filter_cons in *. rewrite drop_drop in *.
  replace (Z.to_nat (i * 64) + 64)%nat with (Z.to_nat ((i + 1) * 64)) in * by lia.
  destruct (decide (used_entry e)) as [E|E]; unfold used_entry in E.
  2: { rewrite (proj2 (truthy_false (d_ino e))) by lia. apply IH; try done; lia. }
  - rewrite (proj2 (truthy_true (d_ino e)) E). apply Forall_cons in Hvalid as [He Hrest].
    eapply fruns_step; [by apply inode_get_ok|]. intros ia s1 d1 (-> & G1 & Y1 & Hia & Hde). cbn beta.
    eapply fruns_step; [by apply alloc_dentry_ok|]. intros k s2 d2 (-> & Hk0 & Hnone & ->). cbn beta.
    rewrite (proj2 (Z.eqb_neq parent 0) Hp). set (s2 := set_fs_dentries _ s1).
    assert (Hkid : kids_post s d parent children [e] (k :: children) s2).
    { split; [|split].
      - destruct G1 as [A1 A2 A3 A4 A5 A6]. split; cbn; [|done..]. etrans; [exact A1|]. by apply insert_subseteq.
      - exact Y1.
      - exists [k]. split; [done|]. split; [|split; [constructor; [by rewrite <- Hde|constructor]|]].
        + constructor; [|constructor]. split; [done|]. exists ia. cbn. rewrite lookup_insert_eq. split; [done|].
          rewrite (gr_super _ _ G1). exact Hia.
        + intros q. cbn. rewrite list_elem_of_singleton, <- Hde. destruct (decide (k = q)) as [->|]; [by right|].
          rewrite lookup_insert_ne by done. by left. }
    eapply fruns_mono; [apply (IH (i + 1) s2 d parent bytes (k :: children)); try done; try lia|].
    + cbn. by rewrite (gr_super _ _ G1).
    + cbn. by rewrite (gr_super _ _ G1).
    + intros l s3 d3 [-> Hkids]. split; [done|]. exact (kids_post_trans _ _ _ _ _ _ [e] _ _ _ Hkid Hkids).
Qed.

Lemma land_63 v : 0 <= v -> v mod 64 = 0 -> truthy (Z.land v (DIRENT_SIZE - 1)) = false.
Proof.
  intros Hv Hm. apply truthy_false. change (DIRENT_SIZE - 1) with (Z.ones 6). rewrite Z.land_ones by lia. exact Hm.
Qed.

(** The part of the directory that one turn reads. *)
Lemma turn_size N off : 0 <= off -> off mod 64 = 0 -> N mod 64 = 0 -> off <= N ->
  let rs := read_size N off BLOCK_SIZE in
  0 <= rs <= BLOCK_SIZE /\ rs mod 64 = 0 /\ off + rs <= N /\ (rs = 0 <-> off = N) /\ (off + rs) mod 64 = 0 /\
  (rs = BLOCK_SIZE \/ off + rs = N).
Proof.
  intros Ho Hm HN Hle. unfold read_size. change BLOCK_SIZE with 4096. cbn zeta.
  destruct (Z.le_ge_cases (N - off) 4096).
  - rewrite (Z.min_r 4096), Z.max_r by lia. split_and!; try lia.
    + rewrite Zminus_mod, Hm, HN. done.
    + replace (off + (N - off)) with N by lia. done.
  - rewrite (Z.min_l 4096), Z.max_r by lia. split_and!; try lia; [done|].
    rewrite Z.add_mod, Hm by lia. done.
Qed.

Lemma read_entries_ok x ia n parent d fuel : forall s off children, geometry (superblock s) -> inodes_sync s d ->
  blocks_ok d -> parent <> 0 -> fs_inodes s !! ia = Some n -> n_size n < FILE_LIMIT -> n_size n mod 64 = 0 ->
  x = disk_inode (superblock s) d (n_index n) -> 0 <= off <= n_size n -> off mod 64 = 0 ->
  n_size n - off <= (Z.of_nat fuel - 1) * BLOCK_SIZE ->
  Forall (fun e => valid_inode (superblock s) (d_ino e)) (dir_entries x d off (n_size n - off)) ->
  fruns (read_entries fuel parent ia off children) s d (fun r s1 d' => d' = d /\ snd r = true /\
    kids_post s d parent children (dir_entries x d off (n_size n - off)) (fst r) s1).
Proof.
  induction fuel as [|fuel IH]; intros s off children G Y Hd Hp Ha Hlim HN Hx Ho Hm Hf Hv;
    [change BLOCK_SIZE with 4096 in Hf; lia|]. cbn [read_entries].
  destruct (turn_size (n_size n) off ltac:(lia) Hm HN ltac:(lia)) as (T1 & T2 & T3 & T4 & T5 & T6).
  destruct (proj2 Y ia n Ha) as [Hi _]. assert (Hl31 : FILE_LIMIT + BLOCK_SIZE < 2 ^ 31) by done.
  eapply fruns_step; [apply (inode_read_ok s d ia n BLOCK_SIZE off G Ha Hi Hd); try done; lia|].
  intros r s1 d1 (-> & -> & ->). cbn beta iota. rewrite <- Hx. set (rs := read_size (n_size n) off BLOCK_SIZE) in *.
  rewrite (proj2 (Z.ltb_ge rs 0)) by lia. rewrite (land_63 rs) by (done || lia).
  destruct (Z.eqb_spec rs 0) as [E|E].
  { apply fruns_ret. apply T4 in E as ->. rewrite Z.sub_diag. split; [done|]. split; [done|]. by apply kids_post_nil. }
  replace (n_size n - off) with (rs + (n_size n - off - rs)) in Hv |- * by lia.
  rewrite dir_entries_app in Hv |- * by (done || lia). apply Forall_app in Hv as [Hv1 Hv2].
  replace (n_size n - off - rs) with (n_size n - (off + rs)) in * by lia.
  assert (Hes : filter used_entry (entries_of (Z.to_nat (rs / DIRENT_SIZE)) (drop (Z.to_nat (0 * 64)) (file_bytes x d off rs)))
    = dir_entries x d off rs) by done.
  pose proof (Z.div_mod rs 64 ltac:(lia)) as Hdm.
  eapply fruns_step.
  { apply (add_children_ok (Z.to_nat (rs / DIRENT_SIZE)) 0 s d parent (file_bytes x d off rs) children G Y Hp ltac:(lia)).
    - rewrite file_bytes_length. change DIRENT_SIZE with 64. rewrite !Z2Nat.id by (try apply Z.div_pos; lia). lia.
    - by rewrite Hes. }
  rewrite Hes. intros l s1 d1 [-> Hk]. cbn beta. destruct Hk as (G1 & Y1 & Hk1).
  rewrite u32_small by (unfold is_u32; lia). assert (Hsup : superblock s1 = superblock s) by apply G1.
  eapply fruns_mono.
  - apply (IH s1 (off + rs) l); rewrite ?Hsup; try done; try lia; try (by eapply lookup_weaken; [|apply G1]).
    change BLOCK_SIZE with 4096 in *. lia.
  - intros r s2 d2 (-> & Hok & Hk2). split; [done|]. split; [done|].
    eapply kids_post_trans; [|exact Hk2]. split; [done|]. split; [done|exact Hk1].
Qed.

Lemma upd_dentry_ok s d a x f : fs_dentries s !! a = Some x ->
  fruns (upd_dentry a f) s d (fun _ s1 d' => d' = d /\ s1 = set_fs_dentries (<[a := f x]> (fs_dentries s)) s).
Proof.
  intros Ha. unfold upd_dentry. eapply fruns_step; [by apply (get_dentry_ok a x)|]. intros y s1 d1 (-> & -> & ->). cbn beta.
  intros C L U z [H1 H2 H3]. apply runs_modify. exists z, (set_fs_dentries (<[a := f x]> (fs_dentries s)) s), d.
  split; [done|]. split; [|done]. split; [|done|done]. eapply bs_ext; [|done|exact H1].
  intros c y. unfold fs_objs, own_objs. cbn. destruct (decide (a = y)) as [<-|Hne]; [|by rewrite lookup_insert_ne].
  rewrite lookup_insert_eq, Ha; split; (intros [?|[?|[? _]]]; [by left|by right; left|right; right; eauto]).
Qed.

(** Children stay children of an entry that changes. *)
Lemma kids_upd s d a y ks es : Forall2 (kid_ok s d a) ks es -> Forall (fun k => k <> a) ks ->
  Forall2 (kid_ok (set_fs_dentries (<[a := y]> (fs_dentries s)) s) d a) ks es.
Proof.
  induction 1 as [|k e ks es (K0 & ia & K1 & K2) _ IH]; intros Hne; [constructor|]. apply Forall_cons in Hne as [Hk Hne].
  constructor; [|by apply IH]. split; [done|]. exists ia. cbn. by rewrite lookup_insert_ne by congruence.
Qed.

(** A directory that is loaded for the first time. *)
Definition load_entry (x : dentry) (children : list Z) : dentry :=
  set_de_flags (Z.lor (de_flags x) DF_FLAGS_LOAD)
    (set_de_children (children ++ de_children x)
       (set_de_nentries (u32 (de_nentries x + Z.of_nat (length children))) x)).

Lemma read_children_ok s d a x n : geometry (superblock s) -> inodes_sync s d -> blocks_ok d -> a <> 0 ->
  fs_dentries s !! a = Some x -> truthy (Z.land (de_flags x) DF_FLAGS_LOAD) = false ->
  fs_inodes s !! de_inode x = Some n -> S_ISDIR (n_mode n) = true -> n_size n < FILE_LIMIT -> n_size n mod 64 = 0 ->
  0 <= n_size n ->
  let es := dir_entries (disk_inode (superblock s) d (n_index n)) d 0 (n_size n) in
  Forall (fun e => valid_inode (superblock s) (d_ino e)) es ->
  fruns (read_children a) s d (fun r s1 d' => r = 0 /\ d' = d /\ exists s0 ks,
    grows s s0 /\ inodes_sync s1 d /\ s1 = set_fs_dentries (<[a := load_entry x ks]> (fs_dentries s0)) s0 /\
    Forall2 (kid_ok s1 d a) ks (reverse es) /\ Forall (fun k => fs_dentries s !! k = None) ks /\
    forall k, is_Some (fs_dentries s0 !! k) -> is_Some (fs_dentries s !! k) \/ k ∈ ks).
Proof.
  intros G Y Hd Ha0 Ha Hflag Hn Hdir Hlim HN Hsz es Hv. unfold read_children.
  apply scratch_ok; [unfold BLOCK_SIZE, PAGE_SIZE; lia|].
  eapply fruns_step; [by apply (get_dentry_ok a x)|]. intros y s1 d1 (-> & -> & ->). cbn beta. rewrite Hflag.
  eapply fruns_step; [by apply (get_inode_obj_ok _ n)|]. intros m s1 d1 (-> & -> & ->). cbn beta. rewrite Hdir. cbn [negb].
  eapply fruns_step.
  { apply (read_entries_ok (disk_inode (superblock s) d (n_index n)) (de_inode x) n a d); try done; try lia.
    - pose proof (Z.div_mod (n_size n) BLOCK_SIZE ltac:(done)). pose proof (Z.mod_pos_bound (n_size n) BLOCK_SIZE ltac:(done)).
      pose proof (Z.div_pos (n_size n) BLOCK_SIZE Hsz ltac:(done)). change BLOCK_SIZE with 4096 in *. lia.
    - rewrite Z.sub_0_r. exact Hv. }
  intros [l ok] s1 d1 (-> & Hok & G1 & Y1 & ks & Hl & Hk & Hnew & Hdom). cbn [fst snd] in *. rewrite Hok.
  rewrite Z.sub_0_r in Hk. rewrite app_nil_r in Hl. subst l.
  assert (Ha1 : fs_dentries s1 !! a = Some x) by (eapply lookup_weaken; [exact Ha|apply G1]).
  eapply fruns_step; [by apply (upd_dentry_ok s1 d a x)|]. intros [] s2 d2 [-> ->]. cbn beta. apply fruns_ret.
  split; [done|]. split; [done|]. exists s1, ks. split_and!; [done|exact Y1|done| |done|done].
  apply kids_upd; [exact Hk|]. eapply Forall_impl; [exact Hnew|]. intros k Hk'. cbn beta in *. congruence.
Qed.
End Load.

(** ** Properties *)

(** C31: [read_children] of a directory that has not been loaded makes a child for
    every entry in use of the directory on the disk, whatever its number of blocks:
    in reverse order, with the entry's name, the directory as parent and the
    entry's inode as it is on the disk; it marks the directory loaded and counts
    the children.  The disk does not change, and nor do the inodes in memory. *)
Theorem read_children_correct {S} `{BS : BlockStore S} (s : fsys S) C L U d a x n :
  at_disk s C L U d -> geometry (superblock s) -> inodes_sync s d -> a <> 0 ->
  fs_dentries s !! a = Some x -> truthy (Z.land (de_flags x) DF_FLAGS_LOAD) = false ->
  fs_inodes s !! de_inode x = Some n -> S_ISDIR (n_mode n) = true -> 0 <= n_size n < FILE_LIMIT -> n_size n mod 64 = 0 ->
  let es := dir_entries (disk_inode (superblock s) d (n_index n)) d 0 (n_size n) in
  Forall (fun e => valid_inode (superblock s) (d_ino e)) es ->
  runs (read_children a) s (fun r s' => r = 0 /\ at_disk s' C L U d /\ inodes_sync s' d /\ fs_inodes s ⊆ fs_inodes s' /\
    exists ks, fs_dentries s' !! a = Some (load_entry x ks) /\ Forall2 (kid_ok s' d a) ks (reverse es) /\
      Forall (fun k => fs_dentries s !! k = None) ks).
Proof.
  intros Had G Y Ha0 Ha Hf Hn Hdir Hsz HN es Hv. pose proof (at_disk_blocks _ _ _ _ _ Had) as Hd.
  eapply runs_mono; [apply (fruns_runs _ _ _ _ _ _ _ Had
    (read_children_ok s d a x n G Y Hd Ha0 Ha Hf Hn Hdir (proj2 Hsz) HN (proj1 Hsz) Hv))|].
  intros r s' (s1 & d' & Es & Had' & -> & -> & s0 & ks & G0 & Y1 & -> & Hk & Hnew & _).
  split; [done|]. split; [done|]. rewrite Es. split; [exact Y1|]. split; [apply G0|].
  exists ks. cbn. rewrite lookup_insert_eq. split; [done|]. split; [exact Hk|done].
Qed.

(** The sample file system with a root directory of three entries. *)
Definition sample_dir_inode : minix2_inode := set_zone_at 0 6 (set_i_size 192 (set_i_mode S_IFDIR zero_inode)).
Definition sample_dir_card : gmap Z (list Z) :=
  <[4 * BLOCK_SIZE := encode_inode sample_dir_inode ++ replicate 448 0]>
    {[6 * BLOCK_SIZE := encode_dirent (Dirent 1 (name_array NAME_MAX [46])) ++
                        encode_dirent (Dirent 1 (name_array NAME_MAX [46; 46])) ++
                        encode_dirent (Dirent 2 (name_array NAME_MAX [97])) ++ replicate 320 0]}.
Definition sample_root (flags : Z) (children : list Z) : dentry := Dentry (name_array NAME_MAX []) flags 0 5 7 children.
Definition sample_dir_fs : fsys (blocks bump (gmap Z (list Z))) :=
  Fsys (block_init 1 (Bump 10 0) sample_dir_card) sample_superblock 2 {[5 := inode_of 1 sample_dir_inode]} [5]
    3 {[7 := sample_root 0 []]} 7.
Lemma sample_objs_ok (s : fsys (blocks bump (gmap Z (list Z)))) card :
  fs_store s = block_init 1 (Bump 10 0) card -> inode_cache s = 2 -> dentry_cache s = 3 ->
  (forall a, is_Some (fs_inodes s !! a) -> a = 5) -> (forall a, is_Some (fs_dentries s !! a) -> a = 7 \/ a = 8) ->
  at_disk s sample_caches (fun _ _ => False) ∅ (card_block card).
Proof.
  intros Es Ei Ed Hi Hde. split; [|rewrite Ei; by exists 28|rewrite Ed; by exists 96]. rewrite Es.
  apply block_init_ok; [done|by exists 20|].
  assert (Hobj : forall c a, fs_objs (fun _ _ => False) s c a -> (c = 2 /\ a = 5) \/ (c = 3 /\ (a = 7 \/ a = 8))).
  { intros c a [[]|[[-> Hn%Hi]|[-> Hn%Hde]]]; [left; by rewrite Ei|right; by rewrite Ed]. }
  split_and!; cbn; try lia.
  - intros c a Ha%Hobj. lia.
  - intros c c' a Ha%Hobj Hb%Hobj. lia.
  - intros i Hi'. by apply not_elem_of_empty in Hi'.
Qed.

Theorem read_children_correct_witness : runs (read_children 7) sample_dir_fs (fun r s' => r = 0 /\
  exists x, fs_dentries s' !! 7 = Some x /\ length (de_children x) = 3%nat).
Proof.
  assert (Hx : disk_inode sample_superblock (card_block sample_dir_card) 1 = sample_dir_inode) by (vm_compute; reflexivity).
  assert (Hs : inodes_sync sample_dir_fs (card_block sample_dir_card)).
  { split.
    - intros a. cbn. rewrite list_elem_of_singleton. split.
      + intros ->. eexists. apply lookup_singleton_eq.
      + intros [n Hn]. by apply lookup_singleton_Some in Hn as [<- _].
    - intros a n Hn. cbn in Hn. apply lookup_singleton_Some in Hn as [_ <-]. split; [exact sample_inode_valid|].
      cbn [n_index inode_of superblock sample_dir_fs]. rewrite Hx. reflexivity. }
  eapply runs_mono; [apply (read_children_correct sample_dir_fs sample_caches (fun _ _ => False) ∅ (card_block sample_dir_card) 7 (sample_root 0 [])
    (inode_of 1 sample_dir_inode))|].
  - apply sample_objs_ok; [reflexivity|reflexivity|reflexivity| |].
    + intros a [n Hn]. cbn in Hn. apply lookup_singleton_Some in Hn as [<- _]. reflexivity.
    + intros a [x Hx']. cbn in Hx'. apply lookup_singleton_Some in Hx' as [<- _]. left. reflexivity.
  - exact sample_geometry.
  - exact Hs.
  - lia.
  - apply lookup_singleton_eq.
  - reflexivity.
  - apply lookup_singleton_eq.
  - reflexivity.
  - vm_compute. split; [discriminate|reflexivity].
  - reflexivity.
  - change (n_index (inode_of 1 sample_dir_inode)) with 1. change (superblock sample_dir_fs) with sample_superblock. rewrite Hx.
    vm_compute. repeat constructor; discriminate.
  - intros r s' (-> & _ & _ & _ & ks & Hk & Hkids & _). split; [reflexivity|]. eexists. split; [exact Hk|].
    apply Forall2_length in Hkids. cbn [de_children load_entry set_de_flags set_de_children sample_root]. rewrite app_nil_r, Hkids.
    change (n_index (inode_of 1 sample_dir_inode)) with 1. change (superblock sample_dir_fs) with sample_superblock. rewrite Hx.
    vm_compute. reflexivity.
Defined.
