(* ===== verification/Lookup.v ===== *)
(** * Paths: proofs

    What a path means is given by the disk: from the root inode, component by
    component, the entry with that name in the directory reached so far.  The tree
    of entries in memory is loaded from the disk as far as paths have been looked
    up; [tree_sync] says that it agrees with the disk, whichever parts of it are
    loaded.  [dentry_init] establishes it, and [dentry_lookup] finds what the path
    means on the disk, loading the directories on the way. *)

From stdpp Require Import base numbers list list_numbers gmap.
From S2P Require Import Prelude Bytes Signal Buddy BuddyProofs KernelMem Unix Kernel CString Hoare Block BlockProofs Minix Inode InodeProofs InodeSpecs Dentry Fs DentryProofs.

#[local] Open Scope Z_scope.
#[local] Open Scope kernel_scope.

(** ** Paths on the disk *)
Section Disk.
Context (sb : minix3_superblock) (d : contents).

(** The entries in use of the directory [i]; other files have none. *)
Definition entries_at (i : Z) : list minix3_dirent :=
  let x := disk_inode sb d i in
  if S_ISDIR (i_mode x) then dir_entries x d 0 (i_size x) else [].
(** The first entry with the name. *)
Fixpoint entry_named (es : list minix3_dirent) (name : list Z) : option Z :=
  match es with
  | [] => None
  | e :: es => if bool_decide (cname (d_name e) = name) then Some (d_ino e) else entry_named es name
  end.
(** Should a name occur more than once, the last entry counts. *)
Fixpoint disk_walk (i : Z) (path : list (list Z)) : option Z :=
  match path with
  | [] => Some i
  | c :: path =>
      if NAME_MAX <? Z.of_nat (length c) then None
      else match entry_named (reverse (entries_at i)) c with
           | None => None
           | Some j => disk_walk j path
           end
  end.
Definition ROOT_INODE : Z := 1.
(** The inode a path leads to. *)
Definition disk_path (path : list Z) : option Z :=
  if PATH_MAX <=? Z.of_nat (length path) then None
  else match path with
       | c :: path => if c =? SLASH then disk_walk ROOT_INODE (components path) else None
       | [] => None
       end.

(** The inodes that the directories lead to. *)
Inductive in_tree : Z -> Prop :=
| it_root : in_tree ROOT_INODE
| it_entry i e : in_tree i -> e ∈ entries_at i -> in_tree (d_ino e).

(** A consistent image: these inodes exist, their files have a size the zones can
    reach, and directories consist of whole entries. *)
Record disk_tree : Prop := {
  dt_valid : forall i, in_tree i -> valid_inode sb i;
  dt_size : forall i, in_tree i -> 0 <= i_size (disk_inode sb d i) < FILE_LIMIT;
  dt_dir : forall i, in_tree i -> S_ISDIR (i_mode (disk_inode sb d i)) = true -> i_size (disk_inode sb d i) mod 64 = 0;
}.

Lemma entry_named_in es name j : entry_named es name = Some j -> exists e, e ∈ es /\ d_ino e = j.
Proof.
  induction es as [|e es IH]; [done|]. cbn [entry_named]. case_bool_decide.
  - intros [= <-]. exists e. split; [by left|done].
  - intros (e' & He & <-)%IH. exists e'. split; [by right|done].
Qed.
Lemma disk_walk_tree path : forall i j, in_tree i -> disk_walk i path = Some j -> in_tree j.
Proof.
  induction path as [|c path IH]; intros i j Hi; cbn [disk_walk]; [by intros [= <-]|].
  destruct (_ <? _); [done|]. destruct (entry_named _ c) as [j0|] eqn:E; [|done]. apply IH.
  apply entry_named_in in E as (e & He & <-). apply (it_entry i); [done|]. by rewrite elem_of_reverse in He.
Qed.
Lemma disk_path_tree path j : disk_path path = Some j -> in_tree j.
Proof.
  unfold disk_path. destruct (_ <=? _); [done|]. destruct path as [|c path]; [done|]. destruct (c =? SLASH); [|done].
  apply disk_walk_tree, it_root.
Qed.
End Disk.

(** The name of a loaded child reads as that of the entry. *)
Lemma until_zero_nonzero l : Forall (fun c => c <> 0) (until_zero l).
Proof. induction l as [|c l IH]; [constructor|]. cbn [until_zero]. destruct (Z.eqb_spec c 0); by constructor. Qed.
Lemma until_zero_length l : (length (until_zero l) <= length l)%nat.
Proof. induction l as [|c l IH]; [done|]. cbn [until_zero]. destruct (c =? 0); cbn [length]; lia. Qed.
Lemma cname_name_array l : cname (name_array NAME_MAX l) = cname l.
Proof.
  unfold cname, name_array. set (u := until_zero (take (Z.to_nat NAME_MAX) l)).
  assert (Hu : (length u <= Z.to_nat NAME_MAX)%nat).
  { unfold u. etrans; [apply until_zero_length|]. rewrite length_take. lia. }
  rewrite take_ge by (rewrite length_app, length_replicate; lia). apply until_zero_pad, until_zero_nonzero.
Qed.

(** ** The tree in memory *)
Definition loaded (x : dentry) : bool := truthy (Z.land (de_flags x) DF_FLAGS_LOAD).

Section Tree.
Context {S : Type} `{BS : BlockStore S}.
Implicit Types (s : fsys S) (d : contents) (U : gset Z) (C : gmap Z Z).

(** The entry [a] is for the inode [i] of the disk. *)
Definition entry_is s (a i : Z) : Prop :=
  exists x n, fs_dentries s !! a = Some x /\ fs_inodes s !! de_inode x = Some n /\ n_index n = i.
(** The child [a] is for the entry [e] of the disk. *)
Definition kid_is s (a : Z) (e : minix3_dirent) : Prop :=
  exists x n, fs_dentries s !! a = Some x /\ cname (de_name x) = cname (d_name e) /\
    fs_inodes s !! de_inode x = Some n /\ n_index n = d_ino e.
(** The entry [x] at [a] agrees with the disk: once loaded, its children are the
    entries of its directory, the last one first; before, it has none. *)
Record entry_sync s d (a : Z) (x : dentry) : Prop := {
  es_null : a <> 0;
  es_inode : exists n, fs_inodes s !! de_inode x = Some n /\ in_tree (superblock s) d (n_index n) /\
    if loaded x then Forall2 (kid_is s) (de_children x) (reverse (entries_at (superblock s) d (n_index n)))
    else de_children x = [];
}.
Record tree_sync s d : Prop := {
  ts_entries : forall a x, fs_dentries s !! a = Some x -> entry_sync s d a x;
  ts_root : entry_is s (root_dentry s) ROOT_INODE;
}.
Record fs_sync s d : Prop := {
  fy_geometry : geometry (superblock s);
  fy_inodes : inodes_sync s d;
  fy_blocks : blocks_ok d;
  fy_disk : disk_tree (superblock s) d;
  fy_tree : tree_sync s d;
}.

(** Entries and inodes stay, with their names; entries may be loaded and added. *)
Record extends s s1 : Prop := {
  ex_dentries : forall a x, fs_dentries s !! a = Some x -> exists y, fs_dentries s1 !! a = Some y /\
    de_name y = de_name x /\ de_inode y = de_inode x /\ de_parent y = de_parent x;
  ex_inodes : fs_inodes s ⊆ fs_inodes s1;
  ex_super : superblock s1 = superblock s;
  ex_root : root_dentry s1 = root_dentry s;
  ex_icache : inode_cache s1 = inode_cache s;
  ex_dcache : dentry_cache s1 = dentry_cache s;
}.
Lemma extends_refl s : extends s s.
Proof. split; try done. intros a x Ha. by exists x. Qed.
Lemma extends_trans s1 s2 s3 : extends s1 s2 -> extends s2 s3 -> extends s1 s3.
Proof.
  intros [A1 A2 A3 A4 A5 A6] [B1 B2 B3 B4 B5 B6]. split; try congruence; [|by etrans].
  intros a x Ha. destruct (A1 a x Ha) as (y & Hy & E1 & E2 & E3). destruct (B1 a y Hy) as (z & Hz & F1 & F2 & F3).
  exists z. split_and!; [done|congruence..].
Qed.
Lemma extends_entry s s1 a i : extends s s1 -> entry_is s a i -> entry_is s1 a i.
Proof.
  intros HE (x & n & Hx & Hn & Hi). destruct (ex_dentries _ _ HE a x Hx) as (y & Hy & _ & E & _).
  exists y, n. split; [done|]. split; [rewrite E; eapply lookup_weaken; [exact Hn|apply HE]|done].
Qed.
Lemma extends_kid s s1 a e : extends s s1 -> kid_is s a e -> kid_is s1 a e.
Proof.
  intros HE (x & n & Hx & Hm & Hn & Hi). destruct (ex_dentries _ _ HE a x Hx) as (y & Hy & E1 & E & _).
  exists y, n. rewrite E1. split_and!; [done|done|rewrite E; eapply lookup_weaken; [exact Hn|apply HE]|done].
Qed.
Lemma extends_sync s s1 d a x : extends s s1 -> entry_sync s d a x -> entry_sync s1 d a x.
Proof.
  intros HE [H0 (n & Hn & Ht & Hk)]. split; [done|]. exists n. rewrite (ex_super _ _ HE).
  split; [eapply lookup_weaken; [exact Hn|apply HE]|]. split; [done|]. destruct (loaded x); [|done].
  eapply Forall2_impl; [exact Hk|]. intros. by eapply extends_kid.
Qed.

(** ** Loading *)
Lemma loaded_set x : loaded (set_de_flags (Z.lor (de_flags x) DF_FLAGS_LOAD) x) = true.
Proof.
  unfold loaded. cbn [de_flags set_de_flags]. apply truthy_true. intros E.
  assert (Hb : Z.testbit (Z.land (Z.lor (de_flags x) DF_FLAGS_LOAD) DF_FLAGS_LOAD) 0 = true).
  { rewrite Z.land_spec, Z.lor_spec. by rewrite orb_true_r. }
  by rewrite E, Z.bits_0 in Hb.
Qed.

Lemma read_file_ok s d a x n : fs_dentries s !! a = Some x -> loaded x = false ->
  fs_inodes s !! de_inode x = Some n -> S_ISDIR (n_mode n) = false ->
  fruns (read_children a) s d (fun r s1 d' => r = 0 /\ d' = d /\
    s1 = set_fs_dentries (<[a := set_de_flags (Z.lor (de_flags x) DF_FLAGS_LOAD) x]> (fs_dentries s)) s).
Proof.
  intros Ha Hl Hn Hdir. unfold read_children. apply scratch_ok; [unfold BLOCK_SIZE, PAGE_SIZE; lia|].
  eapply fruns_step; [by apply (get_dentry_ok a x)|]. intros y s1 d1 (-> & -> & ->). cbn beta. fold (loaded x). rewrite Hl.
  eapply fruns_step; [by apply (get_inode_obj_ok _ n)|]. intros m s1 d1 (-> & -> & ->). cbn beta. rewrite Hdir. cbn [negb].
  eapply fruns_step; [by apply (upd_dentry_ok s d a x)|]. intros [] s2 d2 [-> ->]. cbn beta. by apply fruns_ret.
Qed.

Definition loads s d a (r : Z) s1 (d' : contents) : Prop :=
  d' = d /\ extends s s1 /\ fs_sync s1 d /\ exists y, fs_dentries s1 !! a = Some y /\ loaded y = true.

(** A state in which [a] has become [y] and entries have been added. *)
Lemma sync_update s s0 d a x y (ks : list Z) : fs_sync s d -> fs_dentries s !! a = Some x ->
  de_name y = de_name x -> de_inode y = de_inode x -> de_parent y = de_parent x ->
  grows s s0 -> (forall k, is_Some (fs_dentries s0 !! k) -> is_Some (fs_dentries s !! k) \/ k ∈ ks) ->
  let s1 := set_fs_dentries (<[a := y]> (fs_dentries s0)) s0 in
  inodes_sync s1 d -> (forall k z, k ∈ ks -> fs_dentries s1 !! k = Some z -> entry_sync s1 d k z) -> entry_sync s1 d a y ->
  extends s s1 /\ fs_sync s1 d.
Proof.
  intros [Y1 Y2 Y3 Y4 [T1 T2]] Ha E1 E2 E3 HG Hdom s1 Hi Hks Hy. pose proof HG as [G1 G2 G3 G4 G5 G6].
  assert (HE : extends s s1).
  { split; try done. intros b z Hb. cbn. destruct (decide (a = b)) as [<-|Hne].
    - rewrite lookup_insert_eq. exists y. rewrite Ha in Hb. injection Hb as <-. done.
    - rewrite lookup_insert_ne by done. exists z. split; [by eapply lookup_weaken|done]. }
  split; [done|]. split; try done.
  - by rewrite (ex_super _ _ HE).
  - by rewrite (ex_super _ _ HE).
  - split; [|rewrite (ex_root _ _ HE); by eapply extends_entry]. intros b z Hb. destruct (decide (a = b)) as [<-|Hne].
    { cbn in Hb. rewrite lookup_insert_eq in Hb. by injection Hb as <-. }
    pose proof Hb as Hb'. cbn in Hb'. rewrite lookup_insert_ne in Hb' by done.
    destruct (Hdom b ltac:(by eexists)) as [[w Hw]|Hk]; [|by apply Hks].
    eapply lookup_weaken in Hw as Hw'; [|exact G1]. assert (z = w) as -> by congruence. eapply extends_sync; [done|by apply T1].
Qed.

Lemma read_sync s d a : fs_sync s d -> is_Some (fs_dentries s !! a) -> fruns (read_children a) s d (loads s d a).
Proof.
  intros HY [x Ha]. pose proof HY as [Y1 Y2 Y3 Y4 [T1 T2]]. destruct (T1 a x Ha) as [H0 (n & Hn & Ht & Hk)].
  destruct (loaded x) eqn:El.
  { eapply fruns_mono; [by apply (read_loaded_ok a x)|]. intros r s1 d' (-> & -> & ->). split; [done|].
    split; [apply extends_refl|]. split; [done|]. by exists x. }
  destruct (proj2 Y2 _ _ Hn) as [Hv Hsync]. set (i := n_index n) in *. set (di := disk_inode (superblock s) d i) in *.
  assert (Hmode : n_mode n = i_mode di) by (by rewrite Hsync). assert (Hsz : n_size n = i_size di) by (by rewrite Hsync).
  destruct (S_ISDIR (n_mode n)) eqn:Edir.
  - pose proof (dt_size _ _ Y4 i Ht) as HS. pose proof (dt_dir _ _ Y4 i Ht) as HD. fold di in HS, HD.
    assert (Hes : entries_at (superblock s) d i = dir_entries di d 0 (n_size n)).
    { unfold entries_at. fold di. by rewrite <- Hmode, Edir, Hsz. }
    eapply fruns_mono.
    { apply (read_children_ok s d a x n); try done; try lia.
      - rewrite Hsz. apply HD. congruence.
      - fold i. fold di. rewrite <- Hes. apply Forall_forall. intros e He. apply (dt_valid _ _ Y4). by eapply it_entry. }
    intros r s1 d' (-> & -> & s0 & ks & G & Y & -> & Hkids & Hnew & Hdom).
    fold i in Hkids. fold di in Hkids. rewrite <- Hes in Hkids.
    assert (Hsup : superblock s0 = superblock s) by apply G.
    assert (HF : Forall2 (kid_is (set_fs_dentries (<[a := load_entry x ks]> (fs_dentries s0)) s0)) ks (reverse (entries_at (superblock s) d i))).
    { eapply Forall2_impl; [exact Hkids|]. intros k e (_ & ia & K1 & K2). eexists _, _. split; [exact K1|].
      split; [apply cname_name_array|]. split; [exact K2|done]. }
    destruct (sync_update s s0 d a x (load_entry x ks) ks HY Ha) as [HE HY1]; try done.
    + intros k z Hk' Hz. apply list_elem_of_lookup in Hk' as [j Hj].
      destruct (Forall2_lookup_l _ _ _ _ _ Hkids Hj) as (e & He & K0 & ia & K1 & K2). rewrite Hz in K1. injection K1 as ->.
      split; [done|]. eexists. split; [exact K2|]. split; [|done]. cbn [n_index inode_of superblock set_fs_dentries].
      rewrite Hsup. apply (it_entry _ _ i); [done|]. apply list_elem_of_lookup_2 in He. by rewrite elem_of_reverse in He.
    + split; [done|]. exists n. cbn [superblock fs_inodes set_fs_dentries]. rewrite Hsup.
      split; [eapply lookup_weaken; [exact Hn|apply G]|]. split; [done|].
      assert (loaded (load_entry x ks) = true) as -> by apply (loaded_set x). fold i.
      change (de_children (load_entry x ks)) with (ks ++ de_children x). rewrite Hk, app_nil_r. exact HF.
    + split; [done|]. split; [done|]. split; [done|]. exists (load_entry x ks). cbn. rewrite lookup_insert_eq.
      split; [done|]. apply (loaded_set x).
  - eapply fruns_mono; [by apply (read_file_ok s d a x n)|]. intros r s1 d' (-> & -> & ->).
    destruct (sync_update s s d a x (set_de_flags (Z.lor (de_flags x) DF_FLAGS_LOAD) x) [] HY Ha) as [HE HY1]; try done.
    + by left.
    + intros k z Hk'. by apply not_elem_of_nil in Hk'.
    + split; [done|]. exists n. split; [done|]. split; [done|]. rewrite loaded_set. cbn [de_children set_de_flags].
      rewrite Hk. cbn [superblock set_fs_dentries]. unfold entries_at. fold i di. rewrite <- Hmode, Edir. constructor.
    + split; [done|]. split; [done|]. split; [done|]. eexists. cbn. rewrite lookup_insert_eq. split; [done|]. apply loaded_set.
Qed.
End Tree.

(** ** Looking up *)
Section Walk.
Context {S : Type} `{BS : BlockStore S}.
Implicit Types (s : fsys S) (d : contents) (U : gset Z) (C : gmap Z Z).

(** Searching the children is searching the entries of the disk. *)
Lemma find_name_entry s ks es name : Forall2 (kid_is s) ks es ->
  match find_name (fs_dentries s) ks name with
  | Some k => exists j, entry_named es name = Some j /\ entry_is s k j
  | None => entry_named es name = None
  end.
Proof.
  induction 1 as [|k e ks es (x & n & Hx & Hm & Hn & Hi) _ IH]; [done|]. cbn [find_name entry_named]. rewrite Hx, Hm.
  case_bool_decide; [|exact IH]. exists (d_ino e). split; [done|]. by exists x, n.
Qed.

(** The result stands for what the disk says. *)
Definition found s (r : Z) (o : option Z) : Prop :=
  match o with None => r = 0 | Some i => r <> 0 /\ entry_is s r i end.
Definition looks s d (o : option Z) (r : Z) s1 (d' : contents) : Prop :=
  d' = d /\ extends s s1 /\ fs_sync s1 d /\ found s1 r o.

Lemma looks_after s s1 d o r s2 d' : extends s s1 -> looks s1 d o r s2 d' -> looks s d o r s2 d'.
Proof. intros HE (-> & HE1 & HY & HF). split; [done|]. split; [by eapply extends_trans|done]. Qed.

Lemma components_head rest : components rest = (if decide (until_slash rest = []) then [] else [until_slash rest]) ++
  match drop (length (until_slash rest)) rest with [] => [] | _ :: r => components r end.
Proof.
  unfold components. rewrite split_slash_head at 1. rewrite filter_cons.
  destruct (decide (until_slash rest = [])) as [E|E].
  - rewrite decide_False by (intros H; by apply H). cbn [app]. by destruct (drop _ rest).
  - rewrite decide_True by done. cbn [app]. f_equal. by destruct (drop _ rest).
Qed.

Lemma lookup_loop_ok d fuel : forall s rest a i, fs_sync s d -> (length rest < fuel)%nat -> Forall (fun c => c <> 0) rest ->
  entry_is s a i ->
  fruns (lookup_loop fuel rest a) s d
    (looks s d (disk_walk (superblock s) d i (match rest with [] => [] | _ :: rest => components rest end))).
Proof.
  induction fuel as [|fuel IH]; intros s rest a i HY Hf Hz Ha; [lia|]. cbn [lookup_loop].
  assert (Hs : is_Some (fs_dentries s !! a)) by (destruct Ha as (x & n & Hx & _); by eexists).
  destruct rest as [|c rest].
  { eapply fruns_step; [by apply read_sync|]. intros r s1 d1 (-> & HE & HY1 & y & Hy & _). cbn beta. apply fruns_ret.
    split; [done|]. split; [done|]. split; [done|]. split; [|by eapply extends_entry].
    apply (es_null s1 d a y). by apply (ts_entries _ _ (fy_tree _ _ HY1)). }
  eapply fruns_step; [by apply read_sync|]. intros r s1 d1 (-> & HE & HY1 & y & Hy & Hl). cbn beta.
  rewrite <- (ex_super _ _ HE). eapply fruns_mono; [|intros ? ? ?; apply (looks_after s s1 d _ _ _ _ HE)]. cbv zeta.
  pose proof (extends_entry _ _ _ _ HE Ha) as Ha1. clear HE Ha Hs HY.
  apply Forall_cons in Hz as [_ Hz]. cbn [length] in Hf. rewrite components_head.
  destruct (until_slash rest) as [|w ws] eqn:Ew.
  - change (Z.of_nat (length []) =? 0) with true. cbn iota. rewrite decide_True by done. cbn [length app]. rewrite drop_0.
    apply IH; [done|lia|done|done].
  - rewrite decide_False by done. destruct (until_slash_prefix rest) as [tl Hr]. rewrite Ew in Hr.
    set (name := w :: ws) in *. assert (Hname : Forall (fun c => c <> 0) name).
    { rewrite Hr in Hz. by apply Forall_app in Hz as [? _]. }
    rewrite (proj2 (Z.eqb_neq (Z.of_nat (length name)) 0)) by (unfold name; cbn [length]; lia).
    cbn [disk_walk app]. destruct (Z.ltb_spec NAME_MAX (Z.of_nat (length name))) as [Hlong|Hshort].
    { apply fruns_ret. split; [done|]. split; [apply extends_refl|]. by split. }
    destruct (ts_entries _ _ (fy_tree _ _ HY1) a y Hy) as [_ (n & Hn & _ & Hkids)]. rewrite Hl in Hkids.
    assert (n_index n = i) as Hi.
    { destruct Ha1 as (x' & n' & Hx' & Hn' & <-). rewrite Hy in Hx'. injection Hx' as <-. congruence. }
    rewrite Hi in Hkids.
    assert (Hsome : forall c, c ∈ de_children y -> is_Some (fs_dentries s1 !! c)).
    { intros k Hk. apply list_elem_of_lookup in Hk as [j Hj].
      destruct (Forall2_lookup_l _ _ _ _ _ Hkids Hj) as (e & _ & x & n' & Hx & _). by eexists. }
    eapply fruns_step; [by apply (get_dentry_ok a y)|]. intros y' s2 d2 (-> & -> & ->). cbn beta.
    eapply fruns_step; [by apply (find_child_ok s1 d)|]. intros o s2 d2 (-> & -> & ->). cbn beta.
    rewrite cname_array by (done || lia). pose proof (find_name_entry s1 _ _ name Hkids) as HF.
    destruct (find_name (fs_dentries s1) (de_children y) name) as [child|].
    + destruct HF as (j & -> & Hj). apply IH; [done| |by apply Forall_drop|done].
      rewrite length_drop. unfold name. cbn [length]. lia.
    + rewrite HF. apply fruns_ret. split; [done|]. split; [apply extends_refl|]. by split.
Qed.

Lemma dentry_lookup_ok s d path : fs_sync s d -> Forall (fun c => c <> 0) path ->
  fruns (dentry_lookup path) s d (looks s d (disk_path (superblock s) d path)).
Proof.
  intros HY Hz. unfold dentry_lookup, disk_path, lookup_dentry.
  assert (Hno : looks s d None 0 s d) by (split; [done|]; split; [apply extends_refl|by split]).
  destruct (_ <=? _); [by apply fruns_ret|]. destruct path as [|c path]; [by apply fruns_ret|].
  destruct (c =? SLASH); [|by apply fruns_ret].
  eapply (fruns_step (gets root_dentry)); [by apply (druns_gets root_dentry s d (fun x d' => x = root_dentry s /\ d' = d))|].
  intros root s1 d1 (-> & -> & ->). cbn beta.
  apply (lookup_loop_ok d _ s (c :: path)); [done|cbn; lia|done|apply (ts_root _ _ (fy_tree _ _ HY))].
Qed.

(** ** The start *)
Lemma dentry_init_ok s d : geometry (superblock s) -> inodes_sync s d -> blocks_ok d -> disk_tree (superblock s) d ->
  fs_dentries s = ∅ ->
  fruns dentry_init s d (fun _ s1 d' => d' = d /\ fs_sync s1 d /\ superblock s1 = superblock s /\
    inode_cache s1 = inode_cache s /\ dentry_cache s1 = dentry_cache s).
Proof.
  intros G Y Hb HD He. unfold dentry_init. pose proof (dt_valid _ _ HD _ (it_root _ _)) as Hv.
  eapply fruns_step; [by apply (inode_get_ok s d ROOT_INODE)|]. intros ia s1 d1 (-> & G1 & Y1 & Hia & Hde). cbn beta.
  eapply fruns_step; [apply alloc_dentry_ok|]. intros a s2 d2 (-> & Ha & Hnone & ->). cbn beta.
  change (0 =? 0) with true. cbn iota. set (x := Dentry _ 0 0 ia a []). rewrite Hde, He. pose proof G1 as [_ _ Hsup _ Hic Hdc].
  intros C L U z Hz. apply runs_modify. set (s3 := set_root_dentry a (set_fs_dentries (<[a := x]> ∅) s1)).
  exists z, s3, d. split; [done|]. split; [by destruct Hz|]. split; [done|]. split; [|split; [exact Hsup|by split]].
  assert (Hroot : entry_is s3 a ROOT_INODE) by (eexists x, _; cbn; rewrite lookup_insert_eq; by rewrite Hia).
  split; [by cbn; rewrite Hsup|exact Y1|done|by cbn; rewrite Hsup|]. split; [|exact Hroot].
  intros b y Hy. cbn in Hy. apply lookup_insert_Some in Hy as [[<- <-]|[_ Hy]]; [|by rewrite lookup_empty in Hy].
  split; [done|]. eexists. split; [exact Hia|]. split; [apply it_root|done].
Qed.
End Walk.

(** ** Properties *)
Section Stores.
Context {S : Type} `{BS : BlockStore S}.
Implicit Types (s : fsys S) (d : contents).

Lemma entry_sync_store s x d a y : entry_sync s d a y -> entry_sync (set_fs_store x s) d a y.
Proof. intros [H1 (n & H2 & H3 & H4)]. split; [done|]. by exists n. Qed.
Lemma fs_sync_store s x d : fs_sync s d -> fs_sync (set_fs_store x s) d.
Proof.
  intros [H1 H2 H3 H4 [H5 H6]]. split; try done. split; [|done]. intros a y Ha. by apply entry_sync_store, H5.
Qed.
Lemma extends_store s s1 x : extends s s1 -> extends s (set_fs_store x s1).
Proof. by intros [H1 H2 H3 H4 H5 H6]. Qed.
(** The inode in memory is that of the disk. *)
Lemma entry_is_inode s d a i : fs_sync s d -> entry_is s a i ->
  exists x, fs_dentries s !! a = Some x /\ fs_inodes s !! de_inode x = Some (inode_of i (disk_inode (superblock s) d i)).
Proof.
  intros HY (x & n & Hx & Hn & <-). exists x. split; [done|]. rewrite Hn. f_equal. apply (proj2 (fy_inodes _ _ HY) _ _ Hn).
Qed.
End Stores.

(** C30: paths are what the disk says they are, from the start on.  [dentry_init]
    on a consistent image makes a tree of one entry that agrees with the disk;
    whichever directories of the tree are loaded (those with [.] and [..] that
    have just been made are not), [dentry_lookup] of a path returns a null pointer
    when the path is too long, does not start with a slash, or names on the disk
    no entry of some directory on its way, and otherwise the entry of the inode
    that the path leads to from the root, component by component (the parts
    between slashes that are not empty), with the inode in memory as it is on the
    disk.  It loads the directories on the way: entries and inodes are added, those
    there were stay, the tree again agrees with the disk, and the disk is not
    changed. *)
Theorem dentry_lookup_correct {S} `{BS : BlockStore S} (s : fsys S) C L U d :
  at_disk s C L U d ->
  (geometry (superblock s) -> inodes_sync s d -> disk_tree (superblock s) d -> fs_dentries s = ∅ ->
   runs dentry_init s (fun _ s' => at_disk s' C L U d /\ fs_sync s' d /\ superblock s' = superblock s)) /\
  (fs_sync s d -> forall path, Forall (fun c => c <> 0) path ->
   runs (dentry_lookup path) s (fun r s' => at_disk s' C L U d /\ fs_sync s' d /\ extends s s' /\
     match disk_path (superblock s) d path with
     | None => r = 0
     | Some i => r <> 0 /\ exists x, fs_dentries s' !! r = Some x /\
         fs_inodes s' !! de_inode x = Some (inode_of i (disk_inode (superblock s) d i))
     end)).
Proof.
  intros Had. split.
  - intros G Y HD He.
    eapply runs_mono; [apply (fruns_runs _ _ _ _ _ _ _ Had (dentry_init_ok s d G Y (at_disk_blocks _ _ _ _ _ Had) HD He))|].
    intros r s' (s1 & d' & -> & Had' & -> & HY & Hsb & _). split; [done|]. split; [by apply fs_sync_store|done].
  - intros HY path Hz.
    eapply runs_mono; [apply (fruns_runs _ _ _ _ _ _ _ Had (dentry_lookup_ok s d path HY Hz))|].
    intros r s' (s1 & d' & -> & Had' & -> & HE & HY1 & HF). split; [done|]. split; [by apply fs_sync_store|].
    split; [by apply extends_store|]. destruct (disk_path _ _ _) as [i|]; [|done]. destruct HF as [H0 Hi]. split; [done|].
    rewrite <- (ex_super _ _ HE). exact (entry_is_inode s1 d r i HY1 Hi).
Qed.

(** The sample file system before [dentry_init]. *)
Definition sample_boot_fs : fsys (blocks bump (gmap Z (list Z))) :=
  Fsys (block_init 1 (Bump 10 0) sample_dir_card) sample_superblock 2 ∅ [] 3 ∅ 0.
Notation sample_dir_contents := (card_block sample_dir_card).
Lemma sample_entries : entries_at sample_superblock sample_dir_contents 1 =
  [Dirent 1 (name_array NAME_MAX [46]); Dirent 1 (name_array NAME_MAX [46; 46]); Dirent 2 (name_array NAME_MAX [97])].
Proof. vm_compute. reflexivity. Qed.
Lemma sample_tree i : in_tree sample_superblock sample_dir_contents i -> i = 1 \/ i = 2.
Proof.
  induction 1 as [|i e _ [-> | ->] He]; [by left| |].
  - rewrite sample_entries in He. rewrite !elem_of_cons in He.
    destruct He as [->|[->|[->|He]]]; [by left|by left|by right|by apply not_elem_of_nil in He].
  - assert (E : entries_at sample_superblock sample_dir_contents 2 = []) by (vm_compute; reflexivity).
    rewrite E in He. by apply not_elem_of_nil in He.
Qed.
Lemma sample_disk_tree : disk_tree sample_superblock sample_dir_contents.
Proof.
  split; intros i [-> | ->]%sample_tree; vm_compute; intuition discriminate.
Qed.

Theorem dentry_lookup_correct_witness :
  runs (let* _ := dentry_init in dentry_lookup [47; 46; 46; 47; 47; 46; 47; 97]) sample_boot_fs
    (fun r s' => r <> 0 /\ exists x n, fs_dentries s' !! r = Some x /\ fs_inodes s' !! de_inode x = Some n /\ n_index n = 2).
Proof.
  assert (Had : at_disk sample_boot_fs sample_caches (fun _ _ => False) ∅ sample_dir_contents).
  { apply sample_objs_ok; [reflexivity|reflexivity|reflexivity| |]; intros a [x Hx]; cbn in Hx; by rewrite lookup_empty in Hx. }
  eapply runs_step.
  - refine (proj1 (dentry_lookup_correct sample_boot_fs sample_caches (fun _ _ => False) ∅ sample_dir_contents Had) _ _ _ _).
    + exact sample_geometry.
    + split; [|by intros a n Hn]. intros a. cbn. rewrite lookup_empty. split; [intros Ha; by apply not_elem_of_nil in Ha|by intros [? ?]].
    + exact sample_disk_tree.
    + reflexivity.
  - intros u s (Had1 & HY & Hsb). cbn beta.
    eapply runs_mono; [refine (proj2 (dentry_lookup_correct s sample_caches (fun _ _ => False) ∅ sample_dir_contents Had1) _ _ _)|].
    + exact HY.
    + repeat constructor; lia.
    + rewrite Hsb. intros r s' (_ & _ & _ & H).
      assert (E : disk_path sample_superblock sample_dir_contents [47; 46; 46; 47; 47; 46; 47; 97] = Some 2) by (vm_compute; reflexivity).
      change (superblock sample_boot_fs) with sample_superblock in H. rewrite E in H. destruct H as (H0 & x & Hx & Hn).
      split; [exact H0|]. eexists x, _. split; [exact Hx|]. split; [exact Hn|reflexivity].
Defined.
