(* ===== verification/FileStore.v ===== *)
(** * The file system as seen by processes

    What elf.c, process.c and syscall.c call of fs.c, dentry.c and inode.c: the
    class [FileOps], which the file system implements, also when its state is
    below that of another component.  [FileLaws] is what the loading of programs
    and the reading of files rely on. *)

From stdpp Require Import base numbers list list_numbers gmap.
From S2P Require Import Prelude Hoare Signal Buddy BuddyProofs KernelMem UserSpace Unix Kernel Block BlockProofs Minix Inode Dentry Fs.

#[local] Open Scope Z_scope.
#[local] Open Scope kernel_scope.

Class FileOps (S : Type) := {
  fo_lookup : list Z -> M S Z;                       (* dentry_lookup *)
  fo_inode_of : Z -> M S Z;                          (* dentry->inode *)
  fo_inode : Z -> M S inode;                         (* *inode *)
  fo_read : Z -> Z -> Z -> M S (Z * list Z);         (* inode_read *)
  fo_write : Z -> Z -> Z -> list Z -> M S Z;         (* inode_write *)
  fo_truncate : Z -> Z -> M S Z;                     (* inode_truncate *)
  fo_create : list Z -> Z -> Z -> M S Z;             (* fs_create *)
  fo_unlink : list Z -> M S Z;                       (* fs_unlink *)
  fo_mkdir : list Z -> Z -> M S Z;                   (* fs_mkdir *)
  fo_rmdir : list Z -> M S Z;                        (* fs_rmdir *)
  fo_lstat64 : list Z -> M S (Z * option stat64);    (* fs_lstat64 *)
  fo_fstat64 : file -> M S (Z * option stat64);      (* fs_fstat64 *)
}.

#[export] Instance fsys_file_ops {S} `{BS : BlockStore S} : FileOps (fsys S) := {|
  fo_lookup := dentry_lookup;
  fo_inode_of d := let* x := get_dentry d in ret (de_inode x);
  fo_inode := get_inode_obj;
  fo_read := inode_read;
  fo_write := inode_write;
  fo_truncate := inode_truncate;
  fo_create := fs_create;
  fo_unlink := fs_unlink;
  fo_mkdir := fs_mkdir;
  fo_rmdir := fs_rmdir;
  fo_lstat64 := fs_lstat64;
  fo_fstat64 := fs_fstat64;
|}.

(** The file system below another component. *)
Definition lifted_file_ops {S T} (get : T -> S) (set : S -> T -> T) (F : FileOps S) : FileOps T := {|
  fo_lookup path := within get set (fo_lookup path);
  fo_inode_of d := within get set (fo_inode_of d);
  fo_inode i := within get set (fo_inode i);
  fo_read i size start := within get set (fo_read i size start);
  fo_write i size start data := within get set (fo_write i size start data);
  fo_truncate i size := within get set (fo_truncate i size);
  fo_create path flags mode := within get set (fo_create path flags mode);
  fo_unlink path := within get set (fo_unlink path);
  fo_mkdir path mode := within get set (fo_mkdir path mode);
  fo_rmdir path := within get set (fo_rmdir path);
  fo_lstat64 path := within get set (fo_lstat64 path);
  fo_fstat64 f := within get set (fo_fstat64 f);
|}.

(** A call that changed an address space, or moved a byte, and returned. *)
Inductive us_step {S} `{KM : KernelMem S} {US : UserSpace S} (s s' : S) : Prop :=
| uss_set_ttb pid r : us_set_ttb pid s = Ok (r, s') -> us_step s s'
| uss_alloc pid addr size r : us_alloc pid addr size s = Ok (r, s') -> us_step s s'
| uss_destroy pid r : us_destroy pid s = Ok (r, s') -> us_step s s'
| uss_load a b : us_load a s = Ok (b, s') -> us_step s s'
| uss_store a v : us_store a v s = Ok (tt, s') -> us_step s s'.

(** The address spaces are as before. *)
Definition us_same {S} `{KM : KernelMem S} {US : UserSpace S} (s s' : S) : Prop :=
  us_current s' = us_current s /\ (forall q x, us_byte s' q x = us_byte s q x) /\ forall q, us_known s' q <-> us_known s q.

(** [n] bytes of [l] from [start] on, as far as there are any. *)
Definition segment_of (l : list Z) (start n : Z) : list Z := take (Z.to_nat n) (drop (Z.to_nat start) l).

(** [fl_path s path]: the file a path leads to, its inode and its bytes;
    [fl_node s d]: the inode object of the entry [d]; [fl_file s i n l]: the inode
    object [i] is [n], its file has the bytes [l].  Looking a path up may load
    directories: it adds entries and inodes and keeps those there are. *)
Class FileLaws (S : Type) `{KM : KernelMem S} {US : UserSpace S} {FO : FileOps S} := {
  fl_path : S -> list Z -> option (inode * list Z);
  fl_node : S -> Z -> option Z;
  fl_file : S -> Z -> inode -> list Z -> Prop;
  fl_same (s s' : S) : Prop :=
    (forall p, fl_path s' p = fl_path s p) /\ (forall d i, fl_node s d = Some i -> fl_node s' d = Some i) /\
    forall i n l, fl_file s i n l -> fl_file s' i n l;
  fl_size : forall s C L U i n l, km_inv s C L U -> fl_file s i n l ->
    n_size n = Z.of_nat (length l) /\ n_size n < 2 ^ 31 /\ Forall is_u8 l;
  fl_lookup_spec : forall s C L U path, km_inv s C L U -> Forall (fun c => c <> 0) path ->
    runs (fo_lookup path) s (fun d s' => km_inv s' C L U /\ us_same s s' /\ fl_same s s' /\
      match fl_path s path with
      | None => d = 0
      | Some (n, l) => d <> 0 /\ exists i, fl_node s' d = Some i /\ fl_file s' i n l
      end);
  fl_node_spec : forall s d i, fl_node s d = Some i -> fo_inode_of d s = Ok (i, s);
  fl_path_u8 : forall s C L U path n l, km_inv s C L U -> fl_path s path = Some (n, l) -> Forall is_u8 l;
  fl_inode_spec : forall s i n l, fl_file s i n l -> fo_inode i s = Ok (n, s);
  fl_read_spec : forall s C L U i n l size start, km_inv s C L U -> fl_file s i n l -> 0 <= size < 2 ^ 31 -> 0 <= start ->
    runs (fo_read i size start) s (fun r s' =>
      r = (Z.of_nat (length (segment_of l start size)), segment_of l start size) /\
      km_inv s' C L U /\ us_same s s' /\ fl_same s s');
  fl_km_step : forall s s', km_step s s' -> fl_same s s';
  fl_us_step : forall s s', us_step s s' -> fl_same s s';
}.

Section Same.
Context {S : Type} `{KM : KernelMem S} {US : UserSpace S} {FO : FileOps S} {FL : FileLaws S}.
Implicit Types (s : S).

Lemma us_same_refl s : us_same s s.
Proof. by split_and!. Qed.
Lemma us_same_trans s1 s2 s3 : us_same s1 s2 -> us_same s2 s3 -> us_same s1 s3.
Proof.
  intros (A1 & A2 & A3) (B1 & B2 & B3). split_and!; [congruence|intros; by rewrite B2|intros; by rewrite B3].
Qed.
Lemma fl_same_refl s : fl_same s s.
Proof. by split_and!. Qed.
Lemma fl_same_trans s1 s2 s3 : fl_same s1 s2 -> fl_same s2 s3 -> fl_same s1 s3.
Proof.
  intros (A1 & A2 & A3) (B1 & B2 & B3). split_and!; [intros; by rewrite B1|intros; by apply B2, A2|intros; by apply B3, A3].
Qed.
Lemma km_step_same s s' : km_step s s' -> us_same s s' /\ fl_same s s'.
Proof. intros H. split; [|by apply fl_km_step]. exact (us_km_step _ _ H). Qed.
End Same.
#[export] Hint Resolve us_same_refl fl_same_refl : core.
