(* ===== verification/FsLaws.v ===== *)
(** * The file system keeps its promises to processes

    The file system over any block store, as the memory of the kernel and as its
    files: allocation goes through the store, and looking up paths and reading
    files is what [FileLaws] asks for, with paths and contents given by the blocks
    on the disk.  The directories may be loaded or not: looking up loads them. *)

From stdpp Require Import base numbers list list_numbers gmap.
From S2P Require Import Prelude Bytes Hoare Signal Buddy BuddyProofs KernelMem UserSpace Unix Kernel CString Block BlockProofs Minix Inode InodeProofs InodeSpecs Dentry Fs DentryProofs Lookup FileStore.

#[local] Open Scope Z_scope.
#[local] Open Scope kernel_scope.

(** ** Memory *)
Section Memory.
Context {S : Type} `{BS : BlockStore S}.
Implicit Types (s : fsys S) (d : contents) (U : gset Z) (C : gmap Z Z) (L : Z -> Z -> Prop).

(** The tree agrees with the disk; the caches of inodes and entries are those of
    the file system alone, and the clients have their objects in their own. *)
Record fs_kept s C C' L d : Prop := {
  fk_sync : fs_sync s d;
  fk_caches : C ⊆ C';
  fk_inodes : C !! inode_cache s = None;
  fk_dentries : C !! dentry_cache s = None;
  fk_clients : forall c a, L c a -> is_Some (C !! c);
}.
Definition fs_ready s C L U : Prop := exists C' d, fs_kept s C C' L d /\ at_disk s C' L U d.

Lemma fs_kept_store s x C C' L d : fs_kept s C C' L d -> fs_kept (set_fs_store x s) C C' L d.
Proof. intros [H1 H2 H3 H4 H5]. split; try done. by apply fs_sync_store. Qed.
Lemma fs_kept_clients s C C' L L' d : (forall c a, L' c a -> is_Some (C !! c)) -> fs_kept s C C' L d -> fs_kept s C C' L' d.
Proof. by intros Hs [H1 H2 H3 H4 H5]. Qed.
(** The clients hold none of the objects of the file system. *)
Lemma fs_apart s C C' L U d c c' a : fs_kept s C C' L d -> at_disk s C' L U d -> own_objs s c a -> ~ L c' a.
Proof.
  intros [H1 H2 H3 H4 H5] Hd Ho HL. destruct (H5 _ _ HL) as [z Hz].
  assert (c = c') as -> by (eapply (bs_unique _ _ _ _ _ c c' a (ad_store _ _ _ _ _ Hd)); [by right|by left]).
  destruct Ho as [[-> _]|[-> _]]; congruence.
Qed.

#[export] Program Instance fsys_kernel_mem : KernelMem (fsys S) := {|
  km_obj_alloc c := store (bs_obj_alloc c);
  km_obj_free c a := store (bs_obj_free c a);
  km_page_alloc size := store (bs_page_alloc size);
  km_page_free i := store (bs_page_free i);
  km_inv := fs_ready;
|}.
Next Obligation.
  intros s C L U c osz (C' & d & HL & Hd) HC. pose proof (lookup_weaken _ _ _ _ HC (fk_caches _ _ _ _ _ HL)) as HC'.
  apply runs_inv. apply runs_within.
  eapply runs_mono; [apply (bs_obj_alloc_spec _ _ _ _ _ _ _ (ad_store _ _ _ _ _ Hd) HC')|]. intros a x (H1 & H2 & H3).
  split; [intros c' H; by apply (H1 c'); left|]. split; [done|]. exists C', d. split.
  - apply fs_kept_store. eapply fs_kept_clients; [|done]. intros c' y [H|[-> ->]]; [by eapply fk_clients|by exists osz].
  - destruct Hd as [_ D2 D3]. split; [|done|done]. eapply bs_ext; [|done|exact H3]. intros c' y. unfold fs_objs. cbn. tauto.
Qed.
Next Obligation.
  intros s C L U c a (C' & d & HL & Hd) Ha. pose proof (ad_store _ _ _ _ _ Hd) as Hs.
  pose proof (bs_obj_free_spec _ _ _ _ _ c a Hs (or_introl Ha)) as Hf.
  pose proof (bs_obj_free_ok _ _ _ _ _ c a Hs (or_introl Ha)) as Hn. unfold runs in Hf. unfold store, within.
  destruct (bs_obj_free c a (fs_store s)) as [[[] x]|[]]; [|done|done|done]. eexists. split; [done|]. exists C', d. split.
  - apply fs_kept_store. eapply fs_kept_clients; [|done]. intros c' y [H _]. by eapply fk_clients.
  - pose proof (fs_apart s C C' L U d) as Hap. destruct Hd as [D1 D2 D3]. split; [|done|done]. eapply bs_ext; [|done|exact Hf].
    intros c' y. unfold fs_objs. cbn.
    split; [tauto|]. intros [[H Hy]|H]; [tauto|]. split; [by right|]. intros ->. eapply (Hap c' c a); [done|done|exact H|done].
Qed.
Next Obligation.
  intros s C L U size k (C' & d & HL & Hd) Hk. pose proof (ad_store _ _ _ _ _ Hd) as Hs.
  pose proof (bs_page_alloc_spec _ _ _ _ _ size k Hs Hk) as Hf. unfold runs in Hf.
  unfold store, within. destruct (bs_page_alloc size (fs_store s)) as [[i x]|[]] eqn:E; [|by left|done|done]. right.
  destruct Hf as [H1 H2]. eexists _, _. split; [done|]. split; [done|]. split; [by apply (bs_page_range _ _ _ _ _ _ _ _ _ Hs Hk E)|].
  exists C', d. split; [by apply fs_kept_store|]. by destruct Hd as [_ D2 D3].
Qed.
Next Obligation.
  intros s C L U size k i s' (C' & d & HL & Hd) Hk. unfold store, within.
  destruct (bs_page_alloc size (fs_store s)) as [[j x]|] eqn:E; [|done]. intros [= -> _].
  by apply (bs_page_range _ _ _ _ _ _ _ _ _ (ad_store _ _ _ _ _ Hd) Hk E).
Qed.
Next Obligation. intros s size Hs. unfold store, within. by rewrite bs_too_big. Qed.
Next Obligation.
  intros s C L U i (C' & d & HL & Hd) Hi. pose proof (ad_store _ _ _ _ _ Hd) as Hs.
  pose proof (bs_page_free_spec _ _ _ _ _ i Hs Hi) as Hf. pose proof (bs_page_free_ok _ _ _ _ _ i Hs Hi) as Hn. unfold runs in Hf.
  unfold store, within. destruct (bs_page_free i (fs_store s)) as [[[] x]|[]]; [|done|done|done]. eexists. split; [done|].
  exists C', d. split; [by apply fs_kept_store|]. by destruct Hd as [_ D2 D3].
Qed.
Next Obligation.
  intros s C L U c c' a (C' & d & HL & Hd) H1 H2. eapply (bs_unique _ _ _ _ _ c c' a (ad_store _ _ _ _ _ Hd)); by left.
Qed.
Next Obligation.
  intros s C L L' U HLL (C' & d & HL & [D1 D2 D3]). exists C', d. split.
  - eapply fs_kept_clients; [|exact HL]. intros c a H. eapply fk_clients; [exact HL|by apply HLL].
  - split; [|done|done]. eapply bs_ext; [|done|exact D1]. intros c x. unfold fs_objs. by rewrite HLL.
Qed.

(** ** Files *)

(** The contents of the files depend on the blocks of the disk only. *)
Lemma file_zone_same x d d' b : same_blocks d d' -> file_zone x d b = file_zone x d' b.
Proof. intros H. unfold file_zone. cbv zeta. rewrite <- !(H (u16 _)) by apply u16_block. done. Qed.
Lemma file_bytes_same x d d' start n : same_blocks d d' -> file_bytes x d start n = file_bytes x d' start n.
Proof.
  intros H. unfold file_bytes. apply list_fmap_ext. intros i p _. unfold file_byte, file_block.
  rewrite <- (file_zone_same x d d') by done. by rewrite (H (file_zone x d _)) by apply file_zone_block.
Qed.
Lemma disk_inode_same sb d d' i : geometry sb -> valid_inode sb i -> same_blocks d d' -> disk_inode sb d i = disk_inode sb d' i.
Proof. intros G Hi H. unfold disk_inode. by rewrite (H (inode_block sb i)) by apply (inode_block_range sb i G Hi). Qed.
Lemma file_bytes_u8 x d start n : blocks_ok d -> Forall is_u8 (file_bytes x d start n).
Proof.
  intros H. apply Forall_fmap, Forall_forall. intros p _. cbn. unfold file_byte.
  destruct (file_block_ok x d (p / BLOCK_SIZE) H) as [Hl Hb]. apply Is_true_true, forallb_True in Hb.
  rewrite Forall_forall in Hb. set (l := file_block x d (p / BLOCK_SIZE)) in *.
  destruct (nth_in_or_default (Z.to_nat (p mod BLOCK_SIZE)) l 0) as [Hi|Hi]; [|rewrite Hi; by unfold is_u8].
  apply list_elem_of_In, Hb, Is_true_true in Hi. unfold byte_ok in Hi. unfold is_u8. lia.
Qed.

(** So do the directories and what paths mean. *)
Lemma entries_at_same sb d d' i : geometry sb -> valid_inode sb i -> same_blocks d d' -> entries_at sb d i = entries_at sb d' i.
Proof.
  intros G Hv H. unfold entries_at, dir_entries. rewrite <- (disk_inode_same sb d d' i) by done.
  destruct (S_ISDIR _); [|done]. cbv zeta. by rewrite (file_bytes_same _ d d').
Qed.
Lemma in_tree_same sb d d' i : geometry sb -> disk_tree sb d -> same_blocks d d' -> in_tree sb d' i -> in_tree sb d i.
Proof.
  intros G HD H. induction 1 as [|i e _ IH He]; [apply it_root|]. apply (it_entry _ _ i); [done|].
  by rewrite (entries_at_same sb d d' i) by (try apply HD; done).
Qed.
Lemma disk_tree_same sb d d' : geometry sb -> disk_tree sb d -> same_blocks d d' -> disk_tree sb d'.
Proof.
  intros G HD H. assert (Hi : forall i, in_tree sb d' i -> in_tree sb d i /\ disk_inode sb d' i = disk_inode sb d i).
  { intros i Hi. pose proof (in_tree_same sb d d' i G HD H Hi) as Hi'. split; [done|].
    symmetry. apply disk_inode_same; [done|by apply HD|done]. }
  split; intros i [Ht E]%Hi; rewrite ?E; [by apply HD|by apply HD|by apply (dt_dir _ _ HD)].
Qed.
Lemma disk_path_same sb d d' path : geometry sb -> disk_tree sb d -> same_blocks d d' -> disk_path sb d path = disk_path sb d' path.
Proof.
  intros G HD H. assert (Hw : forall p i, in_tree sb d i -> disk_walk sb d i p = disk_walk sb d' i p).
  { induction p as [|c p IH]; intros i Hi; [done|]. cbn [disk_walk].
    rewrite <- (entries_at_same sb d d' i) by (try apply HD; done). destruct (_ <? _); [done|].
    destruct (entry_named _ c) as [j|] eqn:E; [|done]. apply IH. apply entry_named_in in E as (e & He & <-).
    apply (it_entry _ _ i); [done|]. by rewrite elem_of_reverse in He. }
  unfold disk_path. destruct (_ <=? _); [done|]. destruct path as [|c path]; [done|]. destruct (c =? SLASH); [|done].
  apply Hw, it_root.
Qed.

(** The bytes of the file [n], and the file a path leads to, as they are on the disk. *)
Definition disk_bytes s (n : inode) : list Z :=
  let d := bs_disk (fs_store s) in file_bytes (disk_inode (superblock s) d (n_index n)) d 0 (n_size n).
Definition disk_file s (path : list Z) : option (inode * list Z) :=
  let d := bs_disk (fs_store s) in
  match disk_path (superblock s) d path with
  | Some i => let n := inode_of i (disk_inode (superblock s) d i) in Some (n, disk_bytes s n)
  | None => None
  end.
Record regular s (i : Z) (n : inode) (l : list Z) : Prop := {
  rg_inode : fs_inodes s !! i = Some n;
  rg_valid : valid_inode (superblock s) (n_index n);
  rg_size : 0 <= n_size n < FILE_LIMIT;
  rg_bytes : l = disk_bytes s n;
  rg_geometry : geometry (superblock s);
}.

(** A change that keeps the blocks; entries and inodes may have been added. *)
Definition same_disk s s' : Prop :=
  let d := bs_disk (fs_store s) in let d' := bs_disk (fs_store s') in
  d' = d \/ (disk_tree (superblock s) d /\ geometry (superblock s) /\ same_blocks d d').
Record same_files s s' : Prop := {
  sf_extends : extends s s';
  sf_disk : same_disk s s';
}.
Lemma same_disk_blocks s s' : same_disk s s' -> same_blocks (bs_disk (fs_store s)) (bs_disk (fs_store s')).
Proof. intros [->|(_ & _ & H)]; [by intros i _|done]. Qed.
Lemma same_files_regular s s' i n l : same_files s s' -> regular s i n l -> regular s' i n l.
Proof.
  intros [HE Hb%same_disk_blocks] [H1 H2 H3 -> H5]. split; rewrite ?(ex_super _ _ HE); try done.
  - eapply lookup_weaken; [exact H1|apply HE].
  - unfold disk_bytes. cbv zeta. rewrite (ex_super _ _ HE). rewrite <- (disk_inode_same (superblock s) _ _ _ H5 H2 Hb).
    by apply file_bytes_same.
Qed.
Lemma same_files_path s s' path : same_files s s' -> disk_file s' path = disk_file s path.
Proof.
  intros [HE Hd]. unfold disk_file, disk_bytes. cbv zeta. rewrite (ex_super _ _ HE).
  destruct Hd as [->|(HD & G & Hb)]; [done|]. rewrite <- (disk_path_same _ _ _ path G HD Hb).
  destruct (disk_path _ _ path) as [i|] eqn:E; [|done]. cbn [n_index n_size inode_of].
  pose proof (dt_valid _ _ HD i (disk_path_tree _ _ _ _ E)) as Hv.
  rewrite <- (disk_inode_same (superblock s) _ _ _ G Hv Hb). by rewrite (file_bytes_same _ _ _ _ _ Hb).
Qed.
Lemma same_files_node s s' a i : same_files s s' -> de_inode <$> fs_dentries s !! a = Some i -> de_inode <$> fs_dentries s' !! a = Some i.
Proof.
  intros [HE _] (x & Hx & ->)%fmap_Some. destruct (ex_dentries _ _ HE a x Hx) as (y & -> & _ & E & _). cbn. by rewrite E.
Qed.
Lemma same_files_store s x : bs_disk x = bs_disk (fs_store s) -> same_files s (set_fs_store x s).
Proof. intros E. split; [apply extends_store, extends_refl|by left]. Qed.
Lemma same_files_refl s : same_files s s.
Proof. split; [apply extends_refl|by left]. Qed.

(** A look-up or a read, with the client's objects kept. *)
Lemma fs_run {A} (m : M (fsys S) A) s C L U (Q : A -> contents -> fsys S -> Prop) : fs_ready s C L U ->
  (forall d, fs_sync s d -> fruns m s d (fun a s1 d' => d' = d /\ extends s s1 /\ fs_sync s1 d /\ Q a d s1)) ->
  runs m s (fun a s' => fs_ready s' C L U /\ same_files s s' /\
    exists d s1, fs_sync s d /\ same_blocks (bs_disk (fs_store s)) d /\ s' = set_fs_store (fs_store s') s1 /\
      same_blocks (bs_disk (fs_store s')) d /\ extends s s1 /\ fs_sync s1 d /\ Q a d s1).
Proof.
  intros (C' & d & HK & Hd) Hm. pose proof (fk_sync _ _ _ _ _ HK) as HY.
  eapply runs_mono; [apply (fruns_runs _ _ _ _ _ _ _ Hd (Hm d HY))|].
  intros a s' (s1 & d' & Es & Hd' & -> & HE & HY1 & HQ).
  assert (B1 : same_blocks (bs_disk (fs_store s)) d) by (intros i Hi; by apply (bs_disk_spec _ _ _ _ _ _ (ad_store _ _ _ _ _ Hd))).
  assert (B2 : same_blocks (bs_disk (fs_store s')) d) by (intros i Hi; by apply (bs_disk_spec _ _ _ _ _ _ (ad_store _ _ _ _ _ Hd'))).
  split; [|split; [|by exists d, s1]].
  - exists C', d. split; [|done]. rewrite Es. apply fs_kept_store. destruct HK as [K1 K2 K3 K4 K5].
    split; try done; [by rewrite (ex_icache _ _ HE)|by rewrite (ex_dcache _ _ HE)].
  - split; [rewrite Es; by apply extends_store|]. right. split; [|split; [apply HY|]].
    + apply (disk_tree_same _ d); [apply HY|apply HY|]. intros i Hi. by rewrite B1.
    + intros i Hi. by rewrite B1, B2.
Qed.
End Memory.

(** ** Below address spaces *)
Section Processes.
Context {S : Type} `{BS : BlockStore S}.
Notation machine := (spaces (fsys S)).
Implicit Types (s : machine).

Definition set_files (x : fsys S) s : machine := Spaces x (sp_bytes s) (sp_ttb s).
#[export] Instance disk_file_ops : FileOps machine := lifted_file_ops sp_mem set_files fsys_file_ops.

(** A computation of the file system that keeps the blocks. *)
Lemma files_run {A} (m : M (fsys S) A) s C L U (Q : A -> contents -> fsys S -> Prop) : km_inv s C L U ->
  (forall d, fs_sync (sp_mem s) d -> fruns m (sp_mem s) d (fun a (x : fsys S) d' => d' = d /\ extends (sp_mem s) x /\ fs_sync x d /\ Q a d x)) ->
  runs (within sp_mem set_files m) s (fun a s' => km_inv s' C L U /\ us_same s s' /\ same_files (sp_mem s) (sp_mem s') /\
    exists d (s1 : fsys S), fs_sync (sp_mem s) d /\ same_blocks (bs_disk (fs_store (sp_mem s))) d /\ sp_mem s' = set_fs_store (fs_store (sp_mem s')) s1 /\
      same_blocks (bs_disk (fs_store (sp_mem s'))) d /\ extends (sp_mem s) s1 /\ fs_sync s1 d /\ Q a d s1).
Proof.
  intros HI Hm. apply runs_within. eapply runs_mono; [apply (fs_run _ _ _ _ _ _ HI Hm)|]. intros a x (H1 & H2 & H3).
  split; [exact H1|]. split; [by split_and!|]. by split.
Qed.

Lemma segment_bytes x d n start size : 0 <= n -> 0 <= start -> 0 <= size ->
  segment_of (file_bytes x d 0 n) start size = file_bytes x d start (read_size n start size).
Proof.
  intros Hn Hst Hs. unfold segment_of, read_size.
  destruct (Z.le_gt_cases n start).
  - rewrite drop_ge by (rewrite file_bytes_length; lia). rewrite take_nil. rewrite Z.max_l by lia. done.
  - rewrite Z.max_r by lia. replace n with (start + (Z.min size (n - start) + (n - start - Z.min size (n - start)))) at 1 by lia.
    rewrite !file_bytes_app by lia. rewrite Z.add_0_l, drop_app_length' by (rewrite file_bytes_length; lia).
    destruct (Z.le_gt_cases size (n - start)).
    + rewrite Z.min_l by lia. by rewrite take_app_length' by (rewrite file_bytes_length; lia).
    + rewrite Z.min_r by lia. rewrite Z.sub_diag. unfold file_bytes at 2. rewrite seqZ_nil by lia. rewrite app_nil_r.
      apply take_ge. rewrite file_bytes_length. lia.
Qed.

Lemma same_files_laws (x x' : fsys S) : same_files x x' ->
  (forall p, disk_file x' p = disk_file x p) /\
  (forall a i, de_inode <$> fs_dentries x !! a = Some i -> de_inode <$> fs_dentries x' !! a = Some i) /\
  forall i n l, regular x i n l -> regular x' i n l.
Proof.
  intros H. split; [|split].
  - intros p. by apply same_files_path.
  - intros a i. by apply same_files_node.
  - intros i n l. by apply same_files_regular.
Qed.
Lemma store_same {A} (m : M S A) (x x' : fsys S) a :
  (forall t t' b, m t = Ok (b, t') -> bs_disk t' = bs_disk t) -> store m x = Ok (a, x') -> same_files x x'.
Proof.
  intros Hm. unfold store, within. destruct (m (fs_store x)) as [[b t]|] eqn:E; [|done]. intros [= _ <-].
  by apply same_files_store, (Hm _ _ _ E).
Qed.
Lemma ready_blocks s C L U : km_inv s C L U -> blocks_ok (bs_disk (fs_store (sp_mem s))).
Proof.
  intros (C' & d & _ & Hd) j Hj. rewrite (bs_disk_spec _ _ _ _ _ _ (ad_store _ _ _ _ _ Hd) Hj).
  apply (bs_length _ _ _ _ _ _ (ad_store _ _ _ _ _ Hd) Hj).
Qed.

(** The file a path leads to is the one that looking it up finds. *)
Lemma found_file (s s1 : fsys S) (t : S) d r path : fs_sync s d -> same_blocks (bs_disk (fs_store s)) d -> extends s s1 -> fs_sync s1 d ->
  found s1 r (disk_path (superblock s) d path) ->
  let s' : fsys S := set_fs_store t s1 in same_blocks (bs_disk t) d ->
  match disk_file s path with
  | None => r = 0
  | Some (n, l) => r <> 0 /\ exists i, de_inode <$> fs_dentries s' !! r = Some i /\ regular s' i n l
  end.
Proof.
  intros HY B HE HY1 HF s' B'. unfold disk_file. cbv zeta. pose proof (fy_geometry _ _ HY) as G.
  assert (HD : disk_tree (superblock s) (bs_disk (fs_store s))).
  { apply (disk_tree_same _ d); [done|apply HY|]. intros i Hi. by rewrite B. }
  rewrite (disk_path_same _ _ _ path G HD B). destruct (disk_path _ d path) as [i|] eqn:E; [|exact HF].
  destruct HF as [H0 Hi]. split; [done|]. destruct (entry_is_inode _ _ _ _ HY1 Hi) as (x & Hx & Hn).
  pose proof (disk_path_tree _ _ _ _ E) as Ht. pose proof (dt_valid _ _ (fy_disk _ _ HY) i Ht) as Hv.
  rewrite (ex_super _ _ HE) in Hn. rewrite (disk_inode_same _ _ d i G Hv B).
  exists (de_inode x). unfold s'. cbn [fs_dentries set_fs_store]. rewrite Hx. split; [done|].
  unfold disk_bytes. cbv zeta. cbn [n_index n_size inode_of]. rewrite (disk_inode_same _ _ d i G Hv B).
  split; cbn [fs_inodes set_fs_store superblock n_index n_size inode_of]; rewrite ?(ex_super _ _ HE); try done.
  - by apply (dt_size _ _ (fy_disk _ _ HY)).
  - unfold disk_bytes. cbv zeta. cbn [fs_store superblock set_fs_store n_index n_size inode_of]. rewrite (ex_super _ _ HE).
    rewrite (disk_inode_same _ _ d i G Hv B'). apply file_bytes_same. intros j Hj. by rewrite B, B'.
Qed.

#[export] Program Instance disk_file_laws : FileLaws machine := {|
  fl_path s path := disk_file (sp_mem s) path;
  fl_node s a := de_inode <$> fs_dentries (sp_mem s) !! a;
  fl_file s i n l := regular (sp_mem s) i n l;
|}.
Next Obligation.
  intros s C L U i n l HI [H1 H2 H3 -> H5]. unfold disk_bytes. rewrite file_bytes_length. unfold FILE_LIMIT, BLOCK_SIZE in H3.
  split; [lia|]. split; [lia|]. apply file_bytes_u8. by eapply ready_blocks.
Qed.
Next Obligation.
  intros s C L U path HI Hp. cbn [fo_lookup disk_file_ops lifted_file_ops fsys_file_ops].
  eapply runs_mono; [apply (files_run _ s C L U (fun r d (x : fsys S) => found x r (disk_path (superblock (sp_mem s)) d path)) HI)|].
  - intros d Hd. apply (dentry_lookup_ok _ d path Hd Hp).
  - intros a s' (H1 & H2 & H3 & d & s1 & HY & B & Es & B' & HE & HY1 & HF). split; [done|]. split; [done|].
    split; [by apply same_files_laws|]. rewrite Es. by eapply (found_file (sp_mem s) s1 (fs_store (sp_mem s')) d a path).
Qed.
Next Obligation.
  intros s a i Ha. apply fmap_Some in Ha as (x & Hx & ->). cbn. unfold within, get_dentry, bind, gets. cbn. rewrite Hx. by destruct s.
Qed.
Next Obligation.
  intros s C L U path n l HI. cbn beta. unfold disk_file. cbv zeta. destruct (disk_path _ _ path); [|done]. intros [= _ <-].
  apply file_bytes_u8. by eapply ready_blocks.
Qed.
Next Obligation.
  intros s i n l [H1 _ _ _ _]. cbn. unfold within, get_inode_obj, bind, gets. cbn. rewrite H1. by destruct s.
Qed.
Next Obligation.
  intros s C L U i n l size start HI Hf Hs Hst. cbn [fo_read disk_file_ops lifted_file_ops fsys_file_ops].
  destruct Hf as [F1 F2 F3 -> F5]. set (r := segment_of (disk_bytes (sp_mem s) n) start size).
  eapply runs_mono; [apply (files_run _ s C L U (fun x d _ => same_blocks (bs_disk (fs_store (sp_mem s))) d -> x = (Z.of_nat (length r), r)) HI)|].
  - intros d HY C1 L1 U1 x Hx. pose proof (fy_blocks _ _ HY) as Hb.
    eapply runs_mono; [apply (inode_read_ok (sp_mem s) d i n size start F5 F1 F2 Hb); [lia|lia|unfold FILE_LIMIT, BLOCK_SIZE in F3; lia|lia|exact Hx]|].
    intros y s' (x' & s1 & d' & E & H1 & -> & -> & ->). exists x', (sp_mem s), d. split; [done|]. split; [done|].
    split; [done|]. split; [apply extends_refl|]. split; [done|]. intros Hsame.
    assert (Er : r = file_bytes (disk_inode (superblock (sp_mem s)) d (n_index n)) d start (read_size (n_size n) start size)).
    { unfold r, disk_bytes. cbv zeta. rewrite segment_bytes by lia. rewrite (disk_inode_same _ _ _ _ F5 F2 Hsame). by apply file_bytes_same. }
    rewrite Er, file_bytes_length. f_equal. unfold read_size. lia.
  - intros a s' (H1 & H2 & H3 & d & s1 & _ & B & _ & _ & _ & _ & HF). split; [by apply HF|]. split; [done|]. split; [done|]. by apply same_files_laws.
Qed.
Next Obligation.
  intros s s' Hs. apply same_files_laws.
  assert (Hm : forall A (m : M (fsys S) A) a, (forall x x' b, m x = Ok (b, x') -> same_files x x') -> on_mem m s = Ok (a, s') ->
    same_files (sp_mem s) (sp_mem s')).
  { intros A m a Hx. unfold on_mem. destruct (m (sp_mem s)) as [[b x]|] eqn:E; [|done]. intros [= _ <-]. by eapply Hx. }
  destruct Hs as [c a E|c a E|size i E|i E]; (eapply Hm; [|exact E]); intros x x' b; apply store_same; intros t t' y Ey.
  - by eapply bs_obj_alloc_disk.
  - destruct y. by eapply bs_obj_free_disk.
  - by eapply bs_page_alloc_disk.
  - destruct y. by eapply bs_page_free_disk.
Qed.
Next Obligation.
  intros s s' Hs. apply same_files_laws. assert (sp_mem s' = sp_mem s) as ->; [|apply same_files_refl].
  destruct Hs as [pid r E|pid addr size r E|pid r E|a b E|a v E]; cbn in E.
  - by injection E as _ <-.
  - by injection E as _ <-.
  - by injection E as _ <-.
  - destruct (sp_byte s (sp_ttb s) a); [|done]. by injection E as _ <-.
  - by injection E as <-.
Qed.
End Processes.
