(* ===== verification/TtySpecs.v ===== *)
(** * tty.c: properties

    What the terminal sends and stores, over any number of sleeps, on any memory,
    address spaces and serial port that keep their promises and do not disturb
    each other ([TerminalLaws]). *)

From stdpp Require Import base numbers list gmap.
From S2P Require Import Prelude Bytes Hoare Signal Buddy BuddyProofs KernelMem Unix UserSpace Devices Uart Kernel Pipe PipeProofs PipeSpecs Files FilesProofs Block BlockProofs Minix Inode Dentry Fs FileStore Tty.

#[local] Open Scope Z_scope.
#[local] Open Scope kernel_scope.

(** An access to a register of the port. *)
Inductive uart_step {S} {IO : Mmio S} (s s' : S) : Prop :=
| us_flags v : io_read32 (uart_register UARTFR) s = Ok (v, s') -> uart_step s s'
| us_mask v : io_read32 (uart_register UARTIMSC) s = Ok (v, s') -> uart_step s s'
| us_set_mask v : io_write32 (uart_register UARTIMSC) v s = Ok (tt, s') -> uart_step s s'
| us_data v : io_read32 UART0 s = Ok (v, s') -> uart_step s s'
| us_send v : io_write32 UART0 v s = Ok (tt, s') -> uart_step s s'.

(** Memory, address spaces and the port are apart. *)
Class TerminalLaws (S : Type) `{KM : KernelMem S} {US : UserSpace S} {IO : Mmio S} {UL : UartLaws S} := {
  tl_km_step : forall s s', km_step s s' -> uart_same s s';
  tl_us_step : forall s s', us_step s s' -> uart_same s s';
  tl_uart_step : forall s s', uart_step s s' -> us_same s s' /\ forall C L U, km_inv s C L U -> km_inv s' C L U;
}.

(** Computations that only access the port. *)
Section UartOnly.
Context {S : Type} {IO : Mmio S}.

Definition uart_only {A} (m : M S A) : Prop := forall s a s', m s = Ok (a, s') -> rtc uart_step s s'.

Lemma uart_only_ret {A} (a : A) : uart_only (ret a).
Proof. intros s b s' [= _ <-]. done. Qed.
Lemma uart_only_bind {A B} (m : M S A) (f : A -> M S B) : uart_only m -> (forall a, uart_only (f a)) -> uart_only (bind m f).
Proof. intros Hm Hf s b s'' (a & s' & E1 & E2)%bind_inv. etrans; [by eapply Hm|by eapply Hf]. Qed.
Lemma uart_only_flags : uart_only (io_read32 (uart_register UARTFR)).
Proof. intros s v s' E. by eapply rtc_once, us_flags. Qed.
Lemma uart_only_mask : uart_only (io_read32 (uart_register UARTIMSC)).
Proof. intros s v s' E. by eapply rtc_once, us_mask. Qed.
Lemma uart_only_set_mask v : uart_only (io_write32 (uart_register UARTIMSC) v).
Proof. intros s [] s' E. by eapply rtc_once, us_set_mask. Qed.
Lemma uart_only_data : uart_only (io_read32 UART0).
Proof. intros s v s' E. by eapply rtc_once, us_data. Qed.
Lemma uart_only_send v : uart_only (io_write32 UART0 v).
Proof. intros s [] s' E. by eapply rtc_once, us_send. Qed.
End UartOnly.
Create HintDb uart_only.
#[export] Hint Resolve uart_only_ret uart_only_bind uart_only_flags uart_only_mask uart_only_set_mask uart_only_data uart_only_send : uart_only.

Section UartFunctions.
Context {S : Type} {IO : Mmio S}.

Lemma uart_only_can_send : uart_only uart_can_send.
Proof. unfold uart_can_send. auto with uart_only. Qed.
Lemma uart_only_can_recv : uart_only uart_can_recv.
Proof. unfold uart_can_recv. auto with uart_only. Qed.
Lemma uart_only_poll n ready : uart_only ready -> uart_only (poll n ready).
Proof.
  intros H. induction n as [|n IH]; [by intros s a s' [=]|]. cbn [poll]. apply uart_only_bind; [done|]. intros []; auto with uart_only.
Qed.
Lemma uart_only_set_interrupt flags : flags = O_RDONLY \/ flags = O_WRONLY -> uart_only (uart_set_interrupt flags).
Proof. intros [->| ->]; apply uart_only_bind; auto with uart_only. Qed.
Lemma uart_only_clear_interrupt flags : flags = O_RDONLY \/ flags = O_WRONLY -> uart_only (uart_clear_interrupt flags).
Proof. intros [->| ->]; apply uart_only_bind; auto with uart_only. Qed.
Lemma uart_only_putc n c : uart_only (uart_putc n c).
Proof.
  assert (Hs : forall c, uart_only (uart_send n c)).
  { intros x. apply uart_only_bind; [apply uart_only_poll, uart_only_can_send|auto with uart_only]. }
  unfold uart_putc. apply uart_only_bind; [destruct (c =? 10); auto with uart_only|auto].
Qed.
Lemma uart_only_getc n : uart_only (uart_getc n).
Proof.
  apply uart_only_bind; [|auto with uart_only]. apply uart_only_bind; [apply uart_only_poll, uart_only_can_recv|auto with uart_only].
Qed.
End UartFunctions.

Lemma set_k_mem_id {S} (k : kernel S) : set_k_mem (k_mem k) k = k.
Proof. by destruct k. Qed.

(** Computations on the kernel that change its memory by allocation only. *)
Section MemOnly.
Context {S : Type} `{KM : KernelMem S}.
Notation state := (kernel S).

Definition mem_only {A} (m : M state A) : Prop := forall k a k', m k = Ok (a, k') -> rtc km_step (k_mem k) (k_mem k').
Lemma mem_only_same {A} (m : M state A) : (forall k a k', m k = Ok (a, k') -> k_mem k' = k_mem k) -> mem_only m.
Proof. intros H k a k' E. by rewrite (H _ _ _ E). Qed.
Lemma mem_only_bind {A B} (m : M state A) (f : A -> M state B) : mem_only m -> (forall a, mem_only (f a)) -> mem_only (bind m f).
Proof. intros Hm Hf k b k'' (a & k' & E1 & E2)%bind_inv. etrans; [by eapply Hm|by eapply Hf]. Qed.
Lemma mem_only_kmem {A} (m : M S A) : (forall s a s', m s = Ok (a, s') -> km_step s s') -> mem_only (kmem m).
Proof.
  intros H k a k'. unfold kmem. destruct (m (k_mem k)) as [[b s]|] eqn:E; [|done]. intros [= -> <-]. cbn [k_mem set_k_mem].
  by eapply rtc_once, H.
Qed.
Lemma mem_only_gets {A} (f : state -> A) : mem_only (gets f).
Proof. apply mem_only_same. by intros k a k' [= _ <-]. Qed.
Lemma mem_only_ret {A} (a : A) : mem_only (ret a).
Proof. apply mem_only_same. by intros k b k' [= _ <-]. Qed.
Lemma mem_only_opt {A} (o : option A) r : mem_only (opt r o).
Proof. apply mem_only_same. destruct o; intros k b k'; [by intros [= _ <-]|done]. Qed.
Lemma mem_only_modify (f : state -> state) : (forall k, k_mem (f k) = k_mem k) -> mem_only (modify f).
Proof. intros H. apply mem_only_same. intros k a k' [= _ <-]. apply H. Qed.
Ltac mem_only := repeat first
  [ apply mem_only_gets | apply mem_only_ret | apply mem_only_opt | by apply mem_only_modify | assumption
  | apply mem_only_bind; [|intro] ].
Lemma mem_only_upd_proc p g : mem_only (upd_proc p g).
Proof. unfold upd_proc, get_proc. mem_only. Qed.
Lemma mem_only_get_waitq q : mem_only (get_waitq q).
Proof. destruct q; cbn [get_waitq]; unfold get_pipe; mem_only. Qed.
Lemma mem_only_put_waitq q l : mem_only (put_waitq q l).
Proof. destruct q; cbn [put_waitq]; unfold upd_pipe, get_pipe; mem_only. Qed.

Lemma sleep_mem q : mem_only (process_sleep q).
Proof.
  assert (Ha : forall c, mem_only (kmem (km_obj_alloc c))).
  { intros c. apply mem_only_kmem. intros s a s' E. by eapply ks_obj_alloc. }
  unfold process_sleep, cache_of.
  repeat first [apply mem_only_gets | apply Ha | apply mem_only_upd_proc | apply mem_only_get_waitq | apply mem_only_put_waitq | apply mem_only_bind; [|intro]].
Qed.
Lemma wake_mem q : mem_only (process_wake q).
Proof.
  unfold process_wake, cache_of. apply mem_only_bind; [apply mem_only_get_waitq|]. intros [|[e p] l]; [apply mem_only_ret|].
  assert (Hf : forall c, mem_only (kmem (km_obj_free c e))).
  { intros c. apply mem_only_kmem. intros s [] s' E. by eapply ks_obj_free. }
  repeat first [apply mem_only_gets | apply mem_only_ret | apply Hf | apply mem_only_upd_proc | apply mem_only_put_waitq | apply mem_only_bind; [|intro]].
Qed.
End MemOnly.

Section TtySpecs.
Context {S : Type} `{KM : KernelMem S} {US : UserSpace S} {IO : Mmio S} {UL : UartLaws S} {TL : TerminalLaws S}.
Context (polls : nat) (Hpolls : (uart_slow < polls)%nat).
Notation state := (kernel S).
Implicit Types (s : S) (k : state) (C : gmap Z Z) (L : Z -> Z -> Prop) (U : gset Z) (E : gmap Z waitq).

Lemma uart_same_refl s : uart_same s s.
Proof. by split_and!. Qed.
Lemma uart_same_trans s1 s2 s3 : uart_same s1 s2 -> uart_same s2 s3 -> uart_same s1 s3.
Proof. intros (A1 & A2 & A3) (B1 & B2 & B3). split_and!; congruence. Qed.

Lemma km_steps_same s s' : rtc km_step s s' -> us_same s s' /\ uart_same s s'.
Proof.
  induction 1 as [s|s s1 s' H _ [IH1 IH2]]; [split; [apply us_same_refl|apply uart_same_refl]|].
  split; [eapply us_same_trans; [exact (us_km_step _ _ H)|done]|eapply uart_same_trans; [by apply tl_km_step|done]].
Qed.
Lemma uart_steps_same s s' C L U : rtc uart_step s s' -> km_inv s C L U -> us_same s s' /\ km_inv s' C L U.
Proof.
  induction 1 as [s|s s1 s' H _ IH]; intros HI; [split; [apply us_same_refl|done]|].
  destruct (tl_uart_step _ _ H) as [Hs Hk]. destruct (IH (Hk _ _ _ HI)) as [IH1 IH2]. split; [by eapply us_same_trans|done].
Qed.

(** The state of the terminal between two steps. *)
Record tty_ok k C L U E : Prop := {
  ty_inv : pipes_inv k C L U E;
  ty_busy : (uart_busy (k_mem k) <= uart_slow)%nat;
}.
(** An access to the port. *)
Lemma port_ok {A} (m : M S A) k C L U E a s : tty_ok k C L U E -> uart_only m -> m (k_mem k) = Ok (a, s) ->
  (uart_busy s <= uart_slow)%nat -> kmem m k = Ok (a, set_k_mem s k) /\ tty_ok (set_k_mem s k) C L U E /\ us_same (k_mem k) s.
Proof.
  intros [HI _] Hm Em Hb. destruct (uart_steps_same _ _ _ _ _ (Hm _ _ _ Em) (pi_mem _ _ _ _ _ HI)) as [Hs Hk].
  split; [by apply kmem_ok|]. split; [|done]. split; [|done]. by eapply pipes_inv_mem.
Qed.

(** The running process sleeps on [q]. *)
Definition sleeps_on q k k' : Prop :=
  exists e l x, waitq_of k q = Some l /\ waitq_of k' q = Some ((e, current_process k) :: l) /\
    k_procs k' !! current_process k = Some x /\ p_state x = STATE_BLOCKED.

Lemma sleep_ok k C L U E q : tty_ok k C L U E -> is_Some (waitq_of k q) ->
  runs (process_sleep q) k (fun _ k' => (exists L' E', tty_ok k' C L' U E') /\ sleeps_on q k k' /\
    us_same (k_mem k) (k_mem k') /\ uart_same (k_mem k) (k_mem k') /\ current_process k' = current_process k).
Proof.
  intros [HI Hb] [l Hq]. destruct (process_sleep_pipe _ _ _ _ _ _ _ HI Hq) as [Eh|(k' & L' & E' & e & Ek & HI' & Hev & _ & _ & (x & Hx & Hst) & _)];
    [unfold runs; by rewrite Eh|].
  eapply runs_ok; [exact Ek|]. destruct (km_steps_same _ _ (sleep_mem _ _ _ _ Ek)) as [Hs Hu].
  split_and!; try done.
  - exists L', E'. split; [done|]. destruct Hu as (_ & _ & ->). done.
  - destruct (process_sleep_run _ _ _ _ _ _ _ HI Hq) as [Eh|(e2 & sp & y & m & Ek2 & Hy & _)]; [congruence|].
    rewrite Ek2 in Ek. injection Ek as <-. exists e2, l, x. split_and!; try done.
    pose proof (waitq_of_with (set_k_mem m k) q q ((e2, current_process k) :: l)) as Hw.
    rewrite decide_True in Hw by done. rewrite <- Hw; [by apply waitq_of_ext|].
    exists l. rewrite <- Hq. by apply waitq_of_ext.
  - exact (ev_current _ _ _ _ Hev).
Qed.

Lemma wake_ok k C L U E q : tty_ok k C L U E -> is_Some (waitq_of k q) ->
  exists r k' L' E', process_wake q k = Ok (r, k') /\ tty_ok k' C L' U E' /\
    us_same (k_mem k) (k_mem k') /\ uart_same (k_mem k) (k_mem k') /\ current_process k' = current_process k.
Proof.
  intros [HI Hb] [l Hq]. destruct (process_wake_pipe _ _ _ _ _ _ _ HI Hq) as (r & k' & L' & E' & Ek & HI' & _ & _ & Hk' & _).
  destruct (km_steps_same _ _ (wake_mem _ _ _ _ Ek)) as [Hs Hu]. exists r, k', L', E'. split; [done|]. split.
  - split; [done|]. destruct Hu as (_ & _ & ->). done.
  - split_and!; try done. rewrite Hk'. by destruct (with_waitq_fields q (tail l) (set_k_mem (k_mem k') (set_k_procs (k_procs k') k))) as (_ & _ & _ & _ & _ & _ & ->).
Qed.
Lemma wake_next_ok k C L U E : tty_ok k C L U E ->
  exists k' L' E', wake_next k = Ok (tt, k') /\ tty_ok k' C L' U E' /\
    us_same (k_mem k) (k_mem k') /\ uart_same (k_mem k) (k_mem k').
Proof.
  intros HT. destruct (wake_ok k C L U E TtyReadWaitq HT ltac:(by eexists)) as (r1 & k1 & L1 & E1 & Ek1 & HT1 & Hs1 & Hu1 & _).
  destruct (wake_ok k1 C L1 U E1 TtyWriteWaitq HT1 ltac:(by eexists)) as (r2 & k2 & L2 & E2 & Ek2 & HT2 & Hs2 & Hu2 & _).
  exists k2, L2, E2. split; [unfold wake_next; mrun Ek1; by mrun Ek2|]. split; [done|].
  split; [by eapply us_same_trans|by eapply uart_same_trans].
Qed.

(** ** Writing *)

(** Setting or clearing the interrupt of a direction. *)
Lemma interrupt_step k C L U E (m : M S unit) : tty_ok k C L U E -> uart_only m ->
  (exists s, m (k_mem k) = Ok (tt, s) /\ uart_same (k_mem k) s) ->
  exists s, kmem m k = Ok (tt, set_k_mem s k) /\ tty_ok (set_k_mem s k) C L U E /\ us_same (k_mem k) s /\ uart_same (k_mem k) s.
Proof.
  intros HT Hm (s & Es & Hu). exists s. pose proof (ty_busy _ _ _ _ _ HT). destruct Hu as (U1 & U2 & U3).
  destruct (port_ok m k C L U E tt s HT Hm Es ltac:(lia)) as (H1 & H2 & H3). split_and!; done.
Qed.

(** The interrupt is cleared after a sleep. *)
Lemma resumed_ok (resumed : bool) flags k C L U E : tty_ok k C L U E -> flags = O_RDONLY \/ flags = O_WRONLY ->
  exists s, (if resumed then kmem (uart_clear_interrupt flags) else ret tt) k = Ok (tt, set_k_mem s k) /\
    tty_ok (set_k_mem s k) C L U E /\ us_same (k_mem k) s /\ uart_same (k_mem k) s.
Proof.
  intros HT Hf. destruct resumed.
  - apply interrupt_step; [done|by apply uart_only_clear_interrupt|by apply interrupt_ok].
  - exists (k_mem k). rewrite set_k_mem_id. split_and!; try done; apply HT.
Qed.

(** One character: sent, or the process sleeps. *)
Lemma tty_putc_ok resumed c k C L U E : tty_ok k C L U E ->
  runs (tty_putc polls resumed c) k (fun sent k' =>
    (exists L' E', tty_ok k' C L' U E') /\ us_same (k_mem k) (k_mem k') /\ uart_pending (k_mem k') = uart_pending (k_mem k) /\
    current_process k' = current_process k /\
    if sent then uart_sent (k_mem k') = uart_sent (k_mem k) ++ wire c
    else uart_sent (k_mem k') = uart_sent (k_mem k) /\ sleeps_on TtyWriteWaitq k k').
Proof.
  intros HT. unfold tty_putc. apply runs_bind.
  destruct (resumed_ok resumed O_WRONLY k C L U E HT ltac:(auto)) as (s1 & E1 & HT1 & Hs1 & Hu1). eapply runs_ok; [exact E1|]. clear E1.
  assert (Hp1 : uart_pending s1 = uart_pending (k_mem k) /\ uart_sent s1 = uart_sent (k_mem k)) by (destruct Hu1 as (? & ? & ?); done).
  destruct (can_send_ok s1) as (s2 & E2 & G1 & G2 & G3). pose proof (ty_busy _ _ _ _ _ HT1) as Hb1. cbn [k_mem set_k_mem] in Hb1.
  destruct (port_ok _ _ _ _ _ _ _ s2 HT1 uart_only_can_send E2 ltac:(lia)) as (Ek2 & HT2 & Hs2). cbn [k_mem set_k_mem] in *.
  eapply runs_bind_ok; [exact Ek2|]. change (set_k_mem s2 (set_k_mem s1 k)) with (set_k_mem s2 k) in *.
  assert (Hs02 : us_same (k_mem k) s2) by by eapply us_same_trans. case_bool_decide as H0.
  - destruct (putc_ok polls Hpolls s2 c) as (s3 & E3 & K1 & K2 & K3); [lia|].
    destruct (port_ok _ _ _ _ _ _ _ s3 HT2 (uart_only_putc polls c) E3 K3) as (Ek3 & HT3 & Hs3).
    eapply runs_bind_ok; [exact Ek3|]. apply runs_ret. cbn [k_mem set_k_mem current_process] in *. split_and!.
    + by exists L, E.
    + by eapply us_same_trans.
    + destruct Hp1. congruence.
    + done.
    + destruct Hp1. congruence.
  - destruct (interrupt_step (set_k_mem s2 k) C L U E (uart_set_interrupt O_WRONLY)) as (s3 & Ek3 & HT3 & Hs3 & Hu3); [done| | |].
    { apply uart_only_set_interrupt. by right. }
    { apply interrupt_ok. by right. }
    cbn [k_mem set_k_mem] in *. eapply runs_bind_ok; [exact Ek3|].
    eapply runs_step; [apply (sleep_ok _ _ _ _ _ TtyWriteWaitq HT3); by eexists|].
    intros [] k4 (HT4 & Hsl & Hs4 & Hu4 & Hc4). apply runs_ret. cbn [k_mem set_k_mem current_process] in *.
    destruct Hp1, Hu3 as (? & ? & ?), Hu4 as (? & ? & ?). split_and!; try done; try congruence.
    do 2 (eapply us_same_trans; [|done]). done.
Qed.

(** The running process is blocked, and first in the queue [q]. *)
Definition asleep q k : Prop :=
  exists e l x, waitq_of k q = Some ((e, current_process k) :: l) /\
    k_procs k !! current_process k = Some x /\ p_state x = STATE_BLOCKED.
Lemma sleeps_asleep q k k' : current_process k' = current_process k -> sleeps_on q k k' -> asleep q k'.
Proof. intros Hc (e & l & x & _ & H1 & H2 & H3). exists e, l, x. by rewrite Hc. Qed.

Section Write.
Context (C : gmap Z Z) (U : gset Z) (data : Z) (l : list Z) (Hdata : 0 <= data) (Hend : data + Z.of_nat (length l) <= 2 ^ 32).

(** [tty_write] from the [i]th character on: it is done and has sent the rest, or
    it sleeps with the [j]th one and has sent those before it. *)
Definition tty_write_post k (i : nat) (r : Z + Z * Z) k' : Prop :=
  (exists L' E', tty_ok k' C L' U E') /\ us_same (k_mem k) (k_mem k') /\ uart_pending (k_mem k') = uart_pending (k_mem k) /\
  match r with
  | inl m => m = Z.of_nat (length l) /\ uart_sent (k_mem k') = uart_sent (k_mem k) ++ wires (drop i l)
  | inr (j, c) => exists n, j = Z.of_nat n /\ (i <= n)%nat /\ l !! n = Some c /\
      uart_sent (k_mem k') = uart_sent (k_mem k) ++ wires (take (n - i) (drop i l)) /\ asleep TtyWriteWaitq k'
  end.

Lemma us_same_bytes s s' a x : us_same s s' -> bytes_at s a x -> bytes_at s' a x.
Proof. intros (A1 & A2 & _) H i b Hi. rewrite A1, A2. by apply H. Qed.
Lemma wires_cons c x : wires (c :: x) = wire c ++ wires x.
Proof. reflexivity. Qed.

Lemma tty_write_loop_ok n : forall k L E at_, tty_ok k C L U E -> bytes_at (k_mem k) data l -> (n <= length l)%nat ->
  (forall c, at_ = Some c -> l !! (length l - n)%nat = Some c) ->
  runs (tty_write_loop polls n data (Z.of_nat (length l)) at_) k (tty_write_post k (length l - n)).
Proof.
  induction n as [|n IH]; intros k L E at_ HT Hl Hn Ha; cbn [tty_write_loop].
  - destruct (wake_next_ok k C L U E HT) as (k' & L' & E' & Ek & HT' & Hs & Hu1 & Hu2 & _). eapply runs_bind_ok; [exact Ek|]. apply runs_ret.
    split_and!; eauto. rewrite Nat.sub_0_r, drop_all. by rewrite app_nil_r.
  - set (i := (length l - Datatypes.S n)%nat) in *. replace (Z.of_nat (length l) - Z.of_nat (Datatypes.S n)) with (Z.of_nat i) by lia.
    destruct (lookup_lt_is_Some_2 l i ltac:(lia)) as [c Hc].
    eapply (runs_bind_ok _ _ _ c k).
    { destruct at_ as [c'|]; [specialize (Ha c' eq_refl); rewrite Hc in Ha; by injection Ha as ->|].
      rewrite u32_small by (unfold is_u32; lia). rewrite <- (set_k_mem_id k) at 2. apply kmem_ok.
      eapply us_load_spec; [apply (pi_mem _ _ _ _ _ (ty_inv _ _ _ _ _ HT))|by apply Hl]. }
    eapply runs_step; [by apply (tty_putc_ok _ c k C L U E)|].
    intros sent k1 ((L1 & E1 & HT1) & Hs1 & Hp1 & Hc1 & Hr). destruct sent.
    + eapply runs_mono; [apply (IH k1 L1 E1 None HT1); [by eapply us_same_bytes|lia|done]|].
      replace (length l - n)%nat with (Datatypes.S i) by lia.
      intros r k2 (HT2 & Hs2 & Hp2 & Hr2). split; [done|]. split; [by eapply us_same_trans|]. split; [congruence|].
      assert (Hd : drop i l = c :: drop (Datatypes.S i) l) by by apply drop_S.
      destruct r as [m|[j c']].
      * destruct Hr2 as [-> Hr2]. split; [done|]. by rewrite Hr2, Hr, Hd, wires_cons, <- app_assoc.
      * destruct Hr2 as (n' & -> & Hle & Hl' & Hsent & Hsl). exists n'. split_and!; try done; [lia|].
        rewrite Hsent, Hr, Hd. replace (n' - i)%nat with (Datatypes.S (n' - Datatypes.S i)) by lia. cbn [take].
        by rewrite wires_cons, <- app_assoc.
    + destruct Hr as [Hr Hsl]. apply runs_ret. split; [by exists L1, E1|]. split; [done|]. split; [done|].
      exists i. split_and!; try done; [by rewrite Nat.sub_diag, take_0, app_nil_r|by eapply sleeps_asleep].
Qed.
End Write.

(** ** Reading *)

(** One character received, or the process sleeps. *)
Lemma tty_getc_ok resumed k C L U E : tty_ok k C L U E ->
  runs (tty_getc polls resumed) k (fun o k' =>
    (exists L' E', tty_ok k' C L' U E') /\ us_same (k_mem k) (k_mem k') /\ uart_sent (k_mem k') = uart_sent (k_mem k) /\
    current_process k' = current_process k /\
    match o with
    | Some c => is_u8 c /\ map received (uart_pending (k_mem k)) = c :: map received (uart_pending (k_mem k'))
    | None => uart_pending (k_mem k) = [] /\ uart_pending (k_mem k') = [] /\ sleeps_on TtyReadWaitq k k'
    end).
Proof.
  intros HT. unfold tty_getc. apply runs_bind.
  destruct (resumed_ok resumed O_RDONLY k C L U E HT ltac:(auto)) as (s1 & E1 & HT1 & Hs1 & Hu1). eapply runs_ok; [exact E1|]. clear E1.
  assert (Hp1 : uart_pending s1 = uart_pending (k_mem k) /\ uart_sent s1 = uart_sent (k_mem k)) by (destruct Hu1 as (? & ? & ?); done).
  destruct (can_recv_ok s1) as (s2 & E2 & G1 & G2 & G3). pose proof (ty_busy _ _ _ _ _ HT1) as Hb1. cbn [k_mem set_k_mem] in Hb1.
  destruct (port_ok _ _ _ _ _ _ _ s2 HT1 uart_only_can_recv E2 ltac:(lia)) as (Ek2 & HT2 & Hs2). cbn [k_mem set_k_mem] in *.
  eapply runs_bind_ok; [exact Ek2|]. change (set_k_mem s2 (set_k_mem s1 k)) with (set_k_mem s2 k) in *.
  assert (Hs02 : us_same (k_mem k) s2) by by eapply us_same_trans. destruct Hp1 as [Hp1 Hst1].
  destruct (uart_pending s1) as [|c p] eqn:Hps; case_bool_decide as H0; try done; cbn [negb].
  - destruct (interrupt_step (set_k_mem s2 k) C L U E (uart_set_interrupt O_RDONLY)) as (s3 & Ek3 & HT3 & Hs3 & Hu3); [done| | |].
    { apply uart_only_set_interrupt. by left. }
    { apply interrupt_ok. by left. }
    cbn [k_mem set_k_mem] in *. eapply runs_bind_ok; [exact Ek3|].
    eapply runs_step; [apply (sleep_ok _ _ _ _ _ TtyReadWaitq HT3); by eexists|].
    intros [] k4 (HT4 & Hsl & Hs4 & Hu4 & Hc4). apply runs_ret. cbn [k_mem set_k_mem current_process] in *.
    destruct Hu3 as (? & ? & ?), Hu4 as (? & ? & ?). split_and!; try done; try congruence.
    do 2 (eapply us_same_trans; [|done]). done.
  - destruct (getc_ok polls Hpolls s2 c p) as (s3 & E3 & K1 & K2 & K3 & K4); [congruence|].
    destruct (port_ok _ _ _ _ _ _ _ s3 HT2 (uart_only_getc polls) E3 ltac:(lia)) as (Ek3 & HT3 & Hs3).
    eapply runs_bind_ok; [exact Ek3|]. apply runs_ret. cbn [k_mem set_k_mem current_process] in *. split_and!.
    + by exists L, E.
    + by eapply us_same_trans.
    + congruence.
    + done.
    + done.
    + rewrite <- Hp1, K2. done.
Qed.

(** What is still to be stored: a character char_taken and not echoed yet, and those
    that the port holds. *)
Definition stream (at_ : option tty_point) (p : list Z) : list Z :=
  match at_ with Some (AtPut ch) => [ch] | _ => [] end ++ map received p.
Definition no_newline (x : list Z) : Prop := Forall (fun c => c <> 10) x.
Definition point_queue (a : tty_point) : waitq := match a with AtGet => TtyReadWaitq | AtPut _ => TtyWriteWaitq end.

Lemma tty_store_ok k C L U E a c : tty_ok k C L U E -> is_Some (us_byte (k_mem k) (us_current (k_mem k)) a) -> is_u8 c ->
  exists s, kmem (us_store a c) k = Ok (tt, set_k_mem s k) /\ tty_ok (set_k_mem s k) C L U E /\ us_current s = us_current (k_mem k) /\
    (forall q x, us_byte s q x = if decide (q = us_current (k_mem k) /\ x = a) then Some c else us_byte (k_mem k) q x) /\
    uart_same (k_mem k) s.
Proof.
  intros [HI Hb] [b Hm] Hc. destruct (us_store_spec _ _ _ _ _ _ _ (pi_mem _ _ _ _ _ HI) Hm Hc) as (s & Es & H1 & H2 & _ & H3).
  pose proof (tl_us_step _ _ (uss_store _ _ _ _ Es)) as Hu. exists s. split; [by apply kmem_ok|]. split_and!; try done.
  split; [|destruct Hu as (_ & _ & Hu); cbn [k_mem set_k_mem]; lia].
  eapply pipes_inv_mem; [done|apply H3, HI|done|done].
Qed.

Section Read.
Context (C : gmap Z Z) (U : gset Z) (data size : Z) (Hdata : 0 <= data) (Hend : data + size <= 2 ^ 32).

(** [tty_read] from the [i]th character on: [chars] were char_taken from the stream,
    stored and echoed, and the rest of the stream is still there; it is done, with
    the first newline or a full buffer, or it sleeps. *)
Record tty_read_post k (at_ : option tty_point) (i : Z) (r : Z + Z * tty_point) k' (chars : list Z) (at' : option tty_point) : Prop := {
  rp_ok : exists L' E', tty_ok k' C L' U E';
  rp_stream : stream at_ (uart_pending (k_mem k)) = chars ++ stream at' (uart_pending (k_mem k'));
  rp_sent : uart_sent (k_mem k') = uart_sent (k_mem k) ++ wires chars;
  rp_current : us_current (k_mem k') = us_current (k_mem k);
  rp_bytes : bytes_at (k_mem k') (data + i) chars;
  rp_other : forall q x, q <> us_current (k_mem k) \/ ~ (data + i <= x < data + i + Z.of_nat (length chars)) ->
    us_byte (k_mem k') q x = us_byte (k_mem k) q x;
  rp_end : match r with
    | inl m => at' = None /\ m = i + Z.of_nat (length chars) /\
        ((no_newline chars /\ m = size) \/ exists x, chars = x ++ [10] /\ no_newline x)
    | inr (j, pt) => at' = Some pt /\ j = i + Z.of_nat (length chars) /\ j < size /\ no_newline chars /\
        (forall ch, pt = AtPut ch -> is_u8 ch) /\ asleep (point_queue pt) k'
    end;
}.

(** [ch] was char_taken, echoed and stored as the [i]th character. *)
Record char_taken k (at_ : option tty_point) (i ch : Z) k' : Prop := {
  tk_ok : exists L' E', tty_ok k' C L' U E';
  tk_stream : stream at_ (uart_pending (k_mem k)) = ch :: map received (uart_pending (k_mem k'));
  tk_sent : uart_sent (k_mem k') = uart_sent (k_mem k) ++ wire ch;
  tk_current : us_current (k_mem k') = us_current (k_mem k);
  tk_byte : forall q x, us_byte (k_mem k') q x =
    if decide (q = us_current (k_mem k) /\ x = data + i) then Some ch else us_byte (k_mem k) q x;
}.

Lemma char_taken_mapped k at_ i ch k' : char_taken k at_ i ch k' -> mapped_at (k_mem k) data size -> mapped_at (k_mem k') data size.
Proof. intros H Hm x Hx. rewrite (tk_current _ _ _ _ _ H), (tk_byte _ _ _ _ _ H). case_decide; [by eexists|by apply Hm]. Qed.

Lemma read_cons k at_ i ch k1 r k' chars at' : char_taken k at_ i ch k1 -> ch <> 10 ->
  tty_read_post k1 None (i + 1) r k' chars at' -> tty_read_post k at_ i r k' (ch :: chars) at'.
Proof.
  intros [T1 T2 T3 T4 T5] Hn [R1 R2 R3 R4 R5 R6 R7]. split.
  - done.
  - rewrite T2. change (stream None ?p) with (map received p) in R2. by rewrite R2.
  - by rewrite R3, T3, wires_cons, <- app_assoc.
  - congruence.
  - intros [|j] c Hc.
    + injection Hc as <-. rewrite R4, R6 by lia. rewrite T4, T5, decide_True by (split; [done|lia]). done.
    + replace (data + i + Z.of_nat (Datatypes.S j)) with (data + (i + 1) + Z.of_nat j) by lia. by apply R5.
  - intros q x Hx. cbn [length] in Hx. rewrite R6, T5; [|rewrite T4; destruct Hx as [?|?]; [by left|right; lia]].
    rewrite decide_False; [done|]. intros [-> ->]. destruct Hx as [?|Hx]; [done|]. apply Hx. lia.
  - destruct r as [m|[j pt]].
    + destruct R7 as (-> & -> & R7). split; [done|]. cbn [length]. split; [lia|]. destruct R7 as [[Hl Hm]|(x & -> & Hl)].
      * left. split; [by constructor|lia].
      * right. exists (ch :: x). split; [done|by constructor].
    + destruct R7 as (-> & -> & Hj & Hl & R7). split; [done|]. cbn [length]. split; [lia|]. split; [lia|]. split; [by constructor|done].
Qed.

Lemma read_newline k at_ i k1 k' L' E' : char_taken k at_ i 10 k1 -> tty_ok k' C L' U E' -> us_same (k_mem k1) (k_mem k') ->
  uart_same (k_mem k1) (k_mem k') -> tty_read_post k at_ i (inl (i + 1)) k' [10] None.
Proof.
  intros [T1 T2 T3 T4 T5] HT (S1 & S2 & _) (V1 & V2 & _). split.
  - by exists L', E'.
  - by rewrite T2, V2.
  - by rewrite V1, T3.
  - congruence.
  - intros [|j] c Hc; [|discriminate Hc]. injection Hc as <-.
    rewrite S1, S2, T4, T5, decide_True by (split; [done|lia]). done.
  - intros q x Hx. cbn [length] in Hx. rewrite S2, T5, decide_False; [done|]. intros [-> ->]. destruct Hx as [?|Hx]; [done|]. apply Hx. lia.
  - split; [done|]. split; [done|]. right. exists []. split; [done|constructor].
Qed.

(** Nothing happened but that the process sleeps. *)
Lemma read_sleeps k at_ i pt k' L' E' : tty_ok k' C L' U E' -> us_same (k_mem k) (k_mem k') ->
  uart_sent (k_mem k') = uart_sent (k_mem k) -> stream at_ (uart_pending (k_mem k)) = stream (Some pt) (uart_pending (k_mem k')) ->
  i < size -> (forall ch, pt = AtPut ch -> is_u8 ch) -> asleep (point_queue pt) k' ->
  tty_read_post k at_ i (inr (i, pt)) k' [] (Some pt).
Proof.
  intros HT (S1 & S2 & _) Hs Hst Hi Hp Ha. split; try done.
  - by exists L', E'.
  - by rewrite Hs, app_nil_r.
  - split_and!; try done; [cbn; lia|constructor].
Qed.

Lemma u8_id c : is_u8 c -> u8 c = c.
Proof. unfold is_u8, u8. intros H. by rewrite Z.mod_small. Qed.

(** The character of a turn of the loop. *)
Lemma read_char k L E at_ : tty_ok k C L U E -> (forall ch, at_ = Some (AtPut ch) -> is_u8 ch) ->
  runs (match at_ with
        | Some (AtPut ch) => ret (Some ch)
        | Some AtGet => tty_getc polls true
        | None => tty_getc polls false
        end) k (fun got k' =>
    (exists L' E', tty_ok k' C L' U E') /\ us_same (k_mem k) (k_mem k') /\ uart_sent (k_mem k') = uart_sent (k_mem k) /\
    match got with
    | Some ch => is_u8 ch /\ stream at_ (uart_pending (k_mem k)) = ch :: map received (uart_pending (k_mem k'))
    | None => stream at_ (uart_pending (k_mem k)) = [] /\ uart_pending (k_mem k') = [] /\ asleep TtyReadWaitq k'
    end).
Proof.
  intros HT Ha. destruct at_ as [[|ch]|].
  2: { apply runs_ret. split_and!; try done; [by exists L, E|by apply Ha]. }
  all: eapply runs_mono; [by eapply tty_getc_ok|]; intros [c|] k' (H1 & H2 & H3 & H4 & H5); split_and!; try done; try apply H5.
  all: destruct H5 as (H5 & H6 & H7); try by eapply sleeps_asleep.
  all: cbn; by rewrite H5.
Qed.

(** A turn that echoes and stores [ch]. *)
Lemma read_store k k0 k1 at_ i ch L1 E1 : us_same (k_mem k) (k_mem k0) -> uart_sent (k_mem k0) = uart_sent (k_mem k) ->
  stream at_ (uart_pending (k_mem k)) = ch :: map received (uart_pending (k_mem k0)) -> is_u8 ch ->
  tty_ok k1 C L1 U E1 -> us_same (k_mem k0) (k_mem k1) -> uart_pending (k_mem k1) = uart_pending (k_mem k0) ->
  uart_sent (k_mem k1) = uart_sent (k_mem k0) ++ wire ch -> 0 <= i < size -> mapped_at (k_mem k) data size ->
  exists s, kmem (us_store (u32 (data + i)) ch) k1 = Ok (tt, set_k_mem s k1) /\ tty_ok (set_k_mem s k1) C L1 U E1 /\
    char_taken k at_ i ch (set_k_mem s k1).
Proof.
  intros S0 Hs0 Hst Hc HT1 S1 Hp1 Hs1 Hi Hm. pose proof (us_same_trans _ _ _ S0 S1) as (A1 & A2 & _).
  rewrite u32_small by (unfold is_u32; lia).
  destruct (tty_store_ok k1 C L1 U E1 (data + i) ch HT1) as (s & Es & HTs & B1 & B2 & (V1 & V2 & _)); [rewrite A1, A2; apply Hm; lia|done|].
  exists s. split; [done|]. split; [done|]. split; cbn [k_mem set_k_mem].
  - by exists L1, E1.
  - by rewrite Hst, V2, Hp1.
  - congruence.
  - congruence.
  - intros q x. rewrite B2, A1, A2. done.
Qed.

Lemma tty_read_loop_ok n : forall k L E at_, tty_ok k C L U E -> mapped_at (k_mem k) data size -> Z.of_nat n <= size ->
  (n = 0%nat -> at_ = None) -> (forall ch, at_ = Some (AtPut ch) -> is_u8 ch) ->
  runs (tty_read_loop polls n data size at_) k (fun r k' => exists chars at', tty_read_post k at_ (size - Z.of_nat n) r k' chars at').
Proof.
  induction n as [|n IH]; intros k L E at_ HT Hm Hn H0 Ha; cbn [tty_read_loop].
  - rewrite (H0 eq_refl). destruct (wake_next_ok k C L U E HT) as (k' & L' & E' & Ek & HT' & (S1 & S2 & _) & V1 & V2 & _).
    eapply runs_bind_ok; [exact Ek|]. apply runs_ret. exists [], None. split; try done.
    + by exists L', E'.
    + by rewrite V2.
    + by rewrite V1, app_nil_r.
    + split; [done|]. cbn. split; [lia|]. left. split; [constructor|done].
  - set (i := size - Z.of_nat (Datatypes.S n)). eapply runs_step; [by apply (read_char k L E at_)|].
    intros [ch|] k0 ((L0 & E0 & HT0) & S0 & Hs0 & Hr).
    2: { destruct Hr as (Hst & Hp & Hsl). apply runs_ret. exists [], (Some AtGet).
         eapply read_sleeps; try done; [by rewrite Hst, Hp|unfold i; lia]. }
    destruct Hr as [Hc Hst]. rewrite u8_id by done.
    eapply runs_step; [by apply (tty_putc_ok _ ch k0 C L0 U E0)|].
    intros sent k1 ((L1 & E1 & HT1) & S1 & Hp1 & Hc1 & Hr). destruct sent.
    2: { destruct Hr as [Hr Hsl]. apply runs_ret. exists [], (Some (AtPut ch)). eapply read_sleeps; try done.
         - by eapply us_same_trans.
         - congruence.
         - rewrite Hst, Hp1. done.
         - unfold i. lia.
         - by intros ch' [= <-].
         - by eapply sleeps_asleep. }
    destruct (read_store k k0 k1 at_ i ch L1 E1) as (s & Es & HTs & Htk); try done; [unfold i; lia|].
    eapply runs_bind_ok; [exact Es|]. destruct (Z.eqb_spec ch 10) as [->|Hne].
    + destruct (wake_next_ok _ C L1 U E1 HTs) as (k' & L' & E' & Ek & HT' & S2 & V2). eapply runs_bind_ok; [exact Ek|].
      apply runs_ret. exists [10], None. by eapply read_newline.
    + eapply runs_mono; [apply (IH _ L1 E1 None HTs)|]; try done; [by eapply char_taken_mapped|lia|].
      intros r k' (chars & at' & H). exists (ch :: chars), at'. eapply read_cons; [done|done|].
      replace (i + 1) with (size - Z.of_nat n) by (unfold i; lia). done.
Qed.
End Read.
End TtySpecs.
