(* ===== verification/Board.v ===== *)
(** * Memory and devices side by side

    A memory with a device next to it keeps the promises of both, and so do the
    address spaces over such a memory; they do not disturb each other. *)

From stdpp Require Import base numbers list gmap.
From S2P Require Import Prelude Hoare Signal Buddy BuddyProofs KernelMem Unix UserSpace Devices Uart Kernel Pipe PipeProofs PipeSpecs Block BlockProofs Minix Inode Dentry Fs FileStore Tty TtySpecs.

#[local] Open Scope Z_scope.
#[local] Open Scope kernel_scope.

Record board (S D : Type) : Type := Board { bd_mem : S; bd_device : D }.
Arguments Board {S D}.
Arguments bd_mem {S D}.
Arguments bd_device {S D}.

Definition on_board_mem {S D A} (m : M S A) : M (board S D) A := fun b =>
  match m (bd_mem b) with
  | Ok (a, x) => Ok (a, Board x (bd_device b))
  | Err r => Err r
  end.
Definition on_board_device {S D A} (m : M D A) : M (board S D) A := fun b =>
  match m (bd_device b) with
  | Ok (a, x) => Ok (a, Board (bd_mem b) x)
  | Err r => Err r
  end.

#[export] Instance board_mmio {S D} {IO : Mmio D} : Mmio (board S D) := {|
  io_read32 a := on_board_device (io_read32 a);
  io_write32 a v := on_board_device (io_write32 a v);
|}.

#[export] Program Instance board_kernel_mem {S D} `{KM : KernelMem S} : KernelMem (board S D) := {|
  km_obj_alloc c := on_board_mem (km_obj_alloc c);
  km_obj_free c a := on_board_mem (km_obj_free c a);
  km_page_alloc size := on_board_mem (km_page_alloc size);
  km_page_free i := on_board_mem (km_page_free i);
  km_inv b := km_inv (bd_mem b);
|}.
Next Obligation.
  intros S D KM s C L U c osz HI HC. unfold on_board_mem.
  destruct (km_obj_alloc_spec _ _ _ _ _ _ HI HC) as [->|(a & x & -> & H)]; [by left|right]. eauto.
Qed.
Next Obligation.
  intros S D KM s C L U c a HI HL. unfold on_board_mem.
  destruct (km_obj_free_spec _ _ _ _ _ _ HI HL) as (x & -> & H). eauto.
Qed.
Next Obligation.
  intros S D KM s C L U size k HI Ho. unfold on_board_mem.
  destruct (km_page_alloc_spec _ _ _ _ _ _ HI Ho) as [->|(a & x & -> & H)]; [by left|right]. eauto.
Qed.
Next Obligation.
  intros S D KM s C L U size k i s' HI Ho. unfold on_board_mem.
  destruct (km_page_alloc size (bd_mem s)) as [[j x]|] eqn:E; [|done]. intros [= <- _].
  exact (km_page_aligned _ _ _ _ _ _ _ _ HI Ho E).
Qed.
Next Obligation. intros S D KM s size Hs. unfold on_board_mem. by rewrite km_too_big. Qed.
Next Obligation.
  intros S D KM s C L U i HI Hi. unfold on_board_mem.
  destruct (km_page_free_spec _ _ _ _ _ HI Hi) as (x & -> & H). eauto.
Qed.
Next Obligation. intros S D KM s C L U c c' a. apply km_unique. Qed.
Next Obligation. intros S D KM s C L L' U HL. by apply km_ext. Qed.

#[export] Instance spaces_mmio {S} {IO : Mmio S} : Mmio (spaces S) := {|
  io_read32 a := on_mem (io_read32 a);
  io_write32 a v := on_mem (io_write32 a v);
|}.

(** The port below other components. *)
Section Lifted.
Context {S T : Type} {IO : Mmio S} {IOT : Mmio T} {UL : UartLaws S} (get : T -> S).
Context (Hread : forall a t v s', io_read32 a (get t) = Ok (v, s') -> exists t', io_read32 a t = Ok (v, t') /\ get t' = s').
Context (Hwrite : forall a v t s', io_write32 a v (get t) = Ok (tt, s') -> exists t', io_write32 a v t = Ok (tt, t') /\ get t' = s').

Program Definition lifted_uart : UartLaws T := {|
  uart_sent t := uart_sent (get t);
  uart_pending t := uart_pending (get t);
  uart_busy t := uart_busy (get t);
  uart_slow := uart_slow;
|}.
Next Obligation.
  intros t. destruct (uart_flags (get t)) as (v & s' & E & H). destruct (Hread _ _ _ _ E) as (t' & E' & <-). by exists v, t'.
Qed.
Next Obligation.
  intros t c Hb. destruct (uart_put (get t) c Hb) as (s' & E & H). destruct (Hwrite _ _ _ _ E) as (t' & E' & <-). by exists t'.
Qed.
Next Obligation.
  intros t c l Hp. destruct (uart_take (get t) c l Hp) as (v & s' & E & H). destruct (Hread _ _ _ _ E) as (t' & E' & <-). by exists v, t'.
Qed.
Next Obligation.
  intros t. destruct (uart_mask_read (get t)) as (v & s' & E & H). destruct (Hread _ _ _ _ E) as (t' & E' & <-). by exists v, t'.
Qed.
Next Obligation.
  intros t v. destruct (uart_mask_write (get t) v) as (s' & E & H). destruct (Hwrite _ _ _ _ E) as (t' & E' & <-). by exists t'.
Qed.
End Lifted.

#[export] Instance board_uart {S D} {IO : Mmio D} {UL : UartLaws D} : UartLaws (board S D).
Proof.
  apply (lifted_uart bd_device); intros; eexists; (split; [cbn; unfold on_board_device; by erewrite H|done]).
Defined.
#[export] Instance spaces_uart {S} {IO : Mmio S} {UL : UartLaws S} : UartLaws (spaces S).
Proof.
  apply (lifted_uart sp_mem); intros; eexists; (split; [cbn; unfold on_mem; by erewrite H|done]).
Defined.

Section Terminal.
Context {S D : Type} `{KM : KernelMem S} {IO : Mmio D} {UL : UartLaws D}.
Notation machine := (spaces (board S D)).

Lemma on_mem_inv {T A} (m : M T A) (s s' : spaces T) a : on_mem m s = Ok (a, s') ->
  exists x, m (sp_mem s) = Ok (a, x) /\ s' = Spaces x (sp_bytes s) (sp_ttb s).
Proof. unfold on_mem. destruct (m (sp_mem s)) as [[b x]|]; [|done]. intros [= -> <-]. by exists x. Qed.
Lemma on_board_mem_inv {A} (m : M S A) (b b' : board S D) a : on_board_mem m b = Ok (a, b') -> bd_device b' = bd_device b.
Proof. unfold on_board_mem. destruct (m (bd_mem b)) as [[c x]|]; [|done]. by intros [= _ <-]. Qed.
Lemma on_board_device_inv {A} (m : M D A) (b b' : board S D) a : on_board_device m b = Ok (a, b') -> bd_mem b' = bd_mem b.
Proof. unfold on_board_device. destruct (m (bd_device b)) as [[c x]|]; [|done]. by intros [= _ <-]. Qed.

Lemma machine_km_step (s s' : machine) : km_step s s' -> bd_device (sp_mem s') = bd_device (sp_mem s).
Proof. intros [c a E|c a E|size i E|i E]; apply on_mem_inv in E as (x & E & ->); exact (on_board_mem_inv _ _ _ _ E). Qed.
Lemma machine_us_step (s s' : machine) : us_step s s' -> sp_mem s' = sp_mem s.
Proof.
  intros [pid r E|pid addr size r E|pid r E|a b E|a v E]; cbn in E.
  4: { destruct (sp_byte s (sp_ttb s) a); [|done]. by injection E as _ <-. }
  all: by injection E; intros; subst.
Qed.
Lemma machine_uart_step (s s' : machine) : uart_step s s' ->
  bd_mem (sp_mem s') = bd_mem (sp_mem s) /\ sp_bytes s' = sp_bytes s /\ sp_ttb s' = sp_ttb s.
Proof.
  intros [v E|v E|v E|v E|v E]; apply on_mem_inv in E as (x & E & ->); (split; [|done]); exact (on_board_device_inv _ _ _ _ E).
Qed.

#[export] Program Instance machine_terminal : TerminalLaws machine.
Next Obligation.
  intros s s' H%machine_km_step. unfold uart_same. cbn. by rewrite H.
Qed.
Next Obligation. intros s s' H%machine_us_step. unfold uart_same. cbn. by rewrite H. Qed.
Next Obligation.
  intros s s' (H1 & H2 & H3)%machine_uart_step. split.
  - split_and!; [done| |]; intros *; cbn; unfold sp_byte, sp_space; by rewrite H2.
  - intros C L U. cbn. by rewrite H1.
Qed.
End Terminal.

(** ** A sample machine

    A process with three bytes of memory, at a terminal that has received "a", a
    carriage return and "b". *)
Definition sample_tty_kernel : kernel (spaces (board bump sim_uart)) :=
  Kernel (Spaces (Board (Bump 0x10000 1) (SimUart [] [97; 13; 98] 0 0)) {[1 := list_to_map [(0x10000, 104); (0x10001, 10); (0x10002, 105)]]} 1)
    (KernelCaches 1 2 3 4 5) ∅ zero_pages ∅ {[0x2000 := sample_proc]} [0x2000] [] [] 0x2000 2 [] [] [].
Definition sample_tty_live (c a : Z) : Prop := False.

Lemma sample_tty_ok : tty_ok sample_tty_kernel sample_sizes sample_tty_live ∅ ∅.
Proof.
  split; [|cbn; lia]. split.
  - by split_and!.
  - split_and!; [by eexists|by eexists|by eexists|done].
  - intros a p Hp. cbn in Hp. by rewrite lookup_empty in Hp.
  - intros a a' p p' Hp. cbn in Hp. by rewrite lookup_empty in Hp.
  - split; [|intros e q He; by rewrite lookup_empty in He]. intros q l Hq. assert (l = []) as ->.
    { destruct q as [a|a| | |]; cbn in Hq; try (by rewrite lookup_empty in Hq); by injection Hq as <-. }
    split_and!; [constructor| |].
    + intros e. rewrite lookup_empty. split; [|done]. intros H. by apply not_elem_of_nil in H.
    + intros e p H. by apply not_elem_of_nil in H.
  - by eexists.
  - intros i Hi. eexists. split; [by apply zero_page|done].
Qed.

(** ** Properties *)

(** C24: the terminal loses, duplicates and reorders no character, over any
    number of sleeps.  [tty_write] resumed at the [i]th character sends the rest
    of the buffer, a carriage return before every newline, and returns its size;
    or it sleeps in the queue for output with the first character it could not
    send, having sent those before it.  [tty_read] takes characters from what the
    port received, stores and echoes each of them, and returns after the first
    newline (a carriage return becomes one) or a full buffer; or it sleeps for
    input or for output with the rest of the stream still to come.  No other byte
    of any address space changes; it never faults. *)
Theorem terminal_correct {S : Type} `{KM : KernelMem S} {US : UserSpace S} {IO : Mmio S} {UL : UartLaws S} {TL : TerminalLaws S}
  polls C L U E (k : kernel S) data : (uart_slow < polls)%nat -> tty_ok k C L U E -> 0 <= data ->
  (forall l (i : nat) at_, data + Z.of_nat (length l) <= 2 ^ 32 -> bytes_at (k_mem k) data l -> (i <= length l)%nat ->
     (forall c, at_ = Some c -> l !! i = Some c) ->
     runs (tty_write polls data (Z.of_nat (length l)) (Z.of_nat i) at_) k (tty_write_post C U l k i)) /\
  (forall size i at_, data + size <= 2 ^ 32 -> mapped_at (k_mem k) data size -> 0 <= i <= size ->
     (i = size -> at_ = None) -> (forall ch, at_ = Some (AtPut ch) -> is_u8 ch) ->
     runs (tty_read polls data size i at_) k (fun r k' => exists chars at', tty_read_post C U data size k at_ i r k' chars at')).
Proof.
  intros Hp HT Hd. split.
  - intros l i at_ He Hb Hi Ha. unfold tty_write. replace (Z.to_nat (Z.of_nat (length l) - Z.of_nat i)) with (length l - i)%nat by lia.
    replace i with (length l - (length l - i))%nat at 2 by lia. eapply tty_write_loop_ok; try done; [lia|].
    by replace (length l - (length l - i))%nat with i by lia.
  - intros size i at_ He Hm Hi H0 Ha. unfold tty_read.
    eapply runs_mono; [eapply (tty_read_loop_ok polls Hp C U data size Hd He (Z.to_nat (size - i)) k L E at_); try done; lia || (intros; apply H0; lia)|].
    by replace (size - Z.of_nat (Z.to_nat (size - i))) with i by lia.
Qed.

Theorem terminal_correct_witness :
  runs (tty_read 2 0x10000 3 0 None) sample_tty_kernel (fun r k' => exists chars at',
    tty_read_post sample_sizes ∅ 0x10000 3 sample_tty_kernel None 0 r k' chars at').
Proof.
  assert (Hs : (@uart_slow (spaces (board bump sim_uart)) _ _ < 2)%nat) by (cbn; lia).
  destruct (terminal_correct 2 sample_sizes sample_tty_live ∅ ∅ sample_tty_kernel 0x10000 Hs sample_tty_ok ltac:(lia)) as [_ H].
  apply (H 3 0 None); [lia| |lia|lia|discriminate].
  intros a Ha. assert (Hin : a ∈ [0x10000; 0x10001; 0x10002]) by (rewrite !elem_of_cons; lia).
  repeat (apply elem_of_cons in Hin as [->|Hin]; [by eexists|]). by apply not_elem_of_nil in Hin.
Defined.
