(* ===== verification/Io.v ===== *)
(** * Calls on open files: model

    The parts of process.c that read, write and inspect open files, and
    [process_init].  The address of [terminal_config] is an argument; its bytes
    are [k_termios].  A call that sleeps leaves its locals ([blocked]), with which
    [resume_read] and [resume_write] go on after the return of [process_sleep]. *)

From stdpp Require Import base numbers list list_numbers gmap.
From S2P Require Import Prelude Bytes Arith Signal Buddy BuddyProofs KernelMem UserSpace Unix Devices Kernel Pipe Files Process Hoare Block BlockProofs Minix Inode Dentry Fs FileStore Tty.

#[local] Open Scope Z_scope.
#[local] Open Scope kernel_scope.

Definition SEEK_SET : Z := 0.
Definition SEEK_CUR : Z := 1.
Definition SEEK_END : Z := 2.
Definition TCGETS : Z := 0x5401.
Definition TCSETS : Z := 0x5402.
Definition TCSETSW : Z := 0x5403.
Definition TCSETSF : Z := 0x5404.
Definition TIOCGWINSZ : Z := 0x5413.

(** [struct termios] as it is laid out, and its first contents. *)
Definition TERMIOS_SIZE : Z := 60.
Definition termios_bytes (iflag oflag cflag lflag : Z) (cc : list Z) : list Z :=
  le32 iflag ++ le32 oflag ++ le32 cflag ++ le32 lflag ++ [0] ++ cc ++ replicate 3 0 ++ le32 0 ++ le32 0.
Definition OPOST : Z := 0x1.
Definition ONLCR : Z := 0x4.
Definition ICRNL : Z := 0x100.
Definition IXON : Z := 0x400.
Definition IXANY : Z := 0x800.
Definition IMAXBEL : Z := 0x2000.
Definition CREAD : Z := 0x80.
Definition CS8 : Z := 0x30.
Definition B9600 : Z := 0xd.
Definition ISIG : Z := 0x1.
Definition ICANON : Z := 0x2.
Definition ECHO : Z := 0x8.
Definition ECHOE : Z := 0x10.
Definition IEXTEN : Z := 0x8000.
Definition ECHOCTL : Z := 0x200.
Definition ECHOKE : Z := 0x800.
(** [c_cc], by the numbers of the characters: VINTR, VQUIT, VERASE, VKILL, VEOF,
    VTIME, VMIN, VSUSP (10) and VWERASE (14). *)
Definition initial_cc : list Z :=
  [3; 28; 127; 21; 4; 0; 1; 0; 0; 0; 26; 0; 0; 0; 23] ++ replicate 17 0.
Definition initial_termios : list Z :=
  termios_bytes (Z.lor (Z.lor (Z.lor ICRNL IXON) IXANY) IMAXBEL) (Z.lor OPOST ONLCR)
    (Z.lor (Z.lor CREAD CS8) B9600)
    (Z.lor (Z.lor (Z.lor (Z.lor (Z.lor (Z.lor ISIG ICANON) IEXTEN) ECHO) ECHOE) ECHOCTL) ECHOKE) initial_cc.

(** [process_init] with the caches it creates; the lists are empty. *)
Definition process_init {S} (caches : kernel_caches) (k : kernel S) : kernel S :=
  Kernel (k_mem k) caches (k_pipes k) (k_bufs k) (k_files k) (k_procs k) [] [] [] 0 (max_id k)
    (tty_read_waitq k) (tty_write_waitq k) initial_termios.

(** A system call that sleeps, with its locals. *)
Inductive blocked : Set :=
| InTtyRead (data size i : Z) (at_ : tty_point)
| InTtyWrite (data size i c : Z)
| InPipeRead (pipe data size : Z) (got : list Z)
| InPipeWrite (pipe : Z) (data : list Z) (written : Z)
| InReadv (fd iov iovcnt i nread : Z) (b : blocked)
| InWritev (fd iov iovcnt i nwritten : Z) (b : blocked)
| InWait (status : Z).

(** [dirent64], without the padding after the name. *)
Definition DIRENT64_SIZE : Z := 24.
Definition DIRENT64_NAME : Z := 19.
Definition dirent64_bytes (ino off reclen : Z) (name : list Z) : list Z :=
  let l := Z_to_little_endian 8 8 ino ++ Z_to_little_endian 8 8 off ++ le16 reclen ++ [0] ++ name in
  l ++ replicate (Z.to_nat DIRENT64_SIZE - length l) 0.
(** [strnlen(name, NAME_MAX)] characters. *)
Fixpoint name_chars (l : list Z) : list Z :=
  match l with
  | [] => []
  | c :: l => if c =? 0 then [] else c :: name_chars l
  end.

Section Io.
Context {S : Type} `{KM : KernelMem S} {US : UserSpace S} {FO : FileOps S} {IO : Mmio S}.
Context (terminal_config : Z) (polls : nat).
Notation state := (kernel S).

Definition process_get_id (p : Z) : M state Z := let* x := get_proc p in ret (p_id x).
Definition process_get_context (p : Z) : M state process_context := let* x := get_proc p in ret (p_context x).
Definition process_set_context (p : Z) (context : process_context) : M state unit := upd_proc p (set_p_context context).
Definition process_get_kernel_stack (p : Z) : M state Z :=
  let* x := get_proc p in ret (u32 (p_kernel_stack x + KERNEL_STACK_SIZE)).

Definition process_open (path : list Z) (flags mode : Z) : M state Z :=
  let* cur := gets current_process in
  let* fd := alloc_file cur in
  if fd <? 0 then ret fd
  else
    let* file := get_fd cur fd in
    do* upd_file_obj file (set_f_flags (Z.land flags (Z.lor FILE_STATUS_FLAGS O_ACCMODE))) in
    let* r := (if truthy (Z.land flags O_CREAT) then kmem (fo_create path flags mode) else ret 0) in
    if r <? 0 then let* _ := process_close fd in ret r
    else
      let* dentry := kmem (fo_lookup path) in
      if dentry =? 0 then let* _ := process_close fd in ret (- ENOENT)
      else
        let* inode := kmem (fo_inode_of dentry) in
        let* n := kmem (fo_inode inode) in
        let* f := get_file_obj file in
        if FILE_FOR_WRITE (f_flags f) && S_ISDIR (n_mode n) then
          let* _ := process_close fd in ret (- EISDIR)
        else
          do* upd_file_obj file (set_f_type FF_INODE) in
          do* upd_file_obj file (set_f_ptr dentry) in
          do* (if truthy (Z.land flags O_TRUNC) then
                 let* inode := kmem (fo_inode_of dentry) in
                 let* r := kmem (fo_truncate inode 0) in
                 SYSTEM_BUG_ON (r <? 0)
               else ret tt) in
          do* (if truthy (Z.land flags O_CLOEXEC) then cloexec_add cur fd else ret tt) in
          ret fd.

(** ** Writing *)
Definition tty_write_call (data size i : Z) (at_ : option Z) : M state (Z + blocked) :=
  let* r := tty_write polls data size i at_ in
  ret (match r with inl n => inl n | inr (i, c) => inr (InTtyWrite data size i c) end).
Definition pipe_write_call (pipe : Z) (data : list Z) (written : Z) : M state (Z + blocked) :=
  let* r := pipe_write pipe data written in
  let '(written, r) := r in
  ret (match r with Some n => inl n | None => inr (InPipeWrite pipe data written) end).

Definition process_write (fd data size : Z) : M state (Z + blocked) :=
  let* file := get_file fd in
  if file =? 0 then ret (inl (- EBADF))
  else
    let* f := get_file_obj file in
    if negb (FILE_FOR_WRITE (f_flags f)) then ret (inl (- EBADF))
    else
      match f_type f with
      | FF_TTY => tty_write_call data size 0 None
      | FF_INODE =>
          let* inode := kmem (fo_inode_of (f_ptr f)) in
          do* (if truthy (Z.land (f_flags f) O_APPEND) then
                 let* n := kmem (fo_inode inode) in upd_file_obj file (set_f_offset (n_size n))
               else ret tt) in
          let* f := get_file_obj file in
          let* bytes := kmem (us_read (Z.to_nat size) data) in
          let* r := kmem (fo_write inode size (f_offset f) bytes) in
          if r <? 0 then ret (inl r)
          else
            do* upd_file_obj file (fun f => set_f_offset (u32 (f_offset f + r)) f) in
            ret (inl r)
      | FF_PIPE =>
          let* bytes := kmem (us_read (Z.to_nat size) data) in
          pipe_write_call (f_ptr f) bytes 0
      | FF_UNUSED => fail Halt
      end.

(** ** Reading *)
Definition tty_read_call (data size i : Z) (at_ : option tty_point) : M state (Z + blocked) :=
  let* r := tty_read polls data size i at_ in
  ret (match r with inl n => inl n | inr (i, a) => inr (InTtyRead data size i a) end).
Definition pipe_read_call (pipe data size : Z) (got : list Z) : M state (Z + blocked) :=
  let* r := pipe_read pipe size got in
  let '(got', r) := r in
  do* kmem (us_write (u32 (data + Z.of_nat (length got))) (drop (length got) got')) in
  ret (match r with Some n => inl n | None => inr (InPipeRead pipe data size got') end).

Definition process_read (fd data size : Z) : M state (Z + blocked) :=
  let* file := get_file fd in
  if file =? 0 then ret (inl (- EBADF))
  else
    let* f := get_file_obj file in
    if negb (FILE_FOR_READ (f_flags f)) then ret (inl (- EBADF))
    else
      match f_type f with
      | FF_TTY => tty_read_call data size 0 None
      | FF_INODE =>
          let* inode := kmem (fo_inode_of (f_ptr f)) in
          let* n := kmem (fo_inode inode) in
          if S_ISDIR (n_mode n) then ret (inl (- EISDIR))
          else
            let* r := kmem (fo_read inode size (f_offset f)) in
            let '(r, bytes) := r in
            do* kmem (us_write data bytes) in
            if r <? 0 then ret (inl r)
            else
              do* upd_file_obj file (fun f => set_f_offset (u32 (f_offset f + r)) f) in
              ret (inl r)
      | FF_PIPE => pipe_read_call (f_ptr f) data size []
      | FF_UNUSED => fail Halt
      end.

(** ** Vectors of buffers *)

(** [iov[i].iov_base] and [iov[i].iov_len]. *)
Definition load_u32 (a : Z) : M state Z := let* l := kmem (us_read 4 a) in ret (get_word l 0).
Definition iov_base (iov i : Z) : M state Z := load_u32 (u32 (iov + 8 * i)).
Definition iov_len (iov i : Z) : M state Z := load_u32 (u32 (iov + 8 * i + 4)).

(** What follows the return [n] of [process_read] in [emulate_readv]: the new
    [nread], and whether the loop goes on. *)
Definition readv_next (len nread n : Z) : Z * bool :=
  if n <? 0 then (n, false) else (s32 (nread + n), negb ((n =? 0) || negb (len =? u32 n))).
Definition writev_next (len nwritten n : Z) : Z * bool :=
  if n <? 0 then (n, false) else (s32 (nwritten + n), len =? u32 n).

(** [n] buffers are left, so [i = iovcnt - n]. *)
Fixpoint emulate_readv (n : nat) (fd iov iovcnt nread : Z) : M state (Z + blocked) :=
  match n with
  | O => ret (inl nread)
  | Datatypes.S n' =>
      let i := iovcnt - Z.of_nat n in
      let* len := iov_len iov i in
      if truthy len then
        let* base := iov_base iov i in
        let* r := process_read fd base len in
        match r with
        | inr b => ret (inr (InReadv fd iov iovcnt i nread b))
        | inl r =>
            let* len := iov_len iov i in
            let '(nread, more) := readv_next len nread r in
            if more then emulate_readv n' fd iov iovcnt nread else ret (inl nread)
        end
      else emulate_readv n' fd iov iovcnt nread
  end.
Fixpoint emulate_writev (n : nat) (fd iov iovcnt nwritten : Z) : M state (Z + blocked) :=
  match n with
  | O => ret (inl nwritten)
  | Datatypes.S n' =>
      let i := iovcnt - Z.of_nat n in
      let* len := iov_len iov i in
      if truthy len then
        let* base := iov_base iov i in
        let* r := process_write fd base len in
        match r with
        | inr b => ret (inr (InWritev fd iov iovcnt i nwritten b))
        | inl r =>
            let* len := iov_len iov i in
            let '(nwritten, more) := writev_next len nwritten r in
            if more then emulate_writev n' fd iov iovcnt nwritten else ret (inl nwritten)
        end
      else emulate_writev n' fd iov iovcnt nwritten
  end.
Definition process_readv (fd iov iovcnt : Z) : M state (Z + blocked) :=
  emulate_readv (Z.to_nat iovcnt) fd iov iovcnt 0.
Definition process_writev (fd iov iovcnt : Z) : M state (Z + blocked) :=
  emulate_writev (Z.to_nat iovcnt) fd iov iovcnt 0.

(** ** After a sleep *)
Fixpoint resume_call (b : blocked) : M state (Z + blocked) :=
  match b with
  | InTtyRead data size i a => tty_read_call data size i (Some a)
  | InTtyWrite data size i c => tty_write_call data size i (Some c)
  | InPipeRead pipe data size got => pipe_read_call pipe data size got
  | InPipeWrite pipe data written => pipe_write_call pipe data written
  | InReadv fd iov iovcnt i nread b =>
      let* r := resume_call b in
      match r with
      | inr b => ret (inr (InReadv fd iov iovcnt i nread b))
      | inl r =>
          let* len := iov_len iov i in
          let '(nread, more) := readv_next len nread r in
          if more then emulate_readv (Z.to_nat (iovcnt - i - 1)) fd iov iovcnt nread else ret (inl nread)
      end
  | InWritev fd iov iovcnt i nwritten b =>
      let* r := resume_call b in
      match r with
      | inr b => ret (inr (InWritev fd iov iovcnt i nwritten b))
      | inl r =>
          let* len := iov_len iov i in
          let '(nwritten, more) := writev_next len nwritten r in
          if more then emulate_writev (Z.to_nat (iovcnt - i - 1)) fd iov iovcnt nwritten else ret (inl nwritten)
      end
  | InWait status =>
      let* r := wait_turn in
      match r with
      | None => ret (inr (InWait status))
      | Some (pid, st) => do* kmem (us_write status (le32 st)) in ret (inl pid)
      end
  end.
Definition wait_call (status : Z) : M state (Z + blocked) :=
  let* r := process_wait in
  match r with
  | None => ret (inr (InWait status))
  | Some (pid, None) => ret (inl pid)
  | Some (pid, Some st) => do* kmem (us_write status (le32 st)) in ret (inl pid)
  end.

(** ** Directories *)

(** The loop of [process_getdents64] on the inode of the directory; [r] bytes
    have been stored.  Reading a name of [NAME_MAX] characters with
    [strncpy(..., namelen)] leaves the entry. *)
Fixpoint getdents_loop (fuel : nat) (file inode data size r : Z) : M state Z :=
  match fuel with
  | O => fail Fuel
  | Datatypes.S fuel =>
      let* f := get_file_obj file in
      let* x := kmem (fo_read inode DIRENT_SIZE (f_offset f)) in
      let '(nread, bytes) := x in
      if nread <? 0 then ret (if truthy r then r else nread)
      else if (nread =? 0) || negb (nread =? DIRENT_SIZE) then ret r
      else
        let e := decode_dirent bytes in
        let advance := upd_file_obj file (fun f => set_f_offset (u32 (f_offset f + nread)) f) in
        if truthy (d_ino e) then
          let name := name_chars (d_name e) in
          let namelen := Z.of_nat (length name) + 1 in
          let reclen := ALIGN (DIRENT64_NAME + namelen) 3 in
          if size <? u32 (r + reclen) then ret (if truthy r then r else - EINVAL)
          else
            do* (if NAME_MAX <? namelen then fail Fault else ret tt) in
            do* kmem (us_write (u32 (data + r))
                  (dirent64_bytes (d_ino e) (u32 (f_offset f + nread)) reclen (name ++ [0]))) in
            do* advance in
            if u32 (r + reclen) =? size then ret size
            else getdents_loop fuel file inode data size (r + reclen)
        else do* advance in getdents_loop fuel file inode data size r
  end.
(** Every turn moves on by an entry, until the end of the file. *)
Definition getdents_fuel (n : inode) : nat := Z.to_nat (n_size n / DIRENT_SIZE + 2).
Definition process_getdents64 (fd data size : Z) : M state Z :=
  let* file := get_file fd in
  if file =? 0 then ret (- EBADF)
  else
    let* f := get_file_obj file in
    if negb (FILE_FOR_READ (f_flags f)) then ret (- EBADF)
    else if decide (f_type f = FF_INODE) then
      let* inode := kmem (fo_inode_of (f_ptr f)) in
      let* n := kmem (fo_inode inode) in
      if S_ISDIR (n_mode n) then getdents_loop (getdents_fuel n) file inode data size 0
      else ret (- ENOTDIR)
    else ret (- ENOTDIR).

(** ** Positions, status and control *)
Definition process_llseek (fd offset whence : Z) : M state Z :=
  let* file := get_file fd in
  if file =? 0 then ret (- EBADF)
  else
    let* f := get_file_obj file in
    if decide (f_type f = FF_INODE) then
      let* inode := kmem (fo_inode_of (f_ptr f)) in
      let* n := kmem (fo_inode inode) in
      let store next_offset :=
        if (next_offset <? 0) || (ULONG_MAX <? next_offset) then ret (- EOVERFLOW)
        else do* upd_file_obj file (set_f_offset next_offset) in ret next_offset in
      if whence =? SEEK_SET then store offset
      else if whence =? SEEK_CUR then
        if add_overflow_long_long (f_offset f) offset then ret (- EOVERFLOW) else store (s64 (f_offset f + offset))
      else if whence =? SEEK_END then
        if add_overflow_long_long (n_size n) offset then ret (- EOVERFLOW) else store (s64 (n_size n + offset))
      else ret (- EINVAL)
    else ret (- ESPIPE).

Definition process_fstat64 (fd : Z) : M state (Z * option stat64) :=
  let* file := get_file fd in
  if file =? 0 then ret (- EBADF, None)
  else let* f := get_file_obj file in kmem (fo_fstat64 f).

(** [file->termios] is [&terminal_config]. *)
Definition process_ioctl (fd request argp : Z) : M state Z :=
  let* file := get_file fd in
  if file =? 0 then ret (- EBADF)
  else
    let* f := get_file_obj file in
    if decide (f_type f = FF_TTY) then
      let* _ := (if f_ptr f =? terminal_config then ret tt else fail Fault) in
      if request =? TCGETS then
        let* t := gets k_termios in
        do* kmem (us_write argp t) in ret 0
      else if (request =? TCSETS) || (request =? TCSETSW) || (request =? TCSETSF) then
        let* t := kmem (us_read (Z.to_nat TERMIOS_SIZE) argp) in
        do* modify (set_k_termios t) in ret 0
      else if request =? TIOCGWINSZ then
        do* kmem (us_write argp (le16 24)) in
        do* kmem (us_write (u32 (argp + 2)) (le16 80)) in ret 0
      else ret (- EINVAL)
    else ret (- ENOTTY).
End Io.
