(* ===== verification/Elf.v ===== *)
(** * elf.c: model

    Loading of programs.  The bytes of the block that [buddy_alloc] gave to a
    segment are kept with the segment ([es_data]); a null [page] is [None].  The
    file is read through [FileOps], the program is written to user memory through
    [UserSpace].  The proofs are in [ElfProofs]. *)

From stdpp Require Import base numbers list list_numbers gmap.
From S2P Require Import Prelude Bytes Arith Signal Buddy BuddyProofs KernelMem UserSpace Unix Kernel Pipe Files Process Hoare Block BlockProofs Minix Inode Dentry Fs FileStore.

#[local] Open Scope Z_scope.
#[local] Open Scope kernel_scope.

Definition ELF_MAGIC : list Z := [127; 69; 76; 70].
Definition ELF_CLASS_32BIT : Z := 1.
Definition ELF_DATA_2LE : Z := 1.
Definition ELF_VERSION_CURRENT : Z := 1.
Definition ELF_TYPE_EXEC : Z := 2.
Definition ELF_ARCH_ARM : Z := 40.
Definition ELF_FLAGS_EABI (flags : Z) : Z := Z.land flags 0xff000000.
Definition ELF_FLAGS_EABI_V5 : Z := 0x05000000.
Definition ELF_PH_TYPE_LOAD : Z := 1.
Definition ELF_PH_FLAGS_X : Z := Z.shiftl 1 0.
Definition ELF_PH_FLAGS_W : Z := Z.shiftl 1 1.
Definition ELF_PH_FLAGS_R : Z := Z.shiftl 1 2.

Definition IS_EXECUTABLE_ADDRESS (address : Z) : bool :=
  (USER_ADDRESS_START <=? address) && (address <? BRK_ADDRESS_END).

(** The fields of [struct elf_header] and [struct elf_program_header] the code
    looks at, as they are laid out. *)
Record elf_header : Set := ElfHeader {
  h_magic : list Z;
  h_class : Z;
  h_data : Z;
  h_id_version : Z;
  h_type : Z;
  h_arch : Z;
  h_version : Z;
  h_entry_point : Z;
  h_program_header_offset : Z;
  h_flags : Z;
  h_program_header_size : Z;
  h_program_header_num : Z;
}.
Definition ELF_HEADER_SIZE : Z := 52.
Definition decode_header (l : list Z) : elf_header :=
  ElfHeader (take 4 l) (get_le 1 l 4) (get_le 1 l 5) (get_le 1 l 6) (get_le 2 l 16) (get_le 2 l 18) (get_le 4 l 20)
    (get_le 4 l 24) (get_le 4 l 28) (get_le 4 l 36) (get_le 2 l 42) (get_le 2 l 44).

Record elf_program_header : Set := ElfProgramHeader {
  ph_type : Z;
  ph_offset : Z;
  ph_virtual_addr : Z;
  ph_file_size : Z;
  ph_memory_size : Z;
  ph_flags : Z;
}.
Definition ELF_PROGRAM_HEADER_SIZE : Z := 32.
Definition decode_program_header (l : list Z) : elf_program_header :=
  ElfProgramHeader (get_le 4 l 0) (get_le 4 l 4) (get_le 4 l 8) (get_le 4 l 16) (get_le 4 l 20) (get_le 4 l 24).

(** [struct elf_segment] with the contents of its block, [struct elf_executable]. *)
Record elf_segment : Set := ElfSegment {
  es_page : option Z;
  es_addr : Z;
  es_file_size : Z;
  es_memory_size : Z;
  es_data : list Z;
}.
Definition set_es_page (v : option Z) (x : elf_segment) : elf_segment :=
  ElfSegment v (es_addr x) (es_file_size x) (es_memory_size x) (es_data x).
Definition set_es_data (v : list Z) (x : elf_segment) : elf_segment :=
  ElfSegment (es_page x) (es_addr x) (es_file_size x) (es_memory_size x) v.
Definition no_segment : elf_segment := ElfSegment None 0 0 0 [].

Record elf_executable : Set := ElfExecutable {
  ex_entry_point : Z;
  ex_text : elf_segment;
  ex_data : elf_segment;
}.
Definition set_ex_entry_point (v : Z) (x : elf_executable) : elf_executable := ElfExecutable v (ex_text x) (ex_data x).
Definition set_ex_text (v : elf_segment) (x : elf_executable) : elf_executable := ElfExecutable (ex_entry_point x) v (ex_data x).
Definition set_ex_data (v : elf_segment) (x : elf_executable) : elf_executable := ElfExecutable (ex_entry_point x) (ex_text x) v.
Definition no_executable : elf_executable := ElfExecutable 0 no_segment no_segment.

Definition validate_segment (segment : elf_segment) : bool :=
  let addr := es_addr segment in
  let size := es_memory_size segment in
  if es_memory_size segment <? es_file_size segment then false
  else if add_overflow_unsigned_long addr size then false
  else IS_EXECUTABLE_ADDRESS addr && IS_EXECUTABLE_ADDRESS (u32 (addr + size)).

Section Elf.
Context {S : Type} `{KM : KernelMem S} {US : UserSpace S} {FO : FileOps S}.

(** [page_address] of a null pointer is an access to it. *)
Definition copy_segment_data (segment : elf_segment) : M S unit :=
  let* _ := opt Fault (es_page segment) in
  do* us_write (es_addr segment) (take (Z.to_nat (es_file_size segment)) (es_data segment)) in
  us_write (u32 (es_addr segment + es_file_size segment))
    (replicate (Z.to_nat (u32 (es_memory_size segment - es_file_size segment))) 0).

Definition release_segment (segment : elf_segment) : M S elf_segment :=
  match es_page segment with
  | Some page => do* km_page_free page in ret (set_es_page None segment)
  | None => ret segment
  end.

(** The result, and the segment afterwards. *)
Definition load_segment (segment : elf_segment) (header : elf_program_header) (inode : Z) : M S (Z * elf_segment) :=
  match es_page segment with
  | Some _ => ret (-1, segment)
  | None =>
      let* page := km_page_alloc (ph_file_size header) in
      let segment := ElfSegment (Some page) (ph_virtual_addr header) (ph_file_size header) (ph_memory_size header) [] in
      let failed segment := let* segment := release_segment segment in ret (-1, segment) in
      if negb (validate_segment segment) then failed segment
      else
        let* r := fo_read inode (es_file_size segment) (ph_offset header) in
        let '(size, data) := r in
        let segment := set_es_data data segment in
        if (size <? 0) || negb (u32 size =? es_file_size segment) then failed segment
        else ret (0, segment)
  end.

Definition elf_release (executable : elf_executable) : M S elf_executable :=
  let* text := release_segment (ex_text executable) in
  let executable := set_ex_text text executable in
  let* data := release_segment (ex_data executable) in
  ret (set_ex_data data executable).

Definition header_ok (header : elf_header) : bool :=
  bool_decide (h_magic header = ELF_MAGIC) && (h_class header =? ELF_CLASS_32BIT) && (h_data header =? ELF_DATA_2LE) &&
  (h_id_version header =? ELF_VERSION_CURRENT) && (h_type header =? ELF_TYPE_EXEC) && (h_arch header =? ELF_ARCH_ARM) &&
  (h_version header =? ELF_VERSION_CURRENT) && (ELF_FLAGS_EABI (h_flags header) =? ELF_FLAGS_EABI_V5).

(** The loop of [elf_load] over [n] program headers, from the number [i] on. *)
Fixpoint load_loop (n : nat) (i inode : Z) (header : elf_header) (executable : elf_executable) : M S (Z * elf_executable) :=
  match n with
  | O => ret (0, set_ex_entry_point (h_entry_point header) executable)
  | Datatypes.S n =>
      let offset := u32 (h_program_header_offset header + h_program_header_size header * i) in
      let* r := fo_read inode ELF_PROGRAM_HEADER_SIZE offset in
      let '(rs, bytes) := r in
      if negb (rs =? ELF_PROGRAM_HEADER_SIZE) then ret (-1, executable)
      else
        let program_header := decode_program_header bytes in
        let failed executable := let* executable := elf_release executable in ret (-1, executable) in
        if negb (ph_type program_header =? ELF_PH_TYPE_LOAD) then load_loop n (i + 1) inode header executable
        else if ph_flags program_header =? Z.lor ELF_PH_FLAGS_R ELF_PH_FLAGS_X then
          let* r := load_segment (ex_text executable) program_header inode in
          let executable := set_ex_text (snd r) executable in
          if fst r <? 0 then failed executable else load_loop n (i + 1) inode header executable
        else if ph_flags program_header =? Z.lor ELF_PH_FLAGS_R ELF_PH_FLAGS_W then
          let* r := load_segment (ex_data executable) program_header inode in
          let executable := set_ex_data (snd r) executable in
          if fst r <? 0 then failed executable else load_loop n (i + 1) inode header executable
        else load_loop n (i + 1) inode header executable
  end.

Definition elf_load (path : list Z) : M S (Z * elf_executable) :=
  let* dentry := fo_lookup path in
  if dentry =? 0 then ret (-1, no_executable)
  else
    let* inode := fo_inode_of dentry in
    let* r := fo_read inode ELF_HEADER_SIZE 0 in
    let '(rs, bytes) := r in
    if negb (rs =? ELF_HEADER_SIZE) then ret (-1, no_executable)
    else
      let header := decode_header bytes in
      if negb (header_ok header) then ret (-1, no_executable)
      else load_loop (Z.to_nat (h_program_header_num header)) 0 inode header no_executable.

Definition elf_copy (executable : elf_executable) : M S unit :=
  do* copy_segment_data (ex_text executable) in
  copy_segment_data (ex_data executable).
End Elf.
