(* ===== verification/ElfProofs.v ===== *)
(** * elf.c: properties

    [elf_image] is what an executable file means; [elf_load] finds it, and
    [elf_copy] puts it into user memory. *)

From stdpp Require Import base numbers list list_numbers gmap.
From S2P Require Import Prelude Bytes Arith Signal Buddy BuddyProofs KernelMem UserSpace Unix Kernel Pipe Files Process Hoare Block BlockProofs Minix Inode Dentry Fs FileStore Elf.

#[local] Open Scope Z_scope.
#[local] Open Scope kernel_scope.

(** ** The meaning of a file *)

(** A segment: where it goes, its size in memory, the bytes from the file. *)
Record image_segment : Set := ImageSegment { im_addr : Z; im_size : Z; im_bytes : list Z }.
Record image : Set := Image { im_entry : Z; im_text : option image_segment; im_data : option image_segment }.

(** The segment lies inside the part of user memory for programs. *)
Definition segment_fits (addr file_size memory_size : Z) : bool :=
  (file_size <=? memory_size) && (USER_ADDRESS_START <=? addr) && (addr + memory_size <? BRK_ADDRESS_END).

(** The segment of a program header: in range, and all its bytes are in the file. *)
Definition image_of (l : list Z) (ph : elf_program_header) : option image_segment :=
  let bytes := segment_of l (ph_offset ph) (ph_file_size ph) in
  if segment_fits (ph_virtual_addr ph) (ph_file_size ph) (ph_memory_size ph) && (Z.of_nat (length bytes) =? ph_file_size ph)
  then Some (ImageSegment (ph_virtual_addr ph) (ph_memory_size ph) bytes) else None.

(** The program headers in turn: at most one segment of each kind. *)
Fixpoint scan (n : nat) (i : Z) (h : elf_header) (l : list Z) (t d : option image_segment) : option image :=
  match n with
  | O => Some (Image (h_entry_point h) t d)
  | S n =>
      let offset := u32 (h_program_header_offset h + h_program_header_size h * i) in
      if offset + ELF_PROGRAM_HEADER_SIZE <=? Z.of_nat (length l) then
        let ph := decode_program_header (segment_of l offset ELF_PROGRAM_HEADER_SIZE) in
        if negb (ph_type ph =? ELF_PH_TYPE_LOAD) then scan n (i + 1) h l t d
        else if ph_flags ph =? 5 then
          match t, image_of l ph with None, Some x => scan n (i + 1) h l (Some x) d | _, _ => None end
        else if ph_flags ph =? 6 then
          match d, image_of l ph with None, Some x => scan n (i + 1) h l t (Some x) | _, _ => None end
        else scan n (i + 1) h l t d
      else None
  end.
Definition elf_image (l : list Z) : option image :=
  if ELF_HEADER_SIZE <=? Z.of_nat (length l) then
    let h := decode_header (take (Z.to_nat ELF_HEADER_SIZE) l) in
    if header_ok h then scan (Z.to_nat (h_program_header_num h)) 0 h l None None else None
  else None.

(** ** Numbers in buffers *)
Lemma get_le_range n l off : 0 <= n -> Forall is_u8 l -> 0 <= get_le n l off < 2 ^ (8 * n).
Proof.
  intros Hn Hl. unfold get_le. set (k := take _ _).
  assert (Hk : Forall (fun b => 0 <= b < 2 ^ 8) k).
  { eapply Forall_impl; [by apply Forall_take, Forall_drop, Hl|]. done. }
  pose proof (little_endian_to_Z_bound 8 k ltac:(lia) Hk) as H.
  assert (Z.of_nat (length k) * 8 <= 8 * n) by (subst k; rewrite length_take; lia).
  assert (2 ^ (Z.of_nat (length k) * 8) <= 2 ^ (8 * n)) by (apply Z.pow_le_mono_r; lia). lia.
Qed.

Record ph_wf (ph : elf_program_header) : Prop := {
  pw_offset : is_u32 (ph_offset ph);
  pw_addr : is_u32 (ph_virtual_addr ph);
  pw_file : is_u32 (ph_file_size ph);
  pw_memory : is_u32 (ph_memory_size ph);
}.
Lemma decode_program_header_wf l : Forall is_u8 l -> ph_wf (decode_program_header l).
Proof. intros Hl. split; cbn; by apply (get_le_range 4). Qed.

Lemma segment_of_length l start n : 0 <= start -> 0 <= n ->
  Z.of_nat (length (segment_of l start n)) = Z.max 0 (Z.min n (Z.of_nat (length l) - start)).
Proof. intros Hs Hn. unfold segment_of. rewrite length_take, length_drop. lia. Qed.

Lemma segment_of_u8 l start n : Forall is_u8 l -> Forall is_u8 (segment_of l start n).
Proof. intros Hl. by apply Forall_take, Forall_drop. Qed.

(** [validate_segment] is exact. *)
Lemma validate_segment_eq page ph data : ph_wf ph ->
  validate_segment (ElfSegment page (ph_virtual_addr ph) (ph_file_size ph) (ph_memory_size ph) data) =
  segment_fits (ph_virtual_addr ph) (ph_file_size ph) (ph_memory_size ph).
Proof.
  intros [_ Ha Hf Hm]. unfold validate_segment, segment_fits, IS_EXECUTABLE_ADDRESS. cbn [es_addr es_memory_size es_file_size].
  rewrite Z.ltb_antisym. destruct (ph_file_size ph <=? ph_memory_size ph) eqn:E; cbn [negb andb]; [|done].
  destruct (add_overflow_unsigned_long (ph_virtual_addr ph) (ph_memory_size ph)) eqn:Ho.
  - apply add_overflow_unsigned_long_ok in Ho; [|done|done]. symmetry. apply andb_false_iff. right. apply Z.ltb_ge.
    unfold is_u32, u32 in *. destruct (Z.lt_ge_cases (ph_virtual_addr ph + ph_memory_size ph) (2 ^ 32)).
    + destruct Ho. apply Z.mod_small. lia.
    + unfold BRK_ADDRESS_END. lia.
  - rewrite u32_small.
    + unfold USER_ADDRESS_START, BRK_ADDRESS_END, is_u32 in *. lia.
    + destruct (decide (is_u32 (ph_virtual_addr ph + ph_memory_size ph))) as [?|Hn]; [done|]. exfalso.
      assert (add_overflow_unsigned_long (ph_virtual_addr ph) (ph_memory_size ph) = true); [|congruence].
      apply add_overflow_unsigned_long_ok; [done|done|]. intros Hu. apply Hn. rewrite <- Hu. apply u32_range.
Qed.

(** ** Loading *)
Section Load.
Context {S : Type} `{KM : KernelMem S} {US : UserSpace S} {FO : FileOps S} {FL : FileLaws S}.
Context (C : gmap Z Z) (L : Z -> Z -> Prop) (s0 : S).
Implicit Types (s : S) (U : gset Z).

(** The memory of the callers with the pages [U], files and address spaces as
    in [s0]. *)
Definition at0 s U : Prop := km_inv s C L U /\ us_same s0 s /\ fl_same s0 s.

Lemma at0_step s s' U U' : at0 s U -> km_step s s' -> km_inv s' C L U' -> at0 s' U'.
Proof.
  intros (_ & H1 & H2) Hs HI. destruct (km_step_same _ _ Hs) as [H3 H4].
  split_and!; [done|by eapply us_same_trans|by eapply fl_same_trans].
Qed.

Lemma order_exists size : size <= 2 ^ PAGE_MAX_ORDER * PAGE_SIZE -> exists k, order_for size k.
Proof.
  intros Hs. pose proof (alloc_order_spec size (Z.to_nat PAGE_MAX_DEPTH) 0 ltac:(lia) ltac:(bconst; lia) ltac:(lia)) as H.
  destruct (alloc_order _ _ _) as [k|]; [by exists k|]. specialize (H PAGE_MAX_ORDER ltac:(bconst; lia)). lia.
Qed.

(** A block of any size; the kernel halts when there is none. *)
Lemma page_alloc_any s U size : at0 s U ->
  runs (km_page_alloc size) s (fun i s' => i ∉ U /\ 0 <= i < PAGE_NUM /\ at0 s' ({[i]} ∪ U)).
Proof.
  intros H. pose proof H as (HI & _). apply runs_inv. destruct (Z.le_gt_cases size (2 ^ PAGE_MAX_ORDER * PAGE_SIZE)) as [Hs|Hs].
  - destruct (order_exists size Hs) as [k Hk].
    destruct (km_page_alloc_spec _ _ _ _ _ _ HI Hk) as [E|(i & s' & E & Hi & Hr & HI')]; [by left|right].
    exists i, s'. split_and!; [done|done|lia|lia|]. eapply at0_step; [done| |done]. by eapply ks_page_alloc.
  - left. by apply km_too_big.
Qed.

Lemma page_free_ok s U i : at0 s U -> i ∈ U ->
  runs (km_page_free i) s (fun _ s' => at0 s' (U ∖ {[i]})).
Proof.
  intros H Hi. pose proof H as (HI & _). destruct (km_page_free_spec _ _ _ _ i HI Hi) as (s' & E & HI').
  eapply runs_ok; [exact E|]. eapply at0_step; [done| |done]. by eapply ks_page_free.
Qed.

Lemma file_kept s U i n l : at0 s U -> fl_file s0 i n l -> fl_file s i n l.
Proof. intros (_ & _ & _ & _ & H). apply H. Qed.

Lemma read_file s U i n l size start : at0 s U -> fl_file s0 i n l -> 0 <= size < 2 ^ 31 -> 0 <= start ->
  runs (fo_read i size start) s (fun r s' =>
    r = (Z.of_nat (length (segment_of l start size)), segment_of l start size) /\ at0 s' U).
Proof.
  intros H Hf Hs Hst. pose proof (file_kept _ _ _ _ _ H Hf) as Hf'. destruct H as (HI & H1 & H2).
  eapply runs_mono; [by apply (fl_read_spec _ _ _ _ _ _ _ _ _ HI Hf' Hs Hst)|].
  intros r s' (-> & HI' & H3 & H4). split; [done|]. split_and!; [done|by eapply us_same_trans|by eapply fl_same_trans].
Qed.

(** A segment of an executable that stands for one of the image. *)
Definition seg_is (e : elf_segment) (o : option image_segment) : Prop :=
  match o with
  | None => es_page e = None
  | Some x => is_Some (es_page e) /\ es_addr e = im_addr x /\ es_memory_size e = im_size x /\
      es_file_size e = Z.of_nat (length (im_bytes x)) /\ es_data e = im_bytes x
  end.
Definition seg_pages (e : elf_segment) : gset Z := match es_page e with Some p => {[p]} | None => ∅ end.

Definition ex_pages (e : elf_executable) : gset Z := seg_pages (ex_text e) ∪ seg_pages (ex_data e).

Lemma release_segment_ok s U e : at0 s U -> seg_pages e ⊆ U ->
  runs (release_segment e) s (fun e' s' => e' = set_es_page None e /\ at0 s' (U ∖ seg_pages e)).
Proof.
  intros H Hp. unfold release_segment, seg_pages in *. destruct (es_page e) as [p|] eqn:E.
  - rstep page_free_ok as [] s1 H1; [done|set_solver|]. by apply runs_ret.
  - apply runs_ret. replace (U ∖ ∅) with U by set_solver. split; [|done]. destruct e as [q ? ? ? ?]. cbn in E. by rewrite E.
Qed.

Lemma load_segment_ok s U e ph i n l : at0 s U -> fl_file s0 i n l -> ph_wf ph ->
  runs (load_segment e ph i) s (fun r s' =>
    match es_page e, image_of l ph with
    | None, Some x => fst r = 0 /\ seg_is (snd r) (Some x) /\ seg_pages (snd r) ## U /\ at0 s' (seg_pages (snd r) ∪ U)
    | _, _ => fst r = -1 /\ seg_pages (snd r) = seg_pages e /\ at0 s' U
    end).
Proof.
  intros H Hf W. unfold load_segment. destruct (es_page e) as [p|] eqn:Ep. { by apply runs_ret. }
  rstep page_alloc_any as p s1 (Hp & _ & H1); [done|]. rewrite (validate_segment_eq (Some p) ph [] W). unfold image_of.
  assert (Hback : at0 s1 ({[p]} ∪ U) -> forall e', es_page e' = Some p -> forall s2, at0 s2 ({[p]} ∪ U) ->
    runs (let* segment := release_segment e' in ret (-1, segment)) s2 (fun r s' =>
      fst r = -1 /\ seg_pages (snd r) = seg_pages e /\ at0 s' U)).
  { intros _ e' E' s2 H2. assert (Es : seg_pages e' = {[p]}) by (unfold seg_pages; by rewrite E').
    rstep release_segment_ok as e2 s3 (-> & H3); [done|rewrite Es; set_solver|]. apply runs_ret. split; [done|].
    unfold seg_pages. rewrite Ep. split; [done|]. rewrite Es in H3.
    by replace (({[p]} ∪ U) ∖ {[p]}) with U in H3 by set_solver. }
  destruct (segment_fits _ _ _) eqn:Efit; cbn [negb andb].
  2: { by apply Hback. }
  assert (Hsz : 0 <= ph_file_size ph < 2 ^ 31).
  { unfold segment_fits, BRK_ADDRESS_END in Efit. destruct W as [_ ? ? ?]. unfold is_u32 in *. lia. }
  rstep read_file as r s2 (-> & H2); [done|done|done|apply W|]. cbn [es_file_size set_es_data].
  pose proof (segment_of_length l (ph_offset ph) (ph_file_size ph) (proj1 (pw_offset _ W)) ltac:(lia)) as Hlen.
  set (bytes := segment_of _ _ _) in *. rewrite (proj2 (Z.ltb_ge _ 0)) by lia.
  rewrite u32_small by (unfold is_u32; lia). cbn [orb].
  destruct (Z.eqb_spec (Z.of_nat (length bytes)) (ph_file_size ph)) as [El|El]; cbn [negb].
  - apply runs_ret. cbn [fst snd]. split; [done|]. split.
    + cbn. split_and!; [by eexists|done|done|done|done].
    + unfold seg_pages. cbn [es_page set_es_data]. split; [set_solver|done].
  - by apply Hback.
Qed.

(** The executable stands for the segments found so far. *)
Record exec_is (U : gset Z) (e : elf_executable) (t d : option image_segment) : Prop := {
  xi_text : seg_is (ex_text e) t;
  xi_data : seg_is (ex_data e) d;
  xi_apart : seg_pages (ex_text e) ## seg_pages (ex_data e);
  xi_fresh : ex_pages e ## U;
}.

Lemma elf_release_ok s U e : at0 s (ex_pages e ∪ U) -> ex_pages e ## U -> seg_pages (ex_text e) ## seg_pages (ex_data e) ->
  runs (elf_release e) s (fun e' s' => at0 s' U).
Proof.
  intros H Hd Ht. unfold elf_release, ex_pages in *.
  rstep release_segment_ok as t s1 (-> & H1); [done|set_solver|].
  rstep release_segment_ok as d s2 (-> & H2); [done|cbn; set_solver|]. apply runs_ret. cbn in H2.
  by replace ((seg_pages (ex_text e) ∪ seg_pages (ex_data e) ∪ U) ∖ seg_pages (ex_text e) ∖ seg_pages (ex_data e)) with U in H2 by set_solver.
Qed.

(** The same, by what the segment stands for. *)
Lemma load_step s U e o ph i n l : at0 s U -> fl_file s0 i n l -> ph_wf ph -> seg_is e o ->
  runs (load_segment e ph i) s (fun r s' =>
    match o, image_of l ph with
    | None, Some x => fst r = 0 /\ seg_is (snd r) (Some x) /\ seg_pages e = ∅ /\ seg_pages (snd r) ## U /\ at0 s' (seg_pages (snd r) ∪ U)
    | _, _ => fst r = -1 /\ seg_pages (snd r) = seg_pages e /\ at0 s' U
    end).
Proof.
  intros H Hf W He. eapply runs_mono; [by apply (load_segment_ok s U e ph i n l)|]. intros r s' Hr.
  destruct o as [x|]; cbn in He.
  - destruct He as ([p Hp] & _). rewrite Hp in Hr. done.
  - assert (Hn : seg_pages e = ∅) by (unfold seg_pages; by rewrite He). rewrite He in Hr.
    destruct (image_of l ph); [|done]. destruct Hr as (H1 & H2 & H3 & H4). by split_and!.
Qed.

(** What [elf_load] leaves: the executable with its blocks, or blocks that
    nobody has a pointer to. *)
Definition loaded (U : gset Z) (o : option image) (r : Z * elf_executable) s : Prop :=
  match o with
  | Some im => fst r = 0 /\ ex_entry_point (snd r) = im_entry im /\ exec_is U (snd r) (im_text im) (im_data im) /\
      at0 s (ex_pages (snd r) ∪ U)
  | None => fst r = -1 /\ exists P, P ## U /\ at0 s (P ∪ U)
  end.

Lemma failed_ok s U e : at0 s (ex_pages e ∪ U) -> ex_pages e ## U -> seg_pages (ex_text e) ## seg_pages (ex_data e) ->
  runs (let* e := elf_release e in ret (-1, e)) s (loaded U None).
Proof.
  intros H H1 H2. rstep elf_release_ok as e' s' H'; [done|done|done|]. apply runs_ret. split; [done|].
  exists ∅. split; [set_solver|]. by replace (∅ ∪ U) with U by set_solver.
Qed.

Lemma load_loop_ok i n l h U : fl_file s0 i n l -> Forall is_u8 l ->
  forall k j s e t d, at0 s (ex_pages e ∪ U) -> exec_is U e t d ->
  runs (load_loop k j i h e) s (loaded U (scan k j h l t d)).
Proof.
  intros Hf Hl. induction k as [|k IH]; intros j s e t d H X; cbn [load_loop scan].
  { apply runs_ret. split; [done|]. split; [done|]. split; [by destruct X; split|done]. }
  cbv zeta. set (off := u32 _). assert (Hoff : 0 <= off) by apply u32_range.
  rstep read_file as r s1 (-> & H1); [done|done|unfold ELF_PROGRAM_HEADER_SIZE; lia|done|].
  rewrite segment_of_length by (done || unfold ELF_PROGRAM_HEADER_SIZE; lia). cbv zeta. unfold ELF_PROGRAM_HEADER_SIZE.
  destruct (Z.leb_spec (off + 32) (Z.of_nat (length l))) as [Hin|Hout].
  2: { rewrite (proj2 (Z.eqb_neq _ 32)) by lia. apply runs_ret. split; [done|]. exists (ex_pages e). split; [apply X|done]. }
  rewrite (proj2 (Z.eqb_eq _ 32)) by lia. cbn [negb]. set (ph := decode_program_header _).
  assert (W : ph_wf ph) by (by apply decode_program_header_wf, segment_of_u8).
  destruct (negb (ph_type ph =? ELF_PH_TYPE_LOAD)); [by apply IH|].
  change (Z.lor ELF_PH_FLAGS_R ELF_PH_FLAGS_X) with 5. change (Z.lor ELF_PH_FLAGS_R ELF_PH_FLAGS_W) with 6.
  destruct X as [X1 X2 X3 X4]. unfold ex_pages in *.
  destruct (ph_flags ph =? 5) eqn:E5; [|destruct (ph_flags ph =? 6) eqn:E6; [|by apply IH]].
  - rstep load_step as r s2 H2; [done|done|done|exact X1|]. destruct t as [x0|], (image_of l ph) as [x|].
    2: { destruct H2 as (E & Hpg & H2). rewrite E. apply failed_ok; unfold ex_pages; cbn; rewrite Hpg; done. }
    1: { destruct H2 as (E & Hpg & H2). rewrite E. apply failed_ok; unfold ex_pages; cbn; rewrite Hpg; done. }
    2: { destruct H2 as (E & Hpg & H2). rewrite E. apply failed_ok; unfold ex_pages; cbn; rewrite Hpg; done. }
    destruct H2 as (E & Hseg & Hnone & Hdis & H2). rewrite E. change (0 <? 0) with false. cbn iota. rewrite Hnone in *. apply IH; cbn.
    + by replace (seg_pages (snd r) ∪ seg_pages (ex_data e) ∪ U) with (seg_pages (snd r) ∪ (∅ ∪ seg_pages (ex_data e) ∪ U)) by set_solver.
    + split; unfold ex_pages; cbn; [done|done|set_solver|set_solver].
  - rstep load_step as r s2 H2; [done|done|done|exact X2|]. destruct d as [x0|], (image_of l ph) as [x|].
    2: { destruct H2 as (E & Hpg & H2). rewrite E. apply failed_ok; unfold ex_pages; cbn; rewrite Hpg; done. }
    1: { destruct H2 as (E & Hpg & H2). rewrite E. apply failed_ok; unfold ex_pages; cbn; rewrite Hpg; done. }
    2: { destruct H2 as (E & Hpg & H2). rewrite E. apply failed_ok; unfold ex_pages; cbn; rewrite Hpg; done. }
    destruct H2 as (E & Hseg & Hnone & Hdis & H2). rewrite E. change (0 <? 0) with false. cbn iota. rewrite Hnone in *. apply IH; cbn.
    + by replace (seg_pages (ex_text e) ∪ seg_pages (snd r) ∪ U) with (seg_pages (snd r) ∪ (seg_pages (ex_text e) ∪ ∅ ∪ U)) by set_solver.
    + split; unfold ex_pages; cbn; [done|done|set_solver|set_solver].
Qed.

Lemma decode_header_image l : ELF_HEADER_SIZE <= Z.of_nat (length l) ->
  segment_of l 0 ELF_HEADER_SIZE = take (Z.to_nat ELF_HEADER_SIZE) l.
Proof. intros _. unfold segment_of. by rewrite drop_0. Qed.

(** [elf_load] after the look-up. *)
Definition load_found (dentry : Z) : M S (Z * elf_executable) :=
  if dentry =? 0 then ret (-1, no_executable)
  else
    let* inode := fo_inode_of dentry in
    let* r := fo_read inode ELF_HEADER_SIZE 0 in
    let '(rs, bytes) := r in
    if negb (rs =? ELF_HEADER_SIZE) then ret (-1, no_executable)
    else
      let header := decode_header bytes in
      if negb (header_ok header) then ret (-1, no_executable)
      else load_loop (Z.to_nat (h_program_header_num header)) 0 inode header no_executable.
Lemma load_entry_ok s U d i n l : at0 s U -> d <> 0 -> fl_node s d = Some i -> fl_file s0 i n l ->
  runs (load_found d) s (loaded U (elf_image l)).
Proof.
  intros H1 H0 Hi Hf. unfold load_found. rewrite (proj2 (Z.eqb_neq _ 0)) by done.
  pose proof H1 as (HI1 & _). apply runs_bind. eapply runs_ok; [by apply fl_node_spec|].
  destruct (fl_size _ _ _ _ _ _ _ HI1 (file_kept _ _ _ _ _ H1 Hf)) as (_ & _ & Hl).
  rstep read_file as r s2 (-> & H2); [done|done|unfold ELF_HEADER_SIZE; lia|done|].
  rewrite segment_of_length by (done || unfold ELF_HEADER_SIZE; lia). unfold elf_image.
  assert (Hfail : forall s3, at0 s3 U -> loaded U None (-1, no_executable) s3).
  { intros s3 H3. split; [done|]. exists ∅. split; [set_solver|]. by replace (∅ ∪ U) with U by set_solver. }
  destruct (Z.leb_spec ELF_HEADER_SIZE (Z.of_nat (length l))) as [Hh|Hh].
  2: { rewrite (proj2 (Z.eqb_neq _ ELF_HEADER_SIZE)) by (unfold ELF_HEADER_SIZE in *; lia). by apply runs_ret, Hfail. }
  rewrite (proj2 (Z.eqb_eq _ ELF_HEADER_SIZE)) by (unfold ELF_HEADER_SIZE in *; lia). cbn [negb]. cbv zeta. rewrite decode_header_image by done.
  destruct (header_ok _); cbn [negb]; [|by apply runs_ret, Hfail].
  apply (load_loop_ok i n l _ U Hf Hl).
  - unfold ex_pages, seg_pages. cbn. by replace (∅ ∪ ∅ ∪ U) with U by set_solver.
  - split; unfold ex_pages, seg_pages; cbn; [done|done|set_solver|set_solver].
Qed.
End Load.

(** [elf_load] of the file behind a path. *)
Section LoadPath.
Context {S : Type} `{KM : KernelMem S} {US : UserSpace S} {FO : FileOps S} {FL : FileLaws S}.
Context (C : gmap Z Z) (L : Z -> Z -> Prop).
Implicit Types (s : S) (U : gset Z).

Lemma at0_trans s0 s1 s U U' : at0 C L s0 s1 U -> at0 C L s1 s U' -> at0 C L s0 s U'.
Proof. intros (_ & A1 & A2) (B0 & B1 & B2). split_and!; [done|by eapply us_same_trans|by eapply fl_same_trans]. Qed.
Lemma loaded_trans s0 s1 U U' o r s : at0 C L s0 s1 U' -> loaded C L s1 U o r s -> loaded C L s0 U o r s.
Proof.
  intros H1. unfold loaded. destruct o as [im|].
  - intros (A1 & A2 & A3 & A4). split_and!; [done|done|done|]. by eapply at0_trans.
  - intros (A1 & P & A2 & A3). split; [done|]. exists P. split; [done|]. by eapply at0_trans.
Qed.

(** What the file behind a path is as a program. *)
Definition path_image s (path : list Z) : option image := match fl_path s path with Some (_, l) => elf_image l | None => None end.

Lemma elf_load_ok s U path : km_inv s C L U -> Forall (fun c => c <> 0) path ->
  runs (elf_load path) s (loaded C L s U (path_image s path)).
Proof.
  intros HI Hp. change (elf_load path) with (bind (fo_lookup path) load_found). unfold path_image.
  eapply runs_step; [by apply (fl_lookup_spec _ _ _ _ path HI Hp)|].
  intros d s1 (HI1 & H1 & H2 & Hd). cbn beta. assert (A1 : at0 C L s s1 U) by done.
  destruct (fl_path s path) as [[n l]|].
  - destruct Hd as (H0 & i & Hi & Hf). eapply runs_mono.
    + apply (load_entry_ok C L s1 s1 U d i n l); [by split_and!; [|apply us_same_refl|apply fl_same_refl]|done|done|done].
    + intros r s' Hl. by eapply loaded_trans.
  - subst d. apply runs_ret. split; [done|]. exists ∅. split; [set_solver|]. by replace (∅ ∪ U) with U by set_solver.
Qed.
End LoadPath.

(** ** Copying *)
Section Copy.
Context {S : Type} `{KM : KernelMem S} {US : UserSpace S} {FO : FileOps S} {FL : FileLaws S}.
Implicit Types (s : S).

Lemma us_write_app l1 l2 : forall a s, is_u32 a ->
  us_write a (l1 ++ l2) s = (do* us_write a l1 in us_write (u32 (a + Z.of_nat (length l1))) l2) s.
Proof.
  induction l1 as [|b l1 IH]; intros a s Ha; cbn [app us_write length].
  - change (Z.of_nat 0) with 0. rewrite Z.add_0_r, u32_small by done. reflexivity.
  - rewrite bind_assoc. destruct (us_store a b s) as [[[] s']|r] eqn:E; [|by rewrite !(bind_err _ _ _ _ E)].
    rewrite !(bind_ok _ _ _ _ _ E). cbn beta. rewrite IH by apply u32_range.
    replace (u32 (u32 (a + 1) + Z.of_nat (length l1))) with (u32 (a + Z.of_nat (Datatypes.S (length l1)))); [done|].
    unfold u32. rewrite Zplus_mod_idemp_l. f_equal. lia.
Qed.

Lemma us_write_files l : forall a s s', us_write a l s = Ok (tt, s') -> fl_same s s'.
Proof.
  induction l as [|b l IH]; intros a s s'; cbn [us_write]; [intros [= <-]; done|].
  unfold bind. destruct (us_store a b s) as [[[] s1]|] eqn:E; [|done]. intros H.
  eapply fl_same_trans; [|by eapply IH]. apply fl_us_step. by eapply uss_store.
Qed.

(** The bytes of a segment in memory. *)
Definition image_bytes (x : image_segment) : list Z :=
  im_bytes x ++ replicate (Z.to_nat (im_size x) - length (im_bytes x)) 0.

Lemma image_bytes_length x : Z.of_nat (length (im_bytes x)) <= im_size x -> Z.of_nat (length (image_bytes x)) = im_size x.
Proof. intros H. unfold image_bytes. rewrite length_app, length_replicate. lia. Qed.

(** The segment has a place in the memory for programs. *)
Record placed (x : image_segment) : Prop := {
  pl_start : USER_ADDRESS_START <= im_addr x;
  pl_end : im_addr x + im_size x < BRK_ADDRESS_END;
  pl_bytes : Z.of_nat (length (im_bytes x)) <= im_size x;
  pl_u8 : Forall is_u8 (im_bytes x);
}.

Lemma image_of_placed l ph x : Forall is_u8 l -> image_of l ph = Some x -> placed x.
Proof.
  intros Hl. unfold image_of. destruct (segment_fits _ _ _) eqn:E; [|done]. destruct (Z.eqb_spec (Z.of_nat (length (segment_of l (ph_offset ph) (ph_file_size ph)))) (ph_file_size ph)); [|done].
  cbn [andb]. intros [= <-]. unfold segment_fits in E. split; cbn; [lia|lia|lia|by apply segment_of_u8].
Qed.

Lemma copy_segment_ok C L U s e x : km_inv s C L U -> seg_is e (Some x) -> placed x ->
  mapped_at s (im_addr x) (im_size x) ->
  exists s', copy_segment_data e s = Ok (tt, s') /\ writes_only s s' (im_addr x) (im_size x) /\ bytes_at s' (im_addr x) (image_bytes x) /\ fl_same s s'.
Proof.
  intros HI ([p Ep] & Ea & Em & Ef & Ed) [P1 P2 P3 P4] Hm. unfold copy_segment_data. rewrite Ep. cbn [opt]. unfold bind at 1, ret at 1.
  unfold USER_ADDRESS_START, BRK_ADDRESS_END in *.
  assert (E : forall t, (do* us_write (es_addr e) (take (Z.to_nat (es_file_size e)) (es_data e)) in
     us_write (u32 (es_addr e + es_file_size e)) (replicate (Z.to_nat (u32 (es_memory_size e - es_file_size e))) 0)) t =
     us_write (im_addr x) (image_bytes x) t).
  { intros t. unfold image_bytes. rewrite us_write_app by (unfold is_u32; lia). rewrite Ea, Em, Ef, Ed, Nat2Z.id, firstn_all.
    rewrite (u32_small (im_size x - _)) by (unfold is_u32; lia).
    by replace (Z.to_nat (im_size x - Z.of_nat (length (im_bytes x)))) with (Z.to_nat (im_size x) - length (im_bytes x))%nat by lia. }
  rewrite E. pose proof (image_bytes_length x P3) as Hlen.
  destruct (us_write_ok C L U (image_bytes x) s (im_addr x) HI) as (s' & E' & W & B); [lia|lia| |by rewrite Hlen|].
  { unfold image_bytes. apply Forall_app. split; [done|]. apply Forall_replicate. unfold is_u8. lia. }
  exists s'. rewrite Hlen in W. split_and!; [done|done|done|by eapply us_write_files].
Qed.
End Copy.
