(* ===== verification/Exec.v ===== *)
(** * Programs and their arguments: model

    [process_init], [process_create] and [process_exec] of process.c, with the
    copying of the argument vectors.  A vector of strings is the list of its
    strings (without the final 0), a null vector the empty list; [load_vector]
    reads one from user memory.  The block of [struct argv_envp], to which the
    strings are copied before the old address space goes, is the pair of lists. *)

From stdpp Require Import base numbers list list_numbers gmap.
From S2P Require Import Prelude Bytes Arith Signal Buddy BuddyProofs KernelMem UserSpace Unix Kernel Pipe Files Process Hoare Loop Block BlockProofs Minix Inode Dentry Fs FileStore Elf.

#[local] Open Scope Z_scope.
#[local] Open Scope kernel_scope.

Record argv_envp : Set := ArgvEnvp {
  av_size : Z;
  av_nr : Z;
  av_argc : Z;
  av_argv : list (list Z);
  av_envp : list (list Z);
  av_page : option Z;
}.

(** The characters of the strings with their final zeros. *)
Definition string_bytes (l : list (list Z)) : Z := foldr (fun s n => Z.of_nat (length s) + 1 + n) 0 l.

Definition set_c_sp (v : Z) (x : process_context) : process_context := Context (c_cpsr x) (c_r x) v (c_lr x) (c_pc x).
Definition set_c_pc (v : Z) (x : process_context) : process_context := Context (c_cpsr x) (c_r x) (c_sp x) (c_lr x) v.
Definition set_c_cpsr (v : Z) (x : process_context) : process_context := Context v (c_r x) (c_sp x) (c_lr x) (c_pc x).

(** The loop of [process_exec] over the actions of the signals. *)
Definition reset_action (a : k_sigaction) : k_sigaction :=
  if negb (ksa_handler a =? SIG_DFL) && negb (ksa_handler a =? SIG_IGN)
  then KSigaction SIG_DFL (ksa_flags a) (ksa_restorer a) (ksa_mask a) else a.

Section Vectors.
Context {S : Type} `{KM : KernelMem S} {US : UserSpace S}.

(** A string and a vector of strings in user memory; a walk over user memory
    has less than [2 ^ 32] steps. *)
Definition string_step (x : Z * list Z) : M S ((Z * list Z) + list Z) :=
  let '(a, acc) := x in
  let* c := us_load a in
  if c =? 0 then ret (inr (reverse acc)) else ret (inl (u32 (a + 1), c :: acc)).
Definition load_string (a : Z) : M S (list Z) :=
  let* r := loop string_step 32 (a, []) in
  match r with inr l => ret l | inl _ => fail Fuel end.
Definition load_word (a : Z) : M S Z := let* l := us_read 4 a in ret (get_word l 0).
Definition vector_step (x : Z * list (list Z)) : M S ((Z * list (list Z)) + list (list Z)) :=
  let '(a, acc) := x in
  let* p := load_word a in
  if p =? 0 then ret (inr (reverse acc))
  else let* s := load_string p in ret (inl (u32 (a + 4), s :: acc)).
Definition load_vector (a : Z) : M S (list (list Z)) :=
  if a =? 0 then ret []
  else
    let* r := loop vector_step 32 (a, []) in
    match r with inr l => ret l | inl _ => fail Fuel end.

Definition no_avep : argv_envp := ArgvEnvp 0 0 0 [] [] None.

Definition prepare_argv_and_envp (argv envp : list (list Z)) : M S (Z * argv_envp) :=
  let argc := Z.of_nat (length argv) in
  let nr := 2 + Z.of_nat (length argv) + Z.of_nat (length envp) in
  let nc := string_bytes argv + string_bytes envp in
  let size := s32 (ALIGN (u32 (4 + nr * 4 + nc)) 3) in
  let size := if size <? 0x100 then 0x100 else size in
  if ARG_MAX <? size then ret (- E2BIG, no_avep)
  else
    let* page := km_page_alloc size in
    (* the pointers and the characters are stored from the start of the block on *)
    if size <? 4 * nr + nc then fail Fault
    else ret (0, ArgvEnvp size nr argc argv envp (Some page)).

(** Pointers at [uarg], characters at [uchar]; both move on. *)
Fixpoint copy_strings (l : list (list Z)) (uarg uchar : Z) : M S (Z * Z) :=
  match l with
  | [] => ret (uarg, uchar)
  | s :: l =>
      do* us_write uarg (le32 uchar) in
      do* us_write uchar (s ++ [0]) in
      copy_strings l (u32 (uarg + 4)) (u32 (uchar + Z.of_nat (length s) + 1))
  end.
Definition copy_argv_and_envp (avep : argv_envp) (ustack : Z) : M S Z :=
  let uarg := u32 (ustack - av_size avep) in
  let uchar := u32 (uarg + 4 * av_nr avep + 4) in
  do* us_write uarg (le32 (av_argc avep)) in
  let uarg := u32 (uarg + 4) in
  let* r := copy_strings (av_argv avep) uarg uchar in
  let '(uarg, uchar) := r in
  do* us_write uarg (le32 0) in
  let uarg := u32 (uarg + 4) in
  let* r := copy_strings (av_envp avep) uarg uchar in
  let '(uarg, uchar) := r in
  do* us_write uarg (le32 0) in
  ret (u32 (ustack - av_size avep)).

Definition release_argv_and_envp (avep : argv_envp) : M S unit :=
  match av_page avep with Some page => km_page_free page | None => ret tt end.
End Vectors.

Section Exec.
Context {S : Type} `{KM : KernelMem S} {US : UserSpace S} {FO : FileOps S}.
Notation state := (kernel S).
Context (terminal_config : Z).

(** [create_segments(process, &executable)] and the start of the heap. *)
Definition setup_segments (p : Z) (executable : elf_executable) : M state unit :=
  do* create_segments p (es_addr (ex_text executable)) (es_memory_size (ex_text executable))
        (es_addr (ex_data executable)) (es_memory_size (ex_data executable)) in
  let* heap := get_segment p SEGMENT_TYPE_HEAP in
  upd_proc p (set_p_brk (s_start heap)).

(** From [alloc_segments] to the new stack pointer, in the space of [process]. *)
Definition fill_space (process : Z) (executable : elf_executable) (avep : argv_envp) : M state Z :=
  do* alloc_segments process in
  do* kmem (elf_copy executable) in
  let* _ := kmem (elf_release executable) in
  let* stack := kmem (copy_argv_and_envp avep STACK_END) in
  do* kmem (release_argv_and_envp avep) in
  ret stack.

(** [process_create] once the program is loaded. *)
Definition create_program (executable : elf_executable) (avep : argv_envp) : M state Z :=
  let* process := process_alloc in
  do* upd_proc process (set_p_parent process) in
  do* setup_segments process executable in
  let* x := get_proc process in
  let* old_pid := mmu_set_ttb (p_id x) in
  let* stack := fill_space process executable avep in
  do* upd_proc process (fun x => set_p_context (set_c_cpsr 0x00000010 (p_context x)) x) in
  do* upd_proc process (fun x => set_p_context (set_c_sp stack (p_context x)) x) in
  do* upd_proc process (fun x => set_p_context (set_c_pc (ex_entry_point executable) (p_context x)) x) in
  let* r := create_tty terminal_config process in
  let* tty := (if r <? 0 then fail Halt else get_fd process 0) in
  do* (if tty =? 0 then fail Halt else ret tt) in
  do* countup_file tty in
  do* set_fd process 1 tty in
  do* countup_file tty in
  do* set_fd process 2 tty in
  let* _ := mmu_set_ttb old_pid in
  let* x := get_proc process in
  ret (p_id x).

Definition process_create (path : list Z) : M state Z :=
  let* r := kmem (prepare_argv_and_envp [path] []) in
  let '(r, avep) := r in
  if r <? 0 then ret r
  else
    let* r := kmem (elf_load path) in
    let '(r, executable) := r in
    if r <? 0 then do* kmem (release_argv_and_envp avep) in ret (- EACCES)
    else create_program executable avep.

(** [process_exec] once the program is loaded. *)
Definition exec_program (process : Z) (executable : elf_executable) (avep : argv_envp) : M state Z :=
  do* setup_segments process executable in
  do* upd_proc process (fun x => set_p_actions (reset_action <$> p_actions x) x) in
  do* exec_files (Z.to_nat MAX_FD_SIZE) process 0 in
  let* x := get_proc process in
  let* _ := mmu_destroy (p_id x) in
  let* _ := mmu_set_ttb (p_id x) in
  let* stack := fill_space process executable avep in
  do* upd_proc process (set_p_context zero_context) in
  do* upd_proc process (fun x => set_p_context (set_c_cpsr 0x00000010 (p_context x)) x) in
  do* upd_proc process (fun x => set_p_context (set_c_sp stack (p_context x)) x) in
  do* upd_proc process (fun x => set_p_context (set_c_pc (ex_entry_point executable) (p_context x)) x) in
  ret 0.

Definition process_exec (path : list Z) (argv envp : list (list Z)) : M state Z :=
  let* process := gets current_process in
  let* r := kmem (prepare_argv_and_envp argv envp) in
  let '(r, avep) := r in
  if r <? 0 then ret r
  else
    let* r := kmem (elf_load path) in
    let '(r, executable) := r in
    if r <? 0 then do* kmem (release_argv_and_envp avep) in ret (- EACCES)
    else exec_program process executable avep.
End Exec.
