(* ===== verification/Syscall.v ===== *)
(** * syscall.c: model

    The checks of pointers from user space and every system call.  The registers
    of the caller are those saved in [p_context] of the running process; a call
    that sleeps leaves its locals ([Some]), and [syscall_resume] is the rest of it
    after the sleep.  The strings of config.h, which the build generates, are
    arguments. *)

From stdpp Require Import base numbers list list_numbers gmap.
From S2P Require Import Prelude Bytes Arith Signal Buddy BuddyProofs KernelMem UserSpace Unix Devices Kernel Pipe Files Process Hoare Loop Block BlockProofs Minix Inode Dentry Fs FileStore Tty Io Elf Exec.

#[local] Open Scope Z_scope.
#[local] Open Scope kernel_scope.

Definition ERANGE : Z := 34.
Definition IS_USER_ADDRESSS (address : Z) : bool :=
  (USER_ADDRESS_START <=? address) && (address <? USER_ADDRESS_END).

Definition check_address_range (p s : Z) : bool :=
  if add_overflow_unsigned_long p s then false
  else IS_USER_ADDRESSS p && IS_USER_ADDRESSS (u32 (p + s)).

(** The structures that are read or stored, as they are laid out. *)
Definition IOVEC_SIZE : Z := 8.
Definition K_SIGACTION_SIZE : Z := 20.
Definition WINSIZE_SIZE : Z := 8.
Definition UTSNAME_SIZE : Z := 390.
Definition STAT64_SIZE : Z := 104.
Definition k_sigaction_bytes (a : k_sigaction) : list Z :=
  le32 (ksa_handler a) ++ le32 (ksa_flags a) ++ le32 (ksa_restorer a) ++ sigset_bytes (ksa_mask a).
Definition k_sigaction_of_bytes (l : list Z) : k_sigaction :=
  KSigaction (get_word l 0) (get_word l 1) (get_word l 2) (Sigset (get_word l 3) (get_word l 4)).
Definition stat64_bytes (st : stat64) : list Z :=
  replicate 16 0 ++ le32 (st_mode st) ++ le32 (st_nlink st) ++ replicate 24 0 ++
  Z_to_little_endian 8 8 (st_size st) ++ le32 (st_blksize st) ++ replicate 4 0 ++
  Z_to_little_endian 8 8 (st_blocks st) ++ replicate 24 0 ++ Z_to_little_endian 8 8 (st_ino st).

Section Checks.
Context {S : Type} `{KM : KernelMem S} {US : UserSpace S}.

(** One turn: [iov] points to the entry, [n] are left. *)
Fixpoint check_iovec (n : nat) (iov : Z) : M S bool :=
  match n with
  | O => ret true
  | Datatypes.S n =>
      if negb (check_address_range iov IOVEC_SIZE) then ret false
      else
        let* base := load_word iov in
        let* len := load_word (u32 (iov + 4)) in
        if truthy len && negb (check_address_range base len) then ret false
        else check_iovec n (u32 (iov + IOVEC_SIZE))
  end.

Definition check_string_step (s : Z) : M S (Z + bool) :=
  if negb (IS_USER_ADDRESSS s) then ret (inr false)
  else
    let* c := us_load s in
    if truthy c then ret (inl (u32 (s + 1))) else ret (inr true).
Definition check_string (s : Z) : M S bool :=
  let* r := loop check_string_step 32 s in
  match r with inr b => ret b | inl _ => fail Fuel end.

Definition check_avep_step (avep : Z) : M S (Z + bool) :=
  if negb (IS_USER_ADDRESSS avep) then ret (inr false)
  else
    let* p := load_word avep in
    if p =? 0 then ret (inr true)
    else
      let* ok := check_string p in
      if ok then ret (inl (u32 (avep + 4))) else ret (inr false).
Definition check_avep (avep : Z) : M S bool :=
  if avep =? 0 then ret true
  else
    let* r := loop check_avep_step 32 avep in
    match r with inr b => ret b | inl _ => fail Fuel end.
End Checks.

(** config.h: [CYANURUS_SYSNAME], [CYANURUS_RELEASE], [CYANURUS_VERSION] and
    [CYANURUS_MACHINE]. *)
Record config : Set := Config {
  cf_sysname : list Z;
  cf_release : list Z;
  cf_version : list Z;
  cf_machine : list Z;
}.

Section Syscall.
Context {S : Type} `{KM : KernelMem S} {US : UserSpace S} {FO : FileOps S} {IO : Mmio S}.
Context (terminal_config : Z) (polls : nat) (conf : config).
Notation state := (kernel S).

(** [args[i]] and [args[0] = r]. *)
Definition get_arg (i : nat) : M state Z :=
  let* cur := gets current_process in
  let* x := get_proc cur in
  opt Fault (c_r (p_context x) !! i).
Definition set_result (r : Z) : M state unit :=
  let* cur := gets current_process in
  upd_proc cur (fun x => set_p_context (set_c_r (<[0%nat := u32 r]> (c_r (p_context x))) (p_context x)) x).

(** A call that does not sleep, and the end of one that may. *)
Definition done (m : M state Z) : M state (option blocked) := let* r := m in do* set_result r in ret None.
Definition finish (m : M state (Z + blocked)) : M state (option blocked) :=
  let* r := m in
  match r with
  | inl r => do* set_result r in ret None
  | inr b => ret (Some b)
  end.
(** [if (!ok) { args[0] = -EFAULT; return; }] *)
Definition guarded (ok : M state bool) (m : M state (option blocked)) : M state (option blocked) :=
  let* b := ok in if b then m else done (ret (- EFAULT)).
Definition in_range (p s : Z) : M state bool := ret (check_address_range p s).
Definition both (a b : M state bool) : M state bool := let* x := a in if x then b else ret false.
(** A null pointer, or one to [s] bytes. *)
Definition null_or_range (p s : Z) : M state bool := ret ((p =? 0) || check_address_range p s).

Definition syscall_exit : M state (option blocked) :=
  let* status := get_arg 0 in
  do* process_exit (WAIT_EXIT_CODE (s32 status)) in
  ret None.
Definition syscall_fork : M state (option blocked) :=
  let* cur := gets current_process in
  done (let* c := process_get_context cur in process_fork c).
Definition syscall_read : M state (option blocked) :=
  let* fd := get_arg 0 in
  let* data := get_arg 1 in
  let* size := get_arg 2 in
  guarded (in_range data size) (finish (process_read polls (s32 fd) data size)).
Definition syscall_write : M state (option blocked) :=
  let* fd := get_arg 0 in
  let* data := get_arg 1 in
  let* size := get_arg 2 in
  guarded (in_range data size) (finish (process_write polls (s32 fd) data size)).
Definition syscall_open : M state (option blocked) :=
  let* path := get_arg 0 in
  let* flags := get_arg 1 in
  let* mode := get_arg 2 in
  guarded (kmem (check_string path)) (done
    (let* path := kmem (load_string path) in process_open path (s32 flags) mode)).
Definition syscall_close : M state (option blocked) :=
  let* fd := get_arg 0 in done (process_close (s32 fd)).
Definition syscall_unlink : M state (option blocked) :=
  let* path := get_arg 0 in
  guarded (kmem (check_string path)) (done (let* path := kmem (load_string path) in kmem (fo_unlink path))).
Definition syscall_execve : M state (option blocked) :=
  let* path := get_arg 0 in
  let* argv := get_arg 1 in
  let* envp := get_arg 2 in
  guarded (both (kmem (check_string path)) (both (kmem (check_avep argv)) (kmem (check_avep envp))))
    (let* path := kmem (load_string path) in
     let* argv := kmem (load_vector argv) in
     let* envp := kmem (load_vector envp) in
     let* r := process_exec path argv envp in
     do* (if r <? 0 then set_result r else ret tt) in
     ret None).
Definition syscall_getpid : M state (option blocked) := done process_getpid.
Definition syscall_getppid : M state (option blocked) := done process_getppid.
Definition syscall_kill : M state (option blocked) :=
  let* pid := get_arg 0 in
  let* sig := get_arg 1 in
  done (process_kill (s32 pid) (s32 sig)).
Definition syscall_mkdir : M state (option blocked) :=
  let* path := get_arg 0 in
  let* mode := get_arg 1 in
  guarded (kmem (check_string path)) (done (let* path := kmem (load_string path) in kmem (fo_mkdir path mode))).
Definition syscall_rmdir : M state (option blocked) :=
  let* path := get_arg 0 in
  guarded (kmem (check_string path)) (done (let* path := kmem (load_string path) in kmem (fo_rmdir path))).
Definition syscall_dup : M state (option blocked) :=
  let* fd := get_arg 0 in done (process_dupfd (s32 fd) 0 0).
Definition syscall_dup2 : M state (option blocked) :=
  let* oldfd := get_arg 0 in
  let* newfd := get_arg 1 in
  done (process_dup2 (s32 oldfd) (s32 newfd)).
Definition syscall_dup3 : M state (option blocked) :=
  let* oldfd := get_arg 0 in
  let* newfd := get_arg 1 in
  let* flags := get_arg 2 in
  done (process_dup3 (s32 oldfd) (s32 newfd) (s32 flags)).

(** The two descriptors go to [pipefd]. *)
Definition pipe_call (pipefd flags : Z) : M state Z :=
  let* r := process_pipe2 flags in
  let '(r, fds) := r in
  do* match fds with
      | Some (rfd, wfd) => kmem (us_write pipefd (le32 rfd ++ le32 wfd))
      | None => ret tt
      end in
  ret r.
Definition syscall_pipe : M state (option blocked) :=
  let* pipefd := get_arg 0 in
  guarded (in_range pipefd 8) (done (pipe_call pipefd 0)).
Definition syscall_pipe2 : M state (option blocked) :=
  let* pipefd := get_arg 0 in
  let* flags := get_arg 1 in
  guarded (in_range pipefd 8) (done (pipe_call pipefd (s32 flags))).
Definition syscall_brk : M state (option blocked) :=
  let* address := get_arg 0 in done (process_brk address).
Definition syscall_ioctl : M state (option blocked) :=
  let* fd := get_arg 0 in
  let* request := get_arg 1 in
  let* argp := get_arg 2 in
  if (request =? TCGETS) || (request =? TCSETS) || (request =? TCSETSW) || (request =? TCSETSF) then
    guarded (in_range argp TERMIOS_SIZE) (done (process_ioctl terminal_config (s32 fd) request argp))
  else if request =? TIOCGWINSZ then
    guarded (in_range argp WINSIZE_SIZE) (done (process_ioctl terminal_config (s32 fd) request argp))
  else done (process_ioctl terminal_config (s32 fd) request 0).
(** The old action is stored before the new one is read. *)
Definition syscall_rt_sigaction : M state (option blocked) :=
  let* signum := get_arg 0 in
  let* ksa := get_arg 1 in
  let* ksa_old := get_arg 2 in
  guarded (both (null_or_range ksa K_SIGACTION_SIZE) (null_or_range ksa_old K_SIGACTION_SIZE)) (done
    (let* r := process_sigaction (s32 signum) None (negb (ksa_old =? 0)) in
     let '(r, old) := r in
     if r <? 0 then ret r
     else
       do* match old with Some a => kmem (us_write ksa_old (k_sigaction_bytes a)) | None => ret tt end in
       if ksa =? 0 then ret 0
       else
         let* l := kmem (us_read (Z.to_nat K_SIGACTION_SIZE) ksa) in
         let* r := process_sigaction (s32 signum) (Some (k_sigaction_of_bytes l)) false in
         ret (fst r))).
Definition syscall_rt_sigprocmask : M state (option blocked) :=
  let* how := get_arg 0 in
  let* set := get_arg 1 in
  let* oldset := get_arg 2 in
  guarded (both (null_or_range set SIGSET_SIZE) (null_or_range oldset SIGSET_SIZE)) (done
    (let* a := (if set =? 0 then ret None
                else let* l := kmem (us_read (Z.to_nat SIGSET_SIZE) set) in ret (Some (sigset_of_bytes l))) in
     let* r := process_sigprocmask (s32 how) a (negb (oldset =? 0)) in
     let '(r, old) := r in
     do* match old with Some m => kmem (us_write oldset (sigset_bytes m)) | None => ret tt end in
     ret r)).
Definition syscall_wait4 : M state (option blocked) :=
  let* status := get_arg 1 in
  guarded (in_range status 4) (finish (wait_call status)).
Definition syscall_sigreturn : M state (option blocked) :=
  let* cur := gets current_process in
  let* c := process_get_context cur in
  do* process_sigreturn c in
  ret None.

(** [strcpy] to the fields of [struct utsname]; the rest of a field stays. *)
Definition system_uname (uts : Z) : M state Z :=
  let put i s := kmem (us_write (u32 (uts + 65 * i)) (s ++ [0])) in
  let none := [40; 110; 111; 110; 101; 41] in
  do* put 0 (cf_sysname conf) in
  do* put 1 none in
  do* put 2 (cf_release conf) in
  do* put 3 (cf_version conf) in
  do* put 4 (cf_machine conf) in
  do* put 5 none in
  ret 0.
Definition syscall_uname : M state (option blocked) :=
  let* uts := get_arg 0 in
  guarded (in_range uts UTSNAME_SIZE) (done (system_uname uts)).

Definition syscall_readv : M state (option blocked) :=
  let* fd := get_arg 0 in
  let* iov := get_arg 1 in
  let* iovcnt := get_arg 2 in
  guarded (kmem (check_iovec (Z.to_nat (s32 iovcnt)) iov)) (finish (process_readv polls (s32 fd) iov (s32 iovcnt))).
Definition syscall_writev : M state (option blocked) :=
  let* fd := get_arg 0 in
  let* iov := get_arg 1 in
  let* iovcnt := get_arg 2 in
  guarded (kmem (check_iovec (Z.to_nat (s32 iovcnt)) iov)) (finish (process_writev polls (s32 fd) iov (s32 iovcnt))).

Definition syscall__llseek : M state (option blocked) :=
  let* fd := get_arg 0 in
  let* high := get_arg 1 in
  let* low := get_arg 2 in
  let* result := get_arg 3 in
  let* whence := get_arg 4 in
  let offset := s64 (Z.lor (Z.shiftl high 32) low) in
  guarded (in_range result 8) (done
    (let* r := process_llseek (s32 fd) offset (s32 whence) in
     if r <? 0 then ret r
     else do* kmem (us_write result (Z_to_little_endian 8 8 r)) in ret 0)).

(** [strcpy(buf, "/")]; the result register keeps [buf]. *)
Definition syscall_getcwd : M state (option blocked) :=
  let* buf := get_arg 0 in
  let* size := get_arg 1 in
  if size <? 2 then done (ret (- ERANGE))
  else guarded (in_range buf size) (do* kmem (us_write buf [47; 0]) in ret None).

Definition store_stat (buf : Z) (m : M state (Z * option stat64)) : M state Z :=
  let* r := m in
  let '(r, st) := r in
  do* match st with Some st => kmem (us_write buf (stat64_bytes st)) | None => ret tt end in
  ret r.
Definition syscall_lstat64 : M state (option blocked) :=
  let* path := get_arg 0 in
  let* buf := get_arg 1 in
  guarded (both (kmem (check_string path)) (in_range buf STAT64_SIZE)) (done
    (let* path := kmem (load_string path) in store_stat buf (kmem (fo_lstat64 path)))).
Definition syscall_stat64 : M state (option blocked) := syscall_lstat64.
Definition syscall_fstat64 : M state (option blocked) :=
  let* fd := get_arg 0 in
  let* buf := get_arg 1 in
  guarded (in_range buf STAT64_SIZE) (done (store_stat buf (process_fstat64 (s32 fd)))).
Definition syscall_getdents64 : M state (option blocked) :=
  let* fd := get_arg 0 in
  let* data := get_arg 1 in
  let* size := get_arg 2 in
  guarded (in_range data size) (done (process_getdents64 (s32 fd) data size)).
Definition syscall_fcntl64 : M state (option blocked) :=
  let* fd := get_arg 0 in
  let* cmd := get_arg 1 in
  let* arg := get_arg 2 in
  done (process_fcntl64 (s32 fd) (s32 cmd) arg).
Definition syscall_pass (r : Z) : M state (option blocked) := done (ret r).

Definition syscall_body (number : Z) : M state (option blocked) :=
  match number with
  | 1 => syscall_exit
  | 2 => syscall_fork
  | 3 => syscall_read
  | 4 => syscall_write
  | 5 => syscall_open
  | 6 => syscall_close
  | 10 => syscall_unlink
  | 11 => syscall_execve
  | 20 => syscall_getpid
  | 37 => syscall_kill
  | 39 => syscall_mkdir
  | 40 => syscall_rmdir
  | 41 => syscall_dup
  | 42 => syscall_pipe
  | 45 => syscall_brk
  | 54 => syscall_ioctl
  | 63 => syscall_dup2
  | 64 => syscall_getppid
  | 114 => syscall_wait4
  | 119 => syscall_sigreturn
  | 122 => syscall_uname
  | 140 => syscall__llseek
  | 145 => syscall_readv
  | 146 => syscall_writev
  | 174 => syscall_rt_sigaction
  | 175 => syscall_rt_sigprocmask
  | 183 => syscall_getcwd
  | 195 => syscall_stat64
  | 196 => syscall_lstat64
  | 197 => syscall_fstat64
  | 217 => syscall_getdents64
  | 221 => syscall_fcntl64
  | 358 => syscall_dup3
  | 359 => syscall_pipe2
  | 248 | 270 => syscall_pass 0
  | 199 | 200 | 201 | 202 => syscall_pass 1
  | _ => syscall_pass (- EINVAL)
  end.

(** At most one turn of [process_switch] for every process, and one more. *)
Definition switch : M state departure :=
  let* l := gets all_processes in process_switch (Datatypes.S (Datatypes.S (length l))).

(** A call that sleeps reaches [process_switch] through [system_suspend]. *)
Definition syscall_handler : M state (option blocked * departure) :=
  let* number := get_arg 7 in
  let* b := syscall_body number in
  let* d := switch in
  ret (b, d).
Definition syscall_resume (b : blocked) : M state (option blocked * departure) :=
  let* b := finish (resume_call polls b) in
  let* d := switch in
  ret (b, d).
End Syscall.
