(* ===== verification/System.v ===== *)
(** * system.c: model

    The handlers of the three exceptions, and the start of the first program.
    The fault status and address registers of the processor are arguments. *)

From stdpp Require Import base numbers list gmap strings.
From S2P Require Import Prelude Bytes Signal Buddy BuddyProofs KernelMem UserSpace Unix Devices Kernel Pipe Files Process Hoare Block BlockProofs Minix Inode Dentry Fs FileStore Tty Io Elf Exec Syscall.

#[local] Open Scope Z_scope.
#[local] Open Scope kernel_scope.

Definition DFSR_FS (dfsr : Z) : Z := Z.land dfsr (Z.shiftl 1 5 - 1).
(** The cause of a data abort, for the log. *)
Definition data_abort_source (dfsr : Z) : string :=
  match DFSR_FS dfsr with
  | 0x01 => "Alignment fault"
  | 0x04 => "Fault on instruction cache maintenance"
  | 0x0c => "Synchronous external abort on translation table walk, First level"
  | 0x0e => "Synchronous external abort on translation table walk, Second level"
  | 0x1c => "Synchronous parity error on translation table walk, First level"
  | 0x1e => "Synchronous parity error on translation table walk, Second level"
  | 0x05 => "Translation fault, First level"
  | 0x07 => "Translation fault, Second level"
  | 0x03 => "Access flag fault, First level"
  | 0x06 => "Access flag fault, Second level"
  | 0x09 => "Domain fault, First level"
  | 0x0b => "Domain fault, Second level"
  | 0x0d => "Permission fault, First level"
  | 0x0f => "Permission fault, Second level"
  | 0x02 => "Debug event"
  | 0x08 => "Synchronous external abort"
  | 0x10 => "TLB conflict abort"
  | 0x14 => "Lockdown"
  | 0x1a => "Coprocessor abort"
  | 0x19 => "Synchronous parity error on memory access"
  | 0x16 => "Asynchronous external abort"
  | 0x18 => "Asynchronous parity error on memory access"
  | _ => "Unknown fault"
  end%string.

Definition IS_USER_MODE (context : process_context) : bool := Z.land (c_cpsr context) 0x1f =? 0x10.

Section System.
Context {S : Type} `{KM : KernelMem S} {US : UserSpace S} {FO : FileOps S} {IO : Mmio S}.
Context (terminal_config : Z) (polls : nat) (conf : config).
Notation state := (kernel S).

Definition system_irq_handler : M state departure :=
  let* irq := kmem gic_interrupt_acknowledge in
  do* (if irq =? IRQ_TIMER01 then
         let* m := kmem timer_is_masked in
         if truthy m then kmem timer_clear_interrupt else ret tt
       else if irq =? IRQ_UART0 then tty_resume
       else ret tt) in
  do* kmem (gic_end_of_interrupt irq) in
  switch.

Definition system_svc_handler : M state (option blocked * departure) :=
  syscall_handler terminal_config polls conf.

Definition system_data_abort_handler (dfsr dfar : Z) : M state departure :=
  let* cur := gets current_process in
  if cur =? 0 then fail Halt
  else
    let* context := process_get_context cur in
    if negb (IS_USER_MODE context) then fail Halt
    else
      let* paged := (if (DFSR_FS dfsr =? 0x05) || (DFSR_FS dfsr =? 0x07) then process_demand_page dfar else ret false) in
      do* (if paged then ret tt
           else
             let* pid := process_get_id cur in
             let* _ := process_kill pid SIGSEGV in
             ret tt) in
      switch.

(** "/sbin/init", after [system_init]. *)
Definition init_path : list Z := [47; 115; 98; 105; 110; 47; 105; 110; 105; 116].
Definition run_init : M state departure :=
  let* r := process_create terminal_config init_path in
  if r <? 0 then fail Halt else switch.
End System.
