(* ===== verification/ExecFrame.v ===== *)
(** * Memory set aside

    A caller that holds blocks of its own, and relies on the files and the
    address spaces, may call an operation that only uses the allocators: the same
    operations with the invariant of [framed] keep what the caller set aside.
    This is the frame rule of the interface [KernelMem]. *)

From stdpp Require Import base numbers list gmap.
From S2P Require Import Prelude Hoare Signal Arith Buddy BuddyProofs KernelMem UserSpace Unix Kernel Pipe PipeProofs PipeSpecs Files FilesProofs FileSpecs FileTables FileStore.

#[local] Open Scope Z_scope.
#[local] Open Scope kernel_scope.

(** A process changes, but not its descriptors. *)
Lemma files_ok_proc {S} `{KM : KernelMem S} (k : kernel S) C L U E p x y :
  files_ok k C L U E -> k_procs k !! p = Some x -> p_files y = p_files x -> p_close_on_exec y = p_close_on_exec x ->
  files_ok (set_k_procs (<[p := y]> (k_procs k)) k) C L U E.
Proof.
  intros HO Hx Hf Hb. eapply (files_ok_change _ _ _ _ _ _ _ _ _ p x y); [done|done|apply sched_only_refl| |].
  - rewrite Hb. by apply (fo_sets _ _ _ _ _ HO p).
  - apply files_inv_procs; [|intros q Hq; by apply is_Some_insert_proc].
    rewrite Hf, insert_id; [apply HO|by rewrite lookup_fmap, Hx].
Qed.

Lemma files_ok_km {S} `{KM : KernelMem S} (k : kernel S) C L U E : files_ok k C L U E -> km_inv (k_mem k) C L U.
Proof. intros HO. exact (pi_mem _ _ _ _ _ (fi_pipes _ _ _ _ _ _ _ (fo_inv _ _ _ _ _ HO))). Qed.

(** More blocks. *)
Lemma files_ok_more {S} `{KM : KernelMem S} (k : kernel S) s C L U P E : files_ok k C L U E -> km_inv s C L (P ∪ U) ->
  files_ok (set_k_mem s k) C L (P ∪ U) E.
Proof.
  intros [[[P1 P2 P3 P4 P5 P6 P7] F2 F3 F4 F5 F6 F7 F8 F9 F10 F11] O2 O3] HI.
  split; [split; [split|..]|..]; try done. intros a p Hp. destruct (P3 a p Hp) as (H1 & H2 & H3). split_and!; [done|set_solver|done].
Qed.

Section Framed.
Context {S : Type} `{KM : KernelMem S} {US : UserSpace S} {FO : FileOps S} {FL : FileLaws S}.
Context (F : gset Z) (s0 : S).
Implicit Types (s : S) (U : gset Z).

Definition framed_inv s (C : gmap Z Z) (L : Z -> Z -> Prop) U : Prop :=
  km_inv s C L (U ∪ F) /\ U ## F /\ us_same s0 s /\ fl_same s0 s.

Lemma framed_step s s' C L L' U U' : framed_inv s C L U -> km_step s s' -> km_inv s' C L' (U' ∪ F) -> U' ## F ->
  framed_inv s' C L' U'.
Proof.
  intros (_ & _ & H1 & H2) Hs HI Hd. destruct (km_step_same _ _ Hs). split_and!; [done|done| |].
  - by eapply us_same_trans.
  - by eapply fl_same_trans.
Qed.

Program Definition framed : KernelMem S := {|
  km_obj_alloc := km_obj_alloc;
  km_obj_free := km_obj_free;
  km_page_alloc := km_page_alloc;
  km_page_free := km_page_free;
  km_inv := framed_inv;
|}.
Next Obligation.
  intros s C L U c osz H HC. pose proof H as (HI & Hd & _).
  destruct (km_obj_alloc_spec _ _ _ _ _ _ HI HC) as [E|(a & s' & E & H1 & H2 & H3)]; [by left|right].
  exists a, s'. do 3 (split; [done|]). eapply framed_step; [done|by eapply ks_obj_alloc|done|done].
Qed.
Next Obligation.
  intros s C L U c a H Hl. pose proof H as (HI & Hd & _). destruct (km_obj_free_spec _ _ _ _ _ _ HI Hl) as (s' & E & HI').
  exists s'. split; [done|]. eapply framed_step; [done|by eapply ks_obj_free|done|done].
Qed.
Next Obligation.
  intros s C L U size k H Ho. pose proof H as (HI & Hd & _).
  destruct (km_page_alloc_spec _ _ _ _ _ _ HI Ho) as [E|(i & s' & E & H1 & H2 & H3)]; [by left|right].
  exists i, s'. split; [done|]. split; [set_solver|]. split; [done|].
  eapply framed_step; [done|by eapply ks_page_alloc| |set_solver]. by replace ({[i]} ∪ U ∪ F) with ({[i]} ∪ (U ∪ F)) by set_solver.
Qed.
Next Obligation. intros s C L U size k i s' (HI & _) Ho E. by eapply km_page_aligned. Qed.
Next Obligation. intros s size H. by apply km_too_big. Qed.
Next Obligation.
  intros s C L U i H Hi. pose proof H as (HI & Hd & _).
  destruct (km_page_free_spec _ _ _ _ i HI ltac:(set_solver)) as (s' & E & HI').
  exists s'. split; [done|]. eapply framed_step; [done|by eapply ks_page_free| |set_solver].
  by replace (U ∖ {[i]} ∪ F) with ((U ∪ F) ∖ {[i]}) by set_solver.
Qed.
Next Obligation. intros s C L U c c' a (HI & _). by eapply km_unique. Qed.
Next Obligation. intros s C L L' U HL (HI & H). split; [by eapply km_ext|done]. Qed.

(** The descriptor tables with blocks set aside. *)
Lemma files_ok_framed (k : kernel S) x C L U E : files_ok k C L U E -> framed_inv x C L U ->
  files_ok (KM := framed) (set_k_mem x k) C L U E.
Proof.
  intros [[[P1 P2 P3 P4 P5 P6 P7] F2 F3 F4 F5 F6 F7 F8 F9 F10 F11] O2 O3] HF.
  split; [split; [split|..]|..]; done.
Qed.
Lemma files_ok_unframed (k : kernel S) x C L U E : files_ok (KM := framed) k C L U E -> km_inv x C L U ->
  files_ok (set_k_mem x k) C L U E.
Proof.
  intros [[[P1 P2 P3 P4 P5 P6 P7] F2 F3 F4 F5 F6 F7 F8 F9 F10 F11] O2 O3] HF.
  split; [split; [split|..]|..]; done.
Qed.
(** The operations are the same. *)
Lemma exec_files_framed n p i : exec_files (KM := framed) n p i = exec_files n p i.
Proof. reflexivity. Qed.
End Framed.
