(* ===== verification/ExecProofs.v ===== *)
(** * Programs and their arguments: proofs

    What [process_exec] leaves in the new address space: the program and, below
    the top of the stack, the argument vectors as the C run-time expects them. *)

From stdpp Require Import base numbers list list_numbers gmap.
From S2P Require Import Prelude Bytes Arith Signal Buddy BuddyProofs KernelMem UserSpace Unix Kernel Pipe Files Process Hoare Block BlockProofs Minix Inode Dentry Fs PipeProofs PipeSpecs FilesProofs FileSpecs FileTables ProcessSignals FileStore Elf ElfProofs Exec ExecFrame.

#[local] Open Scope Z_scope.
#[local] Open Scope kernel_scope.

(** ** Writes to a part of the current space *)
Section Wrote.
Context {S : Type} `{KM : KernelMem S} {US : UserSpace S} {FO : FileOps S} {FL : FileLaws S}.
Implicit Types (s : S) (R : Z -> Prop).

(** Only bytes of the current space in [R] have changed. *)
Record wrote R s s' : Prop := {
  wr_current : us_current s' = us_current s;
  wr_byte : forall q x, q <> us_current s \/ ~ R x -> us_byte s' q x = us_byte s q x;
  wr_mapped : forall x, is_Some (us_byte s (us_current s) x) -> is_Some (us_byte s' (us_current s) x);
  wr_known : forall q, us_known s' q <-> us_known s q;
  wr_inv : forall C L U, km_inv s C L U -> km_inv s' C L U;
  wr_files : fl_same s s';
}.

Lemma wrote_refl R s : wrote R s s.
Proof. by split. Qed.
Lemma wrote_weaken R R' s s' : (forall x, R x -> R' x) -> wrote R s s' -> wrote R' s s'.
Proof. intros HR [W1 W2 W3 W4 W5 W6]. split; try done. intros q x [?|Hx]; apply W2; [by left|right; auto]. Qed.
Lemma wrote_trans R s1 s2 s3 : wrote R s1 s2 -> wrote R s2 s3 -> wrote R s1 s3.
Proof.
  intros [A1 A2 A3 A4 A5 A6] [B1 B2 B3 B4 B5 B6]. rewrite A1 in *. split; [congruence| | | |auto|by eapply fl_same_trans].
  - intros q x Hx. by rewrite B2, A2.
  - intros x Hx. auto.
  - intros q. by rewrite B4.
Qed.
Lemma wrote_bytes R s s' a l : wrote R s s' -> bytes_at s a l ->
  (forall i, (i < length l)%nat -> ~ R (a + Z.of_nat i)) -> bytes_at s' a l.
Proof.
  intros W Hb HR i b Hi. rewrite (wr_current _ _ _ W), (wr_byte _ _ _ W); [by apply Hb|].
  right. apply HR. by eapply lookup_lt_Some.
Qed.
Lemma wrote_mapped R s s' a n : wrote R s s' -> mapped_at s a n -> mapped_at s' a n.
Proof. intros W Hm x Hx. rewrite (wr_current _ _ _ W). by apply (wr_mapped _ _ _ W), Hm. Qed.

Lemma write_ok C L U s a l : km_inv s C L U -> 0 <= a -> a + Z.of_nat (length l) <= 2 ^ 32 -> Forall is_u8 l ->
  mapped_at s a (Z.of_nat (length l)) ->
  exists s', us_write a l s = Ok (tt, s') /\ wrote (fun x => a <= x < a + Z.of_nat (length l)) s s' /\ bytes_at s' a l.
Proof.
  intros HI Ha Hl Hu Hm. destruct (us_write_ok C L U l s a HI Ha Hl Hu Hm) as (s' & E & [W1 W2 W3 W4 W5] & B).
  exists s'. split; [done|]. split; [|done]. split; try done; [|by eapply us_write_files].
  intros q x [?|Hx]; apply W2; [by left|right; lia].
Qed.

(** ** The vectors *)
Definition string_ok (l : list Z) : Prop := Forall (fun c => 0 < c < 256) l.

(** The pointer to the string with the number [i]. *)
Definition string_ptr (uchar : Z) (l : list (list Z)) (i : nat) : Z := uchar + string_bytes (take i l).
(** A vector of pointers at [uarg] to strings at [uchar]. *)
Definition vector_at s (uarg uchar : Z) (l : list (list Z)) : Prop :=
  forall i str, l !! i = Some str ->
    bytes_at s (uarg + 4 * Z.of_nat i) (le32 (string_ptr uchar l i)) /\ bytes_at s (string_ptr uchar l i) (str ++ [0]).

Lemma string_bytes_cons (s : list Z) l : string_bytes (s :: l) = Z.of_nat (length s) + 1 + string_bytes l.
Proof. done. Qed.
Lemma string_bytes_nonneg l : 0 <= string_bytes l.
Proof. induction l as [|s l IH]; [done|]. rewrite string_bytes_cons. lia. Qed.
Lemma string_bytes_app l k : string_bytes (l ++ k) = string_bytes l + string_bytes k.
Proof. induction l as [|s l IH]; cbn [app]; [done|]. rewrite !string_bytes_cons, IH. lia. Qed.
Lemma string_bytes_take l i str : l !! i = Some str ->
  string_bytes (take i l) + Z.of_nat (length str) + 1 <= string_bytes l.
Proof.
  intros Hi. rewrite <- (take_drop_middle l i str Hi) at 2. rewrite string_bytes_app, string_bytes_cons.
  pose proof (string_bytes_nonneg (drop (Datatypes.S i) l)). lia.
Qed.

Lemma le32_ok v : is_u32 v -> length (le32 v) = 4%nat /\ Forall is_u8 (le32 v).
Proof.
  intros Hv. split; [by apply le_length|]. unfold le32. pose proof (Z_to_little_endian_bound 4 8 v ltac:(lia) ltac:(lia)) as H.
  eapply Forall_impl; [exact H|]. done.
Qed.

Lemma string_zero_u8 str : string_ok str -> Forall is_u8 (str ++ [0]).
Proof.
  intros H. apply Forall_app. split; [|repeat constructor; unfold is_u8; lia].
  eapply Forall_impl; [exact H|]. unfold is_u8. cbn. lia.
Qed.

(** A vector outside of what is written stays. *)
Lemma wrote_vector R s s' uarg uchar l : wrote R s s' -> vector_at s uarg uchar l ->
  (forall x, uarg <= x < uarg + 4 * Z.of_nat (length l) -> ~ R x) ->
  (forall x, uchar <= x < uchar + string_bytes l -> ~ R x) -> 0 <= uchar ->
  uchar + string_bytes l <= 2 ^ 32 -> vector_at s' uarg uchar l.
Proof.
  intros W Hv H1 H2 Hu Hb i str Hi. destruct (Hv i str Hi) as [V1 V2]. pose proof (string_bytes_take _ _ _ Hi).
  pose proof (string_bytes_nonneg (take i l)). pose proof (lookup_lt_Some _ _ _ Hi).
  assert (Hp : is_u32 (string_ptr uchar l i)) by (unfold is_u32, string_ptr; lia).
  split; (eapply wrote_bytes; [exact W|done|]); intros j Hj.
  - rewrite (proj1 (le32_ok _ Hp)) in Hj. apply H1. lia.
  - rewrite length_app in Hj. cbn in Hj. unfold string_ptr. apply H2. lia.
Qed.

Lemma copy_strings_ok C L U l : forall s uarg uchar, km_inv s C L U -> Forall string_ok l -> 0 <= uarg ->
  uarg + 4 * Z.of_nat (length l) <= uchar -> uchar + string_bytes l < 2 ^ 32 ->
  mapped_at s uarg (4 * Z.of_nat (length l)) -> mapped_at s uchar (string_bytes l) ->
  exists s', copy_strings l uarg uchar s = Ok ((uarg + 4 * Z.of_nat (length l), uchar + string_bytes l), s') /\
    wrote (fun x => uarg <= x < uarg + 4 * Z.of_nat (length l) \/ uchar <= x < uchar + string_bytes l) s s' /\
    vector_at s' uarg uchar l.
Proof.
  induction l as [|str l IH]; intros s uarg uchar HI Hs Ha Hc Hb Hm1 Hm2.
  { exists s. split; [|split; [apply wrote_refl|intros i ? Hi; by rewrite lookup_nil in Hi]].
    unfold copy_strings, ret. do 3 f_equal; cbn; lia. }
  apply Forall_cons in Hs as [Hstr Hs]. rewrite string_bytes_cons in *. cbn [length] in *.
  pose proof (string_bytes_nonneg l) as Hn. cbn [copy_strings].
  assert (Hu : is_u32 uchar) by (unfold is_u32; lia). destruct (le32_ok uchar Hu) as [Ll Lu].
  destruct (write_ok C L U s uarg (le32 uchar) HI Ha) as (s1 & E1 & W1 & B1); [rewrite Ll; lia|done| |].
  { rewrite Ll. intros x Hx. apply Hm1. lia. }
  rewrite Ll in W1. mrun E1. assert (Lz : length (str ++ [0]) = (length str + 1)%nat) by (rewrite length_app; done).
  pose proof (wr_inv _ _ _ W1 _ _ _ HI) as HI1.
  destruct (write_ok C L U s1 uchar (str ++ [0]) HI1) as (s2 & E2 & W2 & B2); [lia|rewrite Lz; lia|by apply string_zero_u8| |].
  { eapply wrote_mapped; [exact W1|]. rewrite Lz. intros x Hx. apply Hm2. lia. }
  rewrite Lz in W2. mrun E2. rewrite (u32_small (uarg + 4)), (u32_small (uchar + _ + 1)) by (unfold is_u32; lia).
  assert (W : wrote (fun x => uarg <= x < uarg + 4 * Z.of_nat (Datatypes.S (length l)) \/
    uchar <= x < uchar + (Z.of_nat (length str) + 1 + string_bytes l)) s s2).
  { eapply wrote_trans; (eapply wrote_weaken; [|first [exact W1|exact W2]]); intros x Hx; cbv beta in *; lia. }
  destruct (IH s2 (uarg + 4) (uchar + Z.of_nat (length str) + 1)) as (s3 & E3 & W3 & V3);
    [by apply (wr_inv _ _ _ W)|done|lia|lia|lia|eapply wrote_mapped; [exact W|]; intros x Hx; apply Hm1; lia|
     eapply wrote_mapped; [exact W|]; intros x Hx; apply Hm2; lia|].
  exists s3. split; [rewrite E3; f_equal; f_equal; f_equal; lia|]. split.
  - eapply wrote_trans; [exact W|]. eapply wrote_weaken; [|exact W3]. intros x Hx. cbv beta in *. lia.
  - intros [|i] st Hi.
    + injection Hi as <-. unfold string_ptr. cbn [take string_bytes foldr]. rewrite !Z.add_0_r. split.
      * eapply wrote_bytes; [exact W3| |rewrite Ll; intros j Hj; cbv beta; lia].
        eapply wrote_bytes; [exact W2|done|rewrite Ll; intros j Hj; cbv beta; lia].
      * eapply wrote_bytes; [exact W3|exact B2|rewrite Lz; intros j Hj; cbv beta; lia].
    + assert (Ep : string_ptr uchar (str :: l) (Datatypes.S i) = string_ptr (uchar + Z.of_nat (length str) + 1) l i).
      { unfold string_ptr. cbn [take]. rewrite string_bytes_cons. lia. }
      rewrite Ep. destruct (V3 i st Hi) as [V1 V2]. split; [|done].
      by replace (uarg + 4 * Z.of_nat (Datatypes.S i)) with (uarg + 4 + 4 * Z.of_nat i) by lia.
Qed.

(** What [prepare_argv_and_envp] asks for: the number of arguments, the pointers
    and the strings, rounded up to eight bytes. *)
Definition vectors_size (argv envp : list (list Z)) : Z :=
  4 + 4 * (2 + Z.of_nat (length argv) + Z.of_nat (length envp)) + string_bytes argv + string_bytes envp.
Definition block_size (argv envp : list (list Z)) : Z := Z.max 0x100 (8 * ((vectors_size argv envp + 7) / 8)).

(** ** The stack of a new program *)

(** At [sp]: the number of arguments, the pointers to the arguments and a null
    pointer, the pointers to the environment and a null pointer, the strings. *)
Record stack_ok s (sp : Z) (argv envp : list (list Z)) : Prop := {
  sk_argc : bytes_at s sp (le32 (Z.of_nat (length argv)));
  sk_argv : exists uchar, sp < uchar /\ uchar + string_bytes argv <= sp + block_size argv envp /\ vector_at s (sp + 4) uchar argv;
  sk_argv_end : bytes_at s (sp + 4 + 4 * Z.of_nat (length argv)) (le32 0);
  sk_envp : exists uchar, sp < uchar /\ uchar + string_bytes envp <= sp + block_size argv envp /\
    vector_at s (sp + 4 + 4 * Z.of_nat (length argv) + 4) uchar envp;
  sk_envp_end : bytes_at s (sp + 4 + 4 * Z.of_nat (length argv) + 4 + 4 * Z.of_nat (length envp)) (le32 0);
}.

Record avep_ok (avep : argv_envp) (argv envp : list (list Z)) : Prop := {
  ao_argc : av_argc avep = Z.of_nat (length argv);
  ao_nr : av_nr avep = 2 + Z.of_nat (length argv) + Z.of_nat (length envp);
  ao_argv : av_argv avep = argv;
  ao_envp : av_envp avep = envp;
  ao_size : 4 + 4 * av_nr avep + string_bytes argv + string_bytes envp <= av_size avep <= ARG_MAX;
  ao_block : av_size avep = block_size argv envp;
}.

Lemma copy_argv_ok C L U s avep argv envp ustack : km_inv s C L U -> avep_ok avep argv envp ->
  Forall string_ok argv -> Forall string_ok envp -> ARG_MAX <= ustack < 2 ^ 32 ->
  mapped_at s (ustack - ARG_MAX) ARG_MAX ->
  exists s', copy_argv_and_envp avep ustack s = Ok (ustack - av_size avep, s') /\
    wrote (fun x => ustack - ARG_MAX <= x < ustack) s s' /\ stack_ok s' (ustack - av_size avep) argv envp.
Proof.
  intros HI [A1 A2 A3 A4 A5 A6] Hargv Henvp Hst Hm. unfold ARG_MAX in *. unfold copy_argv_and_envp. cbv zeta. rewrite A3, A4, A1.
  set (b := ustack - av_size avep). pose proof (string_bytes_nonneg argv) as N1. pose proof (string_bytes_nonneg envp) as N2.
  set (na := Z.of_nat (length argv)) in *. set (ne := Z.of_nat (length envp)) in *.
  assert (Hb : 0 <= b) by lia. assert (Hna : 0 <= na) by lia. assert (Hne : 0 <= ne) by lia.
  rewrite (u32_small b) by (unfold is_u32; lia). rewrite (u32_small (b + 4)) by (unfold is_u32; lia).
  rewrite (u32_small (b + 4 * av_nr avep + 4)) by (unfold is_u32; lia). set (uc := b + 4 * av_nr avep + 4).
  assert (Hmap : forall t, wrote (fun x => ustack - 4 * 1024 <= x < ustack) s t -> forall x n, ustack - 4 * 1024 <= x -> x + n <= ustack -> mapped_at t x n).
  { intros t W x n H1 H2. eapply wrote_mapped; [exact W|]. intros y Hy. apply Hm. lia. }
  set (R := fun x => ustack - 4 * 1024 <= x < ustack). assert (W0 : wrote R s s) by apply wrote_refl.
  destruct (le32_ok na) as [La Ua]; [unfold is_u32; lia|]. destruct (le32_ok 0) as [L0 U0]; [by compute|].
  destruct (write_ok C L U s b (le32 na) HI) as (s1 & E1 & W1 & B1); [lia|rewrite La; lia|done|rewrite La; apply (Hmap s W0); lia|].
  rewrite La in W1. mrun E1. assert (T1 : wrote R s s1) by (eapply wrote_weaken; [|exact W1]; unfold R; intros x Hx; cbv beta in *; lia).
  destruct (copy_strings_ok C L U argv s1 (b + 4) uc) as (s2 & E2 & W2 & V2);
    [by apply (wr_inv _ _ _ T1)|done|lia|lia|lia|apply (Hmap s1 T1); lia|apply (Hmap s1 T1); lia|]. fold na in E2, W2. mrun E2.
  assert (T2 : wrote R s s2) by (eapply wrote_trans; [exact T1|]; eapply wrote_weaken; [|exact W2]; unfold R; intros x Hx; cbv beta in *; lia).
  destruct (write_ok C L U s2 (b + 4 + 4 * na) (le32 0)) as (s3 & E3 & W3 & B3);
    [by apply (wr_inv _ _ _ T2)|lia|rewrite L0; lia|done|rewrite L0; apply (Hmap s2 T2); lia|]. rewrite L0 in W3. mrun E3.
  assert (T3 : wrote R s s3) by (eapply wrote_trans; [exact T2|]; eapply wrote_weaken; [|exact W3]; unfold R; intros x Hx; cbv beta in *; lia).
  rewrite (u32_small (b + 4 + 4 * na + 4)) by (unfold is_u32; lia).
  destruct (copy_strings_ok C L U envp s3 (b + 4 + 4 * na + 4) (uc + string_bytes argv)) as (s4 & E4 & W4 & V4);
    [by apply (wr_inv _ _ _ T3)|done|lia|lia|lia|apply (Hmap s3 T3); lia|apply (Hmap s3 T3); lia|]. fold ne in E4, W4. mrun E4.
  assert (T4 : wrote R s s4) by (eapply wrote_trans; [exact T3|]; eapply wrote_weaken; [|exact W4]; unfold R; intros x Hx; cbv beta in *; lia).
  destruct (write_ok C L U s4 (b + 4 + 4 * na + 4 + 4 * ne) (le32 0)) as (s5 & E5 & W5 & B5);
    [by apply (wr_inv _ _ _ T4)|lia|rewrite L0; lia|done|rewrite L0; apply (Hmap s4 T4); lia|]. rewrite L0 in W5. mrun E5.
  exists s5. split; [unfold ret; done|]. split.
  { eapply wrote_trans; [exact T4|]; eapply wrote_weaken; [|exact W5]; unfold R; intros x Hx; cbv beta in *; lia. }
  split; fold na ne.
  - eapply wrote_bytes; [exact W5| |rewrite La; intros j Hj; cbv beta; lia]. eapply wrote_bytes; [exact W4| |rewrite La; intros j Hj; cbv beta; lia].
    eapply wrote_bytes; [exact W3| |rewrite La; intros j Hj; cbv beta; lia]. eapply wrote_bytes; [exact W2|done|rewrite La; intros j Hj; cbv beta; lia].
  - exists uc. rewrite <- A6. split; [lia|]. split; [lia|]. eapply wrote_vector; [exact W5| |intros x Hx; cbv beta; lia|intros x Hx; cbv beta; lia|lia|lia].
    eapply wrote_vector; [exact W4| |intros x Hx; cbv beta; lia|intros x Hx; cbv beta; lia|lia|lia].
    eapply wrote_vector; [exact W3|done|intros x Hx; cbv beta; lia|intros x Hx; cbv beta; lia|lia|lia].
  - eapply wrote_bytes; [exact W5| |rewrite L0; intros j Hj; cbv beta; lia]. eapply wrote_bytes; [exact W4|done|rewrite L0; intros j Hj; cbv beta; lia].
  - exists (uc + string_bytes argv). rewrite <- A6. split; [lia|]. split; [lia|]. eapply wrote_vector; [exact W5|done|intros x Hx; cbv beta; lia|intros x Hx; cbv beta; lia|lia|lia].
  - done.
Qed.
End Wrote.

(** ** Preparing the arguments *)

Lemma align8_up x : 0 <= x -> x + 8 <= 2 ^ 32 -> ALIGN x 3 = 8 * ((x + 7) / 8).
Proof.
  intros H0 H1. unfold ALIGN. change (Z.shiftl 1 3 - 1) with 7. rewrite (u32_small (x + 7)) by (unfold is_u32; lia).
  change (not32 7) with (not32 (Z.shiftl 1 3 - 1)). rewrite land_not7 by (unfold is_u32; lia).
  pose proof (Z.div_mod (x + 7) 8 ltac:(lia)). lia.
Qed.

Section Prepare.
Context {S : Type} `{KM : KernelMem S} {US : UserSpace S} {FO : FileOps S} {FL : FileLaws S}.
Context (C : gmap Z Z) (L : Z -> Z -> Prop) (s0 : S).
Notation at0 := (at0 C L s0).

Definition prepared (U : gset Z) (argv envp : list (list Z)) (r : Z * argv_envp) (s' : S) : Prop :=
  if ARG_MAX <? block_size argv envp then fst r = - E2BIG /\ at0 s' U
  else fst r = 0 /\ avep_ok (snd r) argv envp /\ exists p, av_page (snd r) = Some p /\ p ∉ U /\ at0 s' ({[p]} ∪ U).

Lemma prepare_vectors_ok s U argv envp : at0 s U -> vectors_size argv envp < 2 ^ 31 - 8 ->
  runs (prepare_argv_and_envp argv envp) s (prepared U argv envp).
Proof.
  intros H Hv. unfold prepare_argv_and_envp, prepared. cbv zeta.
  pose proof (string_bytes_nonneg argv) as N1. pose proof (string_bytes_nonneg envp) as N2.
  set (nr := 2 + Z.of_nat (length argv) + Z.of_nat (length envp)).
  set (nc := string_bytes argv + string_bytes envp).
  assert (Ev : vectors_size argv envp = 4 + nr * 4 + nc) by (unfold vectors_size; lia).
  rewrite Ev in Hv. rewrite (u32_small (4 + nr * 4 + nc)) by (unfold is_u32; lia).
  rewrite align8_up by lia. rewrite <- Ev. set (a := 8 * _).
  assert (Ha : vectors_size argv envp <= a < vectors_size argv envp + 8).
  { subst a. pose proof (Z.div_mod (vectors_size argv envp + 7) 8 ltac:(lia)).
    pose proof (Z.mod_pos_bound (vectors_size argv envp + 7) 8 ltac:(lia)). lia. }
  rewrite s32_small by (unfold is_s32; lia).
  assert (Eb : (if a <? 0x100 then 0x100 else a) = block_size argv envp).
  { unfold block_size. fold a. destruct (Z.ltb_spec a 0x100); lia. }
  rewrite Eb. assert (Hb : a <= block_size argv envp) by (unfold block_size; fold a; lia).
  destruct (Z.ltb_spec ARG_MAX (block_size argv envp)) as [Hbig|Hsmall]; [by apply runs_ret|].
  rstep page_alloc_any as p s1 (Hp & _ & H1); [done|].
  rewrite (proj2 (Z.ltb_ge (block_size argv envp) (4 * nr + nc))) by lia. apply runs_ret. cbn [fst snd].
  split; [done|]. split; [|by exists p]. split; cbn; try done. fold nr. lia.
Qed.

Lemma release_argv_ok s U avep p : at0 s U -> av_page avep = Some p -> p ∈ U ->
  runs (release_argv_and_envp avep) s (fun _ s' => at0 s' (U ∖ {[p]})).
Proof. intros H Hp Hin. unfold release_argv_and_envp. rewrite Hp. by apply page_free_ok. Qed.
End Prepare.
