(* ===== verification/ExecSpecs.v ===== *)
(** * Programs and their arguments: [process_exec]

    The new program replaces the old one: its segments and its argument vectors
    are in the new address space, the other address spaces are as before, and
    the descriptor tables stay consistent. *)

From stdpp Require Import base numbers list list_numbers gmap.
From S2P Require Import Prelude Bytes Hoare Arith Signal Buddy BuddyProofs KernelMem Unix UserSpace Kernel Pipe PipeProofs PipeSpecs Files FilesProofs FileSpecs FileTables Process ProcessSignals Block BlockProofs Minix Inode Dentry Fs FileStore Elf ElfProofs Exec ExecFrame ExecProofs.

#[local] Open Scope Z_scope.
#[local] Open Scope kernel_scope.

(** ** Pages *)
Lemma land_not_page x : is_u32 x -> Z.land x (not32 (PAGE_SIZE - 1)) = x - x mod PAGE_SIZE.
Proof.
  intros Hx. change (PAGE_SIZE - 1) with (Z.ones 12). change PAGE_SIZE with (2 ^ 12).
  assert (E : Z.land x (not32 (Z.ones 12)) = Z.ldiff x (Z.ones 12)).
  { apply Z.bits_inj'. intros i Hi. rewrite Z.land_spec, Z.ldiff_spec, testbit_not32 by done.
    destruct (Z.ltb_spec i 32); [done|]. by rewrite (u32_testbit_high x i Hx). }
  rewrite E, Z.ldiff_ones_r by lia. rewrite Z.shiftl_mul_pow2, Z.shiftr_div_pow2 by lia.
  pose proof (Z.div_mod x (2 ^ 12) ltac:(lia)). lia.
Qed.
Lemma page_mask_eq x : is_u32 x -> PAGE_MASK x = PAGE_SIZE * (x / PAGE_SIZE).
Proof.
  intros Hx. unfold PAGE_MASK. rewrite land_not_page by done.
  pose proof (Z.div_mod x PAGE_SIZE ltac:(done)). lia.
Qed.
Lemma page_align_eq x : 0 <= x -> x + PAGE_SIZE <= 2 ^ 32 -> PAGE_ALIGN x = PAGE_SIZE * ((x + PAGE_SIZE - 1) / PAGE_SIZE).
Proof.
  intros H0 H1. assert (HP : PAGE_SIZE = 4096) by done. unfold PAGE_ALIGN. rewrite u32_small by (unfold is_u32; lia).
  rewrite land_not_page by (unfold is_u32; lia). pose proof (Z.div_mod (x + PAGE_SIZE - 1) PAGE_SIZE ltac:(done)). lia.
Qed.

(** The segment does not cross the border of a megabyte. *)
Definition one_megabyte (x : image_segment) : bool :=
  im_addr x / 2 ^ 20 =? (im_addr x + Z.max 1 (im_size x) - 1) / 2 ^ 20.

Definition seg_end (x : image_segment) : Z := PAGE_SIZE * ((im_addr x + im_size x + PAGE_SIZE - 1) / PAGE_SIZE).

(** What [create_segments] makes of the addresses: a range from [start] on, in
    the same page as the segment, to the end of its last page. *)
Lemma seg_pages_cover x start : placed x -> one_megabyte x = true ->
  start = im_addr x \/ start = PAGE_SIZE * (im_addr x / PAGE_SIZE) ->
  0 <= start /\ 0 <= seg_end x - start <= 2 ^ 31 /\ in_megabyte start (seg_end x - start) = true /\
  forall a, im_addr x <= a < im_addr x + im_size x -> in_pages start (seg_end x - start) a.
Proof.
  intros [P1 P2 P3 _] Hm Hs. unfold one_megabyte in Hm. apply Z.eqb_eq in Hm.
  unfold USER_ADDRESS_START, BRK_ADDRESS_END, seg_end, in_megabyte, in_pages, page_count in *. change PAGE_SIZE with 4096 in *.
  assert (0 <= im_size x) by lia. assert (Hd : start / 4096 = im_addr x / 4096).
  { destruct Hs as [->| ->]; [done|]. rewrite Z.mul_comm. by apply Z.div_mul. }
  assert (Hst : 4096 * (im_addr x / 4096) <= start <= im_addr x).
  { pose proof (Z.div_mod (im_addr x) 4096 ltac:(lia)). pose proof (Z.mod_pos_bound (im_addr x) 4096 ltac:(lia)). lia. }
  set (m := (im_addr x + im_size x + 4096 - 1) / 4096).
  assert (Em : 4096 * m <= im_addr x + im_size x + 4095 < 4096 * m + 4096) by (subst m; Z.to_euclidean_division_equations; lia).
  set (a := im_addr x / 4096) in *.
  assert (Ea : 4096 * a <= im_addr x < 4096 * a + 4096) by (subst a; Z.to_euclidean_division_equations; lia).
  assert (Ec : (4096 * m - start + 4096 - 1) / 4096 = m - a).
  { symmetry. apply (Z.div_unique _ _ _ (4096 * m - start + 4095 - 4096 * (m - a))); lia. }
  rewrite Hd, Ec. split; [lia|]. split; [lia|]. split.
  - apply Z.leb_le. change (2 ^ 20) with (4096 * 256) in Hm. rewrite <- !Z.div_div in Hm by lia. fold a in Hm.
    assert (Hl : m - 1 <= (im_addr x + Z.max 1 (im_size x) - 1) / 4096) by (Z.to_euclidean_division_equations; lia).
    set (l := (im_addr x + Z.max 1 (im_size x) - 1) / 4096) in *. clearbody l m a. clear Ec Hd Em Ea Hst.
    Z.to_euclidean_division_equations; lia.
  - intros y Hy. assert (a <= y / 4096 < m); [|lia]. Z.to_euclidean_division_equations; lia.
Qed.

(** ** The image *)
Lemma scan_placed l h : Forall is_u8 l -> forall n i t d im, scan n i h l t d = Some im ->
  (forall x, t = Some x -> placed x) -> (forall x, d = Some x -> placed x) ->
  (forall x, im_text im = Some x -> placed x) /\ (forall x, im_data im = Some x -> placed x).
Proof.
  intros Hl. induction n as [|n IH]; intros i t d im; cbn [scan]; [by intros [= <-]|].
  cbv zeta. destruct (_ <=? _); [|done]. destruct (negb _); [by apply IH|].
  set (ph := decode_program_header _). pose proof (image_of_placed l ph) as HP.
  destruct (ph_flags ph =? 5); [|destruct (ph_flags ph =? 6)]; [..|by apply IH].
  - destruct t; [done|]. destruct (image_of l ph) as [x|] eqn:E; [|done]. intros H _ Hd.
    eapply IH; [exact H| |done]. intros y [= <-]. by apply HP.
  - destruct d; [by destruct t|]. destruct (image_of l ph) as [x|] eqn:E; [|done]. intros H Ht _.
    eapply IH; [exact H|done|]. intros y [= <-]. by apply HP.
Qed.
Lemma elf_image_placed l im : Forall is_u8 l -> elf_image l = Some im ->
  (forall x, im_text im = Some x -> placed x) /\ (forall x, im_data im = Some x -> placed x).
Proof.
  intros Hl. unfold elf_image. destruct (_ <=? _); [|done]. cbv zeta. destruct (header_ok _); [|done]. intros H.
  by eapply scan_placed; [done|exact H|..].
Qed.

(** The segments of an image that [process_exec] can map: both are there, each
    in one megabyte, and they do not overlap. *)
Record mappable (im : image) (t d : image_segment) : Prop := {
  mp_text : im_text im = Some t;
  mp_data : im_data im = Some d;
  mp_text_mb : one_megabyte t = true;
  mp_data_mb : one_megabyte d = true;
  mp_apart : im_addr t + im_size t <= im_addr d \/ im_addr d + im_size d <= im_addr t;
}.

(** ** The new address space *)
Section Fill.
Context {S : Type} `{KM : KernelMem S} {US : UserSpace S} {FO : FileOps S} {FL : FileLaws S}.
Implicit Types (s : S).

(** Only the address space of [pid] has changed. *)
Record only_space (pid : Z) s s' : Prop := {
  os_byte : forall q x, q <> pid -> us_byte s' q x = us_byte s q x;
  os_known : forall q, q <> pid -> us_known s q -> us_known s' q;
  os_files : fl_same s s';
}.
Lemma only_space_trans pid s1 s2 s3 : only_space pid s1 s2 -> only_space pid s2 s3 -> only_space pid s1 s3.
Proof.
  intros [A1 A2 A3] [B1 B2 B3]. split; [intros; by rewrite B1, A1|auto|by eapply fl_same_trans].
Qed.
Lemma only_space_same pid s s' : us_same s s' -> fl_same s s' -> only_space pid s s'.
Proof. intros (_ & H2 & H3) Hf. split; [auto| |done]. intros q _. apply H3. Qed.
Lemma only_space_wrote R s s' : wrote R s s' -> only_space (us_current s) s s'.
Proof. intros [W1 W2 W3 W4 W5 W6]. split; [intros; apply W2; by left| |done]. intros q _. apply W4. Qed.

Lemma same_bytes s s' a l : us_same s s' -> bytes_at s a l -> bytes_at s' a l.
Proof. intros (H1 & H2 & _) Hb i b Hi. rewrite H1, H2. by apply Hb. Qed.
Lemma same_mapped s s' a n : us_same s s' -> mapped_at s a n -> mapped_at s' a n.
Proof. intros (H1 & H2 & _) Hb x Hx. rewrite H1, H2. by apply Hb. Qed.
Lemma same_stack s s' sp argv envp : us_same s s' -> stack_ok s sp argv envp -> stack_ok s' sp argv envp.
Proof.
  intros H [K1 (u & U1 & U2 & K2) K3 (v & V1 & V2 & K4) K5].
  assert (Hv : forall a b l, vector_at s a b l -> vector_at s' a b l).
  { intros a b l V i x Hi. destruct (V i x Hi) as [W1 W2]. by split; eapply same_bytes. }
  split; [by eapply same_bytes|exists u; auto|by eapply same_bytes|exists v; auto|by eapply same_bytes].
Qed.

(** [mmu_alloc] in the current space. *)
Lemma alloc_ok s C L U pid addr size : km_inv s C L U -> us_current s = pid -> 0 <= size <= 2 ^ 31 -> is_u32 addr ->
  runs (us_alloc pid addr size) s (fun _ s' => km_inv s' C L U /\ us_current s' = pid /\ only_space pid s s' /\
    (in_megabyte addr size = true -> forall x, in_pages addr size x -> is_Some (us_byte s' pid x)) /\
    forall x, is_Some (us_byte s pid x) -> is_Some (us_byte s' pid x)).
Proof.
  intros HI Hc Hs Ha. apply runs_inv. destruct (us_alloc_spec s C L U pid addr size HI Hs Ha) as [E|(s' & E & H1 & H2 & H3 & H4 & H5)]; [by left|right].
  eexists _, s'. split; [done|]. split; [done|]. split; [congruence|]. split.
  { split; [intros; apply H2; by left|intros q Hq Hk; apply H4; by right|]. apply fl_us_step. by eapply uss_alloc. }
  split; [done|]. intros x Hx. destruct (in_megabyte addr size) eqn:Em; [|rewrite H2; auto].
  destruct (in_pages_dec addr size x); [auto|]. rewrite H2; auto.
Qed.

(** The program and its arguments, in the current space. *)
Record program_in s (t d : image_segment) (sp : Z) (argv envp : list (list Z)) : Prop := {
  pg_text : bytes_at s (im_addr t) (image_bytes t);
  pg_data : bytes_at s (im_addr d) (image_bytes d);
  pg_stack : stack_ok s sp argv envp;
}.

(** Where the segments go has been mapped. *)
Record room s (t d : image_segment) : Prop := {
  rm_text : mapped_at s (im_addr t) (im_size t);
  rm_data : mapped_at s (im_addr d) (im_size d);
  rm_stack : mapped_at s (STACK_END - ARG_MAX) ARG_MAX;
}.

Lemma copy_segment_wrote C L U s e x : km_inv s C L U -> seg_is e (Some x) -> placed x ->
  mapped_at s (im_addr x) (im_size x) ->
  exists s', copy_segment_data e s = Ok (tt, s') /\ wrote (fun a => im_addr x <= a < im_addr x + im_size x) s s' /\
    bytes_at s' (im_addr x) (image_bytes x).
Proof.
  intros HI He Hp Hm. destruct (copy_segment_ok C L U s e x HI He Hp Hm) as (s' & E & [W1 W2 W3 W4 W5] & B & Hf).
  exists s'. split; [done|]. split; [|done]. split; try done. intros q a [?|Ha]; apply W2; [by left|right; lia].
Qed.

Lemma elf_copy_ok C L U s im e t d : km_inv s C L U -> mappable im t d -> placed t -> placed d -> room s t d ->
  seg_is (ex_text e) (Some t) -> seg_is (ex_data e) (Some d) ->
  exists s', elf_copy e s = Ok (tt, s') /\ wrote (fun a => a < BRK_ADDRESS_END) s s' /\
    bytes_at s' (im_addr t) (image_bytes t) /\ bytes_at s' (im_addr d) (image_bytes d).
Proof.
  intros HI [_ _ _ _ Hap] Pt Pd [R1 R2 R3] Et Ed. unfold elf_copy.
  destruct (copy_segment_wrote C L U s _ t HI Et Pt R1) as (s1 & E1 & W1 & B1). mrun E1.
  destruct (copy_segment_wrote C L U s1 _ d (wr_inv _ _ _ W1 _ _ _ HI) Ed Pd) as (s2 & E2 & W2 & B2); [by eapply wrote_mapped|].
  exists s2. split; [done|]. pose proof (pl_end _ Pt). pose proof (pl_end _ Pd). split; [|split; [|done]].
  - eapply wrote_trans; (eapply wrote_weaken; [|first [exact W1|exact W2]]); cbv beta; lia.
  - eapply wrote_bytes; [exact W2|done|]. intros i Hi. pose proof (image_bytes_length t (pl_bytes _ Pt)). cbv beta. lia.
Qed.
End Fill.

(** ** The segments of a process *)
Section Segments.
Context {S : Type} `{KM : KernelMem S} {US : UserSpace S} {FO : FileOps S} {FL : FileLaws S}.
Notation state := (kernel S).
Implicit Types (k : state) (s : S) (x : process).

Lemma run_get_proc {A} k p x (f : process -> M state A) : k_procs k !! p = Some x -> bind (get_proc p) f k = f x k.
Proof. intros Hx. unfold get_proc, gets, opt, bind, ret. by rewrite Hx. Qed.
Lemma run_upd_proc {A} k p x g (f : unit -> M state A) : k_procs k !! p = Some x ->
  bind (upd_proc p g) f k = f tt (set_k_procs (<[p := g x]> (k_procs k)) k).
Proof. intros Hx. unfold upd_proc. rewrite bind_assoc. by rewrite (run_get_proc k p x) by done. Qed.
Lemma run_get_segment {A} k p x i sg (f : segment -> M state A) : k_procs k !! p = Some x ->
  p_segments x !! Z.to_nat i = Some sg -> bind (get_segment p i) f k = f sg k.
Proof. intros Hx Hs. unfold get_segment. rewrite bind_assoc, (run_get_proc k p x) by done. by rewrite Hs. Qed.
Lemma run_upd_segment {A} k p x i sg g (f : unit -> M state A) : k_procs k !! p = Some x ->
  p_segments x !! Z.to_nat i = Some sg -> bind (upd_segment p i g) f k =
    f tt (set_k_procs (<[p := set_p_segments (<[Z.to_nat i := g sg]> (p_segments x)) x]> (k_procs k)) k).
Proof.
  intros Hx Hs. unfold upd_segment. rewrite bind_assoc, (run_get_segment k p x i sg) by done. by rewrite (run_upd_proc k p x).
Qed.

(** The segments [create_segments] sets up, in the order of their numbers. *)
Definition new_segments (text_addr text_end data_start data_end : Z) : list segment :=
  let heap := if truthy data_end then data_end else text_end in
  [Segment text_addr text_end text_end SEGMENT_FLAGS_GROWSUP;
   Segment data_start data_end data_end SEGMENT_FLAGS_GROWSUP;
   Segment STACK_START (STACK_END - INITIAL_STACK_SIZE) STACK_END SEGMENT_FLAGS_GROWSDOWN;
   Segment heap heap heap SEGMENT_FLAGS_GROWSUP].
Definition program_segments (e : elf_executable) : list segment :=
  let t := ex_text e in let d := ex_data e in
  new_segments (es_addr t) (PAGE_ALIGN (u32 (es_addr t + es_memory_size t)))
    (PAGE_MASK (es_addr d)) (PAGE_ALIGN (u32 (es_addr d + es_memory_size d))).
Definition program_brk (e : elf_executable) : Z :=
  let text_end := PAGE_ALIGN (u32 (es_addr (ex_text e) + es_memory_size (ex_text e))) in
  let data_end := PAGE_ALIGN (u32 (es_addr (ex_data e) + es_memory_size (ex_data e))) in
  if truthy data_end then data_end else text_end.

Lemma setup_segments_ok k p x e : k_procs k !! p = Some x -> length (p_segments x) = Z.to_nat SEGMENT_TYPE_SIZE ->
  setup_segments p e k =
    Ok (tt, set_k_procs (<[p := set_p_brk (program_brk e) (set_p_segments (program_segments e) x)]> (k_procs k)) k).
Proof.
  intros Hx Hl. unfold setup_segments, create_segments. cbv zeta.
  destruct (p_segments x) as [|a [|b [|c [|d [|]]]]] eqn:Es; try discriminate Hl.
  rewrite bind_assoc. erewrite (run_upd_segment k p x _ a); [|done|by rewrite Es].
  erewrite bind_assoc, run_upd_segment; [|apply lookup_insert_eq|cbn; by rewrite Es].
  erewrite bind_assoc, run_upd_segment; [|apply lookup_insert_eq|cbn; by rewrite Es].
  erewrite run_upd_segment; [|apply lookup_insert_eq|cbn; by rewrite Es].
  erewrite run_get_segment; [|apply lookup_insert_eq|cbn; by rewrite Es].
  unfold upd_proc. erewrite run_get_proc by apply lookup_insert_eq. unfold put_proc, modify.
  cbn [k_procs set_k_procs]. rewrite !insert_insert_eq. cbn. rewrite Es. done.
Qed.

Definition segment_sane (sg : segment) : Prop :=
  exists a b, segment_extent sg = Some (a, b) /\ is_u32 a /\ 0 <= b - a <= 2 ^ 31.

Lemma alloc_loop_ok C L U p x n : forall i k, km_inv (k_mem k) C L U -> us_current (k_mem k) = p_id x ->
  k_procs k !! p = Some x -> Forall segment_sane (p_segments x) -> 0 <= i -> i + Z.of_nat n = Z.of_nat (length (p_segments x)) ->
  runs (alloc_segments_loop n p i) k (fun _ k' => exists s', k' = set_k_mem s' k /\ km_inv s' C L U /\
    us_current s' = p_id x /\ only_space (p_id x) (k_mem k) s' /\
    (forall j sg a b, (Z.to_nat i <= j)%nat -> p_segments x !! j = Some sg -> segment_extent sg = Some (a, b) ->
       in_megabyte a (b - a) = true -> forall y, in_pages a (b - a) y -> is_Some (us_byte s' (p_id x) y)) /\
    forall y, is_Some (us_byte (k_mem k) (p_id x) y) -> is_Some (us_byte s' (p_id x) y)).
Proof.
  induction n as [|n IH]; intros i k HI Hc Hx Hs Hi Hn; cbn [alloc_segments_loop].
  { apply runs_ret. exists (k_mem k). split; [by destruct k|]. split; [done|]. split; [done|]. split; [by apply only_space_same|].
    split; [|done]. intros j sg a b Hj Hsg. apply lookup_lt_Some in Hsg. lia. }
  destruct (lookup_lt_is_Some_2 (p_segments x) (Z.to_nat i)) as [sg Hsg]; [lia|].
  pose proof (proj1 (Forall_lookup _ _) Hs _ _ Hsg) as (a & b & E & Ha & Hb).
  eapply runs_eq; [by apply (run_get_segment k p x i sg)|]. rewrite E. apply runs_bind, runs_ret. cbn beta iota.
  eapply runs_eq; [by apply (run_get_proc k p x)|]. rewrite u32_small by (unfold is_u32; lia).
  apply runs_bind, runs_kmem. eapply runs_mono; [by apply (alloc_ok (k_mem k) C L U)|].
  intros r s1 (H1 & H2 & H3 & H4 & H5). cbn beta. eapply runs_mono; [apply (IH (i + 1) (set_k_mem s1 k)); [done..|lia|lia]|].
  intros _ k2 (s2 & -> & G1 & G2 & G3 & G4 & G5). exists s2. split; [done|]. split; [done|]. split; [done|].
  split; [by eapply only_space_trans|]. split; [|auto]. intros j sg' a' b' Hj Hsg' E' Hm y Hy.
  destruct (decide (j = Z.to_nat i)) as [->|Hne].
  - rewrite Hsg in Hsg'. injection Hsg' as <-. rewrite E in E'. injection E' as <- <-. auto.
  - eapply G4; [|exact Hsg'|done|done|done]. lia.
Qed.
End Segments.

(** ** From the tables to the stack *)
Section FillSpace.
Context {S : Type} `{KM : KernelMem S} {US : UserSpace S} {FO : FileOps S} {FL : FileLaws S}.
Notation state := (kernel S).
Implicit Types (k : state) (s : S) (x : process).
Context (e : elf_executable) (im : image) (t d : image_segment).
Context (Ht : seg_is (ex_text e) (Some t)) (Hd : seg_is (ex_data e) (Some d)).
Context (HM : mappable im t d) (Pt : placed t) (Pd : placed d).

Lemma seg_end_eq y : placed y -> PAGE_ALIGN (u32 (im_addr y + im_size y)) = seg_end y.
Proof.
  intros [P1 P2 P3 _]. unfold USER_ADDRESS_START, BRK_ADDRESS_END in *. rewrite u32_small by (unfold is_u32; lia).
  rewrite page_align_eq by (change PAGE_SIZE with 4096; lia). done.
Qed.
Lemma program_segments_eq : program_segments e =
  new_segments (im_addr t) (seg_end t) (PAGE_SIZE * (im_addr d / PAGE_SIZE)) (seg_end d).
Proof.
  unfold program_segments. cbv zeta. destruct Ht as (_ & -> & -> & _), Hd as (_ & -> & -> & _).
  rewrite !seg_end_eq by done. rewrite page_mask_eq; [done|].
  destruct Pd as [P1 P2 P3 _]. unfold USER_ADDRESS_START, BRK_ADDRESS_END, is_u32 in *. lia.
Qed.
Lemma program_brk_eq : program_brk e = seg_end d.
Proof.
  unfold program_brk. cbv zeta. destruct Ht as (_ & -> & -> & _), Hd as (_ & -> & -> & _). rewrite !seg_end_eq by done.
  unfold truthy. destruct (Z.eqb_spec (seg_end d) 0) as [E|]; [|done]. exfalso. destruct Pd as [P1 P2 P3 _].
  unfold seg_end, USER_ADDRESS_START in *. change PAGE_SIZE with 4096 in *. Z.to_euclidean_division_equations; lia.
Qed.
Lemma placed_u32 y : placed y -> is_u32 (im_addr y).
Proof. intros [P1 P2 P3 _]. unfold USER_ADDRESS_START, BRK_ADDRESS_END, is_u32 in *. lia. Qed.

Lemma program_segments_sane : Forall segment_sane (program_segments e).
Proof.
  rewrite program_segments_eq. destruct HM as [_ _ M1 M2 _].
  destruct (seg_pages_cover t _ Pt M1 (or_introl eq_refl)) as (A1 & A2 & _).
  destruct (seg_pages_cover d _ Pd M2 (or_intror eq_refl)) as (B1 & B2 & _).
  pose proof (placed_u32 t Pt). pose proof (placed_u32 d Pd). unfold is_u32 in *.
  assert (PAGE_SIZE * (im_addr d / PAGE_SIZE) <= im_addr d) by (apply Z.mul_div_le; done).
  assert (Hdt : seg_end t < 2 ^ 32 /\ seg_end d < 2 ^ 32).
  { destruct Pt as [_ E1 _ _], Pd as [_ E2 _ _]. unfold BRK_ADDRESS_END, seg_end in *. change PAGE_SIZE with 4096 in *.
    Z.to_euclidean_division_equations; lia. }
  unfold new_segments. cbv zeta. set (h := if truthy _ then _ else _).
  assert (0 <= h < 2 ^ 32) by (subst h; destruct (truthy _); lia).
  repeat constructor; eexists _, _; (split; [reflexivity|]); unfold is_u32;
    rewrite ?Z.sub_diag; cbn [s_start s_current s_end]; try (split; lia).
  unfold STACK_END, INITIAL_STACK_SIZE, USER_ADDRESS_END, ARG_MAX. lia.
Qed.

Lemma fill_space_ok C L U pg k p x avep argv envp : km_inv (k_mem k) C L (ex_pages e ∪ {[pg]} ∪ U) ->
  us_current (k_mem k) = p_id x -> k_procs k !! p = Some x -> p_segments x = program_segments e ->
  seg_pages (ex_text e) ## seg_pages (ex_data e) -> ex_pages e ## {[pg]} ∪ U -> pg ∉ U ->
  avep_ok avep argv envp -> av_page avep = Some pg -> Forall string_ok argv -> Forall string_ok envp ->
  runs (fill_space p e avep) k (fun sp k' => exists s', k' = set_k_mem s' k /\ km_inv s' C L U /\
    us_current s' = p_id x /\ only_space (p_id x) (k_mem k) s' /\ sp = STACK_END - av_size avep /\
    program_in s' t d sp argv envp).
Proof.
  intros HI Hc Hx Hsg Hap Hfr Hpg Hav Hpage Hargv Henvp. unfold fill_space.
  pose proof (seg_pages_cover t _ Pt (mp_text_mb _ _ _ HM) (or_introl eq_refl)) as (_ & _ & A3 & A4).
  pose proof (seg_pages_cover d _ Pd (mp_data_mb _ _ _ HM) (or_intror eq_refl)) as (_ & _ & B3 & B4).
  eapply runs_step; [apply (alloc_loop_ok C L _ p x _ 0 k HI Hc Hx); [rewrite Hsg; apply program_segments_sane|done|by rewrite Hsg]|].
  intros _ k1 (s1 & -> & I1 & C1 & O1 & Hmap & _). rewrite Hsg, program_segments_eq in Hmap. unfold new_segments in Hmap. cbv zeta in Hmap.
  assert (R : room s1 t d).
  { split; intros y Hy; rewrite C1.
    - eapply (Hmap 0%nat _ (im_addr t) (seg_end t)); [lia|reflexivity|reflexivity|done|by apply A4].
    - eapply (Hmap 1%nat _ _ (seg_end d)); [lia|reflexivity|reflexivity|done|by apply B4].
    - eapply (Hmap 2%nat _ (STACK_END - INITIAL_STACK_SIZE) STACK_END); [lia|reflexivity|reflexivity|done|].
      apply in_pages_aligned; [done|]. change (STACK_END - (STACK_END - INITIAL_STACK_SIZE)) with ARG_MAX. done. }
  destruct (elf_copy_ok C L _ s1 im e t d I1 HM Pt Pd R Ht Hd) as (s2 & E2 & W2 & T2 & D2).
  apply runs_bind, runs_kmem. eapply runs_ok; [exact E2|]. cbn beta.
  pose proof (wr_inv _ _ _ W2 _ _ _ I1) as I2.
  apply runs_bind, runs_kmem. eapply runs_mono.
  { apply (elf_release_ok C L s2 s2 ({[pg]} ∪ U) e); [|done|done]. split_and!; [|apply us_same_refl|apply fl_same_refl].
    cbn [k_mem set_k_mem]. by replace (ex_pages e ∪ ({[pg]} ∪ U)) with (ex_pages e ∪ {[pg]} ∪ U) by set_solver. }
  intros e' s3 (I3 & U3 & F3). cbn beta.
  pose proof (wr_current _ _ _ W2) as C2. pose proof (proj1 U3) as C3.
  destruct (copy_argv_ok C L _ s3 avep argv envp STACK_END I3 Hav Hargv Henvp) as (s4 & E4 & W4 & K4); [done| |].
  { eapply same_mapped; [exact U3|]. eapply wrote_mapped; [exact W2|]. apply R. }
  apply runs_bind, runs_kmem. eapply runs_ok; [exact E4|]. cbn beta.
  apply runs_bind, runs_kmem. eapply runs_mono.
  { apply (release_argv_ok C L s4 s4 ({[pg]} ∪ U) avep pg); [|done|set_solver].
    split_and!; [|apply us_same_refl|apply fl_same_refl]. by apply (wr_inv _ _ _ W4). }
  intros _ s5 (I5 & U5 & F5). cbn beta. apply runs_ret. exists s5. split; [done|].
  replace (({[pg]} ∪ U) ∖ {[pg]}) with U in I5 by set_solver. split; [done|].
  split. { destruct U5 as (-> & _). rewrite (wr_current _ _ _ W4). congruence. }
  split; [|split; [done|]].
  - eapply only_space_trans; [exact O1|]. rewrite <- C1. eapply only_space_trans; [by apply (only_space_wrote _ _ _ W2)|].
    eapply only_space_trans; [by apply only_space_same|]. rewrite <- C2, <- C3.
    eapply only_space_trans; [by apply (only_space_wrote _ _ _ W4)|by apply only_space_same].
  - assert (Hkeep : forall y, placed y -> bytes_at s2 (im_addr y) (image_bytes y) -> bytes_at s5 (im_addr y) (image_bytes y)).
    { intros y Py By. eapply same_bytes; [exact U5|]. eapply wrote_bytes; [exact W4|by eapply same_bytes|].
      intros i Hi. pose proof (image_bytes_length y (pl_bytes _ Py)). pose proof (pl_end _ Py).
      unfold STACK_END, USER_ADDRESS_END, ARG_MAX, BRK_ADDRESS_END in *. cbv beta. lia. }
    split; [by apply Hkeep|by apply Hkeep|by eapply same_stack].
Qed.
End FillSpace.

(** ** [process_exec] *)
Section ProcessExec.
Context {S : Type} `{KM : KernelMem S} {US : UserSpace S} {FO : FileOps S} {FL : FileLaws S}.
Notation state := (kernel S).
Implicit Types (k : state) (s : S) (x y : process).

(** The program behind a path, if there is one. *)
Definition program_at s (path : list Z) (o : option image) : Prop := o = path_image s path.

(** A call that failed: blocks may have been lost, nothing else has changed. *)
Definition unchanged C L U E k k' : Prop :=
  exists s' P, k' = set_k_mem s' k /\ us_same (k_mem k) s' /\ fl_same (k_mem k) s' /\ P ## U /\ files_ok k' C L (P ∪ U) E.

(** The running process [x] has become the program. *)
Record executed k (x : process) (im : image) (t d : image_segment) (argv envp : list (list Z)) k' (y : process) : Prop := {
  xd_process : k_procs k' !! current_process k = Some y;
  xd_id : p_id y = p_id x;
  xd_context : p_context y = Context 0x10 (replicate 13 0) (STACK_END - block_size argv envp) 0 (im_entry im);
  xd_actions : p_actions y = reset_action <$> p_actions x;
  xd_segments : p_segments y = new_segments (im_addr t) (seg_end t) (PAGE_SIZE * (im_addr d / PAGE_SIZE)) (seg_end d);
  xd_brk : p_brk y = seg_end d;
  xd_files : forall i, 0 <= i < MAX_FD_SIZE -> fd_of y i = if bitset_mem (p_close_on_exec x) i then 0 else fd_of x i;
  xd_others : others_sched (current_process k) (k_procs k) (k_procs k');
  xd_tables : keeps k k';
  xd_current : us_current (k_mem k') = p_id x;
  xd_spaces : only_space (p_id x) (k_mem k) (k_mem k');
  xd_program : program_in (k_mem k') t d (STACK_END - block_size argv envp) argv envp;
}.

Definition exec_post C L U E k x argv envp (o : option image) (t d : image_segment) (r : Z) k' : Prop :=
  if ARG_MAX <? block_size argv envp then r = - E2BIG /\ unchanged C L U E k k'
  else match o with
       | None => r = - EACCES /\ unchanged C L U E k k'
       | Some im => r = 0 /\ exists L' U' E' y, files_ok k' C L' U' E' /\ executed k x im t d argv envp k' y
       end.

Lemma elf_load_at C L U s path o : km_inv s C L U -> Forall (fun c => c <> 0) path -> program_at s path o ->
  runs (elf_load path) s (loaded C L s U o) /\ (forall im, o = Some im ->
    (forall z, im_text im = Some z -> placed z) /\ (forall z, im_data im = Some z -> placed z)).
Proof.
  intros HI Hp Ho. unfold program_at in Ho. subst o. split; [by apply elf_load_ok|]. unfold path_image. intros im.
  destruct (fl_path s path) as [[n l]|] eqn:E; [|done]. intros Him. eapply elf_image_placed; [|exact Him]. by eapply fl_path_u8.
Qed.

Lemma program_at_same s s' path o : fl_same s s' -> program_at s path o -> program_at s' path o.
Proof. intros (H1 & _ & _). unfold program_at, path_image. by rewrite H1. Qed.

(** The old address space goes, a new one comes. *)
Lemma destroy_ok C L U s pid : km_inv s C L U -> us_known s pid -> pid <> 0 ->
  runs (us_destroy pid) s (fun _ s' => km_inv s' C L U /\ only_space pid s s').
Proof.
  intros HI Hk H0. apply runs_inv. destruct (us_destroy_spec s C L U pid HI Hk H0) as [E|(s' & E & C1 & B1 & K1 & I1)]; [by left|right].
  exists 0, s'. split; [done|]. split; [done|]. split; [|auto|].
  - intros q y Hq. by rewrite B1, decide_False.
  - apply fl_us_step. by eapply uss_destroy.
Qed.
Lemma set_ttb_ok C L U s pid : km_inv s C L U ->
  runs (us_set_ttb pid) s (fun _ s' => km_inv s' C L U /\ us_current s' = pid /\ only_space pid s s').
Proof.
  intros HI. apply runs_inv. destruct (us_set_ttb_spec s C L U pid HI) as [E|(s' & E & C1 & B1 & K1 & I1)]; [by left|right].
  exists (us_current s), s'. split; [done|]. split; [done|]. split; [done|]. split; [auto| |].
  - intros q Hq Hkq. apply K1. by right.
  - apply fl_us_step. by eapply uss_set_ttb.
Qed.

Lemma run_get_state {A} k p y (Q : A -> state -> Prop) (f : process -> M state A) :
  k_procs k !! p = Some y -> runs (f y) k Q -> runs (bind (get_proc p) f) k Q.
Proof. intros Hy H. eapply runs_eq; [by apply (run_get_proc k p y)|done]. Qed.
Lemma runs_upd {A} k p y g (Q : A -> state -> Prop) (f : unit -> M state A) :
  k_procs k !! p = Some y -> runs (f tt) (set_k_procs (<[p := g y]> (k_procs k)) k) Q -> runs (bind (upd_proc p g) f) k Q.
Proof. intros Hy H. unfold runs in *. by rewrite (run_upd_proc k p y). Qed.

(** The new context. *)
Lemma set_context_ok k p y sp e :
  k_procs k !! p = Some y ->
  (do* upd_proc p (set_p_context zero_context) in
   do* upd_proc p (fun x => set_p_context (set_c_cpsr 0x00000010 (p_context x)) x) in
   do* upd_proc p (fun x => set_p_context (set_c_sp sp (p_context x)) x) in
   do* upd_proc p (fun x => set_p_context (set_c_pc (ex_entry_point e) (p_context x)) x) in
   ret 0) k =
  Ok (0, set_k_procs (<[p := set_p_context (Context 0x10 (replicate 13 0) sp 0 (ex_entry_point e)) y]> (k_procs k)) k).
Proof.
  intros Hy. erewrite run_upd_proc by done. do 3 (erewrite run_upd_proc by apply lookup_insert_eq).
  unfold ret. cbn [k_procs set_k_procs]. by rewrite !insert_insert_eq.
Qed.

Lemma exec_program_ok C L U E k x s2 pg e avep im t d argv envp : files_ok k C L U E ->
  k_procs k !! current_process k = Some x -> length (p_segments x) = Z.to_nat SEGMENT_TYPE_SIZE ->
  us_known (k_mem k) (p_id x) -> p_id x <> 0 ->
  at0 C L (k_mem k) s2 (ex_pages e ∪ ({[pg]} ∪ U)) -> exec_is ({[pg]} ∪ U) e (Some t) (Some d) -> pg ∉ U ->
  ex_entry_point e = im_entry im -> mappable im t d -> placed t -> placed d ->
  avep_ok avep argv envp -> av_size avep = block_size argv envp -> av_page avep = Some pg ->
  Forall string_ok argv -> Forall string_ok envp ->
  runs (exec_program (current_process k) e avep) (set_k_mem s2 k) (fun r k' => r = 0 /\
    exists L' U' E' y, files_ok k' C L' U' E' /\ executed k x im t d argv envp k' y).
Proof.
  intros HO Hx Hlen Hk H0 (I2 & S2 & F2) [Xt Xd Xap Xfr] Hpg Hent HM Pt Pd Hav Hsz Hpage Hargv Henvp.
  set (p := current_process k) in *. set (F := ex_pages e ∪ {[pg]}).
  assert (HF : framed_inv F (k_mem k) s2 C L U).
  { split; [|split; [set_solver|done]]. by replace (U ∪ F) with (ex_pages e ∪ ({[pg]} ∪ U)) by set_solver. }
  pose proof (files_ok_framed F (k_mem k) k s2 C L U E HO HF) as HO2.
  unfold exec_program. set (k2 := set_k_mem s2 k) in *. assert (Hx2 : k_procs k2 !! p = Some x) by done.
  eapply runs_bind_ok; [by apply setup_segments_ok|].
  set (x1 := set_p_brk _ _). eapply runs_upd; [apply lookup_insert_eq|]. cbn beta. cbn [k_procs set_k_procs]. rewrite insert_insert_eq.
  set (x2 := set_p_actions _ _).
  pose proof (files_ok_proc (KM := framed F (k_mem k)) _ _ _ _ _ p x x2 HO2 Hx2 eq_refl eq_refl) as HO3.
  match goal with |- runs _ ?q _ => set (k3 := q) end. change (files_ok (KM := framed F (k_mem k)) k3 C L U E) in HO3.
  assert (Hx3 : k_procs k3 !! p = Some x2) by apply lookup_insert_eq.
  destruct (exec_files_spec (KM := framed F (k_mem k)) (Z.to_nat MAX_FD_SIZE) 0 k3 C L U E p x2 HO3 Hx3)
    as (k4 & L' & U' & E' & y & E4 & HO4 & K4 & Oth4 & Hy & Kept & Hmarks); [lia|done|].
  rewrite exec_files_framed in E4. eapply runs_bind_ok; [exact E4|].
  destruct (files_ok_km (KM := framed F (k_mem k)) _ _ _ _ _ HO4) as (I4 & D4 & S4 & F4).
  destruct Kept as (l & b & st & su & Ey & Hl & Hfd).
  assert (Hid : p_id y = p_id x) by (by rewrite Ey).
  eapply run_get_state; [exact Hy|]. rewrite Hid.
  apply runs_bind, runs_kmem. eapply runs_mono; [apply (destroy_ok _ _ _ _ _ I4); [by apply S4|done]|].
  intros _ s5 (I5 & O5). cbn beta. apply runs_bind, runs_kmem. eapply runs_mono; [by apply (set_ttb_ok _ _ _ _ (p_id x) I5)|].
  intros _ s6 (I6 & C6 & O6). cbn beta.
  eapply runs_step; [eapply (fill_space_ok e im t d Xt Xd HM Pt Pd C L' U' pg _ p y avep argv envp); try done|].
  { by replace (ex_pages e ∪ {[pg]} ∪ U') with (U' ∪ F) by set_solver. }
  { by rewrite Hid. }
  { by rewrite Ey. }
  { subst F. set_solver. }
  { subst F. set_solver. }
  intros sp k7 (s7 & -> & I7 & C7 & O7 & -> & Pg7). cbn beta. rewrite Hid in C7, O7.
  eapply runs_ok; [apply (set_context_ok _ p y); exact Hy|]. split; [done|].
  set (y' := set_p_context _ y). exists L', U', E', y'. split.
  { apply (files_ok_proc _ _ _ _ _ p y y'); [|exact Hy|done|done].
    exact (files_ok_unframed F (k_mem k) k4 s7 C L' U' E' HO4 I7). }
  assert (Ox : others_sched p (k_procs k) (k_procs k4)).
  { eapply others_sched_trans; [|exact Oth4]. apply (others_sched_insert p x2), sched_only_refl. }
  split.
  - apply lookup_insert_eq.
  - done.
  - cbn. by rewrite Hsz, Hent.
  - cbn. by rewrite Ey.
  - cbn. rewrite Ey. cbn. by apply (program_segments_eq e t d).
  - cbn. rewrite Ey. cbn. by apply (program_brk_eq e t d).
  - intros i Hi. change (fd_of y' i) with (fd_of y i). rewrite Hfd by done. rewrite (proj2 (Z.ltb_ge i 0)) by lia. cbn [orb].
    change (p_close_on_exec x2) with (p_close_on_exec x). by destruct (bitset_mem _ _).
  - eapply others_sched_trans; [exact Ox|]. apply (others_sched_insert p y'), sched_only_refl.
  - eapply keeps_trans; [|eapply keeps_trans; [exact K4|]].
    + split; [|done]. split_and!; [done|done|]. intros q z Hz. cbn. destruct (decide (q = p)) as [->|].
      * exists x2. rewrite lookup_insert_eq. split; [done|]. rewrite Hx in Hz. by injection Hz as <-.
      * exists z. by rewrite lookup_insert_ne.
    + split; [|done]. split_and!; [done|done|]. intros q z Hz. cbn. destruct (decide (q = p)) as [->|].
      * exists y'. rewrite lookup_insert_eq. split; [done|]. rewrite Hy in Hz. by injection Hz as <-.
      * exists z. by rewrite lookup_insert_ne.
  - done.
  - eapply only_space_trans; [apply (only_space_same _ _ _ S4 F4)|]. eapply only_space_trans; [exact O5|].
    eapply only_space_trans; [exact O6|exact O7].
  - by rewrite <- Hsz.
Qed.

Lemma process_exec_ok C L U E k x path argv envp o t d : files_ok k C L U E ->
  k_procs k !! current_process k = Some x -> length (p_segments x) = Z.to_nat SEGMENT_TYPE_SIZE ->
  us_known (k_mem k) (p_id x) -> p_id x <> 0 ->
  Forall (fun c => c <> 0) path -> Forall string_ok argv -> Forall string_ok envp -> vectors_size argv envp < 2 ^ 31 - 8 ->
  program_at (k_mem k) path o -> (forall im, o = Some im -> mappable im t d) ->
  runs (process_exec path argv envp) k (exec_post C L U E k x argv envp o t d).
Proof.
  intros HO Hx Hlen Hk H0 Hpath Hargv Henvp Hv Hat Hmap. unfold process_exec, exec_post.
  apply runs_bind, runs_gets. cbn beta. pose proof (files_ok_km _ _ _ _ _ HO) as HI.
  assert (A0 : at0 C L (k_mem k) (k_mem k) U) by (split_and!; [done|apply us_same_refl|apply fl_same_refl]).
  assert (Hun : forall s P, P ## U -> at0 C L (k_mem k) s (P ∪ U) -> unchanged C L U E k (set_k_mem s k)).
  { intros s P HP (I1 & S1 & F1). exists s, P. split_and!; [done|done|done|done|]. by apply files_ok_more. }
  apply runs_bind, runs_kmem. eapply runs_mono; [apply (prepare_vectors_ok C L (k_mem k) (k_mem k) U argv envp A0 Hv)|].
  intros [r avep] s1. unfold prepared. cbn [fst snd]. destruct (ARG_MAX <? block_size argv envp).
  { intros [-> A1]. cbn. apply runs_ret. split; [done|]. apply (Hun s1 ∅); [set_solver|].
    by replace (∅ ∪ U) with U by set_solver. }
  intros (-> & Hav & pg & Hpage & Hpg & A1). cbn [Z.ltb Z.compare].
  destruct A1 as (I1 & S1 & F1). destruct (elf_load_at C L ({[pg]} ∪ U) s1 path o I1 Hpath) as [HL Hpl]; [by eapply program_at_same|].
  apply runs_bind, runs_kmem. cbn [k_mem set_k_mem]. eapply runs_mono; [exact HL|].
  intros [r e] s2. unfold loaded. cbn [fst snd]. destruct o as [im|].
  - intros (-> & Hent & Hex & I2 & S2 & F2). cbn [Z.ltb Z.compare]. pose proof (Hmap im eq_refl) as HM.
    destruct (Hpl im eq_refl) as [Pt Pd]. rewrite (mp_text _ _ _ HM) in *. rewrite (mp_data _ _ _ HM) in *.
    apply (exec_program_ok C L U E k x s2 pg e avep im t d argv envp); try done; [|by apply Pt|by apply Pd|apply Hav].
    split_and!; [done|by eapply us_same_trans|by eapply fl_same_trans].
  - intros (-> & P & HP & I2 & S2 & F2). cbn [Z.ltb Z.compare]. apply runs_bind, runs_kmem.
    eapply runs_mono; [apply (release_argv_ok C L (k_mem k) s2 (P ∪ ({[pg]} ∪ U)) avep pg); [|done|set_solver]|].
    { split_and!; [done|by eapply us_same_trans|by eapply fl_same_trans]. }
    intros [] s3 A3. cbn beta in A3. apply runs_ret. split; [done|]. apply (Hun s3 P); [set_solver|].
    by replace (P ∪ U) with ((P ∪ ({[pg]} ∪ U)) ∖ {[pg]}) by set_solver.
Qed.

End ProcessExec.
