(* ===== verification/ExecClaims.v ===== *)
(** * Programs: properties

    The loading of a program and [process_exec], on any memory, address spaces
    and files that keep their promises.  The examples run on a file system whose
    files cannot change. *)

From stdpp Require Import base numbers list list_numbers gmap.
From S2P Require Import Prelude Bytes Hoare Arith Signal Buddy BuddyProofs KernelMem Unix UserSpace Kernel Pipe PipeProofs PipeSpecs Files FilesProofs FileSpecs FileTables Process ProcessSignals Block BlockProofs Minix Inode Dentry Fs FileStore Elf ElfProofs Exec ExecFrame ExecProofs ExecSpecs.

#[local] Open Scope Z_scope.
#[local] Open Scope kernel_scope.

(** ** Files that cannot change

    Paths with their contents; the number of a file, from 1 on, is its entry
    and its inode. *)
Section ReadOnly.
Context {S : Type} `{KM : KernelMem S} {US : UserSpace S}.
Context (disk : list (list Z * list Z)).

Fixpoint ro_find (l : list (list Z * list Z)) (i : Z) (path : list Z) : Z :=
  match l with
  | [] => 0
  | (p, _) :: l => if decide (p = path) then i else ro_find l (i + 1) path
  end.
Definition ro_contents (i : Z) : option (list Z) := if i <=? 0 then None else snd <$> disk !! Z.to_nat (i - 1).
Definition ro_inode (i : Z) (l : list Z) : inode := Inode i 0x81a4 1 (Z.of_nat (length l)).
Definition ro_on {A} (i : Z) (f : list Z -> M S A) : M S A := let* l := opt Fault (ro_contents i) in f l.

Definition ro_file_ops : FileOps S := {|
  fo_lookup path := ret (ro_find disk 1 path);
  fo_inode_of d := ro_on d (fun _ => ret d);
  fo_inode i := ro_on i (fun l => ret (ro_inode i l));
  fo_read i size start := ro_on i (fun l =>
    ret (Z.of_nat (length (segment_of l start size)), segment_of l start size));
  fo_write _ _ _ _ := ret (- EACCES);
  fo_truncate _ _ := ret (- EACCES);
  fo_create _ _ _ := ret (- EACCES);
  fo_unlink _ := ret (- EACCES);
  fo_mkdir _ _ := ret (- EACCES);
  fo_rmdir _ := ret (- EACCES);
  fo_lstat64 _ := ret (- EACCES, None);
  fo_fstat64 _ := ret (- EACCES, None);
|}.

Lemma ro_find_some l path : forall i, 0 < i -> ro_find l i path <> 0 ->
  i <= ro_find l i path /\ is_Some (l !! Z.to_nat (ro_find l i path - i)).
Proof.
  induction l as [|[p c] l IH]; intros i Hi; cbn [ro_find]; [done|]. case_decide; [intros _|intros H0].
  - split; [lia|]. rewrite Z.sub_diag. by eexists.
  - destruct (IH (i + 1) ltac:(lia) H0) as [H1 H2]. split; [lia|].
    by replace (Z.to_nat (ro_find l (i + 1) path - i)) with (Datatypes.S (Z.to_nat (ro_find l (i + 1) path - (i + 1)))) by lia.
Qed.

Context (Hdisk : Forall (fun x => Z.of_nat (length (snd x)) < 2 ^ 31 /\ Forall is_u8 (snd x)) disk).

Program Definition ro_file_laws : FileLaws S (FO := ro_file_ops) := {|
  fl_path _ path := let i := ro_find disk 1 path in (fun l => (ro_inode i l, l)) <$> ro_contents i;
  fl_node _ d := const d <$> ro_contents d;
  fl_file _ i n l := ro_contents i = Some l /\ n = ro_inode i l;
|}.
Next Obligation.
  intros s C L U i n l _ [Hc ->]. cbn. unfold ro_contents in Hc. destruct (i <=? 0); [done|].
  apply fmap_Some in Hc as (x & Hx & ->). rewrite Forall_lookup in Hdisk. destruct (Hdisk _ _ Hx). by split_and!.
Qed.
Next Obligation.
  intros s C L U path HI _. apply runs_ret. split; [done|]. split; [apply us_same_refl|]. split; [by split_and!|].
  cbv zeta beta. destruct (Z.eq_dec (ro_find disk 1 path) 0) as [->|H0]; [done|].
  destruct (ro_find_some disk path 1 ltac:(lia) H0) as [H1 [x Hx]].
  assert (Hc : ro_contents (ro_find disk 1 path) = Some (snd x)) by (unfold ro_contents; by rewrite (proj2 (Z.leb_gt _ 0)), Hx by lia).
  rewrite Hc. cbn. split; [done|]. exists (ro_find disk 1 path). by rewrite Hc.
Qed.
Next Obligation.
  intros s d i. cbn. unfold ro_on. destruct (ro_contents d); [|done]. cbn. by intros [= <-].
Qed.
Next Obligation.
  intros s C L U path n l _. cbv zeta beta. intros (l' & Hc & [= _ ->])%fmap_Some. unfold ro_contents in Hc.
  destruct (_ <=? 0); [done|]. apply fmap_Some in Hc as (x & Hx & ->). rewrite Forall_lookup in Hdisk. by destruct (Hdisk _ _ Hx).
Qed.
Next Obligation. intros s i n l [Hc ->]. cbn. unfold ro_on. by rewrite Hc. Qed.
Next Obligation.
  intros s C L U i n l size start HI [Hc ->] _ _. cbn. unfold ro_on. rewrite Hc. cbn. apply runs_ret.
  by split_and!.
Qed.
Next Obligation. intros s s' _. split_and!; done. Qed.
Next Obligation. intros s s' _. split_and!; done. Qed.
End ReadOnly.

(** ** A sample program

    A header, two program headers, four bytes of code and four of data; the data
    segment has four more bytes in memory. *)
Definition sample_program_header (offset addr file_size memory_size flags : Z) : list Z :=
  le32 1 ++ le32 offset ++ le32 addr ++ le32 addr ++ le32 file_size ++ le32 memory_size ++ le32 flags ++ le32 4.
Definition sample_program : list Z :=
  [127; 69; 76; 70; 1; 1; 1] ++ replicate 9 0 ++ [2; 0; 40; 0] ++ le32 1 ++ le32 0x10000 ++ le32 52 ++ le32 0 ++
  le32 0x05000000 ++ [52; 0; 32; 0; 2; 0] ++ replicate 6 0 ++
  sample_program_header 116 0x10000 4 4 5 ++ sample_program_header 120 0x20000 4 8 6 ++ [1; 2; 3; 4; 5; 6; 7; 8].
Definition sample_path : list Z := [47; 97].
Definition sample_disk : list (list Z * list Z) := [(sample_path, sample_program)].

Definition sample_text : image_segment := ImageSegment 0x10000 4 [1; 2; 3; 4].
Definition sample_data : image_segment := ImageSegment 0x20000 8 [5; 6; 7; 8].
Definition sample_image : image := Image 0x10000 (Some sample_text) (Some sample_data).

Lemma sample_program_image : elf_image sample_program = Some sample_image.
Proof. vm_compute. reflexivity. Qed.

Lemma sample_disk_ok : Forall (fun x => Z.of_nat (length (snd x)) < 2 ^ 31 /\ Forall is_u8 (snd x)) sample_disk.
Proof.
  constructor; [|constructor]. cbn [snd]. split; [vm_compute; reflexivity|].
  apply (bool_decide_unpack (Forall (fun b => 0 <= b < 2 ^ 8) sample_program)). vm_compute. exact I.
Qed.

#[local] Instance sample_file_ops : FileOps (spaces bump) := ro_file_ops sample_disk.
#[local] Instance sample_file_laws : FileLaws (spaces bump) := ro_file_laws sample_disk sample_disk_ok.

Lemma sample_program_at s : program_at s sample_path (Some sample_image).
Proof. unfold program_at, path_image. cbn. symmetry. exact sample_program_image.
Qed.
Lemma sample_mappable im : Some sample_image = Some im -> mappable im sample_text sample_data.
Proof. intros [= <-]. split; try done. left. done. Qed.

(** One process with no open files in an address space of its own. *)
Definition sample_exec_proc : process :=
  Process 1 0x2000 [] STATE_READY 0 zero_context 0 (replicate 4 (Segment 0 0 0 0)) 0 0
    (replicate 32 0) [0] (Sigset 0 0) (Sigset 0 0) [].
Definition sample_exec_kernel : kernel (spaces bump) :=
  Kernel (Spaces (Bump 0x10000 1) {[1 := ∅]} 1) (KernelCaches 1 2 3 4 5) ∅ zero_pages ∅
    {[0x2000 := sample_exec_proc]} [0x2000] [] [] 0x2000 2 [] [] [].
Definition sample_exec_live (c a : Z) : Prop := False.

Lemma sample_exec_mem : km_inv (k_mem sample_exec_kernel) sample_fd_sizes sample_exec_live ∅.
Proof. by split_and!. Qed.

Lemma sample_exec_ok : files_ok sample_exec_kernel sample_fd_sizes sample_exec_live ∅ ∅.
Proof.
  assert (HT : p_files <$> k_procs sample_exec_kernel = {[0x2000 := p_files sample_exec_proc]})
    by apply map_fmap_singleton.
  assert (Hrefs : forall f, refs {[0x2000 := p_files sample_exec_proc]} f = occ f (p_files sample_exec_proc)).
  { intros f. unfold refs. rewrite <- insert_empty, msum_insert, msum_empty by apply lookup_empty. lia. }
  split; [rewrite HT| |done].
  - split; try (intros *; try rewrite lookup_empty; done).
    + split; try (intros *; try rewrite lookup_empty; done).
      * split; [|intros e q He; by rewrite lookup_empty in He]. intros q l Hq. assert (l = []) as ->.
        { destruct q as [a|a| | |]; cbn in Hq; try (by rewrite lookup_empty in Hq); by injection Hq as <-. }
        split_and!; [constructor| |].
        -- intros e. rewrite lookup_empty. split; [|done]. intros H. by apply not_elem_of_nil in H.
        -- intros e p H. by apply not_elem_of_nil in H.
      * intros i Hi. eexists. split; [by apply zero_page|done].
    + intros p l [_ <-]%lookup_singleton_Some. reflexivity.
    + intros f Hf. rewrite Hrefs, occ_nil, Z.add_0_r. intros Hin%occ_in. by apply elem_of_replicate in Hin as [-> _].
    + by apply not_elem_of_nil.
  - change (k_procs sample_exec_kernel) with ({[0x2000 := sample_exec_proc]} : gmap Z process).
    intros p x [_ <-]%lookup_singleton_Some. split; [done|]. constructor; [done|constructor].
Qed.

(** ** Properties *)

(** C18: [elf_load] agrees with [elf_image], the meaning of the file behind the
    path.  No such file, a header that is not that of a 32-bit little-endian ARM
    executable, a program header that is cut off, a second segment of a kind, or
    a segment that leaves the memory of programs or is cut off: -1.  Otherwise 0,
    with the entry point, the addresses and sizes of the segments and their
    bytes in two blocks of their own.  Files and address spaces do not change. *)
Theorem elf_load_correct {S : Type} `{KM : KernelMem S} {US : UserSpace S} {FO : FileOps S} {FL : FileLaws S}
  C L U (s : S) path o : km_inv s C L U -> Forall (fun c => c <> 0) path -> program_at s path o ->
  runs (elf_load path) s (loaded C L s U o).
Proof. intros HI Hp Ho. by apply elf_load_at. Qed.

Theorem elf_load_correct_witness :
  runs (elf_load sample_path) (k_mem sample_exec_kernel) (fun r _ =>
    fst r = 0 /\ ex_entry_point (snd r) = 0x10000 /\ es_data (ex_data (snd r)) = [5; 6; 7; 8]).
Proof.
  eapply runs_mono; [apply (elf_load_correct _ _ _ _ sample_path (Some sample_image) sample_exec_mem)|].
  - by repeat constructor.
  - apply sample_program_at.
  - intros r s' (H1 & H2 & H3 & _). split; [done|]. split; [done|]. apply (xi_data _ _ _ _ H3).
Defined.

(** C16: [process_exec] of the running process, under two conditions: the vectors
    need less than 2{^31} - 8 bytes, and the program behind the path, if there is
    one, is [mappable] (it has a text and a data segment, each within one megabyte,
    and they do not overlap).  Other programs are not covered: the code does not
    refuse them and may fault or map them wrongly.  Under these conditions the
    result is -E2BIG when the vectors need more than [ARG_MAX] bytes and -EACCES
    when there is no program behind the path, both without effect on files, address
    spaces and tables; otherwise 0, with the bytes of both segments (zeros after
    those of the file), and the stack with the number of arguments, both vectors
    and their strings in a new address space, the other ones as before, the
    registers set for the entry point, the caught signals back to their defaults,
    the descriptors marked close-on-exec dropped, and all reference counts exact.
    It then does not fault; it may halt for lack of memory. *)
Theorem process_exec_correct {S : Type} `{KM : KernelMem S} {US : UserSpace S} {FO : FileOps S} {FL : FileLaws S}
  C L U E (k : kernel S) x path argv envp o t d :
  files_ok k C L U E -> k_procs k !! current_process k = Some x ->
  length (p_segments x) = Z.to_nat SEGMENT_TYPE_SIZE -> us_known (k_mem k) (p_id x) -> p_id x <> 0 ->
  Forall (fun c => c <> 0) path -> Forall string_ok argv -> Forall string_ok envp -> vectors_size argv envp < 2 ^ 31 - 8 ->
  program_at (k_mem k) path o -> (forall im, o = Some im -> mappable im t d) ->
  runs (process_exec path argv envp) k (exec_post C L U E k x argv envp o t d).
Proof. apply process_exec_ok. Qed.

Theorem process_exec_correct_witness :
  runs (process_exec sample_path [sample_path] []) sample_exec_kernel (fun r k' =>
    r = 0 /\ bytes_at (k_mem k') 0x20000 [5; 6; 7; 8; 0; 0; 0; 0] /\ bytes_at (k_mem k') 0x5fffff00 (le32 1)).
Proof.
  eapply runs_mono.
  - apply (process_exec_correct sample_fd_sizes sample_exec_live ∅ ∅ sample_exec_kernel sample_exec_proc sample_path
      [sample_path] [] (Some sample_image) sample_text sample_data).
    + exact sample_exec_ok.
    + reflexivity.
    + reflexivity.
    + by eexists.
    + done.
    + by repeat constructor.
    + by repeat constructor.
    + constructor.
    + reflexivity.
    + apply sample_program_at.
    + exact sample_mappable.
  - intros r k' [-> (L' & U' & E' & y & _ & H)]. destruct (xd_program _ _ _ _ _ _ _ _ _ H) as [_ Hd [Hs _ _ _ _]].
    split; [done|]. split; [exact Hd|exact Hs].
Defined.
