(* ===== verification/Stack.v ===== *)
(** * Programs on the card

    The components put together: programs are loaded and executed from files of
    the file system, whose blocks are kept by the block cache over the driver of
    mmc.c, on any memory and on any controller of the card. *)

From stdpp Require Import base numbers list list_numbers gmap.
From S2P Require Import Prelude Bytes Hoare Arith Signal Buddy BuddyProofs KernelMem Unix UserSpace Devices Kernel Pipe PipeProofs PipeSpecs Files FilesProofs FileSpecs FileTables Process ProcessSignals CString Block BlockProofs Mmc Minix Inode InodeProofs InodeSpecs Dentry Fs DentryProofs Lookup FileStore FsLaws Elf ElfProofs Exec ExecFrame ExecProofs ExecSpecs ExecClaims.

#[local] Open Scope Z_scope.
#[local] Open Scope kernel_scope.

Section Stack.
Context {S D : Type} `{KM : KernelMem S} {IO : Mmio D} {ML : MmcLaws D}.
Notation machine := (spaces (fsys (blocks S D))).
Implicit Types (s : machine).

(** The blocks of the card, the bytes of the file with the inode [i], and the
    program a path leads to, if it leads to one. *)
Definition card_contents s : contents := card_block (bk_card (fs_store (sp_mem s))).
Definition card_file s (i : Z) : list Z :=
  let x := disk_inode (superblock (sp_mem s)) (card_contents s) i in file_bytes x (card_contents s) 0 (i_size x).
Definition card_program s (path : list Z) : option image :=
  match disk_path (superblock (sp_mem s)) (card_contents s) path with
  | Some i => elf_image (card_file s i)
  | None => None
  end.

Lemma card_program_at s path : program_at s path (card_program s path).
Proof.
  unfold program_at, card_program, path_image. cbn [fl_path disk_file_laws]. unfold disk_file. cbv zeta.
  change (bs_disk (fs_store (sp_mem s))) with (card_contents s). by destruct (disk_path _ _ path).
Qed.
(** It depends on the blocks that the store has only. *)
Lemma card_program_blocks s (s' : machine) path C L U :
  at_disk (sp_mem s') C L U (card_contents s) -> superblock (sp_mem s') = superblock (sp_mem s) ->
  geometry (superblock (sp_mem s)) -> disk_tree (superblock (sp_mem s)) (card_contents s) ->
  card_program s' path = card_program s path.
Proof.
  intros Hd Hsb G HD. assert (B : same_blocks (card_contents s) (card_contents s')).
  { intros i Hi. symmetry. by apply (bs_disk_spec _ _ _ _ _ _ (ad_store _ _ _ _ _ Hd)). }
  unfold card_program, card_file. rewrite Hsb, <- (disk_path_same _ _ _ path G HD B).
  destruct (disk_path _ _ path) as [i|] eqn:E; [|done]. cbv zeta.
  rewrite <- (disk_inode_same _ _ _ i G (dt_valid _ _ HD i (disk_path_tree _ _ _ _ E)) B). by rewrite (file_bytes_same _ _ _ _ _ B).
Qed.
End Stack.

(** ** Properties *)

(** C19: a program is loaded and executed from its bytes on the card.  The memory
    may be any that keeps its promises, the card any controller that follows its
    registers; the image on the card is consistent ([disk_tree]) and the tree in
    memory agrees with it, loaded or not (as after [dentry_init]).  For every path, [elf_load] agrees with the meaning of the bytes
    that the inode and the zones of the file have in the sectors of the card, where
    the file is the one that the directories on the card lead to; it fails for a
    path that leads nowhere and for a file that is no program.  [process_exec]
    starts that program or fails, as [exec_post] says, under its two conditions: the
    program, if there is one, is [mappable] (it has both segments, each within a
    megabyte, and they do not overlap), and the argument block is smaller than
    2{^31} - 8 bytes. *)
Theorem program_from_card {S D : Type} `{KM : KernelMem S} {IO : Mmio D} {ML : MmcLaws D}
  C L U (s : spaces (fsys (blocks S D))) path :
  km_inv s C L U -> Forall (fun c => c <> 0) path ->
  runs (elf_load path) s (loaded C L s U (card_program s path)) /\
  forall (k : kernel (spaces (fsys (blocks S D)))) E x argv envp t d, k_mem k = s ->
    files_ok k C L U E -> k_procs k !! current_process k = Some x ->
    length (p_segments x) = Z.to_nat SEGMENT_TYPE_SIZE -> us_known (k_mem k) (p_id x) -> p_id x <> 0 ->
    Forall string_ok argv -> Forall string_ok envp -> vectors_size argv envp < 2 ^ 31 - 8 ->
    (forall im, card_program s path = Some im -> mappable im t d) ->
    runs (process_exec path argv envp) k (exec_post C L U E k x argv envp (card_program s path) t d).
Proof.
  intros HI Hp. pose proof (card_program_at s path) as Ho. split.
  - by apply elf_load_at.
  - intros k E x argv envp t d <- HO Hx Hseg Hk Hid Ha He Hv Hm. by apply process_exec_ok.
Qed.

(** A card with the sample program in the file [/a], before [dentry_init]. *)
Definition program_inode : minix2_inode :=
  set_zone_at 0 7 (set_i_nlinks 1 (set_i_size (Z.of_nat (length sample_program)) (set_i_mode S_IFREG zero_inode))).
Definition sample_sectors : sector_map :=
  <[4 * BLOCK_SIZE := encode_inode sample_dir_inode ++ encode_inode program_inode ++ replicate 384 0]>
    (<[6 * BLOCK_SIZE := default [] (sample_dir_card !! (6 * BLOCK_SIZE))]>
    {[7 * BLOCK_SIZE := sample_program ++ replicate (512 - length sample_program) 0]}).
Definition sample_files : fsys (blocks bump controller) :=
  Fsys (block_init 1 (Bump 0x10 0) (Controller 0 0 0 Idle sample_sectors)) sample_superblock 2 ∅ [] 3 ∅ 0.
Definition sample_machine : spaces (fsys (blocks bump controller)) := Spaces sample_files ∅ 0.
Notation sample_blocks := (card_contents sample_machine).

Lemma sample_card_entries : entries_at sample_superblock sample_blocks 1 =
  [Dirent 1 (name_array NAME_MAX [46]); Dirent 1 (name_array NAME_MAX [46; 46]); Dirent 2 (name_array NAME_MAX [97])].
Proof. vm_compute. reflexivity. Qed.
Lemma sample_card_in_tree i : in_tree sample_superblock sample_blocks i -> i = 1 \/ i = 2.
Proof.
  induction 1 as [|i e _ [-> | ->] He]; [by left| |].
  - rewrite sample_card_entries in He. rewrite !elem_of_cons in He.
    destruct He as [->|[->|[->|He]]]; [by left|by left|by right|by apply not_elem_of_nil in He].
  - assert (E : entries_at sample_superblock sample_blocks 2 = []) by (vm_compute; reflexivity).
    rewrite E in He. by apply not_elem_of_nil in He.
Qed.
Lemma sample_card_tree : disk_tree sample_superblock sample_blocks.
Proof. split; intros i [-> | ->]%sample_card_in_tree; vm_compute; intuition discriminate. Qed.
Lemma sample_card_ok : at_disk sample_files sample_caches (fun _ _ => False) ∅ sample_blocks.
Proof.
  split; [|by exists 28|by exists 96]. apply block_init_ok; [reflexivity|by exists 20|].
  assert (Hobj : forall c a, ~ fs_objs (fun _ _ => False) sample_files c a).
  { intros c a [[]|[[_ [x Hx]]|[_ [x Hx]]]]; cbn in Hx; by rewrite lookup_empty in Hx. }
  split_and!; cbn; try lia.
  - by intros c a Ha%Hobj.
  - by intros c c' a Ha%Hobj.
  - intros i Hin. by apply not_elem_of_empty in Hin.
Qed.
Lemma sample_card_program : card_program sample_machine sample_path = Some sample_image.
Proof. vm_compute. reflexivity. Qed.
(** [dentry_init] on this card gives a machine that processes can run on. *)
Lemma sample_boot : runs (within sp_mem set_files dentry_init) sample_machine (fun _ s =>
  km_inv s {[1 := 20]} (fun _ _ => False) ∅ /\ card_program s sample_path = Some sample_image).
Proof.
  apply runs_within. assert (G : geometry (superblock sample_files)) by exact sample_geometry.
  assert (Y : inodes_sync sample_files sample_blocks).
  { split; [|by intros a n Hn]. intros a. cbn. rewrite lookup_empty.
    split; [intros Ha; by apply not_elem_of_nil in Ha|by intros [? ?]]. }
  eapply runs_mono; [apply (fruns_runs _ _ _ _ _ _ _ sample_card_ok
    (dentry_init_ok sample_files sample_blocks G Y (at_disk_blocks _ _ _ _ _ sample_card_ok) sample_card_tree eq_refl))|].
  intros r s (s1 & d & -> & Hd & -> & HY & Hsb & Hi & Hde). split.
  - exists sample_caches, sample_blocks. split; [|exact Hd]. apply fs_kept_store.
    split; [done|apply insert_mono, map_empty_subseteq|by rewrite Hi|by rewrite Hde|by intros c a []].
  - etrans; [|exact sample_card_program]. by eapply (card_program_blocks sample_machine); [exact Hd| |exact G|exact sample_card_tree].
Qed.

Theorem program_from_card_witness :
  runs (let* _ := within sp_mem set_files dentry_init in elf_load sample_path) sample_machine (fun r _ =>
    fst r = 0 /\ ex_entry_point (snd r) = 0x10000 /\ es_data (ex_data (snd r)) = [5; 6; 7; 8]).
Proof.
  eapply runs_step; [exact sample_boot|]. intros u s [HI Hs]. cbn beta.
  destruct (program_from_card {[1 := 20]} (fun _ _ => False) ∅ s sample_path) as [H _].
  - exact HI.
  - by repeat constructor.
  - rewrite Hs in H. eapply runs_mono; [exact H|].
    intros r s' (H1 & H2 & H3 & _). split; [done|]. split; [done|]. apply (xi_data _ _ _ _ H3).
Defined.
