(* ===== verification/KernelFrame.v ===== *)
(** * What a system call leaves alone

    The frames of [ProcessFrame] for the rest of the kernel: the terminal, open
    files, programs, and every system call.  A relation [R] between states that
    follows from such a frame, and is kept by the end of a child and by the calls
    that change signals, is kept by the whole of syscall.c but for
    [process_fork] and [process_sigreturn] ([Kept]). *)

From stdpp Require Import base numbers list list_numbers gmap.
From S2P Require Import Prelude Bytes Hoare Loop Arith Signal Buddy BuddyProofs KernelMem UserSpace Unix Devices Kernel Pipe Files Process ProcessFrame Block BlockProofs Minix Inode Dentry Fs FileStore Tty Io Elf Exec Syscall.

#[local] Open Scope Z_scope.
#[local] Open Scope kernel_scope.

Section Operations.
Context {S : Type} `{KM : KernelMem S} {US : UserSpace S} {FO : FileOps S} {IO : Mmio S}.
Context (terminal_config : Z) (polls : nat).
Notation state := (kernel S).
Context (c : Z) (P : Z -> process -> process -> Prop) {PR : ProcRel c P}.
Notation frame := (frame (S := S) c P).

(** ** The terminal *)
Lemma frame_getc b : frame (tty_getc polls b).
Proof. unfold tty_getc. fr. Qed.
Lemma frame_putc b ch : frame (tty_putc polls b ch).
Proof. unfold tty_putc. fr. Qed.
Lemma frame_wake_next : frame wake_next.
Proof. unfold wake_next. fr. Qed.
Lemma frame_tty_resume : frame tty_resume.
Proof. unfold tty_resume. fr. Qed.
#[local] Hint Resolve frame_getc frame_putc frame_wake_next : frame.
Lemma frame_tty_read data size i a : frame (tty_read polls data size i a).
Proof.
  unfold tty_read. generalize (Z.to_nat (size - i)) as n. intros n. revert a.
  induction n as [|n IH]; intros a; cbn [tty_read_loop]; fr.
Qed.
Lemma frame_tty_write data size i a : frame (tty_write polls data size i a).
Proof.
  unfold tty_write. generalize (Z.to_nat (size - i)) as n. intros n. revert a.
  induction n as [|n IH]; intros a; cbn [tty_write_loop]; fr.
Qed.
#[local] Hint Resolve frame_tty_read frame_tty_write : frame.

(** ** Open files *)
Lemma frame_open path flags mode : frame (process_open path flags mode).
Proof. unfold process_open. fr. Qed.
Lemma frame_tty_write_call data size i a : frame (tty_write_call polls data size i a).
Proof. unfold tty_write_call. fr. Qed.
Lemma frame_pipe_write_call pipe data written : frame (pipe_write_call pipe data written).
Proof. unfold pipe_write_call, pipe_write. fr. Qed.
Lemma frame_tty_read_call data size i a : frame (tty_read_call polls data size i a).
Proof. unfold tty_read_call. fr. Qed.
Lemma frame_pipe_read_call pipe data size got : frame (pipe_read_call pipe data size got).
Proof. unfold pipe_read_call, pipe_read. fr. Qed.
#[local] Hint Resolve frame_tty_write_call frame_pipe_write_call frame_tty_read_call frame_pipe_read_call : frame.
Lemma frame_read fd data size : frame (process_read polls fd data size).
Proof. unfold process_read. fr. Qed.
Lemma frame_write fd data size : frame (process_write polls fd data size).
Proof. unfold process_write. fr. Qed.
#[local] Hint Resolve frame_read frame_write : frame.
Lemma frame_iov_len iov i : frame (iov_len iov i).
Proof. unfold iov_len, load_u32. fr. Qed.
Lemma frame_iov_base iov i : frame (iov_base iov i).
Proof. unfold iov_base, load_u32. fr. Qed.
#[local] Hint Resolve frame_iov_len frame_iov_base : frame.
Lemma frame_readv n fd iov iovcnt nread : frame (emulate_readv polls n fd iov iovcnt nread).
Proof. revert nread. induction n as [|n IH]; intros nread; cbn [emulate_readv]; fr. Qed.
Lemma frame_writev n fd iov iovcnt nwritten : frame (emulate_writev polls n fd iov iovcnt nwritten).
Proof. revert nwritten. induction n as [|n IH]; intros nwritten; cbn [emulate_writev]; fr. Qed.
Lemma frame_getdents fd data size : frame (process_getdents64 fd data size).
Proof.
  unfold process_getdents64. fr. match goal with |- ProcessFrame.frame _ _ (getdents_loop ?n _ _ _ _ ?r) => generalize r; induction n as [|m IH] end;
    intros r; cbn [getdents_loop]; fr.
Qed.
Lemma frame_llseek fd offset whence : frame (process_llseek fd offset whence).
Proof. unfold process_llseek. fr. Qed.
Lemma frame_fstat fd : frame (process_fstat64 fd).
Proof. unfold process_fstat64. fr. Qed.
Lemma frame_ioctl fd request argp : frame (process_ioctl terminal_config fd request argp).
Proof. unfold process_ioctl. fr. Qed.

(** ** Programs *)
Lemma frame_setup_segments e : frame (setup_segments c e).
Proof. unfold setup_segments, create_segments. fr. Qed.
Lemma frame_alloc_segments p : frame (alloc_segments p).
Proof.
  unfold alloc_segments. generalize (Z.to_nat SEGMENT_TYPE_SIZE) as n. generalize 0 as i. intros i n. revert i.
  induction n as [|n IH]; intros i; cbn [alloc_segments_loop]; fr.
Qed.
#[local] Hint Resolve frame_setup_segments frame_alloc_segments : frame.
Lemma frame_fill_space p e avep : frame (fill_space p e avep).
Proof. unfold fill_space. fr. Qed.
#[local] Hint Resolve frame_fill_space : frame.
(** The actions that had a handler become the default. *)
Context (pr_reset : forall x, P c x (set_p_actions (reset_action <$> p_actions x) x)).
Lemma frame_exec path argv envp : frame (process_exec path argv envp).
Proof. unfold process_exec, exec_program. fr. Qed.

(** ** The registers of the caller *)
Lemma frame_get_arg i : frame (get_arg i).
Proof. unfold get_arg. fr. Qed.
Lemma frame_set_result r : frame (set_result r).
Proof. unfold set_result. fr. Qed.
Lemma frame_set_context v : frame (process_set_context c v).
Proof. unfold process_set_context. fr. Qed.
Context (pr_mask : forall v x, P c x (set_p_mask v x)).
Lemma frame_syscall_sigreturn : frame syscall_sigreturn.
Proof.
  unfold syscall_sigreturn, process_get_context. apply frame_current. apply frame_bind; [typeclasses eauto|fr|intros context].
  apply frame_bind; [typeclasses eauto|by apply frame_sigreturn|intros []; fr].
Qed.
End Operations.
#[export] Hint Resolve frame_tty_resume frame_open frame_read frame_write frame_iov_len frame_readv frame_writev frame_getdents
  frame_llseek frame_fstat frame_ioctl frame_tty_write_call frame_pipe_write_call frame_tty_read_call frame_pipe_read_call
  frame_get_arg frame_set_result : frame.

(** ** What a computation keeps *)
Definition keeps {S A} (R : kernel S -> kernel S -> Prop) (m : M (kernel S) A) : Prop :=
  forall k a k', m k = Ok (a, k') -> R k k'.

Class Kept {S} `{KM : KernelMem S} {US : UserSpace S} (P : Z -> Z -> process -> process -> Prop)
    (R : kernel S -> kernel S -> Prop) : Prop := {
  kp_order :: PreOrder R;
  kp_proc :: forall c, ProcRel c (P c);
  kp_krel : forall k k', krel (P (current_process k)) k k' -> R k k';
  kp_wait : keeps R wait_turn;
  kp_sigaction : forall sig ksa want, keeps R (process_sigaction sig ksa want);
  kp_sigprocmask : forall how set want, keeps R (process_sigprocmask how set want);
  kp_reset : forall c x, P c c x (set_p_actions (reset_action <$> p_actions x) x);
}.

Section Kept.
Context {S : Type} `{KM : KernelMem S} {US : UserSpace S} {FO : FileOps S} {IO : Mmio S}.
Context (P : Z -> Z -> process -> process -> Prop) (R : kernel S -> kernel S -> Prop) {HK : Kept P R}.
Context (terminal_config : Z) (polls : nat) (conf : config).
Notation state := (kernel S).
Notation keeps := (keeps R).

Lemma keeps_frame {A} (m : M state A) : (forall c, frame c (P c) m) -> keeps m.
Proof. intros F k a k' E. apply (kp_krel (P := P)). by eapply F. Qed.
Lemma keeps_bind {A B} (m : M state A) (f : A -> M state B) : keeps m -> (forall a, keeps (f a)) -> keeps (bind m f).
Proof. intros Hm Hf k b k' (a & k1 & E1 & E2)%bind_inv. etrans; [by eapply Hm|by eapply Hf]. Qed.
Lemma keeps_ret {A} (a : A) : keeps (ret a).
Proof. intros k b k' [= _ <-]. reflexivity. Qed.
Lemma keeps_wait_turn : keeps wait_turn.
Proof. exact (kp_wait (P := P)). Qed.
Lemma keeps_sigaction sig ksa want : keeps (process_sigaction sig ksa want).
Proof. exact (kp_sigaction (P := P) sig ksa want). Qed.
Lemma keeps_sigprocmask how set want : keeps (process_sigprocmask how set want).
Proof. exact (kp_sigprocmask (P := P) how set want). Qed.
Lemma keeps_exec path argv envp : keeps (process_exec path argv envp).
Proof. apply keeps_frame. intros c. apply frame_exec; [typeclasses eauto|]. intros x. exact (kp_reset (P := P) (R := R) c x). Qed.
End Kept.

Create HintDb keeps discriminated.
#[export] Hint Resolve keeps_ret keeps_wait_turn keeps_sigaction keeps_sigprocmask keeps_exec : keeps.
#[export] Hint Extern 0 (Kept _ _) => typeclasses eauto : keeps.
Ltac kp_step :=
  match goal with
  | H : Kept ?P ?R |- keeps ?R ?m => solve [apply (keeps_frame P R); intros ?; fr]
  | |- keeps _ (bind _ _) => eapply keeps_bind; [typeclasses eauto| |intros ?]
  | |- keeps _ (if ?b then _ else _) => destruct b
  | |- keeps _ (match ?x with _ => _ end) => destruct x
  | |- keeps _ (let _ := _ in _) => cbv zeta
  end.
Ltac kp := repeat (solve [eauto with keeps] || kp_step).

Section Calls.
Context {S : Type} `{KM : KernelMem S} {US : UserSpace S} {FO : FileOps S} {IO : Mmio S}.
Context (P : Z -> Z -> process -> process -> Prop) (R : kernel S -> kernel S -> Prop) {HK : Kept P R}.
Context (terminal_config : Z) (polls : nat) (conf : config).
Notation state := (kernel S).
Notation keeps := (keeps R).

Lemma keeps_resume b : keeps (resume_call polls b).
Proof. induction b; cbn [resume_call]; kp. Qed.
Lemma keeps_wait : keeps process_wait.
Proof. unfold process_wait. kp. Qed.
#[local] Hint Resolve keeps_resume keeps_wait : keeps.
Lemma keeps_wait_call status : keeps (wait_call status).
Proof. unfold wait_call. kp. Qed.
#[local] Hint Resolve keeps_wait_call : keeps.
Lemma keeps_done m : keeps m -> keeps (done m).
Proof. intros H. unfold done. kp. Qed.
Lemma keeps_finish m : keeps m -> keeps (finish m).
Proof. intros H. unfold finish. kp. Qed.
#[local] Hint Resolve keeps_done keeps_finish : keeps.

(** Every system call but [fork] and, unless it keeps [R], [sigreturn]. *)
Lemma keeps_body number : number <> 2 -> (number = 119 -> keeps syscall_sigreturn) ->
  keeps (syscall_body terminal_config polls conf number).
Proof.
  intros Hf Hs. unfold syscall_body.
  repeat match goal with |- KernelFrame.keeps _ (match ?x with _ => _ end) => destruct x end;
    try (by destruct Hf); try (by apply Hs); clear Hf Hs;
  unfold syscall_stat64, syscall_lstat64,
    syscall_exit, syscall_read, syscall_write, syscall_open, syscall_close, syscall_unlink, syscall_execve, syscall_getpid,
    syscall_getppid, syscall_kill, syscall_mkdir, syscall_rmdir, syscall_dup, syscall_dup2, syscall_dup3, syscall_pipe,
    syscall_pipe2, syscall_brk, syscall_ioctl, syscall_rt_sigaction, syscall_rt_sigprocmask, syscall_wait4,
    syscall_uname, syscall_readv, syscall_writev, syscall__llseek, syscall_getcwd, syscall_fstat64, syscall_getdents64,
    syscall_fcntl64, syscall_pass, process_getpid, process_getppid, process_get_context, pipe_call, system_uname, store_stat,
    process_readv, process_writev, guarded, done, finish, in_range, both, null_or_range; kp.
Qed.
End Calls.
