(* ===== verification/KernelSteps.v ===== *)
(** * Whole runs of the kernel

    Everything that happens in the system, as a step relation: the running
    program computes and stores to its memory, an exception saves its registers
    and runs one of the handlers of system.c, a call that slept goes on.  Each
    handler ends in [process_switch].  The run queue, the family of processes
    and the signals that cannot be caught keep their invariants in all runs, from
    the first program on. *)

From stdpp Require Import base numbers list list_numbers gmap.
From S2P Require Import Prelude Bytes Hoare Loop Arith Signal Buddy BuddyProofs KernelMem UserSpace Unix Devices Kernel Pipe PipeProofs Files Process ProcessFrame ProcessSched ProcessSignals ProcessTree Block BlockProofs Minix Inode Dentry Fs FileStore Tty Io Elf Exec Syscall System ExecClaims KernelFrame.

#[local] Open Scope Z_scope.
#[local] Open Scope kernel_scope.

Section Work.
Context {S : Type} `{KM : KernelMem S} {US : UserSpace S} {FO : FileOps S} {IO : Mmio S}.
Context (terminal_config : Z) (polls : nat) (conf : config).
Notation state := (kernel S).
Implicit Types (k : state).

(** The handlers of interrupts and data aborts, up to [process_switch]. *)
Definition irq_work : M state unit :=
  let* irq := kmem gic_interrupt_acknowledge in
  do* (if irq =? IRQ_TIMER01 then
         let* m := kmem timer_is_masked in
         if truthy m then kmem timer_clear_interrupt else ret tt
       else if irq =? IRQ_UART0 then tty_resume
       else ret tt) in
  kmem (gic_end_of_interrupt irq).
Definition abort_work (dfsr dfar : Z) : M state unit :=
  let* cur := gets current_process in
  if cur =? 0 then fail Halt
  else
    let* context := process_get_context cur in
    if negb (IS_USER_MODE context) then fail Halt
    else
      let* paged := (if (DFSR_FS dfsr =? 0x05) || (DFSR_FS dfsr =? 0x07) then process_demand_page dfar else ret false) in
      if paged then ret tt
      else
        let* pid := process_get_id cur in
        let* _ := process_kill pid SIGSEGV in
        ret tt.

(** What happens before a switch; [allowed] are the system calls that are made. *)
Inductive kernel_work (allowed : Z -> Prop) : state -> state -> Prop :=
| kw_user k a v k' : kmem (us_store a v) k = Ok (tt, k') -> kernel_work allowed k k'
| kw_save k context k' : process_set_context (current_process k) context k = Ok (tt, k') -> kernel_work allowed k k'
| kw_svc k number b k' : allowed number -> get_arg 7 k = Ok (number, k) -> (number = 2 -> procs_live k) ->
    syscall_body terminal_config polls conf number k = Ok (b, k') -> kernel_work allowed k k'
| kw_resume k c b k' : finish (resume_call polls c) k = Ok (b, k') -> kernel_work allowed k k'
| kw_irq k k' : irq_work k = Ok (tt, k') -> kernel_work allowed k k'
| kw_abort k dfsr dfar k' : abort_work dfsr dfar k = Ok (tt, k') -> kernel_work allowed k k'.

(** A round: the running process and the kernel work, then [process_switch] is called. *)
Record round (allowed : Z -> Prop) k k1 (d : departure) k' : Prop := {
  rd_work : rtc (kernel_work allowed) k k1;
  rd_switch : switch k1 = Ok (d, k');
}.

(** The handlers of system.c and the calls that go on are such rounds. *)
Lemma get_arg_state i k n k' : get_arg i k = Ok (n, k') -> k' = k.
Proof.
  unfold get_arg. erewrite (bind_ok (gets _)) by reflexivity. intros (x & k1 & [-> _]%get_proc_inv & E)%bind_inv.
  by eapply opt_state.
Qed.
Lemma svc_round allowed k b d k' : (forall n, get_arg 7 k = Ok (n, k) -> allowed n /\ (n = 2 -> procs_live k)) ->
  system_svc_handler terminal_config polls conf k = Ok ((b, d), k') -> exists k1, round allowed k k1 d k'.
Proof.
  intros Ha. unfold system_svc_handler, syscall_handler. intros (n & k1 & E1 & E)%bind_inv.
  pose proof (get_arg_state _ _ _ _ E1) as ->. destruct (Ha n E1) as [H1 H2].
  apply bind_inv in E as (b' & k2 & E2 & E). apply bind_inv in E as (d' & k3 & E3 & E). injection E as <- <- <-.
  exists k2. split; [|done]. apply rtc_once. by eapply kw_svc.
Qed.
Lemma resume_round allowed k c b d k' : syscall_resume polls c k = Ok ((b, d), k') -> exists k1, round allowed k k1 d k'.
Proof.
  unfold syscall_resume. intros (b' & k1 & E1 & E)%bind_inv. apply bind_inv in E as (d' & k3 & E3 & E). injection E as <- <- <-.
  exists k1. split; [|done]. apply rtc_once. by eapply kw_resume.
Qed.
Lemma irq_round allowed k d k' : system_irq_handler k = Ok (d, k') -> exists k1, round allowed k k1 d k'.
Proof.
  unfold system_irq_handler. intros (irq & k1 & E1 & E)%bind_inv. apply bind_inv in E as ([] & k2 & E2 & E).
  apply bind_inv in E as ([] & k3 & E3 & E). exists k3. split; [|done]. apply rtc_once, kw_irq.
  unfold irq_work. mrun E1. mrun E2. done.
Qed.
Lemma abort_round allowed k dfsr dfar d k' : system_data_abort_handler dfsr dfar k = Ok (d, k') ->
  exists k1, round allowed k k1 d k'.
Proof.
  unfold system_data_abort_handler. erewrite (bind_ok (gets _)) by reflexivity. destruct (current_process k =? 0) eqn:Ec; [done|].
  intros (x & k1 & E1 & E)%bind_inv. destruct (negb (IS_USER_MODE x)) eqn:Eu; [done|].
  apply bind_inv in E as (paged & k2 & E2 & E). apply bind_inv in E as ([] & k3 & E3 & E).
  exists k3. split; [|done]. apply rtc_once, (kw_abort _ _ dfsr dfar). unfold abort_work.
  erewrite (bind_ok (gets _)) by reflexivity. rewrite Ec. mrun E1. rewrite Eu. mrun E2. done.
Qed.

(** ** What the work keeps *)
Section Kept.
Context (P : Z -> Z -> process -> process -> Prop) (R : state -> state -> Prop) {HK : Kept P R}.
Context (allowed : Z -> Prop).
Context (Hfork : forall k context r k', procs_live k -> is_Some (k_procs k !! current_process k) ->
  process_fork context k = Ok (r, k') -> R k k').
Context (Hsig : allowed 119 -> keeps R syscall_sigreturn).

Lemma keeps_irq : keeps R irq_work.
Proof. unfold irq_work. kp. Qed.
Lemma keeps_abort dfsr dfar : keeps R (abort_work dfsr dfar).
Proof. unfold abort_work, process_get_context, process_get_id. kp. Qed.
Lemma work_kept k k' : kernel_work allowed k k' -> R k k'.
Proof.
  intros Hw. destruct Hw as [k a v k' E|k context k' E|k n b k' Ha E1 Hl E|k c b k' E|k k' E|k dfsr dfar k' E].
  - refine (keeps_frame P R (kmem (us_store a v)) _ _ _ _ E). intros c. fr.
  - eapply (kp_krel (P := P)), (frame_set_context (current_process k)); [typeclasses eauto|done|exact E].
  - destruct (decide (n = 2)) as [->|Hn].
    + cbn [syscall_body] in E. unfold syscall_fork in E. erewrite (bind_ok (gets _)) in E by reflexivity.
      unfold done in E. apply bind_inv in E as (r & k1 & E & E3). apply bind_inv in E as (c & k2 & E2 & E).
      unfold process_get_context in E2. apply bind_inv in E2 as (x & k3 & [-> Hx]%get_proc_inv & E2). injection E2 as <- <-.
      etrans; [eapply Hfork; [by apply Hl|by eexists|exact E]|].
      refine (keeps_bind P R (set_result r) (fun _ => ret None) _ _ _ _ _ E3); kp.
    + eapply (keeps_body P R); [done| |exact E]. intros ->. by apply Hsig.
  - exact (keeps_finish P R _ (keeps_resume P R polls c) _ _ _ E).
  - by eapply keeps_irq.
  - by eapply keeps_abort.
Qed.
End Kept.
End Work.

(** ** The run queue *)
Section Sched.
Context {S : Type} `{KM : KernelMem S} {US : UserSpace S}.
Notation state := (kernel S).
Implicit Types (k : state).

Definition sched_kept k k' : Prop := sched_inv k -> sched_inv k' /\ stays k k'.
#[export] Instance sched_kept_order : PreOrder sched_kept.
Proof.
  split.
  - intros k HI. split; [done|]. by split.
  - intros k1 k2 k3 H1 H2 HI. destruct (H1 HI) as [HI2 S1]. destruct (H2 HI2) as [HI3 S2]. split; [done|]. by eapply stays_trans.
Qed.
Lemma sched_frame {A} (m : M state A) : (forall c, frame c (sched_rel c) m) -> keeps sched_kept m.
Proof. intros F k a k' E HI. apply krel_sched; [done|]. by eapply F. Qed.
#[export] Instance sched_kept_ok : Kept sched_rel sched_kept.
Proof.
  split; try typeclasses eauto.
  - intros k k' HK HI. by apply krel_sched.
  - intros k r k' E HI. by eapply wait_turn_sched.
  - intros sig ksa want. apply sched_frame. intros c. apply frame_sigaction; [typeclasses eauto|by left].
  - intros how set want. apply sched_frame. intros c. apply frame_sigprocmask; [typeclasses eauto|by left].
  - by left.
Qed.

Lemma switch_sched fuel : forall k d k', sched_inv k -> process_switch fuel k = Ok (d, k') -> sched_inv k'.
Proof.
  induction fuel as [|fuel IH]; intros k d k' HI; [done|]. rewrite process_switch_unfold.
  pose proof (switch_head_ok k HI) as Eh. destruct (next_queue k) as [|q l] eqn:Hq.
  - mrun Eh. change (truthy 0) with false. cbn iota. intros [= _ <-]. destruct HI as [H1 H2 H3 H4 H5 H6].
    split; cbn; auto using NoDup_nil_2, not_elem_of_nil. intros p Hp. by apply not_elem_of_nil in Hp.
  - mrun Eh. change (truthy 1) with true. cbn iota. intros E.
    pose proof (head_sched k q l HI Hq) as HI1.
    destruct (dispatch_uniform q (sched_rel q) ltac:(by left) (set_current_process q (set_run_queue l k)) eq_refl)
      as [(d' & k1 & Ed & HK)|[(k2 & Ed & HK)|(e & Ed)]]; rewrite Ed in E; [|eapply IH; [|exact E]|done].
    + injection E as _ <-. by eapply (krel_sched (set_current_process q (set_run_queue l k))).
    + by eapply (krel_sched (set_current_process q (set_run_queue l k))).
Qed.
End Sched.

(** ** The family of processes *)
Section Tree.
Context {S : Type} `{KM : KernelMem S} {US : UserSpace S}.
Notation state := (kernel S).
Implicit Types (k : state).

Definition tree_kept k k' : Prop := tree_wf k -> tree_wf k'.
Lemma tree_frame {A} (m : M state A) : (forall c, frame c tree_rel m) -> keeps tree_kept m.
Proof. intros F k a k' E HT. eapply krel_tree; [done|]. by eapply F. Qed.
#[export] Instance tree_kept_ok : Kept (fun _ => tree_rel) tree_kept.
Proof.
  split; try typeclasses eauto.
  - split; [by intros k ?|intros k1 k2 k3 H1 H2 HT; by apply H2, H1].
  - intros k k' HK HT. by eapply krel_tree.
  - intros k r k' E HT. by eapply wait_turn_tree.
  - intros sig ksa want. apply tree_frame. intros c. by apply frame_sigaction; [typeclasses eauto|].
  - intros how set want. apply tree_frame. intros c. by apply frame_sigprocmask; [typeclasses eauto|].
  - done.
Qed.
Lemma tree_sigreturn : keeps tree_kept syscall_sigreturn.
Proof.
  apply tree_frame. intros c. by apply frame_syscall_sigreturn; [typeclasses eauto|].
Qed.
Lemma tree_fork k context r k' : procs_live k -> is_Some (k_procs k !! current_process k) ->
  process_fork context k = Ok (r, k') -> tree_kept k k'.
Proof. intros Hl Hc E HT. by eapply fork_tree_wf. Qed.
End Tree.

(** ** The signals that cannot be caught *)
Section Signals.
Context {S : Type} `{KM : KernelMem S} {US : UserSpace S}.
Notation state := (kernel S).
Implicit Types (k : state).

Lemma sigprocmask_uncatchable k how set want r k' :
  all_uncatchable k -> process_sigprocmask how set want k = Ok (r, k') -> all_uncatchable k'.
Proof.
  intros HU. unfold process_sigprocmask. erewrite (bind_ok (gets _)) by reflexivity.
  intros (x & k1 & [-> Hx]%get_proc_inv & E)%bind_inv. cbv zeta in E. pose proof (HU _ _ Hx) as Hux.
  assert (Hm : forall m r', kill_open m ->
    bind (put_proc (current_process k) (set_p_mask m x)) (fun _ => ret r') k = Ok (r, k') -> all_uncatchable k').
  { intros m r' Ho E'. injection E' as _ <-. by apply put_uncatchable, uncatchable_mask. }
  destruct set as [set|]; [|by injection E as _ <-].
  destruct (how =? SIG_BLOCK); [eapply Hm, E; apply kill_open_del|].
  destruct (how =? SIG_UNBLOCK); [eapply Hm, E; apply kill_open_and, Hux|].
  destruct (how =? SIG_SETMASK); [eapply Hm, E; apply kill_open_del|]. by injection E as _ <-.
Qed.

Lemma sigaction_uncatchable k sig ksa want r k' :
  all_uncatchable k -> process_sigaction sig ksa want k = Ok (r, k') -> all_uncatchable k'.
Proof.
  intros HU. unfold process_sigaction. destruct ((sig <? 1) || (NSIG <=? sig)) eqn:Er; [by intros [= _ <-]|].
  destruct ((sig =? SIGKILL) || (sig =? SIGSTOP)) eqn:Es; [by intros [= _ <-]|]. zbool.
  erewrite (bind_ok (gets _)) by reflexivity.
  intros (old & k1 & E1 & E)%bind_inv. assert (k1 = k) as ->.
  { destruct want; [|by injection E1 as _ <-]. apply bind_inv in E1 as (y & k2 & [-> _]%get_proc_inv & E1).
    apply bind_inv in E1 as (a & k2 & ->%opt_state & E1). by injection E1 as _ <-. }
  destruct ksa as [a|]; [|by injection E as _ <-].
  apply bind_inv in E as ([] & k1 & E2 & E). injection E as _ <-.
  apply bind_inv in E2 as (x & k2 & [-> Hx]%get_proc_inv & E2). apply bind_inv in E2 as (b & k2 & ->%opt_state & E2).
  injection E2 as <-. apply put_uncatchable; [done|]. destruct (HU _ _ Hx) as [U1 U2 U3].
  unfold SIGKILL, SIGSTOP, NSIG in *.
  split; [done| |]; cbn [p_actions set_p_actions].
  - intros i d. rewrite list_lookup_insert_Some. intros [(<- & <- & _)|[_ Hi]]; [apply kill_open_del|by eapply U2].
  - intros g d Hg. rewrite list_lookup_insert_ne by (unfold SIGKILL, SIGSTOP in *; lia). by apply U3.
Qed.

Lemma wait_uncatchable k r k' : all_uncatchable k -> wait_turn k = Ok (r, k') -> all_uncatchable k'.
Proof.
  intros HU. unfold wait_turn. intros E. erewrite (bind_ok (gets _)) in E by reflexivity.
  apply bind_inv in E as (x & k1 & [-> _]%get_proc_inv & E). apply bind_inv in E as ([p|] & k1 & Ed & E).
  - apply find_dead_inv in Ed as [-> _]. apply bind_inv in E as (y & k1 & [-> _]%get_proc_inv & E). cbv zeta in E.
    apply bind_inv in E as ([] & k2 & Ek & E). injection E as _ <-.
    destruct (destroy_inv _ keeps_signals _ _ _ Ek eq_refl) as (k3 & HK & ->).
    assert (HU3 : all_uncatchable k3).
    { eapply krel_uncatchable; [|exact HK]. intros q z. cbn. rewrite lookup_fmap.
      intros (w & Hw & ->)%fmap_Some. eapply uncatchable_same; [..|by eapply HU]; done. }
    intros q z. cbn. intros [_ Hz]%lookup_delete_Some. by eapply HU3.
  - apply bind_inv in E as ([] & k2 & Es & E). injection E as _ <-.
    eapply frame_uncatchable; [apply frame_process_sleep; typeclasses eauto| |exact Es].
    eapply frame_uncatchable; [apply frame_find_dead; typeclasses eauto|done|exact Ed].
Qed.

(** [process_exec] gives the default action to the signals that had a handler. *)
Lemma reset_uncatchable x : uncatchable x -> uncatchable (set_p_actions (reset_action <$> p_actions x) x).
Proof.
  assert (Hr : forall a, ksa_mask (reset_action a) = ksa_mask a /\ (ksa_handler a = SIG_DFL -> ksa_handler (reset_action a) = SIG_DFL)).
  { intros a. unfold reset_action. by destruct (_ && _). }
  intros [H1 H2 H3]. split; [done| |]; cbn [p_actions set_p_actions].
  - intros i a. rewrite list_lookup_fmap. intros (b & Hb & ->)%fmap_Some. rewrite (proj1 (Hr b)). by eapply H2.
  - intros sig a Hs. rewrite list_lookup_fmap. intros (b & Hb & ->)%fmap_Some. apply (Hr b). by eapply H3.
Qed.

Definition signals_kept k k' : Prop := all_uncatchable k -> all_uncatchable k'.
#[export] Instance signals_kept_ok : Kept (fun _ => keeps_signals) signals_kept.
Proof.
  split; try typeclasses eauto.
  - split; [by intros k ?|intros k1 k2 k3 H1 H2 HU; by apply H2, H1].
  - intros k k' HK HU. by eapply krel_uncatchable.
  - intros k r k' E HU. by eapply wait_uncatchable.
  - intros sig ksa want k r k' E HU. by eapply sigaction_uncatchable.
  - intros how set want k r k' E HU. by eapply sigprocmask_uncatchable.
  - intros c x. exact (reset_uncatchable x).
Qed.
Lemma signals_fork k context r k' : procs_live k -> is_Some (k_procs k !! current_process k) ->
  process_fork context k = Ok (r, k') -> signals_kept k k'.
Proof.
  intros _ _ E HU. destruct (fork_inv _ keeps_signals _ _ _ _ E eq_refl) as (p & k1 & k2 & x & y & E1 & HK & Hx & Hy & ->).
  assert (HU2 : all_uncatchable k2) by (eapply krel_uncatchable; [by eapply alloc_uncatchable|done]).
  apply put_uncatchable; [done|]. eapply uncatchable_same; [..|exact (HU2 _ _ Hx)]; done.
Qed.
End Signals.

(** ** All runs *)
Section Runs.
Context {S : Type} `{KM : KernelMem S} {US : UserSpace S} {FO : FileOps S} {IO : Mmio S}.
Context (terminal_config : Z) (polls : nat) (conf : config).
Notation state := (kernel S).
Implicit Types (k : state).
Notation work := (kernel_work terminal_config polls conf).
Notation round := (round terminal_config polls conf).

Inductive system_step (allowed : Z -> Prop) : state -> state -> Prop :=
| ss_work k k' : work allowed k k' -> system_step allowed k k'
| ss_switch k d k' : switch k = Ok (d, k') -> system_step allowed k k'.

Lemma round_steps allowed k k1 d k' : round allowed k k1 d k' -> rtc (system_step allowed) k k'.
Proof.
  intros [H1 H2]. eapply rtc_r; [|by eapply ss_switch]. clear H2. induction H1 as [|k k2 k1 H _ IH]; [done|].
  eapply rtc_l; [by apply ss_work|done].
Qed.

Definition any_call (number : Z) : Prop := True.
Definition not_sigreturn (number : Z) : Prop := number <> 119.

Lemma steps_tree k k' : rtc (system_step any_call) k k' -> tree_wf k -> tree_wf k'.
Proof.
  induction 1 as [|k k1 k' H1 _ IH]; [done|]. intros HT. apply IH. destruct H1 as [k k1 H1|k d k1 H1].
  - exact (work_kept terminal_config polls conf (fun _ => tree_rel) tree_kept any_call tree_fork (fun _ => tree_sigreturn) _ _ H1 HT).
  - unfold switch in H1. erewrite (bind_ok (gets _)) in H1 by reflexivity. by eapply switch_tree.
Qed.
Lemma steps_uncatchable k k' : rtc (system_step not_sigreturn) k k' -> all_uncatchable k -> all_uncatchable k'.
Proof.
  induction 1 as [|k k1 k' H1 _ IH]; [done|]. intros HU. apply IH. destruct H1 as [k k1 H1|k d k1 H1].
  - refine (work_kept terminal_config polls conf (fun _ => keeps_signals) signals_kept not_sigreturn signals_fork _ _ _ H1 HU).
    by intros [].
  - unfold switch in H1. erewrite (bind_ok (gets _)) in H1 by reflexivity. by eapply switch_uncatchable.
Qed.


End Runs.

(** ** An example: two processes that make system calls in turn *)
#[local] Instance silent_io : Mmio (spaces bump) := {| io_read32 _ := ret 0; io_write32 _ _ := ret tt |}.
#[local] Instance no_files : FileOps (spaces bump) := ro_file_ops [].
Definition sample_config : config := Config [67] [48] [49] [97].

(** ** Properties *)



(** C13: the family of processes stays consistent.  Whatever the programs do,
    whichever system calls of any number they make, through interrupts, data
    aborts, sleeping calls that go on and switches, the process list has no
    duplicates and holds exactly the processes there are, every parent is one of
    them, the children of a process are exactly the processes that have it as
    parent, each once, there is a top-level process, and identifiers are unique,
    positive and below the next one, which is an [int]: a [fork] that would
    overflow it, which is undefined in the source, is not a step.  At a [fork] the
    allocators are in a consistent state in which the processes are objects in
    use.  [process_wait] without children returns [-ECHILD] and changes nothing;
    when it finds a dead child it is the first of the list, its identifier and
    exit status are returned, it is removed, and its children have the top-level
    process as parent and are among its children, all others being as before. *)
Theorem process_tree_correct {S : Type} `{KM : KernelMem S} {US : UserSpace S} {FO : FileOps S} {IO : Mmio S}
    terminal_config polls conf (k k' : kernel S) :
  tree_wf k -> rtc (system_step terminal_config polls conf any_call) k k' ->
  tree_wf k' /\
  (forall c, k_procs k' !! current_process k' = Some c -> p_children c = [] ->
     process_wait k' = Ok (Some (- ECHILD, None), k')) /\
  (forall pid status k'', wait_turn k' = Ok (Some (pid, status), k'') -> reaped k' k'' pid status).
Proof.
  intros HT Hr. pose proof (steps_tree _ _ _ _ _ Hr HT) as HT'. split; [done|]. split.
  - apply process_wait_childless.
  - intros pid status k''. by apply wait_turn_reaped.
Qed.

(** The parent calls [wait4] with its status at 0x10000. *)
Definition sample_waiter : kernel (spaces bump) :=
  set_k_mem (Spaces (Bump 0x10000 1) {[1 := zeros_at 0x10000 8]} 1)
    (set_k_procs (<[0x2000 := set_p_context (set_c_r [0; 0x10000; 0; 0; 0; 0; 0; 114; 0; 0; 0; 0; 0] zero_context) sample_parent]>
      (k_procs sample_family)) sample_family).
Lemma sample_waiter_tree : tree_wf sample_waiter.
Proof.
  unfold tree_wf. replace (forest sample_waiter) with (forest sample_family); [exact sample_family_tree|].
  vm_compute. reflexivity.
Qed.

Definition sample_reaped : kernel (spaces bump) :=
  match syscall_body 0 1 sample_config 114 sample_waiter with Ok (_, k') => k' | Err _ => sample_waiter end.

Theorem process_tree_correct_witness : tree_wf sample_reaped /\ all_processes sample_reaped = [0x2000].
Proof.
  split; [|vm_compute; reflexivity].
  apply (process_tree_correct 0 1 sample_config sample_waiter sample_reaped sample_waiter_tree).
  apply rtc_once, ss_work. apply (kw_svc _ _ _ _ _ 114 None); [done|vm_compute; reflexivity|discriminate|vm_compute; reflexivity].
Defined.

(** C14: [SIGKILL] and [SIGSTOP] can be neither caught nor ignored nor masked by
    any system call but [sigreturn], [execve] included: if no process has them
    masked, in a handler's mask, or with an action of its own, this holds in every
    state reached by stores of the programs, saved registers, system calls of any
    other number, sleeping calls that go on, interrupts, data aborts and switches
    (at a [fork] with consistent allocators, as in C13).  So a process that is
    dispatched with [SIGKILL] pending, and no lower signal to be delivered first,
    is ended with that signal. *)
Theorem kill_not_blocked {S : Type} `{KM : KernelMem S} {US : UserSpace S} {FO : FileOps S} {IO : Mmio S}
    terminal_config polls conf (k k' : kernel S) :
  all_uncatchable k -> rtc (system_step terminal_config polls conf not_sigreturn) k k' ->
  all_uncatchable k' /\
  forall x switch, k_procs k' !! current_process k' = Some x -> p_suspend x = 0 ->
    length (p_actions x) = Z.to_nat (NSIG - 1) -> sig_in SIGKILL (p_pending x) = true ->
    (forall i, 1 <= i < SIGKILL -> sig_in i (p_pending x) = true -> sig_in i (p_mask x) = true) ->
    process_dispatch switch k' =
      (let* _ := mmu_set_ttb (p_id x) in do* process_exit (WAIT_SIGNAL SIGKILL) in switch) k'.
Proof.
  intros HU Hr. pose proof (steps_uncatchable _ _ _ _ _ Hr HU) as HU'. split; [done|].
  intros x sw Hx Hs Hl Hp Hlt. pose proof (HU' _ _ Hx) as Hux.
  apply dispatch_kill; [done|done|done|done|]. apply next_kill; [apply Hux|done|done].
Qed.

(** The first process sends [SIGKILL] to itself. *)
Definition sample_suicide : process :=
  set_p_context (set_c_r [1; 9; 0; 0; 0; 0; 0; 37; 0; 0; 0; 0; 0] zero_context) (sample_task 1).
Definition sample_killer : kernel (spaces bump) :=
  set_k_procs (<[0x2000 := sample_suicide]> (k_procs sample_tasks)) sample_tasks.

Theorem kill_not_blocked_witness :
  exists k' x, syscall_body 0 1 sample_config 37 sample_killer = Ok (None, k') /\ all_uncatchable k' /\
    k_procs k' !! 0x2000 = Some x /\
    process_dispatch (ret Idle) k' =
      (let* _ := mmu_set_ttb (p_id x) in do* process_exit (WAIT_SIGNAL SIGKILL) in ret Idle) k'.
Proof.
  eexists _, _. split; [vm_compute; reflexivity|].
  match goal with |- all_uncatchable ?k /\ _ => destruct (kill_not_blocked 0 1 sample_config sample_killer k) as [H1 H2] end.
  - assert (Hz : forall id c, uncatchable (set_p_context c (sample_task id))).
    { intros id c. split; cbn; [done|intros i a [-> _]%lookup_replicate; done|intros sig a _ [-> _]%lookup_replicate; done]. }
    intros p x Hx. cbn in Hx. apply lookup_insert_Some in Hx as [[_ <-]|[_ Hx]]; [apply Hz|].
    apply lookup_insert_Some in Hx as [[_ <-]|[_ [_ <-]%lookup_singleton_Some]]; [exact (Hz 1 zero_context)|exact (Hz 2 zero_context)].
  - apply rtc_once, ss_work. apply (kw_svc _ _ _ _ _ 37 None); [discriminate|reflexivity|discriminate|vm_compute; reflexivity].
  - split; [exact H1|]. split; [reflexivity|]. apply H2; [reflexivity|reflexivity|reflexivity|reflexivity|].
    intros i Hi Hp. exfalso. revert Hp. unfold SIGKILL in Hi.
    assert (i = 1 \/ i = 2 \/ i = 3 \/ i = 4 \/ i = 5 \/ i = 6 \/ i = 7 \/ i = 8) as Hcase by lia.
    by destruct Hcase as [->|[->|[->|[->|[->|[->|[->| ->]]]]]]].
Defined.
