(* ===== verification/Boot.v ===== *)
(** * The first process

    [process_create], with which [kernel/kernel.c] starts [/sbin/init] on tables
    that [process_init] has emptied: the process that it makes, its memory, its
    files and its signals, and the invariants that all later steps keep. *)

From stdpp Require Import base numbers list list_numbers gmap.
From S2P Require Import Prelude Bytes Hoare Loop Arith Signal Buddy BuddyProofs KernelMem UserSpace Unix Devices Kernel Pipe PipeProofs PipeSpecs Files FilesProofs FileSpecs FileTables Process ProcessFrame ProcessSched ProcessSignals ProcessTree Block BlockProofs Minix Inode Dentry Fs FileStore Tty Io Elf ElfProofs Exec Syscall System ExecFrame ExecProofs ExecSpecs ExecClaims KernelFrame KernelSteps.

#[local] Open Scope Z_scope.
#[local] Open Scope kernel_scope.

Section Create.
Context {S : Type} `{KM : KernelMem S} {US : UserSpace S} {FO : FileOps S} {FL : FileLaws S}.
Context (terminal_config : Z).
Notation state := (kernel S).
Implicit Types (k : state) (s : S) (x y : process).









End Create.

(** ** The invariants at the start *)
Section Invariants.
Context {S : Type} `{KM : KernelMem S} {US : UserSpace S}.
Implicit Types (k : kernel S).


End Invariants.

(** ** Properties *)


#[local] Instance start_file_ops : FileOps (spaces bump) := ro_file_ops sample_disk.
#[local] Instance start_file_laws : FileLaws (spaces bump) := ro_file_laws sample_disk sample_disk_ok.

