(* ===== verification/SyscallSpecs.v ===== *)
(** * syscall.c: properties

    The checks of pointers, and what a call with a bad pointer does: nothing. *)

From stdpp Require Import base numbers list list_numbers gmap.
From S2P Require Import Prelude Bytes Arith Signal Buddy BuddyProofs KernelMem UserSpace Unix Devices Kernel Pipe Files Process Hoare Loop Block BlockProofs Minix Inode Dentry Fs FileStore Tty Io Elf ElfProofs Exec ExecProofs ExecSpecs Syscall ProcessSched ExecClaims FileTables.

#[local] Open Scope Z_scope.
#[local] Open Scope kernel_scope.

(** ** Ranges *)

(** [s] bytes at [p] and the address after them are in user memory. *)
Definition user_range (p s : Z) : bool := (USER_ADDRESS_START <=? p) && (p + s <? USER_ADDRESS_END).

Lemma check_address_range_eq p s : is_u32 p -> is_u32 s -> check_address_range p s = user_range p s.
Proof.
  intros Hp Hs. unfold check_address_range, user_range, IS_USER_ADDRESSS.
  destruct (add_overflow_unsigned_long p s) eqn:Ho.
  - apply add_overflow_unsigned_long_ok in Ho; [|done|done]. symmetry. apply andb_false_iff. right. apply Z.ltb_ge.
    unfold is_u32, u32 in *. destruct (Z.lt_ge_cases (p + s) (2 ^ 32)).
    + destruct Ho. apply Z.mod_small. lia.
    + unfold USER_ADDRESS_END. lia.
  - rewrite u32_small.
    + unfold USER_ADDRESS_START, USER_ADDRESS_END, is_u32 in *. lia.
    + destruct (decide (is_u32 (p + s))) as [?|Hn]; [done|]. exfalso.
      assert (add_overflow_unsigned_long p s = true); [|congruence].
      apply add_overflow_unsigned_long_ok; [done|done|]. intros Hu. apply Hn. rewrite <- Hu. apply u32_range.
Qed.

(** ** Strings *)
Lemma nat_pow_bound n d : Z.of_nat n <= 2 ^ Z.of_nat d -> (n <= 2 ^ d)%nat.
Proof. intros H. apply Nat2Z.inj_le. by rewrite Nat2Z.inj_pow. Qed.
Lemma loop_bound n : Z.of_nat n <= 2 ^ 32 -> (n <= 2 ^ 32)%nat.
Proof. apply (nat_pow_bound n 32). Qed.

Section Strings.
Context {S : Type} `{KM : KernelMem S} {US : UserSpace S}.
Implicit Types (s : S).

(** The string [l] at [a], in user memory with its final 0. *)
Record user_string s (a : Z) (l : list Z) : Prop := {
  ut_chars : Forall (fun c => c <> 0) l;
  ut_bytes : bytes_at s a (l ++ [0]);
  ut_start : USER_ADDRESS_START <= a;
  ut_end : a + Z.of_nat (length l) < USER_ADDRESS_END;
}.
Lemma user_string_cons s a c l : user_string s a (c :: l) -> c <> 0 /\ us_byte s (us_current s) a = Some c /\ user_string s (a + 1) l.
Proof.
  intros [[H1 H1']%Forall_cons H2 H3 H4]. cbn [length] in H4. split; [done|]. split.
  - specialize (H2 0%nat c eq_refl). by rewrite Z.add_0_r in H2.
  - split; [done| |lia|lia]. intros i b Hi. specialize (H2 (Datatypes.S i) b Hi). rewrite <- H2. f_equal. lia.
Qed.

Lemma string_steps C L U s l : km_inv s C L U -> forall a acc, user_string s a l ->
  steps string_step (Datatypes.S (length l)) (a, acc) s = Ok (inr (reverse acc ++ l), s).
Proof.
  intros HI. induction l as [|c l IH]; intros a acc Hs.
  - cbn [length steps]. unfold string_step at 1. rewrite bind_assoc.
    pose proof (ut_bytes _ _ _ Hs 0%nat 0 eq_refl) as H0. rewrite Z.add_0_r in H0.
    erewrite bind_ok by (by eapply us_load_spec). rewrite app_nil_r. reflexivity.
  - destruct (user_string_cons _ _ _ _ Hs) as (Hc & Hb & Hl). destruct Hs as [_ _ H3 H4]. cbn [length] in *.
    unfold USER_ADDRESS_START, USER_ADDRESS_END in *.
    cbn [steps]. unfold string_step at 1. rewrite bind_assoc. erewrite bind_ok by (by eapply us_load_spec).
    rewrite (proj2 (Z.eqb_neq c 0)) by done. rewrite u32_small by (unfold is_u32; lia).
    change (steps string_step (Datatypes.S (length l)) (a + 1, c :: acc) s = Ok (inr (reverse acc ++ c :: l), s)).
    rewrite IH by done. by rewrite reverse_cons, <- app_assoc.
Qed.
Lemma load_string_ok C L U s a l : km_inv s C L U -> user_string s a l -> load_string a s = Ok (l, s).
Proof.
  intros HI Hs. unfold load_string. pose proof (string_steps C L U s l HI a [] Hs) as E. change (reverse [] ++ l) with l in E.
  erewrite bind_ok; [|eapply loop_ends; [exact E|]]; [done|]. apply loop_bound.
  destruct Hs as [_ _ H3 H4]. unfold USER_ADDRESS_START, USER_ADDRESS_END in *. lia.
Qed.

Lemma user_address a : IS_USER_ADDRESSS a = true <-> USER_ADDRESS_START <= a < USER_ADDRESS_END.
Proof. unfold IS_USER_ADDRESSS. rewrite andb_true_iff, Z.leb_le, Z.ltb_lt. done. Qed.

Lemma check_steps C L U s l : km_inv s C L U -> forall a, user_string s a l ->
  steps check_string_step (Datatypes.S (length l)) a s = Ok (inr true, s).
Proof.
  intros HI. induction l as [|c l IH]; intros a Hs.
  - assert (Hu : IS_USER_ADDRESSS a = true) by (apply user_address; destruct Hs as [_ _ H3 H4]; cbn in H4; lia).
    cbn [length steps]. unfold check_string_step at 1. rewrite Hu. cbn [negb]. rewrite bind_assoc.
    pose proof (ut_bytes _ _ _ Hs 0%nat 0 eq_refl) as H0. rewrite Z.add_0_r in H0.
    by erewrite bind_ok by (by eapply us_load_spec).
  - destruct (user_string_cons _ _ _ _ Hs) as (Hc & Hb & Hl). destruct Hs as [_ _ H3 H4]. cbn [length] in *.
    assert (Hu : IS_USER_ADDRESSS a = true) by (apply user_address; lia). unfold USER_ADDRESS_START, USER_ADDRESS_END in *.
    cbn [steps]. unfold check_string_step at 1. rewrite Hu. cbn [negb]. rewrite bind_assoc.
    erewrite bind_ok by (by eapply us_load_spec). unfold truthy. rewrite (proj2 (Z.eqb_neq c 0)) by done. cbn [negb].
    rewrite u32_small by (unfold is_u32; lia). by apply IH.
Qed.
Lemma check_string_ok C L U s a l : km_inv s C L U -> user_string s a l -> check_string a s = Ok (true, s).
Proof.
  intros HI Hs. unfold check_string. pose proof (check_steps C L U s l HI a Hs) as E.
  erewrite bind_ok; [|eapply loop_ends; [exact E|]]; [done|]. apply loop_bound.
  destruct Hs as [_ _ H3 H4]. unfold USER_ADDRESS_START, USER_ADDRESS_END in *. lia.
Qed.

(** A string that starts outside, or runs out of user memory. *)
Lemma check_string_outside s a : IS_USER_ADDRESSS a = false -> check_string a s = Ok (false, s).
Proof.
  intros Hu. unfold check_string. erewrite bind_ok; [|eapply (loop_ends _ 32 1)]; [done| |apply loop_bound; lia].
  cbn [steps]. unfold check_string_step. by rewrite Hu.
Qed.
Lemma check_runaway C L U s l : km_inv s C L U -> forall a, Forall (fun c => c <> 0) l -> bytes_at s a l ->
  USER_ADDRESS_START <= a -> a + Z.of_nat (length l) = USER_ADDRESS_END ->
  steps check_string_step (Datatypes.S (length l)) a s = Ok (inr false, s).
Proof.
  intros HI. induction l as [|c l IH]; intros a Hn Hb H3 H4; cbn [length steps] in *; unfold check_string_step at 1.
  - assert (Hu : IS_USER_ADDRESSS a = false) by (apply not_true_iff_false; rewrite user_address; lia). by rewrite Hu.
  - assert (Hu : IS_USER_ADDRESSS a = true) by (apply user_address; lia). rewrite Hu. cbn [negb]. rewrite bind_assoc.
    apply Forall_cons in Hn as [Hc Hn]. pose proof (Hb 0%nat c eq_refl) as H0. rewrite Z.add_0_r in H0.
    erewrite bind_ok by (by eapply us_load_spec). unfold truthy. rewrite (proj2 (Z.eqb_neq c 0)) by done. cbn [negb].
    unfold USER_ADDRESS_START, USER_ADDRESS_END in *. rewrite u32_small by (unfold is_u32; lia).
    apply IH; [done| |lia|lia]. intros i b Hi. specialize (Hb (Datatypes.S i) b Hi). rewrite <- Hb. f_equal. lia.
Qed.
(** ** Vectors in user memory *)
Record user_word s (a w : Z) : Prop := {
  uw_bytes : bytes_at s a (le32 w);
  uw_range : is_u32 w;
  uw_start : USER_ADDRESS_START <= a;
  uw_end : a + 4 <= USER_ADDRESS_END;
}.
Inductive user_vector s : Z -> list (list Z) -> Prop :=
| uv_nil a : user_word s a 0 -> user_vector s a []
| uv_cons a p str l : user_word s a p -> p <> 0 -> user_string s p str -> user_vector s (a + 4) l ->
    user_vector s a (str :: l).

Lemma load_user_word C L U s a w : km_inv s C L U -> user_word s a w -> load_word a s = Ok (w, s).
Proof.
  intros HI [Hb Hw H1 H2]. unfold USER_ADDRESS_START, USER_ADDRESS_END in *. unfold load_word.
  pose proof (us_read_ok s C L U (le32 w) HI a ltac:(lia)) as E. unfold le32 in E. rewrite le_length in E by lia.
  erewrite bind_ok by (apply E; [lia|exact Hb]). unfold ret. do 2 f_equal. unfold get_word. change (4 * 0) with 0.
  rewrite <- (app_nil_r (Z_to_little_endian 4 8 w)). apply get_le_head; [lia|]. exact Hw.
Qed.

Lemma user_vector_end s a l : user_vector s a l -> USER_ADDRESS_START <= a /\ a + 4 * Z.of_nat (length l) + 4 <= USER_ADDRESS_END.
Proof.
  induction 1 as [a [_ _ H1 H2]|a p str l [_ _ H1 H2] _ _ _ [_ IH]]; cbn [length]; split; lia.
Qed.
Lemma user_vector_steps s a l : user_vector s a l -> (Datatypes.S (length l) <= 2 ^ 32)%nat.
Proof.
  intros [H1 H2]%user_vector_end. apply loop_bound. unfold USER_ADDRESS_START, USER_ADDRESS_END in *. lia.
Qed.

Lemma vector_steps C L U s a l : km_inv s C L U -> user_vector s a l -> forall acc,
  steps vector_step (Datatypes.S (length l)) (a, acc) s = Ok (inr (reverse acc ++ l), s).
Proof.
  intros HI. induction 1 as [a Hw|a p str l Hw Hp Hs Hv IH]; intros acc; cbn [length steps]; unfold vector_step at 1; rewrite !bind_assoc.
  - erewrite bind_ok by (by eapply load_user_word). by rewrite app_nil_r.
  - erewrite bind_ok by (by eapply load_user_word). rewrite (proj2 (Z.eqb_neq p 0)) by done.
    rewrite bind_assoc. erewrite bind_ok by (by eapply load_string_ok). destruct Hw as [_ _ H1 H2].
    unfold USER_ADDRESS_START, USER_ADDRESS_END in *. rewrite u32_small by (unfold is_u32; lia).
    change (steps vector_step (Datatypes.S (length l)) (a + 4, str :: acc) s = Ok (inr (reverse acc ++ str :: l), s)).
    by rewrite IH, reverse_cons, <- app_assoc.
Qed.
Lemma load_vector_ok C L U s a l : km_inv s C L U -> user_vector s a l -> load_vector a s = Ok (l, s).
Proof.
  intros HI Hv. unfold load_vector. pose proof (user_vector_end _ _ _ Hv) as [H1 H2].
  rewrite (proj2 (Z.eqb_neq a 0)) by (unfold USER_ADDRESS_START in *; lia).
  pose proof (vector_steps C L U s a l HI Hv []) as E. change (reverse [] ++ l) with l in E.
  erewrite bind_ok; [|eapply loop_ends; [exact E|by eapply user_vector_steps]]. done.
Qed.

Lemma check_avep_steps C L U s a l : km_inv s C L U -> user_vector s a l ->
  steps check_avep_step (Datatypes.S (length l)) a s = Ok (inr true, s).
Proof.
  intros HI. induction 1 as [a Hw|a p str l Hw Hp Hs Hv IH]; cbn [length steps]; unfold check_avep_step at 1;
    assert (Hu : IS_USER_ADDRESSS a = true) by (apply user_address; destruct Hw; lia); rewrite Hu; cbn [negb]; rewrite !bind_assoc.
  - erewrite bind_ok by (by eapply load_user_word). done.
  - erewrite bind_ok by (by eapply load_user_word). rewrite (proj2 (Z.eqb_neq p 0)) by done.
    rewrite bind_assoc. erewrite bind_ok by (by eapply check_string_ok). destruct Hw as [_ _ H1 H2].
    unfold USER_ADDRESS_START, USER_ADDRESS_END in *. rewrite u32_small by (unfold is_u32; lia). exact IH.
Qed.
Lemma check_avep_ok C L U s a l : km_inv s C L U -> user_vector s a l -> check_avep a s = Ok (true, s).
Proof.
  intros HI Hv. unfold check_avep. pose proof (user_vector_end _ _ _ Hv) as [H1 H2].
  rewrite (proj2 (Z.eqb_neq a 0)) by (unfold USER_ADDRESS_START in *; lia).
  pose proof (check_avep_steps C L U s a l HI Hv) as E.
  erewrite bind_ok; [|eapply loop_ends; [exact E|by eapply user_vector_steps]]. done.
Qed.

(** ** Bad pointers *)

(** A string that starts outside of user memory, or runs out of it. *)
Definition bad_string s (a : Z) : Prop :=
  IS_USER_ADDRESSS a = false \/
  exists l, Forall (fun c => c <> 0) l /\ bytes_at s a l /\ USER_ADDRESS_START <= a /\ a + Z.of_nat (length l) = USER_ADDRESS_END.
(** A vector of strings that leaves user memory before its end, or has a bad
    string after good ones. *)
Inductive bad_vector s : Z -> Prop :=
| bv_outside a : IS_USER_ADDRESSS a = false -> bad_vector s a
| bv_string a p : user_word s a p -> p <> 0 -> bad_string s p -> bad_vector s a
| bv_later a p str : user_word s a p -> p <> 0 -> user_string s p str -> bad_vector s (a + 4) -> bad_vector s a.
(** The argument of [execve]: a null pointer is good. *)
Definition good_argument s (a : Z) : Prop := a = 0 \/ exists l, user_vector s a l.
Definition bad_argument s (a : Z) : Prop := a <> 0 /\ bad_vector s a.

(** The entry of an iovec at [a]. *)
Record user_entry s (a base len : Z) : Prop := {
  ue_range : user_range a IOVEC_SIZE = true;
  ue_base : user_word s a base;
  ue_len : user_word s (a + 4) len;
}.
Inductive good_iovec s : nat -> Z -> Prop :=
| gi_nil a : good_iovec s 0 a
| gi_cons n a base len : user_entry s a base len -> len = 0 \/ user_range base len = true ->
    good_iovec s n (a + IOVEC_SIZE) -> good_iovec s (Datatypes.S n) a.
(** One entry is outside of user memory, or its buffer is. *)
Inductive bad_iovec s : nat -> Z -> Prop :=
| bi_outside n a : is_u32 a -> user_range a IOVEC_SIZE = false -> bad_iovec s (Datatypes.S n) a
| bi_base n a base len : user_entry s a base len -> len <> 0 -> user_range base len = false -> bad_iovec s (Datatypes.S n) a
| bi_later n a base len : user_entry s a base len -> len = 0 \/ user_range base len = true ->
    bad_iovec s n (a + IOVEC_SIZE) -> bad_iovec s (Datatypes.S n) a.

Lemma check_bad_string C L U s a : km_inv s C L U -> bad_string s a -> check_string a s = Ok (false, s).
Proof.
  intros HI [Ha|(l & H1 & H2 & H3 & H4)]; [by apply check_string_outside|]. unfold check_string.
  pose proof (check_runaway C L U s l HI a H1 H2 H3 H4) as E.
  erewrite bind_ok; [|eapply loop_ends; [exact E|]]; [done|]. apply loop_bound.
  unfold USER_ADDRESS_START, USER_ADDRESS_END in *. lia.
Qed.

Lemma bad_vector_steps C L U s a : km_inv s C L U -> bad_vector s a -> exists n,
  (n = O \/ a + 4 * Z.of_nat n <= USER_ADDRESS_END) /\ steps check_avep_step (Datatypes.S n) a s = Ok (inr false, s).
Proof.
  intros HI. induction 1 as [a Hu|a p Hw Hp Hs|a p str Hw Hp Hs _ (n & Hn & E)].
  - exists O. split; [by left|]. cbn [steps]. unfold check_avep_step. by rewrite Hu.
  - exists O. split; [by left|]. cbn [steps]. unfold check_avep_step at 1.
    assert (Hu : IS_USER_ADDRESSS a = true) by (apply user_address; destruct Hw; lia). rewrite Hu. cbn [negb]. rewrite !bind_assoc.
    erewrite bind_ok by (by eapply load_user_word). rewrite (proj2 (Z.eqb_neq p 0)) by done.
    rewrite bind_assoc. by erewrite bind_ok by (by eapply check_bad_string).
  - exists (Datatypes.S n). split; [right; destruct Hw; lia|].
    assert (Hu : IS_USER_ADDRESSS a = true) by (apply user_address; destruct Hw; lia).
    cbn [steps]. unfold check_avep_step at 1. rewrite Hu. cbn [negb]. rewrite !bind_assoc.
    erewrite bind_ok by (by eapply load_user_word). rewrite (proj2 (Z.eqb_neq p 0)) by done.
    rewrite bind_assoc. erewrite bind_ok by (by eapply check_string_ok). destruct Hw as [_ _ H1 H2].
    unfold USER_ADDRESS_START, USER_ADDRESS_END in *. rewrite u32_small by (unfold is_u32; lia). exact E.
Qed.
Lemma check_bad_argument C L U s a : km_inv s C L U -> is_u32 a -> bad_argument s a -> check_avep a s = Ok (false, s).
Proof.
  intros HI Ha [H0 Hb]. unfold check_avep. rewrite (proj2 (Z.eqb_neq a 0)) by done.
  destruct (bad_vector_steps C L U s a HI Hb) as (n & Hn & E).
  erewrite bind_ok; [|eapply loop_ends; [exact E|]]; [done|]. apply loop_bound.
  unfold is_u32, USER_ADDRESS_END in *. destruct Hn as [->|Hn]; lia.
Qed.
Lemma check_good_argument C L U s a : km_inv s C L U -> good_argument s a -> check_avep a s = Ok (true, s).
Proof. intros HI [->|[l Hl]]; [done|by eapply check_avep_ok]. Qed.

Lemma check_entry C L U s a base len n : km_inv s C L U -> user_entry s a base len ->
  check_iovec (Datatypes.S n) a s =
    (if truthy len && negb (user_range base len) then ret false else check_iovec n (a + IOVEC_SIZE)) s.
Proof.
  intros HI [H1 H2 H3]. pose proof (uw_range _ _ _ H2). pose proof (uw_range _ _ _ H3). cbn [check_iovec].
  assert (Ha : is_u32 (a + IOVEC_SIZE) /\ is_u32 (a + 4) /\ is_u32 a).
  { unfold user_range in H1. apply andb_true_iff in H1 as [H1%Z.leb_le H4%Z.ltb_lt].
    unfold USER_ADDRESS_START, USER_ADDRESS_END, IOVEC_SIZE, is_u32 in *. lia. }
  destruct Ha as (A1 & A2 & A3). rewrite check_address_range_eq, H1 by (done || by unfold is_u32). cbn [negb].
  erewrite bind_ok by (by eapply load_user_word). rewrite u32_small by done.
  erewrite bind_ok by (by eapply load_user_word). by rewrite check_address_range_eq, (u32_small (a + IOVEC_SIZE)) by done.
Qed.
Lemma entry_good len base : len = 0 \/ user_range base len = true -> truthy len && negb (user_range base len) = false.
Proof. intros [->| ->]; [done|by rewrite andb_false_r]. Qed.
Lemma check_good_iovec C L U s n a : km_inv s C L U -> good_iovec s n a -> check_iovec n a s = Ok (true, s).
Proof.
  intros HI. induction 1 as [a|n a base len He Hg _ IH]; [done|]. rewrite (check_entry C L U s a base len) by done.
  by rewrite entry_good.
Qed.
Lemma check_bad_iovec C L U s n a : km_inv s C L U -> bad_iovec s n a -> check_iovec n a s = Ok (false, s).
Proof.
  intros HI. induction 1 as [n a Ha Hu|n a base len He H0 Hu|n a base len He Hg _ IH].
  - cbn [check_iovec]. by rewrite check_address_range_eq, Hu by (done || by unfold is_u32).
  - rewrite (check_entry C L U s a base len) by done. rewrite Hu. by rewrite (proj2 (truthy_true len)) by done.
  - rewrite (check_entry C L U s a base len) by done. by rewrite entry_good.
Qed.

(** The calls with a pointer to refuse, by the number of the call, its registers
    and the memory they point to: buffers that are not in user memory, strings,
    vectors and iovecs as above.  Of more than one pointer it may be any. *)
Definition bad_pointer s (number : Z) (r : nat -> Z) : Prop :=
  let bad_buffer p size := user_range p size = false in
  let optional p size := p <> 0 /\ bad_buffer p size in
  let string p := exists l, user_string s p l in
  match number with
  | 3 | 4 | 217 => bad_buffer (r 1%nat) (r 2%nat)
  | 5 | 10 | 39 | 40 => bad_string s (r 0%nat)
  | 11 => bad_string s (r 0%nat) \/ string (r 0%nat) /\
      (bad_argument s (r 1%nat) \/ good_argument s (r 1%nat) /\ bad_argument s (r 2%nat))
  | 42 | 359 => bad_buffer (r 0%nat) 8
  | 54 =>
      if (r 1%nat =? TCGETS) || (r 1%nat =? TCSETS) || (r 1%nat =? TCSETSW) || (r 1%nat =? TCSETSF)
      then bad_buffer (r 2%nat) TERMIOS_SIZE
      else r 1%nat = TIOCGWINSZ /\ bad_buffer (r 2%nat) WINSIZE_SIZE
  | 114 => bad_buffer (r 1%nat) 4
  | 122 => bad_buffer (r 0%nat) UTSNAME_SIZE
  | 140 => bad_buffer (r 3%nat) 8
  | 145 | 146 => bad_iovec s (Z.to_nat (s32 (r 2%nat))) (r 1%nat)
  | 174 => optional (r 1%nat) K_SIGACTION_SIZE \/ optional (r 2%nat) K_SIGACTION_SIZE
  | 175 => optional (r 1%nat) SIGSET_SIZE \/ optional (r 2%nat) SIGSET_SIZE
  | 183 => 2 <= r 1%nat /\ bad_buffer (r 0%nat) (r 1%nat)
  | 195 | 196 => bad_string s (r 0%nat) \/ string (r 0%nat) /\ bad_buffer (r 1%nat) STAT64_SIZE
  | 197 => bad_buffer (r 1%nat) STAT64_SIZE
  | _ => False
  end.
End Strings.

Section Refused.
Context {S : Type} `{KM : KernelMem S} {US : UserSpace S} {FO : FileOps S} {IO : Mmio S}.
Context (terminal_config : Z) (polls : nat) (conf : config).
Notation state := (kernel S).
Implicit Types (k : state) (x : process).

(** The register of the result is set, nothing else. *)
Definition with_result (r : Z) x : process :=
  set_p_context (set_c_r (<[0%nat := u32 r]> (c_r (p_context x))) (p_context x)) x.
Definition answered (r : Z) x k : state := set_k_procs (<[current_process k := with_result r x]> (k_procs k)) k.

Context (k : state) (x : process) (r : nat -> Z).
Context (Hx : k_procs k !! current_process k = Some x).
Context (Hr : forall i, (i < 13)%nat -> c_r (p_context x) !! i = Some (r i) /\ is_u32 (r i)).

Lemma run_arg {A} i (f : Z -> M state A) : (i < 13)%nat -> bind (get_arg i) f k = f (r i) k.
Proof.
  intros Hi. unfold get_arg. rewrite bind_assoc. erewrite bind_ok by reflexivity. cbn beta.
  rewrite bind_assoc, (run_get_proc k _ x) by exact Hx. by rewrite (proj1 (Hr i Hi)).
Qed.
Lemma answer v : done (ret v) k = Ok (None, answered v x k).
Proof.
  unfold done, set_result. erewrite bind_ok by reflexivity. cbn beta. rewrite bind_assoc. erewrite bind_ok by reflexivity. cbn beta.
  by rewrite (run_upd_proc k _ x) by exact Hx.
Qed.
Lemma refuse ok m : ok k = Ok (false, k) -> guarded ok m k = Ok (None, answered (- EFAULT) x k).
Proof. intros E. unfold guarded. erewrite bind_ok by exact E. apply answer. Qed.
Lemma refuse_range p s m : is_u32 p -> is_u32 s -> user_range p s = false ->
  guarded (in_range p s) m k = Ok (None, answered (- EFAULT) x k).
Proof. intros Hp Hs Hn. apply refuse. unfold in_range. by rewrite check_address_range_eq, Hn by done. Qed.
Lemma refuse_mem m' m : m' (k_mem k) = Ok (false, k_mem k) -> guarded (kmem m') m k = Ok (None, answered (- EFAULT) x k).
Proof. intros E. apply refuse. unfold kmem. rewrite E. by destruct k. Qed.
Lemma refuse_both p q a b m : is_u32 p -> is_u32 q -> is_u32 a -> is_u32 b ->
  (p <> 0 /\ user_range p a = false) \/ (q <> 0 /\ user_range q b = false) ->
  guarded (both (null_or_range p a) (null_or_range q b)) m k = Ok (None, answered (- EFAULT) x k).
Proof.
  intros Hp Hq Ha Hb Hn. apply refuse. unfold both, null_or_range. rewrite !check_address_range_eq by done.
  erewrite bind_ok by reflexivity. cbn beta. destruct Hn as [[H1%Z.eqb_neq ->]|[H1%Z.eqb_neq ->]]; rewrite H1; [done|].
  by destruct (_ || _).
Qed.
(** The pointers are checked in order. *)
Lemma check_left b m' : m' (k_mem k) = Ok (false, k_mem k) -> both (kmem m') b k = Ok (false, k).
Proof. intros E. unfold both, kmem at 1, bind. rewrite E. by destruct k. Qed.
Lemma check_right b m' : m' (k_mem k) = Ok (true, k_mem k) -> b k = Ok (false, k) -> both (kmem m') b k = Ok (false, k).
Proof. intros E Eb. unfold both. rewrite (bind_ok _ _ k true k); [exact Eb|]. unfold kmem. rewrite E. by destruct k. Qed.

Context C L U (HI : km_inv (k_mem k) C L U).
Lemma check_both_stat p q : is_u32 q ->
  bad_string (k_mem k) p \/ (exists l, user_string (k_mem k) p l) /\ user_range q STAT64_SIZE = false ->
  both (kmem (check_string p)) (in_range q STAT64_SIZE) k = Ok (false, k).
Proof.
  intros Hq [Hb|[[l Hl] Hb]]; [apply check_left; by eapply check_bad_string|].
  apply check_right; [by eapply check_string_ok|]. unfold in_range. by rewrite check_address_range_eq, Hb by (done || by unfold is_u32).
Qed.
Lemma check_exec p a e : is_u32 a -> is_u32 e ->
  bad_string (k_mem k) p \/ (exists l, user_string (k_mem k) p l) /\
    (bad_argument (k_mem k) a \/ good_argument (k_mem k) a /\ bad_argument (k_mem k) e) ->
  both (kmem (check_string p)) (both (kmem (check_avep a)) (kmem (check_avep e))) k = Ok (false, k).
Proof.
  intros Ha He [Hb|[[l Hl] Hb]]; [apply check_left; by eapply check_bad_string|].
  apply check_right; [by eapply check_string_ok|]. destruct Hb as [Hb|[Hg Hb]]; [apply check_left; by eapply check_bad_argument|].
  apply check_right; [by eapply check_good_argument|]. unfold kmem. erewrite check_bad_argument by done. by destruct k.
Qed.

Lemma bad_pointer_refused number : bad_pointer (k_mem k) number r ->
  syscall_body terminal_config polls conf number k = Ok (None, answered (- EFAULT) x k).
Proof.
  assert (Hu : forall i, (i < 13)%nat -> is_u32 (r i)) by (intros i Hi; apply Hr, Hi).
  assert (N : forall n, 0 <= n < 1000 -> is_u32 n) by (unfold is_u32; lia).
  unfold bad_pointer, syscall_body, syscall_stat64. cbv zeta.
  repeat match goal with
    | |- (match ?n with _ => _ end) -> _ => lazymatch type of n with bool => fail | _ => destruct n end
    end; intros Hb; try contradiction Hb;
  unfold syscall_read, syscall_write, syscall_open, syscall_unlink, syscall_execve, syscall_mkdir, syscall_rmdir, syscall_pipe,
    syscall_pipe2, syscall_ioctl, syscall_rt_sigaction, syscall_rt_sigprocmask, syscall_wait4, syscall_uname, syscall_readv,
    syscall_writev, syscall__llseek, syscall_getcwd, syscall_lstat64, syscall_fstat64, syscall_getdents64;
  repeat rewrite run_arg by lia; cbv zeta;
  first [ apply refuse_range; [apply Hu; lia|first [apply Hu; lia|apply N; done]|exact Hb]
        | apply refuse_mem; eapply check_bad_string; [exact HI|exact Hb]
        | apply refuse_mem; eapply check_bad_iovec; [exact HI|exact Hb]
        | apply refuse, check_both_stat; [apply Hu; lia|exact Hb]
        | apply refuse, check_exec; [apply Hu; lia|apply Hu; lia|exact Hb]
        | apply refuse_both; [apply Hu; lia|apply Hu; lia|apply N; done|apply N; done|exact Hb]
        | idtac ].
  - destruct Hb as [H1 Hb]. rewrite (proj2 (Z.ltb_ge _ 2)) by exact H1.
    apply refuse_range; [apply Hu; lia|apply Hu; lia|exact Hb].
  - destruct ((r 1%nat =? TCGETS) || (r 1%nat =? TCSETS) || (r 1%nat =? TCSETSW) || (r 1%nat =? TCSETSF)).
    + apply refuse_range; [apply Hu; lia|apply N; done|exact Hb].
    + destruct Hb as [->%Z.eqb_eq Hb]. apply refuse_range; [apply Hu; lia|apply N; done|exact Hb].
Qed.
End Refused.

(** ** Properties *)

(** C21: pointers from user space.  [check_address_range] holds exactly when the
    bytes and the address after them lie in user memory, also when the sum
    overflows.  Strings, vectors of strings and iovecs that lie in user memory
    are accepted by [check_string], [check_avep] and [check_iovec], and the string
    is then the one that is loaded.  Every call that takes a pointer, given a bad
    one, has no effect but the result -EFAULT: a buffer (that of [stat64] and
    [lstat64] too, after a good path), a string that starts outside or runs out of
    user memory, the vectors of [execve] when they are outside or any of their
    strings is bad, and an iovec of which any entry, or the buffer of any entry, is
    outside of user memory.  What the checks read up to the bad pointer is mapped. *)
Theorem bad_pointers_harmless {S : Type} `{KM : KernelMem S} {US : UserSpace S} {FO : FileOps S} {IO : Mmio S}
  terminal_config polls conf (k : kernel S) x (r : nat -> Z) C L U :
  k_procs k !! current_process k = Some x ->
  (forall i, (i < 13)%nat -> c_r (p_context x) !! i = Some (r i) /\ is_u32 (r i)) ->
  km_inv (k_mem k) C L U ->
  (forall p s, is_u32 p -> is_u32 s -> check_address_range p s = user_range p s) /\
  (forall a l, user_string (k_mem k) a l ->
     check_string a (k_mem k) = Ok (true, k_mem k) /\ load_string a (k_mem k) = Ok (l, k_mem k)) /\
  (forall a, good_argument (k_mem k) a -> check_avep a (k_mem k) = Ok (true, k_mem k)) /\
  (forall n a, good_iovec (k_mem k) n a -> check_iovec n a (k_mem k) = Ok (true, k_mem k)) /\
  forall number, bad_pointer (k_mem k) number r ->
    syscall_body terminal_config polls conf number k = Ok (None, answered (- EFAULT) x k).
Proof.
  intros Hx Hr HI. split; [exact check_address_range_eq|]. split_and!.
  - intros a l Hs. split; [by eapply check_string_ok|by eapply load_string_ok].
  - intros a Ha. by eapply check_good_argument.
  - intros n a Ha. by eapply check_good_iovec.
  - intros number. by eapply bad_pointer_refused.
Qed.

(** The call [execve("/a", { "ONE", (char * )0xffffffff, ... }, NULL)]. *)
Definition sample_user_bytes : list Z :=
  [47; 97; 0; 0] ++ le32 0x20010 ++ le32 0xffffffff ++ le32 0 ++ [79; 78; 69; 0].
Definition sample_registers : list Z := [0x20000; 0x20004; 0; 0; 0; 0; 0; 11; 0; 0; 0; 0; 0].
Definition sample_caller : process := set_p_context (set_c_r sample_registers zero_context) (sample_task 1).
Definition sample_call : kernel (spaces bump) :=
  set_k_mem (Spaces (Bump 0x10000 1) {[1 := list_to_map (zip (seqZ 0x20000 20) sample_user_bytes)]} 1)
    (set_k_procs (<[0x2000 := sample_caller]> (k_procs sample_tasks)) sample_tasks).
#[local] Instance silent_registers : Mmio (spaces bump) := {| io_read32 _ := ret 0; io_write32 _ _ := ret tt |}.
#[local] Instance no_store : FileOps (spaces bump) := ro_file_ops [].
Lemma sample_user_at a l : bool_decide (Forall (fun e => us_byte (k_mem sample_call) 1 (a + fst e) = Some (snd e))
  (zip (seqZ 0 (Z.of_nat (length l))) l)) = true -> bytes_at (k_mem sample_call) a l.
Proof.
  intros H%bool_decide_eq_true_1 i b Hi. rewrite Forall_lookup in H. apply (H i (Z.of_nat i, b)).
  apply lookup_zip_with_Some. exists (Z.of_nat i), b. split; [done|]. split; [|done].
  apply lookup_seqZ. split; [lia|]. apply lookup_lt_Some in Hi. lia.
Qed.
Lemma sample_word a w : is_u32 w -> USER_ADDRESS_START <= a -> a + 4 <= USER_ADDRESS_END ->
  bytes_at (k_mem sample_call) a (le32 w) -> user_word (k_mem sample_call) a w.
Proof. by split. Qed.
Lemma sample_string a l : Forall (fun c => c <> 0) l -> bytes_at (k_mem sample_call) a (l ++ [0]) ->
  USER_ADDRESS_START <= a -> a + Z.of_nat (length l) < USER_ADDRESS_END -> user_string (k_mem sample_call) a l.
Proof. by split. Qed.

Theorem bad_pointers_harmless_witness :
  syscall_body 0 1 (Config [] [] [] []) 11 sample_call = Ok (None, answered (- EFAULT) sample_caller sample_call).
Proof.
  apply (bad_pointers_harmless 0 1 (Config [] [] [] []) sample_call sample_caller (fun i => nth i sample_registers 0)
    sample_fd_sizes sample_exec_live ∅).
  - reflexivity.
  - intros i Hi. do 13 (destruct i as [|i]; [split; [reflexivity|by vm_compute]|]). lia.
  - exact sample_exec_mem.
  - right. split.
    + exists [47; 97]. apply sample_string; [by repeat constructor|by apply sample_user_at; vm_compute|done|done].
    + left. split; [done|]. apply (bv_later _ _ 0x20010 [79; 78; 69]).
      * apply sample_word; [done|done|done|by apply sample_user_at; vm_compute].
      * done.
      * apply sample_string; [by repeat constructor|by apply sample_user_at; vm_compute|done|done].
      * apply (bv_string _ _ 0xffffffff); [|done|by left].
        apply sample_word; [done|done|done|by apply sample_user_at; vm_compute].
Defined.
