(* ===== verification/Start.v ===== *)
(** * The start of a program

    [__cstart] of [crt/runtime.c], which [_start] of [crt/start.s] calls with the
    stack pointer: it finds on the stack what [process_exec] left there.  [main]
    and [exit] belong to the program and its library and are parameters.  The
    vectors a program gets are the ones it was started with, and it can hand them
    to the next [execve] as they are. *)

From stdpp Require Import base numbers list list_numbers gmap.
From S2P Require Import Prelude Bytes Arith Signal Buddy BuddyProofs KernelMem UserSpace Unix Kernel Pipe PipeProofs PipeSpecs Files FilesProofs FileSpecs FileTables Process ProcessSignals Hoare Loop Block Minix Inode Dentry Fs FileStore Elf ElfProofs Exec ExecFrame ExecProofs ExecSpecs ExecClaims Syscall SyscallSpecs.

#[local] Open Scope Z_scope.
#[local] Open Scope kernel_scope.

Section Start.
Context {S : Type} `{KM : KernelMem S} {US : UserSpace S}.
Implicit Types (s : S).

(** [main] is called with the number of arguments and the addresses of both
    vectors; the last one is also the value of [environ]. *)
Definition cstart {A} (main : Z -> Z -> Z -> M S Z) (exit : Z -> M S A) (stack : Z) : M S A :=
  let* argc := load_word stack in
  let argv := u32 (stack + 4) in
  let environ := u32 (argv + 4 * (s32 argc + 1)) in
  let* r := main (s32 argc) argv environ in
  exit r.

(** ** What [process_exec] leaves on the stack *)
Lemma vector_at_cons s uarg uchar str l : vector_at s uarg uchar (str :: l) ->
  bytes_at s uarg (le32 uchar) /\ bytes_at s uchar (str ++ [0]) /\ vector_at s (uarg + 4) (uchar + Z.of_nat (length str) + 1) l.
Proof.
  intros V. destruct (V 0%nat str eq_refl) as [V1 V2]. unfold string_ptr in V1, V2. cbn [take string_bytes foldr] in V1, V2.
  rewrite !Z.add_0_r in *. split; [done|]. split; [done|]. intros i x Hi. destruct (V (Datatypes.S i) x Hi) as [W1 W2].
  unfold string_ptr in *. cbn [take] in *. rewrite string_bytes_cons in *.
  replace (uchar + Z.of_nat (length str) + 1 + string_bytes (take i l)) with (uchar + (Z.of_nat (length str) + 1 + string_bytes (take i l))) by lia.
  by replace (uarg + 4 + 4 * Z.of_nat i) with (uarg + 4 * Z.of_nat (Datatypes.S i)) by lia.
Qed.
Lemma vector_at_user s l : Forall string_ok l -> forall uarg uchar, vector_at s uarg uchar l ->
  bytes_at s (uarg + 4 * Z.of_nat (length l)) (le32 0) -> USER_ADDRESS_START <= uarg ->
  uarg + 4 * Z.of_nat (length l) + 4 <= USER_ADDRESS_END -> USER_ADDRESS_START <= uchar ->
  uchar + string_bytes l <= USER_ADDRESS_END -> user_vector s uarg l.
Proof.
  induction 1 as [|str l Hstr Hl IH]; intros uarg uchar Hv He H1 H2 H3 H4; cbn [length] in *.
  - constructor. rewrite Z.add_0_r in He. split; [done|by unfold is_u32|lia|lia].
  - apply vector_at_cons in Hv as (V1 & V2 & V3). rewrite string_bytes_cons in H4. pose proof (string_bytes_nonneg l).
    unfold USER_ADDRESS_START, USER_ADDRESS_END in *. econstructor.
    + split; [exact V1|unfold is_u32; lia|unfold USER_ADDRESS_START; lia|unfold USER_ADDRESS_END; lia].
    + lia.
    + split; [|exact V2|unfold USER_ADDRESS_START; lia|unfold USER_ADDRESS_END; lia].
      eapply Forall_impl; [exact Hstr|]. cbn. lia.
    + eapply IH; [exact V3| |lia|lia|lia|lia].
      by replace (uarg + 4 + 4 * Z.of_nat (length l)) with (uarg + 4 * Z.of_nat (Datatypes.S (length l))) by lia.
Qed.

(** A program that gets its vectors at [a] and [e]. *)
Record given s (a e : Z) (argv envp : list (list Z)) : Prop := {
  gv_argv : load_vector a s = Ok (argv, s);
  gv_envp : load_vector e s = Ok (envp, s);
  gv_argv_check : check_avep a s = Ok (true, s);
  gv_envp_check : check_avep e s = Ok (true, s);
}.

Lemma cstart_ok {A} C L U s argv envp (main : Z -> Z -> Z -> M S Z) (exit : Z -> M S A) sp :
  km_inv s C L U -> sp = STACK_END - block_size argv envp -> block_size argv envp <= ARG_MAX ->
  Forall string_ok argv -> Forall string_ok envp -> stack_ok s sp argv envp ->
  exists a e, given s a e argv envp /\
    cstart main exit sp s = (let* r := main (Z.of_nat (length argv)) a e in exit r) s.
Proof.
  intros HI Hsp Hb Ha He [K1 (u & U1 & U2 & K2) K3 (v & V1 & V2 & K4) K5].
  assert (Hsz : 4 + 4 * (2 + Z.of_nat (length argv) + Z.of_nat (length envp)) <= block_size argv envp).
  { unfold block_size, vectors_size. pose proof (string_bytes_nonneg argv). pose proof (string_bytes_nonneg envp).
    Z.to_euclidean_division_equations; lia. }
  unfold ARG_MAX, STACK_END, USER_ADDRESS_END in *.
  assert (B1 : user_vector s (sp + 4) argv).
  { eapply vector_at_user; [done|exact K2|exact K3|..]; unfold USER_ADDRESS_START, USER_ADDRESS_END; lia. }
  assert (B2 : user_vector s (sp + 4 + 4 * Z.of_nat (length argv) + 4) envp).
  { eapply vector_at_user; [done|exact K4|exact K5|..]; unfold USER_ADDRESS_START, USER_ADDRESS_END; lia. }
  exists (sp + 4), (sp + 4 + 4 * Z.of_nat (length argv) + 4). split.
  { split; [by eapply load_vector_ok|by eapply load_vector_ok|by eapply check_avep_ok|by eapply check_avep_ok]. }
  assert (W : user_word s sp (Z.of_nat (length argv))).
  { split; [done|unfold is_u32; lia|unfold USER_ADDRESS_START; lia|unfold USER_ADDRESS_END; lia]. }
  unfold cstart. erewrite bind_ok by (by eapply load_user_word). rewrite s32_small by (unfold is_s32; lia).
  rewrite !u32_small by (unfold is_u32; lia).
  by replace (sp + 4 + 4 * (Z.of_nat (length argv) + 1)) with (sp + 4 + 4 * Z.of_nat (length argv) + 4) by lia.
Qed.
End Start.

(** ** Properties *)

(** C17: a program finds the arguments it was started with.  After a successful
    [process_exec] of a [mappable] program the start code, given the stack pointer of the process, calls
    [main] with the number of arguments and two addresses at which a walk over
    the vectors reads exactly the strings that were passed to [process_exec], in
    order, and then exits with what [main] returns.  The checks of the system
    calls accept both addresses, so that the program can pass them to [execve]
    again. *)
Theorem exec_start_roundtrip {S : Type} `{KM : KernelMem S} {US : UserSpace S} {FO : FileOps S} {FL : FileLaws S} {A : Type}
  C L U E (k : kernel S) x path argv envp im t d (main : Z -> Z -> Z -> M S Z) (exit : Z -> M S A) :
  files_ok k C L U E -> k_procs k !! current_process k = Some x ->
  length (p_segments x) = Z.to_nat SEGMENT_TYPE_SIZE -> us_known (k_mem k) (p_id x) -> p_id x <> 0 ->
  Forall (fun c => c <> 0) path -> Forall string_ok argv -> Forall string_ok envp -> block_size argv envp <= ARG_MAX ->
  program_at (k_mem k) path (Some im) -> mappable im t d ->
  runs (process_exec path argv envp) k (fun r k' => r = 0 /\ exists y a e,
    k_procs k' !! current_process k = Some y /\ given (k_mem k') a e argv envp /\
    cstart main exit (c_sp (p_context y)) (k_mem k') =
      (let* v := main (Z.of_nat (length argv)) a e in exit v) (k_mem k')).
Proof.
  intros HF Hx Hseg Hk Hid Hp Ha He Hb Hat Hm. eapply runs_mono.
  - eapply (process_exec_ok C L U E k x path argv envp (Some im) t d); try done.
    + unfold block_size, ARG_MAX in Hb. Z.to_euclidean_division_equations; lia.
    + by intros ? [= <-].
  - intros r k'. unfold exec_post. rewrite (proj2 (Z.ltb_ge _ _)) by exact Hb.
    intros [-> (L' & U' & E' & y & HF' & HX)]. split; [done|]. destruct (xd_program _ _ _ _ _ _ _ _ _ HX) as [_ _ Hs].
    destruct (cstart_ok C L' U' (k_mem k') argv envp main exit (c_sp (p_context y))) as (a & e & G & R); try done.
    + apply (pi_mem _ _ _ _ _ (fi_pipes _ _ _ _ _ _ _ (fo_inv _ _ _ _ _ HF'))).

    + by rewrite (xd_context _ _ _ _ _ _ _ _ _ HX).
    + by rewrite (xd_context _ _ _ _ _ _ _ _ _ HX).
    + exists y, a, e. split; [apply (xd_process _ _ _ _ _ _ _ _ _ HX)|]. by split.
Qed.

(** A [main] that counts its arguments itself. *)
Definition counting_main {S : Type} `{KM : KernelMem S} {US : UserSpace S} (argc argv envp : Z) : M S Z :=
  let* l := load_vector argv in ret (10 * argc + Z.of_nat (length l)).

Theorem exec_start_roundtrip_witness :
  let FO := ro_file_ops sample_disk in
  runs (process_exec sample_path [sample_path; [98]] []) sample_exec_kernel (fun r k' => r = 0 /\ exists y,
    k_procs k' !! 0x2000 = Some y /\ cstart counting_main ret (c_sp (p_context y)) (k_mem k') = Ok (22, k_mem k')).
Proof.
  intros FO. eapply runs_mono.
  - apply (exec_start_roundtrip (FO := FO) (FL := ro_file_laws sample_disk sample_disk_ok)
      sample_fd_sizes sample_exec_live ∅ ∅ sample_exec_kernel sample_exec_proc sample_path
      [sample_path; [98]] [] sample_image sample_text sample_data counting_main ret).
    + exact sample_exec_ok.
    + reflexivity.
    + reflexivity.
    + by eexists.
    + done.
    + by repeat constructor.
    + by repeat constructor.
    + constructor.
    + by vm_compute.
    + exact (sample_program_at _).
    + by apply sample_mappable.
  - intros r k' (-> & y & a & e & Hy & G & R). split; [done|]. exists y. split; [exact Hy|]. rewrite R.
    unfold counting_main. rewrite bind_assoc. by rewrite (bind_ok _ _ _ _ _ (gv_argv _ _ _ _ _ G)).
Defined.
