(* ===== verification/IoSpecs.v ===== *)
(** * Calls on open files: properties

    Seeking in files of the file system and reading them, on any memory, address
    spaces and files that keep their promises. *)

From stdpp Require Import base numbers list list_numbers gmap.
From S2P Require Import Prelude Bytes Hoare Arith Signal Buddy BuddyProofs KernelMem Unix UserSpace Devices Kernel Pipe PipeProofs PipeSpecs Files FilesProofs FileSpecs FileTables Process ProcessSignals Block BlockProofs Minix Inode Dentry Fs FileStore Tty Uart TtySpecs Io Elf ElfProofs Exec ExecFrame ExecProofs ExecSpecs ExecClaims.

#[local] Open Scope Z_scope.
#[local] Open Scope kernel_scope.

(** Where an offset counts from. *)
Definition seek_base (whence current_ end_ : Z) : option Z :=
  if whence =? SEEK_SET then Some 0
  else if whence =? SEEK_CUR then Some current_
  else if whence =? SEEK_END then Some end_
  else None.

Lemma ulong_max : ULONG_MAX = 2 ^ 32 - 1.
Proof. reflexivity. Qed.
Lemma s64_small z : is_s64 z -> s64 z = z.
Proof. unfold is_s64, s64. intros H. rewrite Z.mod_small; lia. Qed.

(** Reading [a] bytes and then [b] bytes is reading [a + b] bytes. *)
Lemma segment_of_app l start a b : 0 <= start -> 0 <= a -> 0 <= b ->
  segment_of l start (a + b) =
    segment_of l start a ++ segment_of l (start + Z.of_nat (length (segment_of l start a))) b.
Proof.
  intros Hs Ha Hb. unfold segment_of. rewrite length_take, length_drop.
  rewrite (Z2Nat.inj_add start), Nat2Z.id by lia.
  replace (drop (Z.to_nat start + _) l) with (drop (Z.to_nat a `min` (length l - Z.to_nat start)) (drop (Z.to_nat start) l))
    by (by rewrite drop_drop).
  rewrite <- (length_drop l (Z.to_nat start)). generalize (drop (Z.to_nat start) l). intros r.
  rewrite Z2Nat.inj_add by lia. destruct (Nat.le_gt_cases (Z.to_nat a) (length r)) as [H|H].
  - rewrite Nat.min_l by lia. by rewrite <- take_take_drop.
  - rewrite Nat.min_r by lia. rewrite drop_all, take_nil, app_nil_r, !take_ge by lia. done.
Qed.

Section Io.
Context {S : Type} `{KM : KernelMem S} {US : UserSpace S} {FO : FileOps S} {FL : FileLaws S} {IO : Mmio S}.
Notation state := (kernel S).
Implicit Types (k : state) (C : gmap Z Z) (L : Z -> Z -> Prop) (U : gset Z) (E : gmap Z waitq) (x : process).

(** The descriptor [fd] of [x] is the open file [f] on the inode [n], which has
    the bytes [l]. *)
Record opened k x fd f fl i n (l : list Z) : Prop := {
  op_fd : fd_of x fd = f;
  op_some : f <> 0;
  op_file : k_files k !! f = Some fl;
  op_type : f_type fl = FF_INODE;
  op_node : fl_node (k_mem k) (f_ptr fl) = Some i;
  op_inode : fl_file (k_mem k) i n l;
  op_offset : is_u32 (f_offset fl);
}.

(** The file is left at the offset [o]. *)
Definition moved f fl o k : state := set_k_files (<[f := set_f_offset o fl]> (k_files k)) k.

Lemma moved_ok k C L U E f fl o : files_ok k C L U E -> k_files k !! f = Some fl -> files_ok (moved f fl o k) C L U E.
Proof. intros HO Hf. by eapply files_ok_status. Qed.

Lemma files_ok_mem k C L U E s : files_ok k C L U E -> km_inv s C L U -> files_ok (set_k_mem s k) C L U E.
Proof.
  intros HO HI. pose proof (files_ok_more k s C L U ∅ E HO) as H. rewrite (left_id_L ∅ (∪)) in H. auto.
Qed.

(** ** Seeking *)
Lemma llseek_ok C L U E k x fd f fl i n l offset whence :
  files_ok k C L U E -> k_procs k !! current_process k = Some x -> opened k x fd f fl i n l -> is_s64 offset ->
  process_llseek fd offset whence k =
    Ok match seek_base whence (f_offset fl) (Z.of_nat (length l)) with
       | None => (- EINVAL, k)
       | Some base =>
           if decide (is_u32 (base + offset)) then (base + offset, moved f fl (base + offset) k) else (- EOVERFLOW, k)
       end.
Proof.
  intros HO Hx [<- Hf Hfl Ht Hn Hi Ho] Hs. unfold process_llseek. mrun (get_file_ok _ _ _ _ _ _ fd HO Hx).
  rewrite (proj2 (Z.eqb_neq _ _)) by done. mrun (get_file_obj_ok _ _ _ Hfl). rewrite decide_True by done.
  pose proof (files_ok_km _ _ _ _ _ HO) as HI. destruct (fl_size _ _ _ _ _ _ _ HI Hi) as (Hsz & Hsm & _).
  mrun (kmem_ok _ _ _ _ (fl_node_spec _ _ _ Hn)). rewrite set_k_mem_id.
  mrun (kmem_ok _ _ _ _ (fl_inode_spec _ _ _ _ Hi)). rewrite set_k_mem_id. cbv zeta.
  assert (Hst : forall o, is_s64 o ->
    (if (o <? 0) || (ULONG_MAX <? o) then ret (- EOVERFLOW)
     else do* upd_file_obj (fd_of x fd) (set_f_offset o) in ret o) k =
    Ok (if decide (is_u32 o) then (o, moved (fd_of x fd) fl o k) else (- EOVERFLOW, k))).
  { intros o _. unfold is_u32. destruct (decide (0 <= o < 2 ^ 32)) as [H|H].
    - rewrite (proj2 (Z.ltb_ge o 0)), (proj2 (Z.ltb_ge ULONG_MAX o)) by (rewrite ?ulong_max; lia). cbn [orb].
      mrun (upd_file_obj_ok _ _ _ (set_f_offset o) Hfl). done.
    - destruct (Z.ltb_spec o 0); [done|]. rewrite (proj2 (Z.ltb_lt ULONG_MAX o)) by (rewrite ?ulong_max; lia). done. }
  assert (Hadd : forall b, is_u32 b ->
    (if add_overflow_long_long b offset then ret (- EOVERFLOW)
     else if (s64 (b + offset) <? 0) || (ULONG_MAX <? s64 (b + offset)) then ret (- EOVERFLOW)
     else do* upd_file_obj (fd_of x fd) (set_f_offset (s64 (b + offset))) in ret (s64 (b + offset))) k =
    Ok (if decide (is_u32 (b + offset)) then (b + offset, moved (fd_of x fd) fl (b + offset) k) else (- EOVERFLOW, k))).
  { intros b Hb. assert (is_s64 b) by (unfold is_u32, is_s64 in *; lia).
    destruct (add_overflow_long_long b offset) eqn:Ha.
    - apply add_overflow_long_long_ok in Ha; [|done|done].
      rewrite decide_False by (unfold is_u32, is_s64 in *; lia). done.
    - destruct (decide (is_s64 (b + offset))) as [Hok|Hno].
      + rewrite s64_small by done. by apply Hst.
      + apply add_overflow_long_long_ok in Hno; [congruence|done|done]. }
  unfold seek_base. destruct (whence =? SEEK_SET); [by rewrite Z.add_0_l, Hst|].
  destruct (whence =? SEEK_CUR); [by apply Hadd|]. destruct (whence =? SEEK_END); [|done].
  rewrite Hsz. apply Hadd. unfold is_u32. lia.
Qed.

(** ** Reading *)

(** At most the [n] bytes at [a] of the current address space have changed. *)
Record stored (a n : Z) (s s' : S) : Prop := {
  so_current : us_current s' = us_current s;
  so_byte : forall q b, q <> us_current s \/ ~ (a <= b < a + n) -> us_byte s' q b = us_byte s q b;
  so_mapped : forall b, is_Some (us_byte s (us_current s) b) -> is_Some (us_byte s' (us_current s) b);
  so_known : forall q, us_known s' q <-> us_known s q;
  so_files : fl_same s s';
}.
(** [got] has been stored at [data], and the offset is after it. *)
Record read_done C L U E k f fl data (got : list Z) k' : Prop := {
  rd_ok : files_ok k' C L U E;
  rd_state : exists s, k' = moved f fl (f_offset fl + Z.of_nat (length got)) (set_k_mem s k);
  rd_bytes : bytes_at (k_mem k') data got;
  rd_only : stored data (Z.of_nat (length got)) (k_mem k) (k_mem k');
}.
(** What [process_read] leaves, by the kind and the mode of the file. *)
Definition file_read_post C L U E k f fl n l data size (r : Z + blocked) k' : Prop :=
  if negb (FILE_FOR_READ (f_flags fl)) then r = inl (- EBADF) /\ k' = k
  else if S_ISDIR (n_mode n) then r = inl (- EISDIR) /\ k' = k
  else
    let got := segment_of l (f_offset fl) size in
    r = inl (Z.of_nat (length got)) /\ read_done C L U E k f fl data got k'.

Lemma stored_after a n s s1 s' : us_same s s1 -> fl_same s s1 -> wrote (fun b => a <= b < a + n) s1 s' -> stored a n s s'.
Proof.
  intros (A1 & A2 & A3) Hf [W1 W2 W3 W4 _ W6]. split.
  - congruence.
  - intros q x. rewrite <- A1, <- A2. apply W2.
  - intros x. rewrite <- A1, <- A2. apply W3.
  - intros q. by rewrite W4, A3.
  - by eapply fl_same_trans.
Qed.

Lemma read_end l start size : 0 <= start -> 0 <= size -> is_u32 start -> Z.of_nat (length l) < 2 ^ 31 ->
  is_u32 (start + Z.of_nat (length (segment_of l start size))).
Proof. unfold is_u32, segment_of. intros. rewrite length_take, length_drop. lia. Qed.

Lemma read_ok polls C L U E k x fd f fl i n l data size :
  files_ok k C L U E -> k_procs k !! current_process k = Some x -> opened k x fd f fl i n l ->
  0 <= size < 2 ^ 31 -> 0 <= data -> data + size <= 2 ^ 32 -> mapped_at (k_mem k) data size ->
  runs (process_read polls fd data size) k (file_read_post C L U E k f fl n l data size).
Proof.
  intros HO Hx [<- Hf Hfl Ht Hn Hi Ho] Hs Hd Hds Hm. unfold process_read.
  eapply runs_bind_ok; [by eapply get_file_ok|]. rewrite (proj2 (Z.eqb_neq _ _)) by done.
  eapply runs_bind_ok; [by apply get_file_obj_ok|]. unfold file_read_post. rewrite Ht.
  destruct (FILE_FOR_READ (f_flags fl)); [|by apply runs_ret]. cbn [negb].
  pose proof (files_ok_km _ _ _ _ _ HO) as HI. destruct (fl_size _ _ _ _ _ _ _ HI Hi) as (Hsz & Hsm & Hu).
  eapply runs_bind_ok; [apply kmem_ok, fl_node_spec, Hn|]. rewrite set_k_mem_id.
  eapply runs_bind_ok; [by eapply kmem_ok, fl_inode_spec|]. rewrite set_k_mem_id.
  destruct (S_ISDIR (n_mode n)); [by apply runs_ret|].
  apply runs_bind, runs_kmem. eapply runs_mono; [apply (fl_read_spec (k_mem k) C L U i n l); [done|done|done|apply Ho]|].
  intros r s1 (-> & HI1 & Hus & Hfs). set (got := segment_of l (f_offset fl) size).
  assert (Hg : Z.of_nat (length got) <= size) by (unfold got, segment_of; rewrite length_take; lia).
  destruct (write_ok C L U s1 data got) as (s2 & Ew & W & B); [done|done|lia|by apply segment_of_u8| |].
  { destruct Hus as (A1 & A2 & _). intros a Ha. rewrite A1, A2. apply Hm. lia. }
  eapply runs_bind_ok; [by apply (kmem_ok (us_write data got) (set_k_mem s1 k))|].
  rewrite (proj2 (Z.ltb_ge _ 0)) by lia. eapply runs_bind_ok; [by apply upd_file_obj_ok|]. apply runs_ret.
  split; [done|]. rewrite u32_small by (apply read_end; unfold is_u32 in *; lia).
  assert (HI2 : km_inv s2 C L U) by by apply W.
  change (set_k_mem s2 (set_k_mem s1 k)) with (set_k_mem s2 k). split.
  - apply moved_ok; [|done]. by apply files_ok_mem.
  - by exists s2.
  - done.
  - by eapply stored_after.
Qed.

(** ** Reading into several buffers *)

(** [struct iovec]s at [a], one for every buffer and its size. *)
Fixpoint iov_at (s : S) (a : Z) (bufs : list (Z * Z)) : Prop :=
  match bufs with
  | [] => True
  | (b, n) :: bufs => bytes_at s a (le32 b) /\ bytes_at s (a + 4) (le32 n) /\ iov_at s (a + 8) bufs
  end.
Definition total (bufs : list (Z * Z)) : Z := foldr (fun e t => snd e + t) 0 bufs.
Definition buffers_apart (x y : Z * Z) : Prop := fst x + snd x <= fst y \/ fst y + snd y <= fst x.
(** The buffers are in memory, away from [own] (the vector) and from each other. *)
Fixpoint buffers_ok (s : S) (own : Z * Z) (bufs : list (Z * Z)) : Prop :=
  match bufs with
  | [] => True
  | e :: bufs =>
      0 <= fst e /\ 0 <= snd e /\ fst e + snd e < 2 ^ 32 /\ mapped_at s (fst e) (snd e) /\ buffers_apart own e /\
      Forall (buffers_apart e) bufs /\ buffers_ok s own bufs
  end.
(** The bytes of the file in the buffers, one after the other. *)
Fixpoint scattered (s : S) (bufs : list (Z * Z)) (got : list Z) : Prop :=
  match bufs with
  | [] => got = []
  | (b, n) :: bufs => bytes_at s b (take (Z.to_nat n) got) /\ scattered s bufs (drop (Z.to_nat n) got)
  end.

Lemma stored_bytes a n s s' b l : stored a n s s' -> b + Z.of_nat (length l) <= a \/ a + n <= b -> bytes_at s b l -> bytes_at s' b l.
Proof.
  intros W Hd Hh i c Hi. pose proof (lookup_lt_Some _ _ _ Hi).
  rewrite (so_current _ _ _ _ W), (so_byte _ _ _ _ W) by lia. by apply Hh.
Qed.
Lemma stored_mapped a n s s' b m : stored a n s s' -> mapped_at s b m -> mapped_at s' b m.
Proof. intros W Hm c Hc. rewrite (so_current _ _ _ _ W). by apply (so_mapped _ _ _ _ W), Hm. Qed.
Lemma stored_iov a n s s' bufs : stored a n s s' -> forall b, buffers_apart (b, 8 * Z.of_nat (length bufs)) (a, n) ->
  iov_at s b bufs -> iov_at s' b bufs.
Proof.
  intros W. induction bufs as [|[c m] bufs IH]; intros b Hd; [done|]. cbn [iov_at length] in *. unfold buffers_apart in *. cbn [fst snd] in *.
  intros (H1 & H2 & H3). pose proof (le_length 4 c). pose proof (le_length 4 m). split_and!.
  - eapply stored_bytes; [exact W| |exact H1]. unfold le32. lia.
  - eapply stored_bytes; [exact W| |exact H2]. unfold le32. lia.
  - apply IH; [|done]. lia.
Qed.
Lemma stored_buffers a n s s' own bufs : stored a n s s' -> buffers_ok s own bufs -> buffers_ok s' own bufs.
Proof.
  intros W. induction bufs as [|x bufs IH]; [done|]. cbn [buffers_ok]. intros (H1 & H2 & H3 & H4 & H5 & H6 & H7).
  split_and!; try done; [by eapply stored_mapped|by apply IH].
Qed.

Lemma read_at s C L U a v : km_inv s C L U -> 0 <= a -> a + 4 <= 2 ^ 32 -> is_u32 v -> bytes_at s a (le32 v) ->
  forall k, k_mem k = s -> load_u32 a k = Ok (v, k).
Proof.
  intros HI Ha Ha4 Hv Hb k Hk. unfold load_u32. subst s.
  pose proof (us_read_ok _ _ _ _ (le32 v) HI a Ha ltac:(rewrite (proj1 (le32_ok v Hv)); lia) Hb) as E.
  rewrite (proj1 (le32_ok v Hv)) in E. mrun (kmem_ok _ _ _ _ E). rewrite set_k_mem_id. unfold ret. do 2 f_equal.
  rewrite <- (app_nil_r (le32 v)). by apply get_le_head.
Qed.

(** The file after a read is open at its new offset. *)
Lemma opened_after C L U E k x fd f fl i n l data got k' : k_procs k !! current_process k = Some x ->
  opened k x fd f fl i n l -> is_u32 (f_offset fl + Z.of_nat (length got)) -> read_done C L U E k f fl data got k' ->
  k_procs k' !! current_process k' = Some x /\
  opened k' x fd f (set_f_offset (f_offset fl + Z.of_nat (length got)) fl) i n l.
Proof.
  intros Hx [<- Hf Hfl Ht Hn Hi Ho] Hu [_ [s ->] _ [_ _ _ _ (_ & Hfn & Hff)]]. split; [done|]. split; try done.
  - apply lookup_insert_eq.
  - by apply Hfn.
  - by apply Hff.
Qed.

(** What [emulate_readv] leaves when [nread] bytes were there before. *)
Definition readv_post C L U E k f fl l bufs nread (r : Z + blocked) k' : Prop :=
  let got := segment_of l (f_offset fl) (total bufs) in
  r = inl (nread + Z.of_nat (length got)) /\ files_ok k' C L U E /\
  (exists s, k' = moved f fl (f_offset fl + Z.of_nat (length got)) (set_k_mem s k)) /\
  scattered (k_mem k') bufs got /\
  us_current (k_mem k') = us_current (k_mem k) /\
  forall q b, q <> us_current (k_mem k) \/ Forall (fun e => ~ (fst e <= b < fst e + snd e)) bufs ->
    us_byte (k_mem k') q b = us_byte (k_mem k) q b.

Lemma moved_same f fl k : k_files k !! f = Some fl -> moved f fl (f_offset fl + 0) (set_k_mem (k_mem k) k) = k.
Proof.
  intros Hf. rewrite set_k_mem_id, Z.add_0_r. unfold moved. replace (set_f_offset (f_offset fl) fl) with fl by by destruct fl.
  rewrite insert_id by done. by destruct k.
Qed.
Lemma moved_twice f fl o o' k s s' :
  moved f (set_f_offset o fl) o' (set_k_mem s' (moved f fl o (set_k_mem s k))) = moved f fl o' (set_k_mem s' k).
Proof.
  unfold moved. cbn [k_files set_k_files set_k_mem]. rewrite insert_insert_eq. done.
Qed.
Lemma short_read l start a b : 0 <= start -> Z.of_nat (length (segment_of l start a)) < a ->
  segment_of l (start + Z.of_nat (length (segment_of l start a))) b = [].
Proof.
  unfold segment_of. rewrite length_take, length_drop. intros Hs Ha. rewrite drop_ge by lia. apply take_nil.
Qed.
Lemma scattered_nil s bufs : scattered s bufs [].
Proof.
  induction bufs as [|[b m] bufs IH]; [done|]. cbn [scattered]. rewrite take_nil, drop_nil. split; [|done].
  intros i c Hi. by rewrite lookup_nil in Hi.
Qed.
Lemma total_nonneg s own bufs : buffers_ok s own bufs -> 0 <= total bufs.
Proof.
  induction bufs as [|e bufs IH]; [done|]. cbn [buffers_ok]. intros (_ & H & _ & _ & _ & _ & H').
  specialize (IH H'). change (total (e :: bufs)) with (snd e + total bufs). lia.
Qed.

(** The first buffer has been filled or the file ends in it; what the rest of
    the loop leaves is what the whole leaves. *)
Lemma readv_compose C L U E k f fl l b m bufs nread k1 r k' :
  let got := segment_of l (f_offset fl) m in
  let o := f_offset fl + Z.of_nat (length got) in
  is_u32 (f_offset fl) -> 0 <= m -> 0 <= total bufs -> Forall (buffers_apart (b, m)) bufs ->
  read_done C L U E k f fl b got k1 -> Z.of_nat (length got) = m ->
  readv_post C L U E k1 f (set_f_offset o fl) l bufs (nread + Z.of_nat (length got)) r k' ->
  readv_post C L U E k f fl l ((b, m) :: bufs) nread r k'.
Proof.
  intros got o Ho Hm Ht Ha [R1 [s1 R2] R3 R4] Hg (H1 & H2 & [s2 H3] & H4 & H5 & H6). unfold readv_post.
  change (total ((b, m) :: bufs)) with (m + total bufs). rewrite segment_of_app by (unfold is_u32 in *; lia).
  change (f_offset (set_f_offset o fl)) with o in *. fold got. fold o.
  set (rest := segment_of l o (total bufs)) in *. rewrite length_app, Nat2Z.inj_add.
  assert (Hn : Z.to_nat m = length got) by lia. rewrite Z.add_assoc. split_and!; try done.
  - exists s2. rewrite H3, R2, moved_twice. f_equal. unfold o. lia.
  - cbn [scattered]. rewrite Hn, take_app_length, drop_app_length. split; [|done].
    intros i c Hi. rewrite H5, H6; [by apply R3|]. right. pose proof (lookup_lt_Some _ _ _ Hi).
    eapply Forall_impl; [exact Ha|]. intros e. unfold buffers_apart. cbn [fst snd]. lia.
  - by rewrite H5, (so_current _ _ _ _ R4).
  - intros q c Hc. rewrite H6, (so_byte _ _ _ _ R4); [done| |].
    + destruct Hc as [?|Hc]; [by left|right]. apply Forall_cons in Hc as [Hc _]. cbn [fst snd] in Hc. lia.
    + rewrite (so_current _ _ _ _ R4). destruct Hc as [?|Hc]; [by left|right]. by apply Forall_cons in Hc as [_ Hc].
Qed.
Lemma readv_short C L U E k f fl l b m bufs nread k' :
  let got := segment_of l (f_offset fl) m in
  is_u32 (f_offset fl) -> 0 <= m -> 0 <= total bufs -> Z.of_nat (length got) < m ->
  read_done C L U E k f fl b got k' ->
  readv_post C L U E k f fl l ((b, m) :: bufs) nread (inl (nread + Z.of_nat (length got))) k'.
Proof.
  intros got Ho Hm Ht Hg [R1 R2 R3 R4]. unfold readv_post.
  change (total ((b, m) :: bufs)) with (m + total bufs). rewrite segment_of_app by (unfold is_u32 in *; lia).
  rewrite short_read by (unfold is_u32 in *; done || lia). rewrite app_nil_r. fold got. split_and!; try done.
  - cbn [scattered]. rewrite take_ge, drop_ge by lia. split; [done|apply scattered_nil].
  - apply R4.
  - intros q c Hc. rewrite (so_byte _ _ _ _ R4); [done|]. destruct Hc as [?|Hc]; [by left|right].
    apply Forall_cons in Hc as [Hc _]. cbn [fst snd] in Hc. lia.
Qed.

Section Readv.
Context (polls : nat) (x : process) (fd f i : Z) (n : inode) (l : list Z) (iov iovcnt : Z).
Context (Hregular : S_ISDIR (n_mode n) = false) (Hiov : 0 <= iov) (Hend : iov + 8 * iovcnt < 2 ^ 32).

(** The state before a turn of the loop. *)
Record readv_pre C L U E k fl bufs nread : Prop := {
  rp_ok : files_ok k C L U E;
  rp_current : k_procs k !! current_process k = Some x;
  rp_open : opened k x fd f fl i n l;
  rp_mode : FILE_FOR_READ (f_flags fl) = true;
  rp_read : 0 <= nread;
  rp_room : nread + total bufs < 2 ^ 31;
  rp_count : Z.of_nat (length bufs) <= iovcnt;
  rp_vector : iov_at (k_mem k) (iov + 8 * (iovcnt - Z.of_nat (length bufs))) bufs;
  rp_bufs : buffers_ok (k_mem k) (iov, 8 * iovcnt) bufs;
}.

Lemma read_vector C L U E k fl b m bufs nread k1 : readv_pre C L U E k fl ((b, m) :: bufs) nread ->
  files_ok k1 C L U E -> iov_at (k_mem k1) (iov + 8 * (iovcnt - Z.of_nat (length ((b, m) :: bufs)))) ((b, m) :: bufs) ->
  iov_base iov (iovcnt - Z.of_nat (length ((b, m) :: bufs))) k1 = Ok (b, k1) /\
  iov_len iov (iovcnt - Z.of_nat (length ((b, m) :: bufs))) k1 = Ok (m, k1).
Proof.
  intros [_ _ _ _ _ _ Hc _ Hb] HO (H1 & H2 & _). cbn [buffers_ok fst snd] in Hb. destruct Hb as (Hb0 & Hm0 & Hbm & _).
  cbn [length] in *. pose proof (files_ok_km _ _ _ _ _ HO) as HI. unfold iov_base, iov_len.
  set (j := iovcnt - _) in *. assert (0 <= j < iovcnt) by lia.
  rewrite !u32_small by (unfold is_u32; lia).
  split; eapply read_at; try done; unfold is_u32; lia.
Qed.

(** A turn that fills its buffer. *)
Lemma readv_pre_next C L U E k fl b m bufs nread k1 : let got := segment_of l (f_offset fl) m in
  readv_pre C L U E k fl ((b, m) :: bufs) nread -> Z.of_nat (length got) = m -> read_done C L U E k f fl b got k1 ->
  readv_pre C L U E k1 (set_f_offset (f_offset fl + Z.of_nat (length got)) fl) bufs (nread + Z.of_nat (length got)).
Proof.
  intros got [HO Hx Hop Hmd Hn Hr Hc Hv Hb] Hg HR. cbn [iov_at length] in *. destruct Hv as (_ & _ & Hv).
  cbn [buffers_ok fst snd] in Hb. destruct Hb as (Hb0 & Hm0 & Hbm & Hmap & Hap & Hfa & Hb).
  change (total ((b, m) :: bufs)) with (m + total bufs) in Hr. pose proof (op_offset _ _ _ _ _ _ _ _ Hop) as Ho.
  pose proof (fl_size _ _ _ _ _ _ _ (files_ok_km _ _ _ _ _ HO) (op_inode _ _ _ _ _ _ _ _ Hop)) as (Hs1 & Hs2 & _).
  assert (Hu : is_u32 (f_offset fl + Z.of_nat (length got))) by (apply read_end; unfold is_u32 in *; lia).
  destruct (opened_after _ _ _ _ _ _ _ _ _ _ _ _ _ _ _ Hx Hop Hu HR) as [Hx1 Hop1].
  split; try done; try lia.
  - apply HR.
  - replace (iov + 8 * (iovcnt - Z.of_nat (length bufs))) with (iov + 8 * (iovcnt - Z.of_nat (Datatypes.S (length bufs))) + 8) by lia.
    eapply stored_iov; [apply HR| |exact Hv]. unfold buffers_apart in *. cbn [fst snd] in *. lia.
  - eapply stored_buffers; [apply HR|exact Hb].
Qed.

Lemma readv_loop C L U E bufs : forall k fl nread, readv_pre C L U E k fl bufs nread ->
  runs (emulate_readv polls (length bufs) fd iov iovcnt nread) k (readv_post C L U E k f fl l bufs nread).
Proof.
  induction bufs as [|[b m] bufs IH]; intros k fl nread HP.
  { apply runs_ret. destruct HP as [HO Hx Hop _ _ _ _ _ _]. unfold readv_post, segment_of. cbn [total foldr].
    change (take (Z.to_nat 0) _) with (@nil Z). rewrite Z.add_0_r. split_and!; try done.
    exists (k_mem k). symmetry. apply moved_same, Hop. }
  pose proof HP as [HO Hx Hop Hmd Hn Hr Hc Hv Hb]. destruct (read_vector _ _ _ _ _ _ _ _ _ _ k HP HO Hv) as [Eb Em].
  pose proof Hb as (Hb0 & Hm0 & Hbm & Hmap & Hap & Hfa & Hb'). cbn [fst snd] in *.
  pose proof (total_nonneg _ _ _ Hb') as Ht. change (total ((b, m) :: bufs)) with (m + total bufs) in Hr.
  pose proof (op_offset _ _ _ _ _ _ _ _ Hop) as Ho.
  change (length ((b, m) :: bufs)) with (Datatypes.S (length bufs)) in *. cbn [emulate_readv]. cbv zeta.
  eapply runs_bind_ok; [exact Em|]. destruct (truthy m) eqn:Htm.
  - unfold truthy in Htm. apply negb_true_iff, Z.eqb_neq in Htm.
    eapply runs_bind_ok; [exact Eb|]. apply runs_bind. eapply runs_mono; [apply (read_ok polls C L U E k x fd f fl i n l); done || lia|].
    intros r k1. unfold file_read_post. rewrite Hmd, Hregular. cbn [negb]. cbv zeta. intros [-> HR].
    set (got := segment_of l (f_offset fl) m) in *.
    assert (Hg : Z.of_nat (length got) <= m) by (unfold got, segment_of; rewrite length_take; lia).
    assert (Hv1 : iov_at (k_mem k1) (iov + 8 * (iovcnt - Z.of_nat (Datatypes.S (length bufs)))) ((b, m) :: bufs)).
    { eapply stored_iov; [apply HR| |exact Hv]. unfold buffers_apart in *. cbn [fst snd length] in *. lia. }
    destruct (read_vector _ _ _ _ _ _ _ _ _ _ k1 HP (rd_ok _ _ _ _ _ _ _ _ _ _ HR) Hv1) as [_ Em1].
    eapply runs_bind_ok; [exact Em1|]. unfold readv_next. rewrite (proj2 (Z.ltb_ge _ 0)) by lia.
    rewrite u32_small, s32_small by (unfold is_u32, is_s32; lia).
    destruct (Z.eqb_spec m (Z.of_nat (length got))) as [Heq|Hne].
    + rewrite (proj2 (Z.eqb_neq _ 0)) by lia. cbn [orb negb]. eapply runs_mono; [apply IH; by eapply readv_pre_next|].
      intros r k'. by apply readv_compose.
    + rewrite orb_true_r. cbn [negb]. apply runs_ret. apply readv_short; try done. fold got. lia.
  - apply negb_false_iff, Z.eqb_eq in Htm. subst m. eapply runs_mono; [apply IH|].
    + destruct Hv as (_ & _ & Hv). split; try done; [cbn [length] in *; lia|].
      replace (iov + 8 * (iovcnt - Z.of_nat (length bufs))) with (iov + 8 * (iovcnt - Z.of_nat (Datatypes.S (length bufs))) + 8) by lia. done.
    + intros r k' (H1 & H2 & H3 & H4 & H5 & H6). unfold readv_post. change (total ((b, 0) :: bufs)) with (total bufs).
      split_and!; try done.
      intros q c [?|Hq]; apply H6; [by left|right]. by apply Forall_cons in Hq as [_ Hq].
Qed.
End Readv.
End Io.

(** ** A sample state

    The file of the sample program is open for reading as descriptor 3 at offset
    120; 16 bytes of memory hold one [struct iovec] and a buffer of 6 bytes. *)
#[local] Instance io_file_ops : FileOps (spaces bump) := ro_file_ops sample_disk.
#[local] Instance io_file_laws : FileLaws (spaces bump) := ro_file_laws sample_disk sample_disk_ok.
(** Registers that read as zero. *)
#[local] Instance io_quiet : Mmio (spaces bump) := {| io_read32 _ := ret 0; io_write32 _ _ := ret tt |}.

Definition sample_open_file : file := File FF_INODE 1 O_RDONLY 120 1.
Definition sample_io_proc : process := set_p_files (<[3%nat := 0x4000]> (replicate 32 0)) sample_exec_proc.
Definition sample_io_bytes : gmap Z Z :=
  list_to_map (imap (fun i b => (0x10000 + Z.of_nat i, b)) (le32 0x10008 ++ le32 6 ++ replicate 8 0)).
Definition sample_io_kernel : kernel (spaces bump) :=
  Kernel (Spaces (Bump 0x10000 1) {[1 := sample_io_bytes]} 1) (KernelCaches 1 2 3 4 5) ∅ zero_pages
    {[0x4000 := sample_open_file]} {[0x2000 := sample_io_proc]} [0x2000] [] [] 0x2000 2 [] [] [].
Definition sample_io_live (c a : Z) : Prop := c = 2 /\ a = 0x4000.

Lemma sample_io_ok : files_ok sample_io_kernel sample_fd_sizes sample_io_live ∅ ∅.
Proof.
  assert (HT : p_files <$> k_procs sample_io_kernel = {[0x2000 := p_files sample_io_proc]})
    by apply map_fmap_singleton.
  assert (Hrefs : forall f, refs {[0x2000 := p_files sample_io_proc]} f = occ f (p_files sample_io_proc)).
  { intros f. unfold refs. rewrite <- insert_empty, msum_insert, msum_empty by apply lookup_empty. lia. }
  assert (Hget : forall f fl, k_files sample_io_kernel !! f = Some fl -> f = 0x4000 /\ fl = sample_open_file).
  { change (k_files sample_io_kernel) with ({[0x4000 := sample_open_file]} : gmap Z file).
    by intros f fl [<- <-]%lookup_singleton_Some. }
  split; [rewrite HT| |done].
  - split; try (intros *; try rewrite lookup_empty; done).
    + split; try (intros *; try rewrite lookup_empty; done).
      * split_and!; try done; [by intros c a [_ ->]|by intros c c' a [-> _] [-> _]].
      * split; [|intros e q He; by rewrite lookup_empty in He]. intros q l Hq. assert (l = []) as ->.
        { destruct q as [a|a| | |]; cbn in Hq; try (by rewrite lookup_empty in Hq); by injection Hq as <-. }
        split_and!; [constructor| |].
        -- intros e. rewrite lookup_empty. split; [|done]. intros H. by apply not_elem_of_nil in H.
        -- intros e p H. by apply not_elem_of_nil in H.
      * intros i Hi. eexists. split; [by apply zero_page|done].
    + intros p l [_ <-]%lookup_singleton_Some. reflexivity.
    + intros f fl [-> ->]%Hget. rewrite Hrefs. split_and!; done.
    + intros f Hf. rewrite Hrefs, occ_nil, Z.add_0_r. intros Hin%occ_in.
      cbn in Hin. repeat (apply elem_of_cons in Hin as [->|Hin]; [done || by eexists|]). by apply not_elem_of_nil in Hin.
    + by apply not_elem_of_nil.
    + intros f [_ ->]. by eexists.
    + intros f fl [-> ->]%Hget. done.
  - change (k_procs sample_io_kernel) with ({[0x2000 := sample_io_proc]} : gmap Z process).
    intros p x [_ <-]%lookup_singleton_Some. split; [done|]. constructor; [done|constructor].
Qed.

Lemma sample_opened :
  opened sample_io_kernel sample_io_proc 3 0x4000 sample_open_file 1 (ro_inode 1 sample_program) sample_program.
Proof. by split. Qed.
Lemma sample_io_mapped : mapped_at (k_mem sample_io_kernel) 0x10008 6.
Proof.
  intros a Ha. assert (H : a ∈ [0x10008; 0x10009; 0x1000a; 0x1000b; 0x1000c; 0x1000d]).
  { rewrite !elem_of_cons. lia. }
  repeat (apply elem_of_cons in H as [->|H]; [by eexists|]). by apply not_elem_of_nil in H.
Qed.

(** ** Properties *)

(** C23: [process_llseek] on every branch.  -EBADF for a descriptor not in use,
    -ESPIPE for a file that is not in the file system, -EINVAL for an unknown
    [whence]; otherwise the new offset is counted from the start, the current
    offset or the end of the file, and is stored and returned when it is between
    0 and 2^32 - 1, and else -EOVERFLOW, whatever the 64-bit addition does.  It
    never faults, and reference counts stay exact. *)
Theorem llseek_correct {S : Type} `{KM : KernelMem S} {US : UserSpace S} {FO : FileOps S} {FL : FileLaws S}
  C L U E (k : kernel S) x fd offset whence :
  files_ok k C L U E -> k_procs k !! current_process k = Some x -> is_s64 offset ->
  (fd_of x fd = 0 -> process_llseek fd offset whence k = Ok (- EBADF, k)) /\
  (forall fl, fd_of x fd <> 0 -> k_files k !! fd_of x fd = Some fl -> f_type fl <> FF_INODE ->
     process_llseek fd offset whence k = Ok (- ESPIPE, k)) /\
  forall f fl i n l, opened k x fd f fl i n l ->
    process_llseek fd offset whence k =
      Ok match seek_base whence (f_offset fl) (Z.of_nat (length l)) with
         | None => (- EINVAL, k)
         | Some base =>
             if decide (is_u32 (base + offset)) then (base + offset, moved f fl (base + offset) k) else (- EOVERFLOW, k)
         end /\
    forall o, files_ok (moved f fl o k) C L U E.
Proof.
  intros HO Hx Hs. split; [|split].
  - intros H0. unfold process_llseek. mrun (get_file_ok _ _ _ _ _ _ fd HO Hx). by rewrite H0.
  - intros fl Hn Hf Ht. unfold process_llseek. mrun (get_file_ok _ _ _ _ _ _ fd HO Hx).
    rewrite (proj2 (Z.eqb_neq _ _)) by done. mrun (get_file_obj_ok _ _ _ Hf). by rewrite decide_False.
  - intros f fl i n l Ho. split; [by eapply llseek_ok|]. intros o. by eapply moved_ok, Ho.
Qed.

Theorem llseek_correct_witness :
  exists k, process_llseek 3 (-8) SEEK_END sample_io_kernel = Ok (116, k) /\
    process_llseek 3 (2 ^ 63 - 1) SEEK_CUR sample_io_kernel = Ok (- EOVERFLOW, sample_io_kernel).
Proof.
  destruct (llseek_correct sample_fd_sizes sample_io_live ∅ ∅ sample_io_kernel sample_io_proc 3 (-8) SEEK_END
    sample_io_ok eq_refl ltac:(done)) as (_ & _ & H1).
  destruct (llseek_correct sample_fd_sizes sample_io_live ∅ ∅ sample_io_kernel sample_io_proc 3 (2 ^ 63 - 1) SEEK_CUR
    sample_io_ok eq_refl ltac:(done)) as (_ & _ & H2).
  eexists. split.
  - rewrite (proj1 (H1 _ _ _ _ _ sample_opened)). reflexivity.
  - rewrite (proj1 (H2 _ _ _ _ _ sample_opened)). reflexivity.
Defined.

(** C22: reading a file of the file system.  [process_read] returns -EBADF when
    the file is not open for reading and -EISDIR for a directory, without effect;
    otherwise the bytes of the file from the offset on, as many as asked for or
    as there are, are in the buffer, their number is the result and is added to
    the offset, and no other byte of any address space has changed.
    [process_readv] fills the buffers of a vector one after the other with the
    same bytes as one read of the sum of their sizes, and stops at the end of the
    file.  Reference counts stay exact; nothing faults. *)
Theorem file_read_correct {S : Type} `{KM : KernelMem S} {US : UserSpace S} {FO : FileOps S} {FL : FileLaws S} {IO : Mmio S}
  polls C L U E (k : kernel S) x fd f fl i n l :
  files_ok k C L U E -> k_procs k !! current_process k = Some x -> opened k x fd f fl i n l ->
  (forall data size, 0 <= size < 2 ^ 31 -> 0 <= data -> data + size <= 2 ^ 32 -> mapped_at (k_mem k) data size ->
     runs (process_read polls fd data size) k (file_read_post C L U E k f fl n l data size)) /\
  (forall iov bufs, let count := Z.of_nat (length bufs) in
     FILE_FOR_READ (f_flags fl) = true -> S_ISDIR (n_mode n) = false ->
     0 <= iov -> iov + 8 * count < 2 ^ 32 -> total bufs < 2 ^ 31 ->
     iov_at (k_mem k) iov bufs -> buffers_ok (k_mem k) (iov, 8 * count) bufs ->
     runs (process_readv polls fd iov count) k (readv_post C L U E k f fl l bufs 0)).
Proof.
  intros HO Hx Hop. split; [intros; by eapply read_ok|].
  intros iov bufs count Hr Hd Hi Hie Ht Hv Hb. unfold process_readv. unfold count at 1. rewrite Nat2Z.id.
  eapply readv_loop; try done. split; try done.
  unfold count. by rewrite Z.sub_diag, Z.mul_0_r, Z.add_0_r.
Qed.

Theorem file_read_correct_witness :
  runs (process_readv 1 3 0x10000 1) sample_io_kernel (fun r k' =>
    r = inl 4 /\ bytes_at (k_mem k') 0x10008 [5; 6; 7; 8]).
Proof.
  eapply runs_mono.
  - apply (proj2 (file_read_correct 1 sample_fd_sizes sample_io_live ∅ ∅ sample_io_kernel sample_io_proc 3 0x4000
      sample_open_file 1 (ro_inode 1 sample_program) sample_program sample_io_ok eq_refl sample_opened) 0x10000 [(0x10008, 6)]); try done.
    + split_and!; try done; intros j c Hj; do 4 (destruct j as [|j]; [by injection Hj as <-|]); done.
    + split_and!; [done..|apply sample_io_mapped|by left|constructor|done].
  - intros r k' (-> & _ & _ & [H _] & _). split; [reflexivity|exact H].
Defined.
