(* ===== verification/ProcessTests.v ===== *)
(** * The tests of the processes

    The tests of [test-kernel/process.c], run on the models of process.c, files and
    signals: one definition per test, in which every assertion of the test is one,
    and the proof that all of them hold.  The files of a test are in memory: the
    program of the tests, the root directory and the two empty files they open;
    the terminal is only an address. *)

From Stdlib Require Import Ascii String.
From stdpp Require Import base numbers list list_numbers gmap.
From S2P Require Import Prelude Bytes Arith Signal Buddy KernelMem UserSpace Unix Kernel Pipe Files Process Block Minix Inode Dentry Fs FileStore Io Elf Exec ExecClaims LibTests Board.

#[local] Open Scope Z_scope.
#[local] Open Scope kernel_scope.

(** ** Sparse address spaces

    The pages mapped for a process and the bytes that were written; the others
    are 0. *)
Record sparse : Set := Sparse { sx_spaces : gmap Z (list Z * gmap Z Z); sx_ttb : Z }.
Definition sx_space (d : sparse) (pid : Z) : list Z * gmap Z Z := default ([], ∅) (sx_spaces d !! pid).
Definition sx_mapped (d : sparse) (pid a : Z) : bool := existsb (Z.eqb (a / PAGE_SIZE)) (fst (sx_space d pid)).
Definition sx_byte (d : sparse) (pid a : Z) : option Z :=
  if sx_mapped d pid a then Some (u8 (default 0 (snd (sx_space d pid) !! a))) else None.
Definition set_sx (pid : Z) (x : list Z * gmap Z Z) (d : sparse) : sparse := Sparse (<[pid := x]> (sx_spaces d)) (sx_ttb d).
Definition pages_of (addr size : Z) : list Z := seqZ (addr / PAGE_SIZE) (page_count size).

Lemma sx_space_set d pid x q : sx_space (set_sx pid x d) q = if decide (q = pid) then x else sx_space d q.
Proof.
  unfold sx_space, set_sx. cbn [sx_spaces]. case_decide as Hq; [by rewrite Hq, lookup_insert_eq|].
  by rewrite lookup_insert_ne by congruence.
Qed.
Lemma pages_of_in addr size x : existsb (Z.eqb (x / PAGE_SIZE)) (pages_of addr size) = true <-> in_pages addr size x.
Proof.
  unfold in_pages, pages_of. rewrite existsb_exists. setoid_rewrite Z.eqb_eq. setoid_rewrite <- list_elem_of_In. setoid_rewrite elem_of_seqZ.
  split; [by intros (y & Hy & ->)|]. intros Hx. by exists (x / PAGE_SIZE).
Qed.

#[export] Program Instance sparse_user_space {S} `{KM : KernelMem S} : UserSpace (board S sparse) := {|
  us_set_ttb pid b :=
    let d := bd_device b in Ok (sx_ttb d, Board (bd_mem b) (Sparse (<[pid := sx_space d pid]> (sx_spaces d)) pid));
  us_alloc pid addr size b :=
    let d := bd_device b in
    Ok (alloc_result addr size, Board (bd_mem b) (set_sx pid
      (let x := sx_space d pid in if in_megabyte addr size then (pages_of addr size ++ fst x, snd x) else x) d));
  us_destroy pid b := let d := bd_device b in Ok (0, Board (bd_mem b) (Sparse (delete pid (sx_spaces d)) 0));
  us_load a b := match sx_byte (bd_device b) (sx_ttb (bd_device b)) a with Some v => Ok (v, b) | None => Err Fault end;
  us_store a v b :=
    let d := bd_device b in
    let x := sx_space d (sx_ttb d) in
    if sx_mapped d (sx_ttb d) a then
      if default 0 (snd x !! a) =? v then Ok (tt, b)
      else Ok (tt, Board (bd_mem b) (set_sx (sx_ttb d) (fst x, <[a := v]> (snd x)) d))
    else Err Fault;
  us_byte b := sx_byte (bd_device b);
  us_current b := sx_ttb (bd_device b);
  us_known b pid := is_Some (sx_spaces (bd_device b) !! pid);
|}.
Next Obligation.
  intros S KM s pid a b. cbv beta. unfold sx_byte. destruct (sx_mapped _ _ _); [|done]. intros [= <-]. apply u8_range.
Qed.
Next Obligation. intros S KM s C L U a b _ Hb. cbv beta. by rewrite Hb. Qed.
Next Obligation.
  intros S KM s C L U a b v _ Hb Hv. cbv beta zeta in *. set (d := bd_device s) in *. unfold sx_byte in Hb.
  destruct (sx_mapped d (sx_ttb d) a) eqn:Hm; [|done]. destruct (Z.eqb_spec (default 0 (snd (sx_space d (sx_ttb d)) !! a)) v) as [He|_].
  { exists s. split_and!; [done|done| |done|done]. intros q x. case_decide as Hd; [|done]. destruct Hd as [-> ->]. fold d. unfold sx_byte.
    rewrite Hm, He. f_equal. apply Z.mod_small. exact Hv. }
  eexists. split; [done|]. split; [done|]. split; [|split; [|done]].
  - intros q x. cbn [bd_device]. unfold sx_byte, sx_mapped. rewrite sx_space_set. destruct (decide (q = sx_ttb d)) as [->|]; cbn [fst snd].
    + destruct (decide (x = a)) as [->|].
      * rewrite (decide_True (P := _ /\ _)) by done. unfold sx_mapped in Hm. rewrite Hm, lookup_insert_eq. cbn. f_equal. apply Z.mod_small. exact Hv.
      * rewrite (decide_False (P := _ /\ _)) by (intros [_ ?]; done). by rewrite lookup_insert_ne by done.
    + by rewrite (decide_False (P := _ /\ _)) by (intros [? ?]; done).
  - intros q. cbn [bd_device set_sx sx_spaces]. rewrite lookup_insert_is_Some'. split; [|by right].
    intros [<-|?]; [|done]. unfold sx_mapped, sx_space in Hm. fold d. destruct (sx_spaces d !! sx_ttb d); [by eexists|done].
Qed.
Next Obligation.
  intros S KM s C L U pid HI. right. eexists. split; [done|]. split; [done|]. split; [|split; [|done]].
  - intros q x. unfold sx_byte, sx_mapped, sx_space. cbn [bd_device sx_spaces].
    destruct (decide (q = pid)) as [->|]; [by rewrite lookup_insert_eq|by rewrite lookup_insert_ne by congruence].
  - intros q. cbn [bd_device sx_spaces]. rewrite lookup_insert_is_Some'. intuition congruence.
Qed.
Next Obligation.
  intros S KM s C L U pid addr size HI Hs Ha. right. eexists. split; [done|]. split; [done|]. cbn [bd_device]. set (d := bd_device s).
  split; [|split; [|split; [|done]]].
  - intros q x Hx. unfold sx_byte, sx_mapped. rewrite sx_space_set. destruct (decide (q = pid)) as [->|]; [|done].
    destruct (in_megabyte addr size); [|done]. destruct Hx as [?|[?|Hx]]; [done|done|]. cbn [fst snd]. rewrite existsb_app.
    rewrite <- pages_of_in in Hx. by apply not_true_is_false in Hx as ->.
  - intros Hm x Hx. unfold sx_byte, sx_mapped. rewrite sx_space_set, decide_True, Hm by done. cbn [fst snd].
    rewrite existsb_app. apply pages_of_in in Hx. rewrite Hx. by eexists.
  - intros q. cbn [set_sx sx_spaces]. rewrite lookup_insert_is_Some'. intuition congruence.
Qed.
Next Obligation.
  intros S KM s C L U pid HI Hk _. right. eexists. split; [done|]. split; [done|]. split; [|split; [|done]].
  - intros q x. unfold sx_byte, sx_mapped, sx_space. cbn [bd_device sx_spaces]. case_decide as Hq.
    + by rewrite Hq, lookup_delete_eq.
    + by rewrite lookup_delete_ne by congruence.
  - intros q Hq Hn. cbn [bd_device sx_spaces]. by rewrite lookup_delete_ne by congruence.
Qed.
Next Obligation.
  assert (Hm : forall S A (m : M S A) (s : board S sparse) a s', on_board_mem m s = Ok (a, s') -> bd_device s' = bd_device s).
  { intros S A m s a s'. unfold on_board_mem. destruct (m (bd_mem s)) as [[b x]|]; [|done]. by intros [= _ <-]. }
  intros S KM s s' Hs. cbv beta. assert (bd_device s' = bd_device s) as ->; [|done].
  destruct Hs as [c a E|c a E|size i E|i E].
  - exact (Hm _ _ (km_obj_alloc c) _ _ _ E).
  - exact (Hm _ _ (km_obj_free c a) _ _ _ E).
  - exact (Hm _ _ (km_page_alloc size) _ _ _ E).
  - exact (Hm _ _ (km_page_free i) _ _ _ E).
Qed.

(** ** The files *)
Definition INIT_PATH : list Z := chars "/sbin/init".
Definition NOT_FOUND : list Z := chars "/sbin/command_not_found".
Definition test_files : list (list Z * (Z * list Z)) :=
  [(INIT_PATH, (0x81ed, sample_program)); (chars "/", (0x41ed, [])); (chars "/a.txt", (0x81a4, [])); (chars "/b.txt", (0x81a4, []))].
Definition file_number (path : list Z) : Z :=
  match list_find (fun x => fst x = path) test_files with Some (i, _) => Z.of_nat i + 1 | None => 0 end.
Definition test_file {S A} (i : Z) (f : Z -> list Z -> M S A) : M S A :=
  match test_files !! Z.to_nat (i - 1) with Some (_, (mode, l)) => f mode l | None => fail Fault end.

Definition test_space : Type := board bump sparse.
#[export] Instance test_file_ops : FileOps test_space := {|
  fo_lookup path := ret (file_number path);
  fo_inode_of d := ret d;
  fo_inode i := test_file i (fun mode l => ret (Inode i mode 1 (Z.of_nat (length l))));
  fo_read i size start := test_file i (fun _ l =>
    ret (Z.of_nat (length (segment_of l start size)), segment_of l start size));
  fo_write _ _ _ _ := fail Halt;
  fo_truncate i size := test_file i (fun _ l => ret (if (Z.of_nat (length l) =? size) then 0 else -1));
  fo_create path _ _ := ret (if file_number path =? 0 then - ENOENT else 0);
  fo_unlink _ := fail Halt;
  fo_mkdir _ _ := fail Halt;
  fo_rmdir _ := fail Halt;
  fo_lstat64 _ := fail Halt;
  fo_fstat64 f :=
    match f_type f with
    | FF_TTY | FF_PIPE => ret (0, Some (Stat64 0 (Z.lor (Z.lor S_IFCHR S_IRUSR) S_IWUSR) 0 1 0 BLOCK_SIZE))
    | FF_INODE => test_file (f_ptr f) (fun mode l => ret (0, Some (Stat64 (f_ptr f) mode (Z.of_nat (length l)) 1 0 BLOCK_SIZE)))
    | FF_UNUSED => ret (- EINVAL, None)
    end;
|}.

(** ** The state [setup] makes *)
Notation test_state := (kernel test_space).
Definition TERMINAL : Z := 0x77000.
Definition setup : test_state :=
  process_init (KernelCaches 1 2 3 4 5)
    (Kernel (Board (Bump 0x10000 1) (Sparse ∅ 0)) (KernelCaches 0 0 0 0 0) ∅ ∅ ∅ ∅ [] [] [] 0 1 [] [] []).
Definition run (t : M test_state unit) : bool := passes t setup.

Fixpoint walk_processes (pid : Z) (l : list Z) : M test_state Z :=
  match l with
  | [] => fail Halt
  | p :: l => let* x := get_proc p in if p_id x =? pid then ret p else walk_processes pid l
  end.
Definition get_process (pid : Z) : M test_state Z := let* l := gets all_processes in walk_processes pid l.
Definition pseudo_switch_to (pid : Z) : M test_state unit :=
  let* p := get_process pid in
  do* modify (set_current_process p) in
  let* x := get_proc p in
  let* _ := mmu_set_ttb (p_id x) in
  ret tt.
Definition create (path : list Z) : M test_state Z := process_create TERMINAL path.
(** The start of most tests: a process of the program, running. *)
Definition created : M test_state Z :=
  let* pid := create INIT_PATH in
  let* p := get_process pid in
  let* x := get_proc p in
  do* pseudo_switch_to (p_id x) in
  ret p.

Definition returns (m : M test_state Z) (v : Z) : M test_state unit := let* r := m in assert (r =? v).
Definition assert_proc (p : Z) (f : process -> bool) : M test_state unit := let* x := get_proc p in assert (f x).
Definition assert_file (a : Z) (f : file -> bool) : M test_state unit := let* x := get_file_obj a in assert (f x).
Definition is_tty (f : file) : bool := match f_type f with FF_TTY => true | _ => false end.
Definition is_inode (f : file) : bool := match f_type f with FF_INODE => true | _ => false end.
Definition is_pipe (f : file) : bool := match f_type f with FF_PIPE => true | _ => false end.
Definition is_ready (x : process) : bool := match p_state x with STATE_READY => true | _ => false end.
Definition length_of {A} (l : list A) : Z := Z.of_nat (length l).
Definition marked (x : process) (fd : Z) : bool := bitset_mem (p_close_on_exec x) fd.

(** ** Creation *)
Fixpoint assert_ttys (n : nat) (p i cnt : Z) (f : file -> bool) : M test_state unit :=
  match n with
  | O => ret tt
  | S n =>
      let* file := get_fd p i in
      do* assert (truthy file) in
      do* assert_file file (fun x => is_tty x && (f_ptr x =? TERMINAL) && (f_count x =? cnt) && f x) in
      assert_ttys n p (i + 1) cnt f
  end.
Definition test_process_create_0 : M test_state unit :=
  let* pid := create INIT_PATH in
  do* assert (0 <? pid) in
  let* l := gets all_processes in
  do* assert (length_of l =? 1) in
  let* p := get_process pid in
  do* assert_proc p (fun x => is_ready x && bool_decide (p_children x = []) && (p_parent x =? p)) in
  do* assert_ttys 3 p 0 3 (fun x => (f_flags x =? O_RDWR) && (f_offset x =? 0)) in
  do* pseudo_switch_to pid in
  let* x := get_proc p in
  let stack := c_sp (p_context x) in
  let* argc := kmem (load_word stack) in
  do* assert (argc =? 1) in
  let* a := kmem (load_word (stack + 4)) in
  let* s := kmem (load_string a) in
  do* assert (bool_decide (s = INIT_PATH)) in
  returns (kmem (load_word (stack + 8))) 0.
Definition test_process_create_1 : M test_state unit := returns (create NOT_FOUND) (- EACCES).

(** ** Programs *)
Definition long_string : list Z := replicate 128 65 ++ [61] ++ replicate 126 65.
Definition test_process_exec_0 : M test_state unit :=
  let argv := [INIT_PATH; long_string] in
  let envp := [long_string] in
  let* pid := create INIT_PATH in
  do* pseudo_switch_to pid in
  do* returns (process_exec INIT_PATH argv envp) 0 in
  let* cur := gets current_process in
  do* assert_proc cur (fun x => p_id x =? pid) in
  let* x := get_proc cur in
  let stack := c_sp (p_context x) in
  do* returns (kmem (load_word stack)) 2 in
  let string_at i := let* a := kmem (load_word (stack + 4 + 4 * i)) in kmem (load_string a) in
  let* s0 := string_at 0 in
  let* s1 := string_at 1 in
  do* assert (bool_decide (s0 = INIT_PATH) && bool_decide (s1 = long_string)) in
  do* returns (kmem (load_word (stack + 4 + 4 * 2))) 0 in
  let* s3 := string_at 3 in
  do* assert (bool_decide (s3 = long_string)) in
  returns (kmem (load_word (stack + 4 + 4 * 4))) 0.
Definition test_process_exec_1 : M test_state unit :=
  let* pid := create INIT_PATH in
  do* pseudo_switch_to pid in
  returns (process_exec NOT_FOUND [NOT_FOUND] [chars "ABC=ABC"]) (- EACCES).
Definition SIGINT : Z := 2.
Definition SIGHUP : Z := 1.
Definition handler_of (x : process) (sig : Z) : Z := default 0 (ksa_handler <$> p_actions x !! Z.to_nat sig).
Definition action (handler : Z) : k_sigaction := KSigaction handler 0 0 (Sigset 0 0).
Definition test_process_exec_2 : M test_state unit :=
  let* p := created in
  let* text := get_segment p SEGMENT_TYPE_TEXT in
  do* assert (0 <? s_start text) in
  do* returns (let* r := process_sigaction SIGINT (Some (action (s_start text))) false in ret (fst r)) 0 in
  do* assert_proc p (fun x => negb (handler_of x SIGINT =? SIG_DFL)) in
  do* returns (process_exec INIT_PATH [INIT_PATH] []) 0 in
  assert_proc p (fun x => handler_of x SIGINT =? SIG_DFL).
Definition test_process_exec_3 : M test_state unit :=
  let* pid := create INIT_PATH in
  let* p := get_process pid in
  do* cloexec_add p 0 in
  do* pseudo_switch_to pid in
  let* f := get_fd p 0 in
  do* assert (truthy f) in
  do* assert_proc p (fun x => marked x 0) in
  do* returns (process_exec INIT_PATH [] []) 0 in
  do* returns (get_fd p 0) 0 in
  assert_proc p (fun x => negb (marked x 0)).

(** ** Children *)
Definition fork : M test_state Z :=
  let* cur := gets current_process in
  let* c := get_proc cur in
  process_fork (p_context c).
(** A process and its child: the address of the first and the number of the other. *)
Definition forked : M test_state (Z * Z) := let* p := created in let* pid := fork in ret (p, pid).

Definition after_fork (f : Z * Z) : M test_state unit :=
  let pid := snd f in
  do* assert (0 <? pid) in
  let* l := gets all_processes in
  do* assert (length_of l =? 2) in
  let* p := get_process pid in
  let* cur := gets current_process in
  do* assert_proc p (fun x => is_ready x && bool_decide (p_children x = [])) in
  do* assert_proc cur (fun x => length_of (p_children x) =? 1) in
  do* assert_proc p (fun x => p_parent x =? cur) in
  assert_ttys 3 p 0 6 (fun _ => true).
Definition test_process_fork : M test_state unit := let* f := forked in after_fork f.
Definition destroy_child (f : Z * Z) : M test_state unit :=
  let '(parent, child_pid) := f in
  do* assert_proc parent (fun x => length_of (p_children x) =? 1) in
  let* child := get_process child_pid in
  do* process_destroy child in
  assert_proc parent (fun x => length_of (p_children x) =? 0).
Definition test_process_destroy_0 : M test_state unit := let* f := forked in destroy_child f.
Definition destroy_middle (f : Z * Z) : M test_state unit :=
  let '(parent, child_pid) := f in
  let* x := get_proc parent in
  let* child := get_process child_pid in
  do* pseudo_switch_to child_pid in
  let* grandchild_pid := fork in
  let* grandchild := get_process grandchild_pid in
  do* pseudo_switch_to (p_id x) in
  do* process_destroy child in
  do* assert_proc grandchild (fun y => p_parent y =? parent) in
  assert_proc parent (fun y => length_of (p_children y) =? 1).
Definition test_process_destroy_1 : M test_state unit := let* f := forked in destroy_middle f.
Definition destroy_parent (f : Z * Z) : M test_state unit :=
  let '(parent, child_pid) := f in
  let* child := get_process child_pid in
  do* pseudo_switch_to child_pid in
  do* process_destroy parent in
  assert_proc child (fun x => p_parent x =? child).
Definition test_process_destroy_2 : M test_state unit := let* f := forked in destroy_parent f.
Definition exit_child (f : Z * Z) : M test_state unit :=
  let '(parent, child_pid) := f in
  do* assert_ttys 3 parent 0 6 (fun _ => true) in
  let* child := get_process child_pid in
  do* pseudo_switch_to child_pid in
  do* process_exit 127 in
  do* assert_proc child (fun x => match p_state x with STATE_DEAD => true | _ => false end && (p_exit_status x =? 127)) in
  assert_ttys 3 parent 0 3 (fun _ => true).
Definition test_process_exit : M test_state unit := let* f := forked in exit_child f.
Definition test_process_schedule : M test_state unit :=
  let* pid := create INIT_PATH in
  let* p := get_process pid in
  do* upd_proc p (set_p_state STATE_READY) in
  let* pid := create INIT_PATH in
  let* p := get_process pid in
  do* upd_proc p (set_p_state STATE_BLOCKED) in
  let* all := gets all_processes in
  let* queue := gets run_queue in
  do* assert ((length_of all =? 2) && (length_of queue =? 0)) in
  do* process_schedule in
  let* all := gets all_processes in
  let* queue := gets run_queue in
  assert ((length_of all =? 2) && (length_of queue =? 1)).

(** ** Files *)
Definition WRITE_NEW : Z := Z.lor (Z.lor O_CREAT O_WRONLY) O_TRUNC.
Definition open_a (flags : Z) : M test_state Z :=
  let* fd := process_open (chars "/a.txt") flags 0x1a4 in do* assert (0 <=? fd) in ret fd.
Definition test_process_open_0 : M test_state unit :=
  let* p := created in
  let* fd := open_a WRITE_NEW in
  let* f := get_fd p fd in
  do* assert (truthy f) in
  assert_file f (fun x => is_inode x && (f_count x =? 1) && (f_flags x =? O_WRONLY) && (f_offset x =? 0)).
Definition test_process_open_1 : M test_state unit :=
  let* p := created in
  let* fd := open_a (Z.lor WRITE_NEW O_CLOEXEC) in
  assert_proc p (fun x => marked x fd).
Definition test_process_close_0 : M test_state unit :=
  let* pid := create INIT_PATH in
  let* p := get_process pid in
  do* cloexec_add p 0 in
  do* pseudo_switch_to pid in
  let* f := get_fd p 0 in
  do* assert (truthy f) in
  do* assert_proc p (fun x => marked x 0) in
  let* _ := process_close 0 in
  do* returns (get_fd p 0) 0 in
  assert_proc p (fun x => negb (marked x 0)).
Definition test_process_close_1 : M test_state unit :=
  let* p := created in
  let* fd := open_a WRITE_NEW in
  let* f := get_fd p fd in
  do* assert (truthy f) in
  let* r := process_dupfd fd 0 0 in
  do* assert (0 <=? r) in
  do* assert_file f (fun x => f_count x =? 2) in
  let* _ := process_close fd in
  assert_file f (fun x => f_count x =? 1).
Definition O_DIRECTORY : Z := 0x4000.
(** [process_fstat64]: 0, and the kind of file. *)
Definition assert_stat (fd kind : Z) : M test_state unit :=
  let* r := process_fstat64 fd in
  do* assert (fst r =? 0) in
  assert (holds (snd r) (fun st => Z.land (st_mode st) 0xf000 =? kind)).
Definition test_process_fstat64_0 : M test_state unit :=
  let* _ := created in
  let* fd := process_open (chars "/") (Z.lor O_RDONLY O_DIRECTORY) 0 in
  do* assert (0 <=? fd) in
  do* assert_stat fd S_IFDIR in
  let* fd := open_a WRITE_NEW in
  assert_stat fd S_IFREG.
Definition test_process_fstat64_1 : M test_state unit :=
  let* _ := created in
  do* returns (let* r := process_fstat64 100 in ret (fst r)) (- EBADF) in
  assert_stat 0 S_IFCHR.

(** ** Signals *)
Definition test_process_sigaction : M test_state unit :=
  let* p := created in
  let* r := process_sigaction SIGKILL (Some (action SIG_IGN)) true in
  do* assert (fst r =? - EINVAL) in
  let* r := process_sigaction SIGSTOP (Some (action SIG_IGN)) true in
  do* assert (fst r =? - EINVAL) in
  let* r := process_sigaction SIGINT (Some (action SIG_IGN)) true in
  do* assert (fst r =? 0) in
  do* assert_proc p (fun x => handler_of x SIGINT =? SIG_IGN) in
  assert (holds (snd r) (fun old => ksa_handler old =? SIG_DFL)).

Definition only (sig : Z) : sigset := snd (sigaddset (snd sigemptyset) sig).
Definition is_member (s : sigset) (sig : Z) : bool := truthy (sigismember s sig).
Definition is_empty (s : sigset) : bool := truthy (sigisemptyset s).
(** [process_sigprocmask(how, &set, &old)], and conditions on the mask and on [old]. *)
Definition assert_mask (p how : Z) (set : sigset) (new old : sigset -> bool) : M test_state unit :=
  let* r := process_sigprocmask how (Some set) true in
  do* assert_proc p (fun x => new (p_mask x)) in
  assert (holds (snd r) old).
Definition test_process_sigprocmask_0 : M test_state unit :=
  let* p := created in
  do* assert_proc p (fun x => is_empty (p_mask x)) in
  do* assert_mask p SIG_BLOCK (only SIGKILL) is_empty is_empty in
  do* assert_mask p SIG_BLOCK (only SIGINT) (fun m => is_member m SIGINT) is_empty in
  assert_mask p SIG_BLOCK (only SIGHUP) (fun m => is_member m SIGINT && is_member m SIGHUP)
    (fun m => is_member m SIGINT && negb (is_member m SIGHUP)).
Definition test_process_sigprocmask_1 : M test_state unit :=
  let* p := created in
  do* assert_proc p (fun x => is_empty (p_mask x)) in
  do* assert_mask p SIG_SETMASK (only SIGKILL) is_empty is_empty in
  do* assert_mask p SIG_SETMASK (only SIGINT) (fun m => is_member m SIGINT) is_empty in
  assert_mask p SIG_SETMASK (only SIGHUP) (fun m => negb (is_member m SIGINT) && is_member m SIGHUP)
    (fun m => is_member m SIGINT && negb (is_member m SIGHUP)).
Definition test_process_sigprocmask_2 : M test_state unit :=
  let* p := created in
  do* assert_proc p (fun x => is_empty (p_mask x)) in
  let* _ := process_sigprocmask SIG_SETMASK (Some (snd sigfillset)) false in
  do* assert_proc p (fun x => is_member (p_mask x) SIGINT) in
  let* _ := process_sigprocmask SIG_UNBLOCK (Some (only SIGINT)) false in
  assert_proc p (fun x => negb (is_member (p_mask x) SIGINT)).
Definition test_process_sigprocmask_3 : M test_state unit :=
  let* p := created in
  do* assert_proc p (fun x => is_empty (p_mask x)) in
  let* _ := process_sigprocmask SIG_SETMASK (Some (only SIGINT)) false in
  let* r := process_sigprocmask 0 None true in
  assert_proc p (fun x => holds (snd r) (fun old => bool_decide (p_mask x = old))).
Definition test_process_kill_0 : M test_state unit :=
  let* p := created in
  let* x := get_proc p in
  do* assert (is_empty (p_pending x)) in
  do* returns (process_kill (p_id x) SIGKILL) 0 in
  assert_proc p (fun x => is_member (p_pending x) SIGKILL).
Definition test_process_kill_1 : M test_state unit :=
  let* p := created in
  let* x := get_proc p in
  do* returns (process_kill (p_id x) 0) (- EINVAL) in
  do* returns (process_kill (p_id x) (-1)) (- EINVAL) in
  do* returns (process_kill (p_id x) (NSIG + 10)) (- EINVAL) in
  returns (process_kill (p_id x + 10) SIGINT) (- ESRCH).

(** ** Descriptors *)
Definition assert_dup (p : Z) (m : M test_state Z) (fd : Z) (mark : bool) (f cnt : Z) : M test_state unit :=
  do* returns m fd in
  do* assert_proc p (fun x => Bool.eqb (marked x fd) mark) in
  assert_file f (fun x => f_count x =? cnt).
(** A new file, opened by the test: its descriptor and its object. *)
Definition opened (p : Z) (path : list Z) : M test_state (Z * Z) :=
  let* fd := process_open path WRITE_NEW 0x1a4 in
  do* assert (0 <=? fd) in
  let* f := get_fd p fd in
  do* assert (truthy f) in
  do* assert_file f (fun x => f_count x =? 1) in
  ret (fd, f).
Definition test_process_dupfd_0 : M test_state unit :=
  let* p := created in
  let* a := opened p (chars "/a.txt") in
  let '(fd, f) := a in
  do* assert_dup p (process_dupfd fd 0 0) (fd + 1) false f 2 in
  do* assert_dup p (process_dupfd fd 0 O_CLOEXEC) (fd + 2) true f 3 in
  assert_dup p (process_dupfd fd 10 0) 10 false f 4.
(** [while (process_dupfd(0, 0, 0) != MAX_FD_SIZE - 1);] *)
Fixpoint dup_all (fuel : nat) : M test_state unit :=
  match fuel with
  | O => fail Fuel
  | S fuel => let* r := process_dupfd 0 0 0 in if r =? MAX_FD_SIZE - 1 then ret tt else dup_all fuel
  end.
Definition test_process_dupfd_1 : M test_state unit :=
  let* p := created in
  do* returns (process_dupfd 10 0 0) (- EBADF) in
  do* returns (process_dupfd 0 (-1) 0) (- EINVAL) in
  do* returns (process_dupfd 0 MAX_FD_SIZE 0) (- EINVAL) in
  do* dup_all (Z.to_nat MAX_FD_SIZE) in
  returns (process_dupfd 0 0 0) (- EMFILE).
Definition test_process_dup2_0 : M test_state unit :=
  let* p := created in
  do* returns (process_dup2 0 0) 0 in
  let* a := opened p (chars "/a.txt") in
  do* returns (process_dup2 (fst a) (fst a + 1)) (fst a + 1) in
  do* assert_file (snd a) (fun x => f_count x =? 2) in
  let* b := opened p (chars "/b.txt") in
  do* returns (process_dup2 (fst b) (fst a + 1)) (fst a + 1) in
  do* assert_file (snd a) (fun x => f_count x =? 1) in
  assert_file (snd b) (fun x => f_count x =? 2).
Definition test_process_dup2_1 : M test_state unit :=
  let* p := created in
  do* returns (process_dup2 100 0) (- EBADF) in
  do* returns (process_dup2 0 (-1)) (- EBADF) in
  returns (process_dup2 0 MAX_FD_SIZE) (- EBADF).
Definition test_process_dup3_0 : M test_state unit :=
  let* p := created in
  let* a := opened p (chars "/a.txt") in
  do* assert_dup p (process_dup3 (fst a) (fst a + 1) O_CLOEXEC) (fst a + 1) true (snd a) 2 in
  let* b := opened p (chars "/b.txt") in
  do* assert_dup p (process_dup3 (fst b) (fst a + 1) 0) (fst a + 1) false (snd b) 2 in
  assert_file (snd a) (fun x => f_count x =? 1).
Definition test_process_dup3_1 : M test_state unit :=
  let* p := created in
  do* returns (process_dup3 100 0 0) (- EBADF) in
  do* returns (process_dup3 0 (-1) 0) (- EBADF) in
  do* returns (process_dup3 0 MAX_FD_SIZE 0) (- EBADF) in
  returns (process_dup3 0 0 0) (- EINVAL).

(** ** Pipes *)
Definition new_pipe (flags : Z) : M test_state (Z * Z) :=
  let* r := process_pipe2 flags in
  do* assert (fst r =? 0) in
  match snd r with
  | Some (r, w) =>
      let* cur := gets current_process in
      let* rfile := get_fd cur r in
      let* wfile := get_fd cur w in
      ret (rfile, wfile)
  | None => fail Halt
  end.
Definition test_process_pipe2_0 : M test_state unit :=
  let* p := created in
  let* e := new_pipe 0 in
  do* assert_file (fst e) (fun x => is_pipe x && (f_count x =? 1) && (f_offset x =? 0) && (f_flags x =? Z.lor O_RDONLY O_APPEND)) in
  do* assert_file (snd e) (fun x => is_pipe x && (f_count x =? 1) && (f_offset x =? 0) && (f_flags x =? Z.lor O_WRONLY O_APPEND)) in
  let* r := get_file_obj (fst e) in
  assert_file (snd e) (fun w => f_ptr r =? f_ptr w).
Definition test_process_pipe2_1 : M test_state unit :=
  let flags := Z.lor (Z.lor O_CLOEXEC O_DIRECT) O_NONBLOCK in
  let* p := created in
  let* e := new_pipe flags in
  do* assert_file (fst e) (fun x => f_flags x =? Z.lor (Z.lor O_RDONLY O_APPEND) flags) in
  assert_file (snd e) (fun x => f_flags x =? Z.lor (Z.lor O_WRONLY O_APPEND) flags).
Definition test_process_pipe2_2 : M test_state unit :=
  let* p := created in
  let* r := process_pipe2 O_APPEND in
  assert (fst r =? - EINVAL).
(** The [do] loop: until one descriptor is left. *)
Fixpoint open_all (fuel : nat) : M test_state unit :=
  match fuel with
  | O => fail Fuel
  | S fuel =>
      let* fd := open_a (Z.lor (Z.lor O_CREAT O_WRONLY) O_APPEND) in
      if fd <? MAX_FD_SIZE - 2 then open_all fuel else ret tt
  end.
Definition test_process_pipe2_3 : M test_state unit :=
  let* p := created in
  do* open_all (Z.to_nat MAX_FD_SIZE) in
  let* r := process_pipe2 0 in
  assert (fst r =? - EMFILE).

Definition process_tests : list (M test_state unit) :=
  [test_process_create_0; test_process_create_1; test_process_exec_0; test_process_exec_1; test_process_exec_2;
   test_process_exec_3; test_process_schedule; test_process_open_0; test_process_open_1; test_process_close_0;
   test_process_close_1; test_process_fstat64_0; test_process_fstat64_1; test_process_sigaction;
   test_process_sigprocmask_0; test_process_sigprocmask_1; test_process_sigprocmask_2; test_process_sigprocmask_3;
   test_process_kill_0; test_process_kill_1; test_process_dupfd_0; test_process_dupfd_1; test_process_dup2_0;
   test_process_dup2_1; test_process_dup3_0; test_process_dup3_1; test_process_pipe2_0; test_process_pipe2_1;
   test_process_pipe2_2; test_process_pipe2_3].
Definition child_tests : list (M test_state unit) :=
  [test_process_fork; test_process_destroy_0; test_process_destroy_1; test_process_destroy_2; test_process_exit].

(** ** All of them *)
Lemma process_tests_pass : forallb run process_tests = true.
Proof. vm_compute. reflexivity. Qed.

(** The children share the state after [forked]. *)
Definition forked_state : res ((Z * Z) * test_state) := Eval vm_compute in forked setup.
Lemma forked_setup : forked setup = forked_state.
Proof. vm_compute. reflexivity. Qed.
Lemma run_forked (rest : Z * Z -> M test_state unit) :
  run (let* f := forked in rest f) = match forked_state with Ok (f, s) => passes (rest f) s | Err _ => false end.
Proof. unfold run, passes, bind. rewrite forked_setup. destruct forked_state as [[f s]|]; reflexivity. Qed.
Lemma child_tests_pass : forallb run child_tests = true.
Proof.
  cbn [forallb child_tests]. unfold test_process_fork, test_process_destroy_0, test_process_destroy_1, test_process_destroy_2, test_process_exit.
  rewrite !run_forked. vm_compute. reflexivity.
Qed.
