(* ===== verification/FsTests.v ===== *)
(** * The tests of the file system

    The tests of block.c, superblock.c, inode.c, dentry.c and fs.c in [test-kernel],
    run on the models down to the sectors of a card: one definition per test, in
    which every assertion of the test is one, and the proof that all of them hold.
    There are two cards: an empty file system, and one with the program
    [/sbin/init], as the tests need them. *)

From Stdlib Require Import Ascii String.
From stdpp Require Import base numbers list list_numbers gmap.
From S2P Require Import Prelude Bytes Buddy KernelMem Unix Kernel Block BlockProofs Minix Inode Dentry Fs LibTests.

#[local] Open Scope Z_scope.
#[local] Open Scope kernel_scope.

(** ** The cards

    Block 0 has the superblock, blocks 2 and 3 are the bit maps, block 4 has the
    inodes; the data starts at block 5. *)
Definition sector (l : list Z) : list Z := take 512 (l ++ replicate 512 0).
Definition superblock_bytes : list Z :=
  le32 64 ++ [0; 0] ++ le16 1 ++ le16 1 ++ le16 5 ++ le16 0 ++ [0; 0] ++ le32 0x7fffffff ++ le32 20 ++
  le16 SUPER_MAGIC_V3 ++ [0; 0] ++ le16 4096 ++ [0].
Definition test_inode (mode nlinks size zone : Z) : minix2_inode := MinixInode mode nlinks 0 0 size 0 0 0 (zone :: replicate 9 0).
Definition test_entry (ino : Z) (name : string) : list Z := encode_dirent (Dirent ino (name_array NAME_MAX (chars name))).
Definition formatted (inode_bits zone_bits : Z) (inodes : list minix2_inode) (zones : list (Z * list Z)) : gmap Z (list Z) :=
  list_to_map ((1024, sector superblock_bytes) :: (2 * BLOCK_SIZE, sector [inode_bits]) :: (3 * BLOCK_SIZE, sector [zone_bits]) ::
    (4 * BLOCK_SIZE, sector (concat (map encode_inode inodes))) :: map (fun x => (fst x * BLOCK_SIZE, sector (snd x))) zones).
Definition root_entries : list Z := test_entry 1 "." ++ test_entry 1 "..".
Definition empty_card : gmap Z (list Z) := formatted 3 3 [test_inode 0x41ed 2 128 5] [(5, root_entries)].
Definition init_card : gmap Z (list Z) :=
  formatted 0xf 0xf [test_inode 0x41ed 3 192 5; test_inode 0x41ed 2 192 6; test_inode 0x81ed 1 4 7]
    [(5, root_entries ++ test_entry 2 "sbin"); (6, test_entry 2 "." ++ test_entry 1 ".." ++ test_entry 3 "init"); (7, [1; 2; 3; 4])].

(** ** block.c *)
Notation card_map := (gmap Z (list Z)).
Notation store_state := (blocks bump card_map).
Definition block_setup (card : card_map) : store_state := block_init 1 (Bump 0x100 1) card.
Definition assert_used (n : Z) : M store_state unit := let* l := gets used_blocks in assert (Z.of_nat (length l) =? n).
Fixpoint read_twice (n : nat) (i : Z) : M store_state unit :=
  match n with
  | O => ret tt
  | S n =>
      let* _ := block_read i in
      do* assert_used i in
      let* _ := block_read i in
      do* assert_used i in
      read_twice n (i + 1)
  end.
Definition test_block_read : M store_state unit := do* assert_used 0 in read_twice 7 1.
Fixpoint write_and_read (n : nat) (i : Z) : M store_state unit :=
  match n with
  | O => ret tt
  | S n =>
      do* (if truthy (Z.land i 1) then let* _ := block_read i in assert_used i else ret tt) in
      do* block_write i (replicate (Z.to_nat BLOCK_SIZE) 0xff) in
      do* assert_used i in
      let* buf := block_read i in
      do* assert_used i in
      do* assert (forallb (Z.eqb 0xff) buf) in
      write_and_read n (i + 1)
  end.
Definition test_block_write : M store_state unit := do* assert_used 0 in write_and_read 7 1.

(** ** superblock.c *)
Definition test_superblock_init : M store_state unit :=
  let* superblock := superblock_init in
  assert ((0 <? s_ninodes superblock) && (0 <? s_imap_blocks superblock) && (0 <? s_zmap_blocks superblock) &&
    (0 <? s_firstdatazone superblock) && (s_log_zone_size superblock =? 0) && (0 <? s_max_size superblock) &&
    (0 <? s_zones superblock) && (s_magic superblock =? SUPER_MAGIC_V3) && (s_blocksize superblock =? 4096) &&
    (s_disk_version superblock =? 0)).

(** ** inode.c *)
Notation fs_state := (fsys store_state).
Definition inode_setup (card : card_map) : res (unit * fs_state) :=
  match superblock_init (block_setup card) with
  | Ok (sb, st) => Ok (tt, Fsys st sb 2 ∅ [] 3 ∅ 0)
  | Err e => Err e
  end.
Definition run_fs (setup : res (unit * fs_state)) (t : M fs_state unit) : bool :=
  match setup with Ok (_, s) => passes t s | Err _ => false end.
Definition MODE : Z := Z.lor S_IFREG 0x1ed.
Definition assert_inode (a : Z) (f : inode -> bool) : M fs_state unit := let* n := get_inode_obj a in assert (f n).
Definition assert_inodes (n : Z) : M fs_state unit := let* l := gets inodes in assert (Z.of_nat (length l) =? n).
Definition test_inode_create_0 : M fs_state unit :=
  let* inode := inode_create MODE in
  assert_inode inode (fun n => negb (n_index n =? 1) && (n_mode n =? MODE) && (n_nlinks n =? 0) && (n_size n =? 0)).
Definition test_inode_create_1 : M fs_state unit :=
  let* inode1 := inode_create MODE in
  let* inode2 := inode_create MODE in
  let* n1 := get_inode_obj inode1 in
  assert_inode inode2 (fun n2 => negb (n_index n1 =? n_index n2)).
Definition test_inode_create_2 : M fs_state unit :=
  let* inode := inode_create MODE in
  let* n := get_inode_obj inode in
  let* x := read_inode (n_index n) in
  assert ((i_mode x =? MODE) && (i_nlinks x =? 0) && (i_size x =? 0) &&
    negb (zone_at x 0 =? 0) && (zone_at x 1 =? 0)).
Definition assert_cached (inode : Z) : M fs_state unit :=
  let* n := get_inode_obj inode in
  let* a := inode_get (n_index n) in
  assert (a =? inode).
Definition test_inode_create_3 : M fs_state unit :=
  do* assert_inodes 0 in
  let* inode := inode_create MODE in
  do* assert_cached inode in
  do* assert_inodes 1 in
  let* inode := inode_create MODE in
  do* assert_cached inode in
  assert_inodes 2.
Definition test_inode_destroy_0 : M fs_state unit :=
  do* assert_inodes 0 in
  let* inode := inode_create MODE in
  do* assert_inodes 1 in
  let* _ := inode_destroy inode in
  assert_inodes 0.
Definition test_inode_destroy_1 : M fs_state unit :=
  let* inode := inode_create MODE in
  let* n := get_inode_obj inode in
  let* x := read_inode (n_index n) in
  do* assert (negb (i_mode x =? 0)) in
  let* _ := inode_destroy inode in
  let* x := read_inode (n_index n) in
  assert (i_mode x =? 0).

(** ** dentry.c *)
Definition fs_setup (card : card_map) : res (unit * fs_state) := fs_init 1 2 3 (Bump 0x100 1) card.
Definition assert_dentry (a : Z) (f : dentry -> bool) : M fs_state unit := let* x := get_dentry a in assert (f x).
Definition assert_parent_child (parent child : Z) : M fs_state unit :=
  do* assert_dentry child (fun x => de_parent x =? parent) in
  assert_dentry parent (fun x => existsb (Z.eqb child) (de_children x)).
Definition lookup_path (s : string) : M fs_state Z := dentry_lookup (chars s).
Definition test_dentry_init : M fs_state unit :=
  let* root := gets root_dentry in
  do* assert_dentry root (fun x => de_parent x =? root) in
  let* x := get_dentry root in
  assert_inode (de_inode x) (fun n => n_index n =? 1).
Definition test_dentry_lookup_0 : M fs_state unit :=
  let* a := lookup_path "/" in
  do* assert (negb (a =? 0)) in
  let* b := lookup_path "/var" in
  do* assert (b =? 0) in
  let* c := lookup_path "/var/lib" in
  assert (c =? 0).
(** An entry with so many entries of its own, and links to its inode. *)
Definition assert_entry (a nentries nlinks : Z) : M fs_state unit :=
  do* assert (negb (a =? 0)) in
  do* assert_dentry a (fun x => (de_nentries x =? nentries) && negb (de_inode x =? 0)) in
  let* x := get_dentry a in
  assert_inode (de_inode x) (fun n => n_nlinks n =? nlinks).
Definition test_dentry_lookup_1 : M fs_state unit :=
  let* dentry := lookup_path "/sbin/init" in
  do* assert_entry dentry 0 1 in
  let* parent := lookup_path "/sbin" in
  do* assert_parent_child parent dentry in
  assert_entry parent 3 2.
Definition test_dentry_link : M fs_state unit :=
  let* _ := lookup_path "/" in
  let* inode := inode_create MODE in
  do* assert (negb (inode =? 0)) in
  do* assert_inode inode (fun n => n_nlinks n =? 0) in
  let* root := gets root_dentry in
  do* assert_dentry root (fun x => de_nentries x =? 2) in
  let* r := dentry_link root (chars "new") inode in
  do* assert (r =? 0) in
  do* assert_inode inode (fun n => n_nlinks n =? 1) in
  do* assert_dentry root (fun x => de_nentries x =? 3) in
  let* new := lookup_path "/new" in
  assert_parent_child root new.
(** No entry of the list has the name [init]. *)
Fixpoint assert_no_init (l : list Z) : M fs_state unit :=
  match l with
  | [] => ret tt
  | a :: l => do* assert_dentry a (fun x => negb (same_name (de_name x) (chars "init"))) in assert_no_init l
  end.
Definition test_dentry_unlink : M fs_state unit :=
  let* dentry := lookup_path "/sbin/init" in
  do* assert (negb (dentry =? 0)) in
  let* x := get_dentry dentry in
  do* assert_inode (de_inode x) (fun n => n_nlinks n =? 1) in
  do* assert_dentry (de_parent x) (fun p => de_nentries p =? 3) in
  let* r := dentry_unlink dentry in
  do* assert (r =? 0) in
  do* assert_inode (de_inode x) (fun n => n_nlinks n =? 0) in
  do* assert_dentry (de_parent x) (fun p => de_nentries p =? 2) in
  let* p := get_dentry (de_parent x) in
  assert_no_init (de_children p).

(** ** fs.c *)
(** [generate_path] with an array of [PATH_MAX + 100] bytes. *)
Definition long_path : list Z := code "/" :: replicate (Z.to_nat PATH_MAX + 98) (code "a").
Definition test_fs_check_path : M fs_state unit :=
  let* r := fs_create long_path (Z.lor O_WRONLY O_CREAT) 0x1a4 in
  do* assert (r =? - ENAMETOOLONG) in
  let* r := fs_unlink long_path in
  do* assert (r =? - ENAMETOOLONG) in
  let* r := fs_mkdir long_path 0x1ed in
  do* assert (r =? - ENAMETOOLONG) in
  let* r := fs_rmdir long_path in
  assert (r =? - ENAMETOOLONG).
Definition test_fs_lstat64 : M fs_state unit :=
  let* r := fs_lstat64 (chars "/sbin") in
  do* assert ((fst r =? 0) && holds (snd r) (fun st => Z.land (st_mode st) 0xf000 =? S_IFDIR)) in
  let* r := fs_lstat64 (chars "/sbin/init") in
  do* assert ((fst r =? 0) && holds (snd r) (fun st => Z.land (st_mode st) 0xf000 =? S_IFREG)) in
  let* r := fs_lstat64 (chars "/sbin/command_not_found") in
  assert (fst r =? - ENOENT).

(** ** All of them *)
Lemma file_system_tests_pass :
  forallb (fun t => passes t (block_setup init_card)) [test_block_read; test_block_write; test_superblock_init] &&
  forallb (run_fs (inode_setup empty_card))
    [test_inode_create_0; test_inode_create_1; test_inode_create_2; test_inode_create_3; test_inode_destroy_0; test_inode_destroy_1] &&
  forallb (run_fs (fs_setup init_card))
    [test_dentry_init; test_dentry_lookup_0; test_dentry_lookup_1; test_dentry_unlink; test_fs_check_path; test_fs_lstat64] &&
  run_fs (fs_setup empty_card) test_dentry_link = true.
Proof. vm_compute. reflexivity. Qed.
